(* ===== verification/_CoqProject ===== *)
-Q . S2P
Prelude.v
PyFloat.v
PyStr.v
Schema.v
HttpAdmission.v
Serialization.v
Json.v
Sha256.v
Merkle.v
Fnmatch.v
Action.v
Identity.v
AuditEvent.v
Mandate.v
Limits.v
Risk.v
Decision.v
Config.v
Composition.v
Payload.v
Catalogue.v
Registry.v
Signing.v
Kms.v
Evidence.v
EvidenceStore.v
PgEvidence.v
Calendar.v
BronzeRows.v
Medallion.v
PgCdc.v
GovernanceState.v
Redis.v
RedisBaseline.v
Durable.v
Sealer.v
AnchorStores.v
Maintenance.v
PromptInjection.v
Decisioning.v
Jws.v
Oidc.v
Errors.v
Observability.v
Policy.v
Spark.v
Workflow.v
Reports.v
ApprovalService.v
Dispatch.v
PgDispatch.v
Ports.v
DecisionService.v
DecisionSafety.v
Mediation.v
MemoryRuntime.v
Pool.v
Boot.v
Telemetry.v
NullDispatcher.v
HttpApp.v
