(* ===== verification/Prelude.v ===== *)
(** * GlassBox: a verification library

    GlassBox governs the actions of software agents.  An agent proposes an
    action; the decision service identifies the principal, checks the action
    against its catalogue definition, mandate, kill switch, policy, risk,
    limits and behavioural baseline, writes MAC-chained evidence of the
    decision, and only then hands the action to a dispatcher.  Around it stand
    the stores those checks read, the human review of actions that need
    approval, the sealing and retention of evidence, and the configuration
    that decides whether a process may serve at all.

    ** Files

    Values of the language:
    - [Prelude]: exceptions ([domain/errors.py]), results, the tactics and the
      generic lemmas of the library;
    - [PyFloat], [PyStr]: binary64 floats, strings and bytes;
    - [Sha256]: SHA-256 and HMAC, executable;
    - [Json]: the reader of JSON text, which reads back what the printer of
      [Serialization] prints;
    - [Fnmatch]: the shell patterns of [fnmatch].

    The domain ([src/glassbox/domain/]), one smart constructor [mk_...] per
    validated dataclass:
    - [Serialization]: canonical JSON bytes and validators;
    - [Merkle]: Merkle roots and inclusion proofs;
    - [Action], [Identity] (with tenancy), [Mandate], [Limits], [Risk],
      [Decision], [Evidence], [Catalogue] (with the tool registry's types),
      [PromptInjection], [AuditEvent]: the modules of the same names;
    - [Errors]: the error classes, their bases and codes, and the exceptions of
      the model among them.

    Stores and adapters ([src/glassbox/adapters/outbound/]); a method is a step
    from the object's state to its result and the state it leaves:
    - [Registry]: in-memory catalogue, attestations, tool registry, kill switch;
    - [Signing]: the [MacSigner] port as a class, the local HMAC signer as its
      instance; [Kms]: the key-service signer, its cache and circuit breaker;
    - [EvidenceStore]: the in-memory evidence store; [PgEvidence]: the Postgres
      store, its tables and transactions; [Schema]: its migrations and partitions;
    - [AnchorStores]: write-once anchors in files, between other processes, and
      in S3;
    - [GovernanceState]: limit, baseline and mandate stores; [Redis] and
      [RedisBaseline]: the shared limit and baseline stores, their Lua scripts
      as programs over a class of Redis commands with the times keys have to
      live, called by any number of replicas; [Durable]: the factories of the
      KMS, Postgres and Redis adapters and the connection provider;
    - [Jws], [Oidc]: signed tokens, the OIDC verifier and delegation chains over
      a class for the cryptography package;
    - [Decisioning]: development identity verifier, allow list, risk engine;
    - [Policy]: policy bundles and the declarative decision point;
    - [Dispatch]: the in-memory dispatcher; [PgDispatch]: replicas sharing a
      Postgres ledger; [NullDispatcher]: the one of replays;
    - [Calendar], [BronzeRows], [Medallion], [PgCdc], [Spark] (with [Payload]):
      analytics of the evidence, from the replication slot through the Bronze
      and Silver tables to the batch evaluation of policies.

    The application ([src/glassbox/app/], [workflow/], [store/]):
    - [Config]: configuration, profiles and loading from the environment;
    - [Composition]: adapter sets and the checked construction of a runtime;
    - [HttpAdmission]: the request-rate guard in front of the HTTP application
      ([adapters/inbound/http/]);
    - [Sealer]: sealing, anchors, inclusion proofs and the retention scheduler,
      over an interface to the evidence store; [Maintenance]: the scheduled job
      that runs it over the Postgres store;
    - [Workflow], [ApprovalService]: human review;
    - [Reports]: the [as_evidence] forms shown to operators and auditors, the
      orders of the graded enumerations, the statistics of the review queue;
    - [Observability]: the logging context, formatters and the logger;
      [Telemetry]: spans over a class of tracers, metrics, OpenTelemetry;
    - [Ports]: port calls and programs over them; [DecisionService]: every entry
      point and stage of [app/decision_service.py] as such a program;
    - [DecisionSafety]: the invariants of those programs; [Mediation]: the
      guarantees that follow; [MemoryRuntime]: the service run over the
      in-memory adapters; [Pool]: any number of its calls at once on one object
      graph; [Boot]: the factories and the wiring that make that graph;
    - [HttpApp]: the routes of the HTTP application over those programs and the
      review engine, behind [HttpAdmission].

    ** What the theorems show

    - Mediation ([Mediation], [MemoryRuntime], [Pool]): against any environment,
      whatever the ports answer or raise, an effect follows durable evidence of
      an allow; a grant was checked by every control; requests and tool calls
      are governed by their registered definitions; consumed budget is returned
      when the decision ends in a denial; a replay never acts.  With concurrent
      calls no record covers two effects, and no call waits for another.  Through
      [HttpApp]: an effect needs the credential of its own request, and a reply
      of refusal is what it says.
    - Evidence ([EvidenceStore], [PgEvidence], [Sealer], [AnchorStores],
      [Merkle], [Evidence], [Serialization]): honest stores verify, in memory
      and in Postgres with failing connections, under conditions on the run that
      the theorems name; a changed record is found where
      it is, unless the stored MAC authenticates both payloads; receipts are
      durable; purges need an anchor; sealed records stay provable; an anchor is
      written once and read back, whatever fails around it; the maintenance job
      ([Maintenance]) leaves honest evidence however it ends.
    - Dispatch ([Dispatch], [PgDispatch]): at most one effect per idempotency
      key under every interleaving of threads, replicas and crashes; outcomes
      are reported as they happened.
    - Review ([Workflow], [ApprovalService]): approval needs its quorum, the
      engine refines a small abstract review process, expiry clears the queue.
    - Controls ([Policy], [Mandate], [Registry], [Identity], [GovernanceState],
      [PromptInjection], [Catalogue], [Risk], [Action], [Decision]): each
      decides exactly what its specification says; where a call is answered, the
      Redis stores give the answers of the in-memory ones, under conditions that
      the theorems name and examples show to matter ([Redis], [RedisBaseline]).
    - Identity ([Jws], [Oidc]): a principal is exactly what a key of the
      provider signed for the trusted issuer and audience; chains only narrow.
    - Analytics ([Calendar], [BronzeRows], [Medallion], [PgCdc], [Spark]): rows
      are the records; each lands once, but for what the replication slot gave to
      a run that stopped before writing it; a batch run repeats the live
      decision.
    - Reporting ([Reports], [Observability], [Telemetry]): a report determines
      what it reports; a log line is one line, written once, with the bound
      context; tracing never changes a decision.
    - Signing and startup ([Kms], [Config], [Composition], [Boot], [Durable],
      [Schema], [HttpAdmission]): a MAC is the key service's or an error; a production
      process starts only with its safety switches on, a complete runtime and
      every migration applied once; the guard admits a sliding window of the
      clients it tracks.

    Some examples state what the code does where its documentation says
    otherwise; they are named after the behaviour they show.

    ** Bounds and fuel

    Loops of the code are structural recursions or folds where they can be.
    Recursions that are not have fuel, proved enough: the Merkle tree of
    [Merkle] splits at most once per leaf ([root_fuel_enough]), the reader of
    [Json] eats a character in every second call ([parse_enough]), and the
    regular expression matcher of [PromptInjection] iterates a star at most once
    per character; the drain of [Medallion] takes the bound of batches the code
    takes, and more batches than events are proved enough.  Loops that wait for another system are given their turns:
    [await_existing] of [PgDispatch] each turn with the table it sees, and the
    pages of an S3 listing.  Integers of Python are unbounded and are
    [Z]; the 32-bit words of [Sha256] wrap around explicitly.

    ** Assumptions of the model

    Methods that hold the object's lock are atomic steps.  So are the operations
    of the review engine, of which only the quorum is under a lock: its SLA
    monitor thread takes its turns between them.  [purge_before] of
    [EvidenceStore], which releases the lock between its check and its purge, is
    one step too, but its purge is also a step of its own, so other calls may
    come in between.  The job of [Maintenance] has a role that bypasses
    row-level security.  In [Pool] every
    port call but [dispatch] is a step, between whose critical sections other
    calls, the operator (short of purging evidence) and the clock take theirs.  Minted
    ids are apart as far as they were minted.  Time is an argument.
    Strings hold the code points below 256, so case folding and identifiers
    are those of Latin-1.  Digest collisions are never assumed away: a theorem
    that needs their absence names the byte strings that would have to collide,
    among those the two computations hash.  Handlers of effects, signers of
    other systems, SDK answers and what a database column keeps of a value are
    parameters.

    ** Not modelled

    The text and context of exceptions; the log calls of the modelled operations
    (no result depends on them); the statements of SQL and the sockets behind a
    connection; threads that only repeat a modelled step; the scripts outside
    the package. *)

From stdpp Require Import base tactics list strings gmap.
From Stdlib Require Import ZArith Lia.

(** ** Python exceptions

    The classes of [glassbox/domain/errors.py] that the modelled code raises
    or catches, plus the built-in classes it raises.  An exception is its
    class; [DomainValidationError] also keeps the [field] it names.  A class
    also stands for those of its subclasses that no modelled code tells apart
    from it ([EvidenceWriteError] for [DriverUnavailableError], say; only the
    status of an HTTP reply depends on the name, see [HttpApp]).  Messages
    and diagnostic context are not modelled: no code branches on them. *)
Inductive exn :=
| DomainValidationError (field : string)
| IdentityError
| CredentialExpiredError
| DelegationError
| MandateError
| PolicyBundleUnavailableError
| PolicyBundleSignatureError
| ActionNotGovernedError
| CatalogueBundleUnavailableError
| AttestationUnavailableError
| KillSwitchUnavailableError
| ToolNotGovernedError
| ToolRegistryUnavailableError
| ToolQuarantinedError
| RiskModelUnavailableError
| LimitStoreUnavailable
| BaselineStoreUnavailable
| EvidenceWriteError
| EvidenceIntegrityError
| SigningUnavailableError
| DispatchError
| DispatchTimeoutError
| DispatchRefusedError
| ToolOutputQuarantinedError
| ApprovalNotFoundError
| ApprovalGatewayUnavailableError
| PyValueError
| PyTypeError
| PyKeyError
| PyOverflowError
| PyException (class_name : string).

(** [type(exc).__name__]. *)
Definition exn_name (e : exn) : string :=
  match e with
  | DomainValidationError _ => "DomainValidationError"
  | IdentityError => "IdentityError"
  | CredentialExpiredError => "CredentialExpiredError"
  | DelegationError => "DelegationError"
  | MandateError => "MandateError"
  | PolicyBundleUnavailableError => "PolicyBundleUnavailableError"
  | PolicyBundleSignatureError => "PolicyBundleSignatureError"
  | ActionNotGovernedError => "ActionNotGovernedError"
  | CatalogueBundleUnavailableError => "CatalogueBundleUnavailableError"
  | AttestationUnavailableError => "AttestationUnavailableError"
  | KillSwitchUnavailableError => "KillSwitchUnavailableError"
  | ToolNotGovernedError => "ToolNotGovernedError"
  | ToolRegistryUnavailableError => "ToolRegistryUnavailableError"
  | ToolQuarantinedError => "ToolQuarantinedError"
  | RiskModelUnavailableError => "RiskModelUnavailableError"
  | LimitStoreUnavailable => "LimitStoreUnavailable"
  | BaselineStoreUnavailable => "BaselineStoreUnavailable"
  | EvidenceWriteError => "EvidenceWriteError"
  | EvidenceIntegrityError => "EvidenceIntegrityError"
  | SigningUnavailableError => "SigningUnavailableError"
  | DispatchError => "DispatchError"
  | DispatchTimeoutError => "DispatchTimeoutError"
  | DispatchRefusedError => "DispatchRefusedError"
  | ToolOutputQuarantinedError => "ToolOutputQuarantinedError"
  | ApprovalNotFoundError => "ApprovalNotFoundError"
  | ApprovalGatewayUnavailableError => "ApprovalGatewayUnavailableError"
  | PyValueError => "ValueError"
  | PyTypeError => "TypeError"
  | PyKeyError => "KeyError"
  | PyOverflowError => "OverflowError"
  | PyException n => n
  end.

(** The [except] clauses that name a class with subclasses. *)
Definition is_identity_error (e : exn) : bool :=
  match e with
  | IdentityError | CredentialExpiredError | DelegationError => true
  | _ => false
  end.

Definition is_dispatch_error (e : exn) : bool :=
  match e with
  | DispatchError | DispatchTimeoutError | DispatchRefusedError
  | ToolOutputQuarantinedError => true
  | _ => false
  end.

#[export] Instance exn_eq_dec : EqDecision exn.
Proof. solve_decision. Defined.

(** ** Results: a value or a raised exception *)
Inductive res (A : Type) :=
| Ok (a : A)
| Raise (e : exn).
Arguments Ok {A} a.
Arguments Raise {A} e.

#[export] Instance res_ret : MRet res := fun _ a => Ok a.
#[export] Instance res_bind : MBind res :=
  fun _ _ f m => match m with Ok a => f a | Raise e => Raise e end.
#[export] Instance res_fmap : FMap res :=
  fun _ _ f m => match m with Ok a => Ok (f a) | Raise e => Raise e end.

(** [if c: raise e]. *)
Definition raise_if (c : bool) (e : exn) : res unit :=
  if c then Raise e else Ok tt.

Definition is_ok {A} (r : res A) : bool :=
  match r with Ok _ => true | Raise _ => false end.

Section iteration.
Context {A B : Type}.

(** Run a check over every element, raising at the first that fails. *)
Definition res_all (f : A -> res unit) : list A -> res unit :=
  fix go l := match l with
  | [] => Ok tt
  | x :: l' => _ ← f x; go l'
  end.

(** A list comprehension whose element expression may raise. *)
Definition res_map (f : A -> res B) : list A -> res (list B) :=
  fix go l := match l with
  | [] => Ok []
  | x :: l' => y ← f x; ys ← go l'; Ok (y :: ys)
  end.

(** The same over [enumerate(l)]. *)
Definition res_mapi (f : nat -> A -> res B) : nat -> list A -> res (list B) :=
  fix go i l := match l with
  | [] => Ok []
  | x :: l' => y ← f i x; ys ← go (S i) l'; Ok (y :: ys)
  end.
End iteration.

Definition res_opt {A B} (f : A -> res B) (o : option A) : res (option B) :=
  match o with
  | None => Ok None
  | Some x => y ← f x; Ok (Some y)
  end.

Lemma bind_ok {A B} (m : res A) (f : A -> res B) b :
  (m ≫= f) = Ok b <-> exists a, m = Ok a /\ f a = Ok b.
Proof.
  destruct m as [a|e]; simpl; split; intros H; [by eauto | | done | by naive_solver].
  by destruct H as (? & [= ->] & ?).
Qed.

Lemma raise_if_ok c e u : raise_if c e = Ok u <-> c = false.
Proof. destruct c, u; simpl; split; congruence. Qed.

Lemma res_all_ok {A} (f : A -> res unit) l :
  res_all f l = Ok tt <-> Forall (fun x => f x = Ok tt) l.
Proof.
  induction l as [|x l IH]; simpl; [by split|].
  rewrite bind_ok, Forall_cons, <-IH. split; [intros ([] & ? & ?) | ]; naive_solver.
Qed.

Lemma res_opt_ok {A B} (f : A -> res B) o r :
  res_opt f o = Ok r <->
  (o = None /\ r = None) \/ (exists x y, o = Some x /\ f x = Ok y /\ r = Some y).
Proof.
  destruct o; simpl; [rewrite bind_ok|]; naive_solver.
Qed.

Lemma res_map_ok {A B} (f : A -> res B) l r :
  res_map f l = Ok r <-> Forall2 (fun x y => f x = Ok y) l r.
Proof.
  revert r. induction l as [|x l IH]; intros r; simpl.
  { split; [intros [= <-]; constructor | by inversion 1]. }
  rewrite bind_ok. setoid_rewrite bind_ok. split.
  - intros (y & Hy & ys & Hys & [= <-]). constructor; [done|]. by apply IH.
  - inversion 1; subst. eexists; split; [done|]. eexists; split; [by apply IH|done].
Qed.

(** ** Shared list facts *)

Fixpoint has_dup (seen l : list string) : bool :=
  match l with
  | [] => false
  | x :: l' => bool_decide (x ∈ seen) || has_dup (x :: seen) l'
  end.

Lemma has_dup_false seen l :
  has_dup seen l = false <-> NoDup l /\ Forall (fun x => x ∉ seen) l.
Proof.
  revert seen. induction l as [|x l IH]; intros seen; simpl.
  { by split; [split; constructor | ]. }
  rewrite orb_false_iff, IH, bool_decide_eq_false, NoDup_cons, Forall_cons, !Forall_forall.
  split.
  - intros (Hx & Hnd & Hall). repeat split; try done.
    + intros Hin. apply Hall in Hin. set_solver.
    + intros y Hy. apply Hall in Hy. set_solver.
  - intros ((Hx & Hnd) & Hs & Hall). repeat split; try done.
    intros y Hy. specialize (Hall y Hy). set_solver.
Qed.

Lemma nodup_map_inj {A B} (f : A -> B) l x y :
  NoDup (map f l) -> x ∈ l -> y ∈ l -> f x = f y -> x = y.
Proof.
  induction l as [|z l IH]; simpl; [by intros _ ?%not_elem_of_nil|].
  rewrite NoDup_cons, !elem_of_cons. intros [Hz Hnd] Hx Hy Heq.
  destruct Hx as [->|Hx], Hy as [->|Hy]; [done | | | by apply IH].
  - destruct Hz. rewrite Heq. by apply (list_elem_of_fmap_2 f).
  - destruct Hz. rewrite <-Heq. by apply (list_elem_of_fmap_2 f).
Qed.

Lemma Forall2_perm_l {A B} (R : A -> B -> Prop) l l' k :
  l ≡ₚ l' -> Forall2 R l k -> exists k', k ≡ₚ k' /\ Forall2 R l' k'.
Proof.
  intros Hp. revert k. induction Hp as [|x l l' Hp IH|x y l|l l' l'' _ IH1 _ IH2]; intros k H.
  - inversion H. by exists [].
  - inversion H as [|? z ? k0 Hz Hk]; subst. destruct (IH _ Hk) as (k' & Hk' & HF).
    exists (z :: k'). split; [by rewrite Hk' | by constructor].
  - inversion H as [|? a ? k0 Ha Hk]; subst. inversion Hk as [|? b ? k1 Hb Hk1]; subst.
    exists (b :: a :: k1). split; [by constructor | by repeat constructor].
  - destruct (IH1 _ H) as (k1 & Hk1 & HF1). destruct (IH2 _ HF1) as (k2 & Hk2 & HF2).
    exists k2. split; [by rewrite Hk1 | done].
Qed.

(** ** Automation *)

Create HintDb glassbox.

(** Take a successful monadic run apart, one [bind] at a time. *)
Ltac inv_ok :=
  repeat match goal with
  | H : Ok _ = Ok _ |- _ => injection H as H
  | H : Raise _ = Ok _ |- _ => discriminate H
  | H : Ok _ = Raise _ |- _ => discriminate H
  | H : (_ ≫= _) = Ok _ |- _ => apply bind_ok in H; destruct H as (? & ? & ?)
  | H : raise_if _ _ = Ok _ |- _ => apply raise_if_ok in H
  | H : unit |- _ => destruct H
  end.
