(* ===== verification/PyFloat.v ===== *)
(** * Python floats

    A Python [float] is an IEEE 754 binary64 number.  [SpecFloat] of the
    standard library is the executable specification of that arithmetic
    (round to nearest, ties to even); this file instantiates it at precision
    53 and exponent bound 1024, adds [float(int)], [math.isfinite] and the
    compensated [sum] of CPython 3.12 and later, and proves that the
    comparisons order the numbers totally (a NaN compares false with
    everything). *)

From stdpp Require Import base tactics list.
From Stdlib Require Import ZArith Lia SpecFloat.
From S2P Require Import Prelude.

Abbreviation float := spec_float.

Definition fadd : float -> float -> float := SFadd 53 1024.
Definition fsub : float -> float -> float := SFsub 53 1024.
Definition fmul : float -> float -> float := SFmul 53 1024.
Definition fdiv : float -> float -> float := SFdiv 53 1024.
Definition fsqrt : float -> float := SFsqrt 53 1024.
Definition fabs : float -> float := SFabs.

Definition flt : float -> float -> bool := SFltb.
Definition fle : float -> float -> bool := SFleb.
Definition feq : float -> float -> bool := SFeqb.
Definition fgt (x y : float) : bool := SFltb y x.
Definition fge (x y : float) : bool := SFleb y x.

Definition finf : float := S754_infinity false.

(** [math.isfinite]. *)
Definition isfinite (x : float) : bool :=
  match x with
  | S754_zero _ | S754_finite _ _ _ => true
  | S754_infinity _ | S754_nan => false
  end.

(** The float nearest to an integer; an integer literal of the source with a
    [.0] is written [fz n]. *)
Definition fz (z : Z) : float := binary_normalize 53 1024 z 0 false.

(** [float(n)] on an [int]: rounds, and raises when the result overflows. *)
Definition float_of_int (z : Z) : res float :=
  let x := fz z in
  if isfinite x then Ok x else Raise PyOverflowError.

(** Structural equality: bit-for-bit, so it separates the two zeros. *)
#[export] Instance float_eq_dec : EqDecision float.
Proof. solve_decision. Defined.

(** ** [sum] of floats

    CPython 3.12 and later keeps a running compensation (Neumaier): the
    result is [total + c] when the compensation is non-zero and finite. *)
Definition neumaier_step (acc : float * float) (x : float) : float * float :=
  let '(total, c) := acc in
  let t := fadd total x in
  let c' :=
    if fge (fabs total) (fabs x)
    then fadd c (fadd (fsub total t) x)
    else fadd c (fadd (fsub x t) total) in
  (t, c').

Definition py_sum (l : list float) : float :=
  let '(total, c) := foldl neumaier_step (fz 0, fz 0) l in
  if negb (feq c (fz 0)) && isfinite c then fadd total c else total.

(** [int(x)] of a float: towards zero; nan and the infinities raise. *)
Definition trunc (x : float) : option Z :=
  match x with
  | S754_zero _ => Some 0%Z
  | S754_finite s m e =>
      let z := if (0 <=? e)%Z then (Zpos m * 2 ^ e)%Z else (Zpos m / 2 ^ (- e))%Z in
      Some (if s then (- z)%Z else z)
  | _ => None
  end.

(** ** The order on floats

    [SFcompare] is the lexicographic order on [rank]. *)
Definition is_nan (x : float) : bool :=
  match x with S754_nan => true | _ => false end.

Definition rank (x : float) : Z * Z * Z :=
  match x with
  | S754_nan => (0, 0, 0)
  | S754_infinity true => (-2, 0, 0)
  | S754_finite true m e => (-1, -e, Zneg m)
  | S754_zero _ => (0, 0, 0)
  | S754_finite false m e => (1, e, Zpos m)
  | S754_infinity false => (2, 0, 0)
  end%Z.

Definition rank_lt (a b : Z * Z * Z) : Prop :=
  let '(a1, a2, a3) := a in
  let '(b1, b2, b3) := b in
  (a1 < b1 \/ (a1 = b1 /\ (a2 < b2 \/ (a2 = b2 /\ a3 < b3))))%Z.

Lemma SFcompare_rank x y :
  is_nan x = false -> is_nan y = false ->
  match SFcompare x y with
  | Some Lt => rank_lt (rank x) (rank y)
  | Some Eq => rank x = rank y
  | Some Gt => rank_lt (rank y) (rank x)
  | None => False
  end.
Proof.
  destruct x as [sx|sx| |sx mx ex], y as [sy|sy| |sy my ey]; try done;
    try destruct sx; try destruct sy; simpl; intros _ _; try done; try lia.
  all: destruct (Z.compare_spec ex ey) as [->| |]; simpl; try lia.
  all: change (Pos.compare_cont Eq mx my) with (Pos.compare mx my).
  all: destruct (Pos.compare_spec mx my) as [->| |]; simpl; try done; lia.
Qed.

Lemma SFcompare_nan x y :
  is_nan x || is_nan y = true -> SFcompare x y = None.
Proof. destruct x, y; simpl; done. Qed.

Lemma flt_spec x y :
  flt x y = true <-> is_nan x = false /\ is_nan y = false /\ rank_lt (rank x) (rank y).
Proof.
  unfold flt, SFltb.
  destruct (is_nan x) eqn:Nx; [rewrite SFcompare_nan by (by rewrite Nx); naive_solver|].
  destruct (is_nan y) eqn:Ny; [rewrite SFcompare_nan by (by rewrite Nx, Ny); naive_solver|].
  pose proof (SFcompare_rank x y Nx Ny) as H.
  destruct (SFcompare x y) as [[]|]; try done;
    destruct (rank x) as [[? ?] ?], (rank y) as [[? ?] ?]; simpl in *;
    split; intros HH; try done; destruct HH as (_ & _ & HH); simplify_eq; lia.
Qed.

Lemma fle_spec x y :
  fle x y = true <-> is_nan x = false /\ is_nan y = false /\ ~ rank_lt (rank y) (rank x).
Proof.
  unfold fle, SFleb.
  destruct (is_nan x) eqn:Nx; [rewrite SFcompare_nan by (by rewrite Nx); naive_solver|].
  destruct (is_nan y) eqn:Ny; [rewrite SFcompare_nan by (by rewrite Nx, Ny); naive_solver|].
  pose proof (SFcompare_rank x y Nx Ny) as H.
  destruct (SFcompare x y) as [[]|]; try done;
    destruct (rank x) as [[? ?] ?], (rank y) as [[? ?] ?]; simpl in *;
    split; intros HH; try done; try (destruct HH as (_ & _ & HH)); simplify_eq;
    repeat split; try done; lia.
Qed.

Lemma feq_spec x y :
  feq x y = true <-> is_nan x = false /\ is_nan y = false /\ rank x = rank y.
Proof.
  unfold feq, SFeqb.
  destruct (is_nan x) eqn:Nx; [rewrite SFcompare_nan by (by rewrite Nx); naive_solver|].
  destruct (is_nan y) eqn:Ny; [rewrite SFcompare_nan by (by rewrite Nx, Ny); naive_solver|].
  pose proof (SFcompare_rank x y Nx Ny) as H.
  destruct (SFcompare x y) as [[]|]; try done;
    destruct (rank x) as [[? ?] ?], (rank y) as [[? ?] ?]; simpl in *;
    split; intros HH; try done; destruct HH as (_ & _ & HH); simplify_eq; lia.
Qed.

Lemma fgt_spec x y :
  fgt x y = true <-> is_nan x = false /\ is_nan y = false /\ rank_lt (rank y) (rank x).
Proof. unfold fgt. rewrite (flt_spec y x). naive_solver. Qed.

Lemma fge_spec x y :
  fge x y = true <-> is_nan x = false /\ is_nan y = false /\ ~ rank_lt (rank x) (rank y).
Proof. unfold fge. rewrite (fle_spec y x). naive_solver. Qed.

(** Restate the float comparisons of the context and the goal on ranks and
    finish with [lia]. *)
Ltac float_ranks :=
  repeat match goal with
  | H : flt _ _ = true |- _ => apply flt_spec in H; destruct H as (? & ? & ?)
  | H : fle _ _ = true |- _ => apply fle_spec in H; destruct H as (? & ? & ?)
  | H : fgt _ _ = true |- _ => apply fgt_spec in H; destruct H as (? & ? & ?)
  | H : fge _ _ = true |- _ => apply fge_spec in H; destruct H as (? & ? & ?)
  | H : feq _ _ = true |- _ => apply feq_spec in H; destruct H as (? & ? & ?)
  | |- flt _ _ = true => apply flt_spec; split_and!; [done | done |]
  | |- fle _ _ = true => apply fle_spec; split_and!; [done | done |]
  | |- fgt _ _ = true => apply fgt_spec; split_and!; [done | done |]
  | |- fge _ _ = true => apply fge_spec; split_and!; [done | done |]
  | |- feq _ _ = true => apply feq_spec; split_and!; [done | done |]
  end;
  repeat match goal with
  | H : context [rank ?x] |- _ => destruct (rank x) as [[? ?] ?]
  | |- context [rank ?x] => destruct (rank x) as [[? ?] ?]
  end; unfold rank_lt in *; try lia.

Lemma fle_refl x : is_nan x = false -> fle x x = true.
Proof. intros. float_ranks. Qed.

Lemma fle_trans x y z : fle x y = true -> fle y z = true -> fle x z = true.
Proof. intros. float_ranks. Qed.

Lemma flt_fle_trans x y z : flt x y = true -> fle y z = true -> flt x z = true.
Proof. intros. float_ranks. Qed.

Lemma fle_flt_trans x y z : fle x y = true -> flt y z = true -> flt x z = true.
Proof. intros. float_ranks. Qed.

Lemma flt_fle x y : flt x y = true -> fle x y = true.
Proof. intros. float_ranks. Qed.

Lemma flt_irrefl x : flt x x = false.
Proof. apply not_true_iff_false. intros H. float_ranks. Qed.

(** On numbers, [<=] is the negation of the reverse [<]. *)
Lemma fle_negb_flt x y :
  is_nan x = false -> is_nan y = false -> fle x y = negb (flt y x).
Proof.
  intros Hx Hy. destruct (flt y x) eqn:E; simpl.
  - apply not_true_iff_false. intros H. float_ranks.
  - apply fle_spec. split_and!; try done. intros H.
    apply not_true_iff_false in E. apply E. by apply flt_spec.
Qed.

Lemma fge_fle x y : fge x y = fle y x.
Proof. done. Qed.

Lemma fgt_flt x y : fgt x y = flt y x.
Proof. done. Qed.

Lemma flt_nan x y : flt x y = true -> is_nan x = false /\ is_nan y = false.
Proof. rewrite flt_spec. naive_solver. Qed.

Lemma fle_nan x y : fle x y = true -> is_nan x = false /\ is_nan y = false.
Proof. rewrite fle_spec. naive_solver. Qed.

Lemma isfinite_nan x : isfinite x = true -> is_nan x = false.
Proof. by destruct x. Qed.

Lemma flt_false_fle x y :
  is_nan x = false -> is_nan y = false -> flt x y = false -> fle y x = true.
Proof. intros Hx Hy H. rewrite fle_negb_flt by done. by rewrite H. Qed.

Lemma fle_false_flt x y :
  is_nan x = false -> is_nan y = false -> fle x y = false -> flt y x = true.
Proof. intros Hx Hy. rewrite fle_negb_flt by done. by destruct (flt y x). Qed.

Lemma flt_asym x y : flt x y = true -> flt y x = false.
Proof. intros H. apply not_true_iff_false. intros H'. float_ranks. Qed.

Lemma fgt_false x y :
  isfinite x = true -> isfinite y = true -> (fgt x y = false <-> fle x y = true).
Proof.
  intros Hx%isfinite_nan Hy%isfinite_nan. rewrite fle_negb_flt, fgt_flt by done.
  by destruct (flt y x).
Qed.

#[export] Hint Resolve fle_refl flt_fle isfinite_nan : glassbox.
