(* ===== verification/PyStr.v ===== *)
(** * Python strings and bytes

    A [str] is modelled on the code points U+0000 to U+00FF, one [ascii] per
    code point ([len], slicing and comparison are by code point); [bytes] is
    a [list byte].  The functions here are the parts of [str], [bytes] and
    [float.__repr__] that the modelled code calls. *)

From stdpp Require Import base tactics list strings.
From Stdlib Require Import ZArith NArith Lia SpecFloat Ascii String.
From Stdlib Require Import Init.Byte DecimalString DecimalZ.
From S2P Require Import Prelude PyFloat.

Open Scope string_scope.

(** stdpp blocks the unfolding of string concatenation; the proofs here need it. *)
#[global] Arguments String.append !s1 s2 : simpl nomatch.

Definition code (c : ascii) : N := N_of_ascii c.

Definition in_range (lo hi : N) (c : ascii) : bool :=
  ((lo <=? code c) && (code c <=? hi))%N.

Definition is_digit (c : ascii) : bool := in_range 48 57 c.
Definition is_alnum (c : ascii) : bool :=
  in_range 48 57 c || in_range 65 90 c || in_range 97 122 c.

(** The characters [str.strip] removes, up to U+00FF. *)
Definition is_space (c : ascii) : bool :=
  in_range 9 13 c || in_range 28 32 c || (code c =? 133)%N || (code c =? 160)%N.

Fixpoint str_forallb (f : ascii -> bool) (s : string) : bool :=
  match s with
  | EmptyString => true
  | String c s' => f c && str_forallb f s'
  end.

(** [not s.strip()]. *)
Definition is_blank (s : string) : bool := str_forallb is_space s.

(** [s.lower()]: the cased letters of ASCII and Latin-1. *)
Definition lower_char (c : ascii) : ascii :=
  if in_range 65 90 c || (in_range 192 222 c && negb (code c =? 215)%N)
  then ascii_of_N (code c + 32) else c.

Fixpoint lower (s : string) : string :=
  match s with
  | EmptyString => EmptyString
  | String c s' => String (lower_char c) (lower s')
  end.

Definition str_is_empty (s : string) : bool :=
  match s with EmptyString => true | _ => false end.

(** [x or y] on strings. *)
Definition str_or (x y : string) : string := if str_is_empty x then y else x.

Fixpoint startswith (p s : string) : bool :=
  match p, s with
  | EmptyString, _ => true
  | String a p', String b s' => Ascii.eqb a b && startswith p' s'
  | String _ _, EmptyString => false
  end.

Fixpoint rev_str (s acc : string) : string :=
  match s with
  | EmptyString => acc
  | String c s' => rev_str s' (String c acc)
  end.

Fixpoint endswith (p s : string) : bool :=
  String.eqb p s ||
  match s with
  | EmptyString => false
  | String _ s' => endswith p s'
  end.

(** [s.split(c, 1)[0]]. *)
Fixpoint before (c : ascii) (s : string) : string :=
  match s with
  | EmptyString => EmptyString
  | String a s' => if Ascii.eqb a c then EmptyString else String a (before c s')
  end.

Fixpoint has_char (c : ascii) (s : string) : bool :=
  match s with
  | EmptyString => false
  | String a s' => Ascii.eqb a c || has_char c s'
  end.

(** [s.split(c)]. *)
Fixpoint split_on (c : ascii) (s : string) : list string :=
  match s with
  | EmptyString => [EmptyString]
  | String a s' =>
      if Ascii.eqb a c then EmptyString :: split_on c s'
      else match split_on c s' with
           | [] => [String a EmptyString]
           | w :: ws => String a w :: ws
           end
  end.

(** [sep.join(l)]. *)
Fixpoint str_join (sep : string) (l : list string) : string :=
  match l with
  | [] => EmptyString
  | [x] => x
  | x :: l' => x +:+ sep +:+ str_join sep l'
  end.

(** [str(n)] of an [int]. *)
Definition str_of_int (z : Z) : string := NilEmpty.string_of_int (Z.to_int z).

(** The order Python uses to sort strings. *)
Definition str_leb (a b : string) : bool := String.leb a b.

(** ** [repr] of a string *)
Definition hex_digit (n : N) : ascii :=
  if (n <? 10)%N then ascii_of_N (48 + n) else ascii_of_N (87 + n).

Definition hex2 (n : N) : string :=
  String (hex_digit (n / 16)) (String (hex_digit (n mod 16)) EmptyString).

Definition quote_char : ascii := ascii_of_N 39.
Definition dquote_char : ascii := ascii_of_N 34.
Definition backslash : ascii := ascii_of_N 92.

Definition repr_char (q c : ascii) : string :=
  let n := code c in
  if Ascii.eqb c q || Ascii.eqb c backslash then String backslash (String c EmptyString)
  else if (n =? 9)%N then String backslash "t"
  else if (n =? 10)%N then String backslash "n"
  else if (n =? 13)%N then String backslash "r"
  else if ((n <? 32) || ((127 <=? n) && (n <=? 160)) || (n =? 173))%N
  then String backslash ("x" +:+ hex2 n)
  else String c EmptyString.

Fixpoint repr_body (q : ascii) (s : string) : string :=
  match s with
  | EmptyString => EmptyString
  | String c s' => repr_char q c +:+ repr_body q s'
  end.

Definition str_repr (s : string) : string :=
  let q := if has_char quote_char s && negb (has_char dquote_char s)
           then dquote_char else quote_char in
  String q (repr_body q s +:+ String q EmptyString).

(** ** Bytes *)
Definition byte_Z (b : byte) : Z := Z.of_N (Byte.to_N b).

Definition Z_byte (z : Z) : byte :=
  match Byte.of_N (Z.to_N (z mod 256)) with Some b => b | None => x00 end.

(** [s.encode("utf-8")]. *)
Definition utf8_char (c : ascii) : list byte :=
  let n := Z.of_N (code c) in
  if (n <? 128)%Z then [Z_byte n]
  else [Z_byte (192 + n / 64); Z_byte (128 + n mod 64)].

Fixpoint utf8 (s : string) : list byte :=
  match s with
  | EmptyString => []
  | String c s' => utf8_char c ++ utf8 s'
  end.

(** [b.hex()]. *)
Fixpoint bytes_hex (l : list byte) : string :=
  match l with
  | [] => EmptyString
  | b :: l' => hex2 (Byte.to_N b) +:+ bytes_hex l'
  end.

#[export] Instance byte_eq_dec : EqDecision byte.
Proof. exact Byte.byte_eq_dec. Defined.

(** ** [repr] of a float

    CPython prints the shortest decimal that reads back as the same number;
    among the decimals of that length, the closest one.  [dec_to_float] reads
    a decimal [d * 10^k] with correct rounding, [float_of_str] reads a whole
    literal, and [float_repr] searches the lengths 1 to 17 for the first
    literal that reads back. *)
Definition dec_to_float (d k : Z) : float :=
  match d with
  | Z0 => S754_zero false
  | _ =>
      if (0 <=? k)%Z then fz (d * 10 ^ k)
      else
        let '(q, e, l) := SFdiv_core_binary 53 1024 d 0 (10 ^ (- k)) 0 in
        binary_round_aux 53 1024 false q e l
  end.

Definition digit_val (c : ascii) : Z := Z.of_N (code c) - 48.

(** The exponent part, after the [e]. *)
Fixpoint parse_exp_digits (s : string) (acc : Z) : option Z :=
  match s with
  | EmptyString => Some acc
  | String c s' => if is_digit c then parse_exp_digits s' (acc * 10 + digit_val c)%Z else None
  end.

Definition parse_exp (s : string) : option Z :=
  match s with
  | String "+" s' => parse_exp_digits s' 0
  | String "-" s' => Z.opp <$> parse_exp_digits s' 0
  | _ => parse_exp_digits s 0
  end.

(** Mantissa digits; [frac] counts the digits after the point once seen. *)
Fixpoint parse_mant (s : string) (acc : Z) (frac : option Z) : option (Z * Z) :=
  match s with
  | EmptyString => Some (acc, - default 0 frac)%Z
  | String c s' =>
      if is_digit c then parse_mant s' (acc * 10 + digit_val c)%Z (Z.succ <$> frac)
      else if Ascii.eqb c "." then
        match frac with None => parse_mant s' acc (Some 0%Z) | Some _ => None end
      else if Ascii.eqb c "e" then
        k ← parse_exp s'; Some (acc, k - default 0 frac)%Z
      else None
  end.

Definition fneg (x : float) : float := SFopp x.

Definition float_of_unsigned_str (s : string) : option float :=
  '(d, k) ← parse_mant s 0 None; Some (dec_to_float d k).

(** [float(s)] on the literals [repr] produces. *)
Definition float_of_str (s : string) : option float :=
  match s with
  | String "-" s' => fneg <$> float_of_unsigned_str s'
  | _ => float_of_unsigned_str s
  end.

Fixpoint str_zeros (n : nat) : string :=
  match n with O => EmptyString | S n' => String "0" (str_zeros n') end.

Fixpoint strip_trailing_zeros (fuel : nat) (d : Z) (k : Z) : Z * Z :=
  match fuel with
  | O => (d, k)
  | S f => if (d mod 10 =? 0)%Z then strip_trailing_zeros f (d / 10) (k + 1) else (d, k)
  end.

(** The literal for [d * 10^k], [d > 0]: positional when the decimal point
    falls in [-3 .. 16], scientific otherwise. *)
Definition format_decimal (d0 k0 : Z) : string :=
  let '(d, k) := strip_trailing_zeros 20 d0 k0 in
  let ds := str_of_int d in
  let len := String.length ds in
  let decpt := (Z.of_nat len + k)%Z in
  if ((-4 <? decpt) && (decpt <=? 16))%Z then
    if (decpt <=? 0)%Z then "0." +:+ str_zeros (Z.to_nat (- decpt)) +:+ ds
    else if (Z.of_nat len <=? decpt)%Z
    then ds +:+ str_zeros (Z.to_nat decpt - len) +:+ ".0"
    else String.substring 0 (Z.to_nat decpt) ds +:+ "." +:+
         String.substring (Z.to_nat decpt) (len - Z.to_nat decpt) ds
  else
    let e := (decpt - 1)%Z in
    let edigits := str_of_int (Z.abs e) in
    let epad := if (Z.abs e <? 10)%Z then "0" +:+ edigits else edigits in
    let mant := if (len =? 1)%nat then ds
                else String.substring 0 1 ds +:+ "." +:+ String.substring 1 (len - 1) ds in
    mant +:+ "e" +:+ (if (e <? 0)%Z then "-" else "+") +:+ epad.

(** [m * 2^e] as a fraction. *)
Definition frac_of (m : positive) (e : Z) : Z * Z :=
  if (0 <=? e)%Z then (Zpos m * 2 ^ e, 1)%Z else (Zpos m, 2 ^ (- e))%Z.

(** Whether [m * 2^e < 10^k]. *)
Definition below_pow10 (m : positive) (e k : Z) : bool :=
  let '(num, den) := frac_of m e in
  (if 0 <=? k then num <? den * 10 ^ k else num * 10 ^ (- k) <? den)%Z.

(** The position of the decimal point: [10^(decpt-1) <= m * 2^e < 10^decpt].
    [log2] bounds the logarithm to within one decimal place. *)
Definition decimal_point (m : positive) (e : Z) : Z :=
  let g := ((Z.log2 (Zpos m) + e) * 30103 / 100000)%Z in
  default (g + 3)%Z
    (List.find (fun k => below_pow10 m e k) [g - 1; g; g + 1; g + 2]%Z).

(** The candidate literals with [n] digits, closest first. *)
Definition candidates (m : positive) (e : Z) (decpt n : Z) : list string :=
  let '(num, den) := frac_of m e in
  let s := (n - decpt)%Z in
  let '(num', den') := if (0 <=? s)%Z then (num * 10 ^ s, den)%Z else (num, den * 10 ^ (- s))%Z in
  let d := (num' / den')%Z in
  let r := (num' - d * den')%Z in
  let lo := format_decimal d (- s) in
  let hi := format_decimal (d + 1) (- s) in
  if (r =? 0)%Z then [lo]
  else if (2 * r <? den')%Z then [lo; hi]
  else if (den' <? 2 * r)%Z then [hi; lo]
  else if Z.even d then [lo; hi] else [hi; lo].

Fixpoint search_repr (x : float) (m : positive) (e decpt : Z) (fuel : nat) (n : Z)
    : option string :=
  match fuel with
  | O => None
  | S f =>
      match List.find (fun s => bool_decide (float_of_unsigned_str s = Some x))
                      (candidates m e decpt n) with
      | Some s => Some s
      | None => search_repr x m e decpt f (n + 1)
      end
  end.

#[global] Arguments search_repr : simpl never.

Definition float_repr_opt (x : float) : option string :=
  match x with
  | S754_zero s => Some (if s then "-0.0" else "0.0")
  | S754_finite s m e =>
      body ← search_repr (S754_finite false m e) m e (decimal_point m e) 17 1;
      Some (if s then "-" +:+ body else body)
  | S754_infinity s => Some (if s then "-inf" else "inf")
  | S754_nan => Some "nan"
  end.

(** [repr(x)]; [str(x)] is the same. Seventeen digits always suffice for a
    binary64, so the default is never taken on one; [repr_found] tests it. *)
Definition float_repr (x : float) : string := default "" (float_repr_opt x).

Definition repr_found (x : float) : bool :=
  match float_repr_opt x with Some _ => true | None => false end.

(** ** Facts about strings *)

Lemma app_str_assoc a b c : (a +:+ b) +:+ c = a +:+ (b +:+ c).
Proof. induction a; simpl; congruence. Qed.

Lemma app_str_nil_r a : a +:+ "" = a.
Proof. induction a; simpl; congruence. Qed.

Lemma app_str_inv_head a b c : a +:+ b = a +:+ c -> b = c.
Proof. induction a; simpl; [done|]. intros [= ?]. auto. Qed.

Lemma str_forallb_app f a b : str_forallb f (a +:+ b) = str_forallb f a && str_forallb f b.
Proof. induction a; simpl; [done|]. by rewrite IHa, andb_assoc. Qed.

Lemma has_char_app c a b : has_char c (a +:+ b) = has_char c a || has_char c b.
Proof. induction a; simpl; [done|]. by rewrite IHa, orb_assoc. Qed.

(** A string whose characters all satisfy [f], followed by one that does not
    start with such a character, splits in one way only. *)
Definition head_fails (f : ascii -> bool) (s : string) : Prop :=
  match s with EmptyString => True | String c _ => f c = false end.

Lemma munch_unique f a b r1 r2 :
  str_forallb f a = true -> str_forallb f b = true ->
  head_fails f r1 -> head_fails f r2 ->
  a +:+ r1 = b +:+ r2 -> a = b /\ r1 = r2.
Proof.
  revert b. induction a as [|c a IH]; intros [|d b]; simpl; intros Ha Hb H1 H2 Heq.
  - done.
  - subst r1. simpl in H1. apply andb_true_iff in Hb as [? _]. congruence.
  - subst r2. simpl in H2. apply andb_true_iff in Ha as [? _]. congruence.
  - apply andb_true_iff in Ha as [? Ha], Hb as [? Hb]. injection Heq as -> Heq.
    destruct (IH b Ha Hb H1 H2 Heq). by subst.
Qed.

(** *** Integers *)
Definition is_int_char (c : ascii) : bool := is_digit c || Ascii.eqb c "-".

Lemma str_of_int_inj z1 z2 : str_of_int z1 = str_of_int z2 -> z1 = z2.
Proof.
  unfold str_of_int. intros H. apply (f_equal NilEmpty.int_of_string) in H.
  rewrite !NilEmpty.isi in H. injection H as H. by apply to_int_inj.
Qed.

Lemma string_of_uint_digits d : str_forallb is_digit (NilEmpty.string_of_uint d) = true.
Proof. induction d; simpl; done. Qed.

Lemma str_of_int_chars z : str_forallb is_int_char (str_of_int z) = true.
Proof.
  assert (Hd : forall d, str_forallb is_int_char (NilEmpty.string_of_uint d) = true).
  { intros d. induction d; simpl; done. }
  unfold str_of_int. destruct (Z.to_int z); simpl; auto.
Qed.

Lemma str_of_int_nonneg z : (0 <= z)%Z -> str_forallb is_digit (str_of_int z) = true.
Proof.
  intros Hz. unfold str_of_int. destruct z as [|p|p]; [done| |lia].
  apply string_of_uint_digits.
Qed.

(** *** Floats *)
Definition is_num_char (c : ascii) : bool :=
  is_digit c || Ascii.eqb c "-" || Ascii.eqb c "+" || Ascii.eqb c "." || Ascii.eqb c "e".

Lemma parse_exp_digits_chars s acc k :
  parse_exp_digits s acc = Some k -> str_forallb is_num_char s = true.
Proof.
  revert acc. induction s as [|c s IH]; intros acc; simpl; [done|].
  destruct (is_digit c) eqn:Hc; [|done]. intros H. unfold is_num_char at 1.
  rewrite Hc. simpl. eauto.
Qed.

Lemma parse_exp_chars s k : parse_exp s = Some k -> str_forallb is_num_char s = true.
Proof.
  unfold parse_exp. intros H.
  destruct s as [|c s]; [done|].
  destruct (Ascii.eqb_spec c "+") as [->|Hp].
  { simpl. by eapply parse_exp_digits_chars. }
  destruct (Ascii.eqb_spec c "-") as [->|Hm].
  { simpl in *. destruct (parse_exp_digits s 0) eqn:E; [|done].
    by eapply parse_exp_digits_chars. }
  apply (parse_exp_digits_chars (String c s) 0 k).
  destruct c as [[] [] [] [] [] [] [] []]; try exact H; by exfalso.
Qed.

Lemma parse_mant_chars s acc fr r :
  parse_mant s acc fr = Some r -> str_forallb is_num_char s = true.
Proof.
  revert acc fr. induction s as [|c s IH]; intros acc fr; simpl; [done|].
  destruct (is_digit c) eqn:Hc.
  { intros H. unfold is_num_char at 1. rewrite Hc. simpl. eauto. }
  destruct (Ascii.eqb_spec c ".") as [->|_].
  { destruct fr; [done|]. intros H. simpl. eauto. }
  destruct (Ascii.eqb_spec c "e") as [->|_]; [|done].
  destruct (parse_exp s) eqn:E; [|done]. intros _. simpl. by eapply parse_exp_chars.
Qed.

Definition is_float_mark (s : string) : bool := has_char "." s || has_char "e" s.

Lemma format_decimal_mark d k : is_float_mark (format_decimal d k) = true.
Proof.
  unfold format_decimal, is_float_mark.
  destruct (strip_trailing_zeros 20 d k) as [d' k'].
  repeat case_match; rewrite ?has_char_app; simpl; rewrite ?orb_true_r; done.
Qed.

Lemma candidates_mark m e decpt n s :
  In s (candidates m e decpt n) -> is_float_mark s = true.
Proof.
  unfold candidates. destruct (frac_of m e) as [num den]. repeat case_match; simpl;
    intros Hin; destruct_or?; subst; eauto using format_decimal_mark; done.
Qed.

Lemma search_repr_sound x m e decpt fuel n s :
  search_repr x m e decpt fuel n = Some s ->
  float_of_unsigned_str s = Some x /\ is_float_mark s = true.
Proof.
  revert n. induction fuel as [|f IH]; intros n; [done|].
  unfold search_repr; fold search_repr.
  destruct (List.find _ _) as [s'|] eqn:E; [|eauto].
  intros [= <-]. apply List.find_some in E as [Hin Hd].
  split; [by apply bool_decide_eq_true in Hd | by eapply candidates_mark].
Qed.

Lemma unsigned_str_signless s x :
  float_of_unsigned_str s = Some x -> float_of_str s = Some x.
Proof.
  destruct s as [|c s]; [done|]. intros H.
  destruct (Ascii.eqb_spec c "-") as [->|Hne].
  { unfold float_of_unsigned_str in H. simpl in H. done. }
  unfold float_of_str. destruct c as [[] [] [] [] [] [] [] []]; try exact H; by exfalso.
Qed.

(** Round trip: a finite float whose literal was found reads back exactly. *)
Lemma float_of_str_repr x :
  isfinite x = true -> repr_found x = true -> float_of_str (float_repr x) = Some x.
Proof.
  unfold float_repr, repr_found.
  destruct x as [[]| | |s m e]; simpl; try done; intros _.
  destruct (search_repr (S754_finite false m e) m e (decimal_point m e) 17 1) as [b|] eqn:E; simpl; [|done]. intros _.
  apply search_repr_sound in E as [E _].
  destruct s; simpl; [by rewrite E|]. by apply unsigned_str_signless.
Qed.

Lemma float_repr_inj x y :
  isfinite x = true -> isfinite y = true ->
  repr_found x = true -> repr_found y = true ->
  float_repr x = float_repr y -> x = y.
Proof.
  intros Hx Hy Rx Ry H.
  apply float_of_str_repr in Rx; [|done]. apply float_of_str_repr in Ry; [|done].
  rewrite H in Rx. congruence.
Qed.

Lemma unsigned_str_chars s x :
  float_of_unsigned_str s = Some x -> str_forallb is_num_char s = true.
Proof.
  unfold float_of_unsigned_str.
  destruct (parse_mant s 0 None) as [[d k]|] eqn:E; [|done].
  intros _. by eapply parse_mant_chars.
Qed.

Lemma float_repr_chars x :
  isfinite x = true -> str_forallb is_num_char (float_repr x) = true.
Proof.
  unfold float_repr. destruct x as [[]| | |s m e]; simpl; try done. intros _.
  destruct (search_repr (S754_finite false m e) m e (decimal_point m e) 17 1) as [b|] eqn:E; simpl; [|done].
  apply search_repr_sound in E as [E%unsigned_str_chars _].
  by destruct s; simpl.
Qed.

Lemma float_repr_mark x :
  isfinite x = true -> repr_found x = true -> is_float_mark (float_repr x) = true.
Proof.
  unfold float_repr, repr_found. destruct x as [[]| | |s m e]; simpl; try done. intros _.
  destruct (search_repr (S754_finite false m e) m e (decimal_point m e) 17 1) as [b|] eqn:E; simpl; [|done]. intros _.
  apply search_repr_sound in E as [_ E]. by destruct s.
Qed.

Lemma int_chars_no_mark s : str_forallb is_int_char s = true -> is_float_mark s = false.
Proof.
  unfold is_float_mark. induction s as [|c s IH]; simpl; [done|].
  intros [Hc Hs]%andb_true_iff. apply IH in Hs. apply orb_false_iff in Hs as [H1 H2].
  rewrite H1, H2, !orb_false_r.
  by destruct c as [[] [] [] [] [] [] [] []].
Qed.

(** ** Joining and splitting *)

Lemma split_on_app c a s :
  has_char c a = false -> split_on c (a +:+ String c s) = a :: split_on c s.
Proof.
  induction a as [|b a IH]; simpl; intros H.
  - by rewrite Ascii.eqb_refl.
  - apply orb_false_iff in H as [Hb Ha]. rewrite Hb, (IH Ha). done.
Qed.

Lemma split_on_free c a : has_char c a = false -> split_on c a = [a].
Proof.
  induction a as [|b a IH]; simpl; intros H; [done|].
  apply orb_false_iff in H as [Hb Ha]. by rewrite Hb, (IH Ha).
Qed.

(** Splitting a join gives the parts back, when no part has the separator. *)
Lemma split_join c l :
  l <> [] -> Forall (fun s => has_char c s = false) l ->
  split_on c (str_join (String c EmptyString) l) = l.
Proof.
  intros Hne HF. induction HF as [|x l Hx HF IH]; [done|].
  destruct l as [|y l]; [by apply split_on_free|].
  change (str_join (String c EmptyString) (x :: y :: l))
    with (x +:+ String c (str_join (String c EmptyString) (y :: l))).
  rewrite split_on_app by done. by rewrite IH.
Qed.

Lemma str_forallb_no_char f c s :
  f c = false -> str_forallb f s = true -> has_char c s = false.
Proof.
  intros Hc. induction s as [|a s IH]; simpl; [done|]. intros [Ha Hs]%andb_true_iff.
  rewrite (IH Hs), orb_false_r. apply Ascii.eqb_neq. intros ->. congruence.
Qed.

(** Hex digests are lower case. *)
Lemma lower_bytes_hex l : lower (bytes_hex l) = bytes_hex l.
Proof.
  induction l as [|b l IH]; [done|]. cbn [bytes_hex]. destruct b; cbn; by rewrite IH.
Qed.
