(* ===== verification/Schema.v ===== *)
(** * Schema migrations ([glassbox/adapters/outbound/postgres/schema.py])

    Which migrations are applied, in which order, and what a failure leaves
    behind; and the monthly partitions a call keeps in front of the clock.  The
    text of a migration is not modelled, only that running it may fail; the
    tables it leaves are those of [PgEvidence] and [PgDispatch]. *)

From stdpp Require Import base tactics list strings gmap.
From Stdlib Require Import ZArith Lia Ascii.
From S2P Require Import Prelude PyStr.

Open Scope string_scope.
Open Scope list_scope.

(** ** Migrations *)

Definition MIGRATIONS : list (Z * string) :=
  [(1, "evidence tables, indexes and constraints"); (2, "append-only enforcement");
   (3, "dispatch ledger for cross-replica idempotency"); (4, "row-level security on evidence_intent");
   (5, "port-conformant retention columns"); (6, "retention chain-link anchor column");
   (7, "physical time partitioning of evidence_intent");
   (8, "drop the backup table's FK so segment cleanup is not blocked");
   (9, "physical time partitioning of evidence_outcome"); (10, "keyed-MAC chain for outcome records");
   (11, "tenant scoping and row-level security on dispatch_ledger")]%Z.

Definition SCHEMA_VERSION : Z := List.last (map fst MIGRATIONS) 0%Z.

(** The rows of [glassbox_schema_migration], which the first migration creates,
    and the partitions that exist. *)
Record schema := { sc_applied : list (Z * string); sc_partitions : list string }.

Definition schema_init : schema := {| sc_applied := []; sc_partitions := [] |}.

(** [coalesce(max(version), 0)], and 0 before the table exists. *)
Definition schema_version (s : schema) : Z := foldr Z.max 0%Z (map fst (sc_applied s)).

Definition current_schema_version (reachable : bool) (s : schema) : res Z :=
  if reachable then Ok (schema_version s) else Raise EvidenceWriteError.

(** ** Monthly partitions *)

Definition add_months (year month delta : Z) : Z * Z :=
  let total := (year * 12 + (month - 1) + delta)%Z in (total / 12, total mod 12 + 1)%Z.

(** [f"{n:0{w}d}"] of a number that is not negative. *)
Fixpoint zeros (n : nat) : string := match n with O => "" | S n' => String "0"%char (zeros n') end.
Definition padded (width : nat) (n : Z) : string :=
  zeros (width - String.length (str_of_int n)) +:+ str_of_int n.

(** One partition: its name and the first days it starts and ends at. *)
Record partition := { pt_name : string; pt_start : Z * Z; pt_end : Z * Z }.

Definition partition_at (table : string) (year month offset : Z) : partition :=
  let '(y, m) := add_months year month offset in
  {| pt_name := table +:+ "_y" +:+ padded 4 y +:+ "_m" +:+ padded 2 m;
     pt_start := (y, m); pt_end := add_months y m 1 |}.

(** [range(-months_back, months_ahead + 1)]. *)
Definition offsets (months_back months_ahead : Z) : list Z :=
  map (fun i => (Z.of_nat i - months_back)%Z) (seq 0 (Z.to_nat (months_back + months_ahead + 1))).

Definition window (table : string) (year month months_back months_ahead : Z) : list partition :=
  map (partition_at table year month) (offsets months_back months_ahead).

Definition VALID_TABLES : list string := ["evidence_intent"; "evidence_outcome"].

(** A table is partitioned once its migration is applied. *)
Definition partitioned (s : schema) (table : string) : bool :=
  ((if (table =? "evidence_intent")%string then 7 else 9) <=? schema_version s)%Z.

Definition create_partition (l : list string) (name : string) : list string :=
  if bool_decide (name ∈ l) then l else l ++ [name].

(** [works] says whether the transaction commits. *)
Definition ensure_monthly_partitions (works : bool) (s : schema) (table : string)
    (year month months_back months_ahead : Z) : res (list string) * schema :=
  if negb (bool_decide (table ∈ VALID_TABLES)) then (Raise EvidenceWriteError, s)
  else if negb works || negb (partitioned s table) then (Raise EvidenceWriteError, s)
  else
    let covered := map pt_name (window table year month months_back months_ahead) in
    (Ok covered, {| sc_applied := sc_applied s; sc_partitions := foldl create_partition (sc_partitions s) covered |}).

(** ** Applying migrations *)

(** One migration runs together with the row that records it; [works] says
    whether its transaction commits. *)
Fixpoint run_migrations (works : Z -> bool) (installed : Z) (l : list (Z * string)) (s : schema) (applied : list Z)
    : res (list Z) * schema :=
  match l with
  | [] => (Ok applied, s)
  | (version, description) :: rest =>
      if (version <=? installed)%Z then run_migrations works installed rest s applied
      else if works version
      then run_migrations works installed rest
             {| sc_applied := sc_applied s ++ [(version, description)]; sc_partitions := sc_partitions s |}
             (applied ++ [version])
      else (Raise EvidenceWriteError, s)
  end.

(** The partitions of a table are topped up once its migration is applied. *)
Definition top_up (works : bool) (reached threshold : Z) (table : string) (year month : Z) (s : schema)
    : res unit * schema :=
  if (threshold <=? reached)%Z
  then match ensure_monthly_partitions works s table year month 1 3 with
       | (Ok _, s') => (Ok tt, s')
       | (Raise e, s') => (Raise e, s')
       end
  else (Ok tt, s).

(** [year] and [month] are the clock the window is centred on. *)
Definition apply_migrations (reachable : bool) (works : Z -> bool) (partitions_work : string -> bool)
    (year month : Z) (s : schema) : res (list Z) * schema :=
  match current_schema_version reachable s with
  | Raise e => (Raise e, s)
  | Ok installed =>
      match run_migrations works installed MIGRATIONS s [] with
      | (Raise e, s1) => (Raise e, s1)
      | (Ok applied, s1) =>
          let reached := Z.max installed (default installed (last applied)) in
          match top_up (partitions_work "evidence_intent") reached 7 "evidence_intent" year month s1 with
          | (Raise e, s2) => (Raise e, s2)
          | (Ok _, s2) =>
              match top_up (partitions_work "evidence_outcome") reached 9 "evidence_outcome" year month s2 with
              | (Raise e, s3) => (Raise e, s3)
              | (Ok _, s3) => (Ok applied, s3)
              end
          end
      end
  end.

(** ** The window is contiguous *)

Definition month_index (ym : Z * Z) : Z := (ym.1 * 12 + (ym.2 - 1))%Z.

Lemma add_months_index y m d : month_index (add_months y m d) = (month_index (y, m) + d)%Z.
Proof.
  unfold add_months, month_index. cbn [fst snd]. set (t := (y * 12 + (m - 1) + d)%Z).
  pose proof (Z.div_mod t 12 ltac:(lia)). lia.
Qed.

Lemma add_months_month y m d : (1 <= (add_months y m d).2 <= 12)%Z.
Proof. unfold add_months. cbn [snd]. pose proof (Z.mod_pos_bound (y * 12 + (m - 1) + d) 12 ltac:(lia)). lia. Qed.

Lemma month_index_inj a b : (1 <= a.2 <= 12)%Z -> (1 <= b.2 <= 12)%Z -> month_index a = month_index b -> a = b.
Proof. destruct a as [y m], b as [y' m']. unfold month_index. cbn. intros. f_equal; lia. Qed.

Lemma add_months_add y m d e :
  add_months (add_months y m d).1 (add_months y m d).2 e = add_months y m (d + e).
Proof.
  apply month_index_inj; [apply add_months_month..|]. rewrite !add_months_index.
  pose proof (add_months_index y m d) as H. destruct (add_months y m d) as [y' m']. cbn [fst snd] in *. lia.
Qed.

(** Months between the bounds, in order, each partition ending where the next
    one starts; the month of the clock is one of them. *)
Lemma window_contiguous table year month back ahead :
  (1 <= month <= 12)%Z -> (0 <= back)%Z -> (0 <= ahead)%Z ->
  let w := window table year month back ahead in
  (forall i p q, w !! i = Some p -> w !! S i = Some q -> pt_end p = pt_start q) /\
  (exists p, p ∈ w /\ pt_start p = (year, month)) /\
  length w = Z.to_nat (back + ahead + 1).
Proof.
  intros Hm Hb Ha. cbv zeta.
  assert (forall i p, window table year month back ahead !! i = Some p ->
    p = partition_at table year month (Z.of_nat i - back)) as Hat.
  { intros i p Hp. unfold window, offsets in Hp. apply list_lookup_fmap_Some in Hp as (o & -> & Ho).
    apply list_lookup_fmap_Some in Ho as (j & -> & Hj). apply lookup_seq in Hj as [-> _]. done. }
  assert (forall o, pt_start (partition_at table year month o) = add_months year month o /\
    pt_end (partition_at table year month o) = add_months year month (o + 1)) as Hpt.
  { intros o. unfold partition_at. pose proof (add_months_add year month o 1) as H.
    destruct (add_months year month o) as [y m]. split; [done|exact H]. }
  split_and!.
  - intros i p q ->%Hat ->%Hat. rewrite (proj2 (Hpt _)), (proj1 (Hpt _)). f_equal. lia.
  - exists (partition_at table year month 0). split.
    + unfold window, offsets. apply list_elem_of_fmap. exists 0%Z. split; [done|].
      apply list_elem_of_fmap. exists (Z.to_nat back). split; [lia|]. apply elem_of_seq. lia.
    + rewrite (proj1 (Hpt _)). apply month_index_inj; [apply add_months_month|done|].
      rewrite add_months_index. lia.
  - unfold window, offsets. by rewrite !length_map, length_seq.
Qed.

(** ** Migrations are applied once, in order *)

Definition schema_ok (s : schema) : Prop := exists k, sc_applied s = take k MIGRATIONS.

Lemma migrations_split k :
  Forall (fun v => (v.1 <= schema_version {| sc_applied := take k MIGRATIONS; sc_partitions := [] |})%Z) (take k MIGRATIONS) /\
  Forall (fun v => (schema_version {| sc_applied := take k MIGRATIONS; sc_partitions := [] |} < v.1)%Z) (drop k MIGRATIONS).
Proof.
  destruct (decide (11 <= k)%nat) as [Hk|Hk].
  - rewrite take_ge, drop_ge by (cbn; lia). split; [|constructor]. repeat constructor; vm_compute; congruence.
  - do 11 (destruct k as [|k]; [split; repeat constructor; vm_compute; congruence|]). lia.
Qed.

Lemma run_skip works installed l1 l2 s applied :
  Forall (fun v => (v.1 <= installed)%Z) l1 ->
  run_migrations works installed (l1 ++ l2) s applied = run_migrations works installed l2 s applied.
Proof.
  induction 1 as [|[v d] l1 Hv _ IH]; [done|]. cbn in *. by rewrite (proj2 (Z.leb_le _ _) Hv).
Qed.

Lemma run_new works installed l s applied r s' :
  Forall (fun v => (installed < v.1)%Z) l -> run_migrations works installed l s applied = (r, s') ->
  sc_partitions s' = sc_partitions s /\
  exists j, sc_applied s' = sc_applied s ++ take j l /\
    (r = Ok (applied ++ map fst l) /\ take j l = l \/ r = Raise EvidenceWriteError /\ exists v, v ∈ l /\ works v.1 = false).
Proof.
  intros Hl. revert s applied. induction Hl as [|[v d] l Hv _ IH]; intros s applied; cbn in *.
  { intros [= <- <-]. split; [done|]. exists 0%nat. rewrite !app_nil_r. eauto. }
  rewrite (proj2 (Z.leb_gt _ _) Hv). destruct (works v) eqn:Ew.
  - intros Hr. destruct (IH _ _ Hr) as (Hp & j & Hj & Hres). split; [done|]. exists (S j). cbn in *.
    rewrite Hj, <-!app_assoc. split; [done|]. destruct Hres as [[-> E]|[-> (x & ? & ?)]]; [left|right].
    + rewrite <-app_assoc, E. done.
    + split; [done|]. exists x. set_solver.
  - intros [= <- <-]. split; [done|]. exists 0%nat. rewrite app_nil_r. split; [done|]. right. split; [done|].
    exists (v, d). set_solver.
Qed.

Lemma schema_version_applied s k :
  sc_applied s = take k MIGRATIONS -> schema_version s = schema_version {| sc_applied := take k MIGRATIONS; sc_partitions := [] |}.
Proof. unfold schema_version. by intros ->. Qed.

Lemma ensure_partitions_spec works s table y m b a r s' :
  ensure_monthly_partitions works s table y m b a = (r, s') ->
  sc_applied s' = sc_applied s /\ (forall n, n ∈ sc_partitions s -> n ∈ sc_partitions s') /\
  (forall l, r = Ok l -> l = map pt_name (window table y m b a) /\ forall n, n ∈ l -> n ∈ sc_partitions s') /\
  (forall e, r = Raise e -> e = EvidenceWriteError).
Proof.
  assert (forall l acc n, n ∈ foldl create_partition acc l <-> n ∈ acc \/ n ∈ l) as Hfold.
  { induction l as [|x l IH]; intros acc n; cbn; [set_solver|]. rewrite IH. unfold create_partition.
    case_bool_decide; set_solver. }
  unfold ensure_monthly_partitions. destruct (negb (bool_decide _));
    [intros [= <- <-]; split_and!; try done; by intros ? [= <-]|].
  destruct (_ || _); [intros [= <- <-]; split_and!; try done; by intros ? [= <-]|]. intros [= <- <-]. cbn [sc_applied sc_partitions].
  split_and!; [done|intros n Hn; apply Hfold; by left| |done].
  intros ? [= <-]. split; [done|]. intros n Hn. apply Hfold. by right.
Qed.

(** The applied migrations, as a call without the partitions leaves them. *)
Lemma run_from_installed works s k r s1 :
  sc_applied s = take k MIGRATIONS ->
  run_migrations works (schema_version s) MIGRATIONS s [] = (r, s1) ->
  sc_partitions s1 = sc_partitions s /\
  exists j, sc_applied s1 = take k MIGRATIONS ++ take j (drop k MIGRATIONS) /\
    (r = Ok (map fst (drop k MIGRATIONS)) /\ sc_applied s1 = MIGRATIONS \/
     r = Raise EvidenceWriteError /\ exists v, v ∈ MIGRATIONS /\ works v.1 = false).
Proof.
  intros Hk Hrun. destruct (migrations_split k) as [Hle Hlt]. rewrite <-(schema_version_applied s k Hk) in Hle, Hlt.
  rewrite <-(take_drop k MIGRATIONS) in Hrun at 1. rewrite run_skip in Hrun by done.
  destruct (run_new _ _ _ _ _ _ _ Hlt Hrun) as (Hp & j & Hj & Hres). split; [done|]. exists j.
  rewrite Hk in Hj. split; [done|]. destruct Hres as [[-> E]|[-> (v & Hv & ?)]]; [left|right].
  - rewrite Hj, E, take_drop. done.
  - split; [done|]. exists v. split; [|done]. rewrite <-(take_drop k MIGRATIONS). set_solver.
Qed.

Lemma take_prefix {A} (l : list A) k j : exists n, take k l ++ take j (drop k l) = take n l.
Proof.
  destruct (decide (k <= length l)%nat) as [Hk|Hk].
  - exists (k + j)%nat. rewrite <-(take_drop k l) at 3. rewrite take_app_add'; [done|]. rewrite length_take. lia.
  - exists k. rewrite (drop_ge l k) by lia. by rewrite take_nil, app_nil_r.
Qed.

Lemma reached_all k installed :
  installed = schema_version {| sc_applied := take k MIGRATIONS; sc_partitions := [] |} ->
  Z.max installed (default installed (last (map fst (drop k MIGRATIONS)))) = 11%Z.
Proof.
  intros ->. destruct (decide (11 <= k)%nat) as [Hk|Hk].
  - rewrite take_ge, drop_ge by (cbn; lia). vm_compute. done.
  - do 11 (destruct k as [|k]; [vm_compute; reflexivity|]). lia.
Qed.

Lemma top_up_spec works threshold table y m s r s' :
  (threshold <= 11)%Z -> top_up works 11 threshold table y m s = (r, s') ->
  sc_applied s' = sc_applied s /\ (forall n, n ∈ sc_partitions s -> n ∈ sc_partitions s') /\
  (r = Raise EvidenceWriteError \/
   r = Ok tt /\ forall n, n ∈ map pt_name (window table y m 1 3) -> n ∈ sc_partitions s').
Proof.
  intros Ht. unfold top_up. rewrite (proj2 (Z.leb_le _ _) Ht).
  destruct (ensure_monthly_partitions _ _ _ _ _ _ _) as [[l|e] s1] eqn:E;
    apply ensure_partitions_spec in E as (Ha & Hp & Hok & He); intros [= <- <-]; split_and!; try done.
  - right. split; [done|]. destruct (Hok l eq_refl) as [-> Hn]. done.
  - left. by rewrite (He e eq_refl).
Qed.

(** What one call does to a schema with the first [k] migrations applied. *)
Lemma apply_spec works pworks y m s k r s' :
  sc_applied s = take k MIGRATIONS -> apply_migrations true works pworks y m s = (r, s') ->
  (exists j, sc_applied s' = take k MIGRATIONS ++ take j (drop k MIGRATIONS)) /\
  (forall n, n ∈ sc_partitions s -> n ∈ sc_partitions s') /\
  (r = Raise EvidenceWriteError \/
   r = Ok (map fst (drop k MIGRATIONS)) /\ sc_applied s' = MIGRATIONS /\
   forall t n, t ∈ VALID_TABLES -> n ∈ map pt_name (window t y m 1 3) -> n ∈ sc_partitions s').
Proof.
  intros Hk. unfold apply_migrations, current_schema_version.
  destruct (run_migrations _ _ _ _ _) as [rr s1] eqn:Hrun.
  destruct (run_from_installed _ _ _ _ _ Hk Hrun) as (Hp1 & j & Hj & [[-> Hall]|[-> _]]).
  2: { intros [= <- <-]. split_and!; [by exists j|by rewrite Hp1|by left]. }
  rewrite (reached_all k _ (schema_version_applied s k Hk)).
  destruct (top_up _ _ 7 _ _ _ s1) as [r2 s2] eqn:E2. apply top_up_spec in E2 as (Ha2 & Hp2 & Hr2); [|lia].
  destruct Hr2 as [->|[-> Hn2]].
  { intros [= <- <-]. split_and!; [exists j; by rewrite Ha2|intros n Hn; apply Hp2; by rewrite Hp1|by left]. }
  destruct (top_up _ _ 9 _ _ _ s2) as [r3 s3] eqn:E3. apply top_up_spec in E3 as (Ha3 & Hp3 & Hr3); [|lia].
  assert (forall n, n ∈ sc_partitions s -> n ∈ sc_partitions s3) as Hp by (intros n Hn; apply Hp3, Hp2; by rewrite Hp1).
  destruct Hr3 as [->|[-> Hn3]]; intros [= <- <-]; (split_and!; [exists j; by rewrite Ha3, Ha2|done|]); [by left|right].
  split_and!; [done|by rewrite Ha3, Ha2|]. intros t n Ht Hn.
  apply elem_of_cons in Ht as [->|[->|[]%not_elem_of_nil]%elem_of_cons]; [by apply Hp3, Hn2|by apply Hn3].
Qed.

Lemma drop_length_take {A} (l : list A) k : drop (length (take k l)) l = drop k l.
Proof.
  rewrite length_take. destruct (decide (k <= length l)%nat); [by rewrite Nat.min_l|].
  rewrite Nat.min_r by lia. by rewrite !drop_ge by lia.
Qed.

(** C32.  A migration is applied once, in order, and never in part.  From any
    schema whose applied migrations are the first few, a call leaves the first
    few applied, at least as many; a partition once made stays.  When it
    returns, every migration is applied, it reports exactly those it applied, and both tables
    have the partitions of the window around the clock; applying again applies
    nothing.  A failure is always a failed evidence write. *)
Theorem migrations_apply_once reachable works pworks y m s r s' :
  schema_ok s -> apply_migrations reachable works pworks y m s = (r, s') ->
  schema_ok s' /\ (exists more, sc_applied s' = sc_applied s ++ more) /\
  (forall n, n ∈ sc_partitions s -> n ∈ sc_partitions s') /\
  (forall vs, r = Ok vs ->
     sc_applied s' = MIGRATIONS /\ schema_version s' = SCHEMA_VERSION /\
     vs = map fst (drop (length (sc_applied s)) MIGRATIONS) /\
     (forall t n, t ∈ VALID_TABLES -> n ∈ map pt_name (window t y m 1 3) -> n ∈ sc_partitions s') /\
     forall works' pworks' y' m' vs' s'', apply_migrations true works' pworks' y' m' s' = (Ok vs', s'') ->
       vs' = [] /\ sc_applied s'' = MIGRATIONS) /\
  (r = Raise EvidenceWriteError \/ exists vs, r = Ok vs).
Proof.
  intros [k Hk] Happ. destruct reachable.
  2: { injection Happ as <- <-. split_and!; [by exists k|exists []; by rewrite app_nil_r|done|done|by left]. }
  destruct (apply_spec _ _ _ _ _ _ _ _ Hk Happ) as ((j & Hj) & Hp & Hr).
  split_and!; [|rewrite Hj, Hk; by eexists|done| |destruct Hr as [->|[-> _]]; eauto].
  { destruct (take_prefix MIGRATIONS k j) as [n Hn]. exists n. by rewrite Hj. }
  intros vs ->. destruct Hr as [?|([= ->] & Hall & Hparts)]; [done|]. split_and!; [done| | |done|].
  - unfold schema_version. by rewrite Hall.
  - by rewrite Hk, drop_length_take.
  - intros works' pworks' y' m' vs' s'' Hagain.
    destruct (apply_spec works' pworks' y' m' s' 11 _ _ Hall Hagain) as (_ & _ & [?|([= ->] & Hall' & _)]); done.
Qed.

Lemma migrations_apply_once_witness :
  exists s', apply_migrations true (fun _ => true) (fun _ => true) 2026 12 schema_init = (Ok (map fst MIGRATIONS), s') /\
    schema_version s' = 11%Z /\ "evidence_intent_y2027_m03" ∈ sc_partitions s'.
Proof.
  destruct (apply_migrations true (fun _ => true) (fun _ => true) 2026 12 schema_init) as [r s'] eqn:E.
  destruct (migrations_apply_once true (fun _ => true) (fun _ => true) 2026 12 schema_init r s') as (_ & _ & _ & Hok & _);
    [exists 0%nat; reflexivity|exact E|].
  assert ((apply_migrations true (fun _ => true) (fun _ => true) 2026 12 schema_init).1 = Ok (map fst MIGRATIONS)) as Hr
    by (vm_compute; reflexivity).
  rewrite E in Hr. cbn [fst] in Hr. destruct (Hok _ Hr) as (_ & Hv & _ & Hparts & _).
  exists s'. rewrite Hr. split; [reflexivity|]. split; [exact Hv|].
  apply (Hparts "evidence_intent"); [by left|]. apply (bool_decide_unpack _). vm_compute. exact I.
Defined.
