(* ===== verification/HttpAdmission.v ===== *)
(** * HTTP admission control ([glassbox/adapters/inbound/http/admission_control.py])

    A per-process guard in front of everything else: each client key has a
    bucket of the times its requests were admitted within the window.  The
    dict is an association list in insertion order, so its front is the key
    touched longest ago.  [check] holds the lock and is atomic. *)

From stdpp Require Import base tactics list strings gmap.
From Stdlib Require Import ZArith Lia.
From S2P Require Import Prelude PyFloat PyStr.

Open Scope string_scope.
Open Scope list_scope.

Record AdmissionVerdict := { av_admitted : bool; av_retry_after_s : float }.

Record HttpAdmissionController := {
  hc_max_requests : Z;
  hc_window_seconds : float;
  hc_max_tracked_clients : Z;
  hc_buckets : list (string * list float)
}.

Definition mk_HttpAdmissionController (max_requests : Z) (window_seconds : float) (max_tracked_clients : Z)
    : res HttpAdmissionController :=
  _ ← raise_if (max_requests <=? 0)%Z PyValueError;
  _ ← raise_if (fle window_seconds (fz 0)) PyValueError;
  Ok {| hc_max_requests := max_requests; hc_window_seconds := window_seconds;
        hc_max_tracked_clients := max_tracked_clients; hc_buckets := [] |}.

(** [dict.pop(key, [])]: the bucket and the dict without it. *)
Fixpoint pop (d : list (string * list float)) (k : string) : list float * list (string * list float) :=
  match d with
  | [] => ([], [])
  | (k', l) :: d' => if (k' =? k)%string then (l, d') else let '(r, d'') := pop d' k in (r, (k', l) :: d'')
  end.

(** [_evict_if_needed]; [next] of an empty dict raises. *)
Fixpoint evict_if_needed (max_tracked : Z) (d : list (string * list float)) : res (list (string * list float)) :=
  if (Z.of_nat (length d) <=? max_tracked)%Z then Ok d
  else match d with [] => Raise (PyException "StopIteration") | _ :: d' => evict_if_needed max_tracked d' end.

Definition with_buckets (c : HttpAdmissionController) (d : list (string * list float)) : HttpAdmissionController :=
  {| hc_max_requests := hc_max_requests c; hc_window_seconds := hc_window_seconds c;
     hc_max_tracked_clients := hc_max_tracked_clients c; hc_buckets := d |}.

(** [max(a, b)]: the first unless the second is greater. *)
Definition fmax (a b : float) : float := if fgt b a then b else a.

Definition check (c : HttpAdmissionController) (client_key : string) (now : float)
    : res AdmissionVerdict * HttpAdmissionController :=
  let '(popped, rest) := pop (hc_buckets c) client_key in
  let cutoff := fsub now (hc_window_seconds c) in
  let timestamps := List.filter (fun ts => fgt ts cutoff) popped in
  let store l := (* insert at the end and evict; what raising leaves is the inserted dict emptied *)
    match evict_if_needed (hc_max_tracked_clients c) (rest ++ [(client_key, l)]) with
    | Ok d => (Ok tt, with_buckets c d)
    | Raise e => (Raise e, with_buckets c [])
    end in
  if (hc_max_requests c <=? Z.of_nat (length timestamps))%Z
  then match store timestamps with
       | (Raise e, c') => (Raise e, c')
       | (Ok _, c') =>
           match timestamps with
           | first :: _ =>
               (Ok {| av_admitted := false;
                      av_retry_after_s := fmax (fsub (fadd first (hc_window_seconds c)) now) (fz 0) |}, c')
           | [] => (Raise (PyException "IndexError"), c')
           end
       end
  else match store (timestamps ++ [now]) with
       | (Raise e, c') => (Raise e, c')
       | (Ok _, c') => (Ok {| av_admitted := true; av_retry_after_s := fz 0 |}, c')
       end.

(** ** What the guard holds *)

Fixpoint bucket (d : list (string * list float)) (k : string) : list float :=
  match d with [] => [] | (k', l) :: d' => if (k' =? k)%string then l else bucket d' k end.

Lemma pop_spec d k :
  (pop d k).1 = bucket d k /\ (forall k', k' <> k -> bucket (pop d k).2 k' = bucket d k') /\
  (NoDup (map fst d) -> NoDup (map fst (pop d k).2) /\ k ∉ map fst (pop d k).2) /\
  (length (pop d k).2 <= length d)%nat /\ (forall x, x ∈ (pop d k).2 -> x ∈ d).
Proof.
  induction d as [|[k0 l] d (IH1 & IH2 & IH3 & IH4 & IH5)]; cbn; [split_and!; [done|done| |done|done]; intros; split; [constructor|set_solver]|].
  destruct (String.eqb_spec k0 k) as [->|Hne]; cbn.
  - split_and!; [done| | |lia|set_solver].
    + intros k' Hk. destruct (String.eqb_spec k k'); congruence.
    + intros [? ?]%NoDup_cons. done.
  - destruct (pop d k) as [r d'] eqn:E. cbn in *. split_and!; [done| | |lia|set_solver].
    + intros k' Hk. by rewrite IH2.
    + intros [Hk0 Hnd]%NoDup_cons. destruct (IH3 Hnd). split; [|set_solver]. apply NoDup_cons. split; [|done].
      intros Hin. apply Hk0. apply list_elem_of_fmap in Hin as (x & -> & Hx). apply list_elem_of_fmap. eauto.
Qed.

Lemma evict_if_needed_spec m d d' :
  evict_if_needed m d = Ok d' ->
  (Z.of_nat (length d') <= Z.max 0 m)%Z /\ exists gone, d = gone ++ d'.
Proof.
  induction d as [|x d IH]; cbn [evict_if_needed].
  - destruct (Z.leb_spec (Z.of_nat (length (@nil (string * list float)))) m); [|done]. intros [= <-].
    split; [cbn; lia|]. by exists [].
  - destruct (Z.leb_spec (Z.of_nat (length (x :: d))) m) as [Hle|Hgt].
    + intros [= <-]. split; [lia|]. by exists [].
    + intros H. destruct (IH H) as [? [gone ->]]. split; [done|]. by exists (x :: gone).
Qed.

Lemma evict_total m d : (0 <= m)%Z -> exists d', evict_if_needed m d = Ok d'.
Proof.
  intros Hm. induction d as [|x d IH]; cbn [evict_if_needed].
  - rewrite (proj2 (Z.leb_le _ _)) by (cbn; lia). by eexists.
  - destruct (_ <=? m)%Z; [by eexists|done].
Qed.

Definition bounded (c : HttpAdmissionController) : Prop :=
  NoDup (map fst (hc_buckets c)) /\ (Z.of_nat (length (hc_buckets c)) <= Z.max 0 (hc_max_tracked_clients c))%Z /\
  Forall (fun kl => (Z.of_nat (length kl.2) <= hc_max_requests c)%Z) (hc_buckets c).

(** Requests in order, with the verdict of each ([None] when [check] raises). *)
Fixpoint serve (c : HttpAdmissionController) (requests : list (string * float)) : list (option bool) * HttpAdmissionController :=
  match requests with
  | [] => ([], c)
  | (k, now) :: rest =>
      let '(r, c') := check c k now in
      let '(verdicts, c'') := serve c' rest in
      ((match r with Ok v => Some (av_admitted v) | Raise _ => None end) :: verdicts, c'')
  end.

(** The reference.  The [cap] clients that asked last are tracked, latest first;
    of the others every admission is forgotten.  A request is admitted when
    fewer than [max] admissions of its client that are not forgotten lie within
    its window. *)
Definition in_window (window : float) (k : string) (now : float) (e : string * float) : bool :=
  (e.1 =? k)%string && fgt e.2 (fsub now window).

Definition touch (cap : nat) (k : string) (recent : list string) : list string :=
  take cap (k :: List.filter (fun k' => negb (k' =? k)%string) recent).
Definition forget (recent : list string) (admitted : list (string * float)) : list (string * float) :=
  List.filter (fun e => bool_decide (e.1 ∈ recent)) admitted.

Fixpoint sliding (max : Z) (window : float) (cap : nat) (recent : list string) (admitted : list (string * float))
    (requests : list (string * float)) : list (option bool) :=
  match requests with
  | [] => []
  | (k, now) :: rest =>
      let ok := (Z.of_nat (length (List.filter (in_window window k now) admitted)) <? max)%Z in
      let recent' := touch cap k recent in
      Some ok :: sliding max window cap recent' (forget recent' (if ok then admitted ++ [(k, now)] else admitted)) rest
  end.

Definition times (k : string) (admitted : list (string * float)) : list float :=
  map snd (List.filter (fun e => (e.1 =? k)%string) admitted).

Lemma filter_filter {A} (f g : A -> bool) l :
  (forall x, x ∈ l -> f x = true -> g x = true) -> List.filter f (List.filter g l) = List.filter f l.
Proof.
  induction l as [|x l IH]; [done|]. intros H. cbn.
  assert (List.filter f (List.filter g l) = List.filter f l) as IH' by (apply IH; set_solver).
  destruct (g x) eqn:Eg; cbn; [by rewrite IH'|]. destruct (f x) eqn:Ef; [|done].
  rewrite (H x ltac:(by left) Ef) in Eg. done.
Qed.

Lemma window_times window k now admitted :
  length (List.filter (in_window window k now) admitted) =
  length (List.filter (fun t => fgt t (fsub now window)) (times k admitted)).
Proof.
  unfold times. induction admitted as [|[k' t] l IH]; [done|]. cbn. unfold in_window at 1. cbn.
  destruct (k' =? k)%string; cbn; [|done]. destruct (fgt t _); cbn; by rewrite IH.
Qed.

Lemma times_snoc k k' now admitted :
  times k (admitted ++ [(k', now)]) = times k admitted ++ (if (k' =? k)%string then [now] else []).
Proof. unfold times. rewrite List.filter_app, map_app. cbn. by destruct (k' =? k)%string. Qed.

(** The buckets agree with the admitted requests above every later cutoff. *)
Definition agrees (d : list (string * list float)) (admitted : list (string * float)) (cut : option float) : Prop :=
  forall k x, (forall y, cut = Some y -> fle y x = true) ->
    List.filter (fun t => fgt t x) (bucket d k) = List.filter (fun t => fgt t x) (times k admitted).

Lemma bucket_snoc d k l k' : k ∉ map fst d -> bucket (d ++ [(k, l)]) k' = if (k =? k')%string then l else bucket d k'.
Proof.
  intros Hk. induction d as [|[k0 l0] d IH]; cbn; [done|]. rewrite IH by set_solver.
  destruct (String.eqb_spec k0 k') as [->|]; [|done]. destruct (String.eqb_spec k k') as [->|]; [set_solver|done].
Qed.

Lemma filter_above x cutoff (l : list float) :
  fle cutoff x = true ->
  List.filter (fun t => fgt t x) (List.filter (fun t => fgt t cutoff) l) = List.filter (fun t => fgt t x) l.
Proof. intros Hx. apply filter_filter. intros t _ Ht. rewrite fgt_flt in *. by eapply fle_flt_trans. Qed.

Lemma evict_drop m d : (0 <= m)%Z -> evict_if_needed m d = Ok (drop (length d - Z.to_nat m) d).
Proof.
  intros Hm. induction d as [|x d IH]; cbn [evict_if_needed].
  - by rewrite (proj2 (Z.leb_le _ _)), drop_nil by (cbn; lia).
  - destruct (Z.leb_spec (Z.of_nat (length (x :: d))) m); [by replace (_ - _) with 0 by lia|].
    rewrite IH. cbn [length] in *. by replace (S (length d) - Z.to_nat m) with (S (length d - Z.to_nat m)) by lia.
Qed.

Lemma bucket_drop n d k :
  NoDup (map fst d) -> bucket (drop n d) k = if bool_decide (k ∈ map fst (drop n d)) then bucket d k else [].
Proof.
  revert d. induction n as [|n IH]; intros d Hnd.
  - rewrite drop_0. case_bool_decide as Hk; [done|]. induction d as [|[k0 l] d IH]; [done|]. cbn in *.
    destruct (String.eqb_spec k0 k); [set_solver|]. apply NoDup_cons in Hnd as [_ Hnd]. apply IH; [done|set_solver].
  - destruct d as [|[k0 l] d]; [by rewrite drop_nil|]. cbn [skipn bucket]. apply NoDup_cons in Hnd as [Hk0 Hnd]. rewrite IH by done.
    case_bool_decide as Hk; [|done]. destruct (String.eqb_spec k0 k) as [->|]; [|done]. destruct Hk0.
    apply list_elem_of_fmap in Hk as (e & -> & He). apply list_elem_of_fmap. exists e. split; [done|].
    rewrite <-(take_drop n d). apply elem_of_app. by right.
Qed.

Lemma pop_keys d k : NoDup (map fst d) -> map fst (pop d k).2 = List.filter (fun k' => negb (k' =? k)%string) (map fst d).
Proof.
  induction d as [|[k0 l] d IH]; cbn; [done|]. intros [Hk0 Hnd]%NoDup_cons. specialize (IH Hnd).
  destruct (String.eqb_spec k0 k) as [->|]; cbn.
  - clear -Hk0. induction d as [|[k1 l1] d IH]; cbn in *; [done|]. apply not_elem_of_cons in Hk0 as [Hk Hk0].
    rewrite (proj2 (String.eqb_neq _ _)) by done. cbn. by rewrite <-IH.
  - destruct (pop d k) as [r d']. cbn in *. by rewrite IH.
Qed.

Lemma filter_rev {A} (f : A -> bool) l : List.filter f (rev l) = rev (List.filter f l).
Proof. induction l as [|x l IH]; cbn; [done|]. rewrite List.filter_app, IH. cbn. destruct (f x); [done|]. by rewrite app_nil_r. Qed.

Lemma times_forget k recent a : times k (forget recent a) = if bool_decide (k ∈ recent) then times k a else [].
Proof.
  unfold times, forget. induction a as [|[k0 t] a IH]; cbn; [by case_bool_decide|].
  destruct (String.eqb_spec k0 k) as [->|Hk].
  - destruct (bool_decide (k ∈ recent)); [|exact IH]. cbn. rewrite String.eqb_refl. cbn. by rewrite IH.
  - destruct (bool_decide (k0 ∈ recent)); [|done]. cbn. by rewrite (proj2 (String.eqb_neq _ _)).
Qed.

(** Storing a bucket leaves the clients touched last, with their buckets. *)
Lemma store_step c k rest recent l :
  (0 <= hc_max_tracked_clients c)%Z -> NoDup (map fst rest) -> k ∉ map fst rest ->
  map fst rest = rev (List.filter (fun k' => negb (k' =? k)%string) recent) ->
  exists d, evict_if_needed (hc_max_tracked_clients c) (rest ++ [(k, l)]) = Ok d /\
    map fst d = rev (touch (Z.to_nat (hc_max_tracked_clients c)) k recent) /\ NoDup (map fst d) /\
    forall k', bucket d k' = if bool_decide (k' ∈ touch (Z.to_nat (hc_max_tracked_clients c)) k recent)
                             then (if (k =? k')%string then l else bucket rest k') else [].
Proof.
  intros Hm Hnd Hk Hkeys. rewrite evict_drop by done. eexists. split; [done|].
  assert (NoDup (map fst (rest ++ [(k, l)]))) as Hn.
  { rewrite map_app. apply NoDup_app. split_and!; [done| |apply NoDup_singleton]. intros x Hx ->%list_elem_of_singleton. done. }
  set (L := k :: List.filter (fun k' => negb (k' =? k)%string) recent).
  assert (map fst (rest ++ [(k, l)]) = rev L) as HL by (rewrite map_app, Hkeys; done).
  assert (length (rest ++ [(k, l)]) = length L) as Hlen by (rewrite <-(length_map fst), HL; apply length_rev).
  assert (map fst (drop (length (rest ++ [(k, l)]) - Z.to_nat (hc_max_tracked_clients c)) (rest ++ [(k, l)])) =
    rev (touch (Z.to_nat (hc_max_tracked_clients c)) k recent)) as Hd.
  { rewrite <-skipn_map, HL, skipn_rev, Hlen. unfold touch. fold L. f_equal.
    destruct (decide (length L <= Z.to_nat (hc_max_tracked_clients c))).
    - rewrite !firstn_all2 by lia. done.
    - f_equal. lia. }
  split; [done|]. split.
  - rewrite <-skipn_map. rewrite <-(take_drop (length (rest ++ [(k, l)]) - Z.to_nat (hc_max_tracked_clients c)) (map fst (rest ++ [(k, l)]))) in Hn.
    by apply NoDup_app in Hn as (_ & _ & ?).
  - intros k'. rewrite bucket_drop, Hd, bucket_snoc by done.
    by rewrite (bool_decide_ext (k' ∈ rev _) (k' ∈ touch (Z.to_nat (hc_max_tracked_clients c)) k recent)) by (by rewrite elem_of_reverse || by rewrite !list_elem_of_In, <-in_rev).
Qed.

Lemma check_step c k now recent admitted cut :
  (0 < hc_max_requests c)%Z -> (0 <= hc_max_tracked_clients c)%Z -> agrees (hc_buckets c) admitted cut ->
  NoDup (map fst (hc_buckets c)) -> map fst (hc_buckets c) = rev recent ->
  (forall y, cut = Some y -> fle y (fsub now (hc_window_seconds c)) = true) ->
  is_nan (fsub now (hc_window_seconds c)) = false ->
  let ok := (Z.of_nat (length (List.filter (in_window (hc_window_seconds c) k now) admitted)) <? hc_max_requests c)%Z in
  let recent' := touch (Z.to_nat (hc_max_tracked_clients c)) k recent in
  exists v d, check c k now = (Ok v, with_buckets c d) /\ av_admitted v = ok /\
    agrees d (forget recent' (if ok then admitted ++ [(k, now)] else admitted)) (Some (fsub now (hc_window_seconds c))) /\
    NoDup (map fst d) /\ map fst d = rev recent'.
Proof.
  intros Hmax Hcap Hag Hnd Hkeys Hcut Hnan. cbv zeta. unfold check.
  pose proof (pop_keys (hc_buckets c) k Hnd) as Hpk.
  destruct (pop_spec (hc_buckets c) k) as (Hp1 & Hp2 & Hp3 & _ & _). destruct (Hp3 Hnd) as [Hnd' Hk'].
  destruct (pop (hc_buckets c) k) as [popped rest]. cbn [fst snd] in *. set (cutoff := fsub now (hc_window_seconds c)) in *.
  rewrite window_times. fold cutoff. rewrite Hp1, (Hag k cutoff Hcut).
  set (ts := List.filter (fun t => fgt t cutoff) (times k admitted)).
  rewrite Hkeys, filter_rev in Hpk. pose proof (fun l => store_step c k rest recent l Hcap Hnd' Hk' Hpk) as Hstore.
  set (ok := (Z.of_nat (length ts) <? hc_max_requests c)%Z).
  assert (forall l d, (forall x, fle cutoff x = true ->
      List.filter (fun t => fgt t x) l = List.filter (fun t => fgt t x) (times k (if ok then admitted ++ [(k, now)] else admitted))) ->
    (forall k', bucket d k' = if bool_decide (k' ∈ touch (Z.to_nat (hc_max_tracked_clients c)) k recent)
                              then (if (k =? k')%string then l else bucket rest k') else []) ->
    agrees d (forget (touch (Z.to_nat (hc_max_tracked_clients c)) k recent) (if ok then admitted ++ [(k, now)] else admitted)) (Some cutoff)) as Hagree.
  { intros l d Hl Hd k' x Hx. specialize (Hx _ eq_refl). rewrite Hd, times_forget. destruct (bool_decide _); [|done].
    destruct (String.eqb_spec k k') as [<-|Hne]; [by apply Hl|]. rewrite Hp2 by done.
    rewrite (Hag k' x) by (intros y Hy; eapply fle_trans; [by apply Hcut|done]).
    destruct ok; [|done]. rewrite times_snoc. destruct (String.eqb_spec k k'); [done|]. by rewrite app_nil_r. }
  unfold ok in *. destruct (Z.leb_spec (hc_max_requests c) (Z.of_nat (length ts))) as [Hfull|Hroom].
  - rewrite (proj2 (Z.ltb_ge _ _)) in * by done. destruct (Hstore ts) as (d & -> & Hd & Hn & Hb).
    destruct ts as [|t0 ts0] eqn:Ets; [cbn in Hfull; lia|]. eexists _, d. split; [done|]. split_and!; [done| |done|done].
    eapply Hagree; [|exact Hb]. intros x Hx. rewrite <-Ets. by apply filter_above.
  - rewrite (proj2 (Z.ltb_lt _ _)) in * by done. destruct (Hstore (ts ++ [now])) as (d & -> & Hd & Hn & Hb).
    eexists _, d. split; [done|]. split_and!; [done| |done|done].
    eapply Hagree; [|exact Hb]. intros x Hx. rewrite times_snoc, String.eqb_refl, !List.filter_app. f_equal. by apply filter_above.
Qed.

(** The times of a run: every cutoff is a number and none is before an earlier
    one, as with a clock that does not go back. *)
Fixpoint cutoffs_rise (window : float) (cut : option float) (requests : list (string * float)) : Prop :=
  match requests with
  | [] => True
  | (_, now) :: rest =>
      (forall y, cut = Some y -> fle y (fsub now window) = true) /\ is_nan (fsub now window) = false /\
      cutoffs_rise window (Some (fsub now window)) rest
  end.

Lemma serve_sliding c recent admitted cut requests :
  (0 < hc_max_requests c)%Z -> (0 <= hc_max_tracked_clients c)%Z -> agrees (hc_buckets c) admitted cut ->
  NoDup (map fst (hc_buckets c)) -> map fst (hc_buckets c) = rev recent -> cutoffs_rise (hc_window_seconds c) cut requests ->
  (serve c requests).1 =
    sliding (hc_max_requests c) (hc_window_seconds c) (Z.to_nat (hc_max_tracked_clients c)) recent admitted requests.
Proof.
  revert c recent admitted cut. induction requests as [|[k now] rest IH]; intros c recent admitted cut Hmax Hcap Hag Hnd Hkeys Hcut; [done|].
  destruct Hcut as (Hc & Hnan & Hrest). cbn [serve sliding].
  destruct (check_step c k now recent admitted cut) as (v & d & -> & Hv & Hag' & Hnd' & Hkeys'); try done.
  pose proof (IH (with_buckets c d) _ _ (Some (fsub now (hc_window_seconds c))) Hmax Hcap Hag' Hnd' Hkeys' Hrest) as Hs.
  cbn [with_buckets hc_max_requests hc_window_seconds hc_max_tracked_clients] in Hs.
  destruct (serve (with_buckets c d) rest) as [verdicts c'']. cbn [fst] in *. by rewrite Hv, Hs.
Qed.

(** C35.  The admission guard is a sliding window over the clients it tracks.
    Take a controller that could be constructed with a cap that is not
    negative, and requests whose cutoffs never go back, as with a clock that
    does not.  The guard tracks the [max_tracked] clients that asked last and
    forgets what it admitted of a client that falls behind them; a request is
    admitted exactly when fewer than [max_requests] admissions of its client
    that were not forgotten lie within the window before it; and [check] never
    raises. *)
Theorem admission_is_a_sliding_window max_requests window max_tracked c requests :
  mk_HttpAdmissionController max_requests window max_tracked = Ok c -> (0 <= max_tracked)%Z ->
  cutoffs_rise window None requests ->
  (serve c requests).1 = sliding max_requests window (Z.to_nat max_tracked) [] [] requests /\ None ∉ (serve c requests).1.
Proof.
  unfold mk_HttpAdmissionController. intros Hc Hcap Hcut. inv_ok. subst c.
  rename select ((max_requests <=? 0)%Z = false) into Hm. apply Z.leb_gt in Hm.
  assert ((serve {| hc_max_requests := max_requests; hc_window_seconds := window; hc_max_tracked_clients := max_tracked;
    hc_buckets := [] |} requests).1 = sliding max_requests window (Z.to_nat max_tracked) [] [] requests) as ->.
  { match goal with |- (serve ?c _).1 = _ => apply (serve_sliding c [] [] None) end; cbn; try done. constructor. }
  split; [done|]. clear. generalize (@nil string), (@nil (string * float)).
  induction requests as [|[k now] rest IH]; intros rc l; cbn [sliding]; [set_solver|].
  intros [?|?]%elem_of_cons; [done|]. by eapply IH.
Qed.

(** Whatever the clients and the clock do, the guard holds at most its cap of
    buckets, each of at most [max_requests] times. *)
Lemma guard_stays_bounded c k now : bounded c -> (0 < hc_max_requests c)%Z -> bounded (check c k now).2.
Proof.
  intros (Hnd & Hlen & HF) Hmax. unfold check. destruct (pop_spec (hc_buckets c) k) as (Hp1 & _ & Hp3 & _ & Hp5).
  destruct (Hp3 Hnd) as [Hnd' Hk]. destruct (pop (hc_buckets c) k) as [popped rest]. cbn [fst snd] in *.
  set (ts := List.filter _ popped).
  assert (forall l, (Z.of_nat (length l) <= hc_max_requests c)%Z ->
    bounded (match evict_if_needed (hc_max_tracked_clients c) (rest ++ [(k, l)]) with
             | Ok d => (Ok tt, with_buckets c d) | Raise e => (Raise e, with_buckets c []) end).2) as Hstore.
  { intros l Hl. destruct (evict_if_needed _ _) as [d|e] eqn:E; cbn [snd].
    - apply evict_if_needed_spec in E as [Hd [gone Hgone]]. split_and!; cbn; [|done|].
      + assert (NoDup (map fst (gone ++ d))) as Hn.
        { rewrite <-Hgone, map_app. apply NoDup_app. split_and!; [done| |apply NoDup_singleton]. by intros x Hx ->%list_elem_of_singleton. }
        rewrite map_app in Hn. by apply NoDup_app in Hn as (_ & _ & ?).
      + apply Forall_forall. intros x Hx. assert (x ∈ rest ++ [(k, l)]) as Hin by (rewrite Hgone; set_solver).
        apply elem_of_app in Hin as [Hin| ->%list_elem_of_singleton]; [|done]. rewrite Forall_forall in HF. by apply HF, Hp5.
    - split_and!; cbn; [constructor|lia|constructor]. }
  assert (Z.of_nat (length ts) <= hc_max_requests c)%Z as Hts.
  { assert (length ts <= length popped)%nat by (unfold ts; clear; induction popped as [|t l IH]; cbn; [lia|]; destruct (fgt _ _); cbn; lia).
    assert (Z.of_nat (length popped) <= hc_max_requests c)%Z; [|lia]. rewrite Hp1. clear -HF Hmax.
    induction HF as [|[k' l] d Hl _ IH]; cbn in *; [lia|]. by destruct (k' =? k)%string. }
  destruct (Z.leb_spec (hc_max_requests c) (Z.of_nat (length ts))) as [Hfull|Hroom].
  - specialize (Hstore ts Hts). destruct (evict_if_needed _ _); [|done]. by destruct ts.
  - specialize (Hstore (ts ++ [now])). rewrite length_app in Hstore. cbn [length] in Hstore.
    specialize (Hstore ltac:(lia)). by destruct (evict_if_needed _ _).
Qed.

(** ** Three requests of one client in a window of two *)

Definition sample_requests : list (string * float) := [("a", fz 10); ("a", fz 11); ("b", fz 12); ("a", fz 13); ("a", fz 71)].

Definition sample_guard (max_tracked : Z) : HttpAdmissionController :=
  {| hc_max_requests := 2; hc_window_seconds := fz 60; hc_max_tracked_clients := max_tracked; hc_buckets := [] |}.

(** With one tracked client the request of [b] makes the guard forget [a]. *)
Lemma admission_is_a_sliding_window_witness :
  (serve (sample_guard 5) sample_requests).1 = [Some true; Some true; Some true; Some false; Some true] /\
  (serve (sample_guard 1) sample_requests).1 = [Some true; Some true; Some true; Some true; Some true].
Proof.
  assert (cutoffs_rise (fz 60) None sample_requests) as Hrise.
  { cbn [cutoffs_rise sample_requests]. split_and!; try exact I; try (intros y Hy); try discriminate; try (injection Hy as <-);
      vm_compute; reflexivity. }
  destruct (admission_is_a_sliding_window 2 (fz 60) 5 (sample_guard 5) sample_requests) as [-> _];
    [vm_compute; reflexivity|lia|exact Hrise|].
  destruct (admission_is_a_sliding_window 2 (fz 60) 1 (sample_guard 1) sample_requests) as [-> _];
    [vm_compute; reflexivity|lia|exact Hrise|].
  split; vm_compute; reflexivity.
Defined.
