(* ===== verification/Serialization.v ===== *)
(** * Canonical serialisation and validation ([glassbox/domain/serialization.py])

    The values the serialiser accepts ([pyval]), its normalisation to JSON
    values, the canonical JSON text and its bytes, and the validation helpers
    every domain type is built with.  The main theorem is that canonical bytes
    determine the normalised value up to the order of object keys, which is
    what lets a MAC over them stand for the record. *)

From stdpp Require Import base tactics list strings sorting.
From Stdlib Require Import ZArith NArith Lia SpecFloat Ascii String.
From Stdlib Require Import Init.Byte.
From S2P Require Import Prelude PyFloat PyStr.

Open Scope string_scope.

(** ** Values *)

(** What a Python value can be for the code that serialises it.  [PEnum v] is
    a member of an [Enum] whose [value] is [v]; [PDict] keeps insertion
    order; [PSet] lists the elements in iteration order; [PObject] is an
    instance of any other class. *)
Inductive pyval :=
| PNone
| PBool (b : bool)
| PInt (z : Z)
| PFloat (x : float)
| PStr (s : string)
| PEnum (v : pyval)
| PBytes (b : list byte)
| PList (l : list pyval)
| PTuple (l : list pyval)
| PSet (l : list pyval)
| PDict (items : list (pyval * pyval))
| PObject (type_name : string).

(** The output of [_normalise]: what [json.dumps] prints. *)
Inductive json :=
| JNull
| JBool (b : bool)
| JInt (z : Z)
| JFloat (x : float)
| JStr (s : string)
| JArr (l : list json)
| JObj (items : list (string * json)).

Section json_ind.
Variable P : json -> Prop.
Hypothesis Hnull : P JNull.
Hypothesis Hbool : forall b, P (JBool b).
Hypothesis Hint : forall z, P (JInt z).
Hypothesis Hfloat : forall x, P (JFloat x).
Hypothesis Hstr : forall s, P (JStr s).
Hypothesis Harr : forall l, Forall P l -> P (JArr l).
Hypothesis Hobj : forall l, Forall (fun kv => P kv.2) l -> P (JObj l).

Fixpoint json_ind' (v : json) : P v :=
  match v with
  | JNull => Hnull
  | JBool b => Hbool b
  | JInt z => Hint z
  | JFloat x => Hfloat x
  | JStr s => Hstr s
  | JArr l =>
      Harr l ((fix go l : Forall P l :=
        match l with
        | [] => List.Forall_nil _
        | x :: l' => List.Forall_cons _ _ _ (json_ind' x) (go l')
        end) l)
  | JObj l =>
      Hobj l ((fix go l : Forall (fun kv => P kv.2) l :=
        match l with
        | [] => List.Forall_nil _
        | x :: l' => List.Forall_cons _ _ _ (json_ind' x.2) (go l')
        end) l)
  end.
End json_ind.

(** ** [json.dumps] *)

(** [sort_keys=True]: every object's items in the order of their keys.
    Keys are distinct in a Python dict, so the values never take part. *)
Section sort.
Context {A : Type} (key : A -> string).

Fixpoint insert_by (x : A) (l : list A) : list A :=
  match l with
  | [] => [x]
  | y :: l' => if str_leb (key x) (key y) then x :: y :: l' else y :: insert_by x l'
  end.

Fixpoint sort_by (l : list A) : list A :=
  match l with
  | [] => []
  | x :: l' => insert_by x (sort_by l')
  end.
End sort.

Fixpoint sort_keys (v : json) : json :=
  match v with
  | JArr l => JArr (map sort_keys l)
  | JObj items => JObj (sort_by fst (map (fun kv => (kv.1, sort_keys kv.2)) items))
  | _ => v
  end.

(** The escapes of [json.dumps]. *)
Definition json_escape (ensure_ascii : bool) (c : ascii) : string :=
  let n := code c in
  if Ascii.eqb c dquote_char || Ascii.eqb c backslash
  then String backslash (String c EmptyString)
  else if (n =? 10)%N then String backslash "n"
  else if (n =? 13)%N then String backslash "r"
  else if (n =? 9)%N then String backslash "t"
  else if (n =? 12)%N then String backslash "f"
  else if (n =? 8)%N then String backslash "b"
  else if (n <? 32)%N || (ensure_ascii && (128 <=? n)%N)
  then String backslash ("u00" +:+ hex2 n)
  else String c EmptyString.

Fixpoint escape_str (ensure_ascii : bool) (s : string) : string :=
  match s with
  | EmptyString => EmptyString
  | String c s' => json_escape ensure_ascii c +:+ escape_str ensure_ascii s'
  end.

Definition json_str (ensure_ascii : bool) (s : string) : string :=
  String dquote_char (escape_str ensure_ascii s +:+ String dquote_char EmptyString).

(** [separators] and [ensure_ascii]. *)
Record dumps_config := {
  item_sep : string;
  key_sep : string;
  ensure_ascii : bool
}.

Definition default_config : dumps_config :=
  {| item_sep := ", "; key_sep := ": "; ensure_ascii := true |}.

Definition canonical_config : dumps_config :=
  {| item_sep := ","; key_sep := ":"; ensure_ascii := false |}.

Section print.
Variable cfg : dumps_config.

Fixpoint print (v : json) : string :=
  match v with
  | JNull => "null"
  | JBool b => if b then "true" else "false"
  | JInt z => str_of_int z
  | JFloat x => float_repr x
  | JStr s => json_str (ensure_ascii cfg) s
  | JArr l => "[" +:+ str_join (item_sep cfg) (map print l) +:+ "]"
  | JObj items =>
      "{" +:+ str_join (item_sep cfg)
        (map (fun kv => json_str (ensure_ascii cfg) kv.1 +:+ key_sep cfg +:+ print kv.2) items)
      +:+ "}"
  end.
End print.

Definition dumps (cfg : dumps_config) (v : json) : string := print cfg (sort_keys v).

(** ** [_normalise]

    [path] is the breadcrumb an error names as its field. *)
Fixpoint normalise (path : string) (v : pyval) {struct v} : res json :=
  match v with
  | PNone => Ok JNull
  | PEnum v' => normalise path v'
  | PBool b => Ok (JBool b)
  | PInt z => Ok (JInt z)
  | PFloat x => if isfinite x then Ok (JFloat x) else Raise (DomainValidationError path)
  | PStr s => Ok (JStr s)
  | PBytes _ => Raise (DomainValidationError path)
  | PDict items =>
      items' ← res_map (fun '(k, x) =>
        match k with
        | PStr s => y ← normalise (path +:+ "." +:+ s) x; Ok (s, y)
        | _ => Raise (DomainValidationError path)
        end) items;
      Ok (JObj items')
  | PSet l =>
      l' ← res_map (normalise (path +:+ "[]")) l;
      Ok (JArr (sort_by (dumps default_config) l'))
  | PList l | PTuple l =>
      l' ← res_mapi (fun i => normalise (path +:+ "[" +:+ str_of_int (Z.of_nat i) +:+ "]")) 0 l;
      Ok (JArr l')
  | PObject _ => Raise (DomainValidationError path)
  end.

Definition canonical_json (payload : pyval) : res string :=
  match payload with
  | PDict _ => v ← normalise "$" payload; Ok (dumps canonical_config v)
  | _ => Raise (DomainValidationError "")
  end.

Definition canonical_bytes (payload : pyval) : res (list byte) :=
  s ← canonical_json payload; Ok (utf8 s).

(** [_to_hashable] of a normalised value. *)
Fixpoint to_hashable (v : json) : pyval :=
  match v with
  | JNull => PNone
  | JBool b => PBool b
  | JInt z => PInt z
  | JFloat x => PFloat x
  | JStr s => PStr s
  | JArr l => PTuple (map to_hashable l)
  | JObj items =>
      PTuple (map (fun kv => PTuple [PStr kv.1; kv.2])
                (sort_by fst (map (fun kv => (kv.1, to_hashable kv.2)) items)))
  end.

(** [freeze_mapping]: sorted pairs of hashable values. *)
Definition freeze_mapping (value : pyval) (field : string) : res (list (string * pyval)) :=
  match value with
  | PNone => Ok []
  | PDict _ =>
      match normalise field value with
      | Ok (JObj items) => Ok (sort_by fst (map (fun kv => (kv.1, to_hashable kv.2)) items))
      | Ok _ => Raise (DomainValidationError field)
      | Raise e => Raise e
      end
  | _ => Raise (DomainValidationError field)
  end.

(** [{key: value for key, value in pairs}]. *)
Definition pairs_dict (l : list (string * pyval)) : pyval :=
  PDict (map (fun kv => (PStr kv.1, kv.2)) l).

(** A dict display with string keys. *)
Definition pdict (l : list (string * pyval)) : pyval := pairs_dict l.

(** ** Validation helpers *)

Definition MAX_IDENTIFIER_LENGTH : nat := 256.
Definition SHA256_HEX_LENGTH : nat := 64.

Definition require_non_empty (value : string) (field : string) : res string :=
  if is_blank value then Raise (DomainValidationError field) else Ok value.

(** [\[A-Za-z0-9._:@/-\]]. *)
Definition is_ident_char (c : ascii) : bool :=
  is_alnum c || Ascii.eqb c "." || Ascii.eqb c "_" || Ascii.eqb c ":" ||
  Ascii.eqb c "@" || Ascii.eqb c "/" || Ascii.eqb c "-".

Definition newline : ascii := ascii_of_N 10.

(** [\[A-Za-z0-9._:@/-\]*$]: in Python [$] also matches just before a newline
    that ends the string. *)
Fixpoint ident_tail (s : string) : bool :=
  match s with
  | EmptyString => true
  | String c s' =>
      (Ascii.eqb c newline && str_is_empty s') || (is_ident_char c && ident_tail s')
  end.

(** [IDENTIFIER_PATTERN.match]. *)
Definition identifier_match (s : string) : bool :=
  match s with
  | EmptyString => false
  | String c s' => is_alnum c && ident_tail s'
  end.

Definition require_identifier (value : string) (field : string) : res string :=
  text ← require_non_empty value field;
  if (MAX_IDENTIFIER_LENGTH <? String.length text)%nat then Raise (DomainValidationError field)
  else if negb (identifier_match text) then Raise (DomainValidationError field)
  else Ok text.

Definition require_finite (value : float) (field : string) : res float :=
  if isfinite value then Ok value else Raise (DomainValidationError field).

Definition require_non_negative (value : float) (field : string) : res float :=
  number ← require_finite value field;
  if flt number (fz 0) then Raise (DomainValidationError field) else Ok number.

Definition MIN_TIMESTAMP : float := fz 0.
Definition MAX_TIMESTAMP : float := fz 4102444800.

Definition require_timestamp (value : float) (field : string) : res float :=
  number ← require_finite value field;
  if negb (fle MIN_TIMESTAMP number && fle number MAX_TIMESTAMP)
  then Raise (DomainValidationError field) else Ok number.

Definition is_hex_char (c : ascii) : bool := in_range 48 57 c || in_range 97 102 c.

Definition require_sha256_hex (value : string) (field : string) : res string :=
  text ← require_non_empty value field;
  let digest := lower text in
  if negb (String.length digest =? SHA256_HEX_LENGTH)%nat ||
     negb (str_forallb is_hex_char digest)
  then Raise (DomainValidationError field) else Ok digest.

Definition require_unique (values : list string) (field : string) : res (list string) :=
  if has_dup [] values then Raise (DomainValidationError field) else Ok values.

(** ** Validators: what an accepted value satisfies *)

Lemma require_non_empty_ok v f r :
  require_non_empty v f = Ok r <-> r = v /\ is_blank v = false.
Proof. unfold require_non_empty. destruct (is_blank v); naive_solver. Qed.

Lemma require_identifier_ok v f r :
  require_identifier v f = Ok r <->
  r = v /\ identifier_match v = true /\ (String.length v <= MAX_IDENTIFIER_LENGTH)%nat.
Proof.
  unfold require_identifier. rewrite bind_ok.
  setoid_rewrite require_non_empty_ok.
  assert (Hblank : identifier_match v = true -> is_blank v = false).
  { destruct v as [|c s]; [done|]. simpl. intros [Hc _]%andb_true_iff.
    apply andb_false_iff. left. by destruct c as [[] [] [] [] [] [] [] []]. }
  split.
  - intros (t & (-> & Hb) & H). destruct (Nat.ltb_spec MAX_IDENTIFIER_LENGTH (String.length v)); [done|].
    destruct (identifier_match v) eqn:E; [|done]. naive_solver.
  - intros (-> & Hm & Hlen). exists v. split; [auto|].
    destruct (Nat.ltb_spec MAX_IDENTIFIER_LENGTH (String.length v)); [lia|]. by rewrite Hm.
Qed.

Lemma require_finite_ok v f r :
  require_finite v f = Ok r <-> r = v /\ isfinite v = true.
Proof. unfold require_finite. destruct (isfinite v); naive_solver. Qed.

Lemma require_non_negative_ok v f r :
  require_non_negative v f = Ok r <-> r = v /\ isfinite v = true /\ fle (fz 0) v = true.
Proof.
  unfold require_non_negative. rewrite bind_ok. setoid_rewrite require_finite_ok. split.
  - intros (t & (-> & Hf) & H). destruct (flt v (fz 0)) eqn:E; [done|].
    split_and!; try naive_solver. apply flt_false_fle; auto with glassbox.
  - intros (-> & Hf & H). exists v. split; [done|].
    rewrite fle_negb_flt in H by auto with glassbox. by destruct (flt v (fz 0)).
Qed.

Lemma require_timestamp_ok v f r :
  require_timestamp v f = Ok r <->
  r = v /\ isfinite v = true /\ fle MIN_TIMESTAMP v = true /\ fle v MAX_TIMESTAMP = true.
Proof.
  unfold require_timestamp. rewrite bind_ok. setoid_rewrite require_finite_ok. split.
  - intros (t & (-> & Hf) & H).
    destruct (fle MIN_TIMESTAMP v) eqn:E1, (fle v MAX_TIMESTAMP) eqn:E2; naive_solver.
  - intros (-> & Hf & H1 & H2). exists v. split; [done|]. by rewrite H1, H2.
Qed.

Lemma require_sha256_hex_ok v f r :
  require_sha256_hex v f = Ok r ->
  r = lower v /\ String.length r = SHA256_HEX_LENGTH /\ str_forallb is_hex_char r = true.
Proof.
  unfold require_sha256_hex. intros H. inv_ok.
  apply require_non_empty_ok in H as [-> _]. revert H0.
  destruct (Nat.eqb_spec (String.length (lower v)) SHA256_HEX_LENGTH); simpl; [|done].
  destruct (str_forallb is_hex_char (lower v)) eqn:E; naive_solver.
Qed.

(** ** Canonical JSON is injective *)

(** Every float of the value is finite and has a literal. *)
Fixpoint floats_ok (v : json) : bool :=
  match v with
  | JFloat x => isfinite x && repr_found x
  | JArr l => forallb floats_ok l
  | JObj items => forallb (fun kv => floats_ok kv.2) items
  | _ => true
  end.

(** Reading back one escaped character. *)
Definition unhex (c : ascii) : N :=
  if is_digit c then (code c - 48)%N else (code c - 87)%N.

Definition unescape1 (s : string) : option (ascii * string) :=
  match s with
  | EmptyString => None
  | String c t =>
      if Ascii.eqb c backslash then
        match t with
        | String "n" t' => Some (ascii_of_N 10, t')
        | String "r" t' => Some (ascii_of_N 13, t')
        | String "t" t' => Some (ascii_of_N 9, t')
        | String "f" t' => Some (ascii_of_N 12, t')
        | String "b" t' => Some (ascii_of_N 8, t')
        | String "u" (String _ (String _ (String h (String l t')))) =>
            Some (ascii_of_N (16 * unhex h + unhex l), t')
        | String d t' => Some (d, t')
        | EmptyString => None
        end
      else Some (c, t)
  end.

Lemma unescape1_escape c t : unescape1 (json_escape false c +:+ t) = Some (c, t).
Proof. destruct c as [[] [] [] [] [] [] [] []]; reflexivity. Qed.

Lemma escape_head c t :
  exists h t', json_escape false c +:+ t = String h t' /\ h <> dquote_char.
Proof.
  destruct c as [[] [] [] [] [] [] [] []]; cbn; eexists _, _; (split; [reflexivity | discriminate]).
Qed.

Lemma escape_str_inj s1 s2 r1 r2 :
  escape_str false s1 +:+ String dquote_char r1 = escape_str false s2 +:+ String dquote_char r2 ->
  s1 = s2 /\ r1 = r2.
Proof.
  revert s2. induction s1 as [|c1 s1 IH]; intros [|c2 s2]; cbn [escape_str].
  - simpl. by intros [= ->].
  - rewrite app_str_assoc.
    destruct (escape_head c2 (escape_str false s2 +:+ String dquote_char r2)) as (h & t & -> & Hh).
    simpl. intros [= ? _]. congruence.
  - rewrite app_str_assoc.
    destruct (escape_head c1 (escape_str false s1 +:+ String dquote_char r1)) as (h & t & -> & Hh).
    simpl. intros [= ? _]. congruence.
  - rewrite !app_str_assoc. intros H. apply (f_equal unescape1) in H.
    rewrite !unescape1_escape in H. injection H as -> H.
    destruct (IH _ H). by subst.
Qed.

Lemma json_str_inj s1 s2 r1 r2 :
  json_str false s1 +:+ r1 = json_str false s2 +:+ r2 -> s1 = s2 /\ r1 = r2.
Proof.
  unfold json_str. simpl. rewrite !app_str_assoc. simpl.
  intros [= H]. by apply escape_str_inj.
Qed.

Abbreviation cprint := (print canonical_config).

(** What may follow a value inside a document. *)
Abbreviation follows := (head_fails is_num_char).

(** [v] can be read off the front of any document. *)
Definition readable (v : json) : Prop :=
  forall v' r r', floats_ok v' = true -> follows r -> follows r' ->
  cprint v +:+ r = cprint v' +:+ r' -> v = v' /\ r = r'.

(** The first character tells the constructor, numbers apart. *)
Definition first_kind (c : ascii) : nat :=
  if Ascii.eqb c "n" then 1 else if Ascii.eqb c "t" then 2 else if Ascii.eqb c "f" then 3
  else if Ascii.eqb c dquote_char then 4 else if Ascii.eqb c "[" then 5
  else if Ascii.eqb c "{" then 6 else if is_num_char c then 7 else 0.

Definition value_kind (v : json) : nat :=
  match v with
  | JNull => 1 | JBool true => 2 | JBool false => 3 | JStr _ => 4
  | JArr _ => 5 | JObj _ => 6 | JInt _ | JFloat _ => 7
  end.

Lemma str_of_int_cons z :
  exists c s, str_of_int z = String c s /\ is_num_char c = true.
Proof.
  pose proof (str_of_int_chars z) as H. unfold str_of_int in *.
  destruct (Z.to_int z) as [u|u] eqn:E; simpl in *; [|by eauto].
  destruct u; simpl in *; eauto.
  exfalso. pose proof (f_equal Z.of_int E) as Hz. rewrite DecimalZ.of_to in Hz.
  simpl in Hz. by subst z.
Qed.

Lemma float_repr_cons x :
  isfinite x = true -> repr_found x = true ->
  exists c s, float_repr x = String c s /\ is_num_char c = true.
Proof.
  intros Hf Hr. pose proof (float_repr_chars x Hf) as Hc. pose proof (float_repr_mark x Hf Hr) as Hm.
  destruct (float_repr x) as [|c s]; [done|]. simpl in Hc. apply andb_true_iff in Hc as [? _]. eauto.
Qed.

Lemma num_char_kind c : is_num_char c = true -> first_kind c = 7.
Proof. by destruct c as [[] [] [] [] [] [] [] []]. Qed.

Lemma print_kind v :
  floats_ok v = true -> exists c s, cprint v = String c s /\ first_kind c = value_kind v.
Proof.
  destruct v as [|[]|z|x|s|l|l]; simpl; intros H; try (eexists _, _; split; reflexivity).
  - destruct (str_of_int_cons z) as (c & s & -> & Hc). eauto using num_char_kind.
  - apply andb_true_iff in H as [? ?].
    destruct (float_repr_cons x) as (c & s & -> & Hc); eauto using num_char_kind.
Qed.

Lemma kinds_differ v v' r r' :
  floats_ok v = true -> floats_ok v' = true -> value_kind v <> value_kind v' ->
  cprint v +:+ r <> cprint v' +:+ r'.
Proof.
  intros Hv Hv' Hk.
  destruct (print_kind v Hv) as (c & s & -> & Hc), (print_kind v' Hv') as (c' & s' & -> & Hc').
  simpl. intros [= -> _]. congruence.
Qed.

(** Two values of different kinds never print alike. *)
Ltac kind_clash H :=
  exfalso; revert H; apply kinds_differ; [done | done |];
  by repeat match goal with b : bool |- _ => destruct b end.

(** *** Sequences

    Items printed by [g], joined with a comma and closed by [close], are read
    back one at a time when each item is. *)
Section items.
Context {A : Type} (g : A -> string) (ok : A -> bool) (close : ascii).
Hypothesis close_kind : first_kind close = 0.
Hypothesis close_comma : close <> ","%char.
Hypothesis g_head : forall x, ok x = true -> exists c s, g x = String c s /\ first_kind c <> 0.

Definition item_readable (x : A) : Prop :=
  forall y r r', ok y = true -> follows r -> follows r' ->
  g x +:+ r = g y +:+ r' -> x = y /\ r = r'.

Definition closed (l : list A) (r : string) : string :=
  str_join "," (map g l) +:+ String close r.

Lemma close_follows r : follows (String close r).
Proof.
  simpl. destruct (is_num_char close) eqn:E; [|done].
  apply num_char_kind in E. congruence.
Qed.

(** After the first item of a non-empty sequence. *)
Definition rest (l : list A) (r : string) : string :=
  match l with [] => String close r | _ => String "," (closed l r) end.

Lemma closed_cons x l r : closed (x :: l) r = g x +:+ rest l r.
Proof. unfold closed, rest. destruct l; simpl; [done|]. by rewrite !app_str_assoc. Qed.

Lemma rest_follows l r : follows (rest l r).
Proof. destruct l; [apply close_follows | done]. Qed.

Lemma closed_inj l l' r r' :
  Forall item_readable l -> forallb ok l = true -> forallb ok l' = true ->
  closed l r = closed l' r' -> l = l' /\ r = r'.
Proof.
  intros Hl. revert l' r r'.
  induction Hl as [|x l Hx Hl IH]; intros l' r r' Hok Hok' Heq.
  - destruct l' as [|y l']; [unfold closed in Heq; simpl in Heq; naive_solver|].
    rewrite closed_cons in Heq. simpl in Hok'. apply andb_true_iff in Hok' as [Hy _].
    destruct (g_head y Hy) as (c & s & Hg & Hk). rewrite Hg in Heq.
    unfold closed in Heq. simpl in Heq. injection Heq as <- _. congruence.
  - simpl in Hok. apply andb_true_iff in Hok as [Hx' Hok].
    destruct l' as [|y l'].
    { rewrite closed_cons in Heq. destruct (g_head x Hx') as (c & s & Hg & Hk).
      rewrite Hg in Heq. unfold closed in Heq. simpl in Heq. injection Heq as -> _. congruence. }
    rewrite !closed_cons in Heq. simpl in Hok'. apply andb_true_iff in Hok' as [Hy Hok'].
    destruct (Hx y _ _ Hy (rest_follows l r) (rest_follows l' r') Heq) as [-> Hrest].
    destruct l as [|x1 l], l' as [|y1 l']; simpl in Hrest.
    + naive_solver.
    + injection Hrest as ? _. congruence.
    + injection Hrest as ? _. congruence.
    + injection Hrest as Hrest. destruct (IH _ _ _ Hok Hok' Hrest). naive_solver.
Qed.
End items.

Lemma follows_char c s : is_num_char c = false -> follows (String c s).
Proof. done. Qed.

Lemma number_text_unique v v' r r' :
  str_forallb is_num_char v = true -> str_forallb is_num_char v' = true ->
  follows r -> follows r' -> v +:+ r = v' +:+ r' -> v = v' /\ r = r'.
Proof. apply munch_unique. Qed.

Lemma int_text_num z : str_forallb is_num_char (str_of_int z) = true.
Proof.
  pose proof (str_of_int_chars z) as H. revert H.
  generalize (str_of_int z). induction s as [|c s IH]; simpl; [done|].
  intros [Hc Hs]%andb_true_iff. rewrite (IH Hs), andb_true_r.
  by destruct c as [[] [] [] [] [] [] [] []].
Qed.

Lemma readable_int z : readable (JInt z).
Proof.
  intros v' r r' Hv' Hr Hr' Heq.
  destruct v' as [| |z'|x'| | |]; try (by kind_clash Heq).
  - simpl in Heq. apply number_text_unique in Heq as [Hz ->]; auto using int_text_num.
    by apply str_of_int_inj in Hz as ->.
  - exfalso. simpl in Hv'. apply andb_true_iff in Hv' as [Hf Hfound].
    simpl in Heq. apply number_text_unique in Heq as [Hz ->]; auto using int_text_num, float_repr_chars.
    pose proof (int_chars_no_mark _ (str_of_int_chars z)) as Hm.
    rewrite Hz in Hm. pose proof (float_repr_mark x' Hf Hfound). congruence.
Qed.

Lemma readable_float x : floats_ok (JFloat x) = true -> readable (JFloat x).
Proof.
  intros Hok v' r r' Hv' Hr Hr' Heq. pose proof Hok as Hok0.
  simpl in Hok. apply andb_true_iff in Hok as [Hf Hfound].
  destruct v' as [| |z'|x'| | |]; try (by kind_clash Heq).
  - symmetry in Heq. apply readable_int in Heq as [? ?]; auto; congruence.
  - simpl in Hv'. apply andb_true_iff in Hv' as [Hf' Hfound'].
    simpl in Heq. apply number_text_unique in Heq as [Hz ->]; auto using float_repr_chars.
    by apply float_repr_inj in Hz as ->.
Qed.

Lemma print_head v : floats_ok v = true -> exists c s, cprint v = String c s /\ first_kind c <> 0.
Proof.
  intros H. destruct (print_kind v H) as (c & s & -> & Hk). exists c, s. split; [done|].
  rewrite Hk. destruct v as [|[]| | | | |]; done.
Qed.

(** One item of an object. *)
Definition print_item (kv : string * json) : string :=
  json_str false kv.1 +:+ ":" +:+ cprint kv.2.

Lemma print_item_readable kv :
  readable kv.2 -> item_readable print_item (fun kv => floats_ok kv.2) kv.
Proof.
  destruct kv as [k v]. intros Hv [k' v'] r r' Hok Hr Hr' Heq. unfold print_item in Heq. cbn [fst snd] in *.
  rewrite !app_str_assoc in Heq. apply json_str_inj in Heq as [-> Heq].
  simpl in Heq. injection Heq as Heq.
  destruct (Hv v' r r' Hok Hr Hr' Heq). by subst.
Qed.

(** Any value can be read off the front of a document. *)
Lemma print_readable v : floats_ok v = true -> readable v.
Proof.
  induction v as [|b|z|x|s|l IH|l IH] using json_ind'; intros Hok.
  - intros v' r r' Hv' _ _ Heq. destruct v'; try (by kind_clash Heq).
    simpl in Heq. naive_solver.
  - intros v' r r' Hv' _ _ Heq.
    destruct v' as [|b'| | | | |]; try (by kind_clash Heq).
    destruct b, b'; simpl in Heq; naive_solver.
  - apply readable_int.
  - by apply readable_float.
  - intros v' r r' Hv' _ _ Heq.
    destruct v'; try (by kind_clash Heq).
    apply json_str_inj in Heq. naive_solver.
  - intros v' r r' Hv' _ _ Heq.
    destruct v' as [| | | | |l'|]; try (by kind_clash Heq).
    simpl in Hok, Hv', Heq. injection Heq as Heq. rewrite !app_str_assoc in Heq.
    apply (closed_inj cprint floats_ok "]"%char) in Heq as [-> ->]; try done; [apply print_head|].
    rewrite Forall_forall in IH |- *. intros y Hy y' r1 r2. apply (IH y Hy).
    rewrite forallb_forall in Hok. by apply Hok, list_elem_of_In.
  - intros v' r r' Hv' _ _ Heq.
    destruct v' as [| | | | | |l']; try (by kind_clash Heq).
    simpl in Hok, Hv', Heq. injection Heq as Heq. rewrite !app_str_assoc in Heq.
    apply (closed_inj print_item (fun kv => floats_ok kv.2) "}"%char) in Heq as [-> ->]; try done.
    { intros [k y] _. unfold print_item, json_str. simpl. eexists _, _. split; [done|]. done. }
    rewrite Forall_forall in IH |- *. intros y Hy. apply print_item_readable, (IH y Hy).
    rewrite forallb_forall in Hok. by apply (Hok y), list_elem_of_In.
Qed.

Lemma print_inj v v' :
  floats_ok v = true -> floats_ok v' = true -> cprint v = cprint v' -> v = v'.
Proof.
  intros H H' Heq. apply (print_readable v H v' "" ""); try done. by rewrite Heq.
Qed.

(** ** Canonical bytes determine the normalised value *)

(** The one character at the front of a UTF-8 text. *)
Definition unutf8 (l : list byte) : option (ascii * list byte) :=
  match l with
  | [] => None
  | b :: t =>
      let n := Byte.to_N b in
      if (n <? 128)%N then Some (ascii_of_N n, t)
      else match t with
           | b' :: t' => Some (ascii_of_N (64 * (n - 192) + (Byte.to_N b' - 128)), t')
           | [] => None
           end
  end.

Lemma unutf8_char c t : unutf8 (utf8_char c ++ t) = Some (c, t).
Proof. destruct c as [[] [] [] [] [] [] [] []]; reflexivity. Qed.

Lemma utf8_inj s1 s2 : utf8 s1 = utf8 s2 -> s1 = s2.
Proof.
  revert s2. induction s1 as [|c1 s1 IH]; intros [|c2 s2] H; cbn [utf8] in H; try done.
  - by destruct c2 as [[] [] [] [] [] [] [] []].
  - by destruct c1 as [[] [] [] [] [] [] [] []].
  - apply (f_equal unutf8) in H. rewrite !unutf8_char in H. injection H as -> H.
    f_equal. auto.
Qed.

Lemma insert_by_perm {A} (key : A -> string) x l : insert_by key x l ≡ₚ x :: l.
Proof.
  induction l as [|y l IH]; simpl; [done|]. destruct (str_leb _ _); [done|].
  rewrite IH. apply Permutation_swap.
Qed.

Lemma sort_by_perm {A} (key : A -> string) l : sort_by key l ≡ₚ l.
Proof.
  induction l as [|x l IH]; simpl; [done|]. by rewrite insert_by_perm, IH.
Qed.

Lemma forallb_perm {A} (f : A -> bool) l l' : l ≡ₚ l' -> forallb f l = forallb f l'.
Proof.
  induction 1; simpl; try congruence.
  rewrite !andb_assoc. f_equal. apply andb_comm.
Qed.

Lemma forallb_map_ext {A B} (f : B -> bool) (g : A -> B) (h : A -> bool) l :
  Forall (fun x => f (g x) = h x) l -> forallb f (map g l) = forallb h l.
Proof. induction 1; simpl; congruence. Qed.

Lemma floats_ok_sort v : floats_ok (sort_keys v) = floats_ok v.
Proof.
  induction v as [| | | | |l IH|l IH] using json_ind'; simpl; try done.
  - by apply forallb_map_ext.
  - rewrite (forallb_perm _ _ _ (sort_by_perm _ _)). by apply forallb_map_ext.
Qed.

Lemma canonical_bytes_ok p b :
  canonical_bytes p = Ok b ->
  exists v, normalise "$" p = Ok v /\ b = utf8 (cprint (sort_keys v)).
Proof.
  unfold canonical_bytes, canonical_json. intros H. inv_ok.
  destruct p; inv_ok; subst; eauto.
Qed.

(** Equal canonical bytes come from equal normalised values, the order of
    object keys apart. *)
Lemma canonical_bytes_normal p1 p2 v1 v2 b :
  normalise "$" p1 = Ok v1 -> normalise "$" p2 = Ok v2 ->
  floats_ok v1 = true -> floats_ok v2 = true ->
  canonical_bytes p1 = Ok b -> canonical_bytes p2 = Ok b ->
  sort_keys v1 = sort_keys v2.
Proof.
  intros H1 H2 Hf1 Hf2 (w1 & Hw1 & Hb1)%canonical_bytes_ok (w2 & Hw2 & Hb2)%canonical_bytes_ok.
  assert (w1 = v1) as -> by congruence. assert (w2 = v2) as -> by congruence. subst b.
  apply print_inj; rewrite ?floats_ok_sort; try done.
  by apply utf8_inj.
Qed.

(** ** The order in which a dict was built does not matter *)

Lemma str_leb_le a b : str_leb a b = true <-> String.le a b.
Proof. unfold str_leb, String.le. by rewrite Is_true_true. Qed.

Abbreviation key_le key := (fun x y => String.le (key x) (key y)).

Lemma insert_by_sorted {A} (key : A -> string) x l :
  StronglySorted (key_le key) l -> StronglySorted (key_le key) (insert_by key x l).
Proof.
  induction 1 as [|y l Hl IH Hy]; simpl; [repeat constructor|].
  destruct (str_leb (key x) (key y)) eqn:E.
  - apply str_leb_le in E. constructor; [by constructor|]. constructor; [done|].
    rewrite Forall_forall in Hy |- *. intros z Hz. etrans; [apply E|]. by apply Hy.
  - constructor; [done|]. rewrite insert_by_perm. constructor; [|done].
    destruct (total String.le (key x) (key y)) as [Hle|]; [|done].
    apply str_leb_le in Hle. congruence.
Qed.

Lemma sort_by_sorted {A} (key : A -> string) l : StronglySorted (key_le key) (sort_by key l).
Proof. induction l; simpl; [constructor|]. by apply insert_by_sorted. Qed.

(** Sorting forgets the order of a list whose keys are distinct. *)
Lemma sort_by_perm_eq {A} (key : A -> string) l l' :
  l ≡ₚ l' -> NoDup (map key l) -> sort_by key l = sort_by key l'.
Proof.
  intros Hp Hnd. apply (StronglySorted_unique_strong (key_le key)).
  - intros x1 x2 H1 H2 Hle1 Hle2. rewrite sort_by_perm in H1. rewrite sort_by_perm, <-Hp in H2.
    apply (nodup_map_inj key l); auto. by apply (anti_symm String.le).
  - apply sort_by_sorted.
  - apply sort_by_sorted.
  - by rewrite !sort_by_perm.
Qed.

(** How a dict with string keys normalises, item by item. *)
Lemma normalise_pdict path l v :
  normalise path (pdict l) = Ok v <->
  exists items, v = JObj items /\
    Forall2 (fun kx ky => ky.1 = kx.1 /\ normalise (path +:+ "." +:+ kx.1) kx.2 = Ok ky.2) l items.
Proof.
  unfold pdict, pairs_dict. cbn [normalise]. rewrite bind_ok. setoid_rewrite res_map_ok. split.
  - intros (items & HF & [= <-]). exists items. split; [done|].
    rewrite Forall2_fmap_l in HF. eapply Forall2_impl; [exact HF|].
    intros [k x] [k' y] H. cbn in H. apply bind_ok in H as (y' & Hy & [= <- <-]). done.
  - intros (items & -> & HF). exists items. split; [|done].
    rewrite Forall2_fmap_l. eapply Forall2_impl; [exact HF|].
    intros [k x] [k' y] H. cbn in *. destruct H as [-> ->]. done.
Qed.

Lemma canonical_json_pdict_perm l l' s :
  l ≡ₚ l' -> NoDup (map fst l) -> canonical_json (pdict l) = Ok s -> canonical_json (pdict l') = Ok s.
Proof.
  intros Hp Hnd H. unfold canonical_json in *. change (pdict l) with (PDict (map (fun kv => (PStr kv.1, kv.2)) l)) in H.
  cbv iota in H. apply bind_ok in H as (v & Hv & [= <-]).
  apply (normalise_pdict "$" l) in Hv as (items & -> & HF).
  destruct (Forall2_perm_l _ _ _ _ Hp HF) as (items' & Hpi & HF').
  change (pdict l') with (PDict (map (fun kv => (PStr kv.1, kv.2)) l')). cbv iota.
  assert (normalise "$" (pdict l') = Ok (JObj items')) as Hn
    by (apply normalise_pdict; eauto).
  unfold pdict, pairs_dict in Hn. rewrite Hn. cbn [mbind res_bind]. f_equal. unfold dumps. f_equal.
  cbn [sort_keys]. f_equal. symmetry. apply sort_by_perm_eq.
  - by apply fmap_Permutation.
  - rewrite map_map. cbn [fst]. replace (map _ items) with (map fst l); [done|].
    clear -HF. induction HF as [|? ? ? ? [? _]]; simpl; congruence.
Qed.

(** ** Reading a field off two payloads with the same canonical form *)

Lemma normalise_field path l j k x :
  normalise path (pdict l) = Ok j -> (k, x) ∈ l ->
  exists items y, j = JObj items /\ (k, y) ∈ items /\ normalise (path +:+ "." +:+ k) x = Ok y.
Proof.
  intros (items & -> & HF)%normalise_pdict [i Hi]%list_elem_of_lookup.
  destruct (Forall2_lookup_l _ _ _ _ _ HF Hi) as ([k' y] & Hy & Hk & Hn). cbn in Hk, Hn. subst k'.
  exists items, y. split_and!; try done. by eapply list_elem_of_lookup_2.
Qed.

Lemma normalise_keys path l items :
  normalise path (pdict l) = Ok (JObj items) -> map fst items = map fst l.
Proof.
  intros (items' & [= <-] & HF)%normalise_pdict.
  induction HF as [|? ? ? ? [? _]]; simpl; congruence.
Qed.

Lemma sort_keys_field items1 items2 k v1 v2 :
  NoDup (map fst items2) -> sort_keys (JObj items1) = sort_keys (JObj items2) ->
  (k, v1) ∈ items1 -> (k, v2) ∈ items2 -> sort_keys v1 = sort_keys v2.
Proof.
  intros Hnd Heq H1 H2. cbn [sort_keys] in Heq. injection Heq as Heq.
  set (f := fun kv : string * json => (kv.1, sort_keys kv.2)) in *.
  assert ((k, sort_keys v1) ∈ map f items2) as Hin.
  { rewrite <-(sort_by_perm fst (map f items2)), <-Heq, sort_by_perm.
    by apply (list_elem_of_fmap_2 f _ (k, v1)). }
  assert ((k, sort_keys v2) ∈ map f items2) as Hin2 by (by apply (list_elem_of_fmap_2 f _ (k, v2))).
  assert (NoDup (map fst (map f items2))) as Hnd' by (by rewrite map_map).
  by injection (nodup_map_inj fst _ _ _ Hnd' Hin Hin2 eq_refl).
Qed.

(** Dicts with the same canonical form agree on every field. *)
Lemma canonical_field path l1 l2 j1 j2 k x1 x2 :
  NoDup (map fst l2) ->
  normalise path (pdict l1) = Ok j1 -> normalise path (pdict l2) = Ok j2 ->
  sort_keys j1 = sort_keys j2 -> (k, x1) ∈ l1 -> (k, x2) ∈ l2 ->
  exists y1 y2, normalise (path +:+ "." +:+ k) x1 = Ok y1 /\
    normalise (path +:+ "." +:+ k) x2 = Ok y2 /\ sort_keys y1 = sort_keys y2.
Proof.
  intros Hnd H1 H2 Heq Hk1 Hk2.
  destruct (normalise_field _ _ _ _ _ H1 Hk1) as (i1 & y1 & -> & Hy1 & Hn1).
  destruct (normalise_field _ _ _ _ _ H2 Hk2) as (i2 & y2 & -> & Hy2 & Hn2).
  exists y1, y2. split_and!; try done. eapply sort_keys_field; eauto.
  by rewrite (normalise_keys _ _ _ H2).
Qed.

Lemma canonical_str_field path l1 l2 j1 j2 k s1 s2 :
  NoDup (map fst l2) ->
  normalise path (pdict l1) = Ok j1 -> normalise path (pdict l2) = Ok j2 ->
  sort_keys j1 = sort_keys j2 -> (k, PStr s1) ∈ l1 -> (k, PStr s2) ∈ l2 -> s1 = s2.
Proof.
  intros Hnd H1 H2 Heq Hk1 Hk2.
  destruct (canonical_field _ _ _ _ _ _ _ _ Hnd H1 H2 Heq Hk1 Hk2) as (y1 & y2 & Hy1 & Hy2 & Hs).
  cbn in Hy1, Hy2. by simplify_eq.
Qed.

(** [$] lets an identifier end in a newline. *)
Example identifier_may_end_in_newline :
  require_identifier (String "t"%char (String newline EmptyString)) "tenant_id"
    = Ok (String "t"%char (String newline EmptyString)).
Proof. reflexivity. Qed.
