(* ===== verification/Json.v ===== *)
(** * Reading JSON text ([json.loads])

    The decoder of Python's [json] module on strings: values, white space, the
    escapes of strings, numbers, the non-standard [NaN] and [Infinity], the
    last value of a repeated key.  What [json.dumps] prints is read back
    as the value printed, for both layouts the code uses.

    A failure of the decoder ([JSONDecodeError], a [ValueError]) is [None].
    Strings hold code points below 256, so an escape above is refused here. *)

From stdpp Require Import base tactics list strings.
From Stdlib Require Import ZArith Lia Ascii DecimalString DecimalZ Floats.SpecFloat.
From S2P Require Import Prelude PyFloat PyStr Serialization.

Open Scope string_scope.
Open Scope list_scope.

(** ** Tokens *)

Definition is_ws (c : ascii) : bool :=
  Ascii.eqb c " " || (code c =? 9)%N || (code c =? 10)%N || (code c =? 13)%N.

Fixpoint skip_ws (s : string) : string :=
  match s with
  | String c s' => if is_ws c then skip_ws s' else s
  | EmptyString => EmptyString
  end.

Definition hex_value (c : ascii) : option N :=
  if in_range 48 57 c then Some (code c - 48)%N
  else if in_range 97 102 c then Some (code c - 87)%N
  else if in_range 65 70 c then Some (code c - 55)%N
  else None.

(** The four digits of [\u]. *)
Definition code_point (a b c d : ascii) : option N :=
  a ← hex_value a; b ← hex_value b; c ← hex_value c; d ← hex_value d;
  Some (((a * 16 + b) * 16 + c) * 16 + d)%N.

Definition unescape (c : ascii) : option ascii :=
  if Ascii.eqb c dquote_char || Ascii.eqb c backslash || Ascii.eqb c "/" then Some c
  else if Ascii.eqb c "b" then Some (ascii_of_N 8)
  else if Ascii.eqb c "f" then Some (ascii_of_N 12)
  else if Ascii.eqb c "n" then Some (ascii_of_N 10)
  else if Ascii.eqb c "r" then Some (ascii_of_N 13)
  else if Ascii.eqb c "t" then Some (ascii_of_N 9)
  else None.

(** [scanstring] after the opening quote, [strict]: the string and the rest. *)
Fixpoint scan_string (s : string) : option (string * string) :=
  match s with
  | EmptyString => None
  | String c s' =>
      if Ascii.eqb c dquote_char then Some (EmptyString, s')
      else if Ascii.eqb c backslash then
        match s' with
        | EmptyString => None
        | String e s'' =>
            if Ascii.eqb e "u" then
              match s'' with
              | String h1 (String h2 (String h3 (String h4 rest))) =>
                  n ← code_point h1 h2 h3 h4;
                  if (n <? 256)%N
                  then '(t, r) ← scan_string rest; Some (String (ascii_of_N n) t, r)
                  else None
              | _ => None
              end
            else c' ← unescape e; '(t, r) ← scan_string s''; Some (String c' t, r)
        end
      else if (code c <? 32)%N then None
      else '(t, r) ← scan_string s'; Some (String c t, r)
  end.

(** The longest prefix of digits, and the rest. *)
Fixpoint digits (s : string) : string * string :=
  match s with
  | String c s' => if is_digit c then let '(d, r) := digits s' in (String c d, r) else (EmptyString, s)
  | EmptyString => (EmptyString, EmptyString)
  end.

(** The regular expression of a number: integer part, fraction, exponent. *)
Definition lex_whole (s : string) : option (string * string) :=
  match s with
  | String c s' =>
      if Ascii.eqb c "0" then Some ("0", s')
      else if is_digit c then Some (digits s) else None
  | EmptyString => None
  end.

Definition lex_integer (s : string) : option (string * string) :=
  match s with
  | String c s' =>
      if Ascii.eqb c "-" then '(d, r) ← lex_whole s'; Some (String c d, r) else lex_whole s
  | EmptyString => None
  end.

Definition lex_fraction (s : string) : string * string :=
  match s with
  | String c s' =>
      if Ascii.eqb c "." then
        match digits s' with (EmptyString, _) => (EmptyString, s) | (d, r) => (String c d, r) end
      else (EmptyString, s)
  | EmptyString => (EmptyString, s)
  end.

Definition lex_exponent (s : string) : string * string :=
  match s with
  | String c s' =>
      if Ascii.eqb c "e" || Ascii.eqb c "E" then
        match s' with
        | String g s'' =>
            if Ascii.eqb g "+" || Ascii.eqb g "-"
            then match digits s'' with (EmptyString, _) => (EmptyString, s) | (d, r) => (String "e" (String g d), r) end
            else match digits s' with (EmptyString, _) => (EmptyString, s) | (d, r) => (String "e" d, r) end
        | EmptyString => (EmptyString, s)
        end
      else (EmptyString, s)
  | EmptyString => (EmptyString, s)
  end.

Definition scan_number (s : string) : option (json * string) :=
  '(i, r) ← lex_integer s;
  let '(f, r1) := lex_fraction r in
  let '(e, r2) := lex_exponent r1 in
  if (f =? "")%string && (e =? "")%string
  then n ← NilEmpty.int_of_string i; Some (JInt (Z.of_int n), r2)
  else x ← float_of_str (i +:+ f +:+ e); Some (JFloat x, r2).

(** A fixed word at the front. *)
Fixpoint word (w s : string) : option string :=
  match w, s with
  | EmptyString, _ => Some s
  | String c w', String d s' => if Ascii.eqb c d then word w' s' else None
  | _, EmptyString => None
  end.

(** ** Values *)

(** Setting a key of a dict: a key keeps its place and takes the new value. *)
Fixpoint set_item (items : list (string * json)) (k : string) (v : json) : list (string * json) :=
  match items with
  | [] => [(k, v)]
  | (k', v') :: rest => if (k' =? k)%string then (k, v) :: rest else (k', v') :: set_item rest k v
  end.

(** Number or non-standard constant. *)
Definition parse_scalar (s : string) : option (json * string) :=
  match word "null" s with Some r => Some (JNull, r) | None =>
  match word "true" s with Some r => Some (JBool true, r) | None =>
  match word "false" s with Some r => Some (JBool false, r) | None =>
  match scan_number s with Some x => Some x | None =>
  match word "NaN" s with Some r => Some (JFloat S754_nan, r) | None =>
  match word "Infinity" s with Some r => Some (JFloat (S754_infinity false), r) | None =>
  match word "-Infinity" s with Some r => Some (JFloat (S754_infinity true), r) | None => None
  end end end end end end end.

(** [scan_once], [JSONArray] after [\[] and white space, [JSONObject] after the
    opening quote of a key.  Every call eats a character, so the length of the
    text is enough fuel ([parse_enough]). *)
Fixpoint parse_value (fuel : nat) (s : string) : option (json * string) :=
  match fuel with
  | O => None
  | S f =>
      match s with
      | EmptyString => None
      | String c s' =>
          if Ascii.eqb c dquote_char then '(t, r) ← scan_string s'; Some (JStr t, r)
          else if Ascii.eqb c "[" then
            match word "]" (skip_ws s') with
            | Some r => Some (JArr [], r)
            | None => '(l, r) ← parse_elements f (skip_ws s'); Some (JArr l, r)
            end
          else if Ascii.eqb c "{" then
            match word "}" (skip_ws s') with
            | Some r => Some (JObj [], r)
            | None =>
                s1 ← word (String dquote_char EmptyString) (skip_ws s');
                '(l, r) ← parse_members f s1 []; Some (JObj l, r)
            end
          else parse_scalar s
      end
  end
with parse_elements (fuel : nat) (s : string) : option (list json * string) :=
  match fuel with
  | O => None
  | S f =>
      '(v, r) ← parse_value f s;
      match word "]" (skip_ws r) with
      | Some r' => Some ([v], r')
      | None =>
          r' ← word "," (skip_ws r);
          '(l, r'') ← parse_elements f (skip_ws r'); Some (v :: l, r'')
      end
  end
with parse_members (fuel : nat) (s : string) (items : list (string * json))
    : option (list (string * json) * string) :=
  match fuel with
  | O => None
  | S f =>
      '(k, r) ← scan_string s;
      r1 ← word ":" (skip_ws r);
      '(v, r2) ← parse_value f (skip_ws r1);
      match word "}" (skip_ws r2) with
      | Some r' => Some (set_item items k v, r')
      | None =>
          r3 ← word "," (skip_ws r2);
          r4 ← word (String dquote_char EmptyString) (skip_ws r3);
          parse_members f r4 (set_item items k v)
      end
  end.

(** [json.loads(s)]. *)
Definition loads (s : string) : option json :=
  '(v, r) ← parse_value (2 * String.length s) (skip_ws s);
  if (skip_ws r =? "")%string then Some v else None.

(** ** Strings *)

Lemma scan_escaped ea c t :
  scan_string (json_escape ea c +:+ t) = ('(t', r) ← scan_string t; Some (String c t', r)).
Proof. destruct ea; destruct c as [[] [] [] [] [] [] [] []]; reflexivity. Qed.

Lemma scan_string_escape ea s r :
  scan_string (escape_str ea s +:+ String dquote_char r) = Some (s, r).
Proof.
  induction s as [|c s IH]; [done|]. cbn [escape_str]. rewrite app_str_assoc, scan_escaped, IH. done.
Qed.

(** ** Numbers *)

(** What may follow a number so that it ends there. *)
Definition number_goes_on (c : ascii) : bool :=
  is_digit c || Ascii.eqb c "." || Ascii.eqb c "e" || Ascii.eqb c "E".
Abbreviation ends := (head_fails number_goes_on).

Lemma digits_app d r :
  str_forallb is_digit d = true -> head_fails is_digit r -> digits (d +:+ r) = (d, r).
Proof.
  induction d as [|c d IH]; cbn [String.append str_forallb]; intros Hd Hr.
  - destruct r as [|c r]; [done|]. cbn in *. by rewrite Hr.
  - apply andb_true_iff in Hd as [Hc Hd]. cbn [digits]. by rewrite Hc, (IH Hd Hr).
Qed.

(** The parts of a number literal. *)
Definition whole_ok (i : string) : Prop :=
  i = "0" \/ exists c d, i = String c d /\ c <> "0"%char /\ str_forallb is_digit i = true.
Definition fraction_ok (f : string) : Prop :=
  f = "" \/ exists d, f = String "." d /\ d <> "" /\ str_forallb is_digit d = true.
Definition exponent_ok (e : string) : Prop :=
  e = "" \/ exists g d, e = String "e" (String g d) /\ (g = "+" \/ g = "-")%char /\ d <> "" /\ str_forallb is_digit d = true.

Lemma ends_digit r : ends r -> head_fails is_digit r.
Proof.
  destruct r as [|c r]; cbn; [done|]. unfold number_goes_on. intros H. by repeat apply orb_false_iff in H as [H _].
Qed.

Lemma lex_whole_app i r : whole_ok i -> head_fails is_digit r -> lex_whole (i +:+ r) = Some (i, r).
Proof.
  intros [->|(c & d & -> & Hc & Hd)] Hr; [done|].
  pose proof (digits_app _ _ Hd Hr) as E. cbn [String.append] in *. unfold lex_whole.
  rewrite (proj2 (Ascii.eqb_neq _ _) Hc). cbn [str_forallb] in Hd. apply andb_true_iff in Hd as [-> _]. by rewrite E.
Qed.

Lemma lex_fraction_app f r :
  fraction_ok f -> head_fails (fun c => is_digit c || Ascii.eqb c ".") r -> lex_fraction (f +:+ r) = (f, r).
Proof.
  intros [->|(d & -> & Hne & Hd)] Hr.
  - destruct r as [|c r]; [done|]. cbn in *. apply orb_false_iff in Hr as [_ ->]. done.
  - cbn [String.append lex_fraction]. change (Ascii.eqb "." ".") with true. cbv iota.
    rewrite digits_app; [by destruct d|done|]. destruct r; [done|]. cbn in *. by apply orb_false_iff in Hr as [-> _].
Qed.

Lemma lex_exponent_app e r : exponent_ok e -> ends r -> lex_exponent (e +:+ r) = (e, r).
Proof.
  intros [->|(g & d & -> & Hg & Hne & Hd)] Hr.
  - destruct r as [|c r]; [done|]. cbn in *. unfold number_goes_on in Hr.
    apply orb_false_iff in Hr as [[[_ _]%orb_false_iff ->]%orb_false_iff ->]. done.
  - cbn [String.append lex_exponent]. change (Ascii.eqb "e" "e" || Ascii.eqb "e" "E") with true. cbv iota.
    rewrite (digits_app d r Hd (ends_digit _ Hr)). destruct Hg as [-> | ->]; cbn; by destruct d.
Qed.

Lemma exponent_head e r : exponent_ok e -> ends r -> head_fails (fun c => is_digit c || Ascii.eqb c ".") (e +:+ r).
Proof.
  intros [->|(g & d & -> & _)] Hr; [|done]. destruct r as [|c r]; [done|]. cbn in *. unfold number_goes_on in Hr.
  by apply orb_false_iff in Hr as [[? _]%orb_false_iff _].
Qed.

Lemma fraction_head f t :
  fraction_ok f -> head_fails (fun c => is_digit c || Ascii.eqb c ".") t -> head_fails is_digit (f +:+ t).
Proof.
  intros [->|(d & -> & _)] Ht; [|done]. destruct t as [|c t]; [done|]. cbn in *. by apply orb_false_iff in Ht as [? _].
Qed.

(** A literal is split into the parts it was made of. *)
Lemma lex_parts (neg : bool) i f e r (s := (if neg then "-" else "") +:+ i) :
  whole_ok i -> fraction_ok f -> exponent_ok e -> ends r ->
  lex_integer (s +:+ f +:+ e +:+ r) = Some (s, f +:+ e +:+ r) /\
  lex_fraction (f +:+ e +:+ r) = (f, e +:+ r) /\ lex_exponent (e +:+ r) = (e, r).
Proof.
  intros Hi Hf He Hr. pose proof (exponent_head _ _ He Hr) as H1. pose proof (fraction_head _ _ Hf H1) as H2.
  split_and!; [|by apply lex_fraction_app|by apply lex_exponent_app]. unfold s.
  pose proof (lex_whole_app _ _ Hi H2) as Hw. destruct neg; cbn [String.append lex_integer].
  - change (Ascii.eqb "-" "-") with true. cbv iota. by rewrite Hw.
  - destruct Hi as [->|(c & d & -> & Hc & Hd)]; [done|]. cbn [String.append lex_integer] in *.
    cbn [str_forallb] in Hd. apply andb_true_iff in Hd as [Hd _].
    destruct (Ascii.eqb_spec c "-") as [->|_]; [done|]. exact Hw.
Qed.

(** *** Integers *)

Lemma nzhead_no_zero d d' : Decimal.nzhead d <> Decimal.D0 d'.
Proof. induction d; cbn; congruence. Qed.

Lemma pos_numeral p : whole_ok (NilEmpty.string_of_uint (Pos.to_uint p)).
Proof.
  right. pose proof (string_of_uint_digits (Pos.to_uint p)) as Hd.
  pose proof (DecimalPos.Unsigned.to_uint_nonnil p) as Hn. pose proof (DecimalPos.Unsigned.to_uint_nonzero p) as Hz.
  pose proof (DecimalN.Unsigned.of_to (N.pos p)) as Hof. cbn [N.to_uint] in Hof.
  pose proof (DecimalN.Unsigned.to_of (Pos.to_uint p)) as Hto. rewrite Hof in Hto. cbn [N.to_uint] in Hto.
  destruct (Pos.to_uint p) as [|u|u|u|u|u|u|u|u|u|u] eqn:E; try done; cbn in Hd |- *; try (by eexists _, _).
  exfalso. unfold Decimal.unorm in Hto. cbn in Hto.
  destruct (Decimal.nzhead u) eqn:En; first [done | by apply nzhead_no_zero in En | by injection Hto as ->].
Qed.

Lemma str_of_int_parts z :
  exists (neg : bool) i, str_of_int z = (if neg then "-" else "") +:+ i /\ whole_ok i.
Proof.
  unfold str_of_int. destruct z as [|p|p]; cbn.
  - exists false, "0". split; [done|by left].
  - exists false. eexists. split; [done|]. apply pos_numeral.
  - exists true. eexists. split; [done|]. apply pos_numeral.
Qed.

Lemma scan_int z r : ends r -> scan_number (str_of_int z +:+ r) = Some (JInt z, r).
Proof.
  intros Hr. destruct (str_of_int_parts z) as (neg & i & Hz & Hi). unfold scan_number.
  destruct (lex_parts neg i "" "" r Hi ltac:(by left) ltac:(by left) Hr) as (E1 & E2 & E3).
  cbn [String.append] in E1, E2, E3. rewrite Hz, E1. cbn [mbind option_bind]. rewrite E2, E3. cbn [String.eqb andb].
  rewrite <-Hz. unfold str_of_int. rewrite NilEmpty.isi. cbn. by rewrite DecimalZ.of_to.
Qed.

(** *** Floats *)

Lemma strip_pos fuel d k : (0 < d)%Z -> (0 < (strip_trailing_zeros fuel d k).1)%Z.
Proof.
  revert d k. induction fuel as [|n IH]; intros d k Hd; [done|]. cbn [strip_trailing_zeros].
  destruct (Z.eqb_spec (d mod 10) 0); [|done]. apply IH.
  pose proof (Z.div_mod d 10 ltac:(lia)). lia.
Qed.

Lemma substring_digits n m s : str_forallb is_digit s = true -> str_forallb is_digit (String.substring n m s) = true.
Proof.
  revert n m. induction s as [|c s IH]; intros n m Hs; [by destruct n, m|].
  cbn [str_forallb] in Hs. apply andb_true_iff in Hs as [Hc Hs].
  destruct n; cbn; [|by apply IH]. destruct m; cbn; [done|]. rewrite Hc. by apply IH.
Qed.

Lemma substring_nonempty n m s : (n < String.length s)%nat -> (0 < m)%nat -> String.substring n m s <> "".
Proof.
  revert n. induction s as [|c s IH]; intros n Hn Hm; cbn in Hn; [lia|].
  destruct n; cbn; [by destruct m; [lia|]|]. apply IH; lia.
Qed.

Lemma zeros_digits n : str_forallb is_digit (str_zeros n) = true.
Proof. by induction n. Qed.

(** Every literal of a positive decimal is a number of the JSON grammar, with
    a fraction or an exponent. *)
Definition float_literal (s : string) : Prop :=
  exists i f e, s = i +:+ f +:+ e /\ whole_ok i /\ fraction_ok f /\ exponent_ok e /\
    (f =? "")%string && (e =? "")%string = false.

Lemma exponent_text (e : Z) :
  exponent_ok ("e" +:+ (if (e <? 0)%Z then "-" else "+") +:+
    (if (Z.abs e <? 10)%Z then "0" +:+ str_of_int (Z.abs e) else str_of_int (Z.abs e))).
Proof.
  right. pose proof (str_of_int_nonneg (Z.abs e) ltac:(lia)) as Hd.
  destruct (str_of_int_cons (Z.abs e)) as (c & t & Ht & _).
  exists (if (e <? 0)%Z then "-" else "+")%char, (if (Z.abs e <? 10)%Z then "0" +:+ str_of_int (Z.abs e) else str_of_int (Z.abs e)).
  split_and!.
  - by destruct (e <? 0)%Z.
  - by destruct (e <? 0)%Z; [right|left].
  - rewrite Ht. by destruct (_ <? _)%Z.
  - by destruct (_ <? _)%Z; [cbn [String.append str_forallb]|].
Qed.

Lemma pos_literal d :
  (0 < d)%Z -> exists c t, str_of_int d = String c t /\ c <> "0"%char /\ str_forallb is_digit (str_of_int d) = true.
Proof.
  intros Hd. destruct d as [|p|p]; try lia. unfold str_of_int. cbn.
  destruct (pos_numeral p) as [H0|(c & t & -> & Hc & Hall)]; [|by exists c, t].
  exfalso. pose proof (NilEmpty.usu (Pos.to_uint p)) as Hu. rewrite H0 in Hu. cbn in Hu. injection Hu as Hu.
  by apply (DecimalPos.Unsigned.to_uint_nonzero p).
Qed.

Lemma format_decimal_literal d k : (0 < d)%Z -> float_literal (format_decimal d k).
Proof.
  intros Hd. unfold format_decimal. pose proof (strip_pos 20 d k Hd) as Hp.
  destruct (strip_trailing_zeros 20 d k) as [d' k']. cbn [fst] in Hp.
  destruct (pos_literal d' Hp) as (c & t & Hs & Hc & Hall). set (ds := str_of_int d') in *.
  assert (Hsub : forall n, (0 < n)%nat -> whole_ok (String.substring 0 n ds)).
  { intros [|n] Hn; [lia|]. right. pose proof (substring_digits 0 (S n) _ Hall) as Hd'. rewrite Hs in Hd' |- *.
    by exists c, (String.substring 0 n t). }
  assert (Hlen : (0 < String.length ds)%nat) by (rewrite Hs; cbn; lia).
  destruct (_ && _)%bool.
  - destruct (Z.leb_spec (Z.of_nat (String.length ds) + k') 0).
    + exists "0", (String "." (str_zeros (Z.to_nat (- (Z.of_nat (String.length ds) + k'))) +:+ ds)), "".
      split_and!; [by rewrite app_str_nil_r|by left| |by left|done]. right. eexists. split; [done|].
      rewrite str_forallb_app, zeros_digits, Hall. split; [|done]. rewrite Hs. by destruct (Z.to_nat _).
    + destruct (Z.leb_spec (Z.of_nat (String.length ds)) (Z.of_nat (String.length ds) + k')).
      * exists (ds +:+ str_zeros (Z.to_nat (Z.of_nat (String.length ds) + k') - String.length ds)), ".0", "".
        split_and!; [by rewrite app_str_nil_r, app_str_assoc| | |by left|done].
        -- right. exists c, (t +:+ str_zeros (Z.to_nat (Z.of_nat (String.length ds) + k') - String.length ds)).
           rewrite str_forallb_app, Hall, zeros_digits, Hs. done.
        -- right. by exists "0".
      * set (n := Z.to_nat (Z.of_nat (String.length ds) + k')).
        exists (String.substring 0 n ds), (String "." (String.substring n (String.length ds - n) ds)), "".
        split_and!; [by rewrite app_str_nil_r|apply Hsub; lia| |by left|done]. right.
        eexists. split; [done|]. split; [apply substring_nonempty; lia|by apply substring_digits].
  - set (e := (Z.of_nat (String.length ds) + k' - 1)%Z). pose proof (exponent_text e) as He.
    destruct (Nat.eqb_spec (String.length ds) 1) as [H1|H1].
    + exists ds, "". eexists. split_and!; [reflexivity|right; by exists c, t|by left|exact He|done].
    + exists (String.substring 0 1 ds), (String "." (String.substring 1 (String.length ds - 1) ds)). eexists.
      split_and!; [cbn; by rewrite !app_str_assoc|apply Hsub; lia| |exact He|done].
      right. eexists. split; [done|]. split; [apply substring_nonempty; lia|by apply substring_digits].
Qed.

(** The literal of zero reads as zero, so it is never the literal of a float
    that is not. *)
Lemma parse_zeros n t fr : parse_mant (str_zeros n +:+ t) 0 fr = parse_mant t 0 ((fun z => (z + Z.of_nat n)%Z) <$> fr).
Proof.
  revert fr. induction n as [|n IH]; intros fr; cbn [str_zeros String.append].
  - f_equal. destruct fr; cbn; [by rewrite Z.add_0_r|done].
  - cbn [parse_mant]. change (is_digit "0") with true. cbv iota. change (0 * 10 + digit_val "0")%Z with 0%Z.
    rewrite IH. f_equal. destruct fr; cbn; [f_equal; lia|done].
Qed.

Lemma strip_zero fuel k : strip_trailing_zeros fuel 0 k = (0, k + Z.of_nat fuel)%Z.
Proof.
  revert k. induction fuel as [|n IH]; intros k; cbn [strip_trailing_zeros].
  - by rewrite Z.add_0_r.
  - change (0 mod 10 =? 0)%Z with true. cbv iota. change (0 / 10)%Z with 0%Z. rewrite IH. f_equal. lia.
Qed.

Lemma zero_literal k x : float_of_unsigned_str (format_decimal 0 k) = Some x -> x = S754_zero false.
Proof.
  unfold float_of_unsigned_str. intros H.
  destruct (parse_mant (format_decimal 0 k) 0 None) as [[d j]|] eqn:E; [|done]. injection H as <-.
  enough (d = 0%Z) as -> by done. revert E. unfold format_decimal. rewrite strip_zero.
  change (str_of_int 0) with "0". cbn [String.length]. destruct (_ && _)%bool.
  - destruct (Z.leb_spec (Z.of_nat 1 + (k + Z.of_nat 20)) 0).
    + cbn [String.append parse_mant]. cbn. rewrite parse_zeros. cbn. by intros [= <- _].
    + destruct (Z.leb_spec (Z.of_nat 1) (Z.of_nat 1 + (k + Z.of_nat 20))).
      * cbn [String.append parse_mant]. cbn. rewrite parse_zeros. cbn. by intros [= <- _].
      * lia.
  - cbn. destruct (parse_exp _); cbn; [|done]. by intros [= <- _].
Qed.

Lemma candidates_shape m e decpt n s :
  In s (candidates m e decpt n) -> exists d k, (0 <= d)%Z /\ s = format_decimal d k.
Proof.
  unfold candidates. destruct (frac_of m e) as [num den] eqn:Ef.
  assert (0 < num /\ 0 < den)%Z as [Hnum Hden].
  { unfold frac_of in Ef. destruct (Z.leb_spec 0 e); injection Ef as <- <-; split; lia. }
  destruct (if (0 <=? n - decpt)%Z then _ else _) as [num' den'] eqn:En.
  assert (0 <= num' / den')%Z as Hd.
  { destruct (Z.leb_spec 0 (n - decpt)); injection En as <- <-; apply Z.div_pos; lia. }
  intros Hin. set (d := (num' / den')%Z) in *.
  assert (s = format_decimal d (- (n - decpt)) \/ s = format_decimal (d + 1) (- (n - decpt))) as [-> | ->];
    [|by exists d, (- (n - decpt))%Z|exists (d + 1)%Z, (- (n - decpt))%Z; split; [lia|done]].
  repeat case_match; simpl in Hin; destruct_or?; subst; auto; done.
Qed.

Lemma search_repr_literal x m e decpt fuel n s :
  x <> S754_zero false -> search_repr x m e decpt fuel n = Some s -> float_literal s.
Proof.
  intros Hx. revert n. induction fuel as [|f IH]; intros n; [done|].
  unfold search_repr; fold search_repr. destruct (List.find _ _) as [s'|] eqn:E; [|apply IH].
  intros [= <-]. apply List.find_some in E as [Hin Hd]. apply bool_decide_eq_true in Hd.
  apply candidates_shape in Hin as (d & k & Hd0 & ->).
  destruct (Z.eq_dec d 0) as [->|]; [by apply zero_literal in Hd|]. apply format_decimal_literal. lia.
Qed.

Lemma float_repr_literal x :
  isfinite x = true -> repr_found x = true ->
  exists (neg : bool) s, float_repr x = (if neg then "-" else "") +:+ s /\ float_literal s.
Proof.
  unfold float_repr, repr_found. destruct x as [b| | |b m e]; cbn [isfinite]; try done; intros _ Hr.
  - exists b, "0.0". split; [by destruct b|]. exists "0", ".0", "". split_and!; try done; try (by left).
    right. by exists "0".
  - cbn [float_repr_opt] in *.
    destruct (search_repr (S754_finite false m e) m e (decimal_point m e) 17 1) as [s|] eqn:E; [|done].
    exists b, s. split; [by destruct b|]. by eapply search_repr_literal in E.
Qed.

Lemma scan_float x r :
  isfinite x = true -> repr_found x = true -> ends r -> scan_number (float_repr x +:+ r) = Some (JFloat x, r).
Proof.
  intros Hf Hr Hends. pose proof (float_of_str_repr x Hf Hr) as Hread.
  destruct (float_repr_literal x Hf Hr) as (neg & s & Hx & i & f & e & -> & Hi & Hfr & He & Hmark).
  destruct (lex_parts neg i f e r Hi Hfr He Hends) as (E1 & E2 & E3). rewrite Hx in Hread |- *.
  rewrite <-!app_str_assoc in Hread. rewrite !app_str_assoc in Hread. unfold scan_number.
  replace (((if neg then "-" else "") +:+ i +:+ f +:+ e) +:+ r)
    with (((if neg then "-" else "") +:+ i) +:+ f +:+ e +:+ r) by (by rewrite !app_str_assoc).
  rewrite E1. cbn [mbind option_bind]. rewrite E2, E3, Hmark, app_str_assoc, Hread. done.
Qed.

(** ** Fuel *)

Lemma word_shorter w s r : word w s = Some r -> (String.length s = String.length w + String.length r)%nat.
Proof.
  revert s. induction w as [|c w IH]; intros [|d s]; cbn; try done; try (by intros [= <-]).
  destruct (Ascii.eqb c d); [|done]. intros H%IH. lia.
Qed.

Lemma skip_ws_shorter s : (String.length (skip_ws s) <= String.length s)%nat.
Proof. induction s as [|c s IH]; cbn; [done|]. destruct (is_ws c); cbn; lia. Qed.

Lemma scan_string_shorter n s t r :
  (String.length s <= n)%nat -> scan_string s = Some (t, r) -> (String.length r < String.length s)%nat.
Proof.
  revert s t. induction n as [|n IH]; intros [|c s] t Hn; cbn [String.length] in Hn; try done; try lia. cbn [scan_string].
  destruct (Ascii.eqb c dquote_char); [intros [= _ <-]; cbn; lia|].
  destruct (Ascii.eqb c backslash).
  - destruct s as [|e s]; [done|]. cbn [String.length] in *. destruct (Ascii.eqb e "u").
    + destruct s as [|? [|? [|? [|? s]]]]; try done. cbn [String.length] in *. destruct (code_point _ _ _ _); [|done]. cbn.
      destruct (_ <? _)%N; [|done]. destruct (scan_string s) as [[t' r']|] eqn:E; [|done].
      intros [= _ <-]. apply IH in E; lia.
    + destruct (unescape e); [|done]. cbn. destruct (scan_string s) as [[t' r']|] eqn:E; [|done].
      intros [= _ <-]. apply IH in E; lia.
  - destruct (_ <? _)%N; [done|]. destruct (scan_string s) as [[t' r']|] eqn:E; [|done].
    intros [= _ <-]. apply IH in E; cbn; lia.
Qed.

Lemma digits_shorter s d r : digits s = (d, r) -> (String.length s = String.length d + String.length r)%nat.
Proof.
  revert d. induction s as [|c s IH]; intros d; cbn; [by intros [= <- <-]|].
  destruct (is_digit c); [|by intros [= <- <-]]. destruct (digits s) as [d' r'].
  intros [= <- <-]. cbn. by rewrite (IH d').
Qed.

Lemma lex_whole_shorter s i r : lex_whole s = Some (i, r) -> (String.length r < String.length s)%nat.
Proof.
  destruct s as [|c s]; [done|]. unfold lex_whole. destruct (Ascii.eqb c "0"); [intros [= _ <-]; cbn; lia|].
  destruct (is_digit c) eqn:Hc; [|done]. cbn [digits]. rewrite Hc.
  destruct (digits s) as [d r'] eqn:E. apply digits_shorter in E. intros [= _ <-]. cbn. lia.
Qed.

Lemma lex_fraction_shorter s f r : lex_fraction s = (f, r) -> (String.length r <= String.length s)%nat.
Proof.
  destruct s as [|c s]; cbn; [by intros [= _ <-]|]. destruct (Ascii.eqb c "."); [|by intros [= _ <-]].
  destruct (digits s) as [[|c' d] r'] eqn:E; apply digits_shorter in E; intros [= _ <-]; cbn in *; lia.
Qed.

Lemma lex_exponent_shorter s e r : lex_exponent s = (e, r) -> (String.length r <= String.length s)%nat.
Proof.
  destruct s as [|c s]; cbn [lex_exponent]; [by intros [= _ <-]|].
  destruct (_ || _)%bool; [|by intros [= _ <-]]. destruct s as [|g s]; [by intros [= _ <-]|].
  destruct (_ || _)%bool; [destruct (digits s) as [[|c' d] r'] eqn:E | destruct (digits (String g s)) as [[|c' d] r'] eqn:E];
    apply digits_shorter in E; intros [= _ <-]; cbn in *; lia.
Qed.

Lemma scan_number_shorter s v r : scan_number s = Some (v, r) -> (String.length r < String.length s)%nat.
Proof.
  unfold scan_number. destruct (lex_integer s) as [[i r0]|] eqn:Ei; [|done]. cbn [mbind option_bind].
  destruct (lex_fraction r0) as [f r1] eqn:Ef. destruct (lex_exponent r1) as [e r2] eqn:Ee.
  apply lex_fraction_shorter in Ef. apply lex_exponent_shorter in Ee.
  assert (String.length r0 < String.length s)%nat as H0.
  { destruct s as [|c s]; [done|]. unfold lex_integer in Ei. destruct (Ascii.eqb c "-").
    - destruct (lex_whole s) as [[d r']|] eqn:Ew; [|done]. injection Ei as _ <-. apply lex_whole_shorter in Ew. cbn. lia.
    - by apply lex_whole_shorter in Ei. }
  intros H. assert (r = r2) as -> by (destruct (_ && _)%bool;
    [destruct (NilEmpty.int_of_string i)|destruct (float_of_str _)]; cbn in H; by simplify_eq). lia.
Qed.

Lemma parse_scalar_shorter s v r : parse_scalar s = Some (v, r) -> (String.length r < String.length s)%nat.
Proof.
  unfold parse_scalar. intros H. repeat match type of H with
  | match word ?w s with _ => _ end = _ => destruct (word w s) eqn:E; [apply word_shorter in E; cbn in E; simplify_eq; lia|clear E]
  | match scan_number s with _ => _ end = _ => destruct (scan_number s) as [[]|] eqn:E; [apply scan_number_shorter in E; by simplify_eq|clear E]
  end; done.
Qed.

(** Every parser eats at least one character. *)
Lemma parse_shorter fuel :
  (forall s v r, parse_value fuel s = Some (v, r) -> (String.length r < String.length s)%nat) /\
  (forall s l r, parse_elements fuel s = Some (l, r) -> (String.length r < String.length s)%nat) /\
  (forall s items l r, parse_members fuel s items = Some (l, r) -> (String.length r < String.length s)%nat).
Proof.
  induction fuel as [|f (IHv & IHe & IHm)]; [done|]. split_and!.
  - intros [|c s] v r; [done|]. cbn [parse_value]. pose proof (skip_ws_shorter s) as Hs.
    destruct (Ascii.eqb c dquote_char); [|destruct (Ascii.eqb c "["); [|destruct (Ascii.eqb c "{")]].
    + destruct (scan_string s) as [[t r']|] eqn:E; cbn [mbind option_bind]; [|done]. intros [= _ <-].
      apply (scan_string_shorter _ _ _ _ (le_n _)) in E. cbn. lia.
    + destruct (word "]" (skip_ws s)) as [r'|] eqn:E; [intros [= _ <-]; apply word_shorter in E; cbn in *; lia|].
      destruct (parse_elements f (skip_ws s)) as [[l r']|] eqn:El; cbn [mbind option_bind]; [|done]. intros [= _ <-]. apply IHe in El. cbn. lia.
    + destruct (word "}" (skip_ws s)) as [r'|] eqn:E; [intros [= _ <-]; apply word_shorter in E; cbn in *; lia|].
      destruct (word (String dquote_char EmptyString) (skip_ws s)) as [s1|] eqn:E1; cbn [mbind option_bind]; [|done]. apply word_shorter in E1. cbn in E1 |- *.
      destruct (parse_members f s1 []) as [[l r']|] eqn:El; cbn [mbind option_bind]; [|done]. intros [= _ <-]. apply IHm in El. lia.
    + apply parse_scalar_shorter.
  - intros s l r. cbn [parse_elements]. destruct (parse_value f s) as [[v r1]|] eqn:Ev; [|done]. apply IHv in Ev. cbn [mbind option_bind].
    pose proof (skip_ws_shorter r1). destruct (word "]" _) as [r'|] eqn:E; [intros [= _ <-]; apply word_shorter in E; cbn in E; lia|].
    destruct (word "," _) as [r'|] eqn:E'; [|done]. apply word_shorter in E'. cbn [mbind option_bind String.length] in *.
    pose proof (skip_ws_shorter r'). destruct (parse_elements f _) as [[l' r'']|] eqn:El; cbn [mbind option_bind]; [|done].
    intros [= _ <-]. apply IHe in El. lia.
  - intros s items l r. cbn [parse_members]. destruct (scan_string s) as [[k r0]|] eqn:Ek; [|done].
    apply (scan_string_shorter _ _ _ _ (le_n _)) in Ek. cbn [mbind option_bind]. pose proof (skip_ws_shorter r0).
    destruct (word ":" _) as [r1|] eqn:E1; [|done]. apply word_shorter in E1. cbn [mbind option_bind String.length] in *.
    pose proof (skip_ws_shorter r1). destruct (parse_value f _) as [[v r2]|] eqn:Ev; [|done]. apply IHv in Ev. cbn [mbind option_bind].
    pose proof (skip_ws_shorter r2). destruct (word "}" _) as [r'|] eqn:E; [intros [= _ <-]; apply word_shorter in E; cbn in E; lia|].
    destruct (word "," _) as [r3|] eqn:E3; [|done]. apply word_shorter in E3. cbn [mbind option_bind String.length] in *.
    pose proof (skip_ws_shorter r3). destruct (word (String dquote_char EmptyString) (skip_ws r3)) as [r4|] eqn:E4; [|done]. apply word_shorter in E4.
    cbn [mbind option_bind String.length] in *. intros El%IHm. lia.
Qed.

(** Twice the length of the text is enough fuel: more changes nothing. *)
Lemma parse_enough f :
  (forall f' s, (2 * String.length s <= f)%nat -> (2 * String.length s <= f')%nat -> parse_value f s = parse_value f' s) /\
  (forall f' s, (2 * String.length s < f)%nat -> (2 * String.length s < f')%nat -> parse_elements f s = parse_elements f' s) /\
  (forall f' s items, (2 * String.length s < f)%nat -> (2 * String.length s < f')%nat ->
     parse_members f s items = parse_members f' s items).
Proof.
  induction f as [|f (IHv & IHe & IHm)].
  { split_and!; intros; try lia. destruct s as [|c s]; [by destruct f'|cbn in *; lia]. }
  split_and!.
  - intros [|f'] [|c s] Hf Hf'; try done; cbn [String.length] in *; [lia|]. cbn [parse_value].
    pose proof (skip_ws_shorter s) as Hs. destruct (Ascii.eqb c dquote_char); [done|].
    destruct (Ascii.eqb c "["); [|destruct (Ascii.eqb c "{"); [|done]].
    + destruct (word "]" _); [done|]. rewrite (IHe f'); [done|lia ..].
    + destruct (word "}" _); [done|]. destruct (word (String dquote_char EmptyString) (skip_ws s)) as [s1|] eqn:E; cbn [mbind option_bind]; [|done].
      apply word_shorter in E. cbn [mbind option_bind String.length] in *. rewrite (IHm f'); [done|lia ..].
  - intros [|f'] s Hf Hf'; [lia|]. cbn [parse_elements]. rewrite (IHv f') by lia.
    destruct (parse_value f' s) as [[v r]|] eqn:Ev; [|done]. apply (parse_shorter f') in Ev. cbn [mbind option_bind].
    pose proof (skip_ws_shorter r). destruct (word "]" _); [done|]. destruct (word "," _) as [r'|] eqn:E; [|done].
    apply word_shorter in E. cbn [mbind option_bind String.length] in *. pose proof (skip_ws_shorter r').
    rewrite (IHe f'); [done|lia ..].
  - intros [|f'] s items Hf Hf'; [lia|]. cbn [parse_members]. destruct (scan_string s) as [[k r0]|] eqn:Ek; [|done].
    apply (scan_string_shorter _ _ _ _ (le_n _)) in Ek. cbn [mbind option_bind]. pose proof (skip_ws_shorter r0).
    destruct (word ":" _) as [r1|] eqn:E1; [|done]. apply word_shorter in E1. cbn [mbind option_bind String.length] in *.
    pose proof (skip_ws_shorter r1). rewrite (IHv f') by lia.
    destruct (parse_value f' _) as [[v r2]|] eqn:Ev; [|done]. apply (parse_shorter f') in Ev. cbn [mbind option_bind].
    pose proof (skip_ws_shorter r2). destruct (word "}" _); [done|]. destruct (word "," _) as [r3|] eqn:E3; [|done].
    apply word_shorter in E3. cbn [mbind option_bind String.length] in *. pose proof (skip_ws_shorter r3).
    destruct (word (String dquote_char EmptyString) (skip_ws r3)) as [r4|] eqn:E4; [|done]. apply word_shorter in E4.
    cbn [mbind option_bind String.length] in *. apply IHm; lia.
Qed.

(** ** What is printed is read back *)

(** The keys of every object are distinct, as those of a dict are. *)
Fixpoint keys_distinct (v : json) : bool :=
  match v with
  | JArr l => forallb keys_distinct l
  | JObj items => bool_decide (NoDup (map fst items)) && forallb (fun kv => keys_distinct kv.2) items
  | _ => true
  end.

Lemma skip_ws_app w s : str_forallb is_ws w = true -> skip_ws (w +:+ s) = skip_ws s.
Proof. induction w as [|c w IH]; cbn; [done|]. intros [-> H]%andb_true_iff. auto. Qed.

Lemma length_app_str a b : String.length (a +:+ b) = (String.length a + String.length b)%nat.
Proof. induction a as [|c a IH]; cbn; [done|]. by rewrite IH. Qed.

Lemma set_item_new items k v : k ∉ map fst items -> set_item items k v = items ++ [(k, v)].
Proof.
  induction items as [|[k' v'] items IH]; [done|]. cbn. intros Hk.
  destruct (String.eqb_spec k' k) as [->|_]; [by destruct Hk; left|].
  rewrite IH; [done|]. intros Hin. apply Hk. by right.
Qed.

(** A number is told from everything else by its first character. *)
Lemma number_dispatch c s v r fuel :
  is_num_char c = true -> scan_number (String c s) = Some (v, r) ->
  parse_value (S fuel) (String c s) = Some (v, r).
Proof.
  intros Hc H. assert (parse_scalar (String c s) = Some (v, r)) as Hs.
  { unfold parse_scalar. rewrite H. by destruct c as [[] [] [] [] [] [] [] []]. }
  cbn [parse_value]. rewrite Hs. by destruct c as [[] [] [] [] [] [] [] []].
Qed.

Section read_back.
Variable cfg : dumps_config.
Variables wi wk : string.
Hypothesis Hitem : item_sep cfg = String "," wi.
Hypothesis Hkey : key_sep cfg = String ":" wk.
Hypothesis Hwi : str_forallb is_ws wi = true.
Hypothesis Hwk : str_forallb is_ws wk = true.

Definition read_back (v : json) : Prop :=
  floats_ok v = true -> keys_distinct v = true -> forall fuel r,
  (2 * String.length (print cfg v) <= fuel)%nat -> ends r ->
  parse_value fuel (print cfg v +:+ r) = Some (v, r).

(** No value starts with white space or a closing bracket. *)
Definition value_start (c : ascii) : bool := negb (is_ws c || Ascii.eqb c "]" || Ascii.eqb c "}").

Lemma print_start v : floats_ok v = true -> exists c s, print cfg v = String c s /\ value_start c = true.
Proof.
  destruct v as [|[]|z|x|s|l|l]; cbn [print floats_ok]; intros H; try (eexists _, _; split; reflexivity).
  - destruct (str_of_int_cons z) as (c & s & -> & Hc). exists c, s. split; [done|].
    by destruct c as [[] [] [] [] [] [] [] []].
  - apply andb_true_iff in H as [? ?]. destruct (float_repr_cons x) as (c & s & -> & Hc); try done.
    exists c, s. split; [done|]. by destruct c as [[] [] [] [] [] [] [] []].
Qed.

Lemma start_stays c s : value_start c = true ->
  skip_ws (String c s) = String c s /\ word "]" (String c s) = None /\ word "}" (String c s) = None.
Proof. by destruct c as [[] [] [] [] [] [] [] []]. Qed.

Lemma join_cons sep (x : string) l : l <> [] -> str_join sep (x :: l) = x +:+ sep +:+ str_join sep l.
Proof. by destruct l. Qed.

Lemma read_elements l fuel r :
  Forall read_back l -> forallb floats_ok l = true -> forallb keys_distinct l = true -> l <> [] ->
  (2 * String.length (str_join (item_sep cfg) (map (print cfg) l)) < fuel)%nat ->
  parse_elements fuel (str_join (item_sep cfg) (map (print cfg) l) +:+ String "]" r) = Some (l, r).
Proof.
  intros HF. revert fuel. induction HF as [|v l Hv HF IH]; intros fuel Hfl Hk Hne Hfuel; [done|].
  cbn [forallb] in Hfl, Hk. apply andb_true_iff in Hfl as [Hf1 Hf2], Hk as [Hk1 Hk2].
  destruct fuel as [|fuel]; [lia|]. cbn [parse_elements]. destruct l as [|v' l].
  - cbn [map str_join] in *. rewrite (Hv Hf1 Hk1) by (lia || done). done.
  - cbn [map] in *. rewrite join_cons in Hfuel |- * by done. rewrite !length_app_str in Hfuel. rewrite Hitem in Hfuel |- *.
    cbn [String.length] in Hfuel. rewrite !app_str_assoc.
    rewrite (Hv Hf1 Hk1) by (lia || done). cbn [mbind option_bind String.append skip_ws]. change (is_ws ",") with false. cbv iota.
    cbn [word]. change (Ascii.eqb "," ",") with true.
    change (Ascii.eqb "]" ",") with false. cbv iota. cbn [mbind option_bind]. rewrite skip_ws_app by done.
    assert (skip_ws (str_join (item_sep cfg) (map (print cfg) (v' :: l)) +:+ String "]" r)
            = str_join (item_sep cfg) (map (print cfg) (v' :: l)) +:+ String "]" r) as Hskip.
    { cbn [forallb] in Hf2. apply andb_true_iff in Hf2 as [Hf2 _]. destruct (print_start v' Hf2) as (c & s & Hc & Hs).
      cbn [map]. destruct l; cbn [map str_join]; rewrite Hc; cbn [String.append]; by apply start_stays. }
    rewrite <-Hitem. cbn [map] in Hskip. rewrite Hskip. rewrite IH; [done..|]. rewrite Hitem. cbn [map]. lia.
Qed.

Definition member (kv : string * json) : string := json_str (ensure_ascii cfg) kv.1 +:+ key_sep cfg +:+ print cfg kv.2.

Lemma member_quote kv : member kv = String dquote_char (escape_str (ensure_ascii cfg) kv.1 +:+ String dquote_char (key_sep cfg +:+ print cfg kv.2)).
Proof. unfold member, json_str. cbn [String.append]. by rewrite app_str_assoc. Qed.

(** One key and its value, whatever follows. *)
Lemma read_member kv f r items :
  read_back kv.2 -> floats_ok kv.2 = true -> keys_distinct kv.2 = true -> ends r ->
  (2 * String.length (print cfg kv.2) <= f)%nat ->
  parse_members (S f) (escape_str (ensure_ascii cfg) kv.1 +:+ String dquote_char (key_sep cfg +:+ print cfg kv.2 +:+ r)) items =
  match word "}" (skip_ws r) with
  | Some r' => Some (set_item items kv.1 kv.2, r')
  | None =>
      r3 ← word "," (skip_ws r);
      r4 ← word (String dquote_char EmptyString) (skip_ws r3);
      parse_members f r4 (set_item items kv.1 kv.2)
  end.
Proof.
  intros Hv Hf Hk Hr Hfuel. cbn [parse_members]. rewrite scan_string_escape. cbn [mbind option_bind].
  rewrite Hkey. cbn [String.append skip_ws]. change (is_ws ":") with false. cbv iota. cbn [word].
  change (Ascii.eqb ":" ":") with true. cbv iota. cbn [mbind option_bind]. rewrite skip_ws_app by done.
  destruct (print_start _ Hf) as (c & s & Hc & Hs). pose proof (Hv Hf Hk f r Hfuel Hr) as Hp.
  rewrite Hc in Hp |- *. cbn [String.append] in Hp |- *. rewrite (proj1 (start_stays _ _ Hs)), Hp. done.
Qed.

Lemma read_members l acc fuel t r :
  Forall (fun kv => read_back kv.2) l -> forallb (fun kv => floats_ok kv.2) l = true ->
  forallb (fun kv => keys_distinct kv.2) l = true -> NoDup (map fst (acc ++ l)) -> l <> [] ->
  str_join (item_sep cfg) (map member l) = String dquote_char t -> (2 * String.length t < fuel)%nat ->
  parse_members fuel (t +:+ String "}" r) acc = Some (acc ++ l, r).
Proof.
  intros HF. revert acc fuel t. induction HF as [|kv l Hv HF IH]; intros acc fuel t Hfl Hk Hnd Hne Ht Hfuel; [done|].
  cbn [forallb] in Hfl, Hk. apply andb_true_iff in Hfl as [Hf1 Hf2], Hk as [Hk1 Hk2].
  assert (set_item acc kv.1 kv.2 = acc ++ [kv]) as Hset.
  { rewrite map_app, NoDup_app in Hnd. destruct Hnd as (_ & Hnd & _). destruct kv. apply set_item_new.
    intros Hin. apply (Hnd _ Hin). by left. }
  destruct fuel as [|fuel]; [lia|]. destruct l as [|kv' l].
  - cbn [map str_join] in Ht. rewrite member_quote in Ht. injection Ht as <-.
    rewrite !length_app_str in Hfuel. cbn [String.length] in Hfuel. rewrite length_app_str in Hfuel.
    rewrite !app_str_assoc. cbn [String.append]. rewrite !app_str_assoc. rewrite read_member by (done || lia).
    cbn. by rewrite Hset.
  - assert (exists t', str_join (item_sep cfg) (map member (kv' :: l)) = String dquote_char t') as [t' Ht'].
    { cbn [map]. destruct l; cbn [map str_join]; rewrite member_quote; by eexists. }
    cbn [map] in Ht, Ht'. rewrite join_cons in Ht by done. rewrite Ht', member_quote in Ht. injection Ht as <-.
    rewrite !length_app_str in Hfuel. cbn [String.length] in Hfuel.
    rewrite !length_app_str, Hitem in Hfuel. cbn [String.length] in Hfuel.
    rewrite !app_str_assoc. cbn [String.append]. rewrite !app_str_assoc. rewrite read_member; [|done..| |lia].
    + rewrite Hitem. cbn [String.append skip_ws]. change (is_ws ",") with false. cbv iota. cbn [word].
      change (Ascii.eqb "}" ",") with false. change (Ascii.eqb "," ",") with true. cbv iota. cbn [mbind option_bind].
      rewrite skip_ws_app by done. cbn [String.append skip_ws]. change (is_ws dquote_char) with false. cbv iota. cbn [word].
      change (Ascii.eqb dquote_char dquote_char) with true. cbv iota. cbn [mbind option_bind]. rewrite Hset.
      rewrite (IH (acc ++ [kv]) fuel t'); try done; [by rewrite <-app_assoc| |lia]. by rewrite <-app_assoc.
    + by rewrite Hitem.
Qed.

(** Every value is read back from the front of a text. *)
Lemma read_value v : read_back v.
Proof.
  induction v as [|b|z|x|s|l IH|l IH] using json_ind'; intros Hf Hk fuel r Hfuel Hr;
    (destruct fuel as [|fuel]; [exfalso; destruct (print_start _ Hf) as (c & s' & Hc & _); rewrite Hc in Hfuel; cbn in Hfuel; lia|]).
  - done.
  - by destruct b.
  - cbn [print]. destruct (str_of_int_cons z) as (c & s & Hc & Hn). pose proof (scan_int z r Hr) as Hs.
    rewrite Hc in Hs |- *. by apply number_dispatch.
  - cbn [print floats_ok] in *. apply andb_true_iff in Hf as [Hf1 Hf2]. pose proof (scan_float x r Hf1 Hf2 Hr) as Hs.
    destruct (float_repr_cons x Hf1 Hf2) as (c & s & Hc & Hn). rewrite Hc in Hs |- *. by apply number_dispatch.
  - cbn [print]. unfold json_str. cbn [String.append parse_value]. change (Ascii.eqb dquote_char dquote_char) with true.
    cbv iota. rewrite app_str_assoc. cbn [String.append]. by rewrite scan_string_escape.
  - cbn [print floats_ok keys_distinct] in *. cbn [String.append] in *. rewrite app_str_assoc.
    cbn [parse_value]. change (Ascii.eqb "[" dquote_char) with false. change (Ascii.eqb "[" "[") with true. cbv iota.
    cbn [String.length] in Hfuel. rewrite length_app_str in Hfuel. cbn [String.length] in Hfuel.
    destruct l as [|v l]; [done|]. pose proof (read_elements (v :: l) fuel r IH Hf Hk ltac:(done) ltac:(lia)) as He.
    cbn [forallb] in Hf. apply andb_true_iff in Hf as [Hf _]. destruct (print_start v Hf) as (c & s & Hc & Hs).
    assert (exists t, str_join (item_sep cfg) (map (print cfg) (v :: l)) +:+ String "]" r = String c t) as [t Ht].
    { cbn [map]. destruct l; cbn [map str_join]; rewrite Hc; by eexists. }
    cbn [String.append]. rewrite Ht in He |- *. destruct (start_stays c t Hs) as (-> & -> & _). by rewrite He.
  - cbn [print floats_ok keys_distinct] in *. apply andb_true_iff in Hk as [Hnd%bool_decide_eq_true Hk].
    fold member in *. cbn [String.append] in *. rewrite app_str_assoc.
    cbn [parse_value]. change (Ascii.eqb "{" dquote_char) with false. change (Ascii.eqb "{" "[") with false.
    change (Ascii.eqb "{" "{") with true. cbv iota.
    cbn [String.length] in Hfuel. rewrite length_app_str in Hfuel. cbn [String.length] in Hfuel.
    destruct l as [|kv l]; [done|].
    assert (exists t', str_join (item_sep cfg) (map member (kv :: l)) = String dquote_char t') as [t' Ht'].
    { cbn [map]. destruct l; cbn [map str_join]; rewrite member_quote; by eexists. }
    change (map (fun kv => json_str (ensure_ascii cfg) kv.1 +:+ key_sep cfg +:+ print cfg kv.2) (kv :: l)) with (map member (kv :: l)) in *.
    rewrite Ht' in Hfuel |- *. cbn [String.append skip_ws String.length] in *. change (is_ws dquote_char) with false. cbv iota. cbn [word].
    change (Ascii.eqb "}" dquote_char) with false. change (Ascii.eqb dquote_char dquote_char) with true. cbv iota. cbn [mbind option_bind].
    rewrite (read_members (kv :: l) [] fuel t' r); try done; lia.
Qed.
End read_back.

Lemma loads_print cfg wi wk v :
  item_sep cfg = String "," wi -> key_sep cfg = String ":" wk ->
  str_forallb is_ws wi = true -> str_forallb is_ws wk = true ->
  floats_ok v = true -> keys_distinct v = true -> loads (print cfg v) = Some v.
Proof.
  intros Hi Hk Hwi Hwk Hf Hd. unfold loads.
  pose proof (read_value cfg wi wk Hi Hk Hwi Hwk v Hf Hd (2 * String.length (print cfg v)) "" (le_n _) I) as H.
  rewrite app_str_nil_r in H. destruct (print_start cfg v Hf) as (c & s & Hc & Hs). rewrite Hc in H |- *.
  rewrite (proj1 (start_stays c s Hs)), H. done.
Qed.
