(* ===== verification/Sha256.v ===== *)
(** * SHA-256 and HMAC-SHA-256

    The two digest functions of Python's [hashlib] and [hmac] that the code
    calls: [hashlib.sha256(b).digest()] and
    [hmac.new(key, b, hashlib.sha256).digest()], on byte lists, with 32-bit
    words as [Z] and the wrap-around written out (FIPS 180-4, RFC 2104).

    The proofs of the other files use nothing of them but that a digest has 32
    bytes: what depends on collision resistance is stated as "or two different
    strings among those hashed here have the same digest" ([collide]). *)

From stdpp Require Import base tactics list strings.
From Stdlib Require Import ZArith NArith Lia Init.Byte.
From S2P Require Import Prelude PyFloat PyStr.

Open Scope Z_scope.

Definition wrap32 (z : Z) : Z := Z.land z 4294967295.
Definition add32 (a b : Z) : Z := wrap32 (a + b).
Definition rotr (n x : Z) : Z :=
  Z.lor (Z.shiftr x n) (wrap32 (Z.shiftl x (32 - n))).
Definition not32 (x : Z) : Z := Z.lxor x 4294967295.

Definition ch (x y z : Z) : Z := Z.lxor (Z.land x y) (Z.land (not32 x) z).
Definition maj (x y z : Z) : Z := Z.lxor (Z.lxor (Z.land x y) (Z.land x z)) (Z.land y z).
Definition bsig0 (x : Z) : Z := Z.lxor (Z.lxor (rotr 2 x) (rotr 13 x)) (rotr 22 x).
Definition bsig1 (x : Z) : Z := Z.lxor (Z.lxor (rotr 6 x) (rotr 11 x)) (rotr 25 x).
Definition ssig0 (x : Z) : Z := Z.lxor (Z.lxor (rotr 7 x) (rotr 18 x)) (Z.shiftr x 3).
Definition ssig1 (x : Z) : Z := Z.lxor (Z.lxor (rotr 17 x) (rotr 19 x)) (Z.shiftr x 10).

(** *** Constants

    The first 32 bits of the fractional parts of the cube roots of the first
    64 primes, and of the square roots of the first 8. *)
Definition is_prime (n : nat) : bool :=
  (1 <? n)%nat && forallb (fun d => negb (n mod d =? 0)%nat) (seq 2 (n - 2)).

Definition primes : list Z := map Z.of_nat (List.filter is_prime (seq 2 310)).

(** The integer part of the cube root of [n], one bit at a time. *)
Fixpoint cube_root (bits : nat) (root n : Z) : Z :=
  match bits with
  | O => root
  | S bits' =>
      let candidate := root + Z.shiftl 1 (Z.of_nat bits') in
      cube_root bits' (if candidate * candidate * candidate <=? n then candidate else root) n
  end.

Definition K256 : list Z :=
  Eval vm_compute in map (fun p => wrap32 (cube_root 36 0 (Z.shiftl p 96))) primes.

(** The working variables [a] to [h], and the chaining value. *)
Record hash_state := HState {
  hA : Z; hB : Z; hC : Z; hD : Z; hE : Z; hF : Z; hG : Z; hH : Z
}.

Definition square_root_bits (i : nat) : Z := wrap32 (Z.sqrt (Z.shiftl (nth i primes 0) 64)).

Definition H256 : hash_state :=
  Eval vm_compute in
  HState (square_root_bits 0) (square_root_bits 1) (square_root_bits 2) (square_root_bits 3)
         (square_root_bits 4) (square_root_bits 5) (square_root_bits 6) (square_root_bits 7).

(** Four bytes, most significant first. *)
Definition word_of (a b c d : byte) : Z :=
  Z.lor (Z.shiftl (byte_Z a) 24)
    (Z.lor (Z.shiftl (byte_Z b) 16) (Z.lor (Z.shiftl (byte_Z c) 8) (byte_Z d))).

Definition word_bytes (w : Z) : list byte :=
  [Z_byte (Z.shiftr w 24); Z_byte (Z.shiftr w 16); Z_byte (Z.shiftr w 8); Z_byte w].

Fixpoint words_of (l : list byte) : list Z :=
  match l with
  | a :: b :: c :: d :: l' => word_of a b c d :: words_of l'
  | _ => []
  end.

(** The message schedule, as the list of words already computed with the
    latest first. *)
Fixpoint schedule (n : nat) (rev_ws : list Z) : list Z :=
  match n with
  | O => reverse rev_ws
  | S n' =>
      let w i := nth i rev_ws 0 in
      schedule n' (add32 (add32 (ssig1 (w 1%nat)) (w 6%nat)) (add32 (ssig0 (w 14%nat)) (w 15%nat)) :: rev_ws)
  end.

Definition round (s : hash_state) (kw : Z * Z) : hash_state :=
  let t1 := add32 (add32 (hH s) (bsig1 (hE s)))
                  (add32 (ch (hE s) (hF s) (hG s)) (add32 kw.1 kw.2)) in
  let t2 := add32 (bsig0 (hA s)) (maj (hA s) (hB s) (hC s)) in
  HState (add32 t1 t2) (hA s) (hB s) (hC s) (add32 (hD s) t1) (hE s) (hF s) (hG s).

Definition compress (s : hash_state) (block : list byte) : hash_state :=
  let ws := schedule 48 (reverse (words_of block)) in
  let r := foldl round s (zip K256 ws) in
  HState (add32 (hA s) (hA r)) (add32 (hB s) (hB r)) (add32 (hC s) (hC r)) (add32 (hD s) (hD r))
         (add32 (hE s) (hE r)) (add32 (hF s) (hF r)) (add32 (hG s) (hG r)) (add32 (hH s) (hH r)).

(** The message with its padding and its length in bits. *)
Definition pad (msg : list byte) : list byte :=
  let n := Z.of_nat (length msg) in
  let zeros := Z.to_nat ((55 - n) mod 64) in
  let bits := 8 * n in
  msg ++ x80 :: repeat x00 zeros ++
    word_bytes (Z.land (Z.shiftr bits 32) 4294967295) ++ word_bytes (wrap32 bits).

Fixpoint blocks (fuel : nat) (s : hash_state) (l : list byte) : hash_state :=
  match fuel with
  | O => s
  | S fuel' =>
      match l with
      | [] => s
      | _ => blocks fuel' (compress s (take 64 l)) (drop 64 l)
      end
  end.

Definition state_bytes (s : hash_state) : list byte :=
  word_bytes (hA s) ++ word_bytes (hB s) ++ word_bytes (hC s) ++ word_bytes (hD s) ++
  word_bytes (hE s) ++ word_bytes (hF s) ++ word_bytes (hG s) ++ word_bytes (hH s).

(** [hashlib.sha256(msg).digest()].  One block is 64 bytes, so the number of
    bytes is more fuel than there are blocks. *)
Definition sha256 (msg : list byte) : list byte :=
  let padded := pad msg in state_bytes (blocks (length padded) H256 padded).

Definition xor_bytes (m : Z) (l : list byte) : list byte :=
  map (fun b => Z_byte (Z.lxor m (byte_Z b))) l.

(** [hmac.new(key, msg, hashlib.sha256).digest()]. *)
Definition hmac_sha256 (key msg : list byte) : list byte :=
  let k0 := if (64 <? length key)%nat then sha256 key else key in
  let k := (k0 ++ repeat x00 (64 - length k0))%list in
  sha256 (xor_bytes 92 k ++ sha256 (xor_bytes 54 k ++ msg)%list)%list.

Example sha256_empty :
  bytes_hex (sha256 []) = "e3b0c44298fc1c149afbf4c8996fb92427ae41e4649b934ca495991b7852b855".
Proof. vm_compute. reflexivity. Qed.

Example sha256_two_blocks :
  bytes_hex (sha256 (utf8 "abcdbcdecdefdefgefghfghighijhijkijkljklmklmnlmnomnopnopq")) =
  "248d6a61d20638b8e5c026930c3e6039a33ce45964ff2167f6ecedd419db06c1".
Proof. vm_compute. reflexivity. Qed.

Example hmac_sha256_vector :
  bytes_hex (hmac_sha256 (utf8 "Jefe") (utf8 "what do ya want for nothing?")) =
  "5bdcc146bf60754e6a042426089575c75a003f089d2739839dec58b964ec3843".
Proof. vm_compute. reflexivity. Qed.

Lemma sha256_length m : length (sha256 m) = 32%nat.
Proof. reflexivity. Qed.

Lemma hmac_sha256_length k m : length (hmac_sha256 k m) = 32%nat.
Proof. apply sha256_length. Qed.

#[global] Opaque sha256 hmac_sha256.

(** A collision at hand: two different byte strings, one among those of [P] and
    one among those of [Q], with the same digest.  That some collision exists
    is a matter of counting; that one exists among the strings two given
    computations hash is what collision resistance excludes. *)
Definition collide (P Q : list byte -> Prop) : Prop :=
  exists m1 m2, P m1 /\ Q m2 /\ m1 <> m2 /\ sha256 m1 = sha256 m2.

Lemma collide_mono (P P' Q Q' : list byte -> Prop) :
  (forall m, P m -> P' m) -> (forall m, Q m -> Q' m) -> collide P Q -> collide P' Q'.
Proof. intros HP HQ (m1 & m2 & ? & ? & ? & ?). exists m1, m2. auto. Qed.

Lemma sha256_eq (P Q : list byte -> Prop) m1 m2 :
  sha256 m1 = sha256 m2 -> P m1 -> Q m2 -> m1 = m2 \/ collide P Q.
Proof. intros H HP HQ. destruct (decide (m1 = m2)); [by left|]. right. by exists m1, m2. Qed.

(** ** Hex text of bytes *)

Lemma bytes_hex_length l : String.length (bytes_hex l) = (2 * length l)%nat.
Proof.
  induction l as [|b l IH]; [done|]. cbn [bytes_hex length].
  unfold hex2. simpl. rewrite IH. lia.
Qed.

Lemma hex2_inj b1 b2 r1 r2 :
  hex2 (Byte.to_N b1) +:+ r1 = hex2 (Byte.to_N b2) +:+ r2 -> b1 = b2 /\ r1 = r2.
Proof.
  set (unhex := fun s : string => match s with
    | String h (String l t) =>
       let d c := if (code c <? 58)%N then (code c - 48)%N else (code c - 87)%N in
       Some (Byte.of_N (16 * d h + d l)%N, t)
    | _ => None end).
  assert (Hu : forall b r, unhex (hex2 (Byte.to_N b) +:+ r) = Some (Some b, r))
    by (intros [] r; reflexivity).
  intros H. apply (f_equal unhex) in H. rewrite !Hu in H. naive_solver.
Qed.

Lemma bytes_hex_inj l1 l2 : bytes_hex l1 = bytes_hex l2 -> l1 = l2.
Proof.
  revert l2. induction l1 as [|b1 l1 IH]; intros [|b2 l2]; cbn [bytes_hex]; try done.
  intros [-> H]%hex2_inj. f_equal. auto.
Qed.

Lemma bytes_hex_chars l :
  str_forallb (fun c => in_range 48 57 c || in_range 97 102 c) (bytes_hex l) = true.
Proof.
  induction l as [|b l IH]; [done|]. cbn [bytes_hex]. destruct b; simpl; apply IH.
Qed.
