(* ===== verification/Merkle.v ===== *)
(** * RFC 6962 Merkle trees ([glassbox/domain/merkle.py])

    Root, inclusion proof and verification.  A proof built for a leaf
    verifies; the root determines the leaf sequence and a verified leaf is in
    the tree, unless two different byte strings hashed on the way have the same
    digest. *)

From stdpp Require Import base tactics list strings.
From Stdlib Require Import ZArith Lia Init.Byte.
From S2P Require Import Prelude PyFloat PyStr Serialization Sha256.

Open Scope list_scope.

Abbreviation bytes := (list byte).

Definition LEAF_PREFIX : bytes := [x00].
Definition NODE_PREFIX : bytes := [x01].
Definition EMPTY_ROOT : bytes := sha256 [].

Definition leaf_hash (leaf : bytes) : bytes := sha256 (LEAF_PREFIX ++ leaf).
Definition node_hash (left right : bytes) : bytes := sha256 (NODE_PREFIX ++ left ++ right).

(** [int.bit_length] of a non-negative integer. *)
Definition bit_length (n : Z) : Z := if (n =? 0)%Z then 0%Z else (Z.log2 n + 1)%Z.

Definition largest_power_of_two_below (count : Z) : Z :=
  Z.shiftl 1 (bit_length (count - 1) - 1).

Definition split_point (hashes : list bytes) : nat :=
  Z.to_nat (largest_power_of_two_below (Z.of_nat (length hashes))).

(** [_root_of_hashes], with the number of hashes as fuel ([root_eq] gives the
    equations of the source). *)
Fixpoint root_fuel (fuel : nat) (hashes : list bytes) : bytes :=
  match hashes with
  | [] => EMPTY_ROOT
  | [h] => h
  | _ =>
      match fuel with
      | O => EMPTY_ROOT
      | S fuel' =>
          let split := split_point hashes in
          node_hash (root_fuel fuel' (take split hashes)) (root_fuel fuel' (drop split hashes))
      end
  end.

Definition root_of_hashes (hashes : list bytes) : bytes := root_fuel (length hashes) hashes.

Definition merkle_root (leaves : list bytes) : bytes := root_of_hashes (map leaf_hash leaves).

Record MerkleProof := {
  mp_index : Z;
  mp_tree_size : Z;
  mp_path : list (bytes * bool)
}.

Definition mk_MerkleProof (index tree_size : Z) (path : list (bytes * bool)) : res MerkleProof :=
  _ ← raise_if (tree_size <? 1)%Z (DomainValidationError "tree_size");
  _ ← raise_if (negb ((0 <=? index)%Z && (index <? tree_size)%Z)) (DomainValidationError "index");
  _ ← res_mapi (fun position (entry : bytes * bool) =>
        raise_if (negb (length entry.1 =? 32)%nat)
          (DomainValidationError ("path[" +:+ str_of_int (Z.of_nat position) +:+ "]"))) 0 path;
  Ok {| mp_index := index; mp_tree_size := tree_size; mp_path := path |}.

Definition fold_sibling (computed : bytes) (entry : bytes * bool) : bytes :=
  if entry.2 then node_hash entry.1 computed else node_hash computed entry.1.

(** [MerkleProof.verify]. *)
Definition verify (p : MerkleProof) (leaf root : bytes) : bool :=
  bool_decide (foldl fold_sibling (leaf_hash leaf) (mp_path p) = root).

(** [MerkleProof.as_evidence]. *)
Definition proof_as_evidence (p : MerkleProof) : pyval :=
  pdict [("index", PInt (mp_index p)); ("tree_size", PInt (mp_tree_size p));
         ("path", PList (map (fun e => pdict [("sibling", PStr (bytes_hex e.1));
                                              ("sibling_on_left", PBool e.2)]) (mp_path p)))].

(** [descend]: the siblings from the root downwards. *)
Fixpoint descend (fuel : nat) (subtree : list bytes) (target : nat) : list (bytes * bool) :=
  if (length subtree <=? 1)%nat then [] else
  match fuel with
  | O => []
  | S fuel' =>
      let split := split_point subtree in
      if (target <? split)%nat
      then (root_of_hashes (drop split subtree), false) :: descend fuel' (take split subtree) target
      else (root_of_hashes (take split subtree), true)
           :: descend fuel' (drop split subtree) (target - split)
  end.

Definition build_inclusion_proof (leaves : list bytes) (index : Z) : res MerkleProof :=
  _ ← raise_if (bool_decide (leaves = [])) (DomainValidationError "leaves");
  _ ← raise_if (negb ((0 <=? index)%Z && (index <? Z.of_nat (length leaves))%Z))
        (DomainValidationError "index");
  let hashes := map leaf_hash leaves in
  let path := descend (length hashes) hashes (Z.to_nat index) in
  mk_MerkleProof index (Z.of_nat (length leaves)) (reverse path).

(** ** The split *)

Lemma split_point_bounds hs :
  (2 <= length hs)%nat -> (0 < split_point hs < length hs)%nat.
Proof.
  intros H. unfold split_point, largest_power_of_two_below, bit_length.
  destruct (Z.eqb_spec (Z.of_nat (length hs) - 1) 0); [lia|].
  rewrite Z.add_simpl_r, Z.shiftl_1_l.
  pose proof (Z.log2_spec (Z.of_nat (length hs) - 1) ltac:(lia)) as [Hle _].
  pose proof (Z.pow_pos_nonneg 2 (Z.log2 (Z.of_nat (length hs) - 1)) ltac:(lia) (Z.log2_nonneg _)).
  lia.
Qed.

(** The split is the largest power of two below the count, as RFC 6962 asks. *)
Lemma split_is_largest_power (n : Z) :
  (2 <= n)%Z ->
  exists k, (0 <= k)%Z /\ largest_power_of_two_below n = (2 ^ k)%Z /\ (2 ^ k < n <= 2 ^ (k + 1))%Z.
Proof.
  intros H. exists (Z.log2 (n - 1)). unfold largest_power_of_two_below, bit_length.
  destruct (Z.eqb_spec (n - 1) 0); [lia|]. rewrite Z.add_simpl_r, Z.shiftl_1_l.
  pose proof (Z.log2_spec (n - 1) ltac:(lia)) as [H1 H2]. rewrite <-Z.add_1_r in H2.
  split_and!; [apply Z.log2_nonneg | done | lia | lia].
Qed.

Lemma take_split_length hs :
  (2 <= length hs)%nat -> length (take (split_point hs) hs) = split_point hs.
Proof. intros H%split_point_bounds. rewrite length_take. lia. Qed.

Lemma root_fuel_enough fuel fuel' hs :
  (length hs <= fuel)%nat -> (length hs <= fuel')%nat -> root_fuel fuel hs = root_fuel fuel' hs.
Proof.
  revert fuel' hs. induction fuel as [|fuel IH]; intros fuel' hs H H'.
  { by destruct hs; [destruct fuel'|simpl in H; lia]. }
  destruct hs as [|h1 [|h2 hs]]; [by destruct fuel' | by destruct fuel' |].
  destruct fuel' as [|fuel']; [simpl in H'; lia|].
  pose proof (split_point_bounds (h1 :: h2 :: hs) ltac:(simpl; lia)) as Hs.
  cbn [root_fuel]. f_equal; apply IH; rewrite ?length_take, ?length_drop; lia.
Qed.

Lemma root_fuel_step fuel hs :
  (2 <= length hs)%nat ->
  root_fuel (S fuel) hs =
  node_hash (root_fuel fuel (take (split_point hs) hs)) (root_fuel fuel (drop (split_point hs) hs)).
Proof. by destruct hs as [|h1 [|h2 hs]]; simpl; try lia. Qed.

(** The recursion of the source. *)
Lemma root_eq hs :
  (2 <= length hs)%nat ->
  root_of_hashes hs =
  node_hash (root_of_hashes (take (split_point hs) hs)) (root_of_hashes (drop (split_point hs) hs)).
Proof.
  intros H. pose proof (split_point_bounds hs H) as Hs. unfold root_of_hashes.
  rewrite (root_fuel_enough (length hs) (S (length hs))) by lia.
  rewrite root_fuel_step by done.
  f_equal; apply root_fuel_enough; rewrite ?length_take, ?length_drop; lia.
Qed.

Lemma hashes_cases {A} (hs : list A) : hs = [] \/ (exists h, hs = [h]) \/ (2 <= length hs)%nat.
Proof. destruct hs as [|? [|? ?]]; simpl; eauto with lia. Qed.

(** Induction along the tree. *)
Lemma tree_ind (P : list bytes -> Prop) :
  P [] -> (forall h, P [h]) ->
  (forall hs, (2 <= length hs)%nat ->
     P (take (split_point hs) hs) -> P (drop (split_point hs) hs) -> P hs) ->
  forall hs, P hs.
Proof.
  intros H0 H1 H2 hs. remember (length hs) as n eqn:E. revert hs E.
  induction (lt_wf n) as [n _ IH]. intros hs ->.
  destruct hs as [|h1 [|h2 hs]]; [done | done |].
  pose proof (split_point_bounds (h1 :: h2 :: hs) ltac:(simpl; lia)) as Hs.
  apply H2; [simpl; lia | |]; eapply IH; try reflexivity; rewrite ?length_take, ?length_drop; lia.
Qed.

(** ** A proof that is built verifies *)

Lemma descend_small fuel hs i : (length hs <= 1)%nat -> descend fuel hs i = [].
Proof. intros H. destruct fuel; simpl; destruct (Nat.leb_spec (length hs) 1); done || lia. Qed.

Lemma descend_path_length fuel hs i :
  (length hs <= fuel)%nat -> Forall (fun h => length h = 32%nat) hs ->
  Forall (fun e : bytes * bool => length e.1 = 32%nat) (descend fuel hs i).
Proof.
  assert (Hroot : forall hs, Forall (fun h => length h = 32%nat) hs -> hs <> [] ->
            length (root_of_hashes hs) = 32%nat).
  { intros hs0 HF Hne. destruct hs0 as [|h1 [|h2 hs0]]; [done | by inversion HF |].
    rewrite root_eq by (simpl; lia). apply sha256_length. }
  revert hs i. induction fuel as [|fuel IH]; intros hs i Hlen HF; simpl;
    destruct (Nat.leb_spec (length hs) 1) as [|H]; try constructor.
  pose proof (split_point_bounds hs ltac:(lia)) as Hs.
  assert (Hne : forall l : list bytes, (0 < length l)%nat -> l <> []) by (by intros [|? ?] ?; simpl in *; [lia|]).
  destruct (i <? split_point hs)%nat; constructor; cbn [fst];
    try (apply Hroot; [auto using Forall_drop, Forall_take | apply Hne; rewrite ?length_take, ?length_drop; lia]);
    apply IH; auto using Forall_drop, Forall_take; rewrite ?length_take, ?length_drop; lia.
Qed.

(** Folding the siblings of [descend] over the target gives the root. *)
Lemma descend_folds hs : forall fuel i h,
  (length hs <= fuel)%nat -> hs !! i = Some h ->
  foldl fold_sibling h (reverse (descend fuel hs i)) = root_of_hashes hs.
Proof.
  induction hs as [|h0|hs H IHl IHr] using tree_ind; intros fuel i h Hf Hi.
  - done.
  - rewrite descend_small by (simpl; lia). by destruct i as [|i]; simpl in Hi; [injection Hi as ->|].
  - pose proof (split_point_bounds hs H) as Hs. rewrite root_eq by done.
    destruct fuel as [|fuel]; [lia|]. cbn [descend].
    destruct (Nat.leb_spec (length hs) 1) as [|_]; [lia|].
    destruct (Nat.ltb_spec i (split_point hs)) as [Hlt|Hge];
      rewrite reverse_cons, foldl_app; cbn [foldl]; unfold fold_sibling at 1; cbn [fst snd].
    + rewrite IHl; [done | rewrite length_take; lia | by rewrite lookup_take_lt].
    + rewrite IHr; [done | rewrite length_drop; lia |].
      rewrite lookup_drop, <-Hi. f_equal. lia.
Qed.

Lemma res_mapi_ok_weak {A B} (f : nat -> A -> res B) n l :
  (forall i x, x ∈ l -> is_ok (f i x) = true) -> is_ok (res_mapi f n l) = true.
Proof.
  revert n. induction l as [|x l IH]; intros n H; [done|]. simpl.
  pose proof (H n x ltac:(left)) as Hx. destruct (f n x); [|done]. simpl.
  specialize (IH (S n) ltac:(intros i y Hy; apply H; by right)).
  by destruct (res_mapi f (S n) l).
Qed.

Lemma mk_MerkleProof_path i n path p : mk_MerkleProof i n path = Ok p -> mp_path p = path.
Proof. unfold mk_MerkleProof. intros H. inv_ok. by subst. Qed.

Lemma build_inclusion_proof_ok leaves i leaf :
  leaves !! i = Some leaf ->
  exists p, build_inclusion_proof leaves (Z.of_nat i) = Ok p /\
    mp_index p = Z.of_nat i /\ mp_tree_size p = Z.of_nat (length leaves) /\
    verify p leaf (merkle_root leaves) = true.
Proof.
  intros Hi. pose proof (lookup_lt_Some _ _ _ Hi) as Hlt. unfold build_inclusion_proof.
  rewrite bool_decide_eq_false_2 by (by intros ->). cbn [raise_if mbind res_bind].
  assert ((0 <=? Z.of_nat i)%Z && (Z.of_nat i <? Z.of_nat (length leaves))%Z = true) as Hr.
  { apply andb_true_iff. split; [apply Z.leb_le | apply Z.ltb_lt]; lia. }
  rewrite Hr. cbn [negb raise_if mbind res_bind]. unfold mk_MerkleProof.
  destruct (Z.ltb_spec (Z.of_nat (length leaves)) 1); [lia|]. rewrite Hr. cbn [negb raise_if mbind res_bind].
  set (path := reverse _).
  match goal with |- context [res_mapi ?f 0 path] =>
    assert (is_ok (res_mapi f 0 path) = true) as Hok end.
  { apply res_mapi_ok_weak. intros j x Hx. unfold path in Hx. rewrite elem_of_reverse in Hx.
    assert (Forall (fun e : bytes * bool => length e.1 = 32%nat)
             (descend (length (map leaf_hash leaves)) (map leaf_hash leaves) (Z.to_nat (Z.of_nat i)))) as HF.
    { apply descend_path_length; [done|]. apply Forall_fmap, Forall_true. intros y. apply sha256_length. }
    rewrite Forall_forall in HF. by rewrite (HF x Hx). }
  destruct (res_mapi _ 0 path) eqn:E; [|done]. simpl.
  eexists. split_and!; try reflexivity. unfold verify. cbn [mp_path].
  apply bool_decide_eq_true. unfold path, merkle_root.
  apply descend_folds; [done|]. by rewrite Nat2Z.id, list_lookup_fmap, Hi.
Qed.

(** Inclusion proofs are complete: [build_inclusion_proof] succeeds for
    every leaf of the sequence and the proof verifies that leaf against
    [merkle_root] of the same sequence. *)
Theorem inclusion_proof_verifies leaves i leaf :
  leaves !! i = Some leaf ->
  exists p, build_inclusion_proof leaves (Z.of_nat i) = Ok p /\
    mp_index p = Z.of_nat i /\ mp_tree_size p = Z.of_nat (length leaves) /\
    verify p leaf (merkle_root leaves) = true.
Proof. apply build_inclusion_proof_ok. Qed.

(** ** What a digest determines *)

(** Every root of leaf hashes is a digest. *)
Lemma root_length leaves : length (root_of_hashes (map leaf_hash leaves)) = 32%nat.
Proof.
  destruct (hashes_cases (map leaf_hash leaves)) as [->|[[h Hh]|H]].
  - apply sha256_length.
  - by destruct leaves as [|l [|? ?]].
  - rewrite root_eq by done. apply sha256_length.
Qed.

(** The subtrees of a tree of leaf hashes are trees of leaf hashes. *)
Lemma split_leaves leaves (n := split_point (map leaf_hash leaves)) :
  take n (map leaf_hash leaves) = map leaf_hash (take n leaves) /\
  drop n (map leaf_hash leaves) = map leaf_hash (drop n leaves).
Proof. split; [apply firstn_map | apply skipn_map]. Qed.

Lemma root_leaves_eq leaves (n := split_point (map leaf_hash leaves)) :
  (2 <= length leaves)%nat ->
  merkle_root leaves = node_hash (merkle_root (take n leaves)) (merkle_root (drop n leaves)).
Proof.
  intros H. unfold merkle_root. rewrite root_eq by (by rewrite length_map).
  by destruct (split_leaves leaves) as [-> ->].
Qed.

Lemma merkle_root_nil : merkle_root [] = EMPTY_ROOT.
Proof. done. Qed.

Lemma merkle_root_one l : merkle_root [l] = leaf_hash l.
Proof. done. Qed.

(** The byte string whose digest is the root, and all the byte strings that
    are hashed on the way to it. *)
Definition root_input (ls : list bytes) : bytes :=
  match ls with
  | [] => []
  | [l] => LEAF_PREFIX ++ l
  | _ => let n := split_point (map leaf_hash ls) in NODE_PREFIX ++ merkle_root (take n ls) ++ merkle_root (drop n ls)
  end.

Inductive hashed : list bytes -> bytes -> Prop :=
  | hashed_root ls : hashed ls (root_input ls)
  | hashed_left ls m : (2 <= length ls)%nat -> hashed (take (split_point (map leaf_hash ls)) ls) m -> hashed ls m
  | hashed_right ls m : (2 <= length ls)%nat -> hashed (drop (split_point (map leaf_hash ls)) ls) m -> hashed ls m.

Create HintDb merkle.
#[local] Hint Constructors hashed : merkle.

Lemma root_input_node ls (n := split_point (map leaf_hash ls)) :
  (2 <= length ls)%nat -> root_input ls = NODE_PREFIX ++ merkle_root (take n ls) ++ merkle_root (drop n ls).
Proof. by destruct ls as [|? [|? ?]]; cbn; try lia. Qed.

Lemma merkle_root_input ls : merkle_root ls = sha256 (root_input ls).
Proof.
  destruct (hashes_cases ls) as [->|[[l ->]|H]]; [done | done |].
  by rewrite root_leaves_eq, root_input_node.
Qed.

(** Induction along the tree, on the leaves. *)
Lemma leaves_ind (P : list bytes -> Prop) :
  P [] -> (forall l, P [l]) ->
  (forall ls (n := split_point (map leaf_hash ls)), (2 <= length ls)%nat ->
     P (take n ls) -> P (drop n ls) -> P ls) ->
  forall ls, P ls.
Proof.
  intros H0 H1 H2 ls. remember (map leaf_hash ls) as hs eqn:E. revert ls E.
  induction hs as [|h|hs H IHl IHr] using tree_ind; intros ls E.
  - by destruct ls.
  - by destruct ls as [|? [|? ?]].
  - subst hs. rewrite length_map in H. destruct (split_leaves ls) as [Ht Hd].
    apply H2; [done | by apply IHl | by apply IHr].
Qed.

(** The root commits to the leaf sequence: two sequences, of any
    lengths, with the same root are the same sequence, unless among the byte
    strings hashed for the one and those hashed for the other there are two
    different ones with the same digest. *)
Theorem merkle_root_injective ls1 ls2 :
  merkle_root ls1 = merkle_root ls2 -> ls1 = ls2 \/ collide (hashed ls1) (hashed ls2).
Proof.
  revert ls2. induction ls1 as [|l1|ls1 n1 H1 IHl IHr] using leaves_ind; intros ls2 Heq;
    rewrite !merkle_root_input in Heq;
    (eapply (sha256_eq (hashed _) (hashed _)) in Heq as [Heq|Hc]; [|right; exact Hc | apply hashed_root ..]);
    destruct (hashes_cases ls2) as [->|[[l2 ->]|H2]];
    rewrite ?(root_input_node _ H1), ?(root_input_node _ H2) in Heq; try discriminate Heq.
  - by left.
  - left. by injection Heq as ->.
  - injection Heq as Heq. apply app_inj_2 in Heq as [Hl Hr]; [|unfold merkle_root; by rewrite !root_length].
    apply IHl in Hl as [Hl|Hc]; [|right; eapply collide_mono, Hc; eauto with merkle].
    apply IHr in Hr as [Hr|Hc]; [|right; eapply collide_mono, Hc; eauto with merkle].
    left. rewrite <-(take_drop n1 ls1), Hl. unfold n1 in Hr |- *. rewrite Hr. apply take_drop.
Qed.

(** ** Soundness of verification *)

(** The position the directions of a path (from the root downwards) lead to. *)
Fixpoint path_position (path : list (bytes * bool)) (ls : list bytes) : option nat :=
  match path with
  | [] => match ls with [_] => Some 0%nat | _ => None end
  | (_, on_left) :: path' =>
      if (length ls <=? 1)%nat then None else
      let n := split_point (map leaf_hash ls) in
      if on_left then j ← path_position path' (drop n ls); Some (n + j)%nat
      else path_position path' (take n ls)
  end.

(** The byte strings [verify] hashes along a path (from the root downwards). *)
Definition fold_input (leaf : bytes) (path : list (bytes * bool)) : bytes :=
  match path with
  | [] => LEAF_PREFIX ++ leaf
  | (s, on_left) :: path' =>
      let computed := foldl fold_sibling (leaf_hash leaf) (reverse path') in
      NODE_PREFIX ++ (if on_left then s ++ computed else computed ++ s)
  end.

Fixpoint path_hashed (leaf : bytes) (path : list (bytes * bool)) (m : bytes) : Prop :=
  m = fold_input leaf path \/ match path with [] => False | _ :: path' => path_hashed leaf path' m end.

Lemma fold_digest leaf path : foldl fold_sibling (leaf_hash leaf) (reverse path) = sha256 (fold_input leaf path).
Proof.
  destruct path as [|[s d] p]; [done|]. rewrite reverse_cons, foldl_app. cbn [foldl].
  unfold fold_sibling at 1. by destruct d.
Qed.

Lemma fold_sound path : forall leaf ls,
  foldl fold_sibling (leaf_hash leaf) (reverse path) = merkle_root ls ->
  (exists j, path_position path ls = Some j /\ ls !! j = Some leaf) \/ collide (path_hashed leaf path) (hashed ls).
Proof.
  induction path as [|[s on_left] path IH]; intros leaf ls Heq; rewrite fold_digest, merkle_root_input in Heq;
    (eapply (sha256_eq (path_hashed leaf _) (hashed _)) in Heq as [Heq|Hc]; [|right; exact Hc | by left | apply hashed_root]);
    destruct (hashes_cases ls) as [->|[[l ->]|H]]; rewrite ?(root_input_node _ H) in Heq; try discriminate Heq.
  - left. injection Heq as ->. by exists 0%nat.
  - cbn [fold_input] in Heq. injection Heq as Heq. cbn [path_position].
    destruct (Nat.leb_spec (length ls) 1) as [|_]; [lia|]. set (n := split_point _) in *.
    assert (Hlen : forall l, length (merkle_root l) = 32%nat) by (intros; apply root_length).
    assert (Hmono : forall l, (forall m, hashed l m -> hashed ls m) -> collide (path_hashed leaf path) (hashed l) ->
                    collide (path_hashed leaf ((s, on_left) :: path)) (hashed ls)).
    { intros l Hl. apply collide_mono; [|done]. intros m Hm. by right. }
    destruct on_left.
    + apply app_inj_2 in Heq as [_ Hr]; [|by rewrite fold_digest, sha256_length, Hlen].
      destruct (IH _ _ Hr) as [(j & -> & Hj)|Hc]; [|right; eapply Hmono, Hc; eauto with merkle].
      left. exists (n + j)%nat. by rewrite lookup_drop in Hj.
    + apply app_inj_1 in Heq as [Hl _]; [|by rewrite fold_digest, sha256_length, Hlen].
      destruct (IH _ _ Hl) as [(j & -> & Hj)|Hc]; [|right; eapply Hmono, Hc; eauto with merkle].
      left. exists j. split; [done|]. by apply lookup_take_Some in Hj as [? _].
Qed.

(** Verification is sound: a leaf that verifies against the root of a
    sequence is in that sequence, at the position the directions of the path
    lead to, unless the verification and the tree hash two different byte
    strings to the same digest. *)
Lemma verified_leaf_is_included p leaf ls :
  verify p leaf (merkle_root ls) = true ->
  (exists j, path_position (reverse (mp_path p)) ls = Some j /\ ls !! j = Some leaf)
  \/ collide (path_hashed leaf (reverse (mp_path p))) (hashed ls).
Proof.
  unfold verify. intros H%bool_decide_eq_true. apply fold_sound. by rewrite reverse_involutive.
Qed.

(** [verify] reads neither [index] nor [tree_size]: the position it vouches
    for is the one of the path's directions, whatever [index] says. *)
Lemma verify_ignores_index p i n leaf root :
  verify {| mp_index := i; mp_tree_size := n; mp_path := mp_path p |} leaf root = verify p leaf root.
Proof. done. Qed.

Definition two_leaves : list bytes := [utf8 "a"; utf8 "b"].

Lemma inclusion_proof_verifies_witness :
  two_leaves !! 1%nat = Some (utf8 "b") /\
  exists p, build_inclusion_proof two_leaves 1 = Ok p /\
    mp_index p = 1%Z /\ mp_tree_size p = 2%Z /\ verify p (utf8 "b") (merkle_root two_leaves) = true.
Proof. split; [reflexivity|]. apply (inclusion_proof_verifies two_leaves 1). reflexivity. Defined.

Lemma merkle_root_injective_witness : two_leaves = two_leaves \/ collide (hashed two_leaves) (hashed two_leaves).
Proof. apply merkle_root_injective. reflexivity. Defined.

(** The index of a proof is not what [verify] checks. *)
Example wrong_index_verifies :
  exists p, mk_MerkleProof 0 2 [(leaf_hash (utf8 "a"), true)] = Ok p /\
            verify p (utf8 "b") (merkle_root two_leaves) = true /\ two_leaves !! 0%nat = Some (utf8 "a").
Proof. eexists. split; [vm_compute; reflexivity|]. split; vm_compute; reflexivity. Qed.
