(* ===== verification/Fnmatch.v ===== *)
(** * [fnmatch.fnmatchcase]

    The shell-style patterns of Python's standard library, as
    [fnmatch.translate] reads them: [*], [?], [\[seq\]], [\[!seq\]] with ranges,
    and every other character for itself.  Mandates, policy rules and the
    policy conflict analysis match with it. *)

From stdpp Require Import base tactics list strings.
From Stdlib Require Import ZArith NArith Lia Ascii String.
From S2P Require Import Prelude PyFloat PyStr.

Open Scope char_scope.

(** One element of a bracket expression. *)
Inductive class_item :=
| CChar (c : ascii)
| CRange (lo hi : ascii).

Inductive glob_token :=
| GStar
| GAny
| GNever
| GLit (c : ascii)
| GClass (negated : bool) (items : list class_item).

Definition code_leb (a b : ascii) : bool := (code a <=? code b)%N.

Definition item_has (c : ascii) (i : class_item) : bool :=
  match i with
  | CChar d => Ascii.eqb c d
  | CRange lo hi => code_leb lo c && code_leb c hi
  end.

(** The text up to the bracket that closes a class, and what follows it. *)
Fixpoint to_bracket (s : string) : option (string * string) :=
  match s with
  | EmptyString => None
  | String c s' =>
      if Ascii.eqb c "]" then Some (EmptyString, s')
      else match to_bracket s' with
           | Some (a, b) => Some (String c a, b)
           | None => None
           end
  end.

(** A [\]] that comes first, or first after [!], belongs to the class. *)
Definition class_body (s : string) : option (string * string) :=
  let prefix p r := match to_bracket r with
                    | Some (a, b) => Some (p +:+ a, b)
                    | None => None
                    end in
  match s with
  | String "!" (String "]" r) => prefix "!]"%string r
  | String "!" r => prefix "!"%string r
  | String "]" r => prefix "]"%string r
  | _ => to_bracket s
  end.

(** The elements of a class body; a range whose ends are out of order is
    dropped, as [translate] does. *)
Fixpoint class_items (s : string) : list class_item :=
  match s with
  | EmptyString => []
  | String c s' =>
      match s' with
      | String "-" (String d r) =>
          if code_leb c d then CRange c d :: class_items r else class_items r
      | _ => CChar c :: class_items s'
      end
  end.

(** The token of a class body.  The test for a leading [!] comes after the
    empty ranges were dropped. *)
Definition class_token (body : string) : glob_token :=
  let items := match body with
               | String "!" r => CChar "!" :: class_items r
               | _ => class_items body
               end in
  match items with
  | [] => GNever
  | [CChar "!"] => GAny
  | CChar "!" :: r => GClass true r
  | CRange "!" hi :: r => GClass true (CChar "-" :: CChar hi :: r)
  | _ => GClass false items
  end.

(** [fnmatch.translate]; the length of the pattern is enough fuel. *)
Fixpoint tokens (fuel : nat) (pat : string) : list glob_token :=
  match fuel with
  | O => []
  | S fuel' =>
      match pat with
      | EmptyString => []
      | String "*" r => GStar :: tokens fuel' r
      | String "?" r => GAny :: tokens fuel' r
      | String "[" r =>
          match class_body r with
          | Some (body, r') => class_token body :: tokens fuel' r'
          | None => GLit "[" :: tokens fuel' r
          end
      | String c r => GLit c :: tokens fuel' r
      end
  end.

Definition translate (pat : string) : list glob_token := tokens (String.length pat) pat.

(** One token other than [*] against one character. *)
Definition token_has (t : glob_token) (c : ascii) : bool :=
  match t with
  | GStar | GNever => false
  | GAny => true
  | GLit d => Ascii.eqb c d
  | GClass negated items => xorb negated (existsb (item_has c) items)
  end.

(** Try a suffix matcher on every suffix. *)
Fixpoint any_suffix (f : string -> bool) (s : string) : bool :=
  f s || match s with EmptyString => false | String _ s' => any_suffix f s' end.

Fixpoint glob (toks : list glob_token) : string -> bool :=
  match toks with
  | [] => str_is_empty
  | GStar :: r => any_suffix (glob r)
  | t :: r => fun s => match s with
                       | EmptyString => false
                       | String c s' => token_has t c && glob r s'
                       end
  end.

Definition fnmatchcase (name pat : string) : bool := glob (translate pat) name.

(** ** What a pattern matches *)

Inductive glob_spec : list glob_token -> string -> Prop :=
| glob_nil : glob_spec [] EmptyString
| glob_star r s1 s2 : glob_spec r s2 -> glob_spec (GStar :: r) (s1 +:+ s2)
| glob_one t r c s : t <> GStar -> token_has t c = true -> glob_spec r s ->
    glob_spec (t :: r) (String c s).

Lemma any_suffix_spec f s :
  any_suffix f s = true <-> exists s1 s2, s = s1 +:+ s2 /\ f s2 = true.
Proof.
  induction s as [|c s IH]; cbn [any_suffix]; rewrite orb_true_iff.
  - split.
    + intros [H|H]; [|done]. by exists ""%string, ""%string.
    + intros (s1 & s2 & Heq & H). destruct s1; simpl in Heq; [|done]. subst. by left.
  - rewrite IH. split.
    + intros [H|(s1 & s2 & -> & H)].
      * by exists ""%string, (String c s).
      * by exists (String c s1), s2.
    + intros (s1 & s2 & Heq & H). destruct s1 as [|c1 s1]; simpl in Heq.
      * subst. by left.
      * injection Heq as -> ->. right. eauto.
Qed.

Lemma glob_correct toks s : glob toks s = true <-> glob_spec toks s.
Proof.
  revert s. induction toks as [|t r IH]; intros s.
  - split; [destruct s; [constructor | done] | by inversion 1].
  - assert (Hone : t <> GStar ->
      (match s with EmptyString => false | String c s' => token_has t c && glob r s' end = true
       <-> glob_spec (t :: r) s)).
    { intros Ht. split.
      - destruct s as [|c s]; [done|]. intros [Hc Hs]%andb_true_iff. constructor; [done..|]. by apply IH.
      - inversion 1; subst; [done|]. apply andb_true_iff. split; [done|]. by apply IH. }
    destruct t; try (by apply Hone). clear Hone. cbn [glob]. rewrite any_suffix_spec. split.
    + intros (s1 & s2 & -> & H). constructor. by apply IH.
    + inversion 1; subst; [|done]. eexists _, _. split; [done|]. by apply IH.
Qed.

(** A pattern without special characters matches itself only. *)
Definition is_special (c : ascii) : bool :=
  Ascii.eqb c "*" || Ascii.eqb c "?" || Ascii.eqb c "[".

Lemma tokens_literal fuel s :
  (String.length s <= fuel)%nat -> str_forallb (fun c => negb (is_special c)) s = true ->
  tokens fuel s = map GLit (list_ascii_of_string s).
Proof.
  revert fuel. induction s as [|c s IH]; intros [|fuel] Hf Hs; simpl in *; try done; [lia|].
  apply andb_true_iff in Hs as [Hc Hs]. rewrite <-(IH fuel) by (done || lia).
  by destruct c as [[] [] [] [] [] [] [] []].
Qed.

Lemma glob_literals l s : glob (map GLit l) s = true <-> s = string_of_list_ascii l.
Proof.
  revert s. induction l as [|c l IH]; intros [|d s]; simpl; try done.
  rewrite andb_true_iff, IH, Ascii.eqb_eq. naive_solver.
Qed.

Lemma fnmatchcase_literal name pat :
  str_forallb (fun c => negb (is_special c)) pat = true ->
  (fnmatchcase name pat = true <-> name = pat).
Proof.
  intros H. unfold fnmatchcase, translate. rewrite tokens_literal by done.
  by rewrite glob_literals, string_of_list_ascii_of_string.
Qed.

Lemma fnmatchcase_star name : fnmatchcase name "*" = true.
Proof.
  unfold fnmatchcase. cbn. apply any_suffix_spec. exists name, ""%string.
  by rewrite app_str_nil_r.
Qed.

Example fnmatch_star : fnmatchcase "payments.wire" "payments.*" = true.
Proof. reflexivity. Qed.
Example fnmatch_class : map (fun p => fnmatchcase "b" p) ["[a-c]"; "[!a-c]"; "[]b]"; "[c-a]"; "[!c-a]"; "["]%string
  = [true; false; true; false; true; false].
Proof. reflexivity. Qed.
Example fnmatch_dropped_range : map (fun s => fnmatchcase s "[z-a!-x]") ["-"; "x"; "m"]%string
  = [false; false; true].
Proof. reflexivity. Qed.
