(* ===== verification/Action.v ===== *)
(** * Actions, resources, consequence and exposure ([glassbox/domain/action.py])

    [__post_init__] of a frozen dataclass is a smart constructor [mk_...]
    returning the validated record.  Its [isinstance] checks are the types of
    the arguments here. *)

From stdpp Require Import base tactics list strings gmap.
From Stdlib Require Import ZArith Lia.
From S2P Require Import Prelude PyFloat PyStr Serialization.

Open Scope string_scope.

Inductive ConsequenceClass := ADVISORY | REVERSIBLE | COMPENSABLE | IRREVERSIBLE.
#[export] Instance ConsequenceClass_eq_dec : EqDecision ConsequenceClass.
Proof. solve_decision. Defined.

Definition consequence_value (c : ConsequenceClass) : string :=
  match c with
  | ADVISORY => "advisory" | REVERSIBLE => "reversible"
  | COMPENSABLE => "compensable" | IRREVERSIBLE => "irreversible"
  end.

Definition consequence_severity (c : ConsequenceClass) : Z :=
  match c with ADVISORY => 0 | REVERSIBLE => 1 | COMPENSABLE => 2 | IRREVERSIBLE => 3 end%Z.

Definition requires_prior_evidence (c : ConsequenceClass) : bool :=
  match c with ADVISORY => false | _ => true end.

Definition may_degrade_on_dependency_failure (c : ConsequenceClass) : bool :=
  match c with ADVISORY => true | _ => false end.

Definition consequence_gtb (a b : ConsequenceClass) : bool :=
  (consequence_severity b <? consequence_severity a)%Z.

Inductive BlastRadius := BLAST_SINGLE | BLAST_GROUP | BLAST_TENANT | BLAST_GLOBAL.
#[export] Instance BlastRadius_eq_dec : EqDecision BlastRadius.
Proof. solve_decision. Defined.

Definition blast_value (b : BlastRadius) : string :=
  match b with
  | BLAST_SINGLE => "single" | BLAST_GROUP => "group"
  | BLAST_TENANT => "tenant" | BLAST_GLOBAL => "global"
  end.

Definition blast_severity (b : BlastRadius) : Z :=
  match b with BLAST_SINGLE => 0 | BLAST_GROUP => 1 | BLAST_TENANT => 2 | BLAST_GLOBAL => 3 end%Z.

Definition blast_gtb (a b : BlastRadius) : bool := (blast_severity b <? blast_severity a)%Z.

(** ** Resources *)

Record ResourceRef := {
  rr_kind : string;
  rr_id : string;
  rr_tenant_id : string
}.

Definition mk_ResourceRef (kind id tenant_id : string) : res ResourceRef :=
  kind ← require_identifier kind "kind";
  id ← require_identifier id "id";
  tenant_id ← require_identifier tenant_id "tenant_id";
  Ok {| rr_kind := kind; rr_id := id; rr_tenant_id := tenant_id |}.

Definition qualified_name (r : ResourceRef) : string :=
  rr_tenant_id r +:+ "/" +:+ rr_kind r +:+ "/" +:+ rr_id r.

Definition resource_as_evidence (r : ResourceRef) : list (string * pyval) :=
  [("resource_kind", PStr (rr_kind r)); ("resource_id", PStr (rr_id r));
   ("tenant_id", PStr (rr_tenant_id r))].

(** ** Exposure *)

Record Exposure := {
  ex_blast_radius : BlastRadius;
  ex_monetary : option float;
  ex_records : option Z
}.

Definition mk_Exposure (blast_radius : BlastRadius) (monetary : option float)
    (records : option Z) : res Exposure :=
  monetary ← res_opt (fun m => require_non_negative m "monetary") monetary;
  records ← res_opt (fun r => if (r <? 0)%Z then Raise (DomainValidationError "records") else Ok r)
              records;
  Ok {| ex_blast_radius := blast_radius; ex_monetary := monetary; ex_records := records |}.

Definition is_quantified (e : Exposure) : bool :=
  match ex_monetary e, ex_records e with None, None => false | _, _ => true end.

Definition exceeds (e ceiling : Exposure) : bool :=
  if blast_gtb (ex_blast_radius e) (ex_blast_radius ceiling) then true
  else if match ex_monetary ceiling with
          | None => false
          | Some c => match ex_monetary e with None => true | Some m => fgt m c end
          end then true
  else match ex_records ceiling with
       | None => false
       | Some c => match ex_records e with None => true | Some r => (c <? r)%Z end
       end.

Definition p_opt {A} (f : A -> pyval) (o : option A) : pyval :=
  match o with None => PNone | Some x => f x end.

Definition exposure_as_evidence (e : Exposure) : list (string * pyval) :=
  [("blast_radius", PStr (blast_value (ex_blast_radius e)));
   ("monetary", p_opt PFloat (ex_monetary e)); ("records", p_opt PInt (ex_records e))].

(** ** The proposed action *)

Record ProposedAction := {
  pa_action : string;
  pa_resource : ResourceRef;
  pa_consequence : ConsequenceClass;
  pa_exposure : Exposure;
  pa_idempotency_key : string;
  pa_parameters : list (string * pyval)
}.

(** [parameters] is a mapping, which is frozen, or a tuple, which is kept. *)
Inductive pairs_arg :=
| AsMapping (d : list (string * pyval))
| AsTuple (l : list (string * pyval)).

Definition freeze_pairs (p : pairs_arg) (field : string) : res (list (string * pyval)) :=
  match p with
  | AsMapping d => freeze_mapping (pdict d) field
  | AsTuple l => Ok l
  end.

Definition mk_ProposedAction (action : string) (resource : ResourceRef)
    (consequence : ConsequenceClass) (exposure : Exposure) (idempotency_key : string)
    (parameters : pairs_arg) : res ProposedAction :=
  action ← require_identifier action "action";
  idempotency_key ← require_identifier idempotency_key "idempotency_key";
  parameters ← freeze_pairs parameters "parameters";
  Ok {| pa_action := action; pa_resource := resource; pa_consequence := consequence;
        pa_exposure := exposure; pa_idempotency_key := idempotency_key;
        pa_parameters := parameters |}.

Definition pa_tenant_id (a : ProposedAction) : string := rr_tenant_id (pa_resource a).
Definition pa_requires_prior_evidence (a : ProposedAction) : bool :=
  requires_prior_evidence (pa_consequence a).

(** [parameter]: the first pair with the name. *)
Fixpoint lookup_pair (name : string) (l : list (string * pyval)) (default : pyval) : pyval :=
  match l with
  | [] => default
  | (k, v) :: l' => if (k =? name)%string then v else lookup_pair name l' default
  end.

Definition parameter (a : ProposedAction) (name : string) (default : pyval) : pyval :=
  lookup_pair name (pa_parameters a) default.

Definition REDACTED_PARAMETER_PLACEHOLDER : string := "<redacted>".

(** [v == s] for a Python value and a string. *)
Definition eq_str (v : pyval) (s : string) : bool :=
  match v with PStr s' => (s' =? s)%string | _ => false end.

Definition redact (sensitive : gset string) (kv : string * pyval) : string * pyval :=
  (kv.1, if bool_decide (kv.1 ∈ sensitive) then PStr REDACTED_PARAMETER_PLACEHOLDER else kv.2).

Definition with_redacted_parameters (a : ProposedAction) (sensitive_fields : gset string)
    : res ProposedAction :=
  if bool_decide (sensitive_fields = ∅) then Ok a else
  let redacted_parameters := map (redact sensitive_fields) (pa_parameters a) in
  (* [redacted_parameters == self.parameters] *)
  if forallb (fun kv => negb (bool_decide (kv.1 ∈ sensitive_fields)) ||
                        eq_str kv.2 REDACTED_PARAMETER_PLACEHOLDER) (pa_parameters a)
  then Ok a
  else mk_ProposedAction (pa_action a) (pa_resource a) (pa_consequence a) (pa_exposure a)
         (pa_idempotency_key a) (AsTuple redacted_parameters).

Definition action_as_evidence (a : ProposedAction) : list (string * pyval) :=
  [("action", PStr (pa_action a))] ++ resource_as_evidence (pa_resource a) ++
  [("consequence_class", PStr (consequence_value (pa_consequence a)));
   ("exposure", pdict (exposure_as_evidence (pa_exposure a)));
   ("idempotency_key", PStr (pa_idempotency_key a));
   ("parameters", pairs_dict (pa_parameters a))].

(** ** Well-formedness *)

Definition valid_id (s : string) : Prop :=
  identifier_match s = true /\ (String.length s <= MAX_IDENTIFIER_LENGTH)%nat.

Lemma require_identifier_valid v f r : require_identifier v f = Ok r <-> r = v /\ valid_id v.
Proof. rewrite require_identifier_ok. unfold valid_id. done. Qed.

Definition exposure_wf (e : Exposure) : Prop :=
  (forall m, ex_monetary e = Some m -> isfinite m = true /\ fle (fz 0) m = true) /\
  (forall r, ex_records e = Some r -> (0 <= r)%Z).

Lemma mk_Exposure_ok b m r e :
  mk_Exposure b m r = Ok e ->
  e = {| ex_blast_radius := b; ex_monetary := m; ex_records := r |} /\ exposure_wf e.
Proof.
  unfold mk_Exposure, exposure_wf. intros H.
  apply bind_ok in H as (m' & Hm & H). apply bind_ok in H as (r' & Hr & [= <-]).
  assert (m' = m /\ forall x, m = Some x -> isfinite x = true /\ fle (fz 0) x = true) as [-> Hm'].
  { apply res_opt_ok in Hm as [[-> ->]|(x & y & -> & Hy & ->)]; [done|].
    apply require_non_negative_ok in Hy. naive_solver. }
  assert (r' = r /\ forall x, r = Some x -> (0 <= x)%Z) as [-> Hr'].
  { apply res_opt_ok in Hr as [[-> ->]|(x & y & -> & Hy & ->)]; [done|].
    destruct (Z.ltb_spec x 0); naive_solver. }
  done.
Qed.

(** ** Comparing exposures *)

Definition within (e ceiling : Exposure) : Prop := exceeds e ceiling = false.

Lemma within_spec e c :
  within e c <->
  (blast_severity (ex_blast_radius e) <= blast_severity (ex_blast_radius c))%Z /\
  (forall cm, ex_monetary c = Some cm -> exists m, ex_monetary e = Some m /\ fgt m cm = false) /\
  (forall cr, ex_records c = Some cr -> exists r, ex_records e = Some r /\ (r <= cr)%Z).
Proof.
  unfold within, exceeds, blast_gtb.
  destruct (Z.ltb_spec (blast_severity (ex_blast_radius c)) (blast_severity (ex_blast_radius e)));
    [split; [done | lia]|].
  destruct (ex_monetary c) as [cm|], (ex_monetary e) as [m|]; try naive_solver;
    try (destruct (fgt m cm) eqn:E); try naive_solver;
    destruct (ex_records c) as [cr|], (ex_records e) as [r|]; try naive_solver;
    destruct (Z.ltb_spec cr r); naive_solver lia.
Qed.

(** Staying within ceilings composes: what is within a ceiling that is
    itself within a second one is within the second, so a chain of narrowing
    grants never widens what may be at stake. *)
Theorem within_trans e c1 c2 :
  exposure_wf e -> exposure_wf c1 -> exposure_wf c2 ->
  within e c1 -> within c1 c2 -> within e c2.
Proof.
  intros [He _] [H1 _] [H2 _]. rewrite !within_spec. intros (Hb & Hm & Hr) (Hb' & Hm' & Hr').
  split_and!; [lia | |].
  - intros cm Hcm. destruct (Hm' cm Hcm) as (m1 & Hm1 & Hg1). destruct (Hm m1 Hm1) as (m & Hm0 & Hg).
    exists m. split; [done|].
    destruct (He m Hm0), (H1 m1 Hm1), (H2 cm Hcm).
    rewrite fgt_false in Hg, Hg1 |- * by done. by eapply fle_trans.
  - intros cr Hcr. destruct (Hr' cr Hcr) as (r1 & Hr1 & ?). destruct (Hr r1 Hr1) as (r & ? & ?).
    exists r. split; [done | lia].
Qed.

Definition sample_exposure (m : Z) : Exposure :=
  {| ex_blast_radius := BLAST_SINGLE; ex_monetary := Some (fz m); ex_records := None |}.

Lemma sample_exposure_wf m : isfinite (fz m) = true -> fle (fz 0) (fz m) = true -> exposure_wf (sample_exposure m).
Proof. intros. split; simpl; naive_solver. Qed.

Lemma within_trans_witness : within (sample_exposure 5) (sample_exposure 20).
Proof.
  apply (within_trans (sample_exposure 5) (sample_exposure 10) (sample_exposure 20));
    try (apply sample_exposure_wf; vm_compute; reflexivity); vm_compute; reflexivity.
Defined.

(** ** Redaction *)

Lemma redact_idem F l :
  forallb (fun kv => negb (bool_decide (kv.1 ∈ F)) || eq_str kv.2 REDACTED_PARAMETER_PLACEHOLDER) l
    = true ->
  map (redact F) l = l.
Proof.
  induction l as [|[k v] l IH]; [done|]. cbn [forallb map]. intros [Hv Hl]%andb_true_iff.
  rewrite IH by done. f_equal. unfold redact. cbn [fst snd] in *. f_equal.
  destruct (bool_decide (k ∈ F)); [|done]. simpl in Hv. destruct v; try done.
  simpl in Hv. by apply String.eqb_eq in Hv as ->.
Qed.

Definition action_wf (a : ProposedAction) : Prop :=
  valid_id (pa_action a) /\ valid_id (pa_idempotency_key a).

Lemma mk_ProposedAction_ok act r c e k ps a :
  mk_ProposedAction act r c e k ps = Ok a ->
  action_wf a /\ pa_action a = act /\ pa_resource a = r /\ pa_consequence a = c /\
  pa_exposure a = e /\ pa_idempotency_key a = k.
Proof.
  unfold mk_ProposedAction. intros H. inv_ok.
  repeat match goal with H : require_identifier _ _ = Ok _ |- _ =>
    apply require_identifier_valid in H as [-> ?] end.
  subst. cbn. unfold action_wf. cbn. tauto.
Qed.

Lemma redact_empty l : map (redact ∅) l = l.
Proof.
  induction l as [|[k v] l IH]; [done|]. simpl. by rewrite IH.
Qed.

(** Redaction of a well-formed action never fails and replaces exactly the
    values of the sensitive parameters. *)
Lemma with_redacted_parameters_eq a F :
  action_wf a ->
  with_redacted_parameters a F =
  Ok {| pa_action := pa_action a; pa_resource := pa_resource a; pa_consequence := pa_consequence a;
        pa_exposure := pa_exposure a; pa_idempotency_key := pa_idempotency_key a;
        pa_parameters := map (redact F) (pa_parameters a) |}.
Proof.
  intros [Ha Hk]. unfold with_redacted_parameters. case_bool_decide as HF.
  { subst F. rewrite redact_empty. by destruct a. }
  destruct (forallb _ _) eqn:E; [rewrite redact_idem by done; by destruct a|].
  unfold mk_ProposedAction.
  rewrite (proj2 (require_identifier_valid _ "action" _) (conj eq_refl Ha)).
  cbn [mbind res_bind].
  rewrite (proj2 (require_identifier_valid _ "idempotency_key" _) (conj eq_refl Hk)). done.
Qed.

(** A sensitive parameter never reaches the evidence copy: two actions
    that differ only in the values of sensitive parameters have the same
    redacted copy, hence the same evidence, while every other parameter is
    kept as it is. *)
Theorem redaction_hides_sensitive a b F :
  action_wf a -> action_wf b ->
  pa_action a = pa_action b -> pa_resource a = pa_resource b ->
  pa_consequence a = pa_consequence b -> pa_exposure a = pa_exposure b ->
  pa_idempotency_key a = pa_idempotency_key b ->
  Forall2 (fun p q => p.1 = q.1 /\ (p.1 ∉ F -> p.2 = q.2)) (pa_parameters a) (pa_parameters b) ->
  exists r, with_redacted_parameters a F = Ok r /\ with_redacted_parameters b F = Ok r /\
    Forall2 (fun p q => p.1 = q.1 /\ (p.1 ∉ F -> p.2 = q.2) /\
                        (p.1 ∈ F -> q.2 = PStr REDACTED_PARAMETER_PLACEHOLDER))
      (pa_parameters a) (pa_parameters r).
Proof.
  intros Ha Hb H1 H2 H3 H4 H5 HF. rewrite !with_redacted_parameters_eq by done.
  assert (map (redact F) (pa_parameters a) = map (redact F) (pa_parameters b)) as Heq.
  { clear -HF. induction HF as [|[k v] [k' v'] l l' [Hk Hv] HF IH]; [done|]. simpl in *. subst k'.
    rewrite IH. f_equal. unfold redact. cbn [fst snd]. f_equal. case_bool_decide; auto. }
  eexists. split_and!; [reflexivity | by rewrite H1, H2, H3, H4, H5, Heq |]. cbn [pa_parameters].
  clear. induction (pa_parameters a) as [|[k v] l IH]; simpl; constructor; [|done].
  unfold redact. cbn [fst snd]. case_bool_decide; naive_solver.
Qed.

Definition sample_action (secret : string) : ProposedAction :=
  {| pa_action := "payments.wire"; pa_resource := {| rr_kind := "account"; rr_id := "a1"; rr_tenant_id := "t1" |};
     pa_consequence := IRREVERSIBLE; pa_exposure := sample_exposure 5; pa_idempotency_key := "k1";
     pa_parameters := [("amount", PInt 5); ("pin", PStr secret)] |}.

Lemma redaction_hides_sensitive_witness :
  exists r, with_redacted_parameters (sample_action "1234") {["pin"]} = Ok r /\
            with_redacted_parameters (sample_action "9999") {["pin"]} = Ok r /\
    Forall2 (fun p q => p.1 = q.1 /\ (p.1 ∉ ({["pin"]} : gset string) -> p.2 = q.2) /\
                        (p.1 ∈ ({["pin"]} : gset string) -> q.2 = PStr REDACTED_PARAMETER_PLACEHOLDER))
      (pa_parameters (sample_action "1234")) (pa_parameters r).
Proof.
  apply (redaction_hides_sensitive (sample_action "1234") (sample_action "9999") {["pin"]});
    try reflexivity; try (repeat split; vm_compute; (reflexivity || lia)).
  repeat constructor; cbn [fst snd]; set_solver.
Defined.
