(* ===== verification/Identity.v ===== *)
(** * Verified identity and delegation ([glassbox/domain/identity.py],
      [glassbox/domain/tenancy.py])

    A [frozenset] of capability names is a [gset string].  The main theorem is
    attenuation: the authority at the end of a chain is held by every hop. *)

From stdpp Require Import base tactics list strings gmap sorting.
From Stdlib Require Import ZArith Lia.
From S2P Require Import Prelude PyFloat PyStr Serialization Action.

Open Scope string_scope.

Inductive CredentialType := SPIFFE | OIDC | MTLS.
#[export] Instance CredentialType_eq_dec : EqDecision CredentialType.
Proof. solve_decision. Defined.

Definition credential_type_value (c : CredentialType) : string :=
  match c with SPIFFE => "spiffe" | OIDC => "oidc" | MTLS => "mtls" end.

Inductive SubjectType := HUMAN | AGENT | SERVICE.

Definition subject_type_value (s : SubjectType) : string :=
  match s with HUMAN => "human" | AGENT => "agent" | SERVICE => "service" end.

(** [sorted(s)] of a set of strings. *)
Definition sorted_set (s : gset string) : list string := sort_by id (elements s).

Definition p_strs (l : list string) : pyval := PList (map PStr l).

Record RawCredential := {
  rc_credential_type : CredentialType;
  rc_material : string;
  rc_presented_at : float
}.

Definition mk_RawCredential (credential_type : CredentialType) (material : string)
    (presented_at : float) : res RawCredential :=
  _ ← require_non_empty material "material";
  presented_at ← require_timestamp presented_at "presented_at";
  Ok {| rc_credential_type := credential_type; rc_material := material;
        rc_presented_at := presented_at |}.

(** [RawCredential.__repr__]. *)
Definition credential_repr (c : RawCredential) : string :=
  "RawCredential(credential_type=" +:+ str_repr (credential_type_value (rc_credential_type c)) +:+
  ", material='<redacted:" +:+ str_of_int (Z.of_nat (String.length (rc_material c))) +:+
  "chars>', presented_at=" +:+ float_repr (rc_presented_at c) +:+ ")".

(** ** Delegation hops *)

Record DelegationHop := {
  hop_subject : string;
  hop_subject_type : SubjectType;
  hop_capabilities : gset string;
  hop_issued_at : float;
  hop_expires_at : float
}.

Definition mk_DelegationHop (subject : string) (subject_type : SubjectType)
    (capabilities : gset string) (issued_at expires_at : float) : res DelegationHop :=
  subject ← require_identifier subject "subject";
  _ ← res_map (fun c => require_identifier c "capabilities") (elements capabilities);
  issued_at ← require_timestamp issued_at "issued_at";
  expires_at ← require_timestamp expires_at "expires_at";
  _ ← raise_if (fle expires_at issued_at) (DomainValidationError "expires_at");
  Ok {| hop_subject := subject; hop_subject_type := subject_type;
        hop_capabilities := capabilities; hop_issued_at := issued_at;
        hop_expires_at := expires_at |}.

Definition hop_is_valid_at (h : DelegationHop) (now : float) : bool :=
  fle (hop_issued_at h) now && flt now (hop_expires_at h).

Definition hop_as_evidence (h : DelegationHop) : pyval :=
  pdict [("subject", PStr (hop_subject h)); ("subject_type", PStr (subject_type_value (hop_subject_type h)));
         ("capabilities", p_strs (sorted_set (hop_capabilities h)));
         ("issued_at", PFloat (hop_issued_at h)); ("expires_at", PFloat (hop_expires_at h))].

(** ** Delegation chains *)

Record DelegationChain := { hops : list DelegationHop }.

(** [_require_attenuating]. *)
Fixpoint require_attenuating (l : list DelegationHop) : res unit :=
  match l with
  | delegator :: ((delegate :: _) as rest) =>
      _ ← raise_if (negb (bool_decide (hop_capabilities delegate ∖ hop_capabilities delegator = ∅)))
            DelegationError;
      _ ← raise_if (fgt (hop_expires_at delegate) (hop_expires_at delegator)) DelegationError;
      require_attenuating rest
  | _ => Ok tt
  end.

Definition mk_DelegationChain (l : list DelegationHop) : res DelegationChain :=
  _ ← require_attenuating l;
  Ok {| hops := l |}.

Definition chain_is_empty (c : DelegationChain) : bool :=
  match hops c with [] => true | _ => false end.
Definition chain_root (c : DelegationChain) : option DelegationHop := head (hops c).
Definition chain_leaf (c : DelegationChain) : option DelegationHop := last (hops c).
Definition chain_depth (c : DelegationChain) : nat := length (hops c).

Definition effective_capabilities (c : DelegationChain) : gset string :=
  match hops c with
  | [] => ∅
  | h :: rest => foldl (fun effective hop => effective ∩ hop_capabilities hop) (hop_capabilities h) rest
  end.

Definition chain_is_valid_at (c : DelegationChain) (now : float) : bool :=
  negb (chain_is_empty c) && forallb (fun h => hop_is_valid_at h now) (hops c).

Definition chain_as_evidence (c : DelegationChain) : list pyval := map hop_as_evidence (hops c).

(** ** Verified principals *)

Record VerifiedPrincipal := {
  vp_agent_ref : string;
  vp_agent_instance_id : string;
  vp_tenant_id : string;
  vp_credential_type : CredentialType;
  vp_credential_id : string;
  vp_issued_at : float;
  vp_expires_at : float;
  vp_delegating_subject : option string;
  vp_delegation_chain : DelegationChain;
  vp_claims : list (string * pyval)
}.

(** [_require_chain_consistency]. *)
Definition require_chain_consistency (agent_ref : string) (delegating_subject : option string)
    (chain : DelegationChain) : res unit :=
  match chain_leaf chain, chain_root chain with
  | Some leaf, Some root =>
      _ ← raise_if (negb (hop_subject leaf =? agent_ref)%string) DelegationError;
      raise_if (match delegating_subject with
                | Some d => negb (hop_subject root =? d)%string
                | None => false
                end) DelegationError
  | _, _ => Ok tt
  end.

Definition mk_VerifiedPrincipal (agent_ref agent_instance_id tenant_id : string)
    (credential_type : CredentialType) (credential_id : string) (issued_at expires_at : float)
    (delegating_subject : option string) (delegation_chain : DelegationChain)
    (claims : pairs_arg) : res VerifiedPrincipal :=
  agent_ref ← require_identifier agent_ref "agent_ref";
  agent_instance_id ← require_identifier agent_instance_id "agent_instance_id";
  tenant_id ← require_identifier tenant_id "tenant_id";
  credential_id ← require_identifier credential_id "credential_id";
  issued_at ← require_timestamp issued_at "issued_at";
  expires_at ← require_timestamp expires_at "expires_at";
  _ ← raise_if (fle expires_at issued_at) (DomainValidationError "expires_at");
  delegating_subject ← res_opt (fun d => require_identifier d "delegating_subject") delegating_subject;
  claims ← freeze_pairs claims "claims";
  _ ← require_chain_consistency agent_ref delegating_subject delegation_chain;
  Ok {| vp_agent_ref := agent_ref; vp_agent_instance_id := agent_instance_id;
        vp_tenant_id := tenant_id; vp_credential_type := credential_type;
        vp_credential_id := credential_id; vp_issued_at := issued_at; vp_expires_at := expires_at;
        vp_delegating_subject := delegating_subject; vp_delegation_chain := delegation_chain;
        vp_claims := claims |}.

Definition is_expired (p : VerifiedPrincipal) (now : float) : res bool :=
  now ← require_timestamp now "now";
  Ok (negb (fle (vp_issued_at p) now && flt now (vp_expires_at p))).

Definition require_valid_at (p : VerifiedPrincipal) (now : float) : res unit :=
  moment ← require_timestamp now "now";
  expired ← is_expired p moment;
  _ ← raise_if expired CredentialExpiredError;
  raise_if (negb (chain_is_empty (vp_delegation_chain p)) &&
            negb (chain_is_valid_at (vp_delegation_chain p) moment)) CredentialExpiredError.

Definition claim (p : VerifiedPrincipal) (name : string) (default : pyval) : pyval :=
  lookup_pair name (vp_claims p) default.

Definition has_capability (p : VerifiedPrincipal) (capability : string) : bool :=
  bool_decide (capability ∈ effective_capabilities (vp_delegation_chain p)).

Definition owns (p : VerifiedPrincipal) (tenant_id : string) : bool :=
  (vp_tenant_id p =? tenant_id)%string.

Definition p_str_opt (o : option string) : pyval := p_opt PStr o.

Definition principal_as_evidence (p : VerifiedPrincipal) : list (string * pyval) :=
  [("agent_ref", PStr (vp_agent_ref p)); ("agent_instance_id", PStr (vp_agent_instance_id p));
   ("tenant_id", PStr (vp_tenant_id p)); ("delegating_subject", p_str_opt (vp_delegating_subject p));
   ("delegation_chain", PList (chain_as_evidence (vp_delegation_chain p)));
   ("credential_type", PStr (credential_type_value (vp_credential_type p)));
   ("credential_id", PStr (vp_credential_id p)); ("issued_at", PFloat (vp_issued_at p));
   ("expires_at", PFloat (vp_expires_at p)); ("claims", pairs_dict (vp_claims p))].

(** ** Tenants *)

Inductive TenantStatus := TENANT_PENDING | TENANT_ACTIVE | TENANT_SUSPENDED | TENANT_OFFBOARDED.

Definition tenant_status_value (s : TenantStatus) : string :=
  match s with
  | TENANT_PENDING => "pending" | TENANT_ACTIVE => "active"
  | TENANT_SUSPENDED => "suspended" | TENANT_OFFBOARDED => "offboarded"
  end.

Definition permits_new_decisions (s : TenantStatus) : bool :=
  match s with TENANT_ACTIVE => true | _ => false end.

Record Tenant := {
  tn_tenant_id : string;
  tn_display_name : string;
  tn_status : TenantStatus;
  tn_created_at : float;
  tn_metadata : list (string * pyval)
}.

Definition mk_Tenant (tenant_id display_name : string) (status : TenantStatus)
    (created_at : float) (metadata : pairs_arg) : res Tenant :=
  tenant_id ← require_identifier tenant_id "tenant_id";
  display_name ← require_non_empty display_name "display_name";
  created_at ← require_timestamp created_at "created_at";
  metadata ← freeze_pairs metadata "metadata";
  Ok {| tn_tenant_id := tenant_id; tn_display_name := display_name; tn_status := status;
        tn_created_at := created_at; tn_metadata := metadata |}.

Definition tenant_with_status (t : Tenant) (status : TenantStatus) : res Tenant :=
  mk_Tenant (tn_tenant_id t) (tn_display_name t) status (tn_created_at t) (AsTuple (tn_metadata t)).

(** ** Attenuation *)

Definition hop_wf (h : DelegationHop) : Prop :=
  isfinite (hop_issued_at h) = true /\ isfinite (hop_expires_at h) = true /\
  flt (hop_issued_at h) (hop_expires_at h) = true.

Lemma mk_DelegationHop_wf s t c i e h : mk_DelegationHop s t c i e = Ok h -> hop_wf h.
Proof.
  unfold mk_DelegationHop. intros H. inv_ok.
  repeat match goal with H : require_timestamp _ _ = Ok _ |- _ =>
    apply require_timestamp_ok in H as (-> & ? & ? & ?) end.
  subst. unfold hop_wf. simpl. split_and!; try done.
  apply fle_false_flt; auto using isfinite_nan.
Qed.

(** [b] holds no more authority than [a]. *)
Definition attenuates (a b : DelegationHop) : Prop :=
  hop_capabilities b ⊆ hop_capabilities a /\ fle (hop_expires_at b) (hop_expires_at a) = true.

Lemma attenuates_refl h : hop_wf h -> attenuates h h.
Proof. intros (_ & ? & _). split; [done|]. auto with glassbox. Qed.

Lemma attenuates_trans a b c : attenuates a b -> attenuates b c -> attenuates a c.
Proof. intros [H1 H2] [H3 H4]. split; [set_solver|]. by eapply fle_trans. Qed.

Lemma require_attenuating_ok l :
  Forall hop_wf l -> require_attenuating l = Ok tt ->
  StronglySorted attenuates l.
Proof.
  intros Hwf H. apply Sorted_StronglySorted; [intros ???; apply attenuates_trans|].
  induction l as [|a [|b l] IH]; [constructor | by repeat constructor |].
  cbn [require_attenuating] in H. inv_ok. apply Forall_cons in Hwf as [Ha Hl].
  constructor; [by apply IH|]. constructor.
  match goal with H : negb _ = false |- _ =>
    apply negb_false_iff, bool_decide_eq_true in H; rename H into Hc end.
  match goal with H : fgt _ _ = false |- _ => rename H into He end.
  apply Forall_cons in Hl as [(_ & Hb & _) _]. destruct Ha as (_ & Ha & _).
  split; [set_solver | by apply fgt_false in He].
Qed.

Lemma sorted_leaf l leaf h :
  Forall hop_wf l -> StronglySorted attenuates l -> last l = Some leaf -> h ∈ l -> attenuates h leaf.
Proof.
  intros Hwf Hs Hlast Hh. apply last_Some in Hlast as [l' ->].
  apply elem_of_app in Hh as [Hh|Hh%list_elem_of_singleton].
  - rewrite StronglySorted_app in Hs. destruct Hs as (Hs & _). apply Hs; [done | by left].
  - subst. apply attenuates_refl. apply Forall_app in Hwf as [_ Hwf]. by inversion Hwf.
Qed.

Lemma foldl_inter (l : list DelegationHop) (s : gset string) c :
  c ∈ foldl (fun effective hop => effective ∩ hop_capabilities hop) s l <->
  c ∈ s /\ Forall (fun h => c ∈ hop_capabilities h) l.
Proof.
  revert s. induction l as [|h l IH]; intros s; simpl.
  - split; [|tauto]. intros. split; [done|constructor].
  - rewrite IH, Forall_cons. set_solver.
Qed.

(** A capability is effective when every hop holds it. *)
Lemma elem_of_effective c ch :
  c ∈ effective_capabilities ch <-> hops ch <> [] /\ Forall (fun h => c ∈ hop_capabilities h) (hops ch).
Proof.
  unfold effective_capabilities. destruct (hops ch) as [|h l]; [set_solver|].
  rewrite foldl_inter, Forall_cons. naive_solver.
Qed.

(** Delegation attenuates: in a chain that constructs, the effective
    capabilities are exactly the leaf's, the leaf holds nothing that any hop
    above it lacks, and no hop expires before the leaf does. *)
Theorem delegation_attenuates l ch leaf :
  Forall hop_wf l -> mk_DelegationChain l = Ok ch -> chain_leaf ch = Some leaf ->
  effective_capabilities ch = hop_capabilities leaf /\
  forall h, h ∈ l -> hop_capabilities leaf ⊆ hop_capabilities h /\
                     fle (hop_expires_at leaf) (hop_expires_at h) = true.
Proof.
  intros Hwf H Hleaf. unfold mk_DelegationChain in H. inv_ok. subst ch.
  apply require_attenuating_ok in H; [|done].
  assert (Hall : forall h, h ∈ l -> attenuates h leaf) by (intros; by eapply sorted_leaf).
  split; [|exact Hall]. apply set_eq. intros c. rewrite elem_of_effective. cbn [hops].
  unfold chain_leaf in Hleaf. cbn [hops] in Hleaf. rewrite Forall_forall. split.
  - intros [_ Hc]. apply Hc. apply last_Some in Hleaf as [l' ->]. set_solver.
  - intros Hc. split; [by intros ->|]. intros h Hh. destruct (Hall h Hh) as [Hs _]. set_solver.
Qed.

Definition sample_hop (s : string) (caps : gset string) (e : Z) : DelegationHop :=
  {| hop_subject := s; hop_subject_type := AGENT; hop_capabilities := caps;
     hop_issued_at := fz 10; hop_expires_at := fz e |}.

Definition sample_hops : list DelegationHop :=
  [sample_hop "alice" {["read"; "write"]} 100; sample_hop "agent-1" {["read"]} 50].

Lemma delegation_attenuates_witness :
  let leaf := sample_hop "agent-1" {["read"]} 50 in
  effective_capabilities {| hops := sample_hops |} = hop_capabilities leaf /\
  forall h, h ∈ sample_hops -> hop_capabilities leaf ⊆ hop_capabilities h /\
                               fle (hop_expires_at leaf) (hop_expires_at h) = true.
Proof.
  apply (delegation_attenuates sample_hops {| hops := sample_hops |}).
  - repeat constructor.
  - vm_compute. reflexivity.
  - reflexivity.
Defined.

(** A principal usable now has a live chain: the leaf is the acting agent and
    every hop is inside its window. *)
Lemma require_valid_at_ok p now :
  require_valid_at p now = Ok tt ->
  fle (vp_issued_at p) now = true /\ flt now (vp_expires_at p) = true /\
  Forall (fun h => hop_is_valid_at h now = true) (hops (vp_delegation_chain p)).
Proof.
  unfold require_valid_at, is_expired. intros H. inv_ok.
  repeat match goal with H : require_timestamp _ _ = Ok _ |- _ =>
    apply require_timestamp_ok in H as (-> & _) end.
  subst. repeat match goal with H : negb _ = false |- _ => apply negb_false_iff in H end.
  match goal with H : _ && flt _ _ = true |- _ => apply andb_true_iff in H as [? ?] end.
  split_and!; try done.
  match goal with H : negb _ && negb _ = false |- _ => rename H into Hc end.
  unfold chain_is_valid_at, chain_is_empty in Hc. destruct (hops _) as [|h l] eqn:E; [constructor|].
  cbn [negb andb] in Hc. apply negb_false_iff in Hc. apply Forall_forall. intros x Hx.
  rewrite forallb_forall in Hc. by apply Hc, list_elem_of_In.
Qed.
