(* ===== verification/AuditEvent.v ===== *)
(** * Administrative audit events ([domain/audit_event.py])

    The record of platform activity outside the evidence chain: its validation,
    the two ways to make one, and what they agree on. *)

From stdpp Require Import base tactics list strings.
From Stdlib Require Import ZArith Lia.
From S2P Require Import Prelude PyFloat PyStr Serialization Action Identity.

Open Scope string_scope.
Open Scope list_scope.

Record AuditEvent := {
  ae_event_id : string;
  ae_event_type : string;
  ae_occurred_at : float;
  ae_actor : string;
  ae_tenant_id : option string;
  ae_subject_id : option string;
  ae_detail : list (string * pyval)
}.

Definition mk_AuditEvent (event_id event_type : string) (occurred_at : float) (actor : string)
    (tenant_id subject_id : option string) (detail : pairs_arg) : res AuditEvent :=
  event_id ← require_identifier event_id "event_id";
  event_type ← require_non_empty event_type "event_type";
  occurred_at ← require_timestamp occurred_at "occurred_at";
  actor ← require_non_empty actor "actor";
  tenant_id ← res_opt (fun t => require_identifier t "tenant_id") tenant_id;
  subject_id ← res_opt (fun s => require_identifier s "subject_id") subject_id;
  detail ← freeze_pairs detail "detail";
  Ok {| ae_event_id := event_id; ae_event_type := event_type; ae_occurred_at := occurred_at; ae_actor := actor;
        ae_tenant_id := tenant_id; ae_subject_id := subject_id; ae_detail := detail |}.

(** [create]: the detail, a mapping or nothing, is frozen before anything is checked. *)
Definition create (event_id event_type : string) (occurred_at : float) (actor : string)
    (tenant_id subject_id : option string) (detail : option (list (string * pyval))) : res AuditEvent :=
  detail ← freeze_pairs (AsMapping (default [] detail)) "detail";
  mk_AuditEvent event_id event_type occurred_at actor tenant_id subject_id (AsTuple detail).

Definition event_as_evidence (e : AuditEvent) : pyval :=
  pdict [("event_id", PStr (ae_event_id e)); ("event_type", PStr (ae_event_type e));
         ("occurred_at", PFloat (ae_occurred_at e)); ("actor", PStr (ae_actor e));
         ("tenant_id", p_str_opt (ae_tenant_id e)); ("subject_id", p_str_opt (ae_subject_id e));
         ("detail", pdict (ae_detail e))].

(** The two ways agree on every event they make. *)
Lemma create_is_constructor id ty at_ actor tid sid d e :
  create id ty at_ actor tid sid d = Ok e <->
  mk_AuditEvent id ty at_ actor tid sid (AsMapping (default [] d)) = Ok e.
Proof.
  unfold create, mk_AuditEvent, mbind, res_bind, freeze_pairs.
  destruct (freeze_mapping (pdict (default [] d)) "detail") as [l|x]; [done|].
  split; [done|]. repeat case_match; discriminate.
Qed.

(** An event names itself, its kind, its actor and, where given, its tenant and subject. *)
Lemma mk_AuditEvent_ok id ty at_ actor tid sid d e :
  mk_AuditEvent id ty at_ actor tid sid d = Ok e ->
  ae_event_id e = id /\ ae_event_type e = ty /\ ae_actor e = actor /\ ae_tenant_id e = tid /\ ae_subject_id e = sid /\
  is_blank ty = false /\ is_blank actor = false /\ freeze_pairs d "detail" = Ok (ae_detail e).
Proof.
  unfold mk_AuditEvent. intros H. apply bind_ok in H as (i & Hi & H). apply bind_ok in H as (y & Hy & H).
  apply bind_ok in H as (w & _ & H). apply bind_ok in H as (a & Ha & H). apply bind_ok in H as (t & Ht & H).
  apply bind_ok in H as (s & Hs & H). apply bind_ok in H as (l & Hl & H). injection H as <-. cbn.
  assert (Hid : forall v f r, require_identifier v f = Ok r -> r = v).
  { intros v f r. unfold require_identifier, require_non_empty, mbind, res_bind. repeat case_match; congruence. }
  assert (Hopt : forall o f r, res_opt (fun v => require_identifier v f) o = Ok r -> r = o).
  { intros o f r. rewrite res_opt_ok. intros [[-> ->]|(x & z & -> & Hx & ->)]; [done|]. by apply Hid in Hx as ->. }
  unfold require_non_empty in Hy, Ha. destruct (is_blank ty), (is_blank actor); try discriminate.
  injection Hy as <-. injection Ha as <-. split_and!; try done; eauto.
Qed.
