(* ===== verification/Mandate.v ===== *)
(** * Mandates and tool grants ([glassbox/domain/mandate.py]) *)

From stdpp Require Import base tactics list strings gmap.
From Stdlib Require Import ZArith Lia.
From S2P Require Import Prelude PyFloat PyStr Serialization Fnmatch Action Identity.

Open Scope string_scope.
Open Scope list_scope.

Inductive MandateDenialReason :=
| NOT_YET_VALID | EXPIRED | REVOKED | WRONG_TENANT | WRONG_AGENT
| ACTION_NOT_GRANTED | RESOURCE_NOT_GRANTED | ACTION_RESOURCE_PAIR_NOT_GRANTED
| CONSEQUENCE_EXCEEDS_CEILING | EXPOSURE_EXCEEDS_CEILING
| TOOL_NOT_GRANTED | TOOL_DEFINITION_CHANGED.
#[export] Instance MandateDenialReason_eq_dec : EqDecision MandateDenialReason.
Proof. solve_decision. Defined.

Definition mandate_reason_value (r : MandateDenialReason) : string :=
  match r with
  | NOT_YET_VALID => "mandate_not_yet_valid"
  | EXPIRED => "mandate_expired"
  | REVOKED => "mandate_revoked"
  | WRONG_TENANT => "mandate_wrong_tenant"
  | WRONG_AGENT => "mandate_wrong_agent"
  | ACTION_NOT_GRANTED => "action_not_granted"
  | RESOURCE_NOT_GRANTED => "resource_not_granted"
  | ACTION_RESOURCE_PAIR_NOT_GRANTED => "action_resource_pair_not_granted"
  | CONSEQUENCE_EXCEEDS_CEILING => "consequence_exceeds_ceiling"
  | EXPOSURE_EXCEEDS_CEILING => "exposure_exceeds_ceiling"
  | TOOL_NOT_GRANTED => "tool_not_granted"
  | TOOL_DEFINITION_CHANGED => "tool_definition_changed"
  end.

(** ** Verdicts *)

Record MandateVerdict := {
  mv_permitted : bool;
  mv_reasons : list MandateDenialReason;
  mv_detail : string;
  mv_mandate_version : option Z
}.

Definition mk_MandateVerdict (permitted : bool) (reasons : list MandateDenialReason)
    (detail : string) (mandate_version : option Z) : res MandateVerdict :=
  let none := bool_decide (reasons = []) in
  _ ← raise_if (permitted && negb none) (DomainValidationError "reasons");
  _ ← raise_if (negb permitted && none) (DomainValidationError "reasons");
  Ok {| mv_permitted := permitted; mv_reasons := reasons; mv_detail := detail;
        mv_mandate_version := mandate_version |}.

Definition mandate_permit (version : Z) : res MandateVerdict :=
  mk_MandateVerdict true [] "" (Some version).

Definition mandate_refuse (reasons : list MandateDenialReason) (detail : string)
    (mandate_version : option Z) : res MandateVerdict :=
  _ ← raise_if (bool_decide (reasons = [])) (DomainValidationError "reasons");
  mk_MandateVerdict false reasons detail mandate_version.

Definition verdict_as_evidence (v : MandateVerdict) : pyval :=
  pdict [("permitted", PBool (mv_permitted v));
         ("reasons", p_strs (map mandate_reason_value (mv_reasons v)));
         ("detail", PStr (mv_detail v)); ("mandate_version", p_opt PInt (mv_mandate_version v))].

(** ** Grants *)

Record ToolGrant := {
  tg_tool_name : string;
  tg_definition_sha256 : string;
  tg_max_consequence : ConsequenceClass;
  tg_requires_approval : bool
}.

Definition mk_ToolGrant (tool_name definition_sha256 : string) (max_consequence : ConsequenceClass)
    (requires_approval : bool) : res ToolGrant :=
  tool_name ← require_identifier tool_name "tool_name";
  definition_sha256 ← require_sha256_hex definition_sha256 "definition_sha256";
  Ok {| tg_tool_name := tool_name; tg_definition_sha256 := definition_sha256;
        tg_max_consequence := max_consequence; tg_requires_approval := requires_approval |}.

Definition tool_grant_matches (g : ToolGrant) (tool_name definition_sha256 : string) : bool :=
  (tg_tool_name g =? tool_name)%string && (tg_definition_sha256 g =? lower definition_sha256)%string.

Definition tool_grant_as_evidence (g : ToolGrant) : pyval :=
  pdict [("tool_name", PStr (tg_tool_name g)); ("definition_sha256", PStr (tg_definition_sha256 g));
         ("max_consequence", PStr (consequence_value (tg_max_consequence g)));
         ("requires_approval", PBool (tg_requires_approval g))].

Record ActionResourceGrant := {
  ag_action_pattern : string;
  ag_resource_pattern : string
}.

Definition mk_ActionResourceGrant (action_pattern resource_pattern : string) : res ActionResourceGrant :=
  action_pattern ← require_non_empty action_pattern "action_pattern";
  resource_pattern ← require_non_empty resource_pattern "resource_pattern";
  Ok {| ag_action_pattern := action_pattern; ag_resource_pattern := resource_pattern |}.

Definition scoped_grant_matches (g : ActionResourceGrant) (action resource : string) : bool :=
  fnmatchcase action (ag_action_pattern g) && fnmatchcase resource (ag_resource_pattern g).

Definition scoped_grant_as_evidence (g : ActionResourceGrant) : pyval :=
  pdict [("action_pattern", PStr (ag_action_pattern g));
         ("resource_pattern", PStr (ag_resource_pattern g))].

(** ** Mandates *)

Record Mandate := {
  md_tenant_id : string;
  md_agent_ref : string;
  md_version : Z;
  md_max_consequence : ConsequenceClass;
  md_max_exposure : Exposure;
  md_valid_from : float;
  md_allowed_actions : gset string;
  md_allowed_resources : gset string;
  md_tool_grants : list ToolGrant;
  md_valid_until : option float;
  md_revoked_at : option float;
  md_approved_by : list string;
  md_resource_scoped_grants : list ActionResourceGrant
}.

Definition mk_Mandate (tenant_id agent_ref : string) (version : Z)
    (max_consequence : ConsequenceClass) (max_exposure : Exposure) (valid_from : float)
    (allowed_actions allowed_resources : gset string) (tool_grants : list ToolGrant)
    (valid_until revoked_at : option float) (approved_by : list string)
    (resource_scoped_grants : list ActionResourceGrant) : res Mandate :=
  tenant_id ← require_identifier tenant_id "tenant_id";
  agent_ref ← require_identifier agent_ref "agent_ref";
  _ ← raise_if (version <? 1)%Z (DomainValidationError "version");
  valid_from ← require_timestamp valid_from "valid_from";
  valid_until ← res_opt (fun u =>
    u ← require_timestamp u "valid_until";
    _ ← raise_if (fle u valid_from) (DomainValidationError "valid_until");
    Ok u) valid_until;
  revoked_at ← res_opt (fun r => require_timestamp r "revoked_at") revoked_at;
  _ ← res_map (fun p => require_non_empty p "allowed_actions") (elements allowed_actions);
  _ ← res_map (fun p => require_non_empty p "allowed_resources") (elements allowed_resources);
  _ ← raise_if (has_dup [] (map tg_tool_name tool_grants)) (DomainValidationError "tool_grants");
  _ ← res_map (fun a => require_identifier a "approved_by") approved_by;
  Ok {| md_tenant_id := tenant_id; md_agent_ref := agent_ref; md_version := version;
        md_max_consequence := max_consequence; md_max_exposure := max_exposure;
        md_valid_from := valid_from; md_allowed_actions := allowed_actions;
        md_allowed_resources := allowed_resources; md_tool_grants := tool_grants;
        md_valid_until := valid_until; md_revoked_at := revoked_at; md_approved_by := approved_by;
        md_resource_scoped_grants := resource_scoped_grants |}.

Definition mandate_is_revoked_at (m : Mandate) (now : float) : res bool :=
  moment ← require_timestamp now "now";
  Ok (match md_revoked_at m with Some r => fge moment r | None => false end).

Definition mandate_is_active_at (m : Mandate) (now : float) : res bool :=
  moment ← require_timestamp now "now";
  revoked ← mandate_is_revoked_at m moment;
  if revoked : bool then Ok false
  else if flt moment (md_valid_from m) then Ok false
  else Ok (match md_valid_until m with None => true | Some u => flt moment u end).

(** [_matches_any]. *)
Definition matches_any (patterns : gset string) (value : string) : bool :=
  existsb (fnmatchcase value) (elements patterns).

Definition resource_name (a : ProposedAction) : string :=
  rr_kind (pa_resource a) +:+ "/" +:+ rr_id (pa_resource a).

(** One entry of [reasons]. *)
Definition reason_if (c : bool) (r : MandateDenialReason) : list MandateDenialReason :=
  if c then [r] else [].

Definition permits (m : Mandate) (action : ProposedAction) (now : float) : res MandateVerdict :=
  moment ← require_timestamp now "now";
  revoked ← mandate_is_revoked_at m moment;
  let resource := resource_name action in
  let reasons :=
    (if revoked : bool then [REVOKED]
     else if flt moment (md_valid_from m) then [NOT_YET_VALID]
     else reason_if (match md_valid_until m with Some u => fge moment u | None => false end) EXPIRED)
    ++ reason_if (negb (pa_tenant_id action =? md_tenant_id m)%string) WRONG_TENANT
    ++ reason_if (negb (matches_any (md_allowed_actions m) (pa_action action))) ACTION_NOT_GRANTED
    ++ reason_if (negb (matches_any (md_allowed_resources m) resource)) RESOURCE_NOT_GRANTED
    ++ reason_if (negb (bool_decide (md_resource_scoped_grants m = nil)) &&
                  negb (existsb (fun g => scoped_grant_matches g (pa_action action) resource)
                          (md_resource_scoped_grants m))) ACTION_RESOURCE_PAIR_NOT_GRANTED
    ++ reason_if (consequence_gtb (pa_consequence action) (md_max_consequence m))
         CONSEQUENCE_EXCEEDS_CEILING
    ++ reason_if (exceeds (pa_exposure action) (md_max_exposure m)) EXPOSURE_EXCEEDS_CEILING in
  match reasons with
  | [] => mandate_permit (md_version m)
  | _ => mandate_refuse reasons
           ("action=" +:+ pa_action action +:+ " resource=" +:+ resource +:+
            " consequence=" +:+ consequence_value (pa_consequence action))
           (Some (md_version m))
  end.

Definition permits_tool (m : Mandate) (tool_name definition_sha256 : string) : res MandateVerdict :=
  _ ← require_identifier tool_name "tool_name";
  _ ← require_non_empty definition_sha256 "definition_sha256";
  let by_name := List.filter (fun g => (tg_tool_name g =? tool_name)%string) (md_tool_grants m) in
  match by_name with
  | [] => mandate_refuse [TOOL_NOT_GRANTED] ("tool=" +:+ tool_name) (Some (md_version m))
  | _ =>
      if negb (existsb (fun g => tool_grant_matches g tool_name definition_sha256) by_name)
      then mandate_refuse [TOOL_DEFINITION_CHANGED]
             ("tool=" +:+ tool_name +:+ " presented_digest=" +:+ lower definition_sha256)
             (Some (md_version m))
      else mandate_permit (md_version m)
  end.

Definition tool_grant (m : Mandate) (tool_name : string) : option ToolGrant :=
  List.find (fun g => (tg_tool_name g =? tool_name)%string) (md_tool_grants m).

Definition mandate_as_evidence (m : Mandate) : pyval :=
  pdict [("tenant_id", PStr (md_tenant_id m)); ("agent_ref", PStr (md_agent_ref m));
         ("version", PInt (md_version m));
         ("allowed_actions", p_strs (sorted_set (md_allowed_actions m)));
         ("allowed_resources", p_strs (sorted_set (md_allowed_resources m)));
         ("resource_scoped_grants", PList (map scoped_grant_as_evidence (md_resource_scoped_grants m)));
         ("max_consequence", PStr (consequence_value (md_max_consequence m)));
         ("max_exposure", pdict (exposure_as_evidence (md_max_exposure m)));
         ("tool_grants", PList (map tool_grant_as_evidence (md_tool_grants m)));
         ("valid_from", PFloat (md_valid_from m)); ("valid_until", p_opt PFloat (md_valid_until m));
         ("revoked_at", p_opt PFloat (md_revoked_at m)); ("approved_by", p_strs (md_approved_by m))].

(** ** What a permit means *)

Lemma matches_any_spec ps v :
  matches_any ps v = true <-> exists p, p ∈ ps /\ fnmatchcase v p = true.
Proof.
  unfold matches_any. rewrite existsb_exists. setoid_rewrite <-list_elem_of_In.
  by setoid_rewrite elem_of_elements.
Qed.

Lemma reason_if_nil c r : reason_if c r = [] <-> c = false.
Proof. by destruct c. Qed.

Lemma mandate_refuse_ok rs d v :
  rs <> [] -> mandate_refuse rs d v =
  Ok {| mv_permitted := false; mv_reasons := rs; mv_detail := d; mv_mandate_version := v |}.
Proof.
  intros H. unfold mandate_refuse, mk_MandateVerdict. by rewrite bool_decide_eq_false_2.
Qed.

(** The six dimensions a mandate bounds, in the order of the source. *)
Record covers (m : Mandate) (a : ProposedAction) : Prop := {
  cov_tenant : pa_tenant_id a = md_tenant_id m;
  cov_action : exists p, p ∈ md_allowed_actions m /\ fnmatchcase (pa_action a) p = true;
  cov_resource : exists p, p ∈ md_allowed_resources m /\ fnmatchcase (resource_name a) p = true;
  cov_pair : md_resource_scoped_grants m = [] \/
             exists g, g ∈ md_resource_scoped_grants m /\
               fnmatchcase (pa_action a) (ag_action_pattern g) = true /\
               fnmatchcase (resource_name a) (ag_resource_pattern g) = true;
  cov_consequence : (consequence_severity (pa_consequence a)
                     <= consequence_severity (md_max_consequence m))%Z;
  cov_exposure : within (pa_exposure a) (md_max_exposure m)
}.

Lemma scoped_pair_spec m a :
  negb (bool_decide (md_resource_scoped_grants m = [])) &&
  negb (existsb (fun g => scoped_grant_matches g (pa_action a) (resource_name a))
          (md_resource_scoped_grants m)) = false <->
  md_resource_scoped_grants m = [] \/
  exists g, g ∈ md_resource_scoped_grants m /\
    fnmatchcase (pa_action a) (ag_action_pattern g) = true /\
    fnmatchcase (resource_name a) (ag_resource_pattern g) = true.
Proof.
  rewrite andb_false_iff, !negb_false_iff, bool_decide_eq_true, existsb_exists.
  setoid_rewrite <-list_elem_of_In. unfold scoped_grant_matches.
  by setoid_rewrite andb_true_iff.
Qed.

(** Being active, without the validation of [now]. *)
Definition active_now (m : Mandate) (now : float) : bool :=
  negb (match md_revoked_at m with Some r => fge now r | None => false end) &&
  negb (flt now (md_valid_from m)) &&
  negb (match md_valid_until m with Some u => fge now u | None => false end).

Lemma permits_cases m a now :
  is_ok (require_timestamp now "now") = true ->
  exists v, permits m a now = Ok v /\ mv_mandate_version v = Some (md_version m) /\
    (mv_permitted v = true <-> active_now m now = true /\ covers m a) /\
    (mv_permitted v = false -> mv_reasons v <> []).
Proof.
  intros Hnow. destruct (require_timestamp now "now") as [t|] eqn:Et; [|done].
  pose proof (proj1 (require_timestamp_ok _ _ _) Et) as (-> & _).
  unfold permits, mandate_is_revoked_at. rewrite !Et. cbn [mbind res_bind]. rewrite !Et. cbn [mbind res_bind].
  set (dims := reason_if (negb (pa_tenant_id a =? md_tenant_id m)%string) WRONG_TENANT ++ _).
  set (life := if _ : bool then [REVOKED] else _).
  assert (Hlife : life = [] <-> active_now m now = true).
  { unfold life, active_now. rewrite !andb_true_iff, !negb_true_iff.
    destruct (match md_revoked_at m with Some _ => _ | None => _ end); [naive_solver|].
    destruct (flt now (md_valid_from m)); [naive_solver|]. rewrite reason_if_nil. naive_solver. }
  assert (Hdims : dims = [] <-> covers m a).
  { unfold dims. rewrite !app_nil, !reason_if_nil, !negb_false_iff, String.eqb_eq, !matches_any_spec,
      scoped_pair_spec. unfold consequence_gtb. rewrite Z.ltb_ge.
    split; [intros (? & ? & ? & ? & ? & ?); by constructor | by intros []]. }
  assert (Hnil : life ++ dims = [] <-> active_now m now = true /\ covers m a)
    by (rewrite app_nil; tauto).
  destruct (life ++ dims) as [|r rs] eqn:E.
  - eexists. split; [reflexivity|]. simpl. naive_solver.
  - rewrite mandate_refuse_ok by done. eexists. split; [reflexivity|]. simpl.
    split_and!; [done | | done]. split; [done|]. rewrite <-Hnil. done.
Qed.

Lemma active_now_ok m now :
  is_ok (require_timestamp now "now") = true ->
  (forall u, md_valid_until m = Some u -> is_nan u = false) ->
  mandate_is_active_at m now = Ok (active_now m now).
Proof.
  intros Hnow Hu. destruct (require_timestamp now "now") as [t|] eqn:Et; [|done].
  pose proof (proj1 (require_timestamp_ok _ _ _) Et) as (-> & Hf & _).
  unfold mandate_is_active_at, mandate_is_revoked_at, active_now. rewrite !Et. cbn [mbind res_bind].
  rewrite !Et. cbn [mbind res_bind].
  destruct (match md_revoked_at m with Some _ => _ | None => _ end); [done|]. simpl.
  destruct (flt now (md_valid_from m)); [done|]. simpl. destruct (md_valid_until m) as [u|]; [|done].
  f_equal. rewrite fge_fle, fle_negb_flt, negb_involutive by auto with glassbox. done.
Qed.

(** A mandate permits an action at a valid instant exactly when it is
    active there (not revoked, begun, not expired) and the action is inside
    all six dimensions: tenant, an allowed action pattern, an allowed resource
    pattern, the joint grants if there are any, the consequence ceiling and
    the exposure ceiling.  The check never raises and names the version. *)
Theorem permits_all_dimensions m a now :
  is_ok (require_timestamp now "now") = true ->
  (forall u, md_valid_until m = Some u -> is_nan u = false) ->
  exists v, permits m a now = Ok v /\ mv_mandate_version v = Some (md_version m) /\
    (mv_permitted v = true <-> mandate_is_active_at m now = Ok true /\ covers m a) /\
    (mv_permitted v = false -> mv_reasons v <> []).
Proof.
  intros Hnow Hu. destruct (permits_cases m a now Hnow) as (v & Hv & Hver & Hiff & Hr).
  exists v. rewrite active_now_ok by done. split_and!; try done. rewrite Hiff.
  split; intros [H1 H2]; (split; [|done]); [by rewrite H1 | by injection H1].
Qed.

Definition sample_mandate : Mandate :=
  {| md_tenant_id := "t1"; md_agent_ref := "agent-1"; md_version := 3;
     md_max_consequence := IRREVERSIBLE; md_max_exposure := sample_exposure 100;
     md_valid_from := fz 10; md_allowed_actions := {["payments.*"]};
     md_allowed_resources := {["account/*"]};
     md_tool_grants := [{| tg_tool_name := "search"; tg_definition_sha256 := "ab";
                           tg_max_consequence := REVERSIBLE; tg_requires_approval := false |}];
     md_valid_until := Some (fz 1000); md_revoked_at := None; md_approved_by := [];
     md_resource_scoped_grants := [] |}.

Lemma permits_all_dimensions_witness :
  exists v, permits sample_mandate (sample_action "x") (fz 20) = Ok v /\
    mv_mandate_version v = Some 3%Z /\
    (mv_permitted v = true <->
       mandate_is_active_at sample_mandate (fz 20) = Ok true /\
       covers sample_mandate (sample_action "x")) /\
    (mv_permitted v = false -> mv_reasons v <> []).
Proof.
  apply (permits_all_dimensions sample_mandate (sample_action "x") (fz 20)).
  - vm_compute. reflexivity.
  - intros u [= <-]. vm_compute. reflexivity.
Defined.

Example permits_sample :
  mv_permitted <$> permits sample_mandate (sample_action "x") (fz 20) = Ok true.
Proof. vm_compute. reflexivity. Qed.

(** A tool is permitted exactly when the mandate grants that name at that
    very definition digest (compared in lower case); a granted name at another
    digest is refused as changed, an ungranted name as not granted. *)
Theorem permits_tool_pinned m name digest :
  valid_id name -> is_blank digest = false ->
  exists v, permits_tool m name digest = Ok v /\
    (mv_permitted v = true <->
       exists g, g ∈ md_tool_grants m /\ tg_tool_name g = name /\
                 tg_definition_sha256 g = lower digest) /\
    (mv_permitted v = false ->
       mv_reasons v = [TOOL_NOT_GRANTED] /\ (forall g, g ∈ md_tool_grants m -> tg_tool_name g <> name) \/
       mv_reasons v = [TOOL_DEFINITION_CHANGED] /\
         exists g, g ∈ md_tool_grants m /\ tg_tool_name g = name).
Proof.
  intros Hname Hd. unfold permits_tool.
  rewrite (proj2 (require_identifier_valid _ "tool_name" _) (conj eq_refl Hname)). cbn [mbind res_bind].
  rewrite (proj2 (require_non_empty_ok _ "definition_sha256" _) (conj eq_refl Hd)). cbn [mbind res_bind].
  assert (Hin : forall g, g ∈ List.filter (fun g => (tg_tool_name g =? name)%string) (md_tool_grants m)
                <-> g ∈ md_tool_grants m /\ tg_tool_name g = name).
  { intros g. rewrite !list_elem_of_In, filter_In, String.eqb_eq. done. }
  destruct (List.filter _ _) as [|g0 gs] eqn:E.
  - rewrite mandate_refuse_ok by done. eexists. split; [reflexivity|]. simpl.
    assert (forall g, g ∈ md_tool_grants m -> tg_tool_name g <> name)
      as Hno by (intros g Hg Heq; assert (g ∈ []) as ?%not_elem_of_nil by (apply Hin; done); done).
    split; [split; [done|] | intros _; by left].
    intros (g & Hg & Hn & _). exfalso. by apply (Hno g).
  - destruct (existsb _ (g0 :: gs)) eqn:Ex; cbn [negb].
    + eexists. split; [reflexivity|]. simpl. split; [|done]. split; [|done]. intros _.
      apply existsb_exists in Ex as (g & Hg & Hm). apply list_elem_of_In, Hin in Hg as [Hg Hn].
      unfold tool_grant_matches in Hm. rewrite andb_true_iff, !String.eqb_eq in Hm. exists g. tauto.
    + rewrite mandate_refuse_ok by done. eexists. split; [reflexivity|]. simpl.
      split; [|intros _; right; split; [done|]; exists g0; apply Hin; left].
      split; [done|]. intros (g & Hg & Hn & Hsha). exfalso.
      apply not_true_iff_false in Ex. apply Ex, existsb_exists. exists g.
      split; [apply list_elem_of_In, Hin; done|]. unfold tool_grant_matches.
      by rewrite Hn, Hsha, !String.eqb_refl.
Qed.

Lemma permits_tool_pinned_witness :
  exists v, permits_tool sample_mandate "search" "AB" = Ok v /\
    (mv_permitted v = true <->
       exists g, g ∈ md_tool_grants sample_mandate /\ tg_tool_name g = "search" /\
                 tg_definition_sha256 g = lower "AB") /\
    (mv_permitted v = false ->
       mv_reasons v = [TOOL_NOT_GRANTED] /\
         (forall g, g ∈ md_tool_grants sample_mandate -> tg_tool_name g <> "search") \/
       mv_reasons v = [TOOL_DEFINITION_CHANGED] /\
         exists g, g ∈ md_tool_grants sample_mandate /\ tg_tool_name g = "search").
Proof.
  apply (permits_tool_pinned sample_mandate "search" "AB").
  - split; vm_compute; (reflexivity || lia).
  - reflexivity.
Defined.
