(* ===== verification/Limits.v ===== *)
(** * Limit keys, windows and verdicts ([glassbox/domain/limits.py]) *)

From stdpp Require Import base tactics list strings.
From Stdlib Require Import ZArith Lia Ascii String.
From S2P Require Import Prelude PyFloat PyStr Serialization Action.

Open Scope string_scope.

Inductive LimitScope :=
| SCOPE_AGENT | SCOPE_TENANT | SCOPE_RESOURCE | SCOPE_DELEGATING_SUBJECT | SCOPE_GLOBAL.
#[export] Instance LimitScope_eq_dec : EqDecision LimitScope.
Proof. solve_decision. Defined.

Definition scope_value (s : LimitScope) : string :=
  match s with
  | SCOPE_AGENT => "agent" | SCOPE_TENANT => "tenant" | SCOPE_RESOURCE => "resource"
  | SCOPE_DELEGATING_SUBJECT => "delegating_subject" | SCOPE_GLOBAL => "global"
  end.

Record Window := { win_seconds : Z }.

Definition mk_Window (seconds : Z) : res Window :=
  _ ← raise_if (seconds <=? 0)%Z (DomainValidationError "seconds");
  _ ← raise_if (31536000 <? seconds)%Z (DomainValidationError "seconds");
  Ok {| win_seconds := seconds |}.

Definition start_of (w : Window) (now : float) : res float :=
  now ← require_timestamp now "now";
  Ok (fsub now (fz (win_seconds w))).

Definition window_label (w : Window) : string := str_of_int (win_seconds w) +:+ "s".

Record LimitKey := {
  lk_tenant_id : string;
  lk_scope : LimitScope;
  lk_subject : string;
  lk_window : Window;
  lk_action : string
}.

Definition mk_LimitKey (tenant_id : string) (scope : LimitScope) (subject : string)
    (window : Window) (action : string) : res LimitKey :=
  tenant_id ← require_identifier tenant_id "tenant_id";
  subject ← require_identifier subject "subject";
  action ← (if negb (action =? "*")%string then require_identifier action "action" else Ok action);
  Ok {| lk_tenant_id := tenant_id; lk_scope := scope; lk_subject := subject; lk_window := window;
        lk_action := action |}.

Definition canonical_key (k : LimitKey) : string :=
  str_join "|" ["glassbox"; "limit"; lk_tenant_id k; scope_value (lk_scope k); lk_subject k;
                lk_action k; window_label (lk_window k)].

Definition member_for (decision_id : string) (now : float) : res string :=
  _ ← require_identifier decision_id "decision_id";
  moment ← require_timestamp now "now";
  Ok (float_repr moment +:+ ":" +:+ decision_id).

Definition limit_key_as_evidence (k : LimitKey) : pyval :=
  pdict [("tenant_id", PStr (lk_tenant_id k)); ("scope", PStr (scope_value (lk_scope k)));
         ("subject", PStr (lk_subject k)); ("action", PStr (lk_action k));
         ("window_seconds", PInt (win_seconds (lk_window k))); ("key", PStr (canonical_key k))].

(** ** Verdicts *)

Record LimitVerdict := {
  lv_admitted : bool;
  lv_key : LimitKey;
  lv_limit : float;
  lv_observed : float;
  lv_evaluated_at : float;
  lv_retry_after_s : option float;
  lv_cooldown_until : option float
}.

Definition mk_LimitVerdict (admitted : bool) (key : LimitKey) (limit observed evaluated_at : float)
    (retry_after_s cooldown_until : option float) : res LimitVerdict :=
  limit ← require_non_negative limit "limit";
  observed ← require_non_negative observed "observed";
  evaluated_at ← require_timestamp evaluated_at "evaluated_at";
  retry_after_s ← res_opt (fun r => require_non_negative r "retry_after_s") retry_after_s;
  cooldown_until ← res_opt (fun c => require_timestamp c "cooldown_until") cooldown_until;
  _ ← raise_if (admitted && fgt observed limit) (DomainValidationError "observed");
  Ok {| lv_admitted := admitted; lv_key := key; lv_limit := limit; lv_observed := observed;
        lv_evaluated_at := evaluated_at; lv_retry_after_s := retry_after_s;
        lv_cooldown_until := cooldown_until |}.

(** [max(a, b)]. *)
Definition fmax (a b : float) : float := if fgt b a then b else a.

Definition remaining (v : LimitVerdict) : float := fmax (fz 0) (fsub (lv_limit v) (lv_observed v)).

Definition is_in_cooldown (v : LimitVerdict) (now : float) : res bool :=
  moment ← require_timestamp now "now";
  Ok (match lv_cooldown_until v with Some c => flt moment c | None => false end).

Definition limit_verdict_as_evidence (v : LimitVerdict) : pyval :=
  pdict [("admitted", PBool (lv_admitted v)); ("key", limit_key_as_evidence (lv_key v));
         ("limit", PFloat (lv_limit v)); ("observed", PFloat (lv_observed v));
         ("remaining", PFloat (remaining v)); ("evaluated_at", PFloat (lv_evaluated_at v));
         ("retry_after_s", p_opt PFloat (lv_retry_after_s v));
         ("cooldown_until", p_opt PFloat (lv_cooldown_until v))].

(** ** Keys of different counters differ *)

Lemma valid_id_free c s :
  valid_id s -> is_ident_char c = false -> c <> newline -> has_char c s = false.
Proof.
  intros [H _] Hc Hn. destruct s as [|a s]; [done|]. simpl in H. apply andb_true_iff in H as [Ha Hs].
  simpl. apply orb_false_iff. split.
  - apply Ascii.eqb_neq. intros ->. unfold is_ident_char in Hc. by rewrite Ha in Hc.
  - clear Ha. induction s as [|b s IH]; [done|]. cbn [ident_tail has_char] in *.
    apply orb_true_iff in Hs as [Hs|Hs]; apply andb_true_iff in Hs as [Hb Hs].
    + apply Ascii.eqb_eq in Hb as ->. destruct s; [|done]. cbn [has_char]. rewrite orb_false_r.
      apply Ascii.eqb_neq. congruence.
    + rewrite (IH Hs), orb_false_r. apply Ascii.eqb_neq. intros ->. congruence.
Qed.

Definition bar : Ascii.ascii := "|"%char.

Definition limit_key_wf (k : LimitKey) : Prop :=
  valid_id (lk_tenant_id k) /\ valid_id (lk_subject k) /\
  (lk_action k = "*" \/ valid_id (lk_action k)).

Lemma mk_LimitKey_wf t s sub w a k : mk_LimitKey t s sub w a = Ok k -> limit_key_wf k.
Proof.
  unfold mk_LimitKey, limit_key_wf. intros H. inv_ok. subst. cbn.
  repeat match goal with H : require_identifier _ _ = Ok _ |- _ =>
    apply require_identifier_valid in H as [-> ?] end.
  split_and!; try done. destruct (String.eqb_spec a "*"); simpl in *.
  - left. congruence.
  - match goal with H : require_identifier a _ = Ok _ |- _ =>
      apply require_identifier_valid in H as [-> ?] end. by right.
Qed.

Lemma valid_id_bar s : valid_id s -> has_char bar s = false.
Proof. intros H. by apply valid_id_free. Qed.

Lemma window_label_bar w : has_char bar (window_label w) = false.
Proof.
  unfold window_label. rewrite has_char_app, orb_false_iff. split; [|done].
  eapply str_forallb_no_char; [|apply str_of_int_chars]. done.
Qed.

Lemma scope_value_inj s1 s2 : scope_value s1 = scope_value s2 -> s1 = s2.
Proof. by destruct s1, s2. Qed.

Lemma window_label_inj w1 w2 : window_label w1 = window_label w2 -> w1 = w2.
Proof.
  destruct w1 as [z1], w2 as [z2]. unfold window_label. simpl. intros H.
  apply munch_unique with (f := is_int_char) in H as [H _]; try done; try apply str_of_int_chars.
  by apply str_of_int_inj in H as ->.
Qed.

Lemma canonical_key_parts k :
  limit_key_wf k ->
  split_on bar (canonical_key k) =
  ["glassbox"; "limit"; lk_tenant_id k; scope_value (lk_scope k); lk_subject k;
   lk_action k; window_label (lk_window k)].
Proof.
  intros (Ht & Hs & Ha). apply split_join; [done|].
  repeat constructor; auto using valid_id_bar, window_label_bar; [by destruct (lk_scope k)|].
  destruct Ha as [->|]; auto using valid_id_bar.
Qed.

Lemma canonical_key_inj_wf k1 k2 :
  limit_key_wf k1 -> limit_key_wf k2 -> canonical_key k1 = canonical_key k2 -> k1 = k2.
Proof.
  intros H1 H2 Heq. apply (f_equal (split_on bar)) in Heq.
  rewrite !canonical_key_parts in Heq by done. injection Heq as ? Hs ? ? Hw.
  apply scope_value_inj in Hs. apply window_label_inj in Hw.
  destruct k1, k2; simpl in *; congruence.
Qed.

(** Two limit keys that construct and have the same canonical string are
    the same key: no two counters of the store are ever merged, across tenants
    in particular. *)
Theorem canonical_key_injective t1 s1 u1 w1 a1 k1 t2 s2 u2 w2 a2 k2 :
  mk_LimitKey t1 s1 u1 w1 a1 = Ok k1 -> mk_LimitKey t2 s2 u2 w2 a2 = Ok k2 ->
  canonical_key k1 = canonical_key k2 -> k1 = k2.
Proof. intros H1%mk_LimitKey_wf H2%mk_LimitKey_wf. by apply canonical_key_inj_wf. Qed.

Definition sample_key : LimitKey :=
  {| lk_tenant_id := "t1"; lk_scope := SCOPE_AGENT; lk_subject := "agent-1";
     lk_window := {| win_seconds := 60 |}; lk_action := "*" |}.

Lemma canonical_key_injective_witness : sample_key = sample_key.
Proof.
  apply (canonical_key_injective "t1" SCOPE_AGENT "agent-1" {| win_seconds := 60 |} "*" sample_key
           "t1" SCOPE_AGENT "agent-1" {| win_seconds := 60 |} "*" sample_key); reflexivity.
Defined.

(** Members of a counter's window are distinct for distinct admissions. *)
Lemma member_for_inj d1 t1 d2 t2 m :
  repr_found t1 = true -> repr_found t2 = true ->
  member_for d1 t1 = Ok m -> member_for d2 t2 = Ok m -> d1 = d2 /\ t1 = t2.
Proof.
  unfold member_for. intros Hf1 Hf2 H1 H2.
  apply bind_ok in H1 as (? & ? & H1), H2 as (? & ? & H2).
  apply bind_ok in H1 as (? & ? & [= H1]), H2 as (? & ? & [= H2]).
  repeat match goal with
  | H : require_identifier _ _ = Ok _ |- _ => apply require_identifier_valid in H as [-> ?]
  | H : require_timestamp _ _ = Ok _ |- _ => apply require_timestamp_ok in H as (-> & ? & _)
  end.
  rewrite <-H2 in H1.
  apply munch_unique with (f := is_num_char) in H1 as [Hr Hd]; auto using float_repr_chars; try done.
  apply float_repr_inj in Hr; try done. simpl in Hd. by injection Hd.
Qed.

(** An admitted verdict never reports more than its limit. *)
Lemma mk_LimitVerdict_ok ad k l o t r c v :
  mk_LimitVerdict ad k l o t r c = Ok v ->
  lv_admitted v = ad /\ lv_key v = k /\ lv_limit v = l /\ lv_observed v = o /\
  lv_evaluated_at v = t /\ lv_retry_after_s v = r /\ lv_cooldown_until v = c /\
  (ad = true -> fle o l = true).
Proof.
  unfold mk_LimitVerdict. intros H. inv_ok. subst. cbn.
  repeat match goal with
  | H : require_non_negative _ _ = Ok _ |- _ => apply require_non_negative_ok in H as (-> & ? & _)
  | H : require_timestamp _ _ = Ok _ |- _ => apply require_timestamp_ok in H as (-> & ? & _)
  | H : res_opt _ _ = Ok _ |- _ => apply res_opt_ok in H as [[-> ->]|(? & ? & -> & H & ->)]
  end; split_and!; try done; intros ->; simpl in *; by apply fgt_false.
Qed.
