(* ===== verification/Risk.v ===== *)
(** * Risk scores, banding and consequence floors ([glassbox/domain/risk.py]) *)

From stdpp Require Import base tactics list strings.
From Stdlib Require Import ZArith Lia.
From S2P Require Import Prelude PyFloat PyStr Serialization Action.

Open Scope string_scope.

Inductive RiskLevel := RISK_LOW | RISK_MEDIUM | RISK_HIGH | RISK_CRITICAL.
#[export] Instance RiskLevel_eq_dec : EqDecision RiskLevel.
Proof. solve_decision. Defined.

Definition risk_level_value (l : RiskLevel) : string :=
  match l with
  | RISK_LOW => "low" | RISK_MEDIUM => "medium" | RISK_HIGH => "high" | RISK_CRITICAL => "critical"
  end.

Definition risk_severity (l : RiskLevel) : Z :=
  match l with RISK_LOW => 0 | RISK_MEDIUM => 1 | RISK_HIGH => 2 | RISK_CRITICAL => 3 end%Z.

Definition MIN_RISK_SCORE : float := fz 0.
Definition MAX_RISK_SCORE : float := fz 100.

Definition RISK_BANDS : list (float * RiskLevel) :=
  [(fz 0, RISK_LOW); (fz 25, RISK_MEDIUM); (fz 50, RISK_HIGH); (fz 75, RISK_CRITICAL)].

Definition CONSEQUENCE_FLOORS (c : ConsequenceClass) : RiskLevel :=
  match c with
  | ADVISORY => RISK_LOW | REVERSIBLE => RISK_LOW
  | COMPENSABLE => RISK_MEDIUM | IRREVERSIBLE => RISK_HIGH
  end.

(** [_require_score]. *)
Definition require_score (value : float) (field : string) : res float :=
  _ ← raise_if (negb (isfinite value)) (DomainValidationError field);
  _ ← raise_if (negb (fle MIN_RISK_SCORE value && fle value MAX_RISK_SCORE))
        (DomainValidationError field);
  Ok value.

(** The loop of [from_score]: the last band whose bound is reached. *)
Definition band_of (value : float) : RiskLevel :=
  foldl (fun selected band => if fge value band.1 then band.2 else selected) RISK_LOW RISK_BANDS.

Definition from_score (score : float) : res RiskLevel :=
  value ← require_score score "score";
  Ok (band_of value).

(** [_lower_bound_for]. *)
Definition lower_bound_for (level : RiskLevel) : res float :=
  match List.find (fun band => bool_decide (band.2 = level)) RISK_BANDS with
  | Some band => Ok band.1
  | None => Raise (DomainValidationError "level")
  end.

(** ** Factors and inputs *)

Record RiskFactor := {
  rf_name : string;
  rf_score : float;
  rf_rationale : string;
  rf_detail : list (string * pyval)
}.

Definition mk_RiskFactor (name : string) (score : float) (rationale : string) (detail : pairs_arg)
    : res RiskFactor :=
  name ← require_identifier name "name";
  score ← require_score score "score";
  rationale ← require_non_empty rationale "rationale";
  detail ← freeze_pairs detail "detail";
  Ok {| rf_name := name; rf_score := score; rf_rationale := rationale; rf_detail := detail |}.

(** [as_evidence] reads [level], the band of a validated score. *)
Definition factor_as_evidence (f : RiskFactor) : pyval :=
  pdict [("name", PStr (rf_name f)); ("score", PFloat (rf_score f));
         ("level", PStr (risk_level_value (band_of (rf_score f))));
         ("rationale", PStr (rf_rationale f)); ("detail", pairs_dict (rf_detail f))].

Record RiskInputs := {
  ri_consequence : ConsequenceClass;
  ri_exposure : Exposure;
  ri_evaluated_at : float;
  ri_factors : list RiskFactor;
  ri_context : list (string * pyval)
}.

Definition mk_RiskInputs (consequence : ConsequenceClass) (exposure : Exposure)
    (evaluated_at : float) (factors : list RiskFactor) (context : pairs_arg) : res RiskInputs :=
  evaluated_at ← require_timestamp evaluated_at "evaluated_at";
  _ ← raise_if (has_dup [] (map rf_name factors)) (DomainValidationError "factors");
  context ← freeze_pairs context "context";
  Ok {| ri_consequence := consequence; ri_exposure := exposure; ri_evaluated_at := evaluated_at;
        ri_factors := factors; ri_context := context |}.

Definition factor (i : RiskInputs) (name : string) : option RiskFactor :=
  List.find (fun f => (rf_name f =? name)%string) (ri_factors i).

Definition risk_inputs_as_evidence (i : RiskInputs) : pyval :=
  pdict [("consequence_class", PStr (consequence_value (ri_consequence i)));
         ("exposure", pdict (exposure_as_evidence (ri_exposure i)));
         ("evaluated_at", PFloat (ri_evaluated_at i));
         ("factors", PList (map factor_as_evidence (ri_factors i)));
         ("context", pairs_dict (ri_context i))].

(** ** Scores *)

Record RiskScore := {
  rs_value : float;
  rs_model_version : string;
  rs_inputs : RiskInputs;
  rs_raw_value : float;
  rs_floor_applied : bool
}.

(** A negative [raw_value], the default, stands for [value] itself. *)
Definition mk_RiskScore (value : float) (model_version : string) (inputs : RiskInputs)
    (raw_value : float) (floor_applied : bool) : res RiskScore :=
  value ← require_score value "value";
  model_version ← require_identifier model_version "model_version";
  raw_value ← (if flt raw_value (fz 0) then Ok value else require_score raw_value "raw_value");
  _ ← raise_if (flt value raw_value) (DomainValidationError "value");
  Ok {| rs_value := value; rs_model_version := model_version; rs_inputs := inputs;
        rs_raw_value := raw_value; rs_floor_applied := floor_applied |}.

Definition score_level (s : RiskScore) : RiskLevel := band_of (rs_value s).
Definition score_raw_level (s : RiskScore) : RiskLevel := band_of (rs_raw_value s).

Definition with_consequence_floor (s : RiskScore) : res RiskScore :=
  let floor_level := CONSEQUENCE_FLOORS (ri_consequence (rs_inputs s)) in
  floor_value ← lower_bound_for floor_level;
  if fge (rs_value s) floor_value then Ok s
  else mk_RiskScore floor_value (rs_model_version s) (rs_inputs s) (rs_raw_value s) true.

Definition score_exceeds (s : RiskScore) (threshold : RiskLevel) : bool :=
  (risk_severity threshold <? risk_severity (score_level s))%Z.

Definition risk_score_as_evidence (s : RiskScore) : list (string * pyval) :=
  [("risk_score", PFloat (rs_value s)); ("risk_level", PStr (risk_level_value (score_level s)));
   ("risk_raw_score", PFloat (rs_raw_value s));
   ("risk_raw_level", PStr (risk_level_value (score_raw_level s)));
   ("risk_floor_applied", PBool (rs_floor_applied s));
   ("risk_model_ver", PStr (rs_model_version s));
   ("risk_inputs", risk_inputs_as_evidence (rs_inputs s))].

(** ** Banding *)

Lemma require_score_ok v f r :
  require_score v f = Ok r <->
  r = v /\ isfinite v = true /\ fle (fz 0) v = true /\ fle v (fz 100) = true.
Proof.
  unfold require_score. rewrite bind_ok. setoid_rewrite bind_ok.
  unfold MIN_RISK_SCORE, MAX_RISK_SCORE. setoid_rewrite raise_if_ok.
  setoid_rewrite negb_false_iff. setoid_rewrite andb_true_iff. split.
  - intros (_ & Hf & _ & [H0 H1] & [= <-]). done.
  - intros (-> & ? & ? & ?). by exists tt; split; [|exists tt].
Qed.

Definition score_range (v : float) : Prop :=
  isfinite v = true /\ fle (fz 0) v = true /\ fle v (fz 100) = true.

Lemma band_of_unfold v :
  fle (fz 0) v = true ->
  band_of v = if fle (fz 75) v then RISK_CRITICAL else if fle (fz 50) v then RISK_HIGH
              else if fle (fz 25) v then RISK_MEDIUM else RISK_LOW.
Proof.
  intros H. unfold band_of, RISK_BANDS. cbn [foldl fst snd]. rewrite !fge_fle, H. done.
Qed.

Lemma bounds_ordered : fle (fz 0) (fz 25) = true /\ fle (fz 25) (fz 50) = true /\
  fle (fz 50) (fz 75) = true /\ fle (fz 75) (fz 100) = true.
Proof. vm_compute. done. Qed.

Lemma lower_bound_for_eq l :
  lower_bound_for l = Ok (match l with
    | RISK_LOW => fz 0 | RISK_MEDIUM => fz 25 | RISK_HIGH => fz 50 | RISK_CRITICAL => fz 75 end).
Proof. by destruct l. Qed.

(** A score reaches a band exactly when it reaches the band's lower bound. *)
Lemma band_reaches v l b :
  fle (fz 0) v = true -> lower_bound_for l = Ok b ->
  ((risk_severity l <= risk_severity (band_of v))%Z <-> fle b v = true).
Proof.
  intros H0. rewrite lower_bound_for_eq, band_of_unfold by done. intros [= <-].
  destruct bounds_ordered as (H1 & H2 & H3 & _).
  destruct (fle (fz 75) v) eqn:E75; [|destruct (fle (fz 50) v) eqn:E50; [|destruct (fle (fz 25) v) eqn:E25]];
    destruct l; simpl; split; intros; try done; try lia; eauto using fle_trans;
    exfalso; repeat match goal with H : fle ?a v = false |- _ => apply not_true_iff_false in H; apply H end;
    eauto using fle_trans.
Qed.

Lemma from_score_range v : score_range v -> from_score v = Ok (band_of v).
Proof.
  intros H. unfold from_score. by rewrite (proj2 (require_score_ok v "score" v)).
Qed.

(** Banding is the single table read as intervals: for every score of the
    scale the band is reached from its own bound on and no higher bound is, and
    a larger score never has a lower band. *)
Theorem banding_is_monotone v w lv lw :
  from_score v = Ok lv -> from_score w = Ok lw ->
  (forall l b, lower_bound_for l = Ok b ->
     ((risk_severity l <= risk_severity lv)%Z <-> fle b v = true)) /\
  (fle v w = true -> (risk_severity lv <= risk_severity lw)%Z).
Proof.
  unfold from_score. intros Hv Hw.
  apply bind_ok in Hv as (? & Hv & [= <-]), Hw as (? & Hw & [= <-]).
  apply require_score_ok in Hv as (-> & _ & Hv & _), Hw as (-> & _ & Hw & _).
  split; [intros; by apply band_reaches|]. intros Hle.
  apply (band_reaches w _ _ Hw (lower_bound_for_eq _)).
  eapply fle_trans; [|exact Hle]. apply (band_reaches v _ _ Hv (lower_bound_for_eq _)). lia.
Qed.

Lemma banding_is_monotone_witness :
  (forall l b, lower_bound_for l = Ok b ->
     ((risk_severity l <= risk_severity RISK_MEDIUM)%Z <-> fle b (fz 30) = true)) /\
  (fle (fz 30) (fz 60) = true -> (risk_severity RISK_MEDIUM <= risk_severity RISK_HIGH)%Z).
Proof. apply (banding_is_monotone (fz 30) (fz 60)); vm_compute; reflexivity. Defined.

(** ** Floors *)

Definition score_wf (s : RiskScore) : Prop :=
  score_range (rs_value s) /\ score_range (rs_raw_value s) /\
  fle (rs_raw_value s) (rs_value s) = true /\ valid_id (rs_model_version s).

Lemma mk_RiskScore_wf v mv i r f s : mk_RiskScore v mv i r f = Ok s -> score_wf s.
Proof.
  unfold mk_RiskScore. intros H.
  apply bind_ok in H as (? & Hv & H). apply require_score_ok in Hv as (-> & Hf & Hv).
  apply bind_ok in H as (? & Hid & H). apply require_identifier_valid in Hid as [-> Hid].
  apply bind_ok in H as (r' & Hr & H). apply bind_ok in H as ([] & Hle & [= <-]).
  apply raise_if_ok in Hle.
  assert (score_range r') as Hr'.
  { destruct (flt r (fz 0)); [injection Hr as <-; done|]. apply require_score_ok in Hr as (-> & ?). done. }
  unfold score_wf. cbn. split_and!; try done. destruct Hr'. by apply flt_false_fle; auto with glassbox.
Qed.

Lemma floor_bound_range c b : lower_bound_for (CONSEQUENCE_FLOORS c) = Ok b -> score_range b.
Proof. rewrite lower_bound_for_eq. intros [= <-]. destruct c; vm_compute; done. Qed.

Lemma with_consequence_floor_spec s :
  score_wf s ->
  exists s', with_consequence_floor s = Ok s' /\ score_wf s' /\
    rs_inputs s' = rs_inputs s /\ rs_raw_value s' = rs_raw_value s /\
    fle (rs_value s) (rs_value s') = true /\
    (risk_severity (CONSEQUENCE_FLOORS (ri_consequence (rs_inputs s))) <= risk_severity (score_level s'))%Z.
Proof.
  intros Hwf. pose proof Hwf as ((Hf & H0 & H100) & Hraw & Hle & Hid). unfold with_consequence_floor.
  destruct (lower_bound_for _) as [b|] eqn:Eb; [|by rewrite lower_bound_for_eq in Eb].
  cbn [mbind res_bind]. rewrite fge_fle. destruct (fle b (rs_value s)) eqn:E.
  - exists s. split_and!; auto with glassbox. unfold score_level. by eapply band_reaches.
  - pose proof (floor_bound_range _ _ Eb) as (Hbf & Hb0 & Hb100).
    apply fle_false_flt in E; auto with glassbox.
    assert (Hrb : fle (rs_raw_value s) b = true) by (eapply fle_trans; eauto using flt_fle).
    assert (mk_RiskScore b (rs_model_version s) (rs_inputs s) (rs_raw_value s) true =
      Ok {| rs_value := b; rs_model_version := rs_model_version s; rs_inputs := rs_inputs s;
            rs_raw_value := rs_raw_value s; rs_floor_applied := true |}) as Hmk.
    { unfold mk_RiskScore. rewrite (proj2 (require_score_ok b "value" b)) by done. cbn [mbind res_bind].
      rewrite (proj2 (require_identifier_valid _ "model_version" _) (conj eq_refl Hid)). cbn [mbind res_bind].
      destruct Hraw as (Hr1 & Hr2 & Hr3). destruct (flt (rs_raw_value s) (fz 0)) eqn:Er.
      { rewrite fle_negb_flt, Er in Hr2 by auto with glassbox. done. }
      rewrite (proj2 (require_score_ok _ "raw_value" _) (conj eq_refl (conj Hr1 (conj Hr2 Hr3)))).
      cbn [mbind res_bind]. rewrite fle_negb_flt in Hrb by auto with glassbox.
      apply negb_true_iff in Hrb. by rewrite Hrb. }
    eexists. split; [exact Hmk|]. split; [by eapply mk_RiskScore_wf|]. cbn.
    split_and!; auto with glassbox. unfold score_level. cbn. by eapply band_reaches; auto with glassbox.
Qed.

(** The consequence floor: applied to any score that constructs it
    succeeds, never lowers the score, keeps the raw score and the inputs,
    reaches at least the band its consequence class demands, and applying it
    again changes nothing. *)
Theorem consequence_floor_holds v mv i r f s :
  mk_RiskScore v mv i r f = Ok s ->
  exists s', with_consequence_floor s = Ok s' /\
    rs_inputs s' = rs_inputs s /\ rs_raw_value s' = rs_raw_value s /\
    fle (rs_value s) (rs_value s') = true /\
    (risk_severity (CONSEQUENCE_FLOORS (ri_consequence (rs_inputs s))) <= risk_severity (score_level s'))%Z /\
    with_consequence_floor s' = Ok s'.
Proof.
  intros Hwf%mk_RiskScore_wf.
  destruct (with_consequence_floor_spec s Hwf) as (s' & Hs' & Hwf' & Hi & Hr & Hle & Hlev).
  exists s'. split_and!; try done. unfold with_consequence_floor. rewrite Hi.
  destruct (lower_bound_for _) as [b|] eqn:Eb; [|by rewrite lower_bound_for_eq in Eb].
  cbn [mbind res_bind]. rewrite fge_fle. destruct Hwf' as ((_ & H0 & _) & _).
  by rewrite (proj1 (band_reaches _ _ _ H0 Eb) Hlev).
Qed.

Definition sample_inputs : RiskInputs :=
  {| ri_consequence := IRREVERSIBLE; ri_exposure := sample_exposure 5; ri_evaluated_at := fz 20;
     ri_factors := []; ri_context := [] |}.

Definition sample_score : RiskScore :=
  {| rs_value := fz 3; rs_model_version := "m1"; rs_inputs := sample_inputs;
     rs_raw_value := fz 3; rs_floor_applied := false |}.

Lemma consequence_floor_holds_witness :
  exists s', with_consequence_floor sample_score = Ok s' /\
    rs_inputs s' = sample_inputs /\ rs_raw_value s' = fz 3 /\
    fle (fz 3) (rs_value s') = true /\
    (risk_severity RISK_HIGH <= risk_severity (score_level s'))%Z /\
    with_consequence_floor s' = Ok s'.
Proof.
  apply (consequence_floor_holds (fz 3) "m1" sample_inputs (fz (-1)) false sample_score).
  vm_compute. reflexivity.
Defined.
