(* ===== verification/Decision.v ===== *)
(** * Decisions, approvals, stages and outcomes ([glassbox/domain/decision.py]) *)

From stdpp Require Import base tactics list strings relations.
From Stdlib Require Import ZArith Lia.
From S2P Require Import Prelude PyFloat PyStr Serialization Action Identity.

Open Scope string_scope.
Open Scope list_scope.

Inductive DecisionEffect := DENY | REQUIRE_APPROVAL | ALLOW.
#[export] Instance DecisionEffect_eq_dec : EqDecision DecisionEffect.
Proof. solve_decision. Defined.

Definition effect_value (e : DecisionEffect) : string :=
  match e with DENY => "deny" | REQUIRE_APPROVAL => "require_approval" | ALLOW => "allow" end.

Definition effect_permits_dispatch (e : DecisionEffect) : bool :=
  match e with ALLOW => true | _ => false end.

Inductive DenialReason :=
| IDENTITY_UNVERIFIED | CREDENTIAL_EXPIRED | DELEGATION_INVALID | ACTION_NOT_GOVERNED
| ATTESTATION_NOT_SATISFIED | MANDATE_MISSING | MANDATE_REVOKED | MANDATE_EXCEEDED
| TOOL_NOT_GOVERNED | DENIED_TOOL_DEFINITION_CHANGED | POLICY_DENIED | POLICY_BUNDLE_UNAVAILABLE
| RISK_THRESHOLD_EXCEEDED | LIMIT_EXCEEDED | BASELINE_ANOMALY | DEPENDENCY_UNAVAILABLE
| MANDATORY_STAGE_SKIPPED | EVIDENCE_WRITE_FAILED | KILL_SWITCH_ENGAGED | PARAMETERS_INVALID
| PROMPT_INJECTION_DETECTED.
#[export] Instance DenialReason_eq_dec : EqDecision DenialReason.
Proof. solve_decision. Defined.

Definition denial_reason_value (r : DenialReason) : string :=
  match r with
  | IDENTITY_UNVERIFIED => "identity_unverified"
  | CREDENTIAL_EXPIRED => "credential_expired"
  | DELEGATION_INVALID => "delegation_invalid"
  | ACTION_NOT_GOVERNED => "action_not_governed"
  | ATTESTATION_NOT_SATISFIED => "attestation_not_satisfied"
  | MANDATE_MISSING => "mandate_missing"
  | MANDATE_REVOKED => "mandate_revoked"
  | MANDATE_EXCEEDED => "mandate_exceeded"
  | TOOL_NOT_GOVERNED => "tool_not_governed"
  | DENIED_TOOL_DEFINITION_CHANGED => "tool_definition_changed"
  | POLICY_DENIED => "policy_denied"
  | POLICY_BUNDLE_UNAVAILABLE => "policy_bundle_unavailable"
  | RISK_THRESHOLD_EXCEEDED => "risk_threshold_exceeded"
  | LIMIT_EXCEEDED => "limit_exceeded"
  | BASELINE_ANOMALY => "baseline_anomaly"
  | DEPENDENCY_UNAVAILABLE => "dependency_unavailable"
  | MANDATORY_STAGE_SKIPPED => "mandatory_stage_skipped"
  | EVIDENCE_WRITE_FAILED => "evidence_write_failed"
  | KILL_SWITCH_ENGAGED => "kill_switch_engaged"
  | PARAMETERS_INVALID => "parameters_invalid"
  | PROMPT_INJECTION_DETECTED => "prompt_injection_detected"
  end.

Inductive ApprovalState :=
| APPROVAL_PENDING | IN_REVIEW | APPROVED | REJECTED | APPROVAL_REVOKED | APPROVAL_EXPIRED.
#[export] Instance ApprovalState_eq_dec : EqDecision ApprovalState.
Proof. solve_decision. Defined.

Definition approval_state_value (s : ApprovalState) : string :=
  match s with
  | APPROVAL_PENDING => "pending" | IN_REVIEW => "in_review" | APPROVED => "approved"
  | REJECTED => "rejected" | APPROVAL_REVOKED => "revoked" | APPROVAL_EXPIRED => "expired"
  end.

Definition approval_state_is_terminal (s : ApprovalState) : bool :=
  match s with APPROVED | REJECTED | APPROVAL_REVOKED | APPROVAL_EXPIRED => true | _ => false end.

(** ** Approvals *)

Record Approval := {
  ap_approval_id : string;
  ap_decision_id : string;
  ap_tenant_id : string;
  ap_action : ProposedAction;
  ap_rationale : string;
  ap_state : ApprovalState;
  ap_requested_at : float;
  ap_reviewed_at : option float;
  ap_reviewed_by : option string;
  ap_notes : string;
  ap_expires_at : option float;
  ap_revoked_at : option float
}.

Definition mk_Approval (approval_id decision_id tenant_id : string) (action : ProposedAction)
    (rationale : string) (state : ApprovalState) (requested_at : float) (reviewed_at : option float)
    (reviewed_by : option string) (notes : string) (expires_at revoked_at : option float)
    : res Approval :=
  approval_id ← require_identifier approval_id "approval_id";
  decision_id ← require_identifier decision_id "decision_id";
  tenant_id ← require_identifier tenant_id "tenant_id";
  _ ← require_non_empty rationale "rationale";
  requested_at ← require_timestamp requested_at "requested_at";
  reviewed_at ← res_opt (fun t => require_timestamp t "reviewed_at") reviewed_at;
  reviewed_by ← res_opt (fun a => require_identifier a "reviewed_by") reviewed_by;
  expires_at ← res_opt (fun t => require_timestamp t "expires_at") expires_at;
  revoked_at ← res_opt (fun t => require_timestamp t "revoked_at") revoked_at;
  _ ← raise_if (negb (pa_tenant_id action =? tenant_id)%string) (DomainValidationError "action");
  Ok {| ap_approval_id := approval_id; ap_decision_id := decision_id; ap_tenant_id := tenant_id;
        ap_action := action; ap_rationale := rationale; ap_state := state;
        ap_requested_at := requested_at; ap_reviewed_at := reviewed_at;
        ap_reviewed_by := reviewed_by; ap_notes := notes; ap_expires_at := expires_at;
        ap_revoked_at := revoked_at |}.

(** [valid_next_states]. *)
Definition valid_next_states (s : ApprovalState) : list ApprovalState :=
  match s with
  | APPROVAL_PENDING => [IN_REVIEW; REJECTED; APPROVAL_REVOKED; APPROVAL_EXPIRED]
  | IN_REVIEW => [APPROVED; REJECTED; APPROVAL_REVOKED; APPROVAL_EXPIRED]
  | _ => []
  end.

(** [a or b] on optional strings. *)
Definition opt_str_or (a b : option string) : option string :=
  match a with Some s => if str_is_empty s then b else a | None => b end.

Definition approval_transition (a : Approval) (state : ApprovalState) (actor : option string)
    (notes : string) (reviewed_at : option float) : res Approval :=
  _ ← raise_if (negb (bool_decide (state ∈ valid_next_states (ap_state a))))
        (DomainValidationError "state");
  mk_Approval (ap_approval_id a) (ap_decision_id a) (ap_tenant_id a) (ap_action a) (ap_rationale a)
    state (ap_requested_at a)
    (match reviewed_at with Some t => Some t | None => ap_reviewed_at a end)
    (opt_str_or actor (ap_reviewed_by a)) (str_or notes (ap_notes a))
    (ap_expires_at a) (ap_revoked_at a).

(** ** Obligations *)

Inductive ObligationKind :=
| NOTIFY | REDACT | RATE_CAP | DUAL_CONTROL | RECORD_JUSTIFICATION | POST_EXECUTION_REVIEW.

Definition obligation_kind_value (k : ObligationKind) : string :=
  match k with
  | NOTIFY => "notify" | REDACT => "redact" | RATE_CAP => "rate_cap"
  | DUAL_CONTROL => "dual_control" | RECORD_JUSTIFICATION => "record_justification"
  | POST_EXECUTION_REVIEW => "post_execution_review"
  end.

Record Obligation := {
  ob_kind : ObligationKind;
  ob_obligation_id : string;
  ob_blocking : bool;
  ob_parameters : list (string * pyval)
}.

Definition mk_Obligation (kind : ObligationKind) (obligation_id : string) (blocking : bool)
    (parameters : pairs_arg) : res Obligation :=
  obligation_id ← require_identifier obligation_id "obligation_id";
  parameters ← freeze_pairs parameters "parameters";
  Ok {| ob_kind := kind; ob_obligation_id := obligation_id; ob_blocking := blocking;
        ob_parameters := parameters |}.

Definition obligation_as_evidence (o : Obligation) : pyval :=
  pdict [("kind", PStr (obligation_kind_value (ob_kind o)));
         ("obligation_id", PStr (ob_obligation_id o)); ("blocking", PBool (ob_blocking o));
         ("parameters", pairs_dict (ob_parameters o))].

(** ** Requests *)

Record AuthorizationRequest := {
  aq_decision_id : string;
  aq_principal : VerifiedPrincipal;
  aq_action : ProposedAction;
  aq_evaluated_at : float;
  aq_attributes : list (string * pyval)
}.

Definition mk_AuthorizationRequest (decision_id : string) (principal : VerifiedPrincipal)
    (action : ProposedAction) (evaluated_at : float) (attributes : pairs_arg)
    : res AuthorizationRequest :=
  decision_id ← require_identifier decision_id "decision_id";
  evaluated_at ← require_timestamp evaluated_at "evaluated_at";
  attributes ← freeze_pairs attributes "attributes";
  _ ← raise_if (negb (vp_tenant_id principal =? pa_tenant_id action)%string)
        (DomainValidationError "action");
  Ok {| aq_decision_id := decision_id; aq_principal := principal; aq_action := action;
        aq_evaluated_at := evaluated_at; aq_attributes := attributes |}.

Definition aq_tenant_id (r : AuthorizationRequest) : string := vp_tenant_id (aq_principal r).
Definition aq_attribute (r : AuthorizationRequest) (name : string) (default : pyval) : pyval :=
  lookup_pair name (aq_attributes r) default.

(** ** Authorization decisions *)

Record AuthorizationDecision := {
  ad_effect : DecisionEffect;
  ad_reasons : list DenialReason;
  ad_rationale : string;
  ad_policy_bundle_id : option string;
  ad_policy_bundle_sha256 : option string;
  ad_matched_rules : list string;
  ad_obligations : list Obligation;
  ad_approval_id : option string;
  ad_approval_state : option ApprovalState
}.

Definition is_some {A} (o : option A) : bool := match o with Some _ => true | None => false end.
Definition is_nil {A} (l : list A) : bool := match l with [] => true | _ => false end.

Definition mk_AuthorizationDecision (effect : DecisionEffect) (reasons : list DenialReason)
    (rationale : string) (policy_bundle_id policy_bundle_sha256 : option string)
    (matched_rules : list string) (obligations : list Obligation) (approval_id : option string)
    (approval_state : option ApprovalState) : res AuthorizationDecision :=
  _ ← require_non_empty rationale "rationale";
  _ ← res_map (fun r => require_identifier r "matched_rules") matched_rules;
  policy_bundle_id ← res_opt (fun b => require_identifier b "policy_bundle_id") policy_bundle_id;
  policy_bundle_sha256 ←
    res_opt (fun b => require_sha256_hex b "policy_bundle_sha256") policy_bundle_sha256;
  approval_id ← res_opt (fun a => require_identifier a "approval_id") approval_id;
  approval_state ← (
    match effect with
    | REQUIRE_APPROVAL =>
        Ok (match approval_state with Some s => Some s | None => Some APPROVAL_PENDING end)
    | _ =>
        if is_some approval_id || is_some approval_state
        then Raise (DomainValidationError "approval_id")
        else Ok approval_state
    end);
  let denied := match effect with DENY => true | _ => false end in
  _ ← raise_if (denied && is_nil reasons) (DomainValidationError "reasons");
  _ ← raise_if (negb denied && negb (is_nil reasons)) (DomainValidationError "reasons");
  _ ← raise_if (negb denied && (negb (is_some policy_bundle_id) || negb (is_some policy_bundle_sha256)))
        (DomainValidationError "policy_bundle_sha256");
  _ ← raise_if (negb (is_nil obligations) && denied) (DomainValidationError "obligations");
  Ok {| ad_effect := effect; ad_reasons := reasons; ad_rationale := rationale;
        ad_policy_bundle_id := policy_bundle_id; ad_policy_bundle_sha256 := policy_bundle_sha256;
        ad_matched_rules := matched_rules; ad_obligations := obligations;
        ad_approval_id := approval_id; ad_approval_state := approval_state |}.

Definition decision_deny (reasons : list DenialReason) (rationale : string)
    (policy_bundle_id policy_bundle_sha256 : option string) (matched_rules : list string)
    : res AuthorizationDecision :=
  _ ← raise_if (is_nil reasons) (DomainValidationError "reasons");
  mk_AuthorizationDecision DENY reasons rationale policy_bundle_id policy_bundle_sha256
    matched_rules [] None None.

Definition decision_allow (rationale policy_bundle_id policy_bundle_sha256 : string)
    (matched_rules : list string) (obligations : list Obligation) : res AuthorizationDecision :=
  mk_AuthorizationDecision ALLOW [] rationale (Some policy_bundle_id) (Some policy_bundle_sha256)
    matched_rules obligations None None.

Definition decision_require_approval (rationale policy_bundle_id policy_bundle_sha256 : string)
    (matched_rules : list string) (obligations : list Obligation) (approval_id : option string)
    (approval_state : option ApprovalState) : res AuthorizationDecision :=
  mk_AuthorizationDecision REQUIRE_APPROVAL [] rationale (Some policy_bundle_id)
    (Some policy_bundle_sha256) matched_rules obligations approval_id approval_state.

Definition is_denied (d : AuthorizationDecision) : bool := bool_decide (ad_effect d = DENY).
Definition blocking_obligations (d : AuthorizationDecision) : list Obligation :=
  List.filter ob_blocking (ad_obligations d).
Definition permits_dispatch (d : AuthorizationDecision) : bool :=
  effect_permits_dispatch (ad_effect d).

Definition decision_as_evidence (d : AuthorizationDecision) : pyval :=
  pdict ([("effect", PStr (effect_value (ad_effect d)));
          ("reasons", p_strs (map denial_reason_value (ad_reasons d)));
          ("rationale", PStr (ad_rationale d));
          ("policy_bundle_id", p_str_opt (ad_policy_bundle_id d));
          ("policy_bundle_sha256", p_str_opt (ad_policy_bundle_sha256 d));
          ("matched_rules", p_strs (ad_matched_rules d));
          ("obligations", PList (map obligation_as_evidence (ad_obligations d)))]
    ++ match ad_approval_id d with Some a => [("approval_id", PStr a)] | None => [] end
    ++ match ad_approval_state d with
       | Some s => [("approval_state", PStr (approval_state_value s))]
       | None => []
       end).

(** ** Stages and outcomes *)

Inductive StageStatus := STAGE_EXECUTED | STAGE_SKIPPED | STAGE_FAILED.
#[export] Instance StageStatus_eq_dec : EqDecision StageStatus.
Proof. solve_decision. Defined.

Definition stage_status_value (s : StageStatus) : string :=
  match s with
  | STAGE_EXECUTED => "executed" | STAGE_SKIPPED => "skipped" | STAGE_FAILED => "failed"
  end.

Record StageOutcome := {
  so_stage : string;
  so_status : StageStatus;
  so_duration_ms : float;
  so_reason : option string
}.

Definition mk_StageOutcome (stage : string) (status : StageStatus) (duration_ms : float)
    (reason : option string) : res StageOutcome :=
  stage ← require_identifier stage "stage";
  duration_ms ← require_non_negative duration_ms "duration_ms";
  _ ← match status, reason with
      | STAGE_EXECUTED, _ => Ok ""
      | _, None => Raise (DomainValidationError "reason")
      | _, Some r => require_non_empty r "reason"
      end;
  Ok {| so_stage := stage; so_status := status; so_duration_ms := duration_ms; so_reason := reason |}.

Definition is_missing_control (s : StageOutcome) : bool :=
  negb (bool_decide (so_status s = STAGE_EXECUTED)).

Definition stage_as_evidence (s : StageOutcome) : pyval :=
  pdict [("stage", PStr (so_stage s)); ("status", PStr (stage_status_value (so_status s)));
         ("duration_ms", PFloat (so_duration_ms s)); ("reason", p_str_opt (so_reason s))].

Inductive ExecutionStatus :=
| EXECUTED | FAILED | INDETERMINATE | ABANDONED | DENIED | PENDING_APPROVAL | REPLAYED.
#[export] Instance ExecutionStatus_eq_dec : EqDecision ExecutionStatus.
Proof. solve_decision. Defined.

Definition execution_status_value (s : ExecutionStatus) : string :=
  match s with
  | EXECUTED => "executed" | FAILED => "failed" | INDETERMINATE => "indeterminate"
  | ABANDONED => "abandoned" | DENIED => "denied" | PENDING_APPROVAL => "pending_approval"
  | REPLAYED => "replayed"
  end.

Definition execution_is_terminal (s : ExecutionStatus) : bool :=
  negb (bool_decide (s = PENDING_APPROVAL)).

Record ExecutionOutcome := {
  eo_status : ExecutionStatus;
  eo_completed_at : float;
  eo_result_digest : option string;
  eo_error_class : option string
}.

Definition mk_ExecutionOutcome (status : ExecutionStatus) (completed_at : float)
    (result_digest error_class : option string) : res ExecutionOutcome :=
  completed_at ← require_timestamp completed_at "completed_at";
  result_digest ← res_opt (fun d => require_sha256_hex d "result_digest") result_digest;
  _ ← res_opt (fun c => require_non_empty c "error_class") error_class;
  _ ← raise_if (bool_decide (status = FAILED) && negb (is_some error_class))
        (DomainValidationError "error_class");
  Ok {| eo_status := status; eo_completed_at := completed_at; eo_result_digest := result_digest;
        eo_error_class := error_class |}.

Definition outcome_as_evidence (o : ExecutionOutcome) : pyval :=
  pdict [("status", PStr (execution_status_value (eo_status o)));
         ("completed_at", PFloat (eo_completed_at o));
         ("result_digest", p_str_opt (eo_result_digest o));
         ("error_class", p_str_opt (eo_error_class o))].

(** ** What a decision that constructs satisfies *)

Record decision_wf (d : AuthorizationDecision) : Prop := {
  dwf_deny : ad_effect d = DENY ->
    ad_reasons d <> [] /\ ad_obligations d = [] /\ ad_approval_id d = None /\
    ad_approval_state d = None;
  dwf_grant : ad_effect d <> DENY ->
    ad_reasons d = [] /\ is_Some (ad_policy_bundle_id d) /\ is_Some (ad_policy_bundle_sha256 d);
  dwf_allow : ad_effect d = ALLOW -> ad_approval_id d = None /\ ad_approval_state d = None;
  dwf_approval : ad_effect d = REQUIRE_APPROVAL -> is_Some (ad_approval_state d)
}.

Lemma is_nil_true {A} (l : list A) : is_nil l = true <-> l = [].
Proof. by destruct l. Qed.

Lemma is_some_true {A} (o : option A) : is_some o = true <-> is_Some o.
Proof. by destruct o; simpl; split; intros H; try done; destruct H. Qed.

Lemma mk_AuthorizationDecision_wf e rs ra bi bs mr ob ai st d :
  mk_AuthorizationDecision e rs ra bi bs mr ob ai st = Ok d ->
  decision_wf d /\ ad_effect d = e /\ ad_reasons d = rs /\ ad_rationale d = ra.
Proof.
  unfold mk_AuthorizationDecision. intros H. inv_ok. subst d.
  split; [|done]. destruct e; cbn in *; inv_ok; subst;
    repeat match goal with
    | H : context [if is_some ?a || is_some ?b then _ else _] |- _ =>
        destruct a, b; cbn in H; try discriminate H
    | H : Ok _ = Ok _ |- _ => injection H as <-
    | H : is_nil ?l = false |- _ => destruct l; cbn in H; try discriminate H
    | H : negb (is_nil ?l) = false |- _ => destruct l; cbn in H; try discriminate H
    | H : negb (is_nil ?l) && true = false |- _ => destruct l; cbn in H; try discriminate H
    | H : negb (is_some ?a) || negb (is_some ?b) = false |- _ =>
        destruct a, b; cbn in H; try discriminate H
    end; constructor; cbn; intros; try discriminate; try congruence; eauto.
  case_match; eauto.
Qed.

(** Every authorization decision that constructs is explained: a denial
    names at least one reason and carries neither obligations nor approval
    metadata; an allow or a require-approval carries no denial reason and cites
    the policy bundle and its digest; only a require-approval has an approval
    state, and it always has one. *)
Theorem decisions_are_explained e rs ra bi bs mr ob ai st d :
  mk_AuthorizationDecision e rs ra bi bs mr ob ai st = Ok d ->
  decision_wf d /\ (permits_dispatch d = true <-> e = ALLOW).
Proof.
  intros H%mk_AuthorizationDecision_wf. destruct H as (Hwf & He & _). split; [done|].
  unfold permits_dispatch. rewrite He. by destruct e.
Qed.

(** The citation a constructed decision carries is the one it was given. *)
Lemma decision_cites e rs ra bid digest mr ob ai st d :
  mk_AuthorizationDecision e rs ra (Some bid) (Some digest) mr ob ai st = Ok d ->
  ad_effect d = e /\ ad_reasons d = rs /\ ad_matched_rules d = mr /\ ad_obligations d = ob /\
  ad_policy_bundle_id d = Some bid /\ ad_policy_bundle_sha256 d = Some (lower digest).
Proof.
  unfold mk_AuthorizationDecision. intros H. inv_ok. subst d. cbn.
  repeat match goal with
  | H : res_opt _ (Some _) = Ok _ |- _ =>
      apply res_opt_ok in H as [(? & _)|(? & ? & [= <-] & H & ->)]; [discriminate|]
  | H : require_identifier _ _ = Ok _ |- _ => apply require_identifier_valid in H as [-> ?]
  | H : require_sha256_hex _ _ = Ok _ |- _ => apply require_sha256_hex_ok in H as (-> & _)
  end. done.
Qed.

Definition sample_digest : string :=
  "e3b0c44298fc1c149afbf4c8996fb92427ae41e4649b934ca495991b7852b855".

Definition sample_allow : AuthorizationDecision :=
  {| ad_effect := ALLOW; ad_reasons := []; ad_rationale := "ok"; ad_policy_bundle_id := Some "b1";
     ad_policy_bundle_sha256 := Some sample_digest; ad_matched_rules := ["r1"];
     ad_obligations := []; ad_approval_id := None; ad_approval_state := None |}.

Lemma decisions_are_explained_witness :
  decision_wf sample_allow /\ (permits_dispatch sample_allow = true <-> ALLOW = ALLOW).
Proof.
  apply (decisions_are_explained ALLOW [] "ok" (Some "b1") (Some sample_digest) ["r1"] [] None None).
  vm_compute. reflexivity.
Defined.

(** ** The approval state machine *)

Lemma mk_Approval_ok ai di ti ac ra st rq rv rb nt ex rk a :
  mk_Approval ai di ti ac ra st rq rv rb nt ex rk = Ok a ->
  ap_approval_id a = ai /\ ap_decision_id a = di /\ ap_tenant_id a = ti /\ ap_action a = ac /\
  ap_rationale a = ra /\ ap_state a = st /\ ap_requested_at a = rq /\ pa_tenant_id ac = ti.
Proof.
  unfold mk_Approval. intros H. inv_ok. subst a. cbn.
  repeat match goal with
  | H : require_identifier _ _ = Ok _ |- _ => apply require_identifier_valid in H as [-> ?]
  | H : require_timestamp _ _ = Ok _ |- _ => apply require_timestamp_ok in H as (-> & _)
  | H : negb _ = false |- _ => apply negb_false_iff, String.eqb_eq in H
  end. split_and!; done.
Qed.

(** One transition, by whoever and whenever. *)
Definition approval_step (a b : Approval) : Prop :=
  exists state actor notes reviewed_at, approval_transition a state actor notes reviewed_at = Ok b.

(** What identifies an approval and never changes. *)
Definition approval_identity (a : Approval) :=
  (ap_approval_id a, ap_decision_id a, ap_tenant_id a, ap_action a, ap_rationale a, ap_requested_at a).

Lemma approval_transition_ok a s ac n t b :
  approval_transition a s ac n t = Ok b ->
  s ∈ valid_next_states (ap_state a) /\ ap_state b = s /\ approval_identity b = approval_identity a.
Proof.
  unfold approval_transition. intros H. inv_ok.
  match goal with H : negb _ = false |- _ => apply negb_false_iff, bool_decide_eq_true in H end.
  match goal with H : mk_Approval _ _ _ _ _ _ _ _ _ _ _ _ = Ok _ |- _ =>
    apply mk_Approval_ok in H as (? & ? & ? & ? & ? & ? & ? & ?) end.
  unfold approval_identity. split_and!; congruence.
Qed.

Lemma approval_step_states a b :
  approval_step a b ->
  ap_state b ∈ valid_next_states (ap_state a) /\ approval_identity b = approval_identity a.
Proof. intros (s & ac & n & t & H). apply approval_transition_ok in H as (? & -> & ?). done. Qed.

Lemma terminal_no_next s : approval_state_is_terminal s = true <-> valid_next_states s = [].
Proof. by destruct s. Qed.

(** The approval life cycle, over any run of transitions: what the
    approval is about never changes; a terminal state is final (every further
    transition raises and changes nothing); and an approval that starts pending
    and ends approved was in review on the way. *)
Theorem approval_life_cycle a b :
  rtc approval_step a b ->
  approval_identity b = approval_identity a /\
  (approval_state_is_terminal (ap_state a) = true ->
     b = a /\ forall s ac n t, approval_transition a s ac n t = Raise (DomainValidationError "state")) /\
  (ap_state a = APPROVAL_PENDING -> ap_state b = APPROVED ->
     exists c, rtc approval_step a c /\ ap_state c = IN_REVIEW /\ rtc approval_step c b).
Proof.
  intros Hrun. split_and!.
  - induction Hrun as [|x y z Hs _ IH]; [done|]. rewrite IH. by apply approval_step_states in Hs as [_ ->].
  - intros Ht%terminal_no_next. split.
    + inversion Hrun as [|? y ? Hs]; subst; [done|]. apply approval_step_states in Hs as [Hs _].
      rewrite Ht in Hs. by apply not_elem_of_nil in Hs.
    + intros s ac n t. unfold approval_transition. rewrite Ht.
      by rewrite bool_decide_eq_false_2 by apply not_elem_of_nil.
  - intros Ha Hb. apply rtc_inv_r in Hrun as [<-|(c & Hac & Hcb)]; [congruence|].
    exists c. split_and!; [done | | by apply rtc_once].
    apply approval_step_states in Hcb as [Hcb _]. rewrite Hb in Hcb.
    destruct (ap_state c) eqn:Ec; try (by apply not_elem_of_nil in Hcb); [|done].
    cbn in Hcb. set_solver.
Qed.

Definition sample_approval (s : ApprovalState) : Approval :=
  {| ap_approval_id := "ap1"; ap_decision_id := "d1"; ap_tenant_id := "t1";
     ap_action := sample_action "x"; ap_rationale := "needs a human"; ap_state := s;
     ap_requested_at := fz 10; ap_reviewed_at := None; ap_reviewed_by := None; ap_notes := "";
     ap_expires_at := None; ap_revoked_at := None |}.

Lemma approval_life_cycle_witness :
  rtc approval_step (sample_approval APPROVAL_PENDING) (sample_approval APPROVED) /\
  exists c, rtc approval_step (sample_approval APPROVAL_PENDING) c /\ ap_state c = IN_REVIEW /\
            rtc approval_step c (sample_approval APPROVED).
Proof.
  assert (Hrun : rtc approval_step (sample_approval APPROVAL_PENDING) (sample_approval APPROVED)).
  { eapply rtc_l; [exists IN_REVIEW, None, "", None; vm_compute; reflexivity|].
    eapply rtc_once. exists APPROVED, None, "", None. vm_compute. reflexivity. }
  split; [exact Hrun|]. by apply (approval_life_cycle _ _ Hrun).
Defined.

(** ** Requests stay inside one tenant *)

Lemma mk_AuthorizationRequest_ok d p a t at_ r :
  mk_AuthorizationRequest d p a t at_ = Ok r ->
  aq_decision_id r = d /\ aq_principal r = p /\ aq_action r = a /\ aq_evaluated_at r = t /\
  vp_tenant_id p = pa_tenant_id a /\ valid_id d.
Proof.
  unfold mk_AuthorizationRequest. intros H. inv_ok. subst r. cbn.
  repeat match goal with
  | H : require_identifier _ _ = Ok _ |- _ => apply require_identifier_valid in H as [-> ?]
  | H : require_timestamp _ _ = Ok _ |- _ => apply require_timestamp_ok in H as (-> & _)
  | H : negb _ = false |- _ => apply negb_false_iff, String.eqb_eq in H
  end. done.
Qed.

Lemma mk_StageOutcome_ok s st d r o :
  mk_StageOutcome s st d r = Ok o -> o = {| so_stage := s; so_status := st; so_duration_ms := d; so_reason := r |}.
Proof.
  unfold mk_StageOutcome. intros H. inv_ok.
  repeat match goal with
  | H : require_identifier _ _ = Ok _ |- _ => apply require_identifier_valid in H as [-> ?]
  | H : require_non_negative _ _ = Ok _ |- _ => apply require_non_negative_ok in H as (-> & _)
  end. by subst.
Qed.

Lemma mk_ExecutionOutcome_ok s t d e o :
  mk_ExecutionOutcome s t d e = Ok o -> eo_status o = s /\ eo_completed_at o = t.
Proof.
  unfold mk_ExecutionOutcome. intros H. inv_ok. subst o. cbn.
  repeat match goal with
  | H : require_timestamp _ _ = Ok _ |- _ => apply require_timestamp_ok in H as (-> & _)
  end. done.
Qed.
