(* ===== verification/Config.v ===== *)
(** * Configuration ([glassbox/app/config.py], [glassbox/app/errors.py])

    The validated configuration of a process, built from environment variables
    or from nested settings held as text.  An error carries every violation it
    reports, so errors here are values with their violations.  A value of
    [from_mapping] that is not text is passed through unchanged by the code and
    is not modelled; the settings of a section are then those a caller of the
    constructor supplies. *)

From stdpp Require Import base tactics list strings gmap.
From Stdlib Require Import ZArith Lia Ascii Floats.SpecFloat.
From S2P Require Import Prelude PyFloat PyStr Serialization Action Risk.

Open Scope string_scope.
Open Scope list_scope.

(** ** Errors *)

Inductive config_error :=
| ConfigurationError (violations : list string)
| ProfileViolationError (violations : list string)
| FieldError (e : exn).

Abbreviation cfg := (sum config_error).

#[export] Instance cfg_bind : MBind cfg :=
  fun _ _ f m => match m with inr a => f a | inl e => inl e end.

Definition of_res {A} (r : res A) : cfg A := match r with Ok a => inr a | Raise e => inl (FieldError e) end.

Definition reject_if (violations : list string) : cfg unit :=
  match violations with [] => inr tt | _ => inl (ConfigurationError violations) end.

(** A violation listed when its condition holds. *)
Definition violation_if (c : bool) (text : string) : list string := if c then [text] else [].

(** ** Profiles *)

Inductive RuntimeProfile := DEV | PROD.

Definition profile_value (p : RuntimeProfile) : string := match p with DEV => "dev" | PROD => "prod" end.
Definition permits_dev_only_adapters (p : RuntimeProfile) : bool := match p with DEV => true | PROD => false end.
Definition permits_unsafe_switches (p : RuntimeProfile) : bool := match p with DEV => true | PROD => false end.
Definition provides_assurance (p : RuntimeProfile) : bool := match p with DEV => false | PROD => true end.

(** ** Parsing *)

(** [str.strip]. *)
Fixpoint lstrip (s : string) : string :=
  match s with
  | EmptyString => EmptyString
  | String c s' => if is_space c then lstrip s' else s
  end.
Definition strip (s : string) : string := rev_str (lstrip (rev_str (lstrip s) "")) "".

Definition TRUE_LITERALS : list string := ["1"; "true"; "yes"; "on"].
Definition FALSE_LITERALS : list string := ["0"; "false"; "no"; "off"].

Definition parse_bool (raw key : string) : cfg bool :=
  let normalised := lower (strip raw) in
  if bool_decide (normalised ∈ TRUE_LITERALS) then inr true
  else if bool_decide (normalised ∈ FALSE_LITERALS) then inr false
  else inl (ConfigurationError
              [key +:+ "=" +:+ str_repr raw +:+ " (expected one of true/false/1/0/yes/no/on/off)"]).

(** Digits, with single underscores between them allowed and left out. *)
Fixpoint digits_from (after_digit : bool) (s : string) : option string :=
  match s with
  | EmptyString => if after_digit then Some "" else None
  | String c s' =>
      if is_digit c then String c <$> digits_from true s'
      else if Ascii.eqb c "_"%char && after_digit then digits_from false s'
      else None
  end.

Fixpoint digits_value (acc : Z) (s : string) : Z :=
  match s with EmptyString => acc | String c s' => digits_value (acc * 10 + digit_val c) s' end.

(** [int(s)] for a text, on the characters of ASCII. *)
Definition int_of_text (s : string) : option Z :=
  let unsigned s := digits_value 0 <$> digits_from false s in
  match strip s with
  | String "-" s' => Z.opp <$> unsigned s'
  | String "+" s' => unsigned s'
  | s' => unsigned s'
  end.

Definition parse_int (raw key : string) : cfg Z :=
  match int_of_text raw with
  | Some z => inr z
  | None => inl (ConfigurationError [key +:+ "=" +:+ str_repr raw])
  end.

(** [float(s)] for a text: the special values, or a decimal literal, whose
    digit groups may hold single underscores. *)
Definition digit_group (s : string) : option string :=
  if str_is_empty s then Some "" else digits_from false s.

Fixpoint split_first (f : ascii -> bool) (s : string) : string * option string :=
  match s with
  | EmptyString => ("", None)
  | String c s' => if f c then ("", Some s') else let '(a, b) := split_first f s' in (String c a, b)
  end.

Definition unsigned_exponent (s : string) : option Z := digits_value 0 <$> digits_from false s.
Definition exponent (s : option string) : option Z :=
  match s with
  | None => Some 0%Z
  | Some (String "-" e) => Z.opp <$> unsigned_exponent e
  | Some (String "+" e) => unsigned_exponent e
  | Some e => unsigned_exponent e
  end.

Definition unsigned_float (s : string) : option float :=
  let s := lower s in
  if (s =? "inf")%string || (s =? "infinity")%string then Some finf
  else if (s =? "nan")%string then Some S754_nan
  else
    let '(mantissa, e) := split_first (fun c => Ascii.eqb c "e"%char) s in
    let '(whole, fraction) := split_first (fun c => Ascii.eqb c "."%char) mantissa in
    w ← digit_group whole;
    f ← digit_group (default "" fraction);
    k ← exponent e;
    if str_is_empty (w +:+ f) then None
    else Some (dec_to_float (digits_value 0 (w +:+ f)) (k - Z.of_nat (String.length f))).

Definition float_of_text (s : string) : option float :=
  match strip s with
  | String "-" s' => fneg <$> unsigned_float s'
  | String "+" s' => unsigned_float s'
  | s' => unsigned_float s'
  end.

Definition parse_float (raw key : string) : cfg float :=
  match float_of_text raw with
  | Some x => inr x
  | None => inl (ConfigurationError [key +:+ "=" +:+ str_repr raw])
  end.

(** [str] of a float that failed a check, which is never nan. *)
Definition float_str (x : float) : string :=
  match x with
  | S754_infinity true => "-inf"
  | S754_infinity false => "inf"
  | S754_nan => "nan"
  | _ => float_repr x
  end.

(** ** Sections *)

(** What a declared annotation asks of an environment string. *)
Inductive field_type := TBool | TInt | TFloat | TStr | THosts | TLevel.

Inductive setting :=
| SBool (b : bool)
| SInt (z : Z)
| SFloat (x : float)
| SText (s : string).

(** [_coerce]: any other annotation leaves the text as it is. *)
Definition coerce (value : string) (annotation : field_type) (key : string) : cfg setting :=
  match annotation with
  | TBool => b ← parse_bool value key; inr (SBool b)
  | TInt => z ← parse_int value key; inr (SInt z)
  | TFloat => x ← parse_float value key; inr (SFloat x)
  | TStr | THosts | TLevel => inr (SText value)
  end.

(** [_field_types] of each section type, in the order of [section_types]. *)
Definition SECTIONS : list (string * list (string * field_type)) :=
  [("evidence", [("dsn", TStr); ("segment_prefix", TStr); ("seal_interval_seconds", TInt);
                 ("fsync_required", TBool); ("worm_anchor_uri", TStr)]);
   ("limits", [("url", TStr); ("default_window_seconds", TInt); ("fail_closed", TBool);
               ("cooldown_seconds", TInt); ("sentinel_hosts", THosts); ("sentinel_service_name", TStr);
               ("sentinel_socket_timeout_s", TFloat); ("max_tenant_subjects", TInt)]);
   ("baseline", [("url", TStr); ("anomaly_threshold", TFloat); ("min_samples", TInt);
                 ("peer_group_prior_required", TBool); ("sentinel_hosts", THosts);
                 ("sentinel_service_name", TStr); ("sentinel_socket_timeout_s", TFloat)]);
   ("signing", [("key_id", TStr); ("kms_endpoint", TStr); ("allow_local_key", TBool)]);
   ("identity", [("trust_domain", TStr); ("oidc_issuer", TStr); ("allow_shared_api_key", TBool);
                 ("reject_mismatched_assertions", TBool)]);
   ("policy", [("bundle_registry_dsn", TStr); ("require_signature", TBool);
               ("deny_on_bundle_unavailable", TBool)]);
   ("risk", [("enforce_threshold", TBool); ("deny_level", TLevel)]);
   ("dispatch", [("default_timeout_s", TFloat); ("max_in_flight", TInt);
                 ("require_evidence_receipt", TBool)]);
   ("observability", [("service_name", TStr); ("log_level", TStr); ("json_logs", TBool)]);
   ("http_admission", [("enabled", TBool); ("max_requests", TInt); ("window_seconds", TFloat)])].

(** Keyword arguments, in the order given, with the dataclass defaults. *)
Abbreviation kwargs := (list (string * setting)).

Fixpoint dict_get {A} (d : list (string * A)) (k : string) : option A :=
  match d with
  | [] => None
  | (k', v) :: d' => if (k' =? k)%string then Some v else dict_get d' k
  end.

Definition get_bool (d : kwargs) (k : string) (dflt : bool) : bool :=
  match dict_get d k with Some (SBool b) => b | _ => dflt end.
Definition get_int (d : kwargs) (k : string) (dflt : Z) : Z :=
  match dict_get d k with Some (SInt z) => z | _ => dflt end.
Definition get_float (d : kwargs) (k : string) (dflt : float) : float :=
  match dict_get d k with Some (SFloat x) => x | _ => dflt end.
Definition get_text (d : kwargs) (k dflt : string) : string :=
  match dict_get d k with Some (SText s) => s | _ => dflt end.

(** [sentinel_hosts]: the pairs a caller supplies, or the raw text of the
    environment. *)
Inductive hosts :=
| HostPairs (l : list (string * Z))
| HostText (s : string).

Definition hosts_given (h : hosts) : bool :=
  match h with HostPairs [] => false | HostPairs _ => true | HostText s => negb (str_is_empty s) end.

Definition get_hosts (d : kwargs) (k : string) : hosts :=
  match dict_get d k with Some (SText s) => HostText s | _ => HostPairs [] end.

Record EvidenceConfig := {
  ec_dsn : string;
  ec_segment_prefix : string;
  ec_seal_interval_seconds : Z;
  ec_fsync_required : bool;
  ec_worm_anchor_uri : string
}.

Definition mk_EvidenceConfig (d : kwargs) : cfg EvidenceConfig :=
  let segment_prefix := get_text d "segment_prefix" "seg" in
  let seal_interval_seconds := get_int d "seal_interval_seconds" 3600 in
  _ ← of_res (require_identifier segment_prefix "evidence.segment_prefix");
  _ ← reject_if (violation_if (seal_interval_seconds <=? 0)%Z
                   ("evidence.seal_interval_seconds=" +:+ str_of_int seal_interval_seconds));
  inr {| ec_dsn := get_text d "dsn" ""; ec_segment_prefix := segment_prefix;
         ec_seal_interval_seconds := seal_interval_seconds;
         ec_fsync_required := get_bool d "fsync_required" true;
         ec_worm_anchor_uri := get_text d "worm_anchor_uri" "" |}.

Definition half : float := fdiv (fz 1) (fz 2).

Record LimitsConfig := {
  lc_url : string;
  lc_default_window_seconds : Z;
  lc_fail_closed : bool;
  lc_cooldown_seconds : Z;
  lc_sentinel_hosts : hosts;
  lc_sentinel_service_name : string;
  lc_sentinel_socket_timeout_s : float;
  lc_max_tenant_subjects : Z
}.

Definition mk_LimitsConfig (d : kwargs) : cfg LimitsConfig :=
  let c := {| lc_url := get_text d "url" ""; lc_default_window_seconds := get_int d "default_window_seconds" 60;
              lc_fail_closed := get_bool d "fail_closed" true;
              lc_cooldown_seconds := get_int d "cooldown_seconds" 300;
              lc_sentinel_hosts := get_hosts d "sentinel_hosts";
              lc_sentinel_service_name := get_text d "sentinel_service_name" "";
              lc_sentinel_socket_timeout_s := get_float d "sentinel_socket_timeout_s" half;
              lc_max_tenant_subjects := get_int d "max_tenant_subjects" 0 |} in
  _ ← reject_if
        (violation_if (lc_default_window_seconds c <=? 0)%Z
           ("limits.default_window_seconds=" +:+ str_of_int (lc_default_window_seconds c)) ++
         violation_if (lc_cooldown_seconds c <? 0)%Z
           ("limits.cooldown_seconds=" +:+ str_of_int (lc_cooldown_seconds c)) ++
         violation_if (hosts_given (lc_sentinel_hosts c) && str_is_empty (lc_sentinel_service_name c))
           "limits.sentinel_service_name is required when sentinel_hosts is set" ++
         violation_if (fle (lc_sentinel_socket_timeout_s c) (fz 0))
           ("limits.sentinel_socket_timeout_s=" +:+ float_str (lc_sentinel_socket_timeout_s c)) ++
         violation_if (lc_max_tenant_subjects c <? 0)%Z
           ("limits.max_tenant_subjects=" +:+ str_of_int (lc_max_tenant_subjects c)));
  inr c.

Record BaselineConfig := {
  bc_url : string;
  bc_anomaly_threshold : float;
  bc_min_samples : Z;
  bc_peer_group_prior_required : bool;
  bc_sentinel_hosts : hosts;
  bc_sentinel_service_name : string;
  bc_sentinel_socket_timeout_s : float
}.

Definition mk_BaselineConfig (d : kwargs) : cfg BaselineConfig :=
  let c := {| bc_url := get_text d "url" ""; bc_anomaly_threshold := get_float d "anomaly_threshold" (fz 3);
              bc_min_samples := get_int d "min_samples" 30;
              bc_peer_group_prior_required := get_bool d "peer_group_prior_required" true;
              bc_sentinel_hosts := get_hosts d "sentinel_hosts";
              bc_sentinel_service_name := get_text d "sentinel_service_name" "";
              bc_sentinel_socket_timeout_s := get_float d "sentinel_socket_timeout_s" half |} in
  _ ← reject_if
        (violation_if (fle (bc_anomaly_threshold c) (fz 0))
           ("baseline.anomaly_threshold=" +:+ float_str (bc_anomaly_threshold c)) ++
         violation_if (bc_min_samples c <? 0)%Z
           ("baseline.min_samples=" +:+ str_of_int (bc_min_samples c)) ++
         violation_if (hosts_given (bc_sentinel_hosts c) && str_is_empty (bc_sentinel_service_name c))
           "baseline.sentinel_service_name is required when sentinel_hosts is set" ++
         violation_if (fle (bc_sentinel_socket_timeout_s c) (fz 0))
           ("baseline.sentinel_socket_timeout_s=" +:+ float_str (bc_sentinel_socket_timeout_s c)));
  inr c.

Record HttpAdmissionConfig := {
  hc_enabled : bool;
  hc_max_requests : Z;
  hc_window_seconds : float
}.

Definition mk_HttpAdmissionConfig (d : kwargs) : cfg HttpAdmissionConfig :=
  let c := {| hc_enabled := get_bool d "enabled" true; hc_max_requests := get_int d "max_requests" 120;
              hc_window_seconds := get_float d "window_seconds" (fz 10) |} in
  _ ← reject_if
        (violation_if (hc_max_requests c <=? 0)%Z
           ("http_admission.max_requests=" +:+ str_of_int (hc_max_requests c)) ++
         violation_if (fle (hc_window_seconds c) (fz 0))
           ("http_admission.window_seconds=" +:+ float_str (hc_window_seconds c)));
  inr c.

Record SigningConfig := {
  sc_key_id : string;
  sc_kms_endpoint : string;
  sc_allow_local_key : bool
}.

Definition mk_SigningConfig (d : kwargs) : cfg SigningConfig :=
  let key_id := get_text d "key_id" "" in
  _ ← (if str_is_empty key_id then inr key_id else of_res (require_identifier key_id "signing.key_id"));
  inr {| sc_key_id := key_id; sc_kms_endpoint := get_text d "kms_endpoint" "";
         sc_allow_local_key := get_bool d "allow_local_key" false |}.

Record IdentityConfig := {
  ic_trust_domain : string;
  ic_oidc_issuer : string;
  ic_allow_shared_api_key : bool;
  ic_reject_mismatched_assertions : bool
}.

Definition mk_IdentityConfig (d : kwargs) : cfg IdentityConfig :=
  inr {| ic_trust_domain := get_text d "trust_domain" ""; ic_oidc_issuer := get_text d "oidc_issuer" "";
         ic_allow_shared_api_key := get_bool d "allow_shared_api_key" false;
         ic_reject_mismatched_assertions := get_bool d "reject_mismatched_assertions" true |}.

Record PolicyConfig := {
  pc_bundle_registry_dsn : string;
  pc_require_signature : bool;
  pc_deny_on_bundle_unavailable : bool
}.

Definition mk_PolicyConfig (d : kwargs) : cfg PolicyConfig :=
  inr {| pc_bundle_registry_dsn := get_text d "bundle_registry_dsn" "";
         pc_require_signature := get_bool d "require_signature" true;
         pc_deny_on_bundle_unavailable := get_bool d "deny_on_bundle_unavailable" true |}.

Record RiskConfig := {
  kc_enforce_threshold : bool;
  kc_deny_level : RiskLevel
}.

(** [RiskLevel(text)]. *)
Definition risk_level_of (s : string) : option RiskLevel :=
  List.find (fun l => (risk_level_value l =? s)%string) [RISK_LOW; RISK_MEDIUM; RISK_HIGH; RISK_CRITICAL].

Definition mk_RiskConfig (d : kwargs) : cfg RiskConfig :=
  let enforce := get_bool d "enforce_threshold" true in
  match dict_get d "deny_level" with
  | Some (SText s) =>
      match risk_level_of (lower (strip s)) with
      | Some level => inr {| kc_enforce_threshold := enforce; kc_deny_level := level |}
      | None =>
          inl (ConfigurationError ["risk.deny_level=" +:+ str_repr s +:+
                                   " (supported: low, medium, high, critical)"])
      end
  | _ => inr {| kc_enforce_threshold := enforce; kc_deny_level := RISK_HIGH |}
  end.

Record DispatchConfig := {
  dc_default_timeout_s : float;
  dc_max_in_flight : Z;
  dc_require_evidence_receipt : bool
}.

Definition mk_DispatchConfig (d : kwargs) : cfg DispatchConfig :=
  let c := {| dc_default_timeout_s := get_float d "default_timeout_s" (fz 30);
              dc_max_in_flight := get_int d "max_in_flight" 64;
              dc_require_evidence_receipt := get_bool d "require_evidence_receipt" true |} in
  _ ← reject_if
        (violation_if (fle (dc_default_timeout_s c) (fz 0))
           ("dispatch.default_timeout_s=" +:+ float_str (dc_default_timeout_s c)) ++
         violation_if (dc_max_in_flight c <=? 0)%Z
           ("dispatch.max_in_flight=" +:+ str_of_int (dc_max_in_flight c)));
  inr c.

Record ObservabilityConfig := {
  oc_service_name : string;
  oc_log_level : string;
  oc_json_logs : bool
}.

(** [log_level.upper()] is one of the level names, compared in lower case. *)
Definition LOG_LEVELS : list string := ["debug"; "info"; "warning"; "error"; "critical"].

Definition mk_ObservabilityConfig (d : kwargs) : cfg ObservabilityConfig :=
  let service_name := get_text d "service_name" "glassbox" in
  let log_level := get_text d "log_level" "INFO" in
  _ ← of_res (require_identifier service_name "observability.service_name");
  _ ← reject_if (violation_if (negb (bool_decide (lower log_level ∈ LOG_LEVELS)))
                   ("observability.log_level=" +:+ str_repr log_level));
  inr {| oc_service_name := service_name; oc_log_level := log_level;
         oc_json_logs := get_bool d "json_logs" true |}.

(** ** [GlassBoxConfig] *)

Record GlassBoxConfig := {
  gc_profile : RuntimeProfile;
  gc_evidence : EvidenceConfig;
  gc_limits : LimitsConfig;
  gc_baseline : BaselineConfig;
  gc_signing : SigningConfig;
  gc_identity : IdentityConfig;
  gc_policy : PolicyConfig;
  gc_risk : RiskConfig;
  gc_dispatch : DispatchConfig;
  gc_observability : ObservabilityConfig;
  gc_http_admission : HttpAdmissionConfig
}.

Definition SAFETY_SWITCHES : list ((string * string) * bool) :=
  [(("evidence", "fsync_required"), true); (("limits", "fail_closed"), true);
   (("baseline", "peer_group_prior_required"), true); (("signing", "allow_local_key"), false);
   (("identity", "allow_shared_api_key"), false); (("identity", "reject_mismatched_assertions"), true);
   (("policy", "require_signature"), true); (("policy", "deny_on_bundle_unavailable"), true);
   (("risk", "enforce_threshold"), true); (("dispatch", "require_evidence_receipt"), true)].

Definition PROD_REQUIRED : list ((string * string) * string) :=
  [(("evidence", "dsn"), "evidence must be written to an append-only database");
   (("evidence", "worm_anchor_uri"), "sealed segments must be anchored to WORM storage");
   (("limits", "url"), "limits must be held outside the process");
   (("baseline", "url"), "baselines must be held outside the process");
   (("signing", "key_id"), "evidence must be MAC-signed with a managed key");
   (("policy", "bundle_registry_dsn"), "policy must be loaded from a signed bundle registry")].

Definition dotted (path : string * string) : string := path.1 +:+ "." +:+ path.2.

(** [_lookup], on the switches and on the required settings. *)
Definition lookup_switch (c : GlassBoxConfig) (path : string * string) : option bool :=
  dict_get
    [("evidence.fsync_required", ec_fsync_required (gc_evidence c));
     ("limits.fail_closed", lc_fail_closed (gc_limits c));
     ("baseline.peer_group_prior_required", bc_peer_group_prior_required (gc_baseline c));
     ("signing.allow_local_key", sc_allow_local_key (gc_signing c));
     ("identity.allow_shared_api_key", ic_allow_shared_api_key (gc_identity c));
     ("identity.reject_mismatched_assertions", ic_reject_mismatched_assertions (gc_identity c));
     ("policy.require_signature", pc_require_signature (gc_policy c));
     ("policy.deny_on_bundle_unavailable", pc_deny_on_bundle_unavailable (gc_policy c));
     ("risk.enforce_threshold", kc_enforce_threshold (gc_risk c));
     ("dispatch.require_evidence_receipt", dc_require_evidence_receipt (gc_dispatch c))] (dotted path).

Definition lookup_required (c : GlassBoxConfig) (path : string * string) : option string :=
  dict_get
    [("evidence.dsn", ec_dsn (gc_evidence c)); ("evidence.worm_anchor_uri", ec_worm_anchor_uri (gc_evidence c));
     ("limits.url", lc_url (gc_limits c)); ("baseline.url", bc_url (gc_baseline c));
     ("signing.key_id", sc_key_id (gc_signing c));
     ("policy.bundle_registry_dsn", pc_bundle_registry_dsn (gc_policy c))] (dotted path).

Definition switch_unsafe (c : GlassBoxConfig) (s : (string * string) * bool) : bool :=
  match lookup_switch c s.1 with Some v => negb (Bool.eqb v s.2) | None => true end.
Definition setting_missing (c : GlassBoxConfig) (s : (string * string) * string) : bool :=
  match lookup_required c s.1 with Some v => str_is_empty v | None => true end.

Definition bool_str (b : bool) : string := if b then "True" else "False".

Definition profile_violations (c : GlassBoxConfig) : list string :=
  let p := profile_value (gc_profile c) in
  map (fun s => dotted s.1 +:+ " is required in the " +:+ p +:+ " profile: " +:+ s.2)
    (List.filter (setting_missing c) PROD_REQUIRED) ++
  map (fun s => dotted s.1 +:+ " must be " +:+ bool_str s.2 +:+ " in the " +:+ p +:+ " profile")
    (List.filter (switch_unsafe c) SAFETY_SWITCHES).

(** [__post_init__]. *)
Definition mk_GlassBoxConfig (c : GlassBoxConfig) : cfg GlassBoxConfig :=
  if permits_unsafe_switches (gc_profile c) then inr c
  else match profile_violations c with
       | [] => inr c
       | violations => inl (ProfileViolationError violations)
       end.

Definition unsafe_switches (c : GlassBoxConfig) : list string :=
  map (fun s => dotted s.1) (List.filter (switch_unsafe c) SAFETY_SWITCHES).

(** [describe]: a connection string is shown as configured or not. *)
Definition config_describe (c : GlassBoxConfig) : json :=
  JObj [("profile", JStr (profile_value (gc_profile c)));
        ("provides_assurance", JBool (provides_assurance (gc_profile c)));
        ("service_name", JStr (oc_service_name (gc_observability c)));
        ("evidence_configured", JBool (negb (str_is_empty (ec_dsn (gc_evidence c)))));
        ("worm_anchor_configured", JBool (negb (str_is_empty (ec_worm_anchor_uri (gc_evidence c)))));
        ("limits_configured", JBool (negb (str_is_empty (lc_url (gc_limits c)))));
        ("baseline_configured", JBool (negb (str_is_empty (bc_url (gc_baseline c)))));
        ("signing_key_id", if str_is_empty (sc_key_id (gc_signing c)) then JNull else JStr (sc_key_id (gc_signing c)));
        ("policy_registry_configured", JBool (negb (str_is_empty (pc_bundle_registry_dsn (gc_policy c)))));
        ("risk_threshold_enforced", JBool (kc_enforce_threshold (gc_risk c)));
        ("risk_deny_level", JStr (risk_level_value (kc_deny_level (gc_risk c))));
        ("unsafe_switches", JArr (map JStr (unsafe_switches c)));
        ("http_admission_enabled", JBool (hc_enabled (gc_http_admission c)))].

(** ** Loading *)

Definition profile_of (raw : string) : cfg RuntimeProfile :=
  let name := lower (strip raw) in
  if (name =? "dev")%string then inr DEV
  else if (name =? "prod")%string then inr PROD
  else inl (ConfigurationError ["profile=" +:+ str_repr raw +:+ " (supported: dev, prod)"]).

(** The nested mapping: the profile, and the sections in the order given. *)
Abbreviation section_values := (list (string * string)).
Record nested := {
  ns_profile : option string;
  ns_sections : list (string * section_values)
}.

(** [sorted]. *)
Fixpoint insert_text (x : string) (l : list string) : list string :=
  match l with [] => [x] | y :: l' => if str_leb x y then x :: l else y :: insert_text x l' end.
Definition sorted_texts (l : list string) : list string := foldr insert_text [] l.

Definition declared (types : list (string * field_type)) (key : string) : bool :=
  match dict_get types key with Some _ => true | None => false end.

(** The coerced keyword arguments of one section. *)
Fixpoint coerce_all (section : string) (types : list (string * field_type)) (l : section_values) : cfg kwargs :=
  match l with
  | [] => inr []
  | (key, value) :: l' =>
      match dict_get types key with
      | Some t => v ← coerce value t (section +:+ "." +:+ key); rest ← coerce_all section types l'; inr ((key, v) :: rest)
      | None => inl (ConfigurationError ["unknown key: " +:+ section +:+ "." +:+ key])
      end
  end.

Definition section_kwargs (n : nested) (section : string) : cfg kwargs :=
  let types := default [] (dict_get SECTIONS section) in
  let provided := default [] (dict_get (ns_sections n) section) in
  _ ← reject_if (map (fun key => "unknown key: " +:+ section +:+ "." +:+ key)
                   (sorted_texts (List.filter (fun k => negb (declared types k)) (map fst provided))));
  coerce_all section types provided.

Definition from_mapping (n : nested) : cfg GlassBoxConfig :=
  match ns_profile n with
  | None => inl (ConfigurationError ["profile is required; there is no default"])
  | Some raw =>
      profile ← profile_of raw;
      _ ← reject_if (map (fun name => "unknown section: " +:+ name)
            (sorted_texts (List.filter (fun s => match dict_get SECTIONS s with Some _ => false | None => true end)
                             (map fst (ns_sections n)))));
      evidence ← (d ← section_kwargs n "evidence"; mk_EvidenceConfig d);
      limits ← (d ← section_kwargs n "limits"; mk_LimitsConfig d);
      baseline ← (d ← section_kwargs n "baseline"; mk_BaselineConfig d);
      signing ← (d ← section_kwargs n "signing"; mk_SigningConfig d);
      identity ← (d ← section_kwargs n "identity"; mk_IdentityConfig d);
      policy ← (d ← section_kwargs n "policy"; mk_PolicyConfig d);
      risk ← (d ← section_kwargs n "risk"; mk_RiskConfig d);
      dispatch ← (d ← section_kwargs n "dispatch"; mk_DispatchConfig d);
      observability ← (d ← section_kwargs n "observability"; mk_ObservabilityConfig d);
      http_admission ← (d ← section_kwargs n "http_admission"; mk_HttpAdmissionConfig d);
      mk_GlassBoxConfig
        {| gc_profile := profile; gc_evidence := evidence; gc_limits := limits; gc_baseline := baseline;
           gc_signing := signing; gc_identity := identity; gc_policy := policy; gc_risk := risk;
           gc_dispatch := dispatch; gc_observability := observability; gc_http_admission := http_admission |}
  end.

Definition ENV_PREFIX : string := "GLASSBOX_".

Definition str_drop (n : nat) (s : string) : string := String.substring n (String.length s - n) s.

(** [d[k] = v]: an old key keeps its place. *)
Fixpoint dict_set {A} (d : list (string * A)) (k : string) (v : A) : list (string * A) :=
  match d with
  | [] => [(k, v)]
  | (k', v') :: d' => if (k' =? k)%string then (k, v) :: d' else (k', v') :: dict_set d' k v
  end.

(** What a variable names: the profile, or a key of a section. *)
Inductive variable :=
| ProfileVariable
| SectionVariable (section key : string)
| UnknownVariable.

Definition variable_of (raw_key : string) : variable :=
  let remainder := lower (str_drop (String.length ENV_PREFIX) raw_key) in
  if (remainder =? "profile")%string then ProfileVariable
  else match List.find (fun s => startswith (s +:+ "_") remainder) (map fst SECTIONS) with
       | Some s => SectionVariable s (str_drop (String.length s + 1) remainder)
       | None => UnknownVariable
       end.

Definition add_variable (acc : nested * list string) (entry : string * string) : nested * list string :=
  let '(n, unknown) := acc in
  if negb (startswith ENV_PREFIX entry.1) then acc
  else match variable_of entry.1 with
       | ProfileVariable => ({| ns_profile := Some entry.2; ns_sections := ns_sections n |}, unknown)
       | SectionVariable s key =>
           ({| ns_profile := ns_profile n;
               ns_sections := dict_set (ns_sections n) s
                                (dict_set (default [] (dict_get (ns_sections n) s)) key entry.2) |}, unknown)
       | UnknownVariable => (n, unknown ++ [entry.1])
       end.

Definition from_env (environ : list (string * string)) : cfg GlassBoxConfig :=
  let '(n, unknown) := foldl add_variable ({| ns_profile := None; ns_sections := [] |}, []) environ in
  _ ← reject_if (map (fun name => "unrecognised variable: " +:+ name) (sorted_texts unknown));
  from_mapping n.

(** ** Where a setting comes from *)

Lemma cfg_bind_inr {A B} (m : cfg A) (f : A -> cfg B) b : (m ≫= f) = inr b <-> exists a, m = inr a /\ f a = inr b.
Proof. destruct m; cbn; naive_solver. Qed.

Lemma reject_if_inr l u : reject_if l = inr u -> l = [].
Proof. by destruct l. Qed.

(** Take a successful construction apart. *)
Ltac inv_cfg :=
  repeat match goal with
  | H : inr _ = inr _ |- _ => injection H as H
  | H : inl _ = inr _ |- _ => discriminate H
  | H : (_ ≫= _) = inr _ |- _ => apply cfg_bind_inr in H; destruct H as (? & ? & H)
  | H : reject_if _ = inr _ |- _ => apply reject_if_inr in H
  end.

(** What a configuration read from settings holds at a switch: the section's
    argument, or the safe value. *)
Definition switch_from (n : nested) (c : GlassBoxConfig) (s : (string * string) * bool) : Prop :=
  exists d, section_kwargs n s.1.1 = inr d /\ lookup_switch c s.1 = Some (get_bool d s.1.2 s.2).

Lemma from_mapping_inv n c :
  from_mapping n = inr c ->
  mk_GlassBoxConfig c = inr c /\
  Forall (fun s => exists d, section_kwargs n s.1 = inr d) SECTIONS /\
  (exists d, section_kwargs n "evidence" = inr d /\ mk_EvidenceConfig d = inr (gc_evidence c)) /\
  (exists d, section_kwargs n "limits" = inr d /\ mk_LimitsConfig d = inr (gc_limits c)) /\
  (exists d, section_kwargs n "baseline" = inr d /\ mk_BaselineConfig d = inr (gc_baseline c)) /\
  (exists d, section_kwargs n "signing" = inr d /\ mk_SigningConfig d = inr (gc_signing c)) /\
  (exists d, section_kwargs n "identity" = inr d /\ mk_IdentityConfig d = inr (gc_identity c)) /\
  (exists d, section_kwargs n "policy" = inr d /\ mk_PolicyConfig d = inr (gc_policy c)) /\
  (exists d, section_kwargs n "risk" = inr d /\ mk_RiskConfig d = inr (gc_risk c)) /\
  (exists d, section_kwargs n "dispatch" = inr d /\ mk_DispatchConfig d = inr (gc_dispatch c)).
Proof.
  unfold from_mapping. destruct (ns_profile n) as [raw|]; [|done]. intros H. inv_cfg.
  match type of H with mk_GlassBoxConfig ?c0 = _ =>
    assert (c0 = c) as <- by (unfold mk_GlassBoxConfig in H; destruct (permits_unsafe_switches _);
      [congruence|destruct (profile_violations _); congruence]) end.
  split_and!; [done| |eauto..]. repeat (constructor; [eauto|]). constructor.
Qed.

Lemma from_mapping_switches n c : from_mapping n = inr c -> Forall (switch_from n c) SAFETY_SWITCHES.
Proof.
  intros (_ & _ & (d1 & E1 & H1) & (d2 & E2 & H2) & (d3 & E3 & H3) & (d4 & E4 & H4) & (d5 & E5 & H5) &
          (d6 & E6 & H6) & (d7 & E7 & H7) & (d8 & E8 & H8))%from_mapping_inv.
  unfold mk_EvidenceConfig, mk_LimitsConfig, mk_BaselineConfig, mk_SigningConfig, mk_IdentityConfig,
    mk_PolicyConfig, mk_DispatchConfig in *.
  assert (kc_enforce_threshold (gc_risk c) = get_bool d7 "enforce_threshold" true) as H7'.
  { unfold mk_RiskConfig in H7. destruct (dict_get d7 "deny_level") as [[]|]; try (by injection H7 as <-).
    destruct (risk_level_of _); [by injection H7 as <-|done]. }
  clear H7. inv_cfg.
  repeat (constructor; [eexists; split; [eassumption|]; unfold lookup_switch; cbn;
    repeat match goal with H : _ = _ c |- _ => rewrite <- H end; rewrite ?H7'; reflexivity|]).
  constructor.
Qed.

Lemma dict_get_set {A} (d : list (string * A)) k v k' :
  dict_get (dict_set d k v) k' = if decide (k' = k) then Some v else dict_get d k'.
Proof.
  induction d as [|[k0 v0] d IH]; cbn.
  - destruct (String.eqb_spec k k'), decide; congruence.
  - destruct (String.eqb_spec k0 k) as [->|Hne]; cbn.
    + destruct (String.eqb_spec k k'), decide; congruence.
    + destruct (String.eqb_spec k0 k') as [->|]; [by rewrite decide_False|apply IH].
Qed.

Lemma dict_get_elem {A} (d : list (string * A)) k v : dict_get d k = Some v -> k ∈ map fst d.
Proof.
  induction d as [|[k0 v0] d IH]; cbn; [done|]. destruct (String.eqb_spec k0 k) as [->|]; [by left|right; auto].
Qed.

Lemma sorted_texts_nil l : sorted_texts l = [] -> l = [].
Proof.
  destruct l as [|x l]; [done|]. unfold sorted_texts. cbn. destruct (foldr insert_text [] l) as [|y l']; cbn; [done|].
  by destruct (str_leb x y).
Qed.

(** The text a section was given for a key. *)
Definition given (n : nested) (section key : string) : option string :=
  dict_get (default [] (dict_get (ns_sections n) section)) key.

Lemma coerce_all_get section types l d key b :
  coerce_all section types l = inr d -> dict_get d key = Some (SBool b) ->
  exists raw, dict_get l key = Some raw /\ parse_bool raw (section +:+ "." +:+ key) = inr b.
Proof.
  revert d. induction l as [|[k v] l IH]; intros d Hd Hget; cbn in Hd; [by injection Hd as <-|].
  destruct (dict_get types k) as [t|]; [|done]. inv_cfg. subst d. cbn in Hget |- *.
  destruct (String.eqb_spec k key) as [->|]; [|by eapply IH].
  exists v. split; [done|]. injection Hget as ->.
  match goal with H : coerce _ _ _ = _ |- _ => destruct t; cbn in H; inv_cfg end; congruence.
Qed.

Lemma section_kwargs_bool n section d key b dflt :
  section_kwargs n section = inr d -> get_bool d key dflt = b -> b <> dflt ->
  exists raw, given n section key = Some raw /\ parse_bool raw (section +:+ "." +:+ key) = inr b.
Proof.
  unfold section_kwargs. intros H Hget Hne. inv_cfg. unfold get_bool in Hget.
  destruct (dict_get d key) as [[b'| | |]|] eqn:Hd; try congruence. subst b'.
  by eapply coerce_all_get.
Qed.

Lemma section_kwargs_declared n section d key raw :
  section_kwargs n section = inr d -> given n section key = Some raw ->
  declared (default [] (dict_get SECTIONS section)) key = true.
Proof.
  unfold section_kwargs, given. intros H Hget%dict_get_elem. inv_cfg.
  match goal with H : map _ _ = [] |- _ => apply map_eq_nil, sorted_texts_nil in H; rename H into Hnil end.
  destruct (declared _ key) eqn:Hd; [done|]. exfalso.
  assert (key ∈ List.filter (fun k => negb (declared (default [] (dict_get SECTIONS section)) k))
                  (map fst (default [] (dict_get (ns_sections n) section)))) as Hin.
  { apply list_elem_of_In, filter_In. rewrite <- list_elem_of_In. by rewrite Hd. }
  rewrite Hnil in Hin. by apply not_elem_of_nil in Hin.
Qed.

(** What the variables read so far gave. *)
Definition env_reads (env : list (string * string)) (acc : nested * list string) : Prop :=
  (forall section key raw, given acc.1 section key = Some raw ->
     exists name, (name, raw) ∈ env /\ startswith ENV_PREFIX name = true /\
       variable_of name = SectionVariable section key) /\
  (forall name raw, (name, raw) ∈ env -> startswith ENV_PREFIX name = true ->
     match variable_of name with
     | ProfileVariable => True
     | SectionVariable section key => is_Some (given acc.1 section key)
     | UnknownVariable => name ∈ acc.2
     end).

Lemma given_set n section key raw section' key' :
  given {| ns_profile := ns_profile n;
           ns_sections := dict_set (ns_sections n) section
                            (dict_set (default [] (dict_get (ns_sections n) section)) key raw) |} section' key' =
  if decide (section' = section /\ key' = key) then Some raw else given n section' key'.
Proof.
  unfold given. cbn. rewrite dict_get_set. destruct (decide (section' = section)) as [->|].
  - cbn. rewrite dict_get_set. destruct (decide (key' = key)), (decide (_ /\ _)); naive_solver.
  - rewrite decide_False by naive_solver. done.
Qed.

Lemma add_variable_reads env acc name raw :
  env_reads env acc -> env_reads (env ++ [(name, raw)]) (add_variable acc (name, raw)).
Proof.
  destruct acc as [n unknown]. intros [H1 H2]. unfold add_variable. cbn [fst snd].
  destruct (startswith ENV_PREFIX name) eqn:Hp; cbn [negb]; [destruct (variable_of name) as [|s k|] eqn:Hv|];
    split; cbn [fst snd] in *.
  - intros s k r Hg. destruct (H1 s k r Hg) as (m & ? & ?). exists m. set_solver.
  - intros m r [Hin|E%list_elem_of_singleton]%elem_of_app Hm; [by apply (H2 m r)|]. injection E as -> ->. by rewrite Hv.
  - intros s' k' r. rewrite given_set. case_decide as Hd.
    + destruct Hd as [-> ->]. intros [= <-]. exists name. set_solver.
    + intros Hg. destruct (H1 s' k' r Hg) as (m & ? & ?). exists m. set_solver.
  - intros m r [Hin|E%list_elem_of_singleton]%elem_of_app Hm.
    + specialize (H2 m r Hin Hm). destruct (variable_of m) as [|s' k'|]; [done| |done].
      rewrite given_set. by case_decide.
    + injection E as -> ->. rewrite Hv, given_set. by rewrite decide_True.
  - intros s k r Hg. destruct (H1 s k r Hg) as (m & ? & ?). exists m. set_solver.
  - intros m r [Hin|E%list_elem_of_singleton]%elem_of_app Hm.
    + specialize (H2 m r Hin Hm). destruct (variable_of m); [done|done|]. set_solver.
    + injection E as -> ->. rewrite Hv. set_solver.
  - intros s k r Hg. destruct (H1 s k r Hg) as (m & ? & ?). exists m. set_solver.
  - intros m r [Hin|E%list_elem_of_singleton]%elem_of_app Hm; [by apply (H2 m r)|]. injection E as -> ->. congruence.
Qed.

Lemma env_reads_all env :
  env_reads env (foldl add_variable ({| ns_profile := None; ns_sections := [] |}, []) env).
Proof.
  induction env as [|[name raw] env IH] using rev_ind.
  - split; [done|]. intros ? ? H. by apply not_elem_of_nil in H.
  - rewrite foldl_app. cbn [foldl]. by apply add_variable_reads.
Qed.

Lemma from_env_inv env c :
  from_env env = inr c -> exists n unknown,
    env_reads env (n, unknown) /\ unknown = [] /\ from_mapping n = inr c.
Proof.
  unfold from_env. pose proof (env_reads_all env) as Hreads.
  destruct (foldl add_variable _ env) as [n unknown]. intros H. inv_cfg.
  match goal with H : map _ _ = [] |- _ => apply map_eq_nil, sorted_texts_nil in H as -> end.
  by exists n, [].
Qed.

Lemma filter_nil {A} (f : A -> bool) l x : List.filter f l = [] -> x ∈ l -> f x = false.
Proof.
  intros Hn Hx. destruct (f x) eqn:E; [|done]. exfalso.
  assert (x ∈ List.filter f l) as H by (apply list_elem_of_In, filter_In; by rewrite <- list_elem_of_In).
  rewrite Hn in H. by apply not_elem_of_nil in H.
Qed.

Lemma profile_violations_nil c :
  profile_violations c = [] ->
  (forall s, s ∈ SAFETY_SWITCHES -> lookup_switch c s.1 = Some s.2) /\
  (forall r, r ∈ PROD_REQUIRED -> exists v, lookup_required c r.1 = Some v /\ v <> "").
Proof.
  intros [Hr%map_eq_nil Hs%map_eq_nil]%app_eq_nil. split.
  - intros s Hin. apply (filter_nil _ _ _ Hs) in Hin. unfold switch_unsafe in Hin.
    destruct (lookup_switch c s.1) as [v|]; [|done]. apply negb_false_iff, eqb_prop in Hin. by subst v.
  - intros r Hin. apply (filter_nil _ _ _ Hr) in Hin. unfold setting_missing in Hin.
    destruct (lookup_required c r.1) as [v|]; [|done]. exists v. split; [done|]. by intros ->.
Qed.

(** The switches and settings by name. *)
Definition controls_in_force (c : GlassBoxConfig) : Prop :=
  ec_fsync_required (gc_evidence c) = true /\ lc_fail_closed (gc_limits c) = true /\
  bc_peer_group_prior_required (gc_baseline c) = true /\ sc_allow_local_key (gc_signing c) = false /\
  ic_allow_shared_api_key (gc_identity c) = false /\ ic_reject_mismatched_assertions (gc_identity c) = true /\
  pc_require_signature (gc_policy c) = true /\ pc_deny_on_bundle_unavailable (gc_policy c) = true /\
  kc_enforce_threshold (gc_risk c) = true /\ dc_require_evidence_receipt (gc_dispatch c) = true.
Definition settings_present (c : GlassBoxConfig) : Prop :=
  ec_dsn (gc_evidence c) <> "" /\ ec_worm_anchor_uri (gc_evidence c) <> "" /\ lc_url (gc_limits c) <> "" /\
  bc_url (gc_baseline c) <> "" /\ sc_key_id (gc_signing c) <> "" /\ pc_bundle_registry_dsn (gc_policy c) <> "".

Lemma switches_by_name c : (forall s, s ∈ SAFETY_SWITCHES -> lookup_switch c s.1 = Some s.2) -> controls_in_force c.
Proof.
  intros Hs%Forall_forall. unfold SAFETY_SWITCHES in Hs. repeat (apply Forall_cons in Hs as [? Hs]).
  unfold controls_in_force, lookup_switch in *. cbn in *. by simplify_eq.
Qed.

Lemma settings_by_name c :
  (forall r, r ∈ PROD_REQUIRED -> exists v, lookup_required c r.1 = Some v /\ v <> "") -> settings_present c.
Proof.
  intros Hs%Forall_forall. unfold PROD_REQUIRED in Hs. repeat (apply Forall_cons in Hs as [(? & ? & ?) Hs]).
  unfold settings_present, lookup_required in *. cbn in *. by simplify_eq.
Qed.

(** C30.  A production process starts only when it is safe.  A configuration
    that loads from the environment under the production profile has all ten
    safety switches at their safe values and all six required settings
    present, each also by its name; and a configuration the profile refuses is refused with one
    violation for every switch that is off and every setting that is
    missing. *)
Theorem production_profile_is_safe env c :
  from_env env = inr c -> gc_profile c = PROD ->
  (forall s, s ∈ SAFETY_SWITCHES -> lookup_switch c s.1 = Some s.2) /\
  (forall r, r ∈ PROD_REQUIRED -> exists v, lookup_required c r.1 = Some v /\ v <> "") /\
  controls_in_force c /\ settings_present c /\ unsafe_switches c = [] /\
  (forall c' e, mk_GlassBoxConfig c' = inl e ->
     gc_profile c' = PROD /\ exists vs, e = ProfileViolationError vs /\
     (forall s, s ∈ SAFETY_SWITCHES -> switch_unsafe c' s = true ->
        dotted s.1 +:+ " must be " +:+ bool_str s.2 +:+ " in the prod profile" ∈ vs) /\
     (forall r, r ∈ PROD_REQUIRED -> setting_missing c' r = true ->
        dotted r.1 +:+ " is required in the prod profile: " +:+ r.2 ∈ vs)).
Proof.
  intros (n & u & _ & _ & (Hmk & _)%from_mapping_inv)%from_env_inv Hp.
  unfold mk_GlassBoxConfig in Hmk. rewrite Hp in Hmk. cbn [permits_unsafe_switches] in Hmk.
  destruct (profile_violations c) eqn:Hv; [|done]. pose proof (profile_violations_nil c Hv) as [Hs Hr].
  split; [done|]. split; [done|]. split; [by apply switches_by_name|]. split; [by apply settings_by_name|]. split.
  - apply app_eq_nil in Hv as [_ Hv%map_eq_nil]. unfold unsafe_switches. by rewrite Hv.
  - intros c' e He. unfold mk_GlassBoxConfig in He. destruct (gc_profile c') eqn:Hp'; [done|]. split; [done|].
    cbn [permits_unsafe_switches] in He. destruct (profile_violations c') as [|v vs] eqn:Hv'; [done|]. injection He as <-.
    exists (v :: vs). split; [done|]. rewrite <- Hv'. unfold profile_violations. rewrite Hp'.
    split; intros x Hin Hx; apply elem_of_app; [right|left]; apply list_elem_of_fmap; exists x;
      (split; [done|apply list_elem_of_In, filter_In; by rewrite <- list_elem_of_In]).
Qed.

Lemma parse_bool_inr raw key b :
  parse_bool raw key = inr b -> lower (strip raw) ∈ (if b then TRUE_LITERALS else FALSE_LITERALS).
Proof.
  unfold parse_bool. case_bool_decide; [intros [= <-]; done|]. case_bool_decide; [by intros [= <-]|done].
Qed.

(** C31.  A control is weakened only explicitly.  In a configuration that loads
    from the environment, under any profile, a safety switch that is not at
    its safe value was set by a variable of the environment that names it, with
    a literal that says so; and every variable with the prefix names the
    profile or a declared key of a section, so a misspelt switch does not load
    at all. *)
Theorem controls_weaken_only_explicitly env c :
  from_env env = inr c ->
  (forall s v, s ∈ SAFETY_SWITCHES -> lookup_switch c s.1 = Some v -> v <> s.2 ->
     exists name raw, (name, raw) ∈ env /\ startswith ENV_PREFIX name = true /\
       variable_of name = SectionVariable s.1.1 s.1.2 /\
       lower (strip raw) ∈ (if v then TRUE_LITERALS else FALSE_LITERALS)) /\
  (forall name raw, (name, raw) ∈ env -> startswith ENV_PREFIX name = true ->
     variable_of name = ProfileVariable \/
     exists section key types, variable_of name = SectionVariable section key /\
       dict_get SECTIONS section = Some types /\ declared types key = true).
Proof.
  intros (n & u & [Hgiven Hknown] & -> & Hn)%from_env_inv. cbn [fst snd] in *. split.
  - intros s v Hin Hl Hne. pose proof (from_mapping_switches n c Hn) as Hsw. rewrite Forall_forall in Hsw.
    destruct (Hsw s Hin) as (d & Hd & E). rewrite Hl in E. injection E as E.
    destruct (section_kwargs_bool n s.1.1 d s.1.2 v s.2 Hd (eq_sym E) Hne) as (raw & Hg & Hb).
    destruct (Hgiven _ _ _ Hg) as (name & ? & ? & ?). exists name, raw. split_and!; [done..|].
    by eapply parse_bool_inr.
  - intros name raw Hin Hp. specialize (Hknown name raw Hin Hp).
    destruct (variable_of name) as [|section key|] eqn:Hv; [by left| |by apply not_elem_of_nil in Hknown].
    right. exists section, key. unfold variable_of in Hv.
    destruct (_ =? "profile")%string; [done|].
    destruct (List.find _ _) as [s'|] eqn:Hf; [|done]. injection Hv as <- <-.
    apply List.find_some in Hf as [Hs%list_elem_of_In _].
    apply from_mapping_inv in Hn as (_ & Hsec & _). rewrite Forall_forall in Hsec.
    apply list_elem_of_fmap in Hs as ([s0 types] & -> & Hs). cbn [fst] in *.
    assert (dict_get SECTIONS s0 = Some types) as Ht by (repeat (apply elem_of_cons in Hs as [[= -> ->]|Hs]; [reflexivity|]);
      by apply not_elem_of_nil in Hs).
    exists types. split_and!; [done|done|]. destruct (Hsec _ Hs) as (d & Hd). destruct Hknown as [raw' Hg].
    pose proof (section_kwargs_declared _ _ _ _ _ Hd Hg) as H. cbn [fst] in H. by rewrite Ht in H.
Qed.

(** ** Environments *)

Definition prod_env : list (string * string) :=
  [("GLASSBOX_PROFILE", "prod"); ("GLASSBOX_EVIDENCE_DSN", "postgres://e");
   ("GLASSBOX_EVIDENCE_WORM_ANCHOR_URI", "s3://w"); ("GLASSBOX_LIMITS_URL", "redis://l");
   ("GLASSBOX_BASELINE_URL", "redis://b"); ("GLASSBOX_SIGNING_KEY_ID", "k1");
   ("GLASSBOX_POLICY_BUNDLE_REGISTRY_DSN", "postgres://p"); ("PATH", "/bin")].

Definition dev_env : list (string * string) := [("GLASSBOX_PROFILE", "Dev "); ("GLASSBOX_LIMITS_FAIL_CLOSED", " NO")].

Definition loaded (r : cfg GlassBoxConfig) : bool := match r with inr _ => true | inl _ => false end.

Lemma production_profile_is_safe_witness :
  exists c, from_env prod_env = inr c /\ gc_profile c = PROD /\ unsafe_switches c = [].
Proof.
  destruct (from_env prod_env) as [e|c] eqn:E; [by vm_compute in E|].
  assert (gc_profile c = PROD) as Hp.
  { assert (match from_env prod_env with inr c => match gc_profile c with PROD => true | DEV => false end | inl _ => false end = true)
      as H by by vm_compute. rewrite E in H. by destruct (gc_profile c). }
  exists c. split; [reflexivity|]. split; [exact Hp|].
  exact (proj1 (proj2 (proj2 (proj2 (proj2 (production_profile_is_safe prod_env c E Hp)))))).
Defined.

Lemma controls_weaken_only_explicitly_witness :
  exists c, from_env dev_env = inr c /\
    exists name raw, (name, raw) ∈ dev_env /\ variable_of name = SectionVariable "limits" "fail_closed" /\
      lower (strip raw) ∈ FALSE_LITERALS.
Proof.
  destruct (from_env dev_env) as [e|c] eqn:E; [by vm_compute in E|].
  assert (lookup_switch c ("limits", "fail_closed") = Some false) as Hl.
  { assert (match from_env dev_env with inr c => lookup_switch c ("limits", "fail_closed") | inl _ => None end = Some false)
      as H by by vm_compute. by rewrite E in H. }
  exists c. split; [reflexivity|].
  destruct (proj1 (controls_weaken_only_explicitly dev_env c E) (("limits", "fail_closed"), true) false)
    as (name & raw & ? & _ & ? & ?); [by repeat constructor|exact Hl|done|].
  exists name, raw. split; [assumption|]. split; assumption.
Defined.

(** Hosts given in the environment stay a text, whose characters would be taken
    for hosts. *)
Example sentinel_hosts_stay_text :
  match from_env (dev_env ++ [("GLASSBOX_LIMITS_SENTINEL_HOSTS", "h:26379"); ("GLASSBOX_LIMITS_SENTINEL_SERVICE_NAME", "m")]) with
  | inr c => lc_sentinel_hosts (gc_limits c) = HostText "h:26379"
  | inl _ => False
  end.
Proof. by vm_compute. Qed.

(** A sentinel deployment, which ignores the url, must still supply one. *)
Example sentinel_needs_url :
  loaded (from_env (("GLASSBOX_LIMITS_SENTINEL_HOSTS", "h:26379") :: ("GLASSBOX_LIMITS_SENTINEL_SERVICE_NAME", "m") ::
            List.filter (fun e => negb (e.1 =? "GLASSBOX_LIMITS_URL")%string) prod_env)) = false.
Proof. by vm_compute. Qed.

(** A nan passes every range check. *)
Example nan_threshold_loads :
  loaded (from_env (("GLASSBOX_BASELINE_ANOMALY_THRESHOLD", "nan") :: prod_env)) = true.
Proof. by vm_compute. Qed.
