(* ===== verification/Composition.v ===== *)
(** * The composition root ([glassbox/app/composition.py])

    A process builds its components from the factories of an adapter set.  What
    a factory returns is a parameter: an object, of which the class name and
    the members are observed, [None], or an exception.  The factories run are
    recorded, in order; logging is left out. *)

From stdpp Require Import base tactics list strings gmap.
From Stdlib Require Import ZArith Lia.
From S2P Require Import Prelude PyFloat PyStr Serialization Action Config.

Open Scope string_scope.
Open Scope list_scope.

(** A port protocol: its name and the members a conforming object has. *)
Record protocol := { pr_name : string; pr_members : list string }.

Definition REQUIRED_COMPONENTS : list (string * protocol) :=
  [("clock", {| pr_name := "Clock"; pr_members := ["now"] |});
   ("identity_verifier", {| pr_name := "IdentityVerifier"; pr_members := ["assert_matches_assertion"; "verify"] |});
   ("action_catalogue", {| pr_name := "ActionCatalogue"; pr_members := ["active_bundle_digest"; "resolve"] |});
   ("attestation_provider", {| pr_name := "AttestationProvider"; pr_members := ["resolve"] |});
   ("tool_registry", {| pr_name := "ToolRegistry"; pr_members := ["active_bundle_digest"; "resolve"] |});
   ("mandate_store", {| pr_name := "MandateStore"; pr_members := ["get"; "is_revoked"] |});
   ("kill_switch", {| pr_name := "KillSwitch"; pr_members := ["is_globally_engaged"; "is_tenant_engaged"] |});
   ("policy_decision_point", {| pr_name := "PolicyDecisionPoint"; pr_members := ["active_bundle_digest"; "decide"] |});
   ("risk_engine", {| pr_name := "RiskEngine"; pr_members := ["model_version"; "score"; "score_with_model"] |});
   ("limit_store", {| pr_name := "LimitStore"; pr_members := ["cumulative"; "release"; "try_consume"] |});
   ("baseline_store", {| pr_name := "BaselineStore"; pr_members := ["evaluate"; "get"; "observe"] |});
   ("mac_signer", {| pr_name := "MacSigner"; pr_members := ["key_id"; "mac"; "verify"] |});
   ("evidence_store", {| pr_name := "EvidenceStore"; pr_members := ["append_intent"; "append_outcome"; "verify"] |});
   ("dispatcher", {| pr_name := "Dispatcher"; pr_members := ["dispatch"] |})].

Definition WorkflowGateway : protocol :=
  {| pr_name := "WorkflowGateway";
     pr_members := ["approve"; "create_from_decision"; "escalate"; "expire"; "get_by_decision"; "list_pending";
                    "list_sla_breached"; "reject"] |}.

Inductive composition_error :=
| CompositionError (failures : list string)
| ProfileViolation (violations : list string)
| InvalidName (e : exn)
| MissingFactory.

Abbreviation composed := (sum composition_error).

Section composition.
Context {C : Type} (type_name : C -> string) (hasattr : C -> string -> bool).

(** ** Adapter sets *)

Inductive factory_result :=
| Built (c : C)
| ReturnedNone
| Raised (class_name message : string).

Inductive factory :=
| Callable (run : GlassBoxConfig -> factory_result)
| NotCallable.

Record AdapterSet := {
  as_name : string;
  as_factories : list (string * factory);
  as_dev_only : bool
}.

Definition required_names : list string := map fst REQUIRED_COMPONENTS.

Definition is_callable (f : factory) : bool := match f with Callable _ => true | NotCallable => false end.

Definition adapter_failures (factories : list (string * factory)) : list string :=
  let given := map fst factories in
  map (fun n => "missing factory: " +:+ n)
    (sorted_texts (List.filter (fun n => negb (bool_decide (n ∈ given))) required_names)) ++
  map (fun n => "unknown factory: " +:+ n)
    (sorted_texts (List.filter (fun n => negb (bool_decide (n ∈ required_names))) given)) ++
  map (fun n => "factory is not callable: " +:+ n)
    (sorted_texts (map fst (List.filter (fun kf => negb (is_callable kf.2)) factories))).

(** [__post_init__]. *)
Definition mk_AdapterSet (name : string) (factories : list (string * factory)) (dev_only : bool) : composed AdapterSet :=
  match require_identifier name "name" with
  | Raise e => inl (InvalidName e)
  | Ok name =>
      match adapter_failures factories with
      | [] => inr {| as_name := name; as_factories := factories; as_dev_only := dev_only |}
      | failures => inl (CompositionError failures)
      end
  end.

(** ** The runtime *)

Record GovernanceRuntime := {
  gr_config : GlassBoxConfig;
  gr_adapter_set_name : string;
  gr_components : list (string * C);
  gr_workflow_engine : option C
}.

(** [isinstance] against a runtime-checkable protocol. *)
Definition satisfies (c : C) (p : protocol) : bool := forallb (hasattr c) (pr_members p).

Definition missing_members (c : C) (p : protocol) : string :=
  match List.filter (fun n => negb (hasattr c n)) (pr_members p) with
  | [] => "none (signature mismatch)"
  | missing => str_join ", " missing
  end.

(** One turn of the loop: the component, or why there is none. *)
Definition build_one (config : GlassBoxConfig) (name : string) (p : protocol) (f : factory) : string + C :=
  match (match f with Callable run => run config | NotCallable => Raised "TypeError" "object is not callable" end) with
  | Raised class_name message => inl (name +:+ ": factory raised " +:+ class_name +:+ ": " +:+ message)
  | ReturnedNone => inl (name +:+ ": factory returned None")
  | Built c =>
      if satisfies c p then inr c
      else inl (name +:+ ": " +:+ type_name c +:+ " does not satisfy " +:+ pr_name p +:+
                " (missing: " +:+ missing_members c p +:+ ")")
  end.

(** The loop: the factories run, what was built and what failed.  A constructed
    adapter set has every factory, so the lookup does not fail. *)
Fixpoint build_all (config : GlassBoxConfig) (factories : list (string * factory)) (l : list (string * protocol))
    : composed (list string * list (string * C) * list string) :=
  match l with
  | [] => inr ([], [], [])
  | (name, p) :: rest =>
      match dict_get factories name with
      | None => inl MissingFactory
      | Some f =>
          match build_all config factories rest with
          | inl e => inl e
          | inr (ran, built, failures) =>
              match build_one config name p f with
              | inr c => inr (name :: ran, (name, c) :: built, failures)
              | inl failure => inr (name :: ran, built, failure :: failures)
              end
          end
      end
  end.

(** [build_runtime], with the factories it ran. *)
Definition build_runtime (config : GlassBoxConfig) (adapters : AdapterSet) : list string * composed GovernanceRuntime :=
  if as_dev_only adapters && negb (permits_dev_only_adapters (gc_profile config))
  then ([], inl (ProfileViolation ["adapter set " +:+ str_repr (as_name adapters) +:+ " is dev_only but the profile is " +:+
                                   str_repr (profile_value (gc_profile config))]))
  else
    match build_all config (as_factories adapters) REQUIRED_COMPONENTS with
    | inl e => ([], inl e)
    | inr (ran, built, []) =>
        (ran, inr {| gr_config := config; gr_adapter_set_name := as_name adapters; gr_components := built;
                     gr_workflow_engine := None |})
    | inr (ran, _, failures) => (ran, inl (CompositionError failures))
    end.

(** [component]. *)
Definition component (rt : GovernanceRuntime) (name : string) : composed C :=
  match (if bool_decide (name ∈ required_names) then dict_get (gr_components rt) name else None) with
  | Some c => inr c
  | None => inl (CompositionError [name])
  end.

Definition with_workflow_engine (rt : GovernanceRuntime) (engine : C) : composed GovernanceRuntime :=
  if satisfies engine WorkflowGateway
  then inr {| gr_config := gr_config rt; gr_adapter_set_name := gr_adapter_set_name rt;
              gr_components := gr_components rt; gr_workflow_engine := Some engine |}
  else inl (CompositionError [type_name engine +:+ ": missing " +:+ missing_members engine WorkflowGateway]).

(** [describe], the configuration's fields first. *)
Definition runtime_describe (rt : GovernanceRuntime) : json :=
  JObj ((match config_describe (gr_config rt) with JObj items => items | _ => [] end) ++
        [("adapter_set", JStr (gr_adapter_set_name rt));
         ("components", JObj (map (fun nc => (nc.1, JStr (type_name nc.2))) (gr_components rt)));
         ("workflow_engine_configured", JBool (match gr_workflow_engine rt with Some _ => true | None => false end))]).

(** ** The in-memory adapter set ([adapters/outbound/memory/__init__.py]) *)

Definition MEMORY_ADAPTER_SET_NAME : string := "in-memory-reference".

(** [memory_adapter_set]: always [dev_only], one [build_...] function per port. *)
Definition memory_adapter_set (build : string -> GlassBoxConfig -> factory_result) : composed AdapterSet :=
  mk_AdapterSet MEMORY_ADAPTER_SET_NAME
    (map (fun n => (n, Callable (build n)))
       ["clock"; "identity_verifier"; "mandate_store"; "policy_decision_point"; "risk_engine"; "limit_store";
        "baseline_store"; "mac_signer"; "evidence_store"; "dispatcher"; "action_catalogue"; "attestation_provider";
        "tool_registry"; "kill_switch"]) true.

(** ** What a build guarantees *)

Lemma adapter_failures_nil factories :
  adapter_failures factories = [] -> forall n, n ∈ required_names -> exists f, dict_get factories n = Some f.
Proof.
  unfold adapter_failures. intros [Hmiss%map_eq_nil%sorted_texts_nil _]%app_eq_nil n Hn.
  pose proof (filter_nil _ _ n Hmiss Hn) as Hg. apply negb_false_iff, bool_decide_eq_true in Hg.
  clear -Hg. induction factories as [|[k f] l IH]; [by apply not_elem_of_nil in Hg|]. cbn in *.
  destruct (String.eqb_spec k n) as [->|Hne]; [by eexists|]. apply IH. set_solver.
Qed.

(** What the factory of a component gives, read against its protocol. *)
Definition outcome_of (config : GlassBoxConfig) (factories : list (string * factory)) (np : string * protocol) : option (string + C) :=
  build_one config np.1 np.2 <$> dict_get factories np.1.

Lemma build_all_spec config factories l :
  (forall n, n ∈ map fst l -> exists f, dict_get factories n = Some f) ->
  exists built failures, build_all config factories l = inr (map fst l, built, failures) /\
    (failures = [] -> Forall2 (fun np nc => nc.1 = np.1 /\ outcome_of config factories np = Some (inr nc.2)) l built) /\
    (forall e, e ∈ failures <-> exists np, np ∈ l /\ outcome_of config factories np = Some (inl e)) /\
    length l = (length built + length failures)%nat.
Proof.
  induction l as [|[n p] l IH]; intros Hf; cbn [build_all map fst].
  { exists [], []. split_and!; [done|intros; constructor|set_solver|done]. }
  destruct (Hf n ltac:(by left)) as [f Hn]. rewrite Hn.
  destruct IH as (built & failures & -> & Hall & Hsome & Hlen); [intros; apply Hf; by right|].
  assert (outcome_of config factories (n, p) = Some (build_one config n p f)) as Ho
    by (unfold outcome_of; cbn; by rewrite Hn).
  destruct (build_one config n p f) as [e|c].
  - exists built, (e :: failures). split_and!; [done|done| |cbn; lia].
    intros e'. rewrite elem_of_cons, Hsome. split.
    + intros [->|(np & ? & ?)]; [exists (n, p)|exists np]; set_solver.
    + intros (np & [->|Hin]%elem_of_cons & He); [left; rewrite Ho in He; by injection He|right; eauto].
  - exists ((n, c) :: built), failures. split_and!; [done| | |cbn; lia].
    + intros Hnil. constructor; [done|by apply Hall].
    + intros e'. rewrite Hsome. split; [intros (np & ? & ?); exists np; set_solver|].
      intros (np & [->|Hin]%elem_of_cons & He); [by rewrite Ho in He|eauto].
Qed.

Lemma outcome_built config factories np c :
  outcome_of config factories np = Some (inr c) ->
  satisfies c np.2 = true /\ exists run, dict_get factories np.1 = Some (Callable run) /\ run config = Built c.
Proof.
  unfold outcome_of. destruct (dict_get factories np.1) as [[run|]|]; [|done..]. cbn. unfold build_one.
  destruct (run config) as [c'| |] eqn:E; [|done..]. destruct (satisfies c' np.2) eqn:Hs; [|done].
  intros [= <-]. eauto.
Qed.

(** C33.  A runtime is complete or is not built.  From an adapter set that could
    be constructed, [build_runtime] returns only when the profile admits the
    set and each of the fourteen components was made by its own factory from
    this configuration and has every member of its port; a development-only set
    under the production profile is refused before any factory runs; any other
    refusal comes after all factories ran and lists exactly the failures of the
    components that failed. *)
Theorem runtime_is_complete_or_refused name factories dev_only adapters config :
  mk_AdapterSet name factories dev_only = inr adapters ->
  match build_runtime config adapters with
  | (ran, inr rt) =>
      ran = required_names /\ gr_config rt = config /\ (dev_only = true -> gc_profile config = DEV) /\
      Forall2 (fun np nc => nc.1 = np.1 /\ forallb (hasattr nc.2) (pr_members np.2) = true /\
                 exists run, dict_get factories np.1 = Some (Callable run) /\ run config = Built nc.2)
        REQUIRED_COMPONENTS (gr_components rt)
  | (ran, inl (ProfileViolation _)) => ran = [] /\ dev_only = true /\ gc_profile config = PROD
  | (ran, inl (CompositionError failures)) =>
      ran = required_names /\ failures <> [] /\
      forall e, e ∈ failures <-> exists np, np ∈ REQUIRED_COMPONENTS /\ outcome_of config factories np = Some (inl e)
  | _ => False
  end.
Proof.
  unfold mk_AdapterSet. destruct (require_identifier name "name") as [name'|]; [|done].
  destruct (adapter_failures factories) eqn:Hf; [|done]. intros [= <-].
  unfold build_runtime. cbn [as_dev_only as_factories as_name].
  destruct (dev_only && negb (permits_dev_only_adapters (gc_profile config))) eqn:Hdev.
  { apply andb_true_iff in Hdev as [-> Hp]. by destruct (gc_profile config). }
  destruct (build_all_spec config factories REQUIRED_COMPONENTS (adapter_failures_nil _ Hf))
    as (built & failures & -> & Hall & Hsome & _).
  destruct failures as [|e failures]; [|done]. cbn [gr_config gr_components]. split_and!; [done|done| |].
  - intros ->. by destruct (gc_profile config).
  - eapply Forall2_impl; [by apply Hall|]. intros np nc [Hn Ho]. split; [done|]. by apply outcome_built in Ho.
Qed.

(** The in-memory set is refused by the production profile, whatever its
    factories would return. *)
Lemma memory_set_never_serves_production build config :
  gc_profile config = PROD ->
  exists adapters, memory_adapter_set build = inr adapters /\
    exists v, build_runtime config adapters = ([], inl (ProfileViolation v)).
Proof.
  intros Hp. unfold memory_adapter_set, mk_AdapterSet.
  assert (adapter_failures (map (fun n => (n, Callable (build n)))
       ["clock"; "identity_verifier"; "mandate_store"; "policy_decision_point"; "risk_engine"; "limit_store";
        "baseline_store"; "mac_signer"; "evidence_store"; "dispatcher"; "action_catalogue"; "attestation_provider";
        "tool_registry"; "kill_switch"]) = []) as -> by (vm_compute; reflexivity).
  assert (require_identifier MEMORY_ADAPTER_SET_NAME "name" = Ok MEMORY_ADAPTER_SET_NAME) as -> by (vm_compute; reflexivity).
  eexists. split; [done|]. unfold build_runtime. cbn [as_dev_only]. rewrite Hp. cbn [permits_dev_only_adapters negb andb].
  by eexists.
Qed.
End composition.

(** ** A build under the development profile *)

Definition stub_set : AdapterSet (C := unit) :=
  match memory_adapter_set (fun _ _ => Built tt) with
  | inr a => a
  | inl _ => {| as_name := ""; as_factories := []; as_dev_only := false |}
  end.

Lemma runtime_is_complete_or_refused_witness :
  exists config rt, build_runtime (fun _ => "Stub") (fun _ _ => true) config stub_set = (required_names, inr rt) /\
    map fst (gr_components rt) = required_names.
Proof.
  destruct (from_env dev_env) as [e|config] eqn:E; [exfalso; vm_compute in E; discriminate E|].
  assert (gc_profile config = DEV) as Hp.
  { assert (match from_env dev_env with inr c => match gc_profile c with DEV => true | PROD => false end | inl _ => false end = true)
      as Hd by (vm_compute; reflexivity). rewrite E in Hd. destruct (gc_profile config); [reflexivity|discriminate Hd]. }
  pose proof (runtime_is_complete_or_refused (fun _ => "Stub") (fun _ _ => true) MEMORY_ADAPTER_SET_NAME
    (as_factories stub_set) true stub_set config ltac:(vm_compute; reflexivity)) as Hb.
  destruct (build_runtime (fun _ => "Stub") (fun _ _ => true) config stub_set) as [ran [[failures|v|e|]|rt]] eqn:Hr.
  - exfalso. destruct Hb as (_ & Hne & Hall). destruct failures as [|f l]; [by apply Hne|].
    destruct (proj1 (Hall f) ltac:(by left)) as (np & Hin & Ho).
    repeat (apply elem_of_cons in Hin as [->|Hin]; [vm_compute in Ho; discriminate Ho|]). by apply not_elem_of_nil in Hin.
  - exfalso. destruct Hb as (_ & _ & Hprod). rewrite Hp in Hprod. discriminate Hprod.
  - destruct Hb.
  - destruct Hb.
  - destruct Hb as (-> & _ & _ & HF). exists config, rt. split; [exact Hr|].
    symmetry. clear -HF. unfold required_names. induction HF as [|np nc l l' [Hn _] _ IH]; [reflexivity|].
    cbn. rewrite Hn, IH. reflexivity.
Defined.
