(* ===== verification/Payload.v ===== *)
(** * Domain values from untyped data

    The checks the domain types make on values that come from JSON or from the
    rows of a table: what is not of the type is refused before anything else. *)

From stdpp Require Import base tactics list strings gmap.
From Stdlib Require Import ZArith Lia Floats.SpecFloat.
From S2P Require Import Prelude PyFloat PyStr Serialization Config Action.

Open Scope string_scope.
Open Scope list_scope.

(** [require_non_empty] and what follows, on any value. *)
Definition identifier_arg (v : json) (field : string) : res string :=
  match v with JStr s => require_identifier s field | _ => Raise (DomainValidationError field) end.

(** [require_finite] up to the conversion. *)
Definition number_arg (v : json) (field : string) : res float :=
  match v with
  | JInt z => float_of_int z
  | JFloat x => Ok x
  | _ => Raise (DomainValidationError field)
  end.

(** The fields of [Exposure] that may be [None]. *)
Definition monetary_arg (v : option json) : res (option float) :=
  match v with
  | None | Some JNull => Ok None
  | Some v => x ← number_arg v "monetary"; Ok (Some x)
  end.
Definition records_arg (v : option json) : res (option Z) :=
  match v with
  | None | Some JNull => Ok None
  | Some (JInt z) => Ok (Some z)
  | Some _ => Raise (DomainValidationError "records")
  end.

(** [Enum(value)]: the member of a value, or a [ValueError]. *)
Definition enum_of {A} (value : A -> string) (members : list A) (v : json) : res A :=
  match v with
  | JStr s => match List.find (fun m => (value m =? s)%string) members with Some m => Ok m | None => Raise PyValueError end
  | _ => Raise PyValueError
  end.

Definition consequence_of : json -> res ConsequenceClass :=
  enum_of consequence_value [ADVISORY; REVERSIBLE; COMPENSABLE; IRREVERSIBLE].
Definition blast_of : json -> res BlastRadius :=
  enum_of blast_value [BLAST_SINGLE; BLAST_GROUP; BLAST_TENANT; BLAST_GLOBAL].

Definition exposure_of (blast : option json) (monetary records : option json) : res Exposure :=
  b ← blast_of (default (JStr "single") blast);
  m ← monetary_arg monetary;
  _ ← res_opt (fun x => require_non_negative x "monetary") m;
  r ← records_arg records;
  mk_Exposure b m r.

Lemma consequence_back c : consequence_of (JStr (consequence_value c)) = Ok c.
Proof. by destruct c. Qed.
Lemma blast_back b : blast_of (JStr (blast_value b)) = Ok b.
Proof. by destruct b. Qed.
