(* ===== verification/Catalogue.v ===== *)
(** * The governed action catalogue and tool registry
      ([glassbox/domain/catalogue.py], [glassbox/domain/tool_registry.py])

    A dict with string keys is a list of pairs with distinct keys, in
    insertion order. *)

From stdpp Require Import base tactics list strings gmap.
From Stdlib Require Import ZArith Lia.
From S2P Require Import Prelude PyFloat PyStr Serialization Sha256 Action Identity.

Open Scope string_scope.
Open Scope list_scope.

Inductive ParameterType := PT_STRING | PT_NUMBER | PT_INTEGER | PT_BOOLEAN.
#[export] Instance ParameterType_eq_dec : EqDecision ParameterType.
Proof. solve_decision. Defined.

Definition parameter_type_value (t : ParameterType) : string :=
  match t with
  | PT_STRING => "string" | PT_NUMBER => "number" | PT_INTEGER => "integer" | PT_BOOLEAN => "boolean"
  end.

Definition type_accepts (t : ParameterType) (value : pyval) : bool :=
  match value with
  | PBool _ => match t with PT_BOOLEAN => true | _ => false end
  | PStr _ => match t with PT_STRING => true | _ => false end
  | PInt _ => match t with PT_NUMBER | PT_INTEGER => true | _ => false end
  | PFloat _ => match t with PT_NUMBER => true | _ => false end
  | _ => false
  end.

(** [d.get(key)] and [key in d]. *)
Fixpoint dict_get (d : list (string * pyval)) (key : string) : option pyval :=
  match d with
  | [] => None
  | (k, v) :: d' => if (k =? key)%string then Some v else dict_get d' key
  end.

(** [require_non_negative] on an [int]: [float(value)] overflows above the
    largest double. *)
Definition require_non_negative_int (z : Z) (field : string) : res float :=
  x ← float_of_int z;
  require_non_negative x field.

Record ParameterField := {
  pf_name : string;
  pf_type : ParameterType;
  pf_required : bool;
  pf_max_length : option Z
}.

Definition mk_ParameterField (name : string) (type : ParameterType) (required : bool)
    (max_length : option Z) : res ParameterField :=
  name ← require_identifier name "name";
  _ ← match max_length with
      | None => Ok tt
      | Some n =>
          _ ← raise_if (negb (bool_decide (type = PT_STRING))) (DomainValidationError "max_length");
          _ ← require_non_negative_int n "max_length";
          Ok tt
      end;
  Ok {| pf_name := name; pf_type := type; pf_required := required; pf_max_length := max_length |}.

Definition violation (f : ParameterField) (parameters : list (string * pyval)) : option string :=
  match dict_get parameters (pf_name f) with
  | None =>
      if pf_required f then Some ("required parameter " +:+ str_repr (pf_name f) +:+ " is missing")
      else None
  | Some value =>
      if negb (type_accepts (pf_type f) value)
      then Some ("parameter " +:+ str_repr (pf_name f) +:+ " must be of type " +:+
                 parameter_type_value (pf_type f))
      else match pf_max_length f, value with
           | Some n, PStr s =>
               if (n <? Z.of_nat (String.length s))%Z
               then Some ("parameter " +:+ str_repr (pf_name f) +:+ " exceeds max_length=" +:+ str_of_int n)
               else None
           | _, _ => None
           end
  end.

Definition parameter_field_as_evidence (f : ParameterField) : pyval :=
  pdict [("name", PStr (pf_name f)); ("type", PStr (parameter_type_value (pf_type f)));
         ("required", PBool (pf_required f)); ("max_length", p_opt PInt (pf_max_length f))].

(** ** Exposure rules *)

Record ExposureRule := {
  er_blast_radius : BlastRadius;
  er_monetary_field : option string;
  er_records_field : option string
}.

Definition mk_ExposureRule (blast_radius : BlastRadius) (monetary_field records_field : option string)
    : res ExposureRule :=
  monetary_field ← res_opt (fun f => require_identifier f "monetary_field") monetary_field;
  records_field ← res_opt (fun f => require_identifier f "records_field") records_field;
  Ok {| er_blast_radius := blast_radius; er_monetary_field := monetary_field;
        er_records_field := records_field |}.

(** [_numeric_field]. *)
Definition numeric_field (parameters : list (string * pyval)) (field_name : option string)
    : res (option float) :=
  match field_name with
  | None => Ok None
  | Some f =>
      match dict_get parameters f with
      | Some (PInt z) => x ← float_of_int z; Ok (Some x)
      | Some (PFloat x) => Ok (Some x)
      | _ => Ok None
      end
  end.

(** [_integer_field]. *)
Definition integer_field (parameters : list (string * pyval)) (field_name : option string)
    : option Z :=
  match field_name with
  | None => None
  | Some f => match dict_get parameters f with Some (PInt z) => Some z | _ => None end
  end.

Definition extract (r : ExposureRule) (parameters : list (string * pyval)) : res Exposure :=
  monetary ← numeric_field parameters (er_monetary_field r);
  let records := integer_field parameters (er_records_field r) in
  mk_Exposure (er_blast_radius r) monetary records.

Definition exposure_rule_as_evidence (r : ExposureRule) : pyval :=
  pdict [("blast_radius", PStr (blast_value (er_blast_radius r)));
         ("monetary_field", p_str_opt (er_monetary_field r));
         ("records_field", p_str_opt (er_records_field r))].

(** ** Action definitions *)

Record ActionDefinition := {
  df_action : string;
  df_consequence : ConsequenceClass;
  df_exposure_rule : ExposureRule;
  df_required_attestations : list string;
  df_parameter_schema : list ParameterField;
  df_untrusted_text_fields : gset string;
  df_sensitive_parameter_fields : gset string
}.

(** Each attestation name is validated before it is tested for a repeat. *)
Fixpoint check_attestations (seen names : list string) : res unit :=
  match names with
  | [] => Ok tt
  | n :: names' =>
      _ ← require_identifier n "required_attestations";
      _ ← raise_if (bool_decide (n ∈ seen)) (DomainValidationError "required_attestations");
      check_attestations (n :: seen) names'
  end.

Definition mk_ActionDefinition (action : string) (consequence : ConsequenceClass)
    (exposure_rule : ExposureRule) (required_attestations : list string)
    (parameter_schema : list ParameterField)
    (untrusted_text_fields sensitive_parameter_fields : gset string) : res ActionDefinition :=
  action ← require_identifier action "action";
  _ ← check_attestations [] required_attestations;
  _ ← raise_if (has_dup [] (map pf_name parameter_schema)) (DomainValidationError "parameter_schema");
  _ ← res_map (fun n => require_identifier n "untrusted_text_fields") (elements untrusted_text_fields);
  _ ← res_map (fun n => require_identifier n "sensitive_parameter_fields")
        (elements sensitive_parameter_fields);
  Ok {| df_action := action; df_consequence := consequence; df_exposure_rule := exposure_rule;
        df_required_attestations := required_attestations; df_parameter_schema := parameter_schema;
        df_untrusted_text_fields := untrusted_text_fields;
        df_sensitive_parameter_fields := sensitive_parameter_fields |}.

Definition validate_parameters (d : ActionDefinition) (parameters : list (string * pyval))
    : list string :=
  match df_parameter_schema d with
  | [] => []
  | schema =>
      let allowed := map pf_name schema in
      map (fun kv => "parameter " +:+ str_repr kv.1 +:+ " is not in this action's schema")
        (List.filter (fun kv : string * pyval => negb (bool_decide (kv.1 ∈ allowed))) parameters)
      ++ omap (fun f => violation f parameters) schema
  end.

Definition definition_as_evidence (d : ActionDefinition) : pyval :=
  pdict [("action", PStr (df_action d)); ("consequence", PStr (consequence_value (df_consequence d)));
         ("exposure_rule", exposure_rule_as_evidence (df_exposure_rule d));
         ("required_attestations", p_strs (df_required_attestations d));
         ("parameter_schema", PList (map parameter_field_as_evidence (df_parameter_schema d)));
         ("untrusted_text_fields", p_strs (sorted_set (df_untrusted_text_fields d)));
         ("sensitive_parameter_fields", p_strs (sorted_set (df_sensitive_parameter_fields d)))].

(** ** Catalogue bundles *)

Record ActionCatalogueBundle := {
  cb_bundle_id : string;
  cb_tenant_id : string;
  cb_version : Z;
  cb_definitions : list ActionDefinition
}.

Definition mk_ActionCatalogueBundle (bundle_id tenant_id : string) (version : Z)
    (definitions : list ActionDefinition) : res ActionCatalogueBundle :=
  bundle_id ← require_identifier bundle_id "bundle_id";
  tenant_id ← require_identifier tenant_id "tenant_id";
  _ ← require_non_negative_int version "version";
  _ ← raise_if (has_dup [] (map df_action definitions)) (DomainValidationError "definitions");
  Ok {| cb_bundle_id := bundle_id; cb_tenant_id := tenant_id; cb_version := version;
        cb_definitions := definitions |}.

Definition bundle_resolve (b : ActionCatalogueBundle) (action : string) : option ActionDefinition :=
  List.find (fun d => (df_action d =? action)%string) (cb_definitions b).

(** [hashlib.sha256(canonical_bytes(payload)).hexdigest()]. *)
Definition digest_of (payload : pyval) : res string :=
  b ← canonical_bytes payload;
  Ok (bytes_hex (sha256 b)).

Definition bundle_digest (b : ActionCatalogueBundle) : res string :=
  digest_of (pdict [("bundle_id", PStr (cb_bundle_id b)); ("tenant_id", PStr (cb_tenant_id b));
                    ("version", PInt (cb_version b));
                    ("definitions", PList (map definition_as_evidence (cb_definitions b)))]).

(** ** Tools *)

Record ToolDefinition := {
  td_tool_name : string;
  td_definition_sha256 : string;
  td_action : ActionDefinition
}.

Definition mk_ToolDefinition (tool_name definition_sha256 : string) (action : ActionDefinition)
    : res ToolDefinition :=
  tool_name ← require_identifier tool_name "tool_name";
  definition_sha256 ← require_sha256_hex definition_sha256 "definition_sha256";
  Ok {| td_tool_name := tool_name; td_definition_sha256 := definition_sha256; td_action := action |}.

Definition tool_as_evidence (t : ToolDefinition) : pyval :=
  pdict [("tool_name", PStr (td_tool_name t)); ("definition_sha256", PStr (td_definition_sha256 t));
         ("action", definition_as_evidence (td_action t))].

Record ToolRegistryBundle := {
  tb_bundle_id : string;
  tb_tenant_id : string;
  tb_version : Z;
  tb_definitions : list ToolDefinition
}.

Definition mk_ToolRegistryBundle (bundle_id tenant_id : string) (version : Z)
    (definitions : list ToolDefinition) : res ToolRegistryBundle :=
  bundle_id ← require_identifier bundle_id "bundle_id";
  tenant_id ← require_identifier tenant_id "tenant_id";
  _ ← require_non_negative_int version "version";
  _ ← raise_if (has_dup [] (map td_tool_name definitions)) (DomainValidationError "definitions");
  Ok {| tb_bundle_id := bundle_id; tb_tenant_id := tenant_id; tb_version := version;
        tb_definitions := definitions |}.

Definition tool_resolve (b : ToolRegistryBundle) (tool_name : string) : option ToolDefinition :=
  List.find (fun d => (td_tool_name d =? tool_name)%string) (tb_definitions b).

Definition tool_bundle_digest (b : ToolRegistryBundle) : res string :=
  digest_of (pdict [("bundle_id", PStr (tb_bundle_id b)); ("tenant_id", PStr (tb_tenant_id b));
                    ("version", PInt (tb_version b));
                    ("definitions", PList (map tool_as_evidence (tb_definitions b)))]).

(** ** The schema is an allow-list *)

(** [parameters] fits one field: absent only if optional, and otherwise of the
    declared type and, for a bounded string, short enough. *)
Definition field_fits (f : ParameterField) (parameters : list (string * pyval)) : Prop :=
  match dict_get parameters (pf_name f) with
  | None => pf_required f = false
  | Some v => type_accepts (pf_type f) v = true /\
      forall n s, pf_max_length f = Some n -> v = PStr s -> (Z.of_nat (String.length s) <= n)%Z
  end.

Lemma violation_none f ps : violation f ps = None <-> field_fits f ps.
Proof.
  unfold violation, field_fits. destruct (dict_get ps (pf_name f)) as [v|].
  - destruct (type_accepts (pf_type f) v); simpl; [|naive_solver].
    destruct (pf_max_length f) as [n|]; [|naive_solver]. destruct v; try naive_solver.
    destruct (Z.ltb_spec n (Z.of_nat (String.length s))); [|naive_solver].
    split; [done|]. intros [_ H']. specialize (H' n s eq_refl eq_refl). lia.
  - by destruct (pf_required f).
Qed.

Lemma omap_nil {A B} (f : A -> option B) l : omap f l = [] <-> Forall (fun x => f x = None) l.
Proof.
  induction l as [|x l IH]; [by split|]. cbn. rewrite Forall_cons, <-IH.
  destruct (f x); naive_solver.
Qed.

(** A non-empty parameter schema is an allow-list: parameters pass exactly
    when every key is named by the schema and every field of the schema fits
    (present if required, of the declared type, within its length).  An empty
    schema passes everything. *)
Theorem schema_is_allow_list d ps :
  (df_parameter_schema d = [] -> validate_parameters d ps = []) /\
  (df_parameter_schema d <> [] ->
   (validate_parameters d ps = [] <->
      (forall k v, (k, v) ∈ ps -> k ∈ map pf_name (df_parameter_schema d)) /\
      (forall f, f ∈ df_parameter_schema d -> field_fits f ps))).
Proof.
  unfold validate_parameters. destruct (df_parameter_schema d) as [|f0 fs] eqn:E; [by split; [|intros []]|].
  split; [done|]. intros _. rewrite <-E. set (schema := df_parameter_schema d).
  rewrite app_nil, omap_nil, Forall_forall. setoid_rewrite violation_none.
  apply and_iff_compat_r. split.
  - intros H k v Hk. apply dec_stable. intros Hno. apply map_eq_nil in H.
    assert ((k, v) ∈ List.filter (fun kv : string * pyval => negb (bool_decide (kv.1 ∈ map pf_name schema))) ps)
      as Hin; [|rewrite H in Hin; by apply not_elem_of_nil in Hin].
    apply list_elem_of_In, filter_In. split; [by apply list_elem_of_In|].
    by apply negb_true_iff, bool_decide_eq_false.
  - intros H. match goal with |- map ?g ?l = _ => assert (l = []) as -> end; [|done].
    apply elem_of_nil_inv. intros [k v] Hin. apply list_elem_of_In, filter_In in Hin as [Hin Hb].
    apply negb_true_iff, bool_decide_eq_false in Hb. apply Hb, (H k v). by apply list_elem_of_In.
Qed.

(** ** An unknown magnitude is never a small one *)

Lemma extract_monetary r ps e m :
  extract r ps = Ok e -> ex_monetary e = Some m ->
  exists f, er_monetary_field r = Some f /\
    (dict_get ps f = Some (PFloat m) \/ exists z, dict_get ps f = Some (PInt z) /\ m = fz z).
Proof.
  unfold extract. intros H Hm. apply bind_ok in H as (mo & Hmo & He).
  apply mk_Exposure_ok in He as [-> _]. cbn in Hm. subst mo.
  unfold numeric_field in Hmo. destruct (er_monetary_field r) as [f|]; [|done].
  exists f. split; [done|]. destruct (dict_get ps f) as [[]|]; try done; try naive_solver.
  right. apply bind_ok in Hmo as (x & Hx & [= <-]). unfold float_of_int in Hx.
  exists z. destruct (isfinite (fz z)); naive_solver.
Qed.

(** Exposure is never guessed: a derived monetary (or record) magnitude
    is a number the configured parameter really holds, non-negative; when the
    parameter is absent or of another type the magnitude is unknown, and an
    unknown magnitude exceeds every ceiling that bounds that dimension. *)
Theorem unknown_exposure_never_small r ps e ceiling :
  extract r ps = Ok e ->
  exposure_wf e /\ ex_blast_radius e = er_blast_radius r /\
  (forall m, ex_monetary e = Some m -> exists f, er_monetary_field r = Some f /\
     (dict_get ps f = Some (PFloat m) \/ exists z, dict_get ps f = Some (PInt z) /\ m = fz z)) /\
  (forall n, ex_records e = Some n -> exists f, er_records_field r = Some f /\
     dict_get ps f = Some (PInt n)) /\
  (ex_monetary e = None -> is_Some (ex_monetary ceiling) -> exceeds e ceiling = true) /\
  (ex_records e = None -> is_Some (ex_records ceiling) -> exceeds e ceiling = true).
Proof.
  intros H. assert (Hc : forall b, (exceeds e ceiling = false -> b) -> ~ b -> exceeds e ceiling = true)
    by (intros b Hb Hnb; destruct (exceeds e ceiling); [done | by destruct Hnb; apply Hb]).
  split_and!.
  - unfold extract in H. apply bind_ok in H as (? & _ & He). by apply mk_Exposure_ok in He as [_ ?].
  - unfold extract in H. apply bind_ok in H as (? & _ & He). by apply mk_Exposure_ok in He as [-> ?].
  - intros m Hm. by eapply extract_monetary.
  - intros n Hn. unfold extract in H. apply bind_ok in H as (? & _ & He).
    apply mk_Exposure_ok in He as [-> _]. cbn in Hn. unfold integer_field in Hn.
    destruct (er_records_field r) as [f|]; [|done]. exists f. split; [done|].
    destruct (dict_get ps f) as [[]|]; congruence.
  - intros Hm [c Hceil]. apply (Hc (exists m, ex_monetary e = Some m /\ fgt m c = false)).
    + intros Hw. by apply within_spec in Hw as (_ & Hw & _); apply Hw.
    + rewrite Hm. naive_solver.
  - intros Hr [c Hceil]. apply (Hc (exists n, ex_records e = Some n /\ (n <= c)%Z)).
    + intros Hw. by apply within_spec in Hw as (_ & _ & Hw); apply Hw.
    + rewrite Hr. naive_solver.
Qed.

Definition sample_rule : ExposureRule :=
  {| er_blast_radius := BLAST_SINGLE; er_monetary_field := Some "amount"; er_records_field := None |}.

Lemma unknown_exposure_never_small_witness :
  let e := {| ex_blast_radius := BLAST_SINGLE; ex_monetary := None; ex_records := None |} in
  exceeds e (sample_exposure 1000) = true.
Proof.
  intros e. destruct (unknown_exposure_never_small sample_rule [("amount", PStr "5000000")] e
    (sample_exposure 1000)) as (_ & _ & _ & _ & H & _); [vm_compute; reflexivity|].
  apply H; [reflexivity | eexists; reflexivity].
Defined.
