(* ===== verification/Registry.v ===== *)
(** * In-memory registries: action catalogue, attestations, tools, kill switch
      ([glassbox/adapters/outbound/memory/catalogue.py], [tool_registry.py],
      [kill_switch.py])

    Each class is a record of its attributes; a method that writes returns the
    new record, a method that only reads returns its answer.  The methods run
    under the object's lock, so they are atomic. *)

From stdpp Require Import base tactics list strings gmap.
From Stdlib Require Import ZArith Lia.
From S2P Require Import Prelude PyFloat PyStr Serialization Action Identity Catalogue.

Open Scope string_scope.
Open Scope list_scope.

(** ** [InMemoryActionCatalogue] *)

Record ActionCatalogue := {
  ac_bundles : gmap string ActionCatalogueBundle;
  ac_available : bool
}.

Definition catalogue_init : ActionCatalogue := {| ac_bundles := ∅; ac_available := true |}.

Definition catalogue_load_bundle (c : ActionCatalogue) (bundle : ActionCatalogueBundle)
    : ActionCatalogue :=
  {| ac_bundles := <[cb_tenant_id bundle := bundle]> (ac_bundles c); ac_available := ac_available c |}.

Definition catalogue_active_bundle (c : ActionCatalogue) (tenant_id : string)
    : res ActionCatalogueBundle :=
  _ ← raise_if (negb (ac_available c)) CatalogueBundleUnavailableError;
  match ac_bundles c !! tenant_id with
  | Some b => Ok b
  | None => Raise CatalogueBundleUnavailableError
  end.

Definition catalogue_resolve (c : ActionCatalogue) (tenant_id action : string) : res ActionDefinition :=
  bundle ← catalogue_active_bundle c tenant_id;
  match bundle_resolve bundle action with
  | Some d => Ok d
  | None => Raise ActionNotGovernedError
  end.

Definition catalogue_active_bundle_digest (c : ActionCatalogue) (tenant_id : string) : res string :=
  b ← catalogue_active_bundle c tenant_id; bundle_digest b.

Definition catalogue_set_available (c : ActionCatalogue) (available : bool) : ActionCatalogue :=
  {| ac_bundles := ac_bundles c; ac_available := available |}.

(** ** [InMemoryAttestationProvider] *)

Record AttestationProvider := {
  at_facts : gmap (string * string * string) bool;
  at_available : bool
}.

Definition attestation_init : AttestationProvider := {| at_facts := ∅; at_available := true |}.

Definition attestation_record (p : AttestationProvider) (tenant_id : string) (resource : ResourceRef)
    (name : string) (value : bool) : AttestationProvider :=
  {| at_facts := <[(tenant_id, qualified_name resource, name) := value]> (at_facts p);
     at_available := at_available p |}.

Definition attestation_resolve (p : AttestationProvider) (tenant_id : string) (resource : ResourceRef)
    (name : string) : res bool :=
  _ ← raise_if (negb (at_available p)) AttestationUnavailableError;
  match at_facts p !! (tenant_id, qualified_name resource, name) with
  | Some v => Ok v
  | None => Raise AttestationUnavailableError
  end.

Definition attestation_set_available (p : AttestationProvider) (available : bool)
    : AttestationProvider := {| at_facts := at_facts p; at_available := available |}.

(** ** [InMemoryToolRegistry] *)

Record ToolRegistry := {
  tr_bundles : gmap string ToolRegistryBundle;
  tr_available : bool;
  tr_approved_digests : gmap (string * string) string;
  tr_quarantined : gset (string * string)
}.

Definition registry_init : ToolRegistry :=
  {| tr_bundles := ∅; tr_available := true; tr_approved_digests := ∅; tr_quarantined := ∅ |}.

(** One turn of the loop of [load_bundle]. *)
Definition load_definition (tenant_id : string)
    (acc : gmap (string * string) string * gset (string * string)) (d : ToolDefinition)
    : gmap (string * string) string * gset (string * string) :=
  let key := (tenant_id, td_tool_name d) in
  match acc.1 !! key with
  | None => (<[key := td_definition_sha256 d]> acc.1, acc.2)
  | Some previous =>
      if negb (previous =? td_definition_sha256 d)%string then (acc.1, {[key]} ∪ acc.2) else acc
  end.

Definition registry_load_bundle (r : ToolRegistry) (bundle : ToolRegistryBundle) : ToolRegistry :=
  let acc := foldl (load_definition (tb_tenant_id bundle))
               (tr_approved_digests r, tr_quarantined r) (tb_definitions bundle) in
  {| tr_bundles := <[tb_tenant_id bundle := bundle]> (tr_bundles r); tr_available := tr_available r;
     tr_approved_digests := acc.1; tr_quarantined := acc.2 |}.

Definition registry_active_bundle (r : ToolRegistry) (tenant_id : string) : res ToolRegistryBundle :=
  _ ← raise_if (negb (tr_available r)) ToolRegistryUnavailableError;
  match tr_bundles r !! tenant_id with
  | Some b => Ok b
  | None => Raise ToolRegistryUnavailableError
  end.

Definition registry_is_quarantined (r : ToolRegistry) (tenant_id tool_name : string) : bool :=
  bool_decide ((tenant_id, tool_name) ∈ tr_quarantined r).

Definition registry_resolve (r : ToolRegistry) (tenant_id tool_name definition_sha256 : string)
    : res ToolDefinition :=
  bundle ← registry_active_bundle r tenant_id;
  _ ← raise_if (registry_is_quarantined r tenant_id tool_name) ToolQuarantinedError;
  match tool_resolve bundle tool_name with
  | None => Raise ToolNotGovernedError
  | Some definition =>
      _ ← raise_if (negb (td_definition_sha256 definition =? lower definition_sha256)%string)
            ToolNotGovernedError;
      Ok definition
  end.

Definition registry_approve (r : ToolRegistry) (tenant_id tool_name definition_sha256 : string)
    : ToolRegistry :=
  let key := (tenant_id, tool_name) in
  {| tr_bundles := tr_bundles r; tr_available := tr_available r;
     tr_approved_digests := <[key := lower definition_sha256]> (tr_approved_digests r);
     tr_quarantined := tr_quarantined r ∖ {[key]} |}.

Definition registry_active_bundle_digest (r : ToolRegistry) (tenant_id : string) : res string :=
  b ← registry_active_bundle r tenant_id; tool_bundle_digest b.

Definition registry_set_available (r : ToolRegistry) (available : bool) : ToolRegistry :=
  {| tr_bundles := tr_bundles r; tr_available := available;
     tr_approved_digests := tr_approved_digests r; tr_quarantined := tr_quarantined r |}.

(** ** [InMemoryKillSwitch] *)

Record KillSwitch := {
  ks_tenants : gset string;
  ks_global : bool;
  ks_available : bool
}.

Definition kill_switch_init : KillSwitch :=
  {| ks_tenants := ∅; ks_global := false; ks_available := true |}.

Definition kill_require_available (k : KillSwitch) : res unit :=
  raise_if (negb (ks_available k)) KillSwitchUnavailableError.

Definition is_tenant_engaged (k : KillSwitch) (tenant_id : string) : res bool :=
  _ ← kill_require_available k; Ok (bool_decide (tenant_id ∈ ks_tenants k)).

Definition is_globally_engaged (k : KillSwitch) : res bool :=
  _ ← kill_require_available k; Ok (ks_global k).

Definition engage_tenant (k : KillSwitch) (tenant_id : string) : KillSwitch :=
  {| ks_tenants := {[tenant_id]} ∪ ks_tenants k; ks_global := ks_global k; ks_available := ks_available k |}.
Definition disengage_tenant (k : KillSwitch) (tenant_id : string) : KillSwitch :=
  {| ks_tenants := ks_tenants k ∖ {[tenant_id]}; ks_global := ks_global k; ks_available := ks_available k |}.
Definition engage_globally (k : KillSwitch) : KillSwitch :=
  {| ks_tenants := ks_tenants k; ks_global := true; ks_available := ks_available k |}.
Definition disengage_globally (k : KillSwitch) : KillSwitch :=
  {| ks_tenants := ks_tenants k; ks_global := false; ks_available := ks_available k |}.
Definition kill_set_available (k : KillSwitch) (available : bool) : KillSwitch :=
  {| ks_tenants := ks_tenants k; ks_global := ks_global k; ks_available := available |}.

(** ** Rug pulls *)

(** The operations of the registry, and a run of them from the start. *)
Inductive registry_op :=
| OpLoad (bundle : ToolRegistryBundle)
| OpApprove (tenant_id tool_name definition_sha256 : string)
| OpSetAvailable (available : bool).

Definition registry_step (r : ToolRegistry) (op : registry_op) : ToolRegistry :=
  match op with
  | OpLoad b => registry_load_bundle r b
  | OpApprove t n d => registry_approve r t n d
  | OpSetAvailable a => registry_set_available r a
  end.

Definition registry_run (ops : list registry_op) : ToolRegistry :=
  foldl registry_step registry_init ops.

(** The digest of the first definition of [name] in any bundle of [tenant]. *)
Fixpoint first_seen (ops : list registry_op) (tenant name : string) : option string :=
  match ops with
  | [] => None
  | OpLoad b :: ops' =>
      match (if (tb_tenant_id b =? tenant)%string then tool_resolve b name else None) with
      | Some d => Some (td_definition_sha256 d)
      | None => first_seen ops' tenant name
      end
  | _ :: ops' => first_seen ops' tenant name
  end.

Definition approves (tenant name : string) (op : registry_op) : bool :=
  match op with OpApprove t n _ => (t =? tenant)%string && (n =? name)%string | _ => false end.

Lemma load_definition_own t ap q d :
  let acc := load_definition t (ap, q) d in
  acc.1 !! (t, td_tool_name d) = Some (td_definition_sha256 d) \/ (t, td_tool_name d) ∈ acc.2.
Proof.
  unfold load_definition. cbn [fst snd]. destruct (ap !! (t, td_tool_name d)) as [prev|] eqn:E.
  - destruct (String.eqb_spec prev (td_definition_sha256 d)) as [->|]; cbn; [by left|].
    right. set_solver.
  - left. cbn. apply lookup_insert_eq.
Qed.

(** One tool's part of the loop of [load_bundle]: the approval is kept, a first
    one is taken from the bundle, and a different digest quarantines. *)
Lemma load_definitions_spec t n l : forall ap q,
  let acc := foldl (load_definition t) (ap, q) l in
  let key := (t, n) in
  (forall g, ap !! key = Some g -> acc.1 !! key = Some g) /\
  (key ∈ q -> key ∈ acc.2) /\
  (ap !! key = None -> acc.1 !! key =
     td_definition_sha256 <$> List.find (fun d => (td_tool_name d =? n)%string) l) /\
  (forall d, d ∈ l -> td_tool_name d = n ->
     acc.1 !! key = Some (td_definition_sha256 d) \/ key ∈ acc.2).
Proof.
  induction l as [|d l IH]; intros ap q; cbn [foldl].
  { split_and!; try done. by intros d Hd%not_elem_of_nil. }
  set (acc1 := load_definition t (ap, q) d).
  destruct (IH acc1.1 acc1.2) as (IH1 & IH2 & IH3 & IH4). rewrite <-surjective_pairing in *.
  assert (Hkeep : forall g, ap !! (t, n) = Some g -> acc1.1 !! (t, n) = Some g).
  { intros g Hg. unfold acc1, load_definition. cbn [fst snd].
    destruct (ap !! (t, td_tool_name d)) eqn:E; [by destruct (negb _)|].
    cbn. rewrite lookup_insert_ne; [done|]. intros [= Heq]. subst n. congruence. }
  split_and!.
  - intros g Hg. by apply IH1, Hkeep.
  - intros Hq. apply IH2. unfold acc1, load_definition. cbn [fst snd].
    repeat case_match; cbn; set_solver.
  - intros Hnone. cbn [List.find]. destruct (String.eqb_spec (td_tool_name d) n) as [<-|Hne].
    + apply IH1. unfold acc1, load_definition. cbn [fst snd]. rewrite Hnone. cbn. apply lookup_insert_eq.
    + apply IH3. unfold acc1, load_definition. cbn [fst snd].
      repeat case_match; cbn; rewrite ?lookup_insert_ne by congruence; done.
  - intros d' [->|Hd]%elem_of_cons Hn; [|by apply IH4]. subst n.
    destruct (load_definition_own t ap q d); [left; by apply IH1 | right; by apply IH2].
Qed.

Lemma load_definitions_other t l : forall ap q k,
  k.1 <> t ->
  (foldl (load_definition t) (ap, q) l).1 !! k = ap !! k /\
  (k ∈ (foldl (load_definition t) (ap, q) l).2 <-> k ∈ q).
Proof.
  induction l as [|d l IH]; intros ap q k Hk; cbn [foldl]; [done|].
  rewrite (surjective_pairing (load_definition t (ap, q) d)).
  destruct (IH (load_definition t (ap, q) d).1 (load_definition t (ap, q) d).2 k Hk) as [-> ->].
  assert (k <> (t, td_tool_name d)) by (intros ->; done).
  unfold load_definition. cbn [fst snd].
  repeat case_match; cbn; rewrite ?lookup_insert_ne by done; set_solver.
Qed.

(** What holds of one tool in every reachable registry, as long as it was not
    explicitly re-approved. *)
Definition tool_invariant (ops : list registry_op) (r : ToolRegistry) (t n : string) : Prop :=
  tr_approved_digests r !! (t, n) = first_seen ops t n /\
  forall b d, tr_bundles r !! t = Some b -> tool_resolve b n = Some d ->
    first_seen ops t n = Some (td_definition_sha256 d) \/ (t, n) ∈ tr_quarantined r.

Lemma first_seen_snoc ops op t n :
  first_seen (ops ++ [op]) t n =
  match first_seen ops t n with Some g => Some g | None => first_seen [op] t n end.
Proof.
  induction ops as [|o ops IH]; [done|]. cbn [app first_seen]. destruct o; try done.
  by destruct (if _ : bool then _ else _).
Qed.

Lemma tool_invariant_step ops r t n op :
  tool_invariant ops r t n -> approves t n op = false ->
  tool_invariant (ops ++ [op]) (registry_step r op) t n.
Proof.
  intros [Hap Hb] Hop. unfold tool_invariant. rewrite !first_seen_snoc.
  destruct op as [b|t' n' d|a]; cbn [registry_step first_seen].
  - unfold registry_load_bundle. cbn [tr_approved_digests tr_bundles tr_quarantined].
    destruct (String.eqb_spec (tb_tenant_id b) t) as [<-|Hne].
    + destruct (load_definitions_spec (tb_tenant_id b) n (tb_definitions b)
                  (tr_approved_digests r) (tr_quarantined r)) as (H1 & H2 & H3 & H4).
      assert (Happ : (foldl (load_definition (tb_tenant_id b)) (tr_approved_digests r, tr_quarantined r)
                 (tb_definitions b)).1 !! (tb_tenant_id b, n) =
               match first_seen ops (tb_tenant_id b) n with
               | Some g => Some g
               | None => match tool_resolve b n with
                         | Some d => Some (td_definition_sha256 d) | None => None end end).
      { destruct (first_seen ops (tb_tenant_id b) n) as [g|] eqn:E.
        - by apply H1.
        - rewrite H3 by done. unfold tool_resolve. by destruct (List.find _ _). }
      split; [exact Happ|]. rewrite <-Happ. intros b' d Hb' Hd. rewrite lookup_insert_eq in Hb'.
      injection Hb' as <-. unfold tool_resolve in Hd. apply find_some in Hd as [Hin Hn].
      apply String.eqb_eq in Hn. apply H4; [by apply list_elem_of_In | done].
    + destruct (load_definitions_other (tb_tenant_id b) (tb_definitions b)
                  (tr_approved_digests r) (tr_quarantined r) (t, n)) as [-> Hq]; [by cbn|].
      split; [rewrite Hap; by destruct (first_seen ops t n)|].
      intros b' d Hb' Hd. rewrite lookup_insert_ne in Hb' by done.
      rewrite Hq. destruct (Hb b' d Hb' Hd) as [->|?]; auto.
  - unfold registry_approve. cbn in *.
    assert ((t', n') <> (t, n)) as Hne.
    { intros [= -> ->]. by rewrite !String.eqb_refl in Hop. }
    split; [rewrite lookup_insert_ne by done; rewrite Hap; by destruct (first_seen ops t n)|].
    intros b d' Hb' Hd. destruct (Hb b d' Hb' Hd) as [->|?]; [by left|]. right. set_solver.
  - cbn. split; [rewrite Hap; by destruct (first_seen ops t n)|].
    intros b d Hb' Hd. destruct (Hb b d Hb' Hd) as [->|?]; auto.
Qed.

Lemma tool_invariant_run ops t n :
  forallb (fun op => negb (approves t n op)) ops = true -> tool_invariant ops (registry_run ops) t n.
Proof.
  induction ops as [|op ops IH] using rev_ind; intros H.
  - split; [done|]. intros b d Hb. by change (tr_bundles (registry_run [])) with (∅ : gmap string ToolRegistryBundle) in Hb.
  - rewrite forallb_app in H. apply andb_true_iff in H as [H Hop]. cbn in Hop.
    rewrite andb_true_r in Hop. apply negb_true_iff in Hop.
    unfold registry_run. rewrite foldl_app. cbn [foldl]. apply tool_invariant_step; [by apply IH | done].
Qed.

(** Rug-pull protection: after any sequence of loads, outages and
    approvals of other tools, a tool that was never explicitly re-approved
    resolves only at the digest it had when it was first seen, whatever the
    bundles loaded since say. *)
Theorem rug_pull_is_refused ops t n digest d :
  forallb (fun op => negb (approves t n op)) ops = true ->
  registry_resolve (registry_run ops) t n digest = Ok d ->
  first_seen ops t n = Some (td_definition_sha256 d) /\ td_definition_sha256 d = lower digest /\
  td_tool_name d = n.
Proof.
  intros Hops Hres. destruct (tool_invariant_run ops t n Hops) as [_ Hinv].
  unfold registry_resolve, registry_active_bundle in Hres.
  apply bind_ok in Hres as (b & Hb & Hres). apply bind_ok in Hb as ([] & _ & Hb).
  destruct (tr_bundles (registry_run ops) !! t) as [b'|] eqn:Eb; [|done]. injection Hb as ->.
  apply bind_ok in Hres as ([] & Hq & Hres). apply raise_if_ok, bool_decide_eq_false in Hq.
  destruct (tool_resolve b n) as [d'|] eqn:Ed; [|done].
  apply bind_ok in Hres as ([] & Hd & [= ->]). apply raise_if_ok, negb_false_iff, String.eqb_eq in Hd.
  destruct (Hinv b d eq_refl Ed) as [?|?]; [|done]. split_and!; try done.
  unfold tool_resolve in Ed. apply find_some in Ed as [_ Hn]. by apply String.eqb_eq.
Qed.

Definition sample_definition (digest : string) : ToolDefinition :=
  {| td_tool_name := "search"; td_definition_sha256 := digest;
     td_action := {| df_action := "search.run"; df_consequence := REVERSIBLE;
                     df_exposure_rule := sample_rule; df_required_attestations := [];
                     df_parameter_schema := []; df_untrusted_text_fields := ∅;
                     df_sensitive_parameter_fields := ∅ |} |}.

Definition sample_tool_bundle (digest : string) : ToolRegistryBundle :=
  {| tb_bundle_id := "tools"; tb_tenant_id := "t1"; tb_version := 1;
     tb_definitions := [sample_definition digest] |}.

Lemma rug_pull_is_refused_witness :
  let ops := [OpLoad (sample_tool_bundle "aa")] in
  first_seen ops "t1" "search" = Some "aa" /\ "aa" = lower "AA" /\ "search" = "search".
Proof.
  apply (rug_pull_is_refused [OpLoad (sample_tool_bundle "aa")] "t1" "search" "AA" (sample_definition "aa"));
    vm_compute; reflexivity.
Defined.

(** A changed definition is quarantined. *)
Example rug_pull_quarantines :
  registry_resolve (registry_run [OpLoad (sample_tool_bundle "aa"); OpLoad (sample_tool_bundle "bb")])
    "t1" "search" "bb" = Raise ToolQuarantinedError.
Proof. vm_compute. reflexivity. Qed.

(** [approve] lifts the quarantine at whatever digest it is given, and
    [resolve] never compares with the approved digest: the changed definition
    "bb" becomes callable by an approval of a third digest "cc". *)
Example approve_any_digest_unlocks :
  let r := registry_run [OpLoad (sample_tool_bundle "aa"); OpLoad (sample_tool_bundle "bb");
                         OpApprove "t1" "search" "cc"] in
  registry_resolve r "t1" "search" "bb" = Ok (sample_definition "bb") /\
  tr_approved_digests r !! ("t1", "search") = Some "cc".
Proof. split; vm_compute; reflexivity. Qed.
