(* ===== verification/Signing.v ===== *)
(** * MAC signing ([glassbox/ports/keys.py], [glassbox/adapters/outbound/signing.py],
      [glassbox/adapters/outbound/memory/signing.py])

    The [MacSigner] port as a class of operations with its laws, and the
    in-process HMAC signer as an instance.  A signer's state (keys, outage) is
    a value, so what evidence code does is a function of the signer it holds
    at that time. *)

From stdpp Require Import base tactics list strings gmap.
From Stdlib Require Import ZArith Lia Init.Byte.
From S2P Require Import Prelude PyFloat PyStr Serialization Sha256 Merkle.

Open Scope string_scope.
Open Scope list_scope.

(** ** The port *)
Class MacSigner (S : Type) := {
  signer_key_id : S -> string;
  signer_mac : S -> bytes -> res bytes;
  signer_verify : S -> bytes -> bytes -> string -> res bool
}.

(** What evidence code relies on: a MAC is 32 bytes and verifies under the key
    that made it, and whether a key can be reached does not depend on the
    payload. *)
Class MacSignerLaws (S : Type) `{MacSigner S} := {
  mac_length : forall s p m, signer_mac s p = Ok m -> length m = 32%nat;
  mac_verifies : forall s p m, signer_mac s p = Ok m -> signer_verify s p m (signer_key_id s) = Ok true;
  verify_total : forall s p m k b, signer_verify s p m k = Ok b ->
    forall p', exists b', signer_verify s p' m k = Ok b'
}.

(** One MAC that authenticates two different payloads: what a forger who keeps
    a stored MAC must find, for these two payloads, and unforgeability excludes. *)
Definition forged_mac {S} `{MacSigner S} (s : S) (p p' m : bytes) (k : string) : Prop :=
  p <> p' /\ signer_verify s p m k = Ok true /\ signer_verify s p' m k = Ok true.

(** A later state of a signer still verifies what an earlier one verified. *)
Definition signer_extends {S} `{MacSigner S} (s s' : S) : Prop :=
  forall p m k, signer_verify s p m k = Ok true -> signer_verify s' p m k = Ok true.

(** ** The MAC scheme *)

Definition MAC_DOMAIN_TAG : bytes := utf8 "glassbox.evidence.mac.v1".
Definition MAC_MESSAGE_LENGTH : nat := length MAC_DOMAIN_TAG + 1 + 32.

Definition mac_message (payload : bytes) : bytes := MAC_DOMAIN_TAG ++ [x00] ++ sha256 payload.

Lemma mac_message_length p : length (mac_message p) = MAC_MESSAGE_LENGTH.
Proof. unfold mac_message. rewrite !length_app, sha256_length. done. Qed.

Lemma mac_message_inj p q : mac_message p = mac_message q -> p = q \/ collide (eq p) (eq q).
Proof. unfold mac_message. intros H%app_inv_head%app_inv_head. by apply sha256_eq. Qed.

(** ** [LocalMacSigner] *)

Record LocalMacSigner := {
  ls_key_id : string;
  ls_keys : gmap string bytes;
  ls_available : bool
}.

(** [secrets.token_bytes(32)] is the argument [key] when no key is given. *)
Definition local_signer_init (key_id : string) (key : bytes) (historic_keys : gmap string bytes)
    : LocalMacSigner :=
  {| ls_key_id := key_id; ls_keys := <[key_id := key]> historic_keys; ls_available := true |}.

Definition local_mac (s : LocalMacSigner) (payload : bytes) : res bytes :=
  _ ← raise_if (negb (ls_available s)) SigningUnavailableError;
  match ls_keys s !! ls_key_id s with
  | Some key => Ok (hmac_sha256 key (mac_message payload))
  | None => Raise PyKeyError
  end.

Definition local_verify (s : LocalMacSigner) (payload mac : bytes) (key_id : string) : res bool :=
  _ ← raise_if (negb (ls_available s)) SigningUnavailableError;
  match ls_keys s !! key_id with
  | None => Raise SigningUnavailableError
  | Some key => Ok (bool_decide (hmac_sha256 key (mac_message payload) = mac))
  end.

Definition local_rotate (s : LocalMacSigner) (new_key_id : string) (fresh : bytes) : LocalMacSigner :=
  {| ls_key_id := new_key_id; ls_keys := <[new_key_id := fresh]> (ls_keys s);
     ls_available := ls_available s |}.

Definition local_set_available (s : LocalMacSigner) (available : bool) : LocalMacSigner :=
  {| ls_key_id := ls_key_id s; ls_keys := ls_keys s; ls_available := available |}.

#[export] Instance local_signer : MacSigner LocalMacSigner :=
  {| signer_key_id := ls_key_id; signer_mac := local_mac; signer_verify := local_verify |}.

Lemma local_mac_ok s p m :
  local_mac s p = Ok m ->
  ls_available s = true /\
  exists key, ls_keys s !! ls_key_id s = Some key /\ m = hmac_sha256 key (mac_message p).
Proof.
  unfold local_mac. intros H. apply bind_ok in H as ([] & Ha & H).
  apply raise_if_ok, negb_false_iff in Ha. destruct (ls_keys s !! _) as [key|]; [|done].
  injection H as <-. eauto.
Qed.

Lemma local_verify_ok s p m k :
  local_verify s p m k = Ok true <->
  ls_available s = true /\ exists key, ls_keys s !! k = Some key /\ m = hmac_sha256 key (mac_message p).
Proof.
  unfold local_verify. rewrite bind_ok. split.
  - intros ([] & Ha & H). apply raise_if_ok, negb_false_iff in Ha. split; [done|].
    destruct (ls_keys s !! k) as [key|]; [|done]. injection H as H%bool_decide_eq_true. eauto.
  - intros (Ha & key & Hk & ->). exists tt. split; [by rewrite Ha|]. rewrite Hk.
    by rewrite bool_decide_eq_true_2.
Qed.

#[export] Instance local_signer_laws : MacSignerLaws LocalMacSigner.
Proof.
  split.
  - intros s p m (_ & key & _ & ->)%local_mac_ok. apply hmac_sha256_length.
  - intros s p m (Ha & key & Hk & ->)%local_mac_ok. apply local_verify_ok. eauto.
  - intros s p m k b Hv p'. cbn in *. unfold local_verify in *. destruct (negb _); [done|].
    cbn [raise_if mbind res_bind] in *. destruct (ls_keys s !! k); [eauto | done].
Defined.

(** A forged MAC of this signer is a collision of the digests of the two
    payloads, or of the two HMAC messages under the key. *)
Lemma local_forgery s p p' m k :
  forged_mac s p p' m k ->
  collide (eq p) (eq p') \/ exists key, ls_keys s !! k = Some key /\ mac_message p <> mac_message p' /\
    hmac_sha256 key (mac_message p) = hmac_sha256 key (mac_message p').
Proof.
  intros (Hne & (_ & key & Hk & ->)%local_verify_ok & (_ & key' & Hk' & Heq)%local_verify_ok).
  rewrite Hk in Hk'. injection Hk' as <-. destruct (decide (mac_message p = mac_message p')) as [He|He].
  - apply mac_message_inj in He as [?|?]; [done | by left].
  - right. by exists key.
Qed.

(** Rotating to a new key identifier keeps every earlier MAC verifiable. *)
Lemma rotate_extends s k fresh :
  ls_keys s !! k = None -> signer_extends s (local_rotate s k fresh).
Proof.
  intros Hk p m k' (Ha & key & Hkey & ->)%local_verify_ok. apply local_verify_ok.
  split; [done|]. exists key. split; [|done]. cbn. rewrite lookup_insert_ne; [done|]. congruence.
Qed.

(** A signer that is down neither signs nor verifies: it raises. *)
Lemma outage_raises s p m k :
  local_mac (local_set_available s false) p = Raise SigningUnavailableError /\
  local_verify (local_set_available s false) p m k = Raise SigningUnavailableError.
Proof. done. Qed.
