(* ===== verification/Kms.v ===== *)
(** * The key-service signer ([glassbox/adapters/outbound/kms/client.py],
      [glassbox/adapters/outbound/kms/signer.py])

    The signer with its MAC cache, the circuit breaker in front of the key
    service, and the AWS client.  The key service itself is a parameter: what
    its SDK returns or raises.  Signers made by rotation share one breaker, so
    the breaker is passed along beside the signer; a call is given the
    monotonic times it reads. *)

From stdpp Require Import base tactics list strings gmap.
From Stdlib Require Import ZArith Lia.
From S2P Require Import Prelude PyFloat PyStr Serialization Sha256 Merkle Signing.

Open Scope string_scope.
Open Scope list_scope.

(** ** Errors

    [KmsUnavailableError] and [KmsKeyDisabledError] derive from
    [SigningUnavailableError]; the signer tells them apart, its callers do not. *)
Inductive kms_error :=
| KmsUnavailable
| KmsKeyDisabled
| SigningUnavailable
| OtherException (class_name : string).

Abbreviation kres A := (kms_error + A)%type.

Definition kms_exn (e : kms_error) : exn :=
  match e with
  | KmsUnavailable | KmsKeyDisabled | SigningUnavailable => SigningUnavailableError
  | OtherException name => PyException name
  end.

(** ** The AWS client *)

Definition MAC_ALGORITHM : string := "HMAC_SHA_256".

Record KeyMetadata := {
  km_key_id : string;
  km_algorithm : string;
  km_enabled : bool;
  km_usable_for_mac : bool
}.

Definition is_usable (m : KeyMetadata) : bool :=
  km_enabled m && km_usable_for_mac m && (km_algorithm m =? MAC_ALGORITHM)%string.

(** What a call of the SDK client does. *)
Inductive sdk (A : Type) :=
| SdkRaised (class_name : string)
| SdkReturned (response : A).
Arguments SdkRaised {A} class_name.
Arguments SdkReturned {A} response.

Definition NON_TRANSIENT : list string :=
  ["DisabledException"; "KeyUnavailableException"; "KMSInvalidStateException"; "NotFoundException";
   "InvalidKeyUsageException"].

Definition translate (class_name : string) : kms_error :=
  if bool_decide (class_name ∈ NON_TRANSIENT) then KmsKeyDisabled else KmsUnavailable.

(** [response.get("Mac")]. *)
Definition aws_generate_mac (r : sdk (option bytes)) : kres bytes :=
  match r with
  | SdkRaised name => inl (translate name)
  | SdkReturned None => inl KmsUnavailable
  | SdkReturned (Some mac) => inr mac
  end.

(** [response.get("MacValid", False)]. *)
Definition aws_verify_mac (r : sdk (option bool)) : kres bool :=
  match r with
  | SdkRaised name =>
      if (name =? "KMSInvalidMacException")%string then inr false else inl (translate name)
  | SdkReturned valid => inr (default false valid)
  end.

(** The fields of [response.get("KeyMetadata", {})]. *)
Record aws_metadata := {
  am_arn : option string;
  am_key_id : option string;
  am_mac_algorithms : list string;
  am_enabled : option bool;
  am_key_usage : option string
}.

Definition non_blank (s : option string) : option string :=
  match s with Some s => if str_is_empty s then None else Some s | None => None end.

Definition aws_describe_key (key_id : string) (r : sdk aws_metadata) : kres KeyMetadata :=
  match r with
  | SdkRaised name => inl (translate name)
  | SdkReturned m =>
      let specs := match am_mac_algorithms m with [] => [MAC_ALGORITHM] | l => l end in
      inr {| km_key_id := match non_blank (am_arn m), non_blank (am_key_id m) with
                          | Some a, _ => a | None, Some k => k | None, None => key_id
                          end;
             km_algorithm := if bool_decide (MAC_ALGORITHM ∈ specs) then MAC_ALGORITHM
                             else hd MAC_ALGORITHM specs;
             km_enabled := default false (am_enabled m);
             km_usable_for_mac :=
               (default "GENERATE_VERIFY_MAC" (am_key_usage m) =? "GENERATE_VERIFY_MAC")%string |}
  end.

(** ** [CircuitBreaker] *)

Record CircuitBreaker := {
  cb_threshold : Z;
  cb_reset_after : float;
  cb_failures : Z;
  cb_opened_at : option float
}.

Definition mk_CircuitBreaker (failure_threshold : Z) (reset_after_s : float) : res CircuitBreaker :=
  _ ← raise_if (failure_threshold <? 1)%Z PyValueError;
  Ok {| cb_threshold := failure_threshold; cb_reset_after := reset_after_s; cb_failures := 0;
        cb_opened_at := None |}.

Definition ready_to_probe (b : CircuitBreaker) (now : float) : bool :=
  match cb_opened_at b with
  | None => true
  | Some opened_at => fge (fsub now opened_at) (cb_reset_after b)
  end.

(** [is_open]; [before_call] raises exactly then. *)
Definition is_open (b : CircuitBreaker) (now : float) : bool :=
  match cb_opened_at b with None => false | Some _ => negb (ready_to_probe b now) end.

Definition before_call (b : CircuitBreaker) (now : float) : kres unit :=
  if is_open b now then inl KmsUnavailable else inr tt.

Definition record_success (b : CircuitBreaker) : CircuitBreaker :=
  {| cb_threshold := cb_threshold b; cb_reset_after := cb_reset_after b; cb_failures := 0;
     cb_opened_at := None |}.

Definition record_failure (b : CircuitBreaker) (now : float) : CircuitBreaker :=
  let failures := (cb_failures b + 1)%Z in
  {| cb_threshold := cb_threshold b; cb_reset_after := cb_reset_after b; cb_failures := failures;
     cb_opened_at := if (cb_threshold b <=? failures)%Z then Some now else cb_opened_at b |}.

(** ** [KmsMacSigner] *)

(** The cache in order, least recently used first. *)
Abbreviation mac_cache := (list ((string * bytes) * bytes)).

Record KmsMacSigner := {
  ks_key_id : string;
  ks_historic : list string;
  ks_cache : mac_cache;
  ks_cache_size : Z
}.

(** The key service at the time of a call. *)
Record KmsClient := {
  kc_generate_mac : string -> bytes -> kres bytes;
  kc_verify_mac : string -> bytes -> bytes -> kres bool;
  kc_describe_key : string -> kres KeyMetadata
}.

Definition DEFAULT_MAC_CACHE_SIZE : Z := 4096.

Definition mk_KmsMacSigner (client : KmsClient) (key_id : string) (historic_key_ids : list string)
    (cache_size : Z) (verify_key_on_start : bool) : kres KmsMacSigner :=
  if str_is_empty key_id then inl SigningUnavailable
  else
    let signer := {| ks_key_id := key_id; ks_historic := historic_key_ids; ks_cache := [];
                     ks_cache_size := Z.max 0 cache_size |} in
    if verify_key_on_start then
      match kc_describe_key client key_id with
      | inl e => inl e
      | inr metadata => if is_usable metadata then inr signer else inl KmsKeyDisabled
      end
    else inr signer.

(** [dict.fromkeys]: the first occurrences, in order. *)
Fixpoint unique (l : list string) : list string :=
  match l with
  | [] => []
  | x :: l' => x :: List.filter (fun y => negb (y =? x)%string) (unique l')
  end.

Definition known_key_ids (s : KmsMacSigner) : list string := unique (ks_key_id s :: ks_historic s).

Definition ks_with_cache (s : KmsMacSigner) (c : mac_cache) : KmsMacSigner :=
  {| ks_key_id := ks_key_id s; ks_historic := ks_historic s; ks_cache := c;
     ks_cache_size := ks_cache_size s |}.

Definition entry_is (key_id : string) (message : bytes) (e : (string * bytes) * bytes) : bool :=
  bool_decide (e.1 = (key_id, message)).

(** [move_to_end] of an entry that is there. *)
Definition move_to_end (key_id : string) (message : bytes) (c : mac_cache) : mac_cache :=
  List.filter (fun e => negb (entry_is key_id message e)) c ++ List.filter (entry_is key_id message) c.

Definition cache_get (s : KmsMacSigner) (key_id : string) (message : bytes) : option bytes * KmsMacSigner :=
  if (ks_cache_size s =? 0)%Z then (None, s)
  else match List.find (entry_is key_id message) (ks_cache s) with
       | Some e => (Some e.2, ks_with_cache s (move_to_end key_id message (ks_cache s)))
       | None => (None, s)
       end.

(** [while len(self._cache) > self._cache_size: popitem(last=False)]. *)
Fixpoint trim (size : nat) (c : mac_cache) : mac_cache :=
  match c with
  | [] => []
  | _ :: c' => if (size <? length c)%nat then trim size c' else c
  end.

Definition cache_put (s : KmsMacSigner) (key_id : string) (message mac : bytes) : KmsMacSigner :=
  if (ks_cache_size s =? 0)%Z then s
  else
    let others := List.filter (fun e => negb (entry_is key_id message e)) (ks_cache s) in
    ks_with_cache s (trim (Z.to_nat (ks_cache_size s)) (others ++ [((key_id, message), mac)])).

(** [_as_signing_error]. *)
Definition as_signing_error (e : kms_error) : kms_error :=
  match e with OtherException _ => KmsUnavailable | e => e end.

Section calls.
(** The key service when the call reaches it, and the monotonic times before
    and after. *)
Context (client : KmsClient) (t0 t1 : float).

(** One guarded call of the service. *)
Definition guarded_call {A} (b : CircuitBreaker) (call : kres A) : kres A * CircuitBreaker :=
  match before_call b t0 with
  | inl e => (inl e, b)
  | inr _ =>
      match call with
      | inl KmsKeyDisabled => (inl KmsKeyDisabled, b)
      | inl e => (inl (as_signing_error e), record_failure b t1)
      | inr a => (inr a, record_success b)
      end
  end.

Definition kms_mac (s : KmsMacSigner) (b : CircuitBreaker) (payload : bytes)
    : kres bytes * (KmsMacSigner * CircuitBreaker) :=
  let message := mac_message payload in
  let '(cached, s) := cache_get s (ks_key_id s) message in
  match cached with
  | Some mac => (inr mac, (s, b))
  | None =>
      let '(r, b) := guarded_call b (kc_generate_mac client (ks_key_id s) message) in
      match r with
      | inl e => (inl e, (s, b))
      | inr result =>
          if (length result <? 32)%nat then (inl SigningUnavailable, (s, b))
          else (inr result, (cache_put s (ks_key_id s) message result, b))
      end
  end.

Definition kms_verify (s : KmsMacSigner) (b : CircuitBreaker) (payload mac : bytes) (key_id : string)
    : kres bool * (KmsMacSigner * CircuitBreaker) :=
  if negb (bool_decide (key_id ∈ known_key_ids s)) then (inl SigningUnavailable, (s, b))
  else
    let message := mac_message payload in
    let '(cached, s) := cache_get s key_id message in
    match cached with
    | Some m => (inr (bool_decide (m = mac)), (s, b))
    | None =>
        let '(r, b) := guarded_call b (kc_verify_mac client key_id message mac) in
        (r, (s, b))
    end.

Definition with_rotated_key (s : KmsMacSigner) (new_key_id : string) : kres KmsMacSigner :=
  if str_is_empty new_key_id then inl SigningUnavailable
  else
    mk_KmsMacSigner client new_key_id
      (List.filter (fun k => negb (k =? new_key_id)%string) (unique (known_key_ids s)))
      (ks_cache_size s) false.
End calls.

(** ** The breaker remembers exactly its history *)

(** What happened to one call: refused unattempted, failed at a time, answered,
    or answered that the key is unusable, which says nothing of availability. *)
Inductive attempt :=
| Refused
| Failed (at_ : float)
| Answered
| Unusable.

(** Consecutive failures, and the time of the last one; newest call first. *)
Fixpoint streak (h : list attempt) : Z :=
  match h with
  | [] | Answered :: _ => 0
  | Failed _ :: h => streak h + 1
  | (Refused | Unusable) :: h => streak h
  end.
Fixpoint last_failure (h : list attempt) : option float :=
  match h with
  | [] | Answered :: _ => None
  | Failed t :: _ => Some t
  | (Refused | Unusable) :: h => last_failure h
  end.

(** When a breaker with this history should refuse a call. *)
Definition should_refuse (threshold : Z) (reset_after : float) (h : list attempt) (now : float) : bool :=
  (threshold <=? streak h)%Z &&
  match last_failure h with Some t => negb (fge (fsub now t) reset_after) | None => false end.

Definition outcome_of {A} (b : CircuitBreaker) (t0 t1 : float) (call : kres A) : attempt :=
  if is_open b t0 then Refused
  else match call with inl KmsKeyDisabled => Unusable | inl _ => Failed t1 | inr _ => Answered end.

(** The breaker and the history after a run of guarded calls. *)
Inductive breaker_run (threshold : Z) (reset_after : float) : CircuitBreaker -> list attempt -> Prop :=
| br_new b : mk_CircuitBreaker threshold reset_after = Ok b -> breaker_run threshold reset_after b []
| br_call {A} b h t0 t1 (call : kres A) :
    breaker_run threshold reset_after b h ->
    breaker_run threshold reset_after (guarded_call t0 t1 b call).2 (outcome_of b t0 t1 call :: h).

Lemma streak_nonneg h : (0 <= streak h)%Z.
Proof. induction h as [|[] h IH]; cbn; lia. Qed.

Lemma breaker_remembers threshold reset_after b h :
  breaker_run threshold reset_after b h ->
  (1 <= threshold)%Z /\ cb_threshold b = threshold /\ cb_reset_after b = reset_after /\ cb_failures b = streak h /\
  cb_opened_at b = if (threshold <=? streak h)%Z then last_failure h else None.
Proof.
  induction 1 as [b Hb|A b h t0 t1 call _ (Ht & E1 & E2 & E3 & E4)].
  - unfold mk_CircuitBreaker in Hb. apply bind_ok in Hb as ([] & Hlt & [= <-]). apply raise_if_ok in Hlt.
    apply Z.ltb_ge in Hlt. split_and!; try done. cbn. by destruct (threshold <=? 0)%Z.
  - unfold guarded_call, before_call, outcome_of. destruct (is_open b t0); [done|].
    pose proof (streak_nonneg h).
    destruct call as [[]|a]; cbn; rewrite ?E1, ?E2, ?E3; try done.
    1,2,3: split_and!; try done; destruct (Z.leb_spec threshold (streak h + 1)); [done|];
           rewrite E4; destruct (Z.leb_spec threshold (streak h)); [lia|done].
    split_and!; try done. by destruct (threshold <=? 0)%Z.
Qed.

(** The circuit breaker is its history: after any run of calls it refuses
    the next one exactly when the last [threshold] or more answered or failed
    calls all failed and the reset time has not passed since the last failure.
    So it never latches: a call at any time the reset period after the last
    failure is attempted, and after one answer it takes [threshold] consecutive
    failures before any call is refused again.  A refused call does not reach
    the key service and raises as unavailable. *)
Theorem breaker_is_its_history threshold reset_after b h now :
  breaker_run threshold reset_after b h ->
  is_open b now = should_refuse threshold reset_after h now /\
  (forall t, last_failure h = Some t -> fge (fsub now t) reset_after = true -> is_open b now = false) /\
  ((streak h < threshold)%Z -> is_open b now = false) /\
  (is_open b now = true -> forall A t1 (call call' : kres A),
     guarded_call now t1 b call = guarded_call now t1 b call' /\ (guarded_call now t1 b call).1 = inl KmsUnavailable).
Proof.
  intros Hrun. apply breaker_remembers in Hrun as (Ht & E1 & E2 & E3 & E4).
  assert (is_open b now = should_refuse threshold reset_after h now) as Hopen.
  { unfold is_open, ready_to_probe, should_refuse. rewrite E4, E2.
    destruct (threshold <=? streak h)%Z; [|done]. by destruct (last_failure h). }
  split_and!; [done| | |].
  - intros t Hl Hge. rewrite Hopen. unfold should_refuse. rewrite Hl, Hge. apply andb_false_r.
  - intros Hlt. rewrite Hopen. unfold should_refuse. by destruct (Z.leb_spec threshold (streak h)); [lia|].
  - intros Ho A t1 call call'. unfold guarded_call, before_call. by rewrite Ho.
Qed.

(** ** The signer computes nothing itself *)

Section service.
(** The MAC the key service computes under a key. *)
Variable mac_of : string -> bytes -> bytes.

(** A key service that, where it answers, answers by that MAC. *)
Definition keyed (c : KmsClient) : Prop :=
  (forall k m r, kc_generate_mac c k m = inr r -> r = mac_of k m) /\
  (forall k m x b, kc_verify_mac c k m x = inr b -> b = bool_decide (mac_of k m = x)).

Definition entry_sound (e : (string * bytes) * bytes) : Prop :=
  e.2 = mac_of e.1.1 e.1.2 /\ (32 <= length e.2)%nat.

Record signer_ok (s : KmsMacSigner) : Prop := {
  so_sound : Forall entry_sound (ks_cache s);
  so_bound : (Z.of_nat (length (ks_cache s)) <= ks_cache_size s)%Z
}.

(** Calls of a signer and its successors, against the service as it is then. *)
Inductive kms_step : KmsMacSigner * CircuitBreaker -> KmsMacSigner * CircuitBreaker -> Prop :=
| ks_mac c t0 t1 s b payload : keyed c -> kms_step (s, b) (kms_mac c t0 t1 s b payload).2
| ks_verify c t0 t1 s b payload mac key_id :
    keyed c -> kms_step (s, b) (kms_verify c t0 t1 s b payload mac key_id).2
| ks_rotate c s b key_id s' :
    keyed c -> with_rotated_key c s key_id = inr s' -> kms_step (s, b) (s', b).

Lemma filter_length_le {A} (f : A -> bool) l : (length (List.filter f l) <= length l)%nat.
Proof. induction l as [|x l IH]; cbn; [lia|]. destruct (f x); cbn; lia. Qed.

Lemma filter_split_length {A} (f : A -> bool) l :
  (length (List.filter (fun x => negb (f x)) l) + length (List.filter f l) = length l)%nat.
Proof. induction l as [|x l IH]; cbn; [lia|]. destruct (f x); cbn; lia. Qed.

Lemma Forall_filter_bool {A} (P : A -> Prop) f l : Forall P l -> Forall P (List.filter f l).
Proof. induction 1 as [|x l Hx _ IH]; cbn; [done|]. destruct (f x); by try constructor. Qed.

Lemma trim_spec n c : Forall entry_sound c -> Forall entry_sound (trim n c) /\ (length (trim n c) <= n)%nat.
Proof.
  induction 1 as [|e c He Hc IH]; [cbn; split; [done|lia]|]. cbn [trim].
  destruct (Nat.ltb_spec n (length (e :: c))); [done|]. split; [by constructor|done].
Qed.

Lemma cache_get_ok s k m o s' :
  signer_ok s -> cache_get s k m = (o, s') ->
  signer_ok s' /\ ks_key_id s' = ks_key_id s /\ ks_historic s' = ks_historic s /\
  ks_cache_size s' = ks_cache_size s /\ (forall x, o = Some x -> x = mac_of k m /\ (32 <= length x)%nat).
Proof.
  intros Hok. pose proof Hok as [Hs Hb]. unfold cache_get. destruct (_ =? 0)%Z; [intros [= <- <-]; by split_and!|].
  destruct (List.find _ _) as [e|] eqn:Hf; [|intros [= <- <-]; by split_and!]. intros [= <- <-].
  apply List.find_some in Hf as [Hin He]. apply bool_decide_eq_true in He.
  split_and!; try done.
  - constructor; cbn; unfold move_to_end.
    + apply Forall_app. split; by apply Forall_filter_bool.
    + rewrite length_app, filter_split_length. done.
  - intros x [= <-]. rewrite Forall_forall in Hs. apply list_elem_of_In in Hin.
    destruct (Hs e Hin) as [E ?]. split; [by rewrite E, He|done].
Qed.

Lemma cache_put_ok s k m x :
  signer_ok s -> x = mac_of k m -> (32 <= length x)%nat ->
  signer_ok (cache_put s k m x) /\ ks_key_id (cache_put s k m x) = ks_key_id s /\
  ks_historic (cache_put s k m x) = ks_historic s.
Proof.
  intros Hok Hx Hlen. pose proof Hok as [Hs Hb]. unfold cache_put. destruct (Z.eqb_spec (ks_cache_size s) 0); [done|].
  split_and!; try done.
  match goal with |- context [trim ?n ?c] => destruct (trim_spec n c) as [H1 H2] end.
  { apply Forall_app. split; [by apply Forall_filter_bool|]. by constructor. }
  constructor; cbn; [done|]. lia.
Qed.

Lemma guarded_call_error {A} t0 t1 b (call : kres A) e :
  (guarded_call t0 t1 b call).1 = inl e -> kms_exn e = SigningUnavailableError.
Proof.
  unfold guarded_call, before_call. destruct (is_open b t0); [by intros [= <-]|].
  destruct call as [[]|a]; cbn; by intros [= <-].
Qed.

Lemma guarded_call_answer {A} t0 t1 b (call : kres A) a :
  (guarded_call t0 t1 b call).1 = inr a -> call = inr a.
Proof.
  unfold guarded_call, before_call. destruct (is_open b t0); [done|].
  destruct call as [[]|a']; cbn; congruence.
Qed.

Lemma kms_mac_run c t0 t1 s b p :
  signer_ok s -> keyed c ->
  let '(r, (s', _)) := kms_mac c t0 t1 s b p in
  signer_ok s' /\ ks_key_id s' = ks_key_id s /\ ks_historic s' = ks_historic s /\
  match r with
  | inr m => m = mac_of (ks_key_id s) (mac_message p) /\ (32 <= length m)%nat
  | inl e => kms_exn e = SigningUnavailableError
  end.
Proof.
  intros Hs [Hg _]. unfold kms_mac.
  destruct (cache_get s (ks_key_id s) (mac_message p)) as [o s1] eqn:Hc.
  apply cache_get_ok in Hc as (Hs1 & E1 & E2 & _ & Ho); [|done].
  destruct o as [x|]; [split_and!; [done..|by apply Ho|by apply Ho]|].
  pose proof (guarded_call_error t0 t1 b (kc_generate_mac c (ks_key_id s1) (mac_message p))) as He.
  pose proof (guarded_call_answer t0 t1 b (kc_generate_mac c (ks_key_id s1) (mac_message p))) as Ha.
  destruct (guarded_call t0 t1 b _) as [[e|x] b1]; cbn [fst] in *; [split_and!; auto|].
  specialize (Ha x eq_refl). apply Hg in Ha. rewrite E1 in *.
  destruct (Nat.ltb_spec (length x) 32); [done|].
  destruct (cache_put_ok s1 (ks_key_id s) (mac_message p) x) as (? & ? & ?); [done..|].
  split_and!; congruence || done.
Qed.

Lemma kms_verify_run c t0 t1 s b p m k :
  signer_ok s -> keyed c ->
  let '(r, (s', _)) := kms_verify c t0 t1 s b p m k in
  signer_ok s' /\ ks_key_id s' = ks_key_id s /\ ks_historic s' = ks_historic s /\
  match r with
  | inr v => k ∈ known_key_ids s /\ v = bool_decide (mac_of k (mac_message p) = m)
  | inl e => kms_exn e = SigningUnavailableError
  end.
Proof.
  intros Hs [_ Hv]. unfold kms_verify. case_bool_decide as Hk; cbn [negb]; [|done].
  destruct (cache_get s k (mac_message p)) as [o s1] eqn:Hc.
  apply cache_get_ok in Hc as (Hs1 & E1 & E2 & _ & Ho); [|done].
  destruct o as [x|]; [destruct (Ho x eq_refl) as [-> _]; done|].
  pose proof (guarded_call_error t0 t1 b (kc_verify_mac c k (mac_message p) m)) as He.
  pose proof (guarded_call_answer t0 t1 b (kc_verify_mac c k (mac_message p) m)) as Ha.
  destruct (guarded_call t0 t1 b _) as [[e|x] b1]; cbn [fst] in *; [split_and!; auto|].
  specialize (Ha x eq_refl). apply Hv in Ha. done.
Qed.

Lemma elem_of_unique x l : x ∈ unique l <-> x ∈ l.
Proof.
  induction l as [|y l IH]; [done|]. cbn. rewrite !elem_of_cons, list_elem_of_In, filter_In, <- list_elem_of_In, IH.
  destruct (String.eqb_spec x y); naive_solver.
Qed.

Lemma rotate_run c s k s' :
  signer_ok s -> with_rotated_key c s k = inr s' ->
  signer_ok s' /\ ks_key_id s' = k /\ known_key_ids s ⊆ known_key_ids s'.
Proof.
  intros [_ Hb]. unfold with_rotated_key. set (h := List.filter _ _). unfold mk_KmsMacSigner.
  destruct (str_is_empty k); [done|]. intros [= <-].
  split_and!; [constructor; cbn; [done|lia]|done|].
  intros x Hx. unfold known_key_ids at 1. cbn [ks_key_id ks_historic]. rewrite elem_of_unique, elem_of_cons.
  destruct (decide (x = k)) as [->|Hne]; [by left|right].
  unfold h. apply list_elem_of_In, filter_In. rewrite <- list_elem_of_In, elem_of_unique. split; [done|].
  by destruct (String.eqb_spec x k).
Qed.

Lemma kms_step_ok x y :
  kms_step x y -> signer_ok x.1 -> signer_ok y.1 /\ known_key_ids x.1 ⊆ known_key_ids y.1.
Proof.
  assert (forall s s' : KmsMacSigner, ks_key_id s' = ks_key_id s -> ks_historic s' = ks_historic s ->
            known_key_ids s ⊆ known_key_ids s') as Hsame.
  { intros s s' E1 E2. unfold known_key_ids. by rewrite E1, E2. }
  intros [c t0 t1 s b p Hk|c t0 t1 s b p m k Hk|c s b k s' Hk Hr] Hs; cbn [fst] in *.
  - pose proof (kms_mac_run c t0 t1 s b p Hs Hk) as H.
    destruct (kms_mac c t0 t1 s b p) as [r [s' b']]. destruct H as (? & ? & ? & _). split; [done|by apply Hsame].
  - pose proof (kms_verify_run c t0 t1 s b p m k Hs Hk) as H.
    destruct (kms_verify c t0 t1 s b p m k) as [r [s' b']]. destruct H as (? & ? & ? & _). split; [done|by apply Hsame].
  - apply rotate_run in Hr as (? & _ & ?); done.
Qed.

Lemma kms_run_ok x y :
  rtc kms_step x y -> signer_ok x.1 -> signer_ok y.1 /\ known_key_ids x.1 ⊆ known_key_ids y.1.
Proof.
  induction 1 as [x|x y z Hxy _ IH]; [done|]. intros Hx.
  destruct (kms_step_ok x y Hxy Hx) as [Hy ?]. destruct (IH Hy) as [? ?]. split; [done|]. by etrans.
Qed.

Lemma known_current s : ks_key_id s ∈ known_key_ids s.
Proof. unfold known_key_ids. rewrite elem_of_unique. by left. Qed.

(** C29.  The key-service signer is truthful, bounded and fails closed.
    Against a service that answers, when it answers, by the MAC of its keys, and
    after any run of signing, verifying and rotating from a new signer: the
    cache holds at most its size; a MAC returned, cached or not, is the
    service's under the current key, of at least 32 bytes; a verdict is given
    only for a known key and is whether the MAC is the service's under that
    key; whatever fails surfaces as a signing error, never as an unkeyed digest
    or a verdict.  A MAC made before the run is never judged false after it. *)
Theorem kms_signs_truthfully s0 b0 s b c t0 t1 :
  ks_cache s0 = [] -> (0 <= ks_cache_size s0)%Z -> rtc kms_step (s0, b0) (s, b) -> keyed c ->
  (Z.of_nat (length (ks_cache s)) <= ks_cache_size s)%Z /\
  (forall p, match (kms_mac c t0 t1 s b p).1 with
             | inr m => m = mac_of (ks_key_id s) (mac_message p) /\ (32 <= length m)%nat
             | inl e => kms_exn e = SigningUnavailableError
             end) /\
  (forall p m k, match (kms_verify c t0 t1 s b p m k).1 with
                 | inr v => k ∈ known_key_ids s /\ v = bool_decide (mac_of k (mac_message p) = m)
                 | inl e => kms_exn e = SigningUnavailableError
                 end) /\
  (forall c0 u0 u1 p m, keyed c0 -> (kms_mac c0 u0 u1 s0 b0 p).1 = inr m ->
     (kms_verify c t0 t1 s b p m (ks_key_id s0)).1 <> inr false).
Proof.
  intros Hc0 Hsz Hrun Hc.
  assert (signer_ok s0) as Hs0 by (constructor; rewrite Hc0; [done|cbn; lia]).
  destruct (kms_run_ok _ _ Hrun Hs0) as [Hs Hknown]. cbn [fst] in *.
  assert (forall p m k, match (kms_verify c t0 t1 s b p m k).1 with
                 | inr v => k ∈ known_key_ids s /\ v = bool_decide (mac_of k (mac_message p) = m)
                 | inl e => kms_exn e = SigningUnavailableError
                 end) as Hverify.
  { intros p m k. pose proof (kms_verify_run c t0 t1 s b p m k Hs Hc) as H.
    destruct (kms_verify c t0 t1 s b p m k) as [r [s' b']]. by destruct H as (_ & _ & _ & ?). }
  split_and!; [apply Hs| |done|].
  - intros p. pose proof (kms_mac_run c t0 t1 s b p Hs Hc) as H.
    destruct (kms_mac c t0 t1 s b p) as [r [s' b']]. by destruct H as (_ & _ & _ & ?).
  - intros c1 u0 u1 p m Hc1 Hm Hv. pose proof (kms_mac_run c1 u0 u1 s0 b0 p Hs0 Hc1) as H.
    destruct (kms_mac c1 u0 u1 s0 b0 p) as [r [s' b']]. cbn in Hm. subst r.
    destruct H as (_ & _ & _ & -> & _). specialize (Hverify p (mac_of (ks_key_id s0) (mac_message p)) (ks_key_id s0)).
    rewrite Hv in Hverify. destruct Hverify as [_ Hb]. by rewrite bool_decide_eq_true_2 in Hb.
Qed.
End service.

(** ** Concrete runs *)

(** A key service that keeps one HMAC key per key id, and one that is down. *)
Definition hsm_mac (k : string) (m : bytes) : bytes := hmac_sha256 (utf8 k) m.
Definition hsm : KmsClient :=
  {| kc_generate_mac := fun k m => inr (hsm_mac k m);
     kc_verify_mac := fun k m x => inr (bool_decide (hsm_mac k m = x));
     kc_describe_key := fun k =>
       inr {| km_key_id := k; km_algorithm := MAC_ALGORITHM; km_enabled := true; km_usable_for_mac := true |} |}.
Definition hsm_down : KmsClient :=
  {| kc_generate_mac := fun _ _ => inl KmsUnavailable; kc_verify_mac := fun _ _ _ => inl KmsUnavailable;
     kc_describe_key := fun _ => inl KmsUnavailable |}.

Definition new_signer : KmsMacSigner :=
  {| ks_key_id := "k1"; ks_historic := []; ks_cache := []; ks_cache_size := 2 |}.
Definition new_breaker : CircuitBreaker :=
  {| cb_threshold := 2; cb_reset_after := fz 10; cb_failures := 0; cb_opened_at := None |}.

Lemma hsm_keyed : keyed hsm_mac hsm /\ keyed hsm_mac hsm_down.
Proof. split; split; cbn; intros; congruence. Qed.

Definition rotated_signer : KmsMacSigner :=
  {| ks_key_id := "k2"; ks_historic := ["k1"]; ks_cache := []; ks_cache_size := 2 |}.

Lemma kms_signs_truthfully_witness :
  with_rotated_key hsm new_signer "k2" = inr rotated_signer /\
  match (kms_mac hsm (fz 0) (fz 0) rotated_signer new_breaker []).1 with
  | inr m => m = hsm_mac (ks_key_id rotated_signer) (mac_message []) /\ (32 <= length m)%nat
  | inl e => kms_exn e = SigningUnavailableError
  end.
Proof.
  split; [reflexivity|].
  refine (proj1 (proj2 (kms_signs_truthfully hsm_mac new_signer new_breaker rotated_signer new_breaker hsm
    (fz 0) (fz 0) eq_refl _ _ (proj1 hsm_keyed))) []); [cbn; lia|].
  apply rtc_once, (ks_rotate hsm_mac hsm new_signer new_breaker "k2"); [apply hsm_keyed|reflexivity].
Defined.

Lemma breaker_is_its_history_witness :
  let b := (guarded_call (fz 1) (fz 2) (guarded_call (fz 0) (fz 1) new_breaker (@inl _ bytes KmsUnavailable)).2
              (@inl _ bytes KmsUnavailable)).2 in
  is_open b (fz 5) = true /\ is_open b (fz 12) = false.
Proof.
  assert (breaker_run 2 (fz 10) new_breaker []) as H0 by (apply br_new; reflexivity).
  pose proof (br_call 2 (fz 10) _ _ (fz 0) (fz 1) (@inl _ bytes KmsUnavailable) H0) as H1.
  pose proof (br_call 2 (fz 10) _ _ (fz 1) (fz 2) (@inl _ bytes KmsUnavailable) H1) as H2.
  split.
  - rewrite (proj1 (breaker_is_its_history _ _ _ _ (fz 5) H2)). vm_compute. reflexivity.
  - rewrite (proj1 (breaker_is_its_history _ _ _ _ (fz 12) H2)). vm_compute. reflexivity.
Defined.

(** Once the open period has passed every caller may probe, not one. *)
Example half_open_admits_many :
  let b := record_failure (record_failure new_breaker (fz 1)) (fz 2) in
  before_call b (fz 12) = inr tt /\ before_call b (fz 12) = inr tt /\ before_call b (fz 11) = inl KmsUnavailable.
Proof. by vm_compute. Qed.
