(* ===== verification/Evidence.v ===== *)
(** * Evidence records, receipts, segments, anchors and reports
      ([glassbox/domain/evidence.py])

    The bytes that are MAC-ed for a chain link are the canonical bytes of the
    sequence number, the previous MAC and the whole record.  The main theorem
    is that they determine all three. *)

From stdpp Require Import base tactics list strings.
From Stdlib Require Import ZArith Lia Init.Byte.
From S2P Require Import Prelude PyFloat PyStr Serialization Sha256 Merkle Action Identity Limits Risk Decision.

Open Scope string_scope.
Open Scope list_scope.

Definition GENESIS_PREV_HASH : bytes := repeat x00 32.
Definition MIN_MAC_LENGTH : nat := 32.

(** [_require_mac]. *)
Definition require_mac (value : bytes) (field : string) : res bytes :=
  _ ← raise_if (length value <? MIN_MAC_LENGTH)%nat (DomainValidationError field);
  Ok value.

Inductive IntegrityStatus := INTACT | BROKEN | SEALED_PURGED | UNVERIFIABLE.
#[export] Instance IntegrityStatus_eq_dec : EqDecision IntegrityStatus.
Proof. solve_decision. Defined.

Definition integrity_value (s : IntegrityStatus) : string :=
  match s with
  | INTACT => "intact" | BROKEN => "broken"
  | SEALED_PURGED => "sealed_purged" | UNVERIFIABLE => "unverifiable"
  end.

Definition integrity_is_acceptable (s : IntegrityStatus) : bool :=
  match s with INTACT | SEALED_PURGED => true | _ => false end.

(** ** Provenance *)

Record ModelProvenance := {
  mp_model_id : option string;
  mp_model_version : option string;
  mp_prompt_sha256 : option string;
  mp_context_digest : option string;
  mp_tools_invoked : list string;
  mp_data_sources : list string
}.

Definition no_provenance : ModelProvenance :=
  {| mp_model_id := None; mp_model_version := None; mp_prompt_sha256 := None;
     mp_context_digest := None; mp_tools_invoked := []; mp_data_sources := [] |}.

Definition mk_ModelProvenance (model_id model_version prompt_sha256 context_digest : option string)
    (tools_invoked data_sources : list string) : res ModelProvenance :=
  model_id ← res_opt (fun v => require_identifier v "model_id") model_id;
  model_version ← res_opt (fun v => require_identifier v "model_version") model_version;
  prompt_sha256 ← res_opt (fun v => require_sha256_hex v "prompt_sha256") prompt_sha256;
  context_digest ← res_opt (fun v => require_sha256_hex v "context_digest") context_digest;
  _ ← res_map (fun v => require_identifier v "tools_invoked") tools_invoked;
  _ ← res_map (fun v => require_identifier v "data_sources") data_sources;
  Ok {| mp_model_id := model_id; mp_model_version := model_version;
        mp_prompt_sha256 := prompt_sha256; mp_context_digest := context_digest;
        mp_tools_invoked := tools_invoked; mp_data_sources := data_sources |}.

Definition provenance_as_evidence (p : ModelProvenance) : pyval :=
  pdict [("model_id", p_str_opt (mp_model_id p)); ("model_version", p_str_opt (mp_model_version p));
         ("prompt_sha256", p_str_opt (mp_prompt_sha256 p));
         ("context_digest", p_str_opt (mp_context_digest p));
         ("tools_invoked", p_strs (mp_tools_invoked p)); ("data_sources", p_strs (mp_data_sources p))].

(** ** Intent records *)

Record IntentRecord := {
  ir_decision_id : string;
  ir_segment_id : string;
  ir_tenant_id : string;
  ir_created_at : float;
  ir_principal : VerifiedPrincipal;
  ir_action : ProposedAction;
  ir_decision : AuthorizationDecision;
  ir_risk : RiskScore;
  ir_trace_id : string;
  ir_limits : list LimitVerdict;
  ir_stages : list StageOutcome;
  ir_provenance : ModelProvenance;
  ir_causation_id : option string;
  ir_attributes : list (string * pyval)
}.

Definition mk_IntentRecord (decision_id segment_id tenant_id : string) (created_at : float)
    (principal : VerifiedPrincipal) (action : ProposedAction) (decision : AuthorizationDecision)
    (risk : RiskScore) (trace_id : string) (limits : list LimitVerdict) (stages : list StageOutcome)
    (provenance : ModelProvenance) (causation_id : option string) (attributes : pairs_arg)
    : res IntentRecord :=
  decision_id ← require_identifier decision_id "decision_id";
  segment_id ← require_identifier segment_id "segment_id";
  tenant_id ← require_identifier tenant_id "tenant_id";
  created_at ← require_timestamp created_at "created_at";
  trace_id ← require_identifier trace_id "trace_id";
  causation_id ← res_opt (fun c => require_identifier c "causation_id") causation_id;
  attributes ← freeze_pairs attributes "attributes";
  _ ← raise_if (negb (vp_tenant_id principal =? tenant_id)%string) (DomainValidationError "tenant_id");
  _ ← raise_if (negb (pa_tenant_id action =? tenant_id)%string) (DomainValidationError "tenant_id");
  Ok {| ir_decision_id := decision_id; ir_segment_id := segment_id; ir_tenant_id := tenant_id;
        ir_created_at := created_at; ir_principal := principal; ir_action := action;
        ir_decision := decision; ir_risk := risk; ir_trace_id := trace_id; ir_limits := limits;
        ir_stages := stages; ir_provenance := provenance; ir_causation_id := causation_id;
        ir_attributes := attributes |}.

Definition skipped_stages (r : IntentRecord) : list StageOutcome :=
  List.filter is_missing_control (ir_stages r).

Definition ir_requires_prior_evidence (r : IntentRecord) : bool :=
  pa_requires_prior_evidence (ir_action r).

Definition intent_as_evidence (r : IntentRecord) : pyval :=
  pdict [("decision_id", PStr (ir_decision_id r)); ("segment_id", PStr (ir_segment_id r));
         ("tenant_id", PStr (ir_tenant_id r)); ("created_at", PFloat (ir_created_at r));
         ("identity", pdict (principal_as_evidence (ir_principal r)));
         ("action", pdict (action_as_evidence (ir_action r)));
         ("policy_decision", decision_as_evidence (ir_decision r));
         ("risk", pdict (risk_score_as_evidence (ir_risk r)));
         ("limits_verdict", PList (map limit_verdict_as_evidence (ir_limits r)));
         ("stages", PList (map stage_as_evidence (ir_stages r)));
         ("skipped_stages", PList (map stage_as_evidence (skipped_stages r)));
         ("provenance", provenance_as_evidence (ir_provenance r));
         ("trace_id", PStr (ir_trace_id r)); ("causation_id", p_str_opt (ir_causation_id r));
         ("attributes", pairs_dict (ir_attributes r))].

(** The payload both kinds of record are chained with. *)
Definition chain_bytes (record : pyval) (seq : Z) (prev_hash : bytes) : res bytes :=
  _ ← raise_if (seq <? 0)%Z (DomainValidationError "seq");
  _ ← raise_if (negb (length prev_hash =? length GENESIS_PREV_HASH)%nat)
        (DomainValidationError "prev_hash");
  canonical_bytes (pdict [("seq", PInt seq); ("prev_hash", PStr (bytes_hex prev_hash));
                          ("record", record)]).

Definition intent_chain_payload (r : IntentRecord) (seq : Z) (prev_hash : bytes) : res bytes :=
  chain_bytes (intent_as_evidence r) seq prev_hash.

(** ** Outcome records *)

Record OutcomeRecord := {
  or_decision_id : string;
  or_outcome : ExecutionOutcome
}.

Definition mk_OutcomeRecord (decision_id : string) (outcome : ExecutionOutcome) : res OutcomeRecord :=
  decision_id ← require_identifier decision_id "decision_id";
  Ok {| or_decision_id := decision_id; or_outcome := outcome |}.

Definition outcome_record_as_evidence (r : OutcomeRecord) : pyval :=
  let o := or_outcome r in
  pdict [("decision_id", PStr (or_decision_id r)); ("status", PStr (execution_status_value (eo_status o)));
         ("completed_at", PFloat (eo_completed_at o));
         ("result_digest", p_str_opt (eo_result_digest o));
         ("error_class", p_str_opt (eo_error_class o))].

Definition outcome_chain_payload (r : OutcomeRecord) (seq : Z) (prev_hash : bytes) : res bytes :=
  chain_bytes (outcome_record_as_evidence r) seq prev_hash.

(** ** Receipts *)

Record EvidenceReceipt := {
  rc_decision_id : string;
  rc_segment_id : string;
  rc_seq : Z;
  rc_record_hmac : bytes;
  rc_signer_key_id : string;
  rc_persisted_at : float
}.

Definition mk_EvidenceReceipt (decision_id segment_id : string) (seq : Z) (record_hmac : bytes)
    (signer_key_id : string) (persisted_at : float) : res EvidenceReceipt :=
  decision_id ← require_identifier decision_id "decision_id";
  segment_id ← require_identifier segment_id "segment_id";
  _ ← raise_if (seq <? 0)%Z (DomainValidationError "seq");
  record_hmac ← require_mac record_hmac "record_hmac";
  signer_key_id ← require_identifier signer_key_id "signer_key_id";
  persisted_at ← require_timestamp persisted_at "persisted_at";
  Ok {| rc_decision_id := decision_id; rc_segment_id := segment_id; rc_seq := seq;
        rc_record_hmac := record_hmac; rc_signer_key_id := signer_key_id;
        rc_persisted_at := persisted_at |}.

(** ** Segments *)

Record EvidenceSegment := {
  sg_segment_id : string;
  sg_tenant_id : string;
  sg_opened_at : float;
  sg_first_seq : Z;
  sg_sealed_at : option float;
  sg_last_seq : option Z;
  sg_merkle_root : option bytes;
  sg_seal_signature : option bytes;
  sg_worm_anchor_id : option string
}.

(** The four fields a seal sets, all or none. *)
Definition sealed_fields_agree (sealed_at : option float) (last_seq : option Z)
    (merkle_root seal_signature : option bytes) : bool :=
  let present := [is_some sealed_at; is_some last_seq; is_some merkle_root; is_some seal_signature] in
  negb (existsb id present && negb (forallb id present)).

Definition mk_EvidenceSegment (segment_id tenant_id : string) (opened_at : float) (first_seq : Z)
    (sealed_at : option float) (last_seq : option Z) (merkle_root seal_signature : option bytes)
    (worm_anchor_id : option string) : res EvidenceSegment :=
  segment_id ← require_identifier segment_id "segment_id";
  tenant_id ← require_identifier tenant_id "tenant_id";
  opened_at ← require_timestamp opened_at "opened_at";
  _ ← raise_if (first_seq <? 0)%Z (DomainValidationError "first_seq");
  _ ← raise_if (negb (sealed_fields_agree sealed_at last_seq merkle_root seal_signature))
        (DomainValidationError "sealed_at");
  _ ← match sealed_at with
      | None => Ok tt
      | Some s =>
          s ← require_timestamp s "sealed_at";
          _ ← raise_if (flt s opened_at) (DomainValidationError "sealed_at");
          _ ← raise_if (match last_seq with Some l => (l <? first_seq - 1)%Z | None => false end)
                (DomainValidationError "last_seq");
          _ ← res_opt (fun r => require_mac r "merkle_root") merkle_root;
          Ok tt
      end;
  worm_anchor_id ← res_opt (fun a => require_identifier a "worm_anchor_id") worm_anchor_id;
  Ok {| sg_segment_id := segment_id; sg_tenant_id := tenant_id; sg_opened_at := opened_at;
        sg_first_seq := first_seq; sg_sealed_at := sealed_at; sg_last_seq := last_seq;
        sg_merkle_root := merkle_root; sg_seal_signature := seal_signature;
        sg_worm_anchor_id := worm_anchor_id |}.

Definition is_sealed (s : EvidenceSegment) : bool := is_some (sg_sealed_at s).
Definition is_anchored (s : EvidenceSegment) : bool := is_sealed s && is_some (sg_worm_anchor_id s).
Definition record_count (s : EvidenceSegment) : option Z :=
  match sg_last_seq s with None => None | Some l => Some (l - sg_first_seq s + 1)%Z end.

(** ** Anchors *)

Record WormAnchor := {
  wa_anchor_id : string;
  wa_segment_id : string;
  wa_tenant_id : string;
  wa_merkle_root : bytes;
  wa_tree_size : Z;
  wa_first_seq : Z;
  wa_last_seq : Z;
  wa_sealed_at : float;
  wa_root_signature : bytes;
  wa_signer_key_id : string
}.

Definition mk_WormAnchor (anchor_id segment_id tenant_id : string) (merkle_root : bytes)
    (tree_size first_seq last_seq : Z) (sealed_at : float) (root_signature : bytes)
    (signer_key_id : string) : res WormAnchor :=
  anchor_id ← require_identifier anchor_id "anchor_id";
  segment_id ← require_identifier segment_id "segment_id";
  tenant_id ← require_identifier tenant_id "tenant_id";
  merkle_root ← require_mac merkle_root "merkle_root";
  root_signature ← require_mac root_signature "root_signature";
  signer_key_id ← require_identifier signer_key_id "signer_key_id";
  sealed_at ← require_timestamp sealed_at "sealed_at";
  _ ← raise_if (tree_size <? 0)%Z (DomainValidationError "tree_size");
  _ ← raise_if (first_seq <? 0)%Z (DomainValidationError "first_seq");
  _ ← raise_if (last_seq <? 0)%Z (DomainValidationError "last_seq");
  _ ← raise_if (last_seq <? first_seq)%Z (DomainValidationError "last_seq");
  _ ← raise_if (negb (tree_size =? last_seq - first_seq + 1)%Z) (DomainValidationError "tree_size");
  Ok {| wa_anchor_id := anchor_id; wa_segment_id := segment_id; wa_tenant_id := tenant_id;
        wa_merkle_root := merkle_root; wa_tree_size := tree_size; wa_first_seq := first_seq;
        wa_last_seq := last_seq; wa_sealed_at := sealed_at; wa_root_signature := root_signature;
        wa_signer_key_id := signer_key_id |}.

Definition signing_payload (a : WormAnchor) : res bytes :=
  canonical_bytes
    (pdict [("anchor_id", PStr (wa_anchor_id a)); ("segment_id", PStr (wa_segment_id a));
            ("tenant_id", PStr (wa_tenant_id a)); ("merkle_root", PStr (bytes_hex (wa_merkle_root a)));
            ("tree_size", PInt (wa_tree_size a)); ("first_seq", PInt (wa_first_seq a));
            ("last_seq", PInt (wa_last_seq a)); ("sealed_at", PFloat (wa_sealed_at a))]).

(** ** Integrity reports *)

Record IntegrityReport := {
  ip_segment_id : string;
  ip_status : IntegrityStatus;
  ip_records_checked : Z;
  ip_verified_at : float;
  ip_first_broken_seq : option Z;
  ip_detail : string;
  ip_outcome_status : IntegrityStatus;
  ip_outcome_records_checked : Z;
  ip_first_broken_outcome_seq : option Z
}.

(** A broken chain names its first failing record, and no other chain does. *)
Definition broken_agrees (status : IntegrityStatus) (first : option Z) (field : string) : res unit :=
  let broken := match status with BROKEN => true | _ => false end in
  _ ← raise_if (broken && negb (is_some first)) (DomainValidationError field);
  raise_if (negb broken && is_some first) (DomainValidationError field).

Definition opt_negative (o : option Z) : bool := match o with Some z => (z <? 0)%Z | None => false end.

Definition mk_IntegrityReport (segment_id : string) (status : IntegrityStatus) (records_checked : Z)
    (verified_at : float) (first_broken_seq : option Z) (detail : string)
    (outcome_status : IntegrityStatus) (outcome_records_checked : Z)
    (first_broken_outcome_seq : option Z) : res IntegrityReport :=
  segment_id ← require_identifier segment_id "segment_id";
  _ ← raise_if (records_checked <? 0)%Z (DomainValidationError "records_checked");
  verified_at ← require_timestamp verified_at "verified_at";
  _ ← raise_if (opt_negative first_broken_seq) (DomainValidationError "first_broken_seq");
  _ ← broken_agrees status first_broken_seq "first_broken_seq";
  _ ← raise_if (outcome_records_checked <? 0)%Z (DomainValidationError "outcome_records_checked");
  _ ← raise_if (opt_negative first_broken_outcome_seq) (DomainValidationError "first_broken_outcome_seq");
  _ ← broken_agrees outcome_status first_broken_outcome_seq "first_broken_outcome_seq";
  Ok {| ip_segment_id := segment_id; ip_status := status; ip_records_checked := records_checked;
        ip_verified_at := verified_at; ip_first_broken_seq := first_broken_seq; ip_detail := detail;
        ip_outcome_status := outcome_status; ip_outcome_records_checked := outcome_records_checked;
        ip_first_broken_outcome_seq := first_broken_outcome_seq |}.

Definition is_fully_acceptable (r : IntegrityReport) : bool :=
  integrity_is_acceptable (ip_status r) && integrity_is_acceptable (ip_outcome_status r).

(** ** A chain link determines what it links *)

Lemma mk_IntentRecord_ok d sg t c p a de ri tr l st pr ca at_ r :
  mk_IntentRecord d sg t c p a de ri tr l st pr ca at_ = Ok r ->
  ir_decision_id r = d /\ ir_segment_id r = sg /\ ir_tenant_id r = t /\ ir_created_at r = c /\
  ir_principal r = p /\ ir_action r = a /\ ir_decision r = de /\ ir_risk r = ri /\
  ir_stages r = st /\ vp_tenant_id p = t /\ pa_tenant_id a = t /\ valid_id d /\ valid_id sg.
Proof.
  unfold mk_IntentRecord. intros H. inv_ok. subst r. cbn.
  repeat match goal with
  | H : require_identifier _ _ = Ok _ |- _ => apply require_identifier_valid in H as [-> ?]
  | H : require_timestamp _ _ = Ok _ |- _ => apply require_timestamp_ok in H as (-> & _)
  | H : negb _ = false |- _ => apply negb_false_iff, String.eqb_eq in H
  end. done.
Qed.

(** The fields of a record's evidence that [normalise] keeps as they are. *)
Definition floats_fine (v : pyval) : Prop :=
  exists j, normalise "$.record" v = Ok j /\ floats_ok j = true.

Lemma normalise_chain record seq prev j :
  normalise "$.record" record = Ok j ->
  normalise "$" (pdict [("seq", PInt seq); ("prev_hash", PStr (bytes_hex prev)); ("record", record)])
  = Ok (JObj [("seq", JInt seq); ("prev_hash", JStr (bytes_hex prev)); ("record", j)]).
Proof. intros H. apply normalise_pdict. eexists. split; [done|]. repeat constructor. exact H. Qed.

Lemma chain_bytes_binds rec1 s1 p1 rec2 s2 p2 b :
  floats_fine rec1 -> floats_fine rec2 ->
  chain_bytes rec1 s1 p1 = Ok b -> chain_bytes rec2 s2 p2 = Ok b ->
  s1 = s2 /\ p1 = p2 /\
  exists j1 j2, normalise "$.record" rec1 = Ok j1 /\ normalise "$.record" rec2 = Ok j2 /\
    sort_keys j1 = sort_keys j2.
Proof.
  intros (j1 & Hj1 & Hf1) (j2 & Hj2 & Hf2) H1 H2.
  unfold chain_bytes in H1, H2.
  apply bind_ok in H1 as ([] & _ & H1), H2 as ([] & _ & H2).
  apply bind_ok in H1 as ([] & _ & H1), H2 as ([] & _ & H2).
  pose proof (canonical_bytes_normal _ _ _ _ b (normalise_chain rec1 s1 p1 j1 Hj1)
                (normalise_chain rec2 s2 p2 j2 Hj2)) as Heq.
  cbn [floats_ok forallb snd] in Heq. rewrite Hf1, Hf2 in Heq.
  specialize (Heq eq_refl eq_refl H1 H2). cbn -[sort_keys] in Heq.
  cbn [sort_keys map fst snd] in Heq.
  assert (Hsort : forall (a b c : json), sort_by fst [("seq", a); ("prev_hash", b); ("record", c)]
                  = [("prev_hash", b); ("record", c); ("seq", a)]) by reflexivity.
  rewrite !Hsort in Heq. injection Heq as Hp Hr Hs.
  apply bytes_hex_inj in Hp. eauto 10.
Qed.

Ltac literal_keys := apply (bool_decide_unpack _); vm_compute; exact I.

(** A chain link's payload determines what is linked: two intent records
    with the same payload bytes have the same sequence number, the same
    previous MAC, the same decision, segment and tenant, and the same evidence
    field by field (up to the order of keys). *)
Theorem intent_link_binds r1 s1 p1 r2 s2 p2 b :
  floats_fine (intent_as_evidence r1) -> floats_fine (intent_as_evidence r2) ->
  intent_chain_payload r1 s1 p1 = Ok b -> intent_chain_payload r2 s2 p2 = Ok b ->
  s1 = s2 /\ p1 = p2 /\
  ir_decision_id r1 = ir_decision_id r2 /\ ir_segment_id r1 = ir_segment_id r2 /\
  ir_tenant_id r1 = ir_tenant_id r2 /\
  exists j1 j2, normalise "$.record" (intent_as_evidence r1) = Ok j1 /\
    normalise "$.record" (intent_as_evidence r2) = Ok j2 /\ sort_keys j1 = sort_keys j2.
Proof.
  intros Hf1 Hf2 H1 H2.
  destruct (chain_bytes_binds _ _ _ _ _ _ _ Hf1 Hf2 H1 H2) as (-> & -> & j1 & j2 & Hj1 & Hj2 & Hs).
  split_and!; try done; try (by exists j1, j2);
    (eapply canonical_str_field; [| exact Hj1 | exact Hj2 | exact Hs | |]; [literal_keys | by repeat constructor ..]).
Qed.

Definition sample_principal : VerifiedPrincipal :=
  {| vp_agent_ref := "agent-1"; vp_agent_instance_id := "i1"; vp_tenant_id := "t1";
     vp_credential_type := SPIFFE; vp_credential_id := "c1"; vp_issued_at := fz 10;
     vp_expires_at := fz 1000; vp_delegating_subject := None;
     vp_delegation_chain := {| hops := [] |}; vp_claims := [] |}.

Definition sample_intent (d : string) : IntentRecord :=
  {| ir_decision_id := d; ir_segment_id := "t1.19700101"; ir_tenant_id := "t1";
     ir_created_at := fz 20; ir_principal := sample_principal; ir_action := sample_action "x";
     ir_decision := sample_allow; ir_risk := sample_score; ir_trace_id := "tr1"; ir_limits := [];
     ir_stages := []; ir_provenance := no_provenance; ir_causation_id := None; ir_attributes := [] |}.

Definition sample_payload : bytes :=
  match intent_chain_payload (sample_intent "d1") 0 GENESIS_PREV_HASH with Ok b => b | Raise _ => [] end.

Definition sample_json : json :=
  match normalise "$.record" (intent_as_evidence (sample_intent "d1")) with Ok j => j | Raise _ => JNull end.

Lemma intent_link_binds_witness :
  intent_chain_payload (sample_intent "d1") 0 GENESIS_PREV_HASH = Ok sample_payload /\
  ir_decision_id (sample_intent "d1") = ir_decision_id (sample_intent "d1").
Proof.
  assert (E : intent_chain_payload (sample_intent "d1") 0 GENESIS_PREV_HASH = Ok sample_payload)
    by (vm_compute; reflexivity).
  assert (Hf : floats_fine (intent_as_evidence (sample_intent "d1")))
    by (exists sample_json; split; vm_compute; reflexivity).
  split; [exact E|].
  exact (proj1 (proj2 (proj2 (intent_link_binds (sample_intent "d1") 0 GENESIS_PREV_HASH
           (sample_intent "d1") 0 GENESIS_PREV_HASH sample_payload Hf Hf E E)))).
Defined.

(** The signature of an anchor binds everything the anchor says. *)
Lemma signing_payload_binds a1 a2 b :
  floats_ok (JFloat (wa_sealed_at a1)) = true -> floats_ok (JFloat (wa_sealed_at a2)) = true ->
  signing_payload a1 = Ok b -> signing_payload a2 = Ok b ->
  wa_anchor_id a1 = wa_anchor_id a2 /\ wa_segment_id a1 = wa_segment_id a2 /\
  wa_tenant_id a1 = wa_tenant_id a2 /\ wa_merkle_root a1 = wa_merkle_root a2 /\
  wa_tree_size a1 = wa_tree_size a2 /\ wa_first_seq a1 = wa_first_seq a2 /\
  wa_last_seq a1 = wa_last_seq a2 /\ wa_sealed_at a1 = wa_sealed_at a2.
Proof.
  intros Hf1 Hf2 H1 H2.
  assert (Hn : forall a, floats_ok (JFloat (wa_sealed_at a)) = true ->
    exists j, normalise "$" (pdict [("anchor_id", PStr (wa_anchor_id a)); ("segment_id", PStr (wa_segment_id a));
            ("tenant_id", PStr (wa_tenant_id a)); ("merkle_root", PStr (bytes_hex (wa_merkle_root a)));
            ("tree_size", PInt (wa_tree_size a)); ("first_seq", PInt (wa_first_seq a));
            ("last_seq", PInt (wa_last_seq a)); ("sealed_at", PFloat (wa_sealed_at a))]) = Ok j /\
      floats_ok j = true /\
      j = JObj [("anchor_id", JStr (wa_anchor_id a)); ("segment_id", JStr (wa_segment_id a));
            ("tenant_id", JStr (wa_tenant_id a)); ("merkle_root", JStr (bytes_hex (wa_merkle_root a)));
            ("tree_size", JInt (wa_tree_size a)); ("first_seq", JInt (wa_first_seq a));
            ("last_seq", JInt (wa_last_seq a)); ("sealed_at", JFloat (wa_sealed_at a))]).
  { intros a Hf. eexists. split_and!; [| |reflexivity].
    - apply normalise_pdict. eexists. split; [done|]. repeat constructor. cbn in Hf |- *.
      apply andb_true_iff in Hf as [Hf _]. by rewrite Hf.
    - cbn in Hf |- *. by rewrite Hf. }
  destruct (Hn a1 Hf1) as (j1 & Hj1 & Hk1 & ->), (Hn a2 Hf2) as (j2 & Hj2 & Hk2 & ->).
  pose proof (canonical_bytes_normal _ _ _ _ b Hj1 Hj2 Hk1 Hk2 H1 H2) as Heq.
  cbn [sort_keys map fst snd] in Heq.
  set (perm := fun a b c d e f g h : json =>
    [("anchor_id", a); ("first_seq", f); ("last_seq", g); ("merkle_root", d); ("sealed_at", h);
     ("segment_id", b); ("tenant_id", c); ("tree_size", e)]).
  assert (Hsort : forall a b c d e f g h : json,
    sort_by fst [("anchor_id", a); ("segment_id", b); ("tenant_id", c); ("merkle_root", d);
                 ("tree_size", e); ("first_seq", f); ("last_seq", g); ("sealed_at", h)]
    = perm a b c d e f g h) by reflexivity.
  rewrite !Hsort in Heq. unfold perm in Heq. injection Heq as ? ? ? Hm ? ? ? ?.
  apply bytes_hex_inj in Hm. done.
Qed.
