(* ===== verification/EvidenceStore.v ===== *)
(** * The MAC-chained evidence store
      ([glassbox/adapters/outbound/memory/evidence.py], [glassbox/ports/retention.py])

    The store's attributes are a record; each method is a step that returns its
    result (or exception) with the store it leaves, so that a method that
    raises half-way leaves what it had already written.  The signer is the
    [MacSigner] the store holds at that time.  Methods run under the store's
    lock and are atomic. *)

From stdpp Require Import base tactics list strings gmap sorting.
From Stdlib Require Import ZArith Lia Init.Byte.
From S2P Require Import Prelude PyFloat PyStr Serialization Sha256 Merkle Signing Action Identity Limits Risk Decision Evidence.

Open Scope string_scope.
Open Scope list_scope.

(** [StoredRecord] and [StoredOutcome]: the same fields over two record types. *)
Record Stored (A : Type) := {
  st_record : A;
  st_seq : Z;
  st_prev_hash : bytes;
  st_record_hmac : bytes;
  st_signer_key_id : string
}.
Arguments st_record {A}. Arguments st_seq {A}. Arguments st_prev_hash {A}.
Arguments st_record_hmac {A}. Arguments st_signer_key_id {A}.
Arguments Build_Stored {A}.

Abbreviation StoredRecord := (Stored IntentRecord).
Abbreviation StoredOutcome := (Stored OutcomeRecord).

Record EvidenceStore := {
  es_segments : gmap string (list StoredRecord);
  es_receipts : gmap string EvidenceReceipt;
  es_outcomes : gmap string StoredOutcome;
  es_outcome_chain : gmap string (list StoredOutcome);
  es_outcome_keys : list (string * float);
  es_chain_anchor : gmap string bytes;
  es_purged : gmap string Z;
  es_worm_anchors : gmap string (WormAnchor * string);
  es_tenants : gmap string string;
  es_opened_at : gmap string float
}.

Definition store_init : EvidenceStore :=
  {| es_segments := ∅; es_receipts := ∅; es_outcomes := ∅; es_outcome_chain := ∅;
     es_outcome_keys := []; es_chain_anchor := ∅; es_purged := ∅; es_worm_anchors := ∅;
     es_tenants := ∅; es_opened_at := ∅ |}.

(** [d.get(k, default)] and [d.setdefault(k, v)]. *)
Definition get_or {A} (m : gmap string A) (k : string) (default : A) : A :=
  match m !! k with Some v => v | None => default end.
Definition setdefault {A} (m : gmap string A) (k : string) (v : A) : gmap string A :=
  match m !! k with Some _ => m | None => <[k := v]> m end.

Definition purged_of (st : EvidenceStore) (segment_id : string) : Z := get_or (es_purged st) segment_id 0%Z.
Definition segment_of (st : EvidenceStore) (segment_id : string) : list StoredRecord :=
  get_or (es_segments st) segment_id [].

(** [chain[-1].record_hmac if chain else GENESIS_PREV_HASH]. *)
Definition last_mac {A} (chain : list (Stored A)) : bytes :=
  match last chain with Some s => st_record_hmac s | None => GENESIS_PREV_HASH end.

Section store.
Context {S : Type} `{MacSigner S}.

(** The [try] around [self._signer.mac(payload)]. *)
Definition sign (signer : S) (payload : bytes) : res bytes :=
  match signer_mac signer payload with
  | Ok m => Ok m
  | Raise SigningUnavailableError => Raise SigningUnavailableError
  | Raise _ => Raise EvidenceWriteError
  end.

Definition append_intent (signer : S) (st : EvidenceStore) (record : IntentRecord)
    : res EvidenceReceipt * EvidenceStore :=
  match es_receipts st !! ir_decision_id record with
  | Some existing => (Ok existing, st)
  | None =>
      let sid := ir_segment_id record in
      (* [setdefault] has run before anything can raise *)
      let st1 :=
        {| es_segments := setdefault (es_segments st) sid []; es_receipts := es_receipts st;
           es_outcomes := es_outcomes st; es_outcome_chain := es_outcome_chain st;
           es_outcome_keys := es_outcome_keys st; es_chain_anchor := es_chain_anchor st;
           es_purged := es_purged st; es_worm_anchors := es_worm_anchors st;
           es_tenants := setdefault (es_tenants st) sid (ir_tenant_id record);
           es_opened_at := setdefault (es_opened_at st) sid (ir_created_at record) |} in
      let segment := segment_of st1 sid in
      let seq := (purged_of st1 sid + Z.of_nat (length segment))%Z in
      let prev_hash := last_mac segment in
      match (payload ← intent_chain_payload record seq prev_hash; sign signer payload) with
      | Raise e => (Raise e, st1)
      | Ok mac =>
          let key_id := signer_key_id signer in
          let stored := {| st_record := record; st_seq := seq; st_prev_hash := prev_hash;
                           st_record_hmac := mac; st_signer_key_id := key_id |} in
          let appended :=
            {| es_segments := <[sid := segment ++ [stored]]> (es_segments st1);
               es_receipts := es_receipts st1;
               es_outcomes := es_outcomes st1; es_outcome_chain := es_outcome_chain st1;
               es_outcome_keys := es_outcome_keys st1; es_chain_anchor := es_chain_anchor st1;
               es_purged := es_purged st1; es_worm_anchors := es_worm_anchors st1;
               es_tenants := es_tenants st1; es_opened_at := es_opened_at st1 |} in
          match mk_EvidenceReceipt (ir_decision_id record) sid seq mac key_id (ir_created_at record) with
          | Raise e => (Raise e, appended)
          | Ok receipt =>
              (Ok receipt,
               {| es_segments := es_segments appended;
                  es_receipts := <[ir_decision_id record := receipt]> (es_receipts appended);
                  es_outcomes := es_outcomes appended;
                  es_outcome_chain := es_outcome_chain appended;
                  es_outcome_keys := es_outcome_keys appended;
                  es_chain_anchor := es_chain_anchor appended; es_purged := es_purged appended;
                  es_worm_anchors := es_worm_anchors appended; es_tenants := es_tenants appended;
                  es_opened_at := es_opened_at appended |})
          end
      end
  end.

Definition outcome_key_recorded (st : EvidenceStore) (decision_id : string) (completed_at : float)
    : bool :=
  existsb (fun k => (k.1 =? decision_id)%string && feq k.2 completed_at) (es_outcome_keys st).

Definition append_outcome (signer : S) (st : EvidenceStore) (receipt : EvidenceReceipt)
    (record : OutcomeRecord) : res unit * EvidenceStore :=
  if negb (rc_decision_id receipt =? or_decision_id record)%string then (Raise PyValueError, st)
  else match es_receipts st !! rc_decision_id receipt with
  | None => (Raise EvidenceWriteError, st)
  | Some _ =>
      let completed_at := eo_completed_at (or_outcome record) in
      if outcome_key_recorded st (or_decision_id record) completed_at then (Ok tt, st) else
      let sid := rc_segment_id receipt in
      let chains := setdefault (es_outcome_chain st) sid [] in
      let with_chains c o k :=
        {| es_segments := es_segments st; es_receipts := es_receipts st; es_outcomes := o;
           es_outcome_chain := c; es_outcome_keys := k; es_chain_anchor := es_chain_anchor st;
           es_purged := es_purged st; es_worm_anchors := es_worm_anchors st;
           es_tenants := es_tenants st; es_opened_at := es_opened_at st |} in
      let chain := get_or chains sid [] in
      let seq := Z.of_nat (length chain) in
      let prev_hash := last_mac chain in
      match (payload ← outcome_chain_payload record seq prev_hash; sign signer payload) with
      | Raise e => (Raise e, with_chains chains (es_outcomes st) (es_outcome_keys st))
      | Ok mac =>
          let stored := {| st_record := record; st_seq := seq; st_prev_hash := prev_hash;
                           st_record_hmac := mac; st_signer_key_id := signer_key_id signer |} in
          (Ok tt, with_chains (<[sid := chain ++ [stored]]> chains)
                    (<[or_decision_id record := stored]> (es_outcomes st))
                    ((or_decision_id record, completed_at) :: es_outcome_keys st))
      end
  end.

(** ** Verification *)

(** How the walk over a chain ends, and how many records it had accepted. *)
Inductive walk_end :=
| WalkDone
| WalkBroken (seq : Z) (detail : string)
| WalkUnverifiable (detail : string).

Section walk.
Context {A : Type} (payload_of : A -> Z -> bytes -> res bytes) (signer : S).

(** The [for stored in segment] loop, from [expected_seq] and
    [expected_prev], with [checked] records accepted so far. *)
Fixpoint walk (chain : list (Stored A)) (expected_seq : Z) (expected_prev : bytes) (checked : Z)
    : res (walk_end * Z) :=
  match chain with
  | [] => Ok (WalkDone, checked)
  | stored :: rest =>
      if negb (st_seq stored =? expected_seq)%Z
      then Ok (WalkBroken (st_seq stored)
                 ("sequence discontinuity: expected " +:+ str_of_int expected_seq), checked)
      else if negb (bool_decide (st_prev_hash stored = expected_prev))
      then Ok (WalkBroken (st_seq stored) "chain link does not match the previous record", checked)
      else
        payload ← payload_of (st_record stored) (st_seq stored) (st_prev_hash stored);
        match signer_verify signer payload (st_record_hmac stored) (st_signer_key_id stored) with
        | Raise SigningUnavailableError =>
            Ok (WalkUnverifiable ("signing key " +:+ str_repr (st_signer_key_id stored) +:+
                                  " is unavailable"), checked)
        | Raise e => Raise e
        | Ok false =>
            Ok (WalkBroken (st_seq stored) "record MAC does not authenticate the stored fields", checked)
        | Ok true => walk rest (expected_seq + 1) (st_record_hmac stored) (checked + 1)
        end
  end.
End walk.

Definition walk_status (w : walk_end) : IntegrityStatus :=
  match w with WalkDone => INTACT | WalkBroken _ _ => BROKEN | WalkUnverifiable _ => UNVERIFIABLE end.
Definition walk_first_broken (w : walk_end) : option Z :=
  match w with WalkBroken seq _ => Some seq | _ => None end.
Definition walk_detail (w : walk_end) : string :=
  match w with WalkBroken _ d => d | WalkUnverifiable d => d | WalkDone => "" end.

(** [_verify_outcome_chain]. *)
Definition verify_outcome_chain (signer : S) (st : EvidenceStore) (segment_id : string)
    : res (walk_end * Z) :=
  walk outcome_chain_payload signer (get_or (es_outcome_chain st) segment_id []) 0
    GENESIS_PREV_HASH 0.

(** What the first live record must link to. *)
Definition expected_anchor (st : EvidenceStore) (segment_id : string) : bytes :=
  if (purged_of st segment_id =? 0)%Z then GENESIS_PREV_HASH
  else get_or (es_chain_anchor st) segment_id GENESIS_PREV_HASH.

Definition verify_segment (signer : S) (st : EvidenceStore) (segment_id : string) (now : float)
    : res IntegrityReport :=
  outcome ← verify_outcome_chain signer st segment_id;
  let report status checked first detail :=
    mk_IntegrityReport segment_id status checked now first detail
      (walk_status outcome.1) outcome.2 (walk_first_broken outcome.1) in
  match es_segments st !! segment_id with
  | None => report UNVERIFIABLE 0%Z None "segment not found"
  | Some segment =>
      let purged := purged_of st segment_id in
      w ← walk intent_chain_payload signer segment purged (expected_anchor st segment_id) 0;
      match w.1 with
      | WalkDone =>
          if negb (purged =? 0)%Z && is_some (es_chain_anchor st !! segment_id)
          then report SEALED_PURGED (Z.of_nat (length segment)) None
                 (str_of_int purged +:+ " record(s) purged under retention; sealed root retained")
          else report INTACT (Z.of_nat (length segment)) None ""
      | e => report (walk_status e) w.2 (walk_first_broken e) (walk_detail e)
      end
  end.
End store.

(** ** Retention *)

(** The loop of [seal_and_purge]: the index to keep from, and the MAC of the
    last record below [before_seq] before the first one that is not. *)
Fixpoint purge_point (segment : list StoredRecord) (before_seq : Z) (index : nat)
    (keep_from : nat) (anchor : option bytes) : nat * option bytes :=
  match segment with
  | [] => (keep_from, anchor)
  | stored :: rest =>
      if (before_seq <=? st_seq stored)%Z then (index, anchor)
      else purge_point rest before_seq (Datatypes.S index) (Datatypes.S index) (Some (st_record_hmac stored))
  end.

Definition delete_all {A} (m : gmap string A) (ks : list string) : gmap string A :=
  foldl (fun m k => delete k m) m ks.

Definition seal_and_purge (st : EvidenceStore) (segment_id : string) (before_seq : Z)
    : Z * EvidenceStore :=
  let segment := segment_of st segment_id in
  match purge_point segment before_seq 0 0 None with
  | (_, None) => (0%Z, st)
  | (keep_from, Some anchor) =>
      let purged_count := Z.of_nat keep_from in
      let gone := map (fun s => ir_decision_id (st_record s)) (take keep_from segment) in
      (purged_count,
       {| es_segments := <[segment_id := drop keep_from segment]> (es_segments st);
          es_receipts := delete_all (es_receipts st) gone;
          es_outcomes := delete_all (es_outcomes st) gone;
          es_outcome_chain := es_outcome_chain st; es_outcome_keys := es_outcome_keys st;
          es_chain_anchor := <[segment_id := anchor]> (es_chain_anchor st);
          es_purged := <[segment_id := (purged_of st segment_id + purged_count)%Z]> (es_purged st);
          es_worm_anchors := es_worm_anchors st; es_tenants := es_tenants st;
          es_opened_at := es_opened_at st |})
  end.

Definition segment_state (st : EvidenceStore) (segment_id : string) : res (option EvidenceSegment) :=
  match es_segments st !! segment_id with
  | None => Ok None
  | Some _ =>
      let anchor := fst <$> es_worm_anchors st !! segment_id in
      let opened := get_or (es_opened_at st) segment_id (fz 0) in
      s ← mk_EvidenceSegment segment_id (get_or (es_tenants st) segment_id "unknown")
            (if feq opened (fz 0) then fz 1 else opened) (purged_of st segment_id)
            (wa_sealed_at <$> anchor) (wa_last_seq <$> anchor) (wa_merkle_root <$> anchor)
            (wa_root_signature <$> anchor) (wa_anchor_id <$> anchor);
      Ok (Some s)
  end.

Record SegmentLeaf := { lf_seq : Z; lf_record_hmac : bytes }.

Definition mk_SegmentLeaf (seq : Z) (record_hmac : bytes) : res SegmentLeaf :=
  _ ← raise_if (seq <? 0)%Z (DomainValidationError "seq");
  _ ← raise_if (length record_hmac <? 32)%nat (DomainValidationError "record_hmac");
  Ok {| lf_seq := seq; lf_record_hmac := record_hmac |}.

(** [sorted(records, key=lambda stored: stored.seq)]: stable. *)
Fixpoint insert_seq {A} (x : Stored A) (l : list (Stored A)) : list (Stored A) :=
  match l with
  | [] => [x]
  | y :: l' => if (st_seq x <=? st_seq y)%Z then x :: y :: l' else y :: insert_seq x l'
  end.
Fixpoint sort_seq {A} (l : list (Stored A)) : list (Stored A) :=
  match l with [] => [] | x :: l' => insert_seq x (sort_seq l') end.

Definition segment_leaves (st : EvidenceStore) (segment_id : string) (before_seq : option Z)
    : res (list SegmentLeaf) :=
  res_map (fun stored => mk_SegmentLeaf (st_seq stored) (st_record_hmac stored))
    (List.filter (fun stored : StoredRecord =>
         match before_seq with None => true | Some b => (st_seq stored <? b)%Z end)
       (sort_seq (segment_of st segment_id))).

Definition mark_sealed (st : EvidenceStore) (segment_id : string) (anchor : WormAnchor)
    (locator : string) : res unit * EvidenceStore :=
  match es_segments st !! segment_id with
  | None => (Raise EvidenceWriteError, st)
  | Some _ =>
      (Ok tt,
       {| es_segments := es_segments st; es_receipts := es_receipts st; es_outcomes := es_outcomes st;
          es_outcome_chain := es_outcome_chain st; es_outcome_keys := es_outcome_keys st;
          es_chain_anchor := es_chain_anchor st; es_purged := es_purged st;
          es_worm_anchors := <[segment_id := (anchor, locator)]> (es_worm_anchors st);
          es_tenants := es_tenants st; es_opened_at := es_opened_at st |})
  end.

(** The check and the purge hold the lock one after the other; here they are one
    step, and [seal_and_purge] alone is another. *)
Definition purge_before (st : EvidenceStore) (segment_id : string) (before_seq : Z)
    : res Z * EvidenceStore :=
  match es_worm_anchors st !! segment_id with
  | Some (anchor, _) =>
      if negb (wa_last_seq anchor =? before_seq - 1)%Z then (Raise EvidenceWriteError, st)
      else let '(n, st') := seal_and_purge st segment_id before_seq in (Ok n, st')
  | None => (Raise EvidenceWriteError, st)
  end.

Definition anchor_for (st : EvidenceStore) (segment_id : string) : option WormAnchor :=
  fst <$> es_worm_anchors st !! segment_id.

(** ** Inspection *)

(** [issued == receipt] on the dataclass. *)
Definition receipt_eqb (a b : EvidenceReceipt) : bool :=
  (rc_decision_id a =? rc_decision_id b)%string && (rc_segment_id a =? rc_segment_id b)%string &&
  (rc_seq a =? rc_seq b)%Z && bool_decide (rc_record_hmac a = rc_record_hmac b) &&
  (rc_signer_key_id a =? rc_signer_key_id b)%string && feq (rc_persisted_at a) (rc_persisted_at b).

Definition has_receipt (st : EvidenceStore) (receipt : EvidenceReceipt) : bool :=
  match es_receipts st !! rc_decision_id receipt with
  | Some issued => receipt_eqb issued receipt
  | None => false
  end.

Definition outcome_for (st : EvidenceStore) (decision_id : string) : option OutcomeRecord :=
  st_record <$> es_outcomes st !! decision_id.

Definition segment_size (st : EvidenceStore) (segment_id : string) : nat :=
  length (segment_of st segment_id).

(** [tamper_for_test]: overwrite the first record at [seq], keeping its MAC. *)
Fixpoint replace_at (l : list StoredRecord) (seq : Z) (replacement : IntentRecord)
    : option (list StoredRecord) :=
  match l with
  | [] => None
  | s :: l' =>
      if (st_seq s =? seq)%Z
      then Some ({| st_record := replacement; st_seq := st_seq s; st_prev_hash := st_prev_hash s;
                    st_record_hmac := st_record_hmac s; st_signer_key_id := st_signer_key_id s |} :: l')
      else match replace_at l' seq replacement with Some r => Some (s :: r) | None => None end
  end.

Definition tamper_for_test (st : EvidenceStore) (segment_id : string) (seq : Z)
    (replacement : IntentRecord) : res unit * EvidenceStore :=
  match es_segments st !! segment_id with
  | None => (Raise PyKeyError, st)
  | Some segment =>
      match replace_at segment seq replacement with
      | None => (Raise PyKeyError, st)
      | Some segment' =>
          (Ok tt,
           {| es_segments := <[segment_id := segment']> (es_segments st); es_receipts := es_receipts st;
              es_outcomes := es_outcomes st; es_outcome_chain := es_outcome_chain st;
              es_outcome_keys := es_outcome_keys st; es_chain_anchor := es_chain_anchor st;
              es_purged := es_purged st; es_worm_anchors := es_worm_anchors st;
              es_tenants := es_tenants st; es_opened_at := es_opened_at st |})
      end
  end.

(** ** Chains *)

Section chains.
Context {S : Type} `{MacSignerLaws S}.

Section one_chain.
Context {A : Type} (payload_of : A -> Z -> bytes -> res bytes) (signer : S).

(** The link of one stored record authenticates its own fields. *)
Definition link_authentic (s : Stored A) : Prop :=
  exists p, payload_of (st_record s) (st_seq s) (st_prev_hash s) = Ok p /\
    signer_verify signer p (st_record_hmac s) (st_signer_key_id s) = Ok true.

Fixpoint chain_ok (chain : list (Stored A)) (seq : Z) (prev : bytes) : Prop :=
  match chain with
  | [] => True
  | s :: rest => st_seq s = seq /\ st_prev_hash s = prev /\ link_authentic s /\
                 chain_ok rest (seq + 1) (st_record_hmac s)
  end.

(** The MAC the next record links to. *)
Definition end_mac (chain : list (Stored A)) (prev : bytes) : bytes :=
  match last chain with Some s => st_record_hmac s | None => prev end.

Lemma end_mac_cons s l prev : end_mac (s :: l) prev = end_mac l (st_record_hmac s).
Proof. unfold end_mac. rewrite last_cons. by destruct (last l). Qed.

Lemma chain_ok_app l1 l2 seq prev :
  chain_ok (l1 ++ l2) seq prev <->
  chain_ok l1 seq prev /\ chain_ok l2 (seq + Z.of_nat (length l1)) (end_mac l1 prev).
Proof.
  revert seq prev. induction l1 as [|s l1 IH]; intros seq prev.
  - cbn. rewrite Z.add_0_r. unfold end_mac. cbn. tauto.
  - cbn [app chain_ok length]. rewrite IH, end_mac_cons.
    replace (seq + 1 + Z.of_nat (length l1))%Z with (seq + Z.of_nat (Datatypes.S (length l1)))%Z by lia.
    tauto.
Qed.

(** The walk accepts exactly the authentic, contiguous chains. *)
Lemma walk_complete chain seq prev n :
  chain_ok chain seq prev ->
  walk payload_of signer chain seq prev n = Ok (WalkDone, n + Z.of_nat (length chain))%Z.
Proof.
  revert seq prev n. induction chain as [|s l IH]; intros seq prev n.
  - intros _. cbn [walk length]. do 2 f_equal. lia.
  - intros (Hs & Hp & (p & Hpay & Hver) & Hl). cbn [walk].
    rewrite Hs, Z.eqb_refl. cbn [negb]. rewrite bool_decide_eq_true_2 by done. cbn [negb].
    rewrite Hs in Hpay. rewrite Hpay. cbn [mbind res_bind]. rewrite Hver, IH by done.
    do 2 f_equal. cbn [length]. lia.
Qed.

Lemma walk_sound chain seq prev n m :
  walk payload_of signer chain seq prev n = Ok (WalkDone, m) -> chain_ok chain seq prev.
Proof.
  revert seq prev n. induction chain as [|s l IH]; intros seq prev n; [done|]. cbn [walk chain_ok].
  destruct (Z.eqb_spec (st_seq s) seq) as [Hs|]; cbn [negb]; [|done].
  case_bool_decide as Hp; cbn [negb]; [|done]. intros Hw.
  apply bind_ok in Hw as (p & Hpay & Hw).
  destruct (signer_verify _ _ _ _) as [[]|[]] eqn:Hv; try done.
  split_and!; try done; [by exists p|]. by eapply IH.
Qed.

(** A record that does not authenticate is where the walk stops. *)
Lemma walk_stops_at l1 s l2 seq prev n :
  chain_ok l1 seq prev -> st_seq s = (seq + Z.of_nat (length l1))%Z ->
  st_prev_hash s = end_mac l1 prev ->
  (exists p, payload_of (st_record s) (st_seq s) (st_prev_hash s) = Ok p /\
     signer_verify signer p (st_record_hmac s) (st_signer_key_id s) = Ok false) ->
  walk payload_of signer (l1 ++ s :: l2) seq prev n =
  Ok (WalkBroken (st_seq s) "record MAC does not authenticate the stored fields",
      n + Z.of_nat (length l1))%Z.
Proof.
  revert seq prev n. induction l1 as [|x l1 IH]; intros seq prev n Hok Hs Hp (p & Hpay & Hv).
  - cbn in Hs. rewrite Z.add_0_r in Hs. unfold end_mac in Hp. cbn in Hp. cbn [app walk length].
    rewrite Hs at 1. rewrite Z.eqb_refl. cbn [negb]. rewrite bool_decide_eq_true_2 by done. cbn [negb].
    rewrite Hpay. cbn [mbind res_bind]. rewrite Hv. do 2 f_equal. cbn. lia.
  - destruct Hok as (Hx & Hxp & (q & Hq & Hqv) & Hl). cbn [app walk].
    rewrite Hx, Z.eqb_refl. cbn [negb]. rewrite bool_decide_eq_true_2 by done. cbn [negb].
    rewrite Hx in Hq. rewrite Hq. cbn [mbind res_bind]. rewrite Hqv.
    rewrite IH; [do 2 f_equal; cbn [length]; lia | done | | | eauto].
    + rewrite Hs. cbn [length]. lia.
    + by rewrite end_mac_cons in Hp.
Qed.

Lemma chain_ok_in chain seq prev s : chain_ok chain seq prev -> s ∈ chain -> link_authentic s.
Proof.
  revert seq prev. induction chain as [|x l IH]; intros seq prev; [by intros _ ?%not_elem_of_nil|].
  intros (_ & _ & Hx & Hl) [->|Hin]%elem_of_cons; [done|]. by eapply IH.
Qed.
End one_chain.

Lemma chain_ok_extends {A} (payload_of : A -> Z -> bytes -> res bytes) sg sg' chain seq prev :
  signer_extends sg sg' -> chain_ok payload_of sg chain seq prev -> chain_ok payload_of sg' chain seq prev.
Proof.
  intros He. revert seq prev. induction chain as [|s l IH]; intros seq prev; [done|].
  intros (? & ? & (p & ? & ?) & ?). split_and!; eauto. exists p. eauto.
Qed.

(** A record appended by [append_intent] or [append_outcome] links. *)
Lemma chain_ok_snoc {A} (payload_of : A -> Z -> bytes -> res bytes) sg chain seq prev r m :
  chain_ok payload_of sg chain seq prev ->
  (p ← payload_of r (seq + Z.of_nat (length chain))%Z (end_mac chain prev); sign sg p) = Ok m ->
  chain_ok payload_of sg
    (chain ++ [{| st_record := r; st_seq := (seq + Z.of_nat (length chain))%Z;
                  st_prev_hash := end_mac chain prev; st_record_hmac := m;
                  st_signer_key_id := signer_key_id sg |}]) seq prev.
Proof.
  intros Hok Hm. apply chain_ok_app. split; [done|]. cbn. split_and!; try done.
  apply bind_ok in Hm as (p & Hp & Hs). exists p. split; [done|]. cbn. unfold sign in Hs.
  destruct (signer_mac sg p) as [m'|[]] eqn:Em; try done. injection Hs as ->.
  by apply mac_verifies.
Qed.

Lemma last_mac_end {A} (chain : list (Stored A)) : last_mac chain = end_mac chain GENESIS_PREV_HASH.
Proof. done. Qed.

Lemma end_mac_nonempty {A} (chain : list (Stored A)) p q : chain <> [] -> end_mac chain p = end_mac chain q.
Proof. intros Hne. unfold end_mac. destruct (last chain) eqn:E; [done|]. by apply last_None in E. Qed.

(** *** Sequence numbers along a chain *)

Section sequence.
Context {A : Type} (pl : A -> Z -> bytes -> res bytes).

Lemma chain_lookup sg ch n prev i s :
  chain_ok pl sg ch n prev -> ch !! i = Some s -> st_seq s = (n + Z.of_nat i)%Z.
Proof.
  revert n prev i. induction ch as [|x ch IH]; intros n prev i; [done|].
  intros (Hx & _ & _ & Hch). destruct i as [|i]; cbn; [intros [= ->]; lia|].
  intros Hs. rewrite (IH _ _ _ Hch Hs). lia.
Qed.

Lemma chain_seqs sg ch n prev s : chain_ok pl sg ch n prev -> s ∈ ch -> (n <= st_seq s)%Z.
Proof. intros Hch [i Hi]%list_elem_of_lookup. rewrite (chain_lookup _ _ _ _ _ _ Hch Hi). lia. Qed.

Lemma sort_seq_chain sg ch n prev : chain_ok pl sg ch n prev -> sort_seq ch = ch.
Proof.
  revert n prev. induction ch as [|s ch IH]; intros n prev; [done|].
  intros (Hs & _ & _ & Hch). cbn [sort_seq]. rewrite (IH _ _ Hch).
  destruct ch as [|x ch]; [done|]. destruct Hch as (Hx & _). cbn [insert_seq].
  by rewrite (proj2 (Z.leb_le _ _)) by lia.
Qed.

(** The records below a boundary are a prefix, the others the rest. *)
Lemma chain_filter sg ch n prev b :
  chain_ok pl sg ch n prev ->
  List.filter (fun s => (st_seq s <? b)%Z) ch = take (Z.to_nat (b - n)) ch /\
  List.filter (fun s => negb (st_seq s <? b)%Z) ch = drop (Z.to_nat (b - n)) ch.
Proof.
  revert n prev. induction ch as [|s ch IH]; intros n prev; [by rewrite take_nil, drop_nil|].
  intros (Hs & _ & _ & Hch). destruct (IH _ _ Hch) as [IH1 IH2]. cbn [List.filter].
  destruct (Z.ltb_spec (st_seq s) b) as [Hb|Hb]; cbn [negb]; rewrite IH1, IH2.
  - replace (Z.to_nat (b - n)) with (Datatypes.S (Z.to_nat (b - (n + 1)))) by lia. done.
  - replace (Z.to_nat (b - n)) with 0%nat by lia. by replace (Z.to_nat (b - (n + 1))) with 0%nat by lia.
Qed.
End sequence.
End chains.

(** ** The store's invariant *)

Section invariant.
Context {S : Type} `{MacSignerLaws S}.

(** A receipt the store holds is backed by a live record with its MAC. *)
Definition backed (st : EvidenceStore) (d : string) (rc : EvidenceReceipt) : Prop :=
  rc_decision_id rc = d /\ isfinite (rc_persisted_at rc) = true /\
  exists s, s ∈ segment_of st (rc_segment_id rc) /\ ir_decision_id (st_record s) = d /\
    st_seq s = rc_seq rc /\ st_record_hmac s = rc_record_hmac rc /\
    st_signer_key_id s = rc_signer_key_id rc.

Record store_inv (sg : S) (st : EvidenceStore) : Prop := {
  inv_intents : forall sid seg, es_segments st !! sid = Some seg ->
    chain_ok intent_chain_payload sg seg (purged_of st sid) (expected_anchor st sid);
  inv_outcomes : forall sid ch, es_outcome_chain st !! sid = Some ch ->
    chain_ok outcome_chain_payload sg ch 0 GENESIS_PREV_HASH;
  inv_purged : forall sid, (0 <= purged_of st sid)%Z /\
    (purged_of st sid <> 0%Z -> is_Some (es_chain_anchor st !! sid) /\ is_Some (es_segments st !! sid));
  inv_receipts : forall d rc, es_receipts st !! d = Some rc -> backed st d rc
}.

Lemma store_inv_init sg : store_inv sg store_init.
Proof.
  constructor; cbn.
  - intros sid seg Hs. by rewrite lookup_empty in Hs.
  - intros sid ch Hs. by rewrite lookup_empty in Hs.
  - intros sid. unfold purged_of, get_or. cbn. rewrite lookup_empty. done.
  - intros d rc Hs. by rewrite lookup_empty in Hs.
Qed.

Lemma store_inv_extends sg sg' st : signer_extends sg sg' -> store_inv sg st -> store_inv sg' st.
Proof. intros He [H1 H2 H3 H4]. constructor; eauto using chain_ok_extends. Qed.

Lemma lookup_setdefault {A} (m : gmap string A) k v k' :
  setdefault m k v !! k' = if decide (k = k') then Some (get_or m k v) else m !! k'.
Proof.
  unfold setdefault, get_or. destruct (m !! k) eqn:E; case_decide; subst; try done.
  - by rewrite lookup_insert_eq.
  - by rewrite lookup_insert_ne.
Qed.

(** The next record of a segment links to [last_mac], unless all records of
    the segment were purged. *)
Definition linkable (st : EvidenceStore) (sid : string) : Prop :=
  segment_of st sid <> [] \/ purged_of st sid = 0%Z.

Lemma linkable_end_mac st sid :
  linkable st sid -> end_mac (segment_of st sid) (expected_anchor st sid) = last_mac (segment_of st sid).
Proof.
  intros Hl. rewrite last_mac_end. destruct (segment_of st sid) as [|s l] eqn:E.
  - destruct Hl as [|Hp]; [congruence|]. unfold expected_anchor. by rewrite Hp.
  - by apply end_mac_nonempty.
Qed.

Lemma chain_of_segment sg st sid :
  store_inv sg st ->
  chain_ok intent_chain_payload sg (segment_of st sid) (purged_of st sid) (expected_anchor st sid).
Proof.
  intros Hinv. unfold segment_of, get_or. destruct (es_segments st !! sid) eqn:E; [|done].
  by apply (inv_intents _ _ Hinv).
Qed.

(** A store whose receipts, purge counts and outcome chains are those of an
    invariant store, and in which one segment is another authentic chain that
    has all the old records. *)
Lemma store_inv_update sg st st' sid seg :
  store_inv sg st ->
  es_segments st' = <[sid := seg]> (es_segments st) ->
  es_chain_anchor st' = es_chain_anchor st -> es_purged st' = es_purged st ->
  es_outcome_chain st' = es_outcome_chain st ->
  chain_ok intent_chain_payload sg seg (purged_of st sid) (expected_anchor st sid) ->
  (forall s, s ∈ segment_of st sid -> s ∈ seg) ->
  (forall d rc, es_receipts st' !! d = Some rc -> es_receipts st !! d = Some rc \/ backed st' d rc) ->
  store_inv sg st'.
Proof.
  intros Hinv Hseg Hanc Hpur Hout Hok Hsub Hrec.
  assert (Hp : forall x, purged_of st' x = purged_of st x) by (intros; unfold purged_of; by rewrite Hpur).
  assert (Ha : forall x, expected_anchor st' x = expected_anchor st x)
    by (intros; unfold expected_anchor; by rewrite Hp, Hanc).
  assert (Hs : forall x s, s ∈ segment_of st x -> s ∈ segment_of st' x).
  { intros x s. unfold segment_of, get_or. rewrite Hseg. destruct (decide (sid = x)) as [->|Hne].
    - rewrite lookup_insert_eq. intros Hin. by apply Hsub.
    - by rewrite lookup_insert_ne. }
  constructor.
  - intros x l Hl. rewrite Hseg in Hl. rewrite Hp, Ha. destruct (decide (sid = x)) as [->|Hne].
    + rewrite lookup_insert_eq in Hl. by injection Hl as <-.
    + rewrite lookup_insert_ne in Hl by done. by apply (inv_intents _ _ Hinv).
  - intros x ch. rewrite Hout. apply (inv_outcomes _ _ Hinv).
  - intros x. rewrite Hp, Hanc, Hseg. destruct (inv_purged _ _ Hinv x) as [? Hx]. split; [done|].
    intros Hne. destruct (Hx Hne). split; [done|]. destruct (decide (sid = x)) as [->|?].
    + rewrite lookup_insert_eq. by eexists.
    + by rewrite lookup_insert_ne.
  - intros d rc Hd. destruct (Hrec d rc Hd) as [Hold|]; [|done].
    destruct (inv_receipts _ _ Hinv d rc Hold) as (? & ? & s & Hin & ?).
    split_and!; try done. exists s. split; [by apply Hs | done].
Qed.

Lemma setdefault_as_insert st sid :
  setdefault (es_segments st) sid [] = <[sid := segment_of st sid]> (es_segments st).
Proof.
  apply map_eq. intros k. rewrite lookup_setdefault. unfold segment_of.
  destruct (decide (sid = k)) as [->|Hne]; [by rewrite lookup_insert_eq|].
  by rewrite lookup_insert_ne.
Qed.

Lemma mk_EvidenceReceipt_ok d sid seq m k t rc :
  mk_EvidenceReceipt d sid seq m k t = Ok rc ->
  rc = {| rc_decision_id := d; rc_segment_id := sid; rc_seq := seq; rc_record_hmac := m;
          rc_signer_key_id := k; rc_persisted_at := t |} /\ isfinite t = true.
Proof.
  unfold mk_EvidenceReceipt, require_mac. intros Hm. inv_ok.
  repeat match goal with
  | H : require_identifier _ _ = Ok _ |- _ => apply require_identifier_valid in H as [-> ?]
  | H : require_timestamp _ _ = Ok _ |- _ => apply require_timestamp_ok in H as (-> & ? & _)
  end. by subst.
Qed.

Lemma append_intent_inv sg st r res st' :
  store_inv sg st -> linkable st (ir_segment_id r) -> append_intent sg st r = (res, st') ->
  store_inv sg st'.
Proof.
  intros Hinv Hlink. unfold append_intent. set (sid := ir_segment_id r) in *.
  destruct (es_receipts st !! ir_decision_id r) eqn:Erc; [by intros [= _ <-]|].
  rewrite setdefault_as_insert. match goal with |- context [purged_of ?s sid] => set (st1 := s) end.
  assert (segment_of st1 sid = segment_of st sid) as ->
    by (unfold segment_of, get_or; cbn; by rewrite lookup_insert_eq).
  change (purged_of st1 sid) with (purged_of st sid).
  rewrite <-(linkable_end_mac st sid Hlink). pose proof (chain_of_segment sg st sid Hinv) as Hch.
  destruct (_ ≫= _) as [m|e] eqn:Em.
  - pose proof (chain_ok_snoc _ _ _ _ _ _ _ Hch Em) as Hsnoc.
    destruct (mk_EvidenceReceipt _ _ _ _ _ _) as [rc|e] eqn:Ercp; intros [= <- <-];
      cbn [es_segments]; rewrite insert_insert_eq.
    + apply mk_EvidenceReceipt_ok in Ercp as [-> Ht].
      eapply (store_inv_update sg st _ sid); eauto; [set_solver|].
      cbn. intros d rc. destruct (decide (ir_decision_id r = d)) as [<-|Hne].
      * rewrite lookup_insert_eq. intros [= <-]. right. split_and!; try done. cbn.
        unfold segment_of, get_or. cbn. rewrite lookup_insert_eq. eexists.
        split; [apply elem_of_app; right; by left|]. done.
      * rewrite lookup_insert_ne by done. auto.
    + eapply (store_inv_update sg st _ sid); eauto. set_solver.
  - intros [= <- <-]. eapply (store_inv_update sg st _ sid (segment_of st sid)); eauto.
Qed.

Lemma append_outcome_inv sg st rc r res st' :
  store_inv sg st -> append_outcome sg st rc r = (res, st') -> store_inv sg st'.
Proof.
  intros Hinv. unfold append_outcome.
  destruct (negb _); [by intros [= _ <-]|].
  destruct (es_receipts st !! rc_decision_id rc) eqn:Erc; [|by intros [= _ <-]].
  destruct (outcome_key_recorded _ _ _); [by intros [= _ <-]|].
  set (sid := rc_segment_id rc). set (chains := setdefault (es_outcome_chain st) sid []).
  assert (Hch : forall x ch, chains !! x = Some ch -> chain_ok outcome_chain_payload sg ch 0 GENESIS_PREV_HASH).
  { intros x ch. unfold chains. rewrite lookup_setdefault. case_decide; [|apply (inv_outcomes _ _ Hinv)].
    intros [= <-]. unfold get_or. destruct (es_outcome_chain st !! sid) eqn:E; [|done].
    by apply (inv_outcomes _ _ Hinv sid). }
  assert (Hget : chain_ok outcome_chain_payload sg (get_or chains sid []) 0 GENESIS_PREV_HASH).
  { unfold get_or. destruct (chains !! sid) eqn:E; [by eapply Hch | done]. }
  destruct (_ ≫= _) as [m|ex] eqn:Em; intros [= <- <-].
  - rewrite last_mac_end in Em. pose proof (chain_ok_snoc _ _ _ 0%Z _ _ _ Hget Em) as Hsnoc.
    constructor; cbn; try apply Hinv. intros x ch.
    destruct (decide (sid = x)) as [<-|Hne].
    + rewrite lookup_insert_eq. by intros [= <-].
    + rewrite lookup_insert_ne by done. apply Hch.
  - constructor; cbn; try apply Hinv. apply Hch.
Qed.

Lemma mark_sealed_inv sg st sid a loc res st' :
  store_inv sg st -> mark_sealed st sid a loc = (res, st') -> store_inv sg st'.
Proof.
  intros Hinv. unfold mark_sealed. destruct (es_segments st !! sid); intros [= <- <-]; [|done].
  constructor; apply Hinv.
Qed.

(** *** Purging *)

Lemma purge_point_spec b seg : forall i an,
  exists j, purge_point seg b i i an =
    ((i + j)%nat, match j with O => an | Datatypes.S j' => st_record_hmac <$> seg !! j' end) /\
    (j <= length seg)%nat /\ Forall (fun s => (st_seq s < b)%Z) (take j seg).
Proof.
  induction seg as [|s seg IH]; intros i an.
  - exists 0%nat. cbn. rewrite Nat.add_0_r. split_and!; [done | lia | constructor].
  - cbn [purge_point]. destruct (Z.leb_spec b (st_seq s)).
    + exists 0%nat. rewrite Nat.add_0_r. split_and!; [done | lia | constructor].
    + destruct (IH (Datatypes.S i) (Some (st_record_hmac s))) as (j & Hj & Hlen & HF).
      exists (Datatypes.S j). split_and!.
      * rewrite Hj. f_equal; [lia|]. by destruct j.
      * cbn. lia.
      * cbn. by constructor.
Qed.

Lemma lookup_delete_all {A} (m : gmap string A) ks k v :
  delete_all m ks !! k = Some v <-> m !! k = Some v /\ k ∉ ks.
Proof.
  unfold delete_all. revert m. induction ks as [|k0 ks IH]; intros m; cbn; [set_solver|].
  rewrite IH, lookup_delete_Some. set_solver.
Qed.

(** What [seal_and_purge] does when it removes something. *)
Lemma seal_and_purge_cases st sid b n st' :
  seal_and_purge st sid b = (n, st') ->
  (n = 0%Z /\ st' = st) \/
  exists j s, n = Z.of_nat (Datatypes.S j) /\ segment_of st sid !! j = Some s /\
    Forall (fun s => (st_seq s < b)%Z) (take (Datatypes.S j) (segment_of st sid)) /\
    es_segments st' = <[sid := drop (Datatypes.S j) (segment_of st sid)]> (es_segments st) /\
    es_chain_anchor st' = <[sid := st_record_hmac s]> (es_chain_anchor st) /\
    es_purged st' = <[sid := (purged_of st sid + n)%Z]> (es_purged st) /\
    es_outcome_chain st' = es_outcome_chain st /\
    es_receipts st' = delete_all (es_receipts st)
      (map (fun s => ir_decision_id (st_record s)) (take (Datatypes.S j) (segment_of st sid))) /\
    es_worm_anchors st' = es_worm_anchors st.
Proof.
  unfold seal_and_purge.
  destruct (purge_point_spec b (segment_of st sid) 0 None) as (j & -> & Hlen & HF).
  destruct j as [|j]; [intros [= <- <-]; by left|].
  destruct (segment_of st sid !! j) as [s|] eqn:Es; [|apply lookup_ge_None in Es; lia].
  cbn [fmap option_fmap option_map Nat.add]. intros [= <- <-]. right. exists j, s. done.
Qed.

Lemma end_mac_take {A} (l : list (Stored A)) j s prev :
  l !! j = Some s -> end_mac (take (Datatypes.S j) l) prev = st_record_hmac s.
Proof. intros Hs. rewrite (take_S_r _ _ _ Hs). unfold end_mac. by rewrite last_snoc. Qed.

Lemma seal_and_purge_inv sg st sid b n st' :
  store_inv sg st -> seal_and_purge st sid b = (n, st') -> store_inv sg st'.
Proof.
  intros Hinv Hp. destruct (seal_and_purge_cases _ _ _ _ _ Hp)
    as [[_ ->]|(j & s & -> & Hs & HF & Hseg & Hanc & Hpur & Hout & Hrec & _)]; [done|]. clear Hp.
  pose proof (chain_of_segment sg st sid Hinv) as Hch.
  rewrite <-(take_drop (Datatypes.S j) (segment_of st sid)) in Hch. apply chain_ok_app in Hch as [_ Hch].
  rewrite (end_mac_take _ _ _ _ Hs) in Hch. apply lookup_lt_Some in Hs as Hlt.
  rewrite length_take, Nat.min_l in Hch by lia.
  pose proof (inv_purged _ _ Hinv sid) as [Hp0 _].
  assert (Hpx : forall x, purged_of st' x = if decide (sid = x)
                 then (purged_of st sid + Z.of_nat (Datatypes.S j))%Z else purged_of st x).
  { intros x. unfold purged_of, get_or at 1. rewrite Hpur. case_decide as Hx; subst.
    - by rewrite lookup_insert_eq.
    - by rewrite lookup_insert_ne. }
  assert (Hax : forall x, expected_anchor st' x = if decide (sid = x) then st_record_hmac s else expected_anchor st x).
  { intros x. unfold expected_anchor. rewrite Hpx, Hanc. case_decide as Hx; subst.
    - destruct (Z.eqb_spec (purged_of st x + Z.of_nat (Datatypes.S j)) 0); [lia|].
      unfold get_or. by rewrite lookup_insert_eq.
    - unfold get_or. by rewrite lookup_insert_ne. }
  constructor.
  - intros x seg Hx. rewrite Hseg in Hx. rewrite Hpx, Hax. case_decide as Hd; subst.
    + rewrite lookup_insert_eq in Hx. by injection Hx as <-.
    + rewrite lookup_insert_ne in Hx by done. by apply (inv_intents _ _ Hinv).
  - intros x ch. rewrite Hout. apply (inv_outcomes _ _ Hinv).
  - intros x. rewrite Hpx, Hanc, Hseg. case_decide as Hd; subst.
    + rewrite !lookup_insert_eq. split; [lia|]. by intros _; split; eexists.
    + rewrite !lookup_insert_ne by done. apply (inv_purged _ _ Hinv).
  - intros d rc. rewrite Hrec, lookup_delete_all. intros [Hd Hnot].
    destruct (inv_receipts _ _ Hinv d rc Hd) as (? & ? & s' & Hin & Hid & Hrest).
    split_and!; try done. exists s'. split; [|done]. unfold segment_of, get_or. rewrite Hseg.
    destruct (decide (sid = rc_segment_id rc)) as [->|Hne].
    + rewrite lookup_insert_eq. rewrite <-(take_drop (Datatypes.S j) (segment_of st _)) in Hin.
      apply elem_of_app in Hin as [Hin|]; [|done]. destruct Hnot. rewrite <-Hid.
      apply (list_elem_of_fmap_2 (fun s => ir_decision_id (st_record s)) _ _ Hin).
    + by rewrite lookup_insert_ne.
Qed.

Lemma purge_before_inv sg st sid b res st' :
  store_inv sg st -> purge_before st sid b = (res, st') -> store_inv sg st'.
Proof.
  intros Hinv. unfold purge_before. destruct (es_worm_anchors st !! sid) as [[a loc]|]; [|by intros [= _ <-]].
  destruct (negb _); [by intros [= _ <-]|].
  destruct (seal_and_purge st sid b) as [n st1] eqn:E. intros [= _ <-]. by eapply seal_and_purge_inv.
Qed.

(** ** Runs *)

(** One call of the store, or one change of its signer that keeps earlier
    MACs verifiable.  [append_intent] is called on a segment that still has a
    live record to link to, or from which nothing was purged. *)
Inductive store_step : S * EvidenceStore -> S * EvidenceStore -> Prop :=
| step_append_intent sg st r res st' :
    linkable st (ir_segment_id r) -> append_intent sg st r = (res, st') -> store_step (sg, st) (sg, st')
| step_append_outcome sg st rc r res st' :
    append_outcome sg st rc r = (res, st') -> store_step (sg, st) (sg, st')
| step_mark_sealed sg st sid a loc res st' :
    mark_sealed st sid a loc = (res, st') -> store_step (sg, st) (sg, st')
| step_purge_before sg st sid b res st' :
    purge_before st sid b = (res, st') -> store_step (sg, st) (sg, st')
| step_seal_and_purge sg st sid b n st' :
    seal_and_purge st sid b = (n, st') -> store_step (sg, st) (sg, st')
| step_signer sg sg' st : signer_extends sg sg' -> store_step (sg, st) (sg', st).

Lemma reachable_inv sg0 sg st : rtc store_step (sg0, store_init) (sg, st) -> store_inv sg st.
Proof.
  intros Hrun. change (store_inv (sg, st).1 (sg, st).2).
  assert (Hstart : store_inv (sg0, store_init).1 (sg0, store_init).2) by apply store_inv_init.
  revert Hstart. induction Hrun as [x|x y z Hstep _ IH]; [done|]. intros Hx. apply IH. clear IH.
  destruct Hstep; cbn in *; eauto using append_intent_inv, append_outcome_inv, mark_sealed_inv,
    purge_before_inv, seal_and_purge_inv, store_inv_extends.
Qed.

Lemma walk_outcomes_inv sg st sid :
  store_inv sg st ->
  verify_outcome_chain sg st sid =
  Ok (WalkDone, Z.of_nat (length (get_or (es_outcome_chain st) sid []))).
Proof.
  intros Hinv. unfold verify_outcome_chain. rewrite walk_complete; [done|].
  unfold get_or. destruct (es_outcome_chain st !! sid) eqn:E; [|done].
  by apply (inv_outcomes _ _ Hinv sid).
Qed.

Lemma mk_IntegrityReport_clean sid status n now detail m :
  valid_id sid -> is_ok (require_timestamp now "verified_at") = true ->
  status <> BROKEN -> (0 <= n)%Z -> (0 <= m)%Z ->
  mk_IntegrityReport sid status n now None detail INTACT m None =
  Ok {| ip_segment_id := sid; ip_status := status; ip_records_checked := n; ip_verified_at := now;
        ip_first_broken_seq := None; ip_detail := detail; ip_outcome_status := INTACT;
        ip_outcome_records_checked := m; ip_first_broken_outcome_seq := None |}.
Proof.
  intros Hid Hnow Hst Hn Hm. unfold mk_IntegrityReport.
  rewrite (proj2 (require_identifier_valid _ "segment_id" _) (conj eq_refl Hid)). cbn [mbind res_bind].
  destruct (Z.ltb_spec n 0); [lia|]. cbn [mbind res_bind raise_if].
  destruct (require_timestamp now "verified_at") as [t|] eqn:Et; [|done].
  apply require_timestamp_ok in Et as (-> & _). cbn [mbind res_bind raise_if opt_negative].
  destruct (Z.ltb_spec m 0); [lia|]. by destruct status.
Qed.

Lemma verify_inv sg st sid now :
  store_inv sg st -> is_Some (es_segments st !! sid) ->
  valid_id sid -> is_ok (require_timestamp now "verified_at") = true ->
  exists rep, verify_segment sg st sid now = Ok rep /\
    ip_status rep = (if (purged_of st sid =? 0)%Z then INTACT else SEALED_PURGED) /\
    ip_records_checked rep = Z.of_nat (length (segment_of st sid)) /\
    is_fully_acceptable rep = true.
Proof.
  intros Hinv [seg Hseg] Hid Hnow. unfold verify_segment. rewrite walk_outcomes_inv by done.
  cbn [mbind res_bind fst snd walk_status walk_first_broken]. rewrite Hseg.
  rewrite walk_complete by (by apply (inv_intents _ _ Hinv)). cbn [mbind res_bind fst snd].
  assert (segment_of st sid = seg) as -> by (unfold segment_of, get_or; by rewrite Hseg).
  destruct (inv_purged _ _ Hinv sid) as [_ Hp].
  destruct (Z.eqb_spec (purged_of st sid) 0) as [E|E]; cbn [negb andb].
  - rewrite mk_IntegrityReport_clean by (done || lia). eexists. done.
  - destruct (Hp E) as [Ha _]. rewrite (proj2 (is_some_true _) Ha).
    rewrite mk_IntegrityReport_clean by (done || lia). eexists. done.
Qed.
End invariant.

(** ** Theorems *)

Section theorems.
Context {S : Type} `{MacSignerLaws S}.

Definition reachable (sg : S) (st : EvidenceStore) : Prop :=
  exists sg0, rtc store_step (sg0, store_init) (sg, st).

Lemma reachable_store_inv sg st : reachable sg st -> store_inv sg st.
Proof. intros [sg0 Hrun]. by eapply reachable_inv. Qed.

(** C14.  Honest operation verifies: after any run of appends (that succeed or
    fail), outcomes, seals, purges and key rotations, in which nothing is
    appended to a segment whose records were all purged ([linkable]), every
    segment that exists verifies, the outcome chain too, with all live records
    checked; the report is [INTACT], or [SEALED_PURGED] once records were
    purged.  (An append to a fully purged segment breaks its chain:
    [append_after_full_purge_breaks_chain].) *)
Theorem honest_store_verifies sg st sid now :
  reachable sg st -> is_Some (es_segments st !! sid) ->
  valid_id sid -> is_ok (require_timestamp now "verified_at") = true ->
  exists rep, verify_segment sg st sid now = Ok rep /\
    ip_status rep = (if (purged_of st sid =? 0)%Z then INTACT else SEALED_PURGED) /\
    ip_records_checked rep = Z.of_nat (length (segment_of st sid)) /\
    is_fully_acceptable rep = true.
Proof. intros Hr%reachable_store_inv. by apply verify_inv. Qed.

(** *** Tampering *)

Definition same_evidence (r r' : IntentRecord) : Prop :=
  exists j j', normalise "$.record" (intent_as_evidence r) = Ok j /\
    normalise "$.record" (intent_as_evidence r') = Ok j' /\ sort_keys j = sort_keys j'.

Definition with_record (s : StoredRecord) (r : IntentRecord) : StoredRecord :=
  {| st_record := r; st_seq := st_seq s; st_prev_hash := st_prev_hash s;
     st_record_hmac := st_record_hmac s; st_signer_key_id := st_signer_key_id s |}.

Lemma chain_ok_split sg l seq prev s :
  chain_ok intent_chain_payload sg l seq prev -> s ∈ l ->
  exists l1 l2, l = l1 ++ s :: l2 /\ st_seq s = (seq + Z.of_nat (length l1))%Z /\
    st_prev_hash s = end_mac l1 prev /\ chain_ok intent_chain_payload sg l1 seq prev /\
    link_authentic intent_chain_payload sg s /\
    forall r, replace_at l (st_seq s) r = Some (l1 ++ with_record s r :: l2).
Proof.
  revert seq prev. induction l as [|x l IH]; intros seq prev; [by intros _ ?%not_elem_of_nil|].
  intros (Hs & Hp & Hx & Hl) [->|Hin]%elem_of_cons.
  - exists [], l. split_and!; try done; [cbn; lia|]. intros r. cbn [replace_at]. by rewrite Z.eqb_refl.
  - destruct (IH _ _ Hl Hin) as (l1 & l2 & -> & Hseq & Hprev & Hok & Hauth & Hrep).
    exists (x :: l1), l2. split_and!; try done.
    + cbn [length]. lia.
    + by rewrite end_mac_cons.
    + intros r. cbn [replace_at]. destruct (Z.eqb_spec (st_seq x) (st_seq s)); [lia|]. by rewrite Hrep.
Qed.

Lemma chain_bytes_total rec rec' seq prev p :
  floats_fine rec' -> chain_bytes rec seq prev = Ok p -> exists p', chain_bytes rec' seq prev = Ok p'.
Proof.
  intros (j & Hj & _). unfold chain_bytes.
  destruct (seq <? 0)%Z; [done|]. destruct (negb _); [done|]. cbn [raise_if mbind res_bind]. intros _.
  unfold canonical_bytes, canonical_json. pose proof (normalise_chain rec' seq prev j Hj) as Hn.
  unfold pdict, pairs_dict in *. rewrite Hn. cbn [mbind res_bind]. by eexists.
Qed.

(** The only way past verification: the payload of the forged record differs
    from that of the original, and the MAC kept with it authenticates both. *)
Definition undetected (sg : S) (s : StoredRecord) (r' : IntentRecord) : Prop :=
  exists p p', intent_chain_payload (st_record s) (st_seq s) (st_prev_hash s) = Ok p /\
    intent_chain_payload r' (st_seq s) (st_prev_hash s) = Ok p' /\
    forged_mac sg p p' (st_record_hmac s) (st_signer_key_id s).

Lemma forged_record_rejected sg s r' :
  link_authentic intent_chain_payload sg s ->
  floats_fine (intent_as_evidence (st_record s)) -> floats_fine (intent_as_evidence r') ->
  ~ same_evidence (st_record s) r' ->
  (exists p, intent_chain_payload r' (st_seq s) (st_prev_hash s) = Ok p /\
     signer_verify sg p (st_record_hmac s) (st_signer_key_id s) = Ok false) \/
  undetected sg s r'.
Proof.
  intros (p & Hp & Hv) Hf Hf' Hdiff.
  destruct (chain_bytes_total _ _ _ _ _ Hf' Hp) as [p' Hp'].
  destruct (verify_total _ _ _ _ _ Hv p') as [[] Hv']; [|left; by exists p'].
  destruct (decide (p = p')) as [<-|Hne]; [|by right; exists p, p'].
  destruct (chain_bytes_binds _ _ _ _ _ _ _ Hf Hf' Hp Hp') as (_ & _ & Hsame). done.
Qed.

Lemma mk_IntegrityReport_broken sid n now seq detail m :
  valid_id sid -> is_ok (require_timestamp now "verified_at") = true ->
  (0 <= n)%Z -> (0 <= seq)%Z -> (0 <= m)%Z ->
  exists rep, mk_IntegrityReport sid BROKEN n now (Some seq) detail INTACT m None = Ok rep /\
    ip_status rep = BROKEN /\ ip_first_broken_seq rep = Some seq /\ ip_records_checked rep = n.
Proof.
  intros Hid Hnow Hn Hs Hm. unfold mk_IntegrityReport.
  rewrite (proj2 (require_identifier_valid _ "segment_id" _) (conj eq_refl Hid)). cbn [mbind res_bind].
  destruct (Z.ltb_spec n 0); [lia|]. cbn [mbind res_bind raise_if].
  destruct (require_timestamp now "verified_at") as [t|] eqn:Et; [|done]. cbn [mbind res_bind opt_negative].
  destruct (Z.ltb_spec seq 0); [lia|]. destruct (Z.ltb_spec m 0); [lia|].
  cbn. eauto.
Qed.

(** C15.  Tampering is detected and localised: in any reachable store,
    overwriting a live record by one with different evidence, keeping
    everything else, makes verification report [BROKEN] at exactly that
    record's sequence number with all earlier records accepted, unless the
    stored MAC authenticates both the payload of the original and the
    different payload of the forgery. *)
Theorem tampering_is_localised sg st sid s r' now :
  reachable sg st -> s ∈ segment_of st sid ->
  floats_fine (intent_as_evidence (st_record s)) -> floats_fine (intent_as_evidence r') ->
  ~ same_evidence (st_record s) r' ->
  valid_id sid -> is_ok (require_timestamp now "verified_at") = true ->
  (exists st' rep, tamper_for_test st sid (st_seq s) r' = (Ok tt, st') /\
     verify_segment sg st' sid now = Ok rep /\ ip_status rep = BROKEN /\
     ip_first_broken_seq rep = Some (st_seq s) /\
     ip_records_checked rep = (st_seq s - purged_of st sid)%Z) \/ undetected sg s r'.
Proof.
  intros Hr%reachable_store_inv Hin Hf Hf' Hdiff Hid Hnow.
  pose proof (chain_of_segment sg st sid Hr) as Hch.
  destruct (chain_ok_split _ _ _ _ _ Hch Hin) as (l1 & l2 & Hl & Hseq & Hprev & Hok & Hauth & Hrep).
  destruct (forged_record_rejected _ _ _ Hauth Hf Hf' Hdiff) as [(p & Hp & Hv)|]; [left | by right].
  assert (es_segments st !! sid = Some (segment_of st sid)) as Hseg.
  { unfold segment_of, get_or in *. destruct (es_segments st !! sid); [done|].
    by apply not_elem_of_nil in Hin. }
  unfold tamper_for_test. rewrite Hseg, Hrep. eexists _. 
  pose proof (walk_stops_at intent_chain_payload sg l1 (with_record s r') l2 (purged_of st sid)
                (expected_anchor st sid) 0 Hok Hseq Hprev ltac:(by exists p)) as Hw.
  destruct (inv_purged _ _ Hr sid) as [Hp0 _].
  destruct (mk_IntegrityReport_broken sid (Z.of_nat (length l1)) now (st_seq s)
    "record MAC does not authenticate the stored fields"
    (Z.of_nat (length (get_or (es_outcome_chain st) sid [])))) as (rep & Hrp & Hst & Hfb & Hck); try done; try lia.
  exists rep. split; [reflexivity|]. split_and!; try done; [|rewrite Hck; lia].
  unfold verify_segment. cbn [es_segments].
  pose proof (walk_outcomes_inv sg st sid Hr) as Hout. unfold verify_outcome_chain in *.
  cbn [es_outcome_chain]. rewrite Hout. cbn [mbind res_bind fst snd]. rewrite lookup_insert_eq.
  unfold purged_of, expected_anchor, purged_of in Hw |- *. cbn [es_purged es_chain_anchor].
  rewrite Hw. cbn [mbind res_bind fst snd walk_status walk_first_broken walk_detail]. exact Hrp.
Qed.

(** *** Durability *)

Lemma receipt_eqb_refl rc : isfinite (rc_persisted_at rc) = true -> receipt_eqb rc rc = true.
Proof.
  intros Hf%isfinite_nan. unfold receipt_eqb. rewrite !String.eqb_refl, Z.eqb_refl, bool_decide_eq_true_2 by done.
  cbn. apply feq_spec. done.
Qed.

Lemma append_intent_receipt sg st r rc st' :
  append_intent sg st r = (Ok rc, st') -> es_receipts st' !! ir_decision_id r = Some rc.
Proof.
  unfold append_intent. destruct (es_receipts st !! ir_decision_id r) eqn:E; [by intros [= -> <-]|].
  destruct (_ ≫= _); [|done]. destruct (mk_EvidenceReceipt _ _ _ _ _ _); [|done].
  intros [= <- <-]. cbn. apply lookup_insert_eq.
Qed.

(** A receipt proves durability: when [append_intent] returns one, the
    store holds a live record of that decision with the receipt's sequence
    number, MAC and key, [has_receipt] recognises it, and appending the same
    decision again (with any content, under any signer) returns that same
    receipt and writes nothing. *)
Theorem receipt_is_durable sg st r rc st' :
  reachable sg st -> linkable st (ir_segment_id r) -> append_intent sg st r = (Ok rc, st') ->
  rc_decision_id rc = ir_decision_id r /\ has_receipt st' rc = true /\
  (exists s, s ∈ segment_of st' (rc_segment_id rc) /\ ir_decision_id (st_record s) = ir_decision_id r /\
     st_seq s = rc_seq rc /\ st_record_hmac s = rc_record_hmac rc /\
     st_signer_key_id s = rc_signer_key_id rc) /\
  (forall sg' r', ir_decision_id r' = ir_decision_id r -> append_intent sg' st' r' = (Ok rc, st')).
Proof.
  intros Hr%reachable_store_inv Hl Ha. pose proof (append_intent_receipt _ _ _ _ _ Ha) as Hrc.
  pose proof (append_intent_inv _ _ _ _ _ Hr Hl Ha) as Hinv.
  destruct (inv_receipts _ _ Hinv _ _ Hrc) as (Hd & Hf & s & Hs).
  split_and!; [done | | by exists s |].
  - unfold has_receipt. rewrite Hd, Hrc. by apply receipt_eqb_refl.
  - intros sg' r' Heq. unfold append_intent. by rewrite Heq, Hrc.
Qed.

(** *** Purging *)

(** Nothing is purged without an anchor: [purge_before] raises and
    changes nothing unless an anchor is recorded whose last sequence number
    is exactly the one before the boundary; when it purges, exactly the
    records below the boundary go, from the front, and the segment still
    verifies afterwards. *)
Theorem purge_needs_anchor sg st sid b res st' now :
  reachable sg st -> valid_id sid -> is_ok (require_timestamp now "verified_at") = true ->
  purge_before st sid b = (res, st') ->
  ((forall a, anchor_for st sid = Some a -> wa_last_seq a <> (b - 1)%Z) ->
     res = Raise EvidenceWriteError /\ st' = st) /\
  (forall a, anchor_for st sid = Some a -> wa_last_seq a = (b - 1)%Z ->
     exists k, res = Ok (Z.of_nat k) /\ segment_of st' sid = drop k (segment_of st sid) /\
       Forall (fun s => (st_seq s < b)%Z) (take k (segment_of st sid)) /\
       (is_Some (es_segments st !! sid) ->
        exists rep, verify_segment sg st' sid now = Ok rep /\ is_fully_acceptable rep = true)).
Proof.
  intros Hreach%reachable_store_inv Hid Hnow Hp. pose proof (purge_before_inv _ _ _ _ _ _ Hreach Hp) as Hinv.
  unfold purge_before, anchor_for in *. destruct (es_worm_anchors st !! sid) as [[a loc]|]; cbn; [|].
  2: { injection Hp as <- <-. split; [done|]. by intros a. }
  destruct (Z.eqb_spec (wa_last_seq a) (b - 1)) as [Heq|Hne]; cbn [negb] in Hp.
  2: { injection Hp as <- <-. split; [done|]. intros a' [= <-]. done. }
  split; [intros Hall; by destruct (Hall a eq_refl)|]. intros a' [= <-] _.
  destruct (seal_and_purge st sid b) as [n st1] eqn:Es. injection Hp as <- <-.
  assert (Hver : is_Some (es_segments st1 !! sid) ->
    exists rep, verify_segment sg st1 sid now = Ok rep /\ is_fully_acceptable rep = true).
  { intros Hs. destruct (verify_inv sg st1 sid now Hinv Hs Hid Hnow) as (rep & ? & _ & _ & ?). eauto. }
  destruct (seal_and_purge_cases _ _ _ _ _ Es)
    as [[-> ->]|(j & s & -> & Hs & HF & Hseg & _)].
  - exists 0%nat. rewrite drop_0, take_0. split_and!; try done.
  - exists (Datatypes.S j). split_and!; try done.
    + unfold segment_of at 1, get_or. by rewrite Hseg, lookup_insert_eq.
    + intros _. apply Hver. rewrite Hseg, lookup_insert_eq. by eexists.
Qed.
End theorems.

(** ** Concrete runs *)

Definition sample_signer : LocalMacSigner := local_signer_init "k1" (repeat x07 32) ∅.
Definition sample_segment : string := "t1.19700101".

Definition store_of {A} (p : A * EvidenceStore) : EvidenceStore := p.2.
Definition sample_store : EvidenceStore :=
  store_of (append_intent sample_signer store_init (sample_intent "d1")).

Lemma sample_store_reachable : reachable sample_signer sample_store.
Proof.
  exists sample_signer. apply rtc_once. eapply (step_append_intent _ _ (sample_intent "d1")).
  - right. vm_compute. reflexivity.
  - apply surjective_pairing.
Qed.

Lemma sample_segment_id : valid_id sample_segment.
Proof. split; vm_compute; [reflexivity | lia]. Qed.

Lemma honest_store_verifies_witness :
  exists rep, verify_segment sample_signer sample_store sample_segment (fz 30) = Ok rep /\
    ip_status rep = INTACT /\ ip_records_checked rep = 1%Z /\ is_fully_acceptable rep = true.
Proof.
  apply (honest_store_verifies sample_signer sample_store sample_segment (fz 30)
           sample_store_reachable); [eexists; vm_compute; reflexivity | apply sample_segment_id |
           vm_compute; reflexivity].
Defined.

Lemma same_evidence_decision r r' : same_evidence r r' -> ir_decision_id r = ir_decision_id r'.
Proof.
  intros (j & j' & Hj & Hj' & Hs).
  eapply canonical_str_field; [| exact Hj | exact Hj' | exact Hs | |]; [literal_keys | by repeat constructor ..].
Qed.

Definition sample_stored : StoredRecord :=
  {| st_record := sample_intent "d1"; st_seq := 0; st_prev_hash := GENESIS_PREV_HASH;
     st_record_hmac := match local_mac sample_signer sample_payload with Ok m => m | Raise _ => [] end;
     st_signer_key_id := "k1" |}.

Lemma sample_stored_in : sample_stored ∈ segment_of sample_store sample_segment.
Proof.
  assert (segment_of sample_store sample_segment = [sample_stored]) as -> by (vm_compute; reflexivity).
  left.
Qed.

Definition json_of (r : IntentRecord) : json :=
  match normalise "$.record" (intent_as_evidence r) with Ok j => j | Raise _ => JNull end.

Lemma sample_floats_fine d :
  normalise "$.record" (intent_as_evidence (sample_intent d)) = Ok (json_of (sample_intent d)) ->
  floats_ok (json_of (sample_intent d)) = true -> floats_fine (intent_as_evidence (sample_intent d)).
Proof. intros H1 H2. exists (json_of (sample_intent d)). split; [exact H1 | exact H2]. Qed.

Lemma tampering_is_localised_witness :
  (exists st' rep, tamper_for_test sample_store sample_segment 0 (sample_intent "d2") = (Ok tt, st') /\
     verify_segment sample_signer st' sample_segment (fz 30) = Ok rep /\ ip_status rep = BROKEN /\
     ip_first_broken_seq rep = Some 0%Z /\ ip_records_checked rep = 0%Z) \/
  undetected sample_signer sample_stored (sample_intent "d2").
Proof.
  apply (tampering_is_localised sample_signer sample_store sample_segment sample_stored
           (sample_intent "d2") (fz 30) sample_store_reachable sample_stored_in).
  - apply sample_floats_fine; vm_compute; reflexivity.
  - apply sample_floats_fine; vm_compute; reflexivity.
  - intros Hs%same_evidence_decision. discriminate Hs.
  - apply sample_segment_id.
  - vm_compute. reflexivity.
Defined.

Definition sample_receipt : EvidenceReceipt :=
  {| rc_decision_id := "d1"; rc_segment_id := sample_segment; rc_seq := 0;
     rc_record_hmac := st_record_hmac sample_stored; rc_signer_key_id := "k1"; rc_persisted_at := fz 20 |}.

Lemma receipt_is_durable_witness :
  has_receipt sample_store sample_receipt = true /\
  append_intent sample_signer sample_store (sample_intent "d1") = (Ok sample_receipt, sample_store).
Proof.
  assert (Hreach : reachable sample_signer store_init) by (exists sample_signer; apply rtc_refl).
  assert (Ha : append_intent sample_signer store_init (sample_intent "d1") = (Ok sample_receipt, sample_store))
    by (vm_compute; reflexivity).
  destruct (receipt_is_durable sample_signer store_init (sample_intent "d1") sample_receipt sample_store
              Hreach) as (_ & Hh & _ & Hidem); [right; vm_compute; reflexivity | exact Ha |].
  split; [exact Hh | apply Hidem; reflexivity].
Defined.

Definition sample_anchor : WormAnchor :=
  {| wa_anchor_id := "a1"; wa_segment_id := sample_segment; wa_tenant_id := "t1";
     wa_merkle_root := merkle_root [st_record_hmac sample_stored]; wa_tree_size := 1; wa_first_seq := 0;
     wa_last_seq := 0; wa_sealed_at := fz 40; wa_root_signature := repeat x01 32; wa_signer_key_id := "k1" |}.

Definition sample_sealed : EvidenceStore := store_of (mark_sealed sample_store sample_segment sample_anchor "loc").
Definition sample_purged : EvidenceStore := store_of (purge_before sample_sealed sample_segment 1).

Lemma sample_sealed_reachable : reachable sample_signer sample_sealed.
Proof.
  destruct sample_store_reachable as [sg0 Hrun]. exists sg0. eapply rtc_r; [exact Hrun|].
  eapply (step_mark_sealed _ _ sample_segment sample_anchor "loc"). apply surjective_pairing.
Qed.

Lemma purge_needs_anchor_witness :
  exists k, (purge_before sample_sealed sample_segment 1).1 = Ok (Z.of_nat k) /\
    segment_of sample_purged sample_segment = drop k (segment_of sample_sealed sample_segment) /\
    Forall (fun s => (st_seq s < 1)%Z) (take k (segment_of sample_sealed sample_segment)).
Proof.
  destruct (purge_needs_anchor sample_signer sample_sealed sample_segment 1 _ _ (fz 50)
    sample_sealed_reachable sample_segment_id ltac:(vm_compute; reflexivity)
    (surjective_pairing (purge_before sample_sealed sample_segment 1))) as [_ Hp].
  destruct (Hp sample_anchor) as (k & Hk & Hseg & HF & _); [vm_compute; reflexivity | reflexivity |].
  exists k. split; [exact Hk | split; [exact Hseg | exact HF]].
Defined.

(** A segment all of whose records were purged under a valid anchor verifies as
    [SEALED_PURGED]; but the next intent appended to it is linked to
    [GENESIS_PREV_HASH] instead of the retained chain anchor, and from then on
    the segment verifies as [BROKEN] although nobody tampered with it. *)
Definition sample_reopened : EvidenceStore :=
  store_of (append_intent sample_signer sample_purged (sample_intent "d2")).

Definition report_of (r : res IntegrityReport) : option (IntegrityStatus * option Z * string) :=
  match r with Ok rep => Some (ip_status rep, ip_first_broken_seq rep, ip_detail rep) | Raise _ => None end.

Example append_after_full_purge_breaks_chain :
  report_of (verify_segment sample_signer sample_purged sample_segment (fz 60)) =
    Some (SEALED_PURGED, None, "1 record(s) purged under retention; sealed root retained") /\
  is_ok (append_intent sample_signer sample_purged (sample_intent "d2")).1 = true /\
  report_of (verify_segment sample_signer sample_reopened sample_segment (fz 60)) =
    Some (BROKEN, Some 1%Z, "chain link does not match the previous record").
Proof. split_and!; vm_compute; reflexivity. Qed.
