(* ===== verification/PgEvidence.v ===== *)
(** * The Postgres evidence store
      ([glassbox/adapters/outbound/postgres/evidence.py], [driver.py], and the
       tables of [schema.py])

    The three tables as their rows.  A method is one transaction: it commits
    and returns, or raises and leaves the tables as they were, and the
    connection may be lost before or after its commit.  The segment row is
    locked for update by the methods that write to a segment, so transactions
    on one segment are serial.

    What a column gives back for a value written to it is a parameter: the
    document of a [JSONB] column, the float of a [NUMERIC] one, the instant of
    a timestamp.  [bypassrls] says whether the role of the connection is exempt
    from row-level security. *)

From stdpp Require Import base tactics list strings gmap sorting relations.
From Stdlib Require Import ZArith Lia Init.Byte Floats.SpecFloat.
From S2P Require Import Prelude PyFloat PyStr Serialization Sha256 Merkle Signing Action Identity Limits Risk Decision Config Evidence EvidenceStore.

Open Scope string_scope.
Open Scope list_scope.

Class PgColumns := {
  jsonb : json -> option json;
  numeric : float -> float;
  to_timestamp : float -> option Z
}.

(** ** Tables *)

(** The [retention_] columns, which one statement sets together. *)
Record retention_columns := {
  rt_sealed_at : Z;
  rt_sealed_first_seq : Z;
  rt_sealed_last_seq : Z;
  rt_merkle_root : bytes;
  rt_seal_signature : bytes;
  rt_worm_anchor_id : string;
  rt_worm_locator : string;
  rt_last_leaf_hmac : option bytes
}.

Record segment_row := {
  sr_tenant_id : string;
  sr_opened_at : Z;
  sr_first_seq : Z;
  sr_last_seq : Z;
  sr_last_hash : bytes;
  sr_purged_before_seq : Z;
  sr_sealed_at : option Z;
  sr_merkle_root : option bytes;
  sr_worm_anchor_id : option string;
  sr_retention : option retention_columns;
  sr_outcome_last_seq : Z;
  sr_outcome_last_hash : bytes
}.

(** The columns of [evidence_intent] beside those of the chain. *)
Record intent_columns := {
  ic_decision_id : string;
  ic_tenant_id : string;
  ic_created_at : Z;
  ic_agent_ref : string;
  ic_agent_instance_id : string;
  ic_delegating_subject : option string;
  ic_credential_type : string;
  ic_credential_id : string;
  ic_action : string;
  ic_resource_kind : string;
  ic_resource_id : string;
  ic_consequence_class : string;
  ic_idempotency_key : string;
  ic_policy_bundle_id : option string;
  ic_policy_bundle_sha256 : option string;
  ic_decision_effect : string;
  ic_risk_model_ver : string;
  ic_risk_score : float;
  ic_risk_level : string;
  ic_trace_id : string;
  ic_causation_id : option string;
  ic_record : json
}.

Record intent_row := { in_segment_id : string; in_stored : Stored intent_columns }.

(** Rows written before the outcome chain existed have no chain columns and
    are not modelled. *)
Record outcome_row := {
  oc_decision_id : string;
  oc_status : string;
  oc_completed_at : Z;
  oc_result_digest : option string;
  oc_error_class : option string;
  oc_segment_id : string;
  oc_stored : Stored json
}.

Record Db := {
  db_segments : gmap string segment_row;
  db_intents : list intent_row;
  db_outcomes : list outcome_row
}.

Definition db_init : Db := {| db_segments := ∅; db_intents := []; db_outcomes := [] |}.

Definition with_segment (db : Db) (segment_id : string) (s : segment_row) : Db :=
  {| db_segments := <[segment_id := s]> (db_segments db); db_intents := db_intents db;
     db_outcomes := db_outcomes db |}.

Definition with_intents (db : Db) (l : list intent_row) : Db :=
  {| db_segments := db_segments db; db_intents := l; db_outcomes := db_outcomes db |}.

Definition with_outcomes (db : Db) (l : list outcome_row) : Db :=
  {| db_segments := db_segments db; db_intents := db_intents db; db_outcomes := l |}.

(** [evidence_segment_seq_order] and [evidence_segment_purge_bound]. *)
Definition segment_checks (s : segment_row) : bool :=
  (sr_first_seq s - 1 <=? sr_last_seq s)%Z && (sr_first_seq s <=? sr_purged_before_seq s)%Z.

(** ** Transactions ([PsycopgConnectionProvider.transaction])

    A connection lost before the commit undoes the transaction; one lost after
    it does not, though the caller sees the same error.  Whatever a block
    raises arrives as an [EvidenceWriteError]. *)
Inductive fault := NoFault | BeforeCommit | AfterCommit.

Definition transaction {A} (f : fault) (body : res (A * Db)) (db : Db) : res A * Db :=
  match f, body with
  | BeforeCommit, _ | _, Raise _ => (Raise EvidenceWriteError, db)
  | AfterCommit, Ok (_, db') => (Raise EvidenceWriteError, db')
  | NoFault, Ok (a, db') => (Ok a, db')
  end.

(** A transaction that only reads. *)
Definition reading {A} (f : fault) (e : exn) (a : A) : res A :=
  match f with NoFault => Ok a | _ => Raise e end.

(** [.timestamp()] of a timestamp column. *)
Definition as_epoch (microseconds : Z) : float := fdiv (fz microseconds) (fz 1000000).

(** What [json.loads] gives for a document. *)
Fixpoint of_json (j : json) : pyval :=
  match j with
  | JNull => PNone
  | JBool b => PBool b
  | JInt z => PInt z
  | JFloat x => PFloat x
  | JStr s => PStr s
  | JArr l => PList (map of_json l)
  | JObj items => PDict (map (fun kv => (PStr kv.1, of_json kv.2)) items)
  end.

(** The bytes verification recomputes from a stored row. *)
Definition row_payload (record : json) (seq : Z) (prev_hash : bytes) : res bytes :=
  canonical_bytes (pdict [("seq", PInt seq); ("prev_hash", PStr (bytes_hex prev_hash));
                          ("record", of_json record)]).

(** The driver gives a document that is an object as a dict. *)
Definition as_mapping (record : json) : res (list (string * json)) :=
  match record with JObj items => Ok items | _ => Raise EvidenceIntegrityError end.

(** [record.get(key, {})] of a field read as a mapping. *)
Definition get_mapping (record : list (string * json)) (key : string) : res (list (string * json)) :=
  match dict_get record key with
  | None => Ok []
  | Some (JObj items) => Ok items
  | Some _ => Raise (PyException "AttributeError")
  end.

(** [float(signed)]. *)
Definition float_of_json (j : json) : res float :=
  match j with
  | JFloat x => Ok x
  | JInt z => float_of_int z
  | JBool b => Ok (if b then fz 1 else fz 0)
  | JStr s => match float_of_text s with Some x => Ok x | None => Raise PyValueError end
  | _ => Raise PyTypeError
  end.

(** One of the checks of a text column; [None] and [null] are not compared. *)
Definition text_agrees (stored : string) (signed : option json) : bool :=
  match signed with
  | None | Some JNull => true
  | Some (JStr s) => (stored =? s)%string
  | Some _ => false
  end.

Definition float_agrees (stored : float) (signed : option json) : res bool :=
  match signed with
  | None | Some JNull => Ok true
  | Some j => x ← float_of_json j; Ok (feq stored x)
  end.

Definition column_mismatch (c : intent_columns) (record : list (string * json)) : res string :=
  action ← get_mapping record "action";
  risk ← get_mapping record "risk";
  if negb (text_agrees (ic_decision_id c) (dict_get record "decision_id")) then Ok "decision_id"
  else if negb (text_agrees (ic_tenant_id c) (dict_get record "tenant_id")) then Ok "tenant_id"
  else if negb (text_agrees (ic_action c) (dict_get action "action")) then Ok "action"
  else if negb (text_agrees (ic_consequence_class c) (dict_get action "consequence_class"))
  then Ok "consequence_class"
  else
    match float_agrees (ic_risk_score c) (dict_get risk "risk_score") with
    | Ok true => Ok ""
    | Ok false => Ok "risk_score"
    | Raise e => Raise e
    end.

(** ** The store *)

Section store.
Context `{PgColumns} {S : Type} `{MacSigner S}.
Context (bypassrls : bool).

(** [evidence_intent_tenant_isolation], for the tenant a transaction set. *)
Definition visible (tenant : option string) (r : intent_row) : bool :=
  bypassrls || bool_decide (tenant = Some (ic_tenant_id (st_record (in_stored r)))).

Definition rows_of (tenant : option string) (db : Db) (segment_id : string) : list (Stored intent_columns) :=
  map in_stored (List.filter (fun r => visible tenant r && (in_segment_id r =? segment_id)%string) (db_intents db)).

(** [ORDER BY seq ASC]. *)
Definition select_chain (tenant : option string) (db : Db) (segment_id : string) : list (Stored intent_columns) :=
  sort_seq (rows_of tenant db segment_id).

(** [_SELECT_RECEIPT_BY_DECISION]. *)
Definition select_by_decision (tenant : option string) (db : Db) (decision_id : string) : option intent_row :=
  List.find (fun r => visible tenant r && (ic_decision_id (st_record (in_stored r)) =? decision_id)%string)
    (db_intents db).

Definition receipt_from_row (r : intent_row) : res EvidenceReceipt :=
  mk_EvidenceReceipt (ic_decision_id (st_record (in_stored r))) (in_segment_id r) (st_seq (in_stored r))
    (st_record_hmac (in_stored r)) (st_signer_key_id (in_stored r))
    (as_epoch (ic_created_at (st_record (in_stored r)))).

(** [_INSERT_SEGMENT]. *)
Definition new_segment (tenant_id : string) (db_now : Z) : segment_row :=
  {| sr_tenant_id := tenant_id; sr_opened_at := db_now; sr_first_seq := 0; sr_last_seq := -1;
     sr_last_hash := GENESIS_PREV_HASH; sr_purged_before_seq := 0; sr_sealed_at := None;
     sr_merkle_root := None; sr_worm_anchor_id := None; sr_retention := None;
     sr_outcome_last_seq := -1; sr_outcome_last_hash := GENESIS_PREV_HASH |}.

Definition segment_or_new (db : Db) (segment_id tenant_id : string) (db_now : Z) : segment_row :=
  match db_segments db !! segment_id with Some s => s | None => new_segment tenant_id db_now end.

Definition advance_segment (s : segment_row) (seq : Z) (mac : bytes) : segment_row :=
  {| sr_tenant_id := sr_tenant_id s; sr_opened_at := sr_opened_at s; sr_first_seq := sr_first_seq s;
     sr_last_seq := seq; sr_last_hash := mac; sr_purged_before_seq := sr_purged_before_seq s;
     sr_sealed_at := sr_sealed_at s; sr_merkle_root := sr_merkle_root s;
     sr_worm_anchor_id := sr_worm_anchor_id s; sr_retention := sr_retention s;
     sr_outcome_last_seq := sr_outcome_last_seq s; sr_outcome_last_hash := sr_outcome_last_hash s |}.

Definition advance_outcome_chain (s : segment_row) (seq : Z) (mac : bytes) : segment_row :=
  {| sr_tenant_id := sr_tenant_id s; sr_opened_at := sr_opened_at s; sr_first_seq := sr_first_seq s;
     sr_last_seq := sr_last_seq s; sr_last_hash := sr_last_hash s;
     sr_purged_before_seq := sr_purged_before_seq s;
     sr_sealed_at := sr_sealed_at s; sr_merkle_root := sr_merkle_root s;
     sr_worm_anchor_id := sr_worm_anchor_id s; sr_retention := sr_retention s;
     sr_outcome_last_seq := seq; sr_outcome_last_hash := mac |}.

(** The document [json.dumps] writes for a record's evidence, which holds only
    strings, numbers, [None], lists and dicts with string keys, and what the
    column gives back. *)
Definition stored_document (evidence : pyval) : res json :=
  j ← normalise "$.record" evidence;
  match jsonb j with Some j' => Ok j' | None => Raise (PyException "DataError") end.

Definition timestamp_column (x : float) : res Z :=
  match to_timestamp x with Some t => Ok t | None => Raise (PyException "DataError") end.

(** [_insert_parameters]. *)
Definition insert_parameters (r : IntentRecord) : res intent_columns :=
  created ← timestamp_column (ir_created_at r);
  doc ← stored_document (intent_as_evidence r);
  Ok {| ic_decision_id := ir_decision_id r; ic_tenant_id := ir_tenant_id r; ic_created_at := created;
        ic_agent_ref := vp_agent_ref (ir_principal r);
        ic_agent_instance_id := vp_agent_instance_id (ir_principal r);
        ic_delegating_subject := vp_delegating_subject (ir_principal r);
        ic_credential_type := credential_type_value (vp_credential_type (ir_principal r));
        ic_credential_id := vp_credential_id (ir_principal r);
        ic_action := pa_action (ir_action r); ic_resource_kind := rr_kind (pa_resource (ir_action r));
        ic_resource_id := rr_id (pa_resource (ir_action r));
        ic_consequence_class := consequence_value (pa_consequence (ir_action r));
        ic_idempotency_key := pa_idempotency_key (ir_action r);
        ic_policy_bundle_id := ad_policy_bundle_id (ir_decision r);
        ic_policy_bundle_sha256 := ad_policy_bundle_sha256 (ir_decision r);
        ic_decision_effect := effect_value (ad_effect (ir_decision r));
        ic_risk_model_ver := rs_model_version (ir_risk r);
        ic_risk_score := numeric (rs_value (ir_risk r));
        ic_risk_level := risk_level_value (score_level (ir_risk r));
        ic_trace_id := ir_trace_id r; ic_causation_id := ir_causation_id r; ic_record := doc |}.

(** The constraints of [evidence_intent] on a new row: the widths, the primary
    key and the unique index. *)
Definition intent_constraints (db : Db) (r : intent_row) : bool :=
  let s := in_stored r in
  (0 <=? st_seq s)%Z && (length (st_prev_hash s) =? 32)%nat && (32 <=? length (st_record_hmac s))%nat &&
  negb (existsb (fun x =>
      ((in_segment_id x =? in_segment_id r)%string && (st_seq (in_stored x) =? st_seq s)%Z ||
       (ic_decision_id (st_record (in_stored x)) =? ic_decision_id (st_record s))%string) &&
      (ic_created_at (st_record (in_stored x)) =? ic_created_at (st_record s))%Z) (db_intents db)).

(** The transaction of [append_intent]; the tenant of the record is set first. *)
Definition append_intent_body (signer : S) (db : Db) (db_now : Z) (record : IntentRecord)
    : res (EvidenceReceipt * Db) :=
  let sid := ir_segment_id record in
  let segment := segment_or_new db sid (ir_tenant_id record) db_now in
  let db1 := with_segment db sid segment in
  _ ← raise_if (is_some (sr_sealed_at segment)) EvidenceWriteError;
  match select_by_decision (Some (ir_tenant_id record)) db1 (ir_decision_id record) with
  | Some existing => receipt ← receipt_from_row existing; Ok (receipt, db1)
  | None =>
      let seq := (sr_last_seq segment + 1)%Z in
      payload ← intent_chain_payload record seq (sr_last_hash segment);
      mac ← sign signer payload;
      let key_id := signer_key_id signer in
      columns ← insert_parameters record;
      let row := {| in_segment_id := sid;
                    in_stored := {| st_record := columns; st_seq := seq;
                                    st_prev_hash := sr_last_hash segment; st_record_hmac := mac;
                                    st_signer_key_id := key_id |} |} in
      _ ← raise_if (negb (intent_constraints db1 row)) (PyException "IntegrityError");
      receipt ← mk_EvidenceReceipt (ir_decision_id record) sid seq mac key_id (ir_created_at record);
      Ok (receipt, with_segment (with_intents db1 (db_intents db1 ++ [row])) sid
                     (advance_segment segment seq mac))
  end.

Definition pg_append_intent (f : fault) (signer : S) (db : Db) (db_now : Z) (record : IntentRecord)
    : res EvidenceReceipt * Db :=
  transaction f (append_intent_body signer db db_now record) db.

(** [ON CONFLICT (decision_id, completed_at) DO NOTHING]. *)
Definition outcome_recorded (db : Db) (decision_id : string) (completed_at : Z) : bool :=
  existsb (fun o => (oc_decision_id o =? decision_id)%string && (oc_completed_at o =? completed_at)%Z)
    (db_outcomes db).

(** The transaction of [append_outcome], which sets no tenant. *)
Definition append_outcome_body (signer : S) (db : Db) (receipt : EvidenceReceipt) (record : OutcomeRecord)
    : res (unit * Db) :=
  match select_by_decision None db (rc_decision_id receipt), db_segments db !! rc_segment_id receipt with
  | None, _ | Some _, None => Raise EvidenceWriteError
  | Some _, Some segment =>
      let seq := (sr_outcome_last_seq segment + 1)%Z in
      let last_hash := sr_outcome_last_hash segment in
      payload ← outcome_chain_payload record seq last_hash;
      mac ← sign signer payload;
      let outcome := or_outcome record in
      completed_at ← timestamp_column (eo_completed_at outcome);
      doc ← stored_document (outcome_record_as_evidence record);
      _ ← raise_if (negb ((length last_hash =? 32)%nat && (32 <=? length mac)%nat)) (PyException "IntegrityError");
      if outcome_recorded db (or_decision_id record) completed_at then Ok (tt, db)
      else
        let row := {| oc_decision_id := or_decision_id record;
                      oc_status := execution_status_value (eo_status outcome);
                      oc_completed_at := completed_at; oc_result_digest := eo_result_digest outcome;
                      oc_error_class := eo_error_class outcome; oc_segment_id := rc_segment_id receipt;
                      oc_stored := {| st_record := doc; st_seq := seq; st_prev_hash := last_hash;
                                      st_record_hmac := mac; st_signer_key_id := signer_key_id signer |} |} in
        Ok (tt, with_segment (with_outcomes db (db_outcomes db ++ [row])) (rc_segment_id receipt)
                  (advance_outcome_chain segment seq mac))
  end.

Definition pg_append_outcome (f : fault) (signer : S) (db : Db) (receipt : EvidenceReceipt)
    (record : OutcomeRecord) : res unit * Db :=
  if negb (rc_decision_id receipt =? or_decision_id record)%string then (Raise PyValueError, db)
  else transaction f (append_outcome_body signer db receipt record) db.

(** ** Verification *)

(** The loop of [_verify_rows]. *)
Fixpoint verify_rows (verify_columns : bool) (signer : S) (rows : list (Stored intent_columns))
    (expected_seq : Z) (expected_prev : option bytes) (checked : Z) : res (walk_end * Z) :=
  match rows with
  | [] => Ok (WalkDone, checked)
  | row :: rest =>
      record ← as_mapping (ic_record (st_record row));
      if negb (st_seq row =? expected_seq)%Z
      then Ok (WalkBroken (st_seq row) ("sequence discontinuity: expected " +:+ str_of_int expected_seq), checked)
      else if match expected_prev with Some p => negb (bool_decide (st_prev_hash row = p)) | None => false end
      then Ok (WalkBroken (st_seq row) "chain link does not match the previous record", checked)
      else
        mismatch ← if verify_columns then column_mismatch (st_record row) record else Ok "";
        if negb (str_is_empty mismatch)
        then Ok (WalkBroken (st_seq row) ("indexed column disagrees with the signed record: " +:+ mismatch), checked)
        else
          payload ← row_payload (ic_record (st_record row)) (st_seq row) (st_prev_hash row);
          match signer_verify signer payload (st_record_hmac row) (st_signer_key_id row) with
          | Raise SigningUnavailableError =>
              Ok (WalkUnverifiable ("signing key " +:+ str_repr (st_signer_key_id row) +:+ " is unavailable"), checked)
          | Raise e => Raise e
          | Ok false =>
              Ok (WalkBroken (st_seq row) "record MAC does not authenticate the stored fields", checked)
          | Ok true =>
              verify_rows verify_columns signer rest (expected_seq + 1) (Some (st_record_hmac row)) (checked + 1)
          end
  end.

Definition outcome_rows (db : Db) (segment_id : string) : list (Stored json) :=
  sort_seq (map oc_stored (List.filter (fun o => (oc_segment_id o =? segment_id)%string) (db_outcomes db))).

(** [_verify_outcome_chain]. *)
Definition pg_verify_outcome_chain (signer : S) (db : Db) (segment_id : string) : res (walk_end * Z) :=
  walk row_payload signer (outcome_rows db segment_id) 0 GENESIS_PREV_HASH 0.

Definition sealed_by_either (s : segment_row) : bool := is_some (sr_sealed_at s) || is_some (sr_retention s).

(** The chain-link anchor: of [seal_and_purge] when it was used, else of the
    retention path. *)
Definition sealed_anchor (s : segment_row) : option bytes :=
  match sr_merkle_root s with
  | Some root => Some root
  | None => rt ← sr_retention s; rt_last_leaf_hmac rt
  end.

Definition expected_link (s : segment_row) : option bytes :=
  if (sr_purged_before_seq s =? 0)%Z then Some GENESIS_PREV_HASH else sealed_anchor s.

Definition pg_verify (f : fault) (verify_columns : bool) (signer : S) (db : Db) (segment_id : string)
    (now : float) : res IntegrityReport :=
  state ← reading f EvidenceIntegrityError (db_segments db !! segment_id);
  match state with
  | None => mk_IntegrityReport segment_id UNVERIFIABLE 0 now None "segment not found" INTACT 0 None
  | Some s =>
      outcome ← pg_verify_outcome_chain signer db segment_id;
      let report status checked first detail :=
        mk_IntegrityReport segment_id status checked now first detail
          (walk_status outcome.1) outcome.2 (walk_first_broken outcome.1) in
      let purged := sr_purged_before_seq s in
      w ← verify_rows verify_columns signer (select_chain None db segment_id) purged (expected_link s) 0;
      match w.1 with
      | WalkDone =>
          if (0 <? purged)%Z && sealed_by_either s
          then report SEALED_PURGED w.2 None
                 (str_of_int purged +:+ " record(s) purged under retention; sealed root " +:+
                  (if is_some (sr_worm_anchor_id s) || is_some (sr_retention s)
                   then "anchored" else "not yet anchored"))
          else if (0 <? purged)%Z
          then report UNVERIFIABLE w.2 None (str_of_int purged +:+ " record(s) purged from an unsealed segment")
          else report INTACT w.2 None ""
      | e => report (walk_status e) w.2 (walk_first_broken e) (walk_detail e)
      end
  end.

(** ** Retention *)

(** Rows a [DELETE ... WHERE segment_id = %s AND seq < %s] without a tenant
    removes. *)
Definition purgeable (segment_id : string) (before_seq : Z) (r : intent_row) : bool :=
  visible None r && (in_segment_id r =? segment_id)%string && (st_seq (in_stored r) <? before_seq)%Z.

Definition delete_purged (db : Db) (segment_id : string) (before_seq : Z) : Z * Db :=
  let gone := List.filter (purgeable segment_id before_seq) (db_intents db) in
  (Z.of_nat (length gone),
   with_intents db (List.filter (fun r => negb (purgeable segment_id before_seq r)) (db_intents db))).

(** [_SELECT_ANCHOR_BEFORE]: the MAC of the last record below [before_seq]. *)
Definition anchor_before (db : Db) (segment_id : string) (before_seq : Z) : option bytes :=
  st_record_hmac <$> last (List.filter (fun r => (st_seq r <? before_seq)%Z) (select_chain None db segment_id)).

(** [_SEAL_SEGMENT]. *)
Definition seal_segment (s : segment_row) (before_seq : Z) (anchor : bytes) (db_now : Z) : segment_row :=
  {| sr_tenant_id := sr_tenant_id s; sr_opened_at := sr_opened_at s; sr_first_seq := before_seq;
     sr_last_seq := sr_last_seq s; sr_last_hash := sr_last_hash s; sr_purged_before_seq := before_seq;
     sr_sealed_at := Some (default db_now (sr_sealed_at s)); sr_merkle_root := Some anchor;
     sr_worm_anchor_id := sr_worm_anchor_id s; sr_retention := sr_retention s;
     sr_outcome_last_seq := sr_outcome_last_seq s; sr_outcome_last_hash := sr_outcome_last_hash s |}.

Definition seal_and_purge_body (db : Db) (db_now : Z) (segment_id : string) (before_seq : Z) : res (Z * Db) :=
  match db_segments db !! segment_id, anchor_before db segment_id before_seq with
  | None, _ | Some _, None => Ok (0%Z, db)
  | Some s, Some anchor =>
      let s' := seal_segment s before_seq anchor db_now in
      let '(n, db') := delete_purged db segment_id before_seq in
      _ ← raise_if (negb (segment_checks s')) (PyException "CheckViolation");
      Ok (n, with_segment db' segment_id s')
  end.

Definition pg_seal_and_purge (f : fault) (db : Db) (db_now : Z) (segment_id : string) (before_seq : Z)
    : res Z * Db :=
  transaction f (seal_and_purge_body db db_now segment_id before_seq) db.

Definition pg_segment_state (f : fault) (db : Db) (segment_id : string) : res (option EvidenceSegment) :=
  row ← reading f EvidenceWriteError (db_segments db !! segment_id);
  match row with
  | None => Ok None
  | Some s =>
      let rt := sr_retention s in
      segment ← mk_EvidenceSegment segment_id (sr_tenant_id s) (as_epoch (sr_opened_at s)) (sr_first_seq s)
        (as_epoch ∘ rt_sealed_at <$> rt) (rt_sealed_last_seq <$> rt) (rt_merkle_root <$> rt)
        (rt_seal_signature <$> rt) (rt_worm_anchor_id <$> rt);
      Ok (Some segment)
  end.

Definition pg_segment_leaves (f : fault) (db : Db) (segment_id : string) (before_seq : option Z)
    : res (list SegmentLeaf) :=
  rows ← reading f EvidenceIntegrityError
    (List.filter (fun r => match before_seq with None => true | Some b => (st_seq r <? b)%Z end)
       (select_chain None db segment_id));
  res_map (fun r => mk_SegmentLeaf (st_seq r) (st_record_hmac r)) rows.

(** [_MARK_SEALED]; the update of a segment that does not exist changes no row. *)
Definition mark_sealed_row (s : segment_row) (rt : retention_columns) : segment_row :=
  {| sr_tenant_id := sr_tenant_id s; sr_opened_at := sr_opened_at s; sr_first_seq := sr_first_seq s;
     sr_last_seq := sr_last_seq s; sr_last_hash := sr_last_hash s;
     sr_purged_before_seq := sr_purged_before_seq s; sr_sealed_at := sr_sealed_at s;
     sr_merkle_root := sr_merkle_root s; sr_worm_anchor_id := sr_worm_anchor_id s;
     sr_retention := Some rt; sr_outcome_last_seq := sr_outcome_last_seq s;
     sr_outcome_last_hash := sr_outcome_last_hash s |}.

Definition leaf_at (db : Db) (segment_id : string) (seq : Z) : option bytes :=
  st_record_hmac <$> List.find (fun r => (st_seq r =? seq)%Z) (rows_of None db segment_id).

Definition mark_sealed_body (db : Db) (segment_id : string) (anchor : WormAnchor) (locator : string)
    : res (unit * Db) :=
  sealed_at ← timestamp_column (wa_sealed_at anchor);
  match db_segments db !! segment_id with
  | None => Ok (tt, db)
  | Some s =>
      Ok (tt, with_segment db segment_id (mark_sealed_row s
        {| rt_sealed_at := sealed_at; rt_sealed_first_seq := wa_first_seq anchor;
           rt_sealed_last_seq := wa_last_seq anchor; rt_merkle_root := wa_merkle_root anchor;
           rt_seal_signature := wa_root_signature anchor; rt_worm_anchor_id := wa_anchor_id anchor;
           rt_worm_locator := locator;
           rt_last_leaf_hmac := leaf_at db segment_id (wa_last_seq anchor) |}))
  end.

Definition pg_mark_sealed (f : fault) (db : Db) (segment_id : string) (anchor : WormAnchor) (locator : string)
    : res unit * Db :=
  transaction f (mark_sealed_body db segment_id anchor locator) db.

(** [_ADVANCE_PURGE_MARKER]. *)
Definition advance_purge_marker (s : segment_row) (before_seq : Z) : segment_row :=
  {| sr_tenant_id := sr_tenant_id s; sr_opened_at := sr_opened_at s; sr_first_seq := before_seq;
     sr_last_seq := sr_last_seq s; sr_last_hash := sr_last_hash s; sr_purged_before_seq := before_seq;
     sr_sealed_at := sr_sealed_at s; sr_merkle_root := sr_merkle_root s;
     sr_worm_anchor_id := sr_worm_anchor_id s; sr_retention := sr_retention s;
     sr_outcome_last_seq := sr_outcome_last_seq s; sr_outcome_last_hash := sr_outcome_last_hash s |}.

Definition sealed_up_to (db : Db) (segment_id : string) : option Z :=
  s ← db_segments db !! segment_id; rt_sealed_last_seq <$> sr_retention s.

Definition purge_before_body (db : Db) (segment_id : string) (before_seq : Z) : res (Z * Db) :=
  match db_segments db !! segment_id with
  | None => Raise EvidenceWriteError
  | Some s =>
      _ ← raise_if (negb (bool_decide (sealed_up_to db segment_id = Some (before_seq - 1)%Z))) EvidenceWriteError;
      let s' := advance_purge_marker s before_seq in
      let '(n, db') := delete_purged db segment_id before_seq in
      _ ← raise_if (negb (segment_checks s')) (PyException "CheckViolation");
      Ok (n, with_segment db' segment_id s')
  end.

Definition pg_purge_before (f : fault) (db : Db) (segment_id : string) (before_seq : Z) : res Z * Db :=
  transaction f (purge_before_body db segment_id before_seq) db.

(** [tamper_for_test]: the append-only trigger is off for its one update. *)
Definition set_document (s : Stored intent_columns) (doc : json) : Stored intent_columns :=
  let c := st_record s in
  {| st_record := {| ic_decision_id := ic_decision_id c; ic_tenant_id := ic_tenant_id c;
        ic_created_at := ic_created_at c; ic_agent_ref := ic_agent_ref c;
        ic_agent_instance_id := ic_agent_instance_id c; ic_delegating_subject := ic_delegating_subject c;
        ic_credential_type := ic_credential_type c; ic_credential_id := ic_credential_id c;
        ic_action := ic_action c; ic_resource_kind := ic_resource_kind c; ic_resource_id := ic_resource_id c;
        ic_consequence_class := ic_consequence_class c; ic_idempotency_key := ic_idempotency_key c;
        ic_policy_bundle_id := ic_policy_bundle_id c; ic_policy_bundle_sha256 := ic_policy_bundle_sha256 c;
        ic_decision_effect := ic_decision_effect c; ic_risk_model_ver := ic_risk_model_ver c;
        ic_risk_score := ic_risk_score c; ic_risk_level := ic_risk_level c; ic_trace_id := ic_trace_id c;
        ic_causation_id := ic_causation_id c; ic_record := doc |};
     st_seq := st_seq s; st_prev_hash := st_prev_hash s; st_record_hmac := st_record_hmac s;
     st_signer_key_id := st_signer_key_id s |}.

Definition tamper_body (db : Db) (segment_id : string) (seq : Z) (replacement : IntentRecord) : res (unit * Db) :=
  doc ← stored_document (intent_as_evidence replacement);
  Ok (tt, with_intents db
    (map (fun r => if visible None r && (in_segment_id r =? segment_id)%string && (st_seq (in_stored r) =? seq)%Z
                   then {| in_segment_id := in_segment_id r; in_stored := set_document (in_stored r) doc |}
                   else r) (db_intents db))).

Definition pg_tamper_for_test (f : fault) (allow_tampering : bool) (db : Db) (segment_id : string) (seq : Z)
    (replacement : IntentRecord) : res unit * Db :=
  if negb allow_tampering then (Raise EvidenceWriteError, db)
  else transaction f (tamper_body db segment_id seq replacement) db.
End store.

(** ** Documents *)

Lemma normalise_of_json path j : floats_ok j = true -> normalise path (of_json j) = Ok j.
Proof.
  revert path. induction j as [| | |x| |l IH|l IH] using json_ind'; intros path Hf; cbn [of_json normalise]; try done.
  - cbn in Hf. apply andb_true_iff in Hf as [-> _]. done.
  - cbn [floats_ok] in Hf. assert (forall i, res_mapi (fun i : nat => normalise (path +:+ "[" +:+ str_of_int (Z.of_nat i) +:+ "]")) i
      (map of_json l) = Ok l) as ->; [|done].
    induction IH as [|x l Hx _ IHl]; intros i; [done|]. cbn in Hf |- *. apply andb_true_iff in Hf as [Hx' Hl].
    rewrite (Hx _ Hx'). cbn. rewrite (IHl Hl). done.
  - cbn [floats_ok] in Hf. rewrite (proj2 (res_map_ok _ _ l)); [done|].
    apply Forall2_fmap_l. induction IH as [|[k x] l Hx _ IHl]; [constructor|].
    cbn in Hf. apply andb_true_iff in Hf as [Hx' Hl]. constructor; [|by apply IHl].
    cbn in *. rewrite (Hx _ Hx'). done.
Qed.

(** A document that differs from the signed one only in the order of keys
    gives the signed bytes. *)
Lemma row_payload_of evidence j j' seq prev b :
  normalise "$.record" evidence = Ok j -> floats_ok j = true -> sort_keys j' = sort_keys j ->
  chain_bytes evidence seq prev = Ok b -> row_payload j' seq prev = Ok b.
Proof.
  intros Hj Hf Hs Hb. unfold chain_bytes in Hb. inv_ok.
  assert (floats_ok j' = true) as Hf' by (by rewrite <-floats_ok_sort, Hs, floats_ok_sort).
  unfold row_payload. rename select (canonical_bytes _ = Ok b) into Hc.
  pose proof (normalise_chain _ seq prev j Hj) as H1.
  pose proof (normalise_chain _ seq prev j' (normalise_of_json "$.record" j' Hf')) as H2.
  unfold canonical_bytes, canonical_json, pdict, pairs_dict in *. rewrite H1 in Hc. rewrite H2.
  cbn [mbind res_bind] in *. injection Hc as <-. do 2 f_equal. unfold dumps.
  cbn [sort_keys map fst snd]. by rewrite Hs.
Qed.

(** A field of a document, read off another with the same sorted form. *)
Lemma sorted_field items items' k v :
  NoDup (map fst items) -> sort_keys (JObj items') = sort_keys (JObj items) -> (k, v) ∈ items ->
  exists v', dict_get items' k = Some v' /\ sort_keys v' = sort_keys v.
Proof.
  intros Hnd Heq Hin. cbn [sort_keys] in Heq. injection Heq as Heq.
  set (g := fun kv : string * json => (kv.1, sort_keys kv.2)) in *.
  assert (map g items' ≡ₚ map g items) as Hp by (by rewrite <-(sort_by_perm fst (map g items')), Heq, sort_by_perm).
  assert (NoDup (map fst items')) as Hnd'.
  { replace (map fst items') with (map fst (map g items')) by (by rewrite map_map).
    rewrite Hp, map_map. done. }
  assert ((k, sort_keys v) ∈ map g items') as Hv by (rewrite Hp; by apply (list_elem_of_fmap_2 g _ (k, v))).
  apply list_elem_of_fmap in Hv as ([k' v'] & [= -> Hs] & Hv). exists v'. split; [|done].
  clear -Hv Hnd'. induction items' as [|[k1 v1] l IH]; [by apply not_elem_of_nil in Hv|].
  cbn in *. apply NoDup_cons in Hnd' as [Hk1 Hnd].
  apply elem_of_cons in Hv as [[= -> ->]|Hv]; [by rewrite String.eqb_refl|].
  destruct (String.eqb_spec k1 k') as [->|]; [|by apply IH].
  destruct Hk1. by apply (list_elem_of_fmap_2 fst _ (k', v')).
Qed.

Lemma sorted_str v s : sort_keys v = JStr s -> v = JStr s.
Proof. by destruct v. Qed.
Lemma sorted_float v x : sort_keys v = JFloat x -> v = JFloat x.
Proof. by destruct v. Qed.
Lemma sorted_obj v l : sort_keys v = sort_keys (JObj l) -> exists l', v = JObj l' /\ sort_keys (JObj l') = sort_keys (JObj l).
Proof. destruct v; try done. eauto. Qed.

(** A field of a dict, read off a document equal to it up to key order. *)
Lemma document_field path l j j' k x :
  NoDup (map fst l) -> normalise path (pdict l) = Ok j -> sort_keys j' = sort_keys j -> (k, x) ∈ l ->
  exists items v y, j' = JObj items /\ dict_get items k = Some v /\
    normalise (path +:+ "." +:+ k) x = Ok y /\ sort_keys v = sort_keys y.
Proof.
  intros Hnd Hn Hs Hin. pose proof (normalise_field _ _ _ _ _ Hn Hin) as (items & y & -> & Hy & Hx).
  apply sorted_obj in Hs as (items' & -> & Hs).
  destruct (sorted_field items items' k y) as (v & Hv & Hvs); [by rewrite (normalise_keys _ _ _ Hn)|done|done|].
  by exists items', v, y.
Qed.

Section documents.
Context `{PgColumns}.

(** What the database keeps of a record: a document equal to the evidence up to
    the order of keys, and the risk score as it is. *)
Definition reads_back (r : IntentRecord) : Prop :=
  numeric (rs_value (ir_risk r)) = rs_value (ir_risk r) /\
  exists j j', normalise "$.record" (intent_as_evidence r) = Ok j /\ floats_ok j = true /\
    jsonb j = Some j' /\ sort_keys j' = sort_keys j.

Definition outcome_reads_back (r : OutcomeRecord) : Prop :=
  exists j j', normalise "$.record" (outcome_record_as_evidence r) = Ok j /\ floats_ok j = true /\
    jsonb j = Some j' /\ sort_keys j' = sort_keys j.

Lemma stored_document_ok evidence j j' doc :
  normalise "$.record" evidence = Ok j -> jsonb j = Some j' -> stored_document evidence = Ok doc -> doc = j'.
Proof. intros Hj Hj'. unfold stored_document. rewrite Hj. cbn. rewrite Hj'. by intros [= <-]. Qed.

Lemma document_str path l j items k s :
  NoDup (map fst l) -> normalise path (pdict l) = Ok j -> sort_keys (JObj items) = sort_keys j ->
  (k, PStr s) ∈ l -> dict_get items k = Some (JStr s).
Proof.
  intros Hnd Hn Hs Hin. destruct (document_field _ _ _ _ _ _ Hnd Hn Hs Hin) as (? & v & y & [= <-] & Hv & [= <-] & Hsv).
  rewrite Hv. f_equal. by apply sorted_str.
Qed.

Lemma document_dict path l j items k l' :
  NoDup (map fst l) -> normalise path (pdict l) = Ok j -> sort_keys (JObj items) = sort_keys j ->
  (k, pdict l') ∈ l -> exists items' j', dict_get items k = Some (JObj items') /\
    normalise (path +:+ "." +:+ k) (pdict l') = Ok j' /\ sort_keys (JObj items') = sort_keys j'.
Proof.
  intros Hnd Hn Hs Hin. destruct (document_field _ _ _ _ _ _ Hnd Hn Hs Hin) as (? & v & y & [= <-] & Hv & Hy & Hsv).
  pose proof Hy as (l0 & -> & _)%normalise_pdict. apply sorted_obj in Hsv as (l1 & -> & Hsv). eauto.
Qed.

(** The fields verification reads off the document of a record. *)
Lemma evidence_document r j j' :
  normalise "$.record" (intent_as_evidence r) = Ok j -> sort_keys j' = sort_keys j ->
  exists items ia ik, j' = JObj items /\
    dict_get items "action" = Some (JObj ia) /\ dict_get items "risk" = Some (JObj ik) /\
    dict_get items "decision_id" = Some (JStr (ir_decision_id r)) /\
    dict_get items "tenant_id" = Some (JStr (ir_tenant_id r)) /\
    dict_get ia "action" = Some (JStr (pa_action (ir_action r))) /\
    dict_get ia "consequence_class" = Some (JStr (consequence_value (pa_consequence (ir_action r)))) /\
    dict_get ik "risk_score" = Some (JFloat (rs_value (ir_risk r))) /\ isfinite (rs_value (ir_risk r)) = true.
Proof.
  intros Hj Hs. pose proof Hj as (l0 & -> & _)%normalise_pdict. pose proof Hs as (items & -> & _)%sorted_obj.
  unfold intent_as_evidence in Hj.
  match type of Hj with normalise _ (pdict ?l) = _ => assert (NoDup (map fst l)) as Hk0 by literal_keys end.
  assert (NoDup (map fst (action_as_evidence (ir_action r)))) as Hka by literal_keys.
  assert (NoDup (map fst (risk_score_as_evidence (ir_risk r)))) as Hkr by literal_keys.
  destruct (document_dict _ _ _ _ "action" (action_as_evidence (ir_action r)) Hk0 Hj Hs) as (ia & ja & Ha & Hja & Hsa);
    [by repeat constructor|].
  destruct (document_dict _ _ _ _ "risk" (risk_score_as_evidence (ir_risk r)) Hk0 Hj Hs) as (ik & jk & Hk & Hjk & Hsk);
    [by repeat constructor|].
  destruct (document_field _ _ _ _ "risk_score" (PFloat (rs_value (ir_risk r))) Hkr Hjk Hsk) as (? & v & y & [= <-] & Hv & Hy & Hsv);
    [by repeat constructor|].
  cbn [normalise] in Hy. destruct (isfinite _) eqn:Hfin; [|done]. injection Hy as <-. apply sorted_float in Hsv as ->.
  exists items, ia, ik. split_and!; try done.
  - apply (document_str _ _ _ _ _ _ Hk0 Hj Hs). by repeat constructor.
  - apply (document_str _ _ _ _ _ _ Hk0 Hj Hs). by repeat constructor.
  - apply (document_str _ _ _ _ _ _ Hka Hja Hsa). by repeat constructor.
  - apply (document_str _ _ _ _ _ _ Hka Hja Hsa). by repeat constructor.
Qed.

Lemma feq_refl x : isfinite x = true -> feq x x = true.
Proof. intros Hx%isfinite_nan. by apply feq_spec. Qed.

Lemma columns_agree r c :
  insert_parameters r = Ok c -> reads_back r ->
  exists items, ic_record c = JObj items /\ column_mismatch c items = Ok "" /\ floats_ok (JObj items) = true.
Proof.
  intros Hc (Hnum & j & j' & Hj & Hf & Hjb & Hs). unfold insert_parameters in Hc. inv_ok.
  rename select (stored_document _ = Ok _) into Hdoc. apply (stored_document_ok _ _ _ _ Hj Hjb) in Hdoc. subst.
  destruct (evidence_document r j j' Hj Hs) as (items & ia & ik & -> & Ha & Hk & Hd & Ht & Haa & Hac & Hr & Hfin).
  exists items. split_and!; [done| |by rewrite <-floats_ok_sort, Hs, floats_ok_sort].
  unfold column_mismatch, get_mapping. rewrite Ha, Hk. cbn [mbind res_bind]. rewrite Hd, Ht, Haa, Hac, Hr.
  cbn [text_agrees ic_decision_id ic_tenant_id ic_action ic_consequence_class ic_risk_score]. rewrite !String.eqb_refl.
  cbn [negb float_agrees float_of_json mbind res_bind]. by rewrite Hnum, (feq_refl _ Hfin).
Qed.

(** On the document of any record the column check gives an answer. *)
Lemma column_mismatch_total c r j items :
  normalise "$.record" (intent_as_evidence r) = Ok j -> sort_keys (JObj items) = sort_keys j ->
  exists m, column_mismatch c items = Ok m.
Proof.
  intros Hj Hs. destruct (evidence_document r j _ Hj Hs) as (? & ia & ik & [= <-] & Ha & Hk & Hd & Ht & Haa & Hac & Hr & _).
  unfold column_mismatch, get_mapping. rewrite Ha, Hk. cbn [mbind res_bind]. rewrite Hd, Ht, Haa, Hac, Hr.
  cbn [float_agrees float_of_json mbind res_bind]. repeat (destruct (negb _); [by eexists|]).
  destruct (feq _ _); by eexists.
Qed.
End documents.

(** ** Chains of rows *)

Section chains.
Context `{PgColumns} {S : Type} `{MacSignerLaws S}.

Definition intent_payload (c : intent_columns) : Z -> bytes -> res bytes := row_payload (ic_record c).

(** The document is an object, the indexed columns agree with it, and its
    numbers have literals. *)
Definition row_fine (row : Stored intent_columns) : Prop :=
  exists items, ic_record (st_record row) = JObj items /\ column_mismatch (st_record row) items = Ok "" /\
    floats_ok (JObj items) = true.

Lemma link_matches (expected : option bytes) (prev : bytes) (s : Stored intent_columns) :
  (forall p, expected = Some p -> p = prev) -> st_prev_hash s = prev ->
  match expected with Some p => negb (bool_decide (st_prev_hash s = p)) | None => false end = false.
Proof. intros E Hs. destruct expected as [q|]; [|done]. rewrite (E q eq_refl). by rewrite bool_decide_eq_true_2. Qed.

Lemma verify_rows_step columns sg s l seq prev expected n :
  st_seq s = seq -> st_prev_hash s = prev -> (forall p, expected = Some p -> p = prev) ->
  link_authentic intent_payload sg s -> row_fine s ->
  verify_rows columns sg (s :: l) seq expected n =
  verify_rows columns sg l (seq + 1) (Some (st_record_hmac s)) (n + 1).
Proof.
  intros Hs Hp Hexp (p & Hpay & Hver) (items & Hi & Hm & _). cbn [verify_rows].
  rewrite Hi at 1. cbn [as_mapping mbind res_bind]. rewrite Hs, Z.eqb_refl. cbn [negb].
  rewrite (link_matches expected prev s Hexp Hp).
  assert ((if columns then column_mismatch (st_record s) items else Ok "") = Ok "") as -> by (by destruct columns).
  cbn [mbind res_bind str_is_empty negb]. unfold intent_payload in Hpay. rewrite Hs in Hpay. rewrite Hpay.
  cbn [mbind res_bind]. by rewrite Hver.
Qed.

Lemma verify_rows_complete columns sg rows seq prev expected n :
  chain_ok intent_payload sg rows seq prev -> Forall row_fine rows ->
  (forall p, expected = Some p -> p = prev) ->
  verify_rows columns sg rows seq expected n = Ok (WalkDone, n + Z.of_nat (length rows))%Z.
Proof.
  revert seq prev expected n. induction rows as [|s l IH]; intros seq prev expected n.
  - intros _ _ _. cbn. do 2 f_equal. lia.
  - intros (Hs & Hp & Hauth & Hl) [Hfine Hf]%Forall_cons Hexp.
    rewrite (verify_rows_step columns sg s l seq prev) by done.
    rewrite (IH _ (st_record_hmac s)); [do 2 f_equal; cbn [length]; lia|done|done|by intros ? [= <-]].
Qed.

(** A row whose document was replaced is where the walk stops: a column
    disagrees with it or the MAC does not authenticate it. *)
Lemma verify_rows_stops_at columns sg l1 s l2 seq prev expected n items m p :
  chain_ok intent_payload sg l1 seq prev -> Forall row_fine l1 -> (forall q, expected = Some q -> q = prev) ->
  st_seq s = (seq + Z.of_nat (length l1))%Z -> st_prev_hash s = end_mac l1 prev ->
  ic_record (st_record s) = JObj items -> column_mismatch (st_record s) items = Ok m ->
  row_payload (ic_record (st_record s)) (st_seq s) (st_prev_hash s) = Ok p ->
  signer_verify sg p (st_record_hmac s) (st_signer_key_id s) = Ok false ->
  exists d, verify_rows columns sg (l1 ++ s :: l2) seq expected n =
    Ok (WalkBroken (st_seq s) d, n + Z.of_nat (length l1))%Z.
Proof.
  revert seq prev expected n. induction l1 as [|x l1 IH]; intros seq prev expected n Hok Hf Hexp Hs Hp Hi Hm Hpay Hv.
  - cbn in Hs. rewrite Z.add_0_r in Hs. unfold end_mac in Hp. cbn in Hp. cbn [app verify_rows length].
    assert (as_mapping (ic_record (st_record s)) = Ok items) as -> by (by rewrite Hi). cbn [mbind res_bind].
    assert ((st_seq s =? seq)%Z = true) as -> by (by apply Z.eqb_eq). cbn [negb].
    rewrite (link_matches expected prev s Hexp Hp).
    rewrite Z.add_0_r. destruct columns; [rewrite Hm|]; cbn [mbind res_bind].
    + destruct (str_is_empty m); cbn [negb]; [|by eexists]. rewrite Hpay. cbn [mbind res_bind]. rewrite Hv. by eexists.
    + cbn [str_is_empty negb]. rewrite Hpay. cbn [mbind res_bind]. rewrite Hv. by eexists.
  - destruct Hok as (Hx & Hxp & Hauth & Hl). apply Forall_cons in Hf as [Hfine Hf]. cbn [app].
    rewrite (verify_rows_step columns sg x (l1 ++ s :: l2) seq prev) by done.
    destruct (IH (seq + 1)%Z (st_record_hmac x) (Some (st_record_hmac x)) (n + 1)%Z) as (d & ->); try done.
    + by intros ? [= <-].
    + rewrite Hs. cbn [length]. lia.
    + by rewrite end_mac_cons in Hp.
    + exists d. do 2 f_equal. cbn [length]. lia.
Qed.
End chains.

(** ** The invariant, for a role exempt from row-level security *)

Section invariant.
Context `{PgColumns} {S : Type} `{MacSignerLaws S}.

Abbreviation live := (rows_of true None).

Definition outcomes_of (db : Db) (sid : string) : list (Stored json) :=
  map oc_stored (List.filter (fun o => (oc_segment_id o =? sid)%string) (db_outcomes db)).

(** A segment row describes its live rows, which chain from the MAC [a]: that of
    the last purged record, or the genesis value when nothing was purged. *)
Record segment_ok (sg : S) (rows : list (Stored intent_columns)) (s : segment_row) (a : bytes) : Prop := {
  so_chain : chain_ok intent_payload sg rows (sr_purged_before_seq s) a;
  so_fine : Forall row_fine rows;
  so_end : end_mac rows a = sr_last_hash s;
  so_count : (sr_last_seq s + 1 = sr_purged_before_seq s + Z.of_nat (length rows))%Z;
  so_purged : (0 <= sr_purged_before_seq s)%Z /\ sr_first_seq s = sr_purged_before_seq s;
  so_genesis : sr_purged_before_seq s = 0%Z -> a = GENESIS_PREV_HASH;
  so_sealed : sr_purged_before_seq s <> 0%Z -> sealed_by_either s = true;
  so_root : forall m, sr_merkle_root s = Some m -> m = a;
  so_retention : forall rt, sr_retention s = Some rt -> sr_merkle_root s = None ->
    (sr_purged_before_seq s - 1 <= rt_sealed_last_seq rt <= sr_last_seq s)%Z /\
    rt_last_leaf_hmac rt =
      Some (end_mac (take (Z.to_nat (rt_sealed_last_seq rt + 1 - sr_purged_before_seq s)) rows) a)
}.

Definition outcome_chain_ok (sg : S) (rows : list (Stored json)) (s : segment_row) : Prop :=
  chain_ok row_payload sg rows 0 GENESIS_PREV_HASH /\
  end_mac rows GENESIS_PREV_HASH = sr_outcome_last_hash s /\
  (sr_outcome_last_seq s + 1 = Z.of_nat (length rows))%Z.

Record pg_inv (sg : S) (db : Db) : Prop := {
  pi_segments : forall sid s, db_segments db !! sid = Some s -> exists a, segment_ok sg (live db sid) s a;
  pi_outcomes : forall sid s, db_segments db !! sid = Some s -> outcome_chain_ok sg (outcomes_of db sid) s;
  pi_intent_refs : forall sid, db_segments db !! sid = None -> live db sid = [];
  pi_outcome_refs : forall sid, db_segments db !! sid = None -> outcomes_of db sid = []
}.

Lemma pg_inv_init sg : pg_inv sg db_init.
Proof. constructor; [intros ? ? Hs; cbn in Hs; by rewrite lookup_empty in Hs..|done|done]. Qed.

Lemma pg_inv_extends sg sg' db : signer_extends sg sg' -> pg_inv sg db -> pg_inv sg' db.
Proof.
  intros He [Hi Ho Hri Hro]. constructor; [| |done|done].
  - intros sid s Hs. destruct (Hi sid s Hs) as (a & []). exists a. constructor; eauto using chain_ok_extends.
  - intros sid s Hs. destruct (Ho sid s Hs). split; eauto using chain_ok_extends.
Qed.

Lemma new_segment_ok sg t now : segment_ok sg [] (new_segment t now) GENESIS_PREV_HASH /\
  outcome_chain_ok sg [] (new_segment t now).
Proof. split; [constructor; cbn; try done; lia|split; [done|split; [done|cbn; lia]]]. Qed.

(** The segment an append locks, existing or created, is sound. *)
Lemma segment_or_new_ok sg db sid t now :
  pg_inv sg db ->
  (exists a, segment_ok sg (live db sid) (segment_or_new db sid t now) a) /\
  outcome_chain_ok sg (outcomes_of db sid) (segment_or_new db sid t now).
Proof.
  intros Hinv. unfold segment_or_new. destruct (db_segments db !! sid) as [s|] eqn:E.
  - split; [by apply (pi_segments _ _ Hinv)|by apply (pi_outcomes _ _ Hinv)].
  - rewrite (pi_intent_refs _ _ Hinv _ E), (pi_outcome_refs _ _ Hinv _ E).
    destruct (new_segment_ok sg t now). eauto.
Qed.

(** One segment changes, the rows of the others stay. *)
Lemma pg_inv_update sg db db' sid s :
  pg_inv sg db -> db_segments db' = <[sid := s]> (db_segments db) ->
  (forall x, x <> sid -> live db' x = live db x /\ outcomes_of db' x = outcomes_of db x) ->
  (exists a, segment_ok sg (live db' sid) s a) -> outcome_chain_ok sg (outcomes_of db' sid) s ->
  pg_inv sg db'.
Proof.
  intros Hinv Hseg Hother Hi Ho. constructor; intros x; rewrite Hseg; destruct (decide (sid = x)) as [<-|Hne];
    rewrite ?lookup_insert_eq, ?lookup_insert_ne by done.
  - by intros ? [= <-].
  - rewrite (proj1 (Hother x (not_eq_sym Hne))). apply (pi_segments _ _ Hinv).
  - by intros ? [= <-].
  - rewrite (proj2 (Hother x (not_eq_sym Hne))). apply (pi_outcomes _ _ Hinv).
  - done.
  - rewrite (proj1 (Hother x (not_eq_sym Hne))). apply (pi_intent_refs _ _ Hinv).
  - done.
  - rewrite (proj2 (Hother x (not_eq_sym Hne))). apply (pi_outcome_refs _ _ Hinv).
Qed.

(** A transaction leaves a sound database when its body does. *)
Lemma transaction_inv {A} sg f (body : res (A * Db)) db r db' :
  pg_inv sg db -> (forall a db1, body = Ok (a, db1) -> pg_inv sg db1) ->
  transaction f body db = (r, db') -> pg_inv sg db'.
Proof.
  intros Hinv Hbody. unfold transaction. destruct f, body as [[a db1]|e]; intros [= <- <-]; eauto.
Qed.

Lemma live_append db row x :
  live (with_intents db (db_intents db ++ [row])) x =
  live db x ++ (if (in_segment_id row =? x)%string then [in_stored row] else []).
Proof.
  unfold rows_of, visible. cbn. rewrite List.filter_app, map_app. cbn.
  by destruct (in_segment_id row =? x)%string.
Qed.

Lemma retention_take (rows : list (Stored intent_columns)) extra a n :
  (n <= length rows)%nat -> end_mac (take n (rows ++ extra)) a = end_mac (take n rows) a.
Proof. intros Hn. by rewrite take_app_le. Qed.

(** A row that links to the head of its segment extends it. *)
Lemma segment_ok_snoc sg rows s a row mac :
  segment_ok sg rows s a -> st_seq row = (sr_last_seq s + 1)%Z -> st_prev_hash row = sr_last_hash s ->
  st_record_hmac row = mac -> link_authentic intent_payload sg row -> row_fine row ->
  segment_ok sg (rows ++ [row]) (advance_segment s (sr_last_seq s + 1) mac) a.
Proof.
  intros [] Hseq Hprev Hmac Hauth Hfine. constructor; cbn [advance_segment sr_purged_before_seq sr_last_seq
    sr_last_hash sr_first_seq sr_merkle_root sr_retention]; try done.
  - apply chain_ok_app. split; [done|]. rewrite so_end0, <-so_count0. cbn. split_and!; try done.
  - apply Forall_app. split; [done|]. by constructor.
  - unfold end_mac. rewrite last_snoc. done.
  - rewrite length_app. cbn [length]. lia.
  - intros rt Hrt Hm. destruct (so_retention0 rt Hrt Hm) as [? ->]. split; [lia|]. rewrite retention_take by lia. done.
Qed.

Lemma insert_parameters_document r c j j' :
  insert_parameters r = Ok c -> normalise "$.record" (intent_as_evidence r) = Ok j -> jsonb j = Some j' ->
  ic_record c = j'.
Proof.
  intros Hc Hj Hjb. unfold insert_parameters in Hc. inv_ok. subst c. cbn.
  by eapply stored_document_ok.
Qed.

Lemma sign_ok sg p m : sign sg p = Ok m -> signer_mac sg p = Ok m.
Proof. unfold sign. destruct (signer_mac sg p) as [?|[]]; congruence. Qed.

Lemma append_intent_body_inv sg db now r rc db' :
  pg_inv sg db -> reads_back r -> append_intent_body true sg db now r = Ok (rc, db') -> pg_inv sg db'.
Proof.
  intros Hinv Hback Happ. unfold append_intent_body in Happ. set (sid := ir_segment_id r) in *.
  set (s := segment_or_new db sid (ir_tenant_id r) now) in *.
  destruct (segment_or_new_ok sg db sid (ir_tenant_id r) now Hinv) as [(a & Hs) Ho]. fold s in Hs, Ho.
  apply bind_ok in Happ as ([] & Hsealed & Happ). destruct (select_by_decision _ _ _ _) as [row|]; inv_ok; subst.
  - eapply (pg_inv_update sg db _ sid s); eauto.
  - rename select (intent_chain_payload _ _ _ = Ok _) into Hpay. rename select (sign _ _ = Ok _) into Hsign.
    rename select (insert_parameters _ = Ok _) into Hcol.
    apply (pg_inv_update sg db _ sid (advance_segment s (sr_last_seq s + 1) x0)); [done|cbn; by rewrite insert_insert_eq| | |].
    + intros y Hy. split; [|done]. change (live (with_intents db (db_intents db ++ [{| in_segment_id := sid;
        in_stored := {| st_record := x1; st_seq := (sr_last_seq s + 1)%Z; st_prev_hash := sr_last_hash s;
          st_record_hmac := x0; st_signer_key_id := signer_key_id sg |} |}])) y = live db y).
      rewrite live_append. cbn [in_segment_id]. destruct (String.eqb_spec sid y); [done|]. by rewrite app_nil_r.
    + exists a. change (segment_ok sg (live (with_intents db (db_intents db ++ [{| in_segment_id := sid;
        in_stored := {| st_record := x1; st_seq := (sr_last_seq s + 1)%Z; st_prev_hash := sr_last_hash s;
          st_record_hmac := x0; st_signer_key_id := signer_key_id sg |} |}])) sid) (advance_segment s (sr_last_seq s + 1) x0) a).
      rewrite live_append. cbn [in_segment_id in_stored]. rewrite String.eqb_refl.
      apply segment_ok_snoc; try done.
      * destruct Hback as (_ & j & j' & Hj & Hf & Hjb & Hsort). exists x. split.
        -- unfold intent_payload. cbn [st_record st_seq st_prev_hash].
           rewrite (insert_parameters_document _ _ _ _ Hcol Hj Hjb). by eapply row_payload_of.
        -- cbn. by apply mac_verifies, sign_ok.
      * by eapply columns_agree.
    + done.
Qed.

Lemma outcomes_append db row x :
  outcomes_of (with_outcomes db (db_outcomes db ++ [row])) x =
  outcomes_of db x ++ (if (oc_segment_id row =? x)%string then [oc_stored row] else []).
Proof.
  unfold outcomes_of. cbn. rewrite List.filter_app, map_app. cbn. by destruct (oc_segment_id row =? x)%string.
Qed.

Lemma outcome_chain_snoc sg rows s row mac :
  outcome_chain_ok sg rows s -> st_seq row = (sr_outcome_last_seq s + 1)%Z ->
  st_prev_hash row = sr_outcome_last_hash s -> st_record_hmac row = mac -> link_authentic row_payload sg row ->
  outcome_chain_ok sg (rows ++ [row]) (advance_outcome_chain s (sr_outcome_last_seq s + 1) mac).
Proof.
  intros (Hch & He & Hn) Hseq Hprev Hmac Hauth. split_and!.
  - apply chain_ok_app. split; [done|]. rewrite He. cbn. split_and!; [lia|done|done|done].
  - unfold end_mac. rewrite last_snoc. done.
  - rewrite length_app. cbn [length advance_outcome_chain sr_outcome_last_seq]. lia.
Qed.

Lemma segment_ok_outcome sg rows s a seq mac :
  segment_ok sg rows s a -> segment_ok sg rows (advance_outcome_chain s seq mac) a.
Proof. intros []. by constructor. Qed.

Lemma append_outcome_body_inv sg db rc r db' :
  pg_inv sg db -> outcome_reads_back r -> append_outcome_body true sg db rc r = Ok (tt, db') -> pg_inv sg db'.
Proof.
  intros Hinv (j & j' & Hj & Hf & Hjb & Hsort) Happ. unfold append_outcome_body in Happ. set (sid := rc_segment_id rc) in *.
  destruct (select_by_decision _ _ _ _) as [row|]; [|done]. destruct (db_segments db !! sid) as [s|] eqn:Es; [|done].
  destruct (pi_segments _ _ Hinv _ _ Es) as [a Hs]. pose proof (pi_outcomes _ _ Hinv _ _ Es) as Ho.
  apply bind_ok in Happ as (p & Hpay & Happ). apply bind_ok in Happ as (mac & Hsign & Happ).
  apply bind_ok in Happ as (at_ & _ & Happ). apply bind_ok in Happ as (doc & Hdoc & Happ).
  apply bind_ok in Happ as ([] & _ & Happ). apply (stored_document_ok _ _ _ _ Hj Hjb) in Hdoc as ->.
  destruct (outcome_recorded _ _ _); injection Happ as <-; [done|].
  set (stored := {| st_record := j'; st_seq := (sr_outcome_last_seq s + 1)%Z; st_prev_hash := sr_outcome_last_hash s;
                    st_record_hmac := mac; st_signer_key_id := signer_key_id sg |}).
  set (row' := {| oc_decision_id := or_decision_id r; oc_stored := stored |}).
  apply (pg_inv_update sg db _ sid (advance_outcome_chain s (sr_outcome_last_seq s + 1) mac)); [done|done| | |].
  - intros y Hy. split; [done|]. change (outcomes_of (with_outcomes db (db_outcomes db ++ [row'])) y = outcomes_of db y).
    rewrite outcomes_append. cbn [oc_segment_id row']. destruct (String.eqb_spec sid y); [done|]. by rewrite app_nil_r.
  - exists a. by apply segment_ok_outcome.
  - change (outcome_chain_ok sg (outcomes_of (with_outcomes db (db_outcomes db ++ [row'])) sid)
      (advance_outcome_chain s (sr_outcome_last_seq s + 1) mac)).
    rewrite outcomes_append. cbn [oc_segment_id oc_stored row']. rewrite String.eqb_refl.
    apply outcome_chain_snoc; try done. exists p. split; [by eapply row_payload_of|].
    cbn. by apply mac_verifies, sign_ok.
Qed.

(** A seal that covers a live record. *)
Definition seals_live (db : Db) (sid : string) (anchor : WormAnchor) : Prop :=
  forall s, db_segments db !! sid = Some s ->
    (sr_purged_before_seq s <= wa_last_seq anchor <= sr_last_seq s)%Z.

Lemma find_seq sg l n a i row :
  chain_ok intent_payload sg l n a -> l !! i = Some row ->
  List.find (fun r => (st_seq r =? st_seq row)%Z) l = Some row.
Proof.
  revert n a i. induction l as [|x l IH]; intros n a i; [done|]. intros (Hx & _ & _ & Hl) Hrow. cbn [List.find].
  destruct i as [|i]; cbn in Hrow; [injection Hrow as ->; by rewrite Z.eqb_refl|].
  pose proof (chain_lookup _ _ _ _ _ _ _ Hl Hrow). destruct (Z.eqb_spec (st_seq x) (st_seq row)); [lia|].
  by eapply IH.
Qed.

Lemma leaf_at_chain sg db sid seq a n :
  chain_ok intent_payload sg (live db sid) n a -> (n <= seq < n + Z.of_nat (length (live db sid)))%Z ->
  leaf_at true db sid seq = Some (end_mac (take (Z.to_nat (seq + 1 - n)) (live db sid)) a).
Proof.
  intros Hch Hn. unfold leaf_at. set (i := Z.to_nat (seq - n)).
  destruct (lookup_lt_is_Some_2 (live db sid) i) as [row Hrow]; [lia|].
  replace (Z.to_nat (seq + 1 - n)) with (Datatypes.S i) by lia. rewrite (end_mac_take _ _ _ _ Hrow).
  pose proof (chain_lookup _ _ _ _ _ _ _ Hch Hrow) as Hseq.
  replace seq with (st_seq row) by lia. by rewrite (find_seq _ _ _ _ _ _ Hch Hrow).
Qed.

Lemma mark_sealed_body_inv sg db sid anchor loc db' :
  pg_inv sg db -> seals_live db sid anchor -> mark_sealed_body true db sid anchor loc = Ok (tt, db') -> pg_inv sg db'.
Proof.
  intros Hinv Hlive Hm. unfold mark_sealed_body in Hm. apply bind_ok in Hm as (at_ & _ & Hm).
  destruct (db_segments db !! sid) as [s|] eqn:Es; injection Hm as <-; [|done].
  destruct (pi_segments _ _ Hinv _ _ Es) as [a Hs]. specialize (Hlive s Es).
  eapply (pg_inv_update sg db _ sid); [done|done|done| |exact (pi_outcomes _ _ Hinv _ _ Es)].
  exists a. destruct Hs. constructor; cbn [mark_sealed_row sr_purged_before_seq sr_last_seq sr_last_hash
    sr_first_seq sr_merkle_root sr_retention]; try done.
  - intros _. unfold sealed_by_either. cbn. by rewrite orb_true_r.
  - intros rt [= <-] _. cbn [rt_sealed_last_seq rt_last_leaf_hmac]. split; [lia|].
    change (live (with_segment db sid _) sid) with (live db sid). apply (leaf_at_chain sg); [done|lia].
Qed.

Lemma live_delete db sid b n db1 :
  delete_purged true db sid b = (n, db1) ->
  db_segments db1 = db_segments db /\ db_outcomes db1 = db_outcomes db /\
  n = Z.of_nat (length (List.filter (fun s => (st_seq s <? b)%Z) (live db sid))) /\
  forall x, live db1 x = if (sid =? x)%string then List.filter (fun s => negb (st_seq s <? b)%Z) (live db sid) else live db x.
Proof.
  unfold delete_purged. intros [= <- <-]. split_and!; [done|done| |].
  - f_equal. unfold rows_of, visible, purgeable. cbn. induction (db_intents db) as [|r l IH]; [done|].
    cbn [List.filter]. destruct (in_segment_id r =? sid)%string; cbn [andb map List.filter]; [|done].
    destruct (st_seq (in_stored r) <? b)%Z; cbn [length]; by rewrite IH.
  - intros x. unfold rows_of, visible, purgeable. cbn. induction (db_intents db) as [|r l IH]; [by destruct (_ =? _)%string|].
    cbn [List.filter]. destruct (String.eqb_spec sid x) as [<-|Hne].
    + destruct (in_segment_id r =? sid)%string eqn:E; cbn [andb map List.filter negb].
      * destruct (st_seq (in_stored r) <? b)%Z; cbn [negb List.filter map]; [done|]. rewrite E. cbn. by rewrite IH.
      * rewrite E. done.
    + destruct (String.eqb_spec (in_segment_id r) sid) as [E|E]; cbn [andb negb List.filter].
      * destruct (String.eqb_spec (in_segment_id r) x) as [E'|E']; [congruence|].
        destruct (st_seq (in_stored r) <? b)%Z; cbn [negb List.filter map]; [done|].
        destruct (String.eqb_spec (in_segment_id r) x); done.
      * destruct (String.eqb_spec (in_segment_id r) x); cbn [map]; by rewrite IH.
Qed.

(** Dropping the rows below a boundary leaves the rest chained from the last
    dropped MAC. *)
Lemma segment_ok_purge sg rows s a s' b :
  segment_ok sg rows s a -> (sr_purged_before_seq s <= b <= sr_last_seq s + 1)%Z ->
  sr_purged_before_seq s' = b -> sr_first_seq s' = b -> sr_last_seq s' = sr_last_seq s ->
  sr_last_hash s' = sr_last_hash s ->
  let k := Z.to_nat (b - sr_purged_before_seq s) in
  let a' := end_mac (take k rows) a in
  (b <> 0%Z -> sealed_by_either s' = true) ->
  (forall m, sr_merkle_root s' = Some m -> m = a') ->
  (forall rt, sr_retention s' = Some rt -> sr_merkle_root s' = None ->
     rt_sealed_last_seq rt = (b - 1)%Z /\ rt_last_leaf_hmac rt = Some a') ->
  segment_ok sg (drop k rows) s' a'.
Proof.
  intros Hs Hb Hp Hf Hl Hh k a' Hsealed Hroot Hret. destruct Hs.
  assert (k <= length rows)%nat as Hk by lia.
  pose proof so_chain0 as Hch. rewrite <-(take_drop k rows) in Hch. apply chain_ok_app in Hch as [_ Hch].
  rewrite length_take, Nat.min_l in Hch by done.
  constructor; rewrite ?Hp, ?Hf, ?Hl, ?Hh; try done.
  - replace b with (sr_purged_before_seq s + Z.of_nat k)%Z by lia. done.
  - by apply Forall_drop.
  - rewrite <-so_end0. transitivity (end_mac (take k rows ++ drop k rows) a); [|by rewrite take_drop].
    unfold a', end_mac. rewrite last_app. by destruct (last (drop k rows)).
  - rewrite length_drop. lia.
  - lia.
  - intros Hb0. unfold a'. replace k with 0%nat by lia. cbn. apply so_genesis0. lia.
  - intros rt Hrt Hm. destruct (Hret rt Hrt Hm) as [-> ->]. split; [lia|].
    replace (Z.to_nat (b - 1 + 1 - b)) with 0%nat by lia. done.
Qed.

Lemma purge_update sg db sid s s' a b n db1 :
  pg_inv sg db -> db_segments db !! sid = Some s -> segment_ok sg (live db sid) s a ->
  delete_purged true db sid b = (n, db1) ->
  sr_outcome_last_seq s' = sr_outcome_last_seq s -> sr_outcome_last_hash s' = sr_outcome_last_hash s ->
  (exists a', segment_ok sg (drop (Z.to_nat (b - sr_purged_before_seq s)) (live db sid)) s' a') ->
  pg_inv sg (with_segment db1 sid s').
Proof.
  intros Hinv Es Hs Hd Ho1 Ho2 Hs'. apply live_delete in Hd as (Hseg & Hout & _ & Hlive).
  apply (pg_inv_update sg db _ sid s'); [done|cbn; by rewrite Hseg| | |].
  - intros x Hx. split; [|unfold outcomes_of; cbn; by rewrite Hout].
    change (live db1 x = live db x). rewrite Hlive. by destruct (String.eqb_spec sid x).
  - change (exists a, segment_ok sg (live db1 sid) s' a). rewrite Hlive, String.eqb_refl.
    destruct (chain_filter _ _ _ _ _ b (so_chain _ _ _ _ Hs)) as [_ ->]. done.
  - destruct (pi_outcomes _ _ Hinv _ _ Es) as (? & ? & ?). unfold outcomes_of. cbn. rewrite Hout.
    unfold outcome_chain_ok. rewrite Ho1, Ho2. done.
Qed.

Lemma purge_before_body_inv sg db sid b n db' :
  pg_inv sg db -> (forall s, db_segments db !! sid = Some s -> sr_merkle_root s = None) ->
  purge_before_body true db sid b = Ok (n, db') -> pg_inv sg db'.
Proof.
  intros Hinv Hpath Hp. unfold purge_before_body in Hp. destruct (db_segments db !! sid) as [s|] eqn:Es; [|done].
  apply bind_ok in Hp as ([] & Hseal & Hp). apply raise_if_ok, negb_false_iff, bool_decide_eq_true in Hseal.
  destruct (delete_purged true db sid b) as [m db1] eqn:Hd.
  apply bind_ok in Hp as ([] & Hck & Hp). injection Hp as <- <-.
  destruct (pi_segments _ _ Hinv _ _ Es) as [a Hs]. pose proof (Hpath s eq_refl) as Hroot.
  unfold sealed_up_to in Hseal. rewrite Es in Hseal. cbn in Hseal.
  destruct (sr_retention s) as [rt|] eqn:Hrt; [|done]. injection Hseal as Hlast.
  destruct (so_retention _ _ _ _ Hs rt Hrt Hroot) as [Hbound Hleaf].
  eapply purge_update; eauto. eexists. apply (segment_ok_purge sg _ s a); cbn; try done; [lia| |congruence|].
  - intros _. unfold sealed_by_either. cbn. rewrite Hrt. apply orb_true_r.
  - intros rt' Hrt' _. rewrite Hrt in Hrt'. injection Hrt' as <-. split; [done|]. rewrite Hleaf. do 3 f_equal. lia.
Qed.

Lemma seal_and_purge_body_inv sg db now sid b n db' :
  pg_inv sg db -> seal_and_purge_body true db now sid b = Ok (n, db') -> pg_inv sg db'.
Proof.
  intros Hinv Hp. unfold seal_and_purge_body in Hp. destruct (db_segments db !! sid) as [s|] eqn:Es; [|by injection Hp as <- <-].
  destruct (pi_segments _ _ Hinv _ _ Es) as [a Hs]. unfold anchor_before, select_chain in Hp.
  rewrite (sort_seq_chain _ _ _ _ _ (so_chain _ _ _ _ Hs)) in Hp.
  destruct (chain_filter _ _ _ _ _ b (so_chain _ _ _ _ Hs)) as [Hf _]. rewrite Hf in Hp. clear Hf.
  destruct (last (take _ (live db sid))) as [row|] eqn:Hlast; cbn in Hp; [|by injection Hp as <- <-].
  destruct (delete_purged true db sid b) as [m db1] eqn:Hd.
  apply bind_ok in Hp as ([] & Hck & Hp). injection Hp as <- <-.
  apply raise_if_ok, negb_false_iff, andb_true_iff in Hck as [Hck%Z.leb_le _]. cbn in Hck.
  assert (sr_purged_before_seq s < b)%Z as Hb.
  { destruct (decide (sr_purged_before_seq s < b)%Z); [done|].
    replace (Z.to_nat (b - sr_purged_before_seq s)) with 0%nat in Hlast by lia. done. }
  eapply purge_update; eauto. eexists. apply (segment_ok_purge sg _ s a); cbn; try done; [lia|].
  intros ? [= <-]. unfold end_mac. by rewrite Hlast.
Qed.

(** ** Runs *)

(** One call of the store by a role exempt from row-level security, whatever
    happens to its connection, or one change of its signer that keeps earlier
    MACs verifiable.  Records are such that the database keeps them, seals
    cover a live record, and the two ways of purging are not mixed on one
    segment. *)
Inductive pg_step : S * Db -> S * Db -> Prop :=
| pg_step_append_intent sg db f now r res db' :
    reads_back r -> pg_append_intent true f sg db now r = (res, db') -> pg_step (sg, db) (sg, db')
| pg_step_append_outcome sg db f rc r res db' :
    outcome_reads_back r -> pg_append_outcome true f sg db rc r = (res, db') -> pg_step (sg, db) (sg, db')
| pg_step_mark_sealed sg db f sid anchor loc res db' :
    seals_live db sid anchor -> pg_mark_sealed true f db sid anchor loc = (res, db') -> pg_step (sg, db) (sg, db')
| pg_step_purge_before sg db f sid b res db' :
    (forall s, db_segments db !! sid = Some s -> sr_merkle_root s = None) ->
    pg_purge_before true f db sid b = (res, db') -> pg_step (sg, db) (sg, db')
| pg_step_seal_and_purge sg db f now sid b res db' :
    pg_seal_and_purge true f db now sid b = (res, db') -> pg_step (sg, db) (sg, db')
| pg_step_signer sg sg' db : signer_extends sg sg' -> pg_step (sg, db) (sg', db).

Definition pg_reachable (sg : S) (db : Db) : Prop := exists sg0, rtc pg_step (sg0, db_init) (sg, db).

Lemma pg_step_inv x y : pg_step x y -> pg_inv x.1 x.2 -> pg_inv y.1 y.2.
Proof.
  intros Hstep Hinv. destruct Hstep; cbn in *; try (eapply transaction_inv; [exact Hinv| |eassumption]; intros ? ? Hb).
  - by eapply append_intent_body_inv.
  - rename select (pg_append_outcome _ _ _ _ _ _ = _) into Ho. unfold pg_append_outcome in Ho.
    destruct (negb _); [by injection Ho as <- <-|]. eapply transaction_inv; [exact Hinv| |exact Ho].
    intros [] ? Hb. by eapply append_outcome_body_inv.
  - destruct a. by eapply mark_sealed_body_inv.
  - by eapply purge_before_body_inv.
  - by eapply seal_and_purge_body_inv.
  - by eapply pg_inv_extends.
Qed.

Lemma pg_reachable_inv sg db : pg_reachable sg db -> pg_inv sg db.
Proof.
  intros [sg0 Hrun]. change (pg_inv (sg, db).1 (sg, db).2). pose proof (pg_inv_init sg0) as Hstart.
  change (pg_inv (sg0, db_init).1 (sg0, db_init).2) in Hstart. revert Hstart.
  induction Hrun as [|x y z Hxy _ IH]; [done|]. intros Hx. by apply IH, (pg_step_inv x).
Qed.
End invariant.

(** ** Theorems *)

Section theorems.
Context `{PgColumns} {S : Type} `{MacSignerLaws S}.

(** A retention seal of a partly purged segment whose own purge is still to
    come. *)
Definition pending_seal (s : segment_row) : bool :=
  negb (sr_purged_before_seq s =? 0)%Z && negb (is_some (sr_merkle_root s)) &&
  match sr_retention s with
  | Some rt => negb (rt_sealed_last_seq rt + 1 =? sr_purged_before_seq s)%Z
  | None => false
  end.

(** The anchor the walk starts from is the one the rows chain from. *)
Lemma expected_link_ok sg rows s a :
  segment_ok sg rows s a -> pending_seal s = false -> forall p, expected_link s = Some p -> p = a.
Proof.
  intros Hs Hpend p. unfold expected_link. destruct (Z.eqb_spec (sr_purged_before_seq s) 0) as [E|E].
  - intros [= <-]. symmetry. by apply (so_genesis _ _ _ _ Hs).
  - unfold sealed_anchor. destruct (sr_merkle_root s) as [m|] eqn:Hm; [intros [= <-]; by apply (so_root _ _ _ _ Hs)|].
    destruct (sr_retention s) as [rt|] eqn:Hrt; [|done]. cbn.
    destruct (so_retention _ _ _ _ Hs rt Hrt Hm) as [_ ->]. intros [= <-].
    unfold pending_seal in Hpend. rewrite Hm, Hrt in Hpend. apply Z.eqb_neq in E. rewrite E in Hpend. cbn in Hpend.
    apply negb_false_iff, Z.eqb_eq in Hpend. replace (Z.to_nat _) with 0%nat by lia. done.
Qed.

Lemma outcome_walk sg db sid s :
  pg_inv sg db -> db_segments db !! sid = Some s ->
  pg_verify_outcome_chain sg db sid = Ok (WalkDone, Z.of_nat (length (outcomes_of db sid))).
Proof.
  intros Hinv Es. destruct (pi_outcomes _ _ Hinv _ _ Es) as [Hch _].
  unfold pg_verify_outcome_chain, outcome_rows. fold (outcomes_of db sid).
  by rewrite (sort_seq_chain _ _ _ _ _ Hch), (walk_complete _ _ _ _ _ _ Hch).
Qed.

(** C16.  Honest operation verifies in Postgres too.  Take any run of appends,
    outcomes, seals, purges and key rotations in which any transaction may
    lose its connection before or after its commit, every value appended is
    one the columns give back ([reads_back]), every seal covers records that
    are live ([seals_live]), no segment purged by [seal_and_purge] is purged by
    the retention path too, and the role bypasses row-level security.  To such
    a role every segment without a seal still to be purged verifies
    afterwards, with or without the column check: every live record is checked, the outcome chain is intact, and the report is
    [INTACT], or [SEALED_PURGED] once records were purged.  (Without these
    conditions it may not: [rls_hides_evidence] and
    [lossy_score_is_reported_broken].) *)
Theorem pg_honest_store_verifies sg db sid s columns now :
  pg_reachable sg db -> db_segments db !! sid = Some s -> pending_seal s = false ->
  valid_id sid -> is_ok (require_timestamp now "verified_at") = true ->
  exists rep, pg_verify true NoFault columns sg db sid now = Ok rep /\
    ip_status rep = (if (sr_purged_before_seq s =? 0)%Z then INTACT else SEALED_PURGED) /\
    ip_records_checked rep = (sr_last_seq s + 1 - sr_purged_before_seq s)%Z /\
    ip_outcome_records_checked rep = (sr_outcome_last_seq s + 1)%Z /\
    is_fully_acceptable rep = true.
Proof.
  intros Hinv%pg_reachable_inv Es Hpend Hid Hnow. destruct (pi_segments _ _ Hinv _ _ Es) as [a Hs].
  unfold pg_verify. cbn [reading mbind res_bind]. rewrite Es, (outcome_walk _ _ _ _ Hinv Es). cbn [mbind res_bind fst snd].
  unfold select_chain. rewrite (sort_seq_chain _ _ _ _ _ (so_chain _ _ _ _ Hs)).
  rewrite (verify_rows_complete _ _ _ _ _ _ _ (so_chain _ _ _ _ Hs) (so_fine _ _ _ _ Hs) (expected_link_ok _ _ _ _ Hs Hpend)).
  cbn [mbind res_bind fst snd walk_status walk_first_broken].
  destruct (pi_outcomes _ _ Hinv _ _ Es) as (_ & _ & Hn). pose proof (so_count _ _ _ _ Hs) as Hc.
  pose proof (so_purged _ _ _ _ Hs) as [Hp _]. pose proof (so_sealed _ _ _ _ Hs) as Hsealed.
  destruct (Z.eqb_spec (sr_purged_before_seq s) 0) as [E|E].
  - rewrite E. cbn [Z.ltb Z.compare andb]. rewrite mk_IntegrityReport_clean by (done || lia). eexists. split; [done|].
    cbn. split_and!; [done|lia|lia|done].
  - rewrite (proj2 (Z.ltb_lt 0 _)) by lia. rewrite (Hsealed E). cbn [andb].
    rewrite mk_IntegrityReport_clean by (done || lia). eexists. split; [done|]. cbn. split_and!; [done|lia|lia|done].
Qed.

(** *** Durability *)

Lemma select_by_decision_some b t db d row :
  select_by_decision b t db d = Some row ->
  row ∈ db_intents db /\ ic_decision_id (st_record (in_stored row)) = d.
Proof.
  intros [Hin%list_elem_of_In Hb]%List.find_some. apply andb_true_iff in Hb as [_ ->%String.eqb_eq]. done.
Qed.

(** C17.  A receipt from Postgres proves durability, and a failure never
    half-writes.  For any role: when [append_intent] returns a receipt the
    record's row is in the table with the receipt's sequence number, MAC and
    key; whatever happens, rows already there stay as they are, in front; when
    it raises, nothing was written unless the connection was lost after the
    commit.  Appending a decision of
    which the tenant has a row adds no row, under any connection. *)
Theorem pg_receipt_is_durable b f sg db now r res db' :
  pg_append_intent b f sg db now r = (res, db') ->
  (exists rows, db_intents db' = db_intents db ++ rows) /\
  (forall rc, res = Ok rc -> exists row, row ∈ db_intents db' /\
     ic_decision_id (st_record (in_stored row)) = ir_decision_id r /\ rc_decision_id rc = ir_decision_id r /\
     in_segment_id row = rc_segment_id rc /\ st_seq (in_stored row) = rc_seq rc /\
     st_record_hmac (in_stored row) = rc_record_hmac rc /\ st_signer_key_id (in_stored row) = rc_signer_key_id rc) /\
  (forall e, res = Raise e -> f <> AfterCommit -> db' = db) /\
  (is_Some (select_by_decision b (Some (ir_tenant_id r)) db (ir_decision_id r)) -> db_intents db' = db_intents db).
Proof.
  unfold pg_append_intent, transaction. destruct (append_intent_body b sg db now r) as [[rc db1]|e] eqn:Hb.
  2: { destruct f; intros [= <- <-]; (split_and!; [exists []; by rewrite app_nil_r|done|done|done]). }
  assert ((exists rows, db_intents db1 = db_intents db ++ rows) /\
    (exists row, row ∈ db_intents db1 /\ ic_decision_id (st_record (in_stored row)) = ir_decision_id r /\
       rc_decision_id rc = ir_decision_id r /\ in_segment_id row = rc_segment_id rc /\ st_seq (in_stored row) = rc_seq rc /\
       st_record_hmac (in_stored row) = rc_record_hmac rc /\ st_signer_key_id (in_stored row) = rc_signer_key_id rc) /\
    (is_Some (select_by_decision b (Some (ir_tenant_id r)) db (ir_decision_id r)) -> db_intents db1 = db_intents db)) as (Hpre & Hrow & Hold).
  { unfold append_intent_body in Hb. apply bind_ok in Hb as ([] & _ & Hb).
    change (select_by_decision b (Some (ir_tenant_id r)) (with_segment _ _ _) (ir_decision_id r))
      with (select_by_decision b (Some (ir_tenant_id r)) db (ir_decision_id r)) in Hb.
    destruct (select_by_decision _ _ _ _) as [row|] eqn:Hsel.
    - apply select_by_decision_some in Hsel as [Hin Hd]. apply bind_ok in Hb as (rc' & Hrc & [= <- <-]).
      apply mk_EvidenceReceipt_ok in Hrc as [-> _]. split_and!; [exists []; by rewrite app_nil_r| |done].
      by exists row.
    - inv_ok. subst. rename select (mk_EvidenceReceipt _ _ _ _ _ _ = Ok _) into Hrc.
      apply mk_EvidenceReceipt_ok in Hrc as [-> _]. cbn [db_intents with_segment with_intents].
      split_and!; [by eexists| |by intros [? ?]]. eexists. split; [apply elem_of_app; right; by left|]. cbn.
      split_and!; try done. rename select (insert_parameters _ = Ok _) into Hc. unfold insert_parameters in Hc. inv_ok. by subst. }
  destruct f; intros [= <- <-].
  - split_and!; [done|by intros ? [= <-]|done|done].
  - split_and!; [exists []; by rewrite app_nil_r|done|done|done].
  - by split_and!.
Qed.

(** *** Row-level security *)

(** A role subject to row-level security sees no row in the methods that set no
    tenant: its verification does not depend on the records at all, outcomes
    cannot be recorded, and its purges remove nothing though they move the
    purge marker. *)
Lemma rls_hides_evidence f sg db sid columns now rc r res db' :
  pg_verify false f columns sg db sid now = pg_verify false f columns sg (with_intents db []) sid now /\
  (pg_append_outcome false f sg db rc r = (res, db') -> is_ok res = false /\ db' = db) /\
  (forall b, delete_purged false db sid b = (0%Z, db)).
Proof.
  assert (forall (l : list intent_row) (g : intent_row -> bool), List.filter (fun r => visible false None r && g r) l = []) as Hnone.
  { intros l g. induction l as [|x l IH]; [done|]. done. }
  split_and!.
  - unfold pg_verify, select_chain, rows_of. by rewrite !Hnone.
  - unfold pg_append_outcome. destruct (negb _); [by intros [= <- <-]|].
    unfold append_outcome_body, select_by_decision.
    assert (List.find (fun x => visible false None x && (ic_decision_id (st_record (in_stored x)) =? rc_decision_id rc)%string)
      (db_intents db) = None) as ->.
    { induction (db_intents db) as [|x l IH]; [done|]. done. }
    unfold transaction. by destruct f; intros [= <- <-].
  - intros b. unfold delete_purged. f_equal.
    + f_equal. replace (List.filter _ _) with (@nil intent_row); [done|]. induction (db_intents db); done.
    + destruct db as [segs ints outs]. unfold with_intents. cbn. f_equal. induction ints as [|x l IH]; [done|].
      cbn. by rewrite IH.
Qed.

(** *** Tampering *)

Lemma live_tamper db sid seq doc :
  rows_of true None (with_intents db
    (map (fun r => if visible true None r && (in_segment_id r =? sid)%string && (st_seq (in_stored r) =? seq)%Z
                   then {| in_segment_id := in_segment_id r; in_stored := set_document (in_stored r) doc |}
                   else r) (db_intents db))) sid =
  map (fun s => if (st_seq s =? seq)%Z then set_document s doc else s) (rows_of true None db sid).
Proof.
  unfold rows_of, visible. cbn. induction (db_intents db) as [|r l IH]; [done|]. cbn [map List.filter].
  destruct (in_segment_id r =? sid)%string eqn:E; cbn [andb].
  - destruct (st_seq (in_stored r) =? seq)%Z eqn:Es; cbn [in_segment_id]; rewrite E; cbn [map in_stored]; by rewrite IH, Es.
  - rewrite E. done.
Qed.

Lemma map_set_document_other sg l n prev seq doc :
  chain_ok intent_payload sg l n prev -> (seq < n \/ n + Z.of_nat (length l) <= seq)%Z ->
  map (fun s => if (st_seq s =? seq)%Z then set_document s doc else s) l = l.
Proof.
  revert n prev. induction l as [|x l IH]; intros n prev; [done|]. intros (Hx & _ & _ & Hl) Hn. cbn [length] in Hn. cbn [map].
  destruct (Z.eqb_spec (st_seq x) seq); [lia|]. f_equal. eapply IH; [exact Hl|]. lia.
Qed.

Lemma sort_tampered sg rows n prev seq doc :
  chain_ok intent_payload sg rows n prev ->
  sort_seq (map (fun s => if (st_seq s =? seq)%Z then set_document s doc else s) rows) =
  map (fun s => if (st_seq s =? seq)%Z then set_document s doc else s) rows.
Proof.
  assert (forall z, st_seq (if (st_seq z =? seq)%Z then set_document z doc else z) = st_seq z) as Hz
    by (intros z; by destruct (_ =? _)%Z).
  revert n prev. induction rows as [|x l IH]; intros n prev; [done|].
  intros (Hx & _ & _ & Hl). cbn [map sort_seq]. rewrite (IH _ _ Hl). destruct l as [|y l]; [done|].
  destruct Hl as (Hy & _). cbn [map insert_seq]. rewrite !Hz. by rewrite (proj2 (Z.leb_le _ _)) by lia.
Qed.

(** The rows around one live row, and what overwriting its document gives. *)
Lemma live_split sg rows n prev row doc :
  chain_ok intent_payload sg rows n prev -> row ∈ rows ->
  exists l1 l2, rows = l1 ++ row :: l2 /\ chain_ok intent_payload sg l1 n prev /\
    st_seq row = (n + Z.of_nat (length l1))%Z /\ st_prev_hash row = end_mac l1 prev /\
    link_authentic intent_payload sg row /\
    map (fun s => if (st_seq s =? st_seq row)%Z then set_document s doc else s) rows = l1 ++ set_document row doc :: l2.
Proof.
  intros Hch (l1 & l2 & ->)%list_elem_of_split. exists l1, l2. split; [done|].
  apply chain_ok_app in Hch as [Hl1 (Hs & Hp & Hauth & Hl2)]. split_and!; try done.
  rewrite map_app. cbn [map]. rewrite Z.eqb_refl.
  rewrite (map_set_document_other _ _ _ _ _ _ Hl1) by lia. rewrite (map_set_document_other _ _ _ _ _ _ Hl2) by lia. done.
Qed.

(** The MAC of a row authenticates both its document and a different one. *)
Definition row_undetected (sg : S) (row : Stored intent_columns) (doc : json) : Prop :=
  exists p p', row_payload (ic_record (st_record row)) (st_seq row) (st_prev_hash row) = Ok p /\
    row_payload doc (st_seq row) (st_prev_hash row) = Ok p' /\
    forged_mac sg p p' (st_record_hmac row) (st_signer_key_id row).

(** A replaced document does not authenticate under the MAC of the original. *)
Lemma forged_document_rejected sg row doc :
  link_authentic intent_payload sg row -> floats_ok (ic_record (st_record row)) = true -> floats_ok doc = true ->
  sort_keys doc <> sort_keys (ic_record (st_record row)) ->
  (exists p, row_payload doc (st_seq row) (st_prev_hash row) = Ok p /\
     signer_verify sg p (st_record_hmac row) (st_signer_key_id row) = Ok false) \/ row_undetected sg row doc.
Proof.
  intros (p & Hp & Hv) Hf Hf' Hdiff. unfold intent_payload, row_payload in *.
  pose proof (normalise_chain _ (st_seq row) (st_prev_hash row) _ (normalise_of_json "$.record" _ Hf')) as Hn'.
  pose proof (normalise_chain _ (st_seq row) (st_prev_hash row) _ (normalise_of_json "$.record" _ Hf)) as Hn.
  assert (exists p', canonical_bytes (pdict [("seq", PInt (st_seq row)); ("prev_hash", PStr (bytes_hex (st_prev_hash row)));
      ("record", of_json doc)]) = Ok p') as [p' Hp'].
  { unfold canonical_bytes, canonical_json, pdict, pairs_dict in *. rewrite Hn'. by eexists. }
  destruct (verify_total _ _ _ _ _ Hv p') as [[] Hv']; [|left; by exists p'].
  destruct (decide (p = p')) as [<-|Hne]; [|by right; exists p, p']. destruct Hdiff.
  pose proof (canonical_bytes_normal _ _ _ _ p Hn' Hn) as Heq. cbn [floats_ok forallb snd] in Heq.
  rewrite Hf, Hf' in Heq. specialize (Heq eq_refl eq_refl Hp' Hp). cbn [sort_keys map fst snd] in Heq.
  assert (Hsort : forall (a b c : json), sort_by fst [("seq", a); ("prev_hash", b); ("record", c)]
                  = [("prev_hash", b); ("record", c); ("seq", a)]) by reflexivity.
  rewrite !Hsort in Heq. by injection Heq.
Qed.

(** Tampering in the database is detected and localised.  In any
    reachable database, overwriting the document of a live record by that of
    another record with different evidence, past the append-only trigger and
    keeping everything else, makes verification report [BROKEN] at exactly
    that record with all earlier ones accepted, with or without the column
    check, unless the row's MAC authenticates both the payload of the original
    and the different payload of the forgery. *)
Theorem pg_tampering_is_localised sg db sid s row r' columns now :
  pg_reachable sg db -> db_segments db !! sid = Some s -> pending_seal s = false -> row ∈ rows_of true None db sid ->
  reads_back r' ->
  (forall j, normalise "$.record" (intent_as_evidence r') = Ok j -> sort_keys j <> sort_keys (ic_record (st_record row))) ->
  valid_id sid -> is_ok (require_timestamp now "verified_at") = true ->
  (exists db' rep, pg_tamper_for_test true NoFault true db sid (st_seq row) r' = (Ok tt, db') /\
     pg_verify true NoFault columns sg db' sid now = Ok rep /\ ip_status rep = BROKEN /\
     ip_first_broken_seq rep = Some (st_seq row) /\
     ip_records_checked rep = (st_seq row - sr_purged_before_seq s)%Z) \/
  exists doc, stored_document (intent_as_evidence r') = Ok doc /\ row_undetected sg row doc.
Proof.
  intros Hinv%pg_reachable_inv Es Hpend Hin (_ & j & j' & Hj & Hf & Hjb & Hsort) Hdiff Hid Hnow.
  destruct (pi_segments _ _ Hinv _ _ Es) as [a Hs]. pose proof (so_fine _ _ _ _ Hs) as Hfine.
  pose proof (proj1 (Forall_forall _ _) Hfine row Hin) as (it & Hit & _ & Hfl).
  destruct (live_split _ _ _ _ _ j' (so_chain _ _ _ _ Hs) Hin) as (l1 & l2 & Hl & Hl1 & Hseq & Hprev & Hauth & Hmap).
  assert (floats_ok j' = true) as Hf' by (by rewrite <-floats_ok_sort, Hsort, floats_ok_sort).
  destruct (forged_document_rejected sg row j' Hauth) as [(p & Hp & Hv)|]; [by rewrite Hit|done| |left|].
  { rewrite Hsort. by apply Hdiff. }
  2: { right. exists j'. split; [|done]. unfold stored_document. rewrite Hj. cbn. by rewrite Hjb. }
  pose proof (evidence_document _ _ _ Hj Hsort) as (items & _ & _ & Hobj & _). rewrite Hobj in Hsort.
  destruct (column_mismatch_total (st_record (set_document row j')) _ _ _ Hj Hsort) as [m Hm].
  destruct (verify_rows_stops_at columns sg l1 (set_document row j') l2 (sr_purged_before_seq s) a (expected_link s) 0 items m p)
    as [d Hw]; try done; [|by eapply expected_link_ok|].
  { rewrite Hl in Hfine. by apply Forall_app in Hfine as [? _]. }
  pose proof (so_purged _ _ _ _ Hs) as [Hp0 _]. pose proof (outcome_walk _ _ _ _ Hinv Es) as Hout.
  destruct (mk_IntegrityReport_broken sid (Z.of_nat (length l1)) now (st_seq row) d (Z.of_nat (length (outcomes_of db sid))))
    as (rep & Hrep & Hst & Hfb & Hck); try done; try lia.
  eexists _, rep. split.
  { unfold pg_tamper_for_test, transaction, tamper_body, stored_document. cbn [negb]. rewrite Hj. cbn [mbind res_bind].
    rewrite Hjb. cbn [mbind res_bind]. reflexivity. }
  split_and!; try done; [|rewrite Hck; lia].
  unfold pg_verify. cbn [reading mbind res_bind with_intents db_segments]. rewrite Es.
  unfold pg_verify_outcome_chain, outcome_rows in *. cbn [with_intents db_outcomes]. rewrite Hout. cbn [mbind res_bind fst snd].
  unfold select_chain. rewrite live_tamper.
  rewrite (sort_tampered _ _ _ _ _ _ (so_chain _ _ _ _ Hs)), Hmap.
  rewrite Hw. cbn [mbind res_bind fst snd walk_status walk_first_broken walk_detail]. exact Hrep.
Qed.
End theorems.

(** ** Runs on a concrete database *)

(** [to_timestamp] at microseconds, rounded down. *)
Definition micros (x : float) : option Z :=
  match x with
  | S754_zero _ => Some 0%Z
  | S754_finite sign m e =>
      let n := (Zpos m * 1000000)%Z in
      Some (cond_Zopp sign (if (0 <=? e)%Z then n * 2 ^ e else n / 2 ^ (- e)))%Z
  | _ => None
  end.

(** A database that gives every value back as it is. *)
#[local] Instance plain_columns : PgColumns := {| jsonb := Some; numeric := fun x => x; to_timestamp := micros |}.

Definition pg_appended (db : Db) (d : string) : Db :=
  (pg_append_intent true NoFault sample_signer db 10000000 (sample_intent d)).2.
Definition pg_sample : Db := pg_appended (pg_appended (pg_appended db_init "d1") "d2") "d3".

Definition anchor_at (seq : Z) : WormAnchor :=
  {| wa_anchor_id := "a1"; wa_segment_id := sample_segment; wa_tenant_id := "t1";
     wa_merkle_root := repeat x02 32; wa_tree_size := 1; wa_first_seq := seq;
     wa_last_seq := seq; wa_sealed_at := fz 40; wa_root_signature := repeat x01 32; wa_signer_key_id := "k1" |}.

Definition pg_sealed : Db := (pg_mark_sealed true NoFault pg_sample sample_segment (anchor_at 0) "loc").2.
Definition pg_purged : Db := (pg_purge_before true NoFault pg_sealed sample_segment 1).2.
Definition pg_resealed : Db := (pg_mark_sealed true NoFault pg_purged sample_segment (anchor_at 1) "loc").2.

Definition segment_row_of (db : Db) : segment_row := default (new_segment "" 0) (db_segments db !! sample_segment).

Lemma sample_reads_back d : d = "d1" \/ d = "d2" \/ d = "d3" -> reads_back (sample_intent d).
Proof.
  intros Hd. split; [done|].
  destruct (normalise "$.record" (intent_as_evidence (sample_intent d))) as [j|] eqn:E;
    [|destruct Hd as [->|[->| ->]]; vm_compute in E; discriminate E].
  exists j, j. split_and!; try done.
  assert (match normalise "$.record" (intent_as_evidence (sample_intent d)) with Ok j => floats_ok j | Raise _ => false end = true)
    as Hf by (destruct Hd as [->|[->| ->]]; vm_compute; reflexivity).
  by rewrite E in Hf.
Qed.

Lemma pg_appended_step db d :
  d = "d1" \/ d = "d2" \/ d = "d3" -> pg_step (sample_signer, db) (sample_signer, pg_appended db d).
Proof.
  intros Hd. apply (pg_step_append_intent sample_signer db NoFault 10000000 (sample_intent d)
    (pg_append_intent true NoFault sample_signer db 10000000 (sample_intent d)).1); [by apply sample_reads_back|].
  unfold pg_appended. apply surjective_pairing.
Qed.

Lemma pg_sample_reachable : pg_reachable sample_signer pg_sample.
Proof.
  exists sample_signer. unfold pg_sample.
  eapply rtc_l; [apply (pg_appended_step db_init "d1"); eauto|].
  eapply rtc_l; [apply (pg_appended_step _ "d2"); eauto|]. apply rtc_once, pg_appended_step. eauto.
Qed.

Lemma pg_purged_reachable : pg_reachable sample_signer pg_purged.
Proof.
  destruct pg_sample_reachable as [sg0 Hrun]. exists sg0. eapply rtc_r; [eapply rtc_r; [exact Hrun|]|].
  - apply (pg_step_mark_sealed _ _ NoFault sample_segment (anchor_at 0) "loc"
      (pg_mark_sealed true NoFault pg_sample sample_segment (anchor_at 0) "loc").1 pg_sealed);
      [|unfold pg_sealed; apply surjective_pairing].
    intros s Hs. assert (segment_row_of pg_sample = s) as <- by (unfold segment_row_of; rewrite Hs; reflexivity).
    clear Hs. vm_compute. split; discriminate.
  - apply (pg_step_purge_before _ _ NoFault sample_segment 1
      (pg_purge_before true NoFault pg_sealed sample_segment 1).1 pg_purged);
      [|unfold pg_purged; apply surjective_pairing].
    intros s Hs. assert (segment_row_of pg_sealed = s) as <- by (unfold segment_row_of; rewrite Hs; reflexivity).
    clear Hs. vm_compute. reflexivity.
Qed.

Lemma pg_honest_store_verifies_witness :
  exists rep, pg_verify true NoFault true sample_signer pg_purged sample_segment (fz 60) = Ok rep /\
    ip_status rep = SEALED_PURGED /\ ip_records_checked rep = 2%Z.
Proof.
  destruct (pg_honest_store_verifies sample_signer pg_purged sample_segment (segment_row_of pg_purged) true (fz 60))
    as (rep & Hv & Hst & Hck & _);
    [apply pg_purged_reachable|vm_compute; reflexivity|vm_compute; reflexivity|apply sample_segment_id|vm_compute; reflexivity|].
  exists rep. split; [exact Hv|]. split; [exact Hst|exact Hck].
Defined.

Definition pg_first_receipt : res EvidenceReceipt * Db := pg_append_intent false NoFault sample_signer db_init 10000000 (sample_intent "d1").

Lemma pg_receipt_is_durable_witness :
  exists rc, pg_first_receipt.1 = Ok rc /\ exists row, row ∈ db_intents pg_first_receipt.2 /\
    st_record_hmac (in_stored row) = rc_record_hmac rc.
Proof.
  destruct pg_first_receipt.1 as [rc|e] eqn:E; [|exfalso; vm_compute in E; discriminate E].
  exists rc. split; [reflexivity|].
  destruct (pg_receipt_is_durable false NoFault sample_signer db_init 10000000 (sample_intent "d1")
    pg_first_receipt.1 pg_first_receipt.2 (surjective_pairing pg_first_receipt)) as (_ & Hrow & _).
  destruct (Hrow rc E) as (row & Hin & _ & _ & _ & _ & Hmac & _). exists row. split; [exact Hin|exact Hmac].
Defined.

Lemma pg_tampering_is_localised_witness :
  (exists db' rep, pg_verify true NoFault false sample_signer db' sample_segment (fz 60) = Ok rep /\
     ip_status rep = BROKEN /\ ip_first_broken_seq rep = Some 2%Z /\ ip_records_checked rep = 1%Z) \/
  exists row doc, row ∈ rows_of true None pg_purged sample_segment /\ row_undetected sample_signer row doc.
Proof.
  destruct (rows_of true None pg_purged sample_segment !! 1%nat) as [row|] eqn:E; [|exfalso; vm_compute in E; discriminate E].
  assert (st_seq <$> rows_of true None pg_purged sample_segment !! 1%nat = Some 2%Z) as Hseq by (vm_compute; reflexivity).
  rewrite E in Hseq. injection Hseq as Hseq.
  destruct (pg_tampering_is_localised sample_signer pg_purged sample_segment (segment_row_of pg_purged) row (sample_intent "d1") false (fz 60))
    as [(db' & rep & _ & Hv & Hst & Hfb & Hck)|Hcol];
    [apply pg_purged_reachable|vm_compute; reflexivity|vm_compute; reflexivity|by eapply list_elem_of_lookup_2
    |apply sample_reads_back; by left| |apply sample_segment_id|vm_compute; reflexivity| |
     right; destruct Hcol as (doc & _ & Hcol); exists row, doc; split; [by eapply list_elem_of_lookup_2|exact Hcol]].
  - intros j Hj Hs. assert (match normalise "$.record" (intent_as_evidence (sample_intent "d1")),
        rows_of true None pg_purged sample_segment !! 1%nat with
      | Ok j, Some row => bool_decide (print canonical_config (sort_keys j) = print canonical_config (sort_keys (ic_record (st_record row))))
      | _, _ => true end = false) as Hd by (vm_compute; reflexivity).
    rewrite Hj, E, Hs in Hd. by rewrite bool_decide_eq_true_2 in Hd.
  - left. exists db', rep. rewrite Hseq in Hfb, Hck. split; [exact Hv|]. split; [exact Hst|]. split; [exact Hfb|exact Hck].
Defined.

(** A second seal moves the recorded leaf MAC at once, while the purge marker
    moves only when the purge runs, after the grace period.  Until then the
    walk starts at the marker but expects a later MAC, and the segment is
    reported [BROKEN] though nobody touched it. *)
Example second_seal_breaks_verification :
  report_of (pg_verify true NoFault true sample_signer pg_purged sample_segment (fz 60)) =
    Some (SEALED_PURGED, None, "1 record(s) purged under retention; sealed root anchored") /\
  report_of (pg_verify true NoFault true sample_signer pg_resealed sample_segment (fz 60)) =
    Some (BROKEN, Some 1%Z, "chain link does not match the previous record") /\
  report_of (pg_verify true NoFault true sample_signer
    (pg_purge_before true NoFault pg_resealed sample_segment 2).2 sample_segment (fz 60)) =
    Some (SEALED_PURGED, None, "2 record(s) purged under retention; sealed root anchored").
Proof. split_and!; vm_compute; reflexivity. Qed.

(** A column that keeps fewer digits than the signed score makes an honest
    record look tampered with. *)
Example lossy_score_is_reported_broken :
  let lossy : PgColumns := {| jsonb := Some; numeric := fun x => fdiv (fz 3) (fz 10); to_timestamp := micros |} in
  let score := fadd (fdiv (fz 1) (fz 10)) (fdiv (fz 2) (fz 10)) in
  let r := sample_intent "d1" in
  let r' := {| ir_decision_id := ir_decision_id r; ir_segment_id := ir_segment_id r; ir_tenant_id := ir_tenant_id r;
    ir_created_at := ir_created_at r; ir_principal := ir_principal r; ir_action := ir_action r;
    ir_decision := ir_decision r;
    ir_risk := {| rs_value := score; rs_model_version := "m1"; rs_inputs := sample_inputs;
                  rs_raw_value := score; rs_floor_applied := false |};
    ir_trace_id := ir_trace_id r; ir_limits := []; ir_stages := []; ir_provenance := no_provenance;
    ir_causation_id := None; ir_attributes := [] |} in
  float_repr score = "0.30000000000000004" /\
  report_of (pg_verify true NoFault true sample_signer
    (@pg_append_intent lossy _ _ true NoFault sample_signer db_init 10000000 r').2 sample_segment (fz 60)) =
    Some (BROKEN, Some 0%Z, "indexed column disagrees with the signed record: risk_score").
Proof. split; vm_compute; reflexivity. Qed.
