(* ===== verification/Calendar.v ===== *)
(** * Days to dates ([_civil_from_days] of [glassbox/adapters/outbound/delta/rows.py])

    The date of a day number, which names the partition a Bronze row is in, and
    that it counts the days of the Gregorian calendar one by one. *)

From stdpp Require Import base tactics list strings.
From Stdlib Require Import ZArith Lia Floats.SpecFloat.
From S2P Require Import Prelude PyFloat PyStr.

Open Scope Z_scope.

(** [_civil_from_days] before it is written out. *)
Definition civil_from_days (days : Z) : Z * Z * Z :=
  let z := days + 719468 in
  let era := if 0 <=? z then z / 146097 else (z - 146096) / 146097 in
  let doe := z - era * 146097 in
  let yoe := (doe - doe / 1460 + doe / 36524 - doe / 146096) / 365 in
  let y := yoe + era * 400 in
  let doy := doe - (365 * yoe + yoe / 4 - yoe / 100) in
  let mp := (5 * doy + 2) / 153 in
  let d := doy - (153 * mp + 2) / 5 + 1 in
  let m := if mp <? 10 then mp + 3 else mp - 9 in
  (if m <=? 2 then y + 1 else y, m, d).

(** ** The calendar *)

Definition leap (y : Z) : bool := (y mod 4 =? 0) && negb (y mod 100 =? 0) || (y mod 400 =? 0).

Definition month_length (y m : Z) : Z :=
  if m =? 2 then (if leap y then 29 else 28)
  else if (m =? 4) || (m =? 6) || (m =? 9) || (m =? 11) then 30 else 31.

Definition next_day (date : Z * Z * Z) : Z * Z * Z :=
  let '(y, m, d) := date in
  if d <? month_length y m then (y, m, d + 1)
  else if m <? 12 then (y, m + 1, 1)
  else (y + 1, 1, 1).

(** ** Years from March *)

Definition year_of_era (doe : Z) : Z := (doe - doe / 1460 + doe / 36524 - doe / 146096) / 365.
Definition year_start (y : Z) : Z := 365 * y + y / 4 - y / 100.
Definition month_day (doy : Z) : Z * Z :=
  let mp := (5 * doy + 2) / 153 in
  (if mp <? 10 then mp + 3 else mp - 9, doy - (153 * mp + 2) / 5 + 1).

(** The date of a day of a year that starts in March. *)
Definition from_march (y doy : Z) : Z * Z * Z :=
  let '(m, d) := month_day doy in (if m <=? 2 then y + 1 else y, m, d).

Lemma year_of_era_mono a b : 0 <= a <= b -> b < 146097 -> year_of_era a <= year_of_era b.
Proof.
  intros H Hb. unfold year_of_era. apply Z.div_le_mono; [lia|]. Z.to_euclidean_division_equations. lia.
Qed.

Definition zs (n : nat) : list Z := map Z.of_nat (seq 0 n).
Lemma in_zs n x : 0 <= x < Z.of_nat n -> In x (zs n).
Proof. intros Hx. unfold zs. apply in_map_iff. exists (Z.to_nat x). rewrite in_seq. lia. Qed.

(** The last day of a year counted from March, of era year [y]. *)
Definition last_day (y : Z) : Z := if y =? 399 then 146096 else year_start (y + 1) - 1.

Lemma year_bounds y :
  0 <= y < 400 -> year_of_era (year_start y) = y /\ year_of_era (last_day y) = y /\
  last_day y - year_start y = (if leap (y + 1) then 365 else 364).
Proof.
  intros Hy. assert (forallb (fun y => (year_of_era (year_start y) =? y) && (year_of_era (last_day y) =? y) &&
    (last_day y - year_start y =? (if leap (y + 1) then 365 else 364))) (zs 400) = true) as Hall by (vm_compute; reflexivity).
  rewrite forallb_forall in Hall. specialize (Hall y (in_zs 400 y Hy)). rewrite !andb_true_iff, !Z.eqb_eq in Hall. tauto.
Qed.

Lemma year_start_bounds y : 0 <= y < 400 -> 0 <= year_start y <= 146096.
Proof. intros Hy. unfold year_start. Z.to_euclidean_division_equations. lia. Qed.

(** A day of an era is in the year [year_of_era] gives. *)
Lemma day_in_year doe : 0 <= doe < 146097 ->
  0 <= year_of_era doe < 400 /\ year_start (year_of_era doe) <= doe <= last_day (year_of_era doe).
Proof.
  intros Hd. assert (0 <= year_of_era doe < 400) as Hy.
  { pose proof (year_of_era_mono 0 doe ltac:(lia) ltac:(lia)) as H0. pose proof (year_of_era_mono doe 146096 ltac:(lia) ltac:(lia)) as H1.
    change (year_of_era 0) with 0 in H0. change (year_of_era 146096) with 399 in H1. lia. }
  split; [done|]. set (y := year_of_era doe) in *. split.
  - destruct (Z.le_gt_cases (year_start y) doe) as [|Hlt]; [done|]. exfalso.
    assert (0 < y) by (destruct (Z.eq_dec y 0) as [E|]; [rewrite E in Hlt; change (year_start 0) with 0 in Hlt; lia|lia]).
    destruct (year_bounds (y - 1)) as (_ & Hl & _); [lia|].
    assert (last_day (y - 1) = year_start y - 1) as Hlast.
    { unfold last_day. destruct (Z.eqb_spec (y - 1) 399); [lia|]. by rewrite Z.sub_add. }
    pose proof (year_start_bounds y Hy). pose proof (year_of_era_mono doe (last_day (y - 1)) ltac:(lia) ltac:(lia)). lia.
  - destruct (Z.le_gt_cases doe (last_day y)) as [|Hlt]; [done|]. exfalso.
    destruct (Z.eq_dec y 399) as [E|Hne]; [rewrite E in Hlt; change (last_day 399) with 146096 in Hlt; lia|].
    destruct (year_bounds (y + 1)) as (Hs & _); [lia|].
    assert (last_day y = year_start (y + 1) - 1) as Hlast by (unfold last_day; destruct (Z.eqb_spec y 399); lia).
    pose proof (year_start_bounds (y + 1) ltac:(lia)). pose proof (year_of_era_mono (year_start (y + 1)) doe ltac:(lia) ltac:(lia)). lia.
Qed.

(** The day after, within a year counted from March. *)
Lemma from_march_next y doy : 0 <= doy < (if leap (y + 1) then 365 else 364) ->
  from_march y (doy + 1) = next_day (from_march y doy).
Proof.
  intros Hd.
  assert (forallb (fun doy => let '(m, d) := month_day doy in let '(m', d') := month_day (doy + 1) in
    if (doy =? 364) then (m =? 2) && (d =? 28) && (m' =? 2) && (d' =? 29)
    else ((m =? 2) && (d <? 28) && (m' =? 2) && (d' =? d + 1)) ||
         negb (m =? 2) && (if d <? (if (m =? 4) || (m =? 6) || (m =? 9) || (m =? 11) then 30 else 31)
                           then (m' =? m) && (d' =? d + 1)
                           else (d' =? 1) && (m' =? (if m <? 12 then m + 1 else 1)))) (zs 365) = true) as Hall
    by (vm_compute; reflexivity).
  rewrite forallb_forall in Hall. specialize (Hall doy (in_zs 365 doy ltac:(destruct (leap _); lia))).
  unfold from_march, next_day, month_length. destruct (month_day doy) as [m d], (month_day (doy + 1)) as [m' d'].
  destruct (Z.eqb_spec doy 364) as [->|Hne].
  - rewrite !andb_true_iff, !Z.eqb_eq in Hall. destruct Hall as [[[-> ->] ->] ->]. cbn.
    destruct (leap (y + 1)); [done|lia].
  - destruct (Z.eqb_spec m 2) as [->|Hm]; cbn [negb andb orb] in Hall.
    + rewrite orb_false_r, !andb_true_iff, !Z.eqb_eq, Z.ltb_lt in Hall. destruct Hall as [[Hd' ->] ->]. cbn.
      assert ((d <? 28) = true /\ (d <? 29) = true) as [E28 E29] by (rewrite !Z.ltb_lt; lia).
      destruct (leap (y + 1)); [by rewrite E29|by rewrite E28].
    + destruct (d <? _); rewrite andb_true_iff, !Z.eqb_eq in Hall; destruct Hall as [-> ->]; [done|].
      destruct (Z.ltb_spec m 12) as [Hlt|Hge].
      * destruct (Z.leb_spec (m + 1) 2), (Z.leb_spec m 2); try done; lia.
      * cbn. destruct (Z.leb_spec m 2); [lia|done].
Qed.

Lemma from_march_last y : next_day (from_march y (if leap (y + 1) then 365 else 364)) = (y + 1, 3, 1).
Proof.
  destruct (leap (y + 1)) eqn:E; [change (from_march y 365) with (y + 1, 2, 29)|change (from_march y 364) with (y + 1, 2, 28)];
    unfold next_day, month_length; by rewrite E.
Qed.

Lemma from_march_first y : from_march y 0 = (y, 3, 1).
Proof. done. Qed.

Lemma civil_split era doe : 0 <= era -> 0 <= doe < 146097 ->
  civil_from_days (era * 146097 + doe - 719468) =
  from_march (year_of_era doe + era * 400) (doe - year_start (year_of_era doe)).
Proof.
  intros He Hd. unfold civil_from_days. replace (era * 146097 + doe - 719468 + 719468) with (era * 146097 + doe) by lia.
  destruct (Z.leb_spec 0 (era * 146097 + doe)); [|lia].
  rewrite Z.div_add_l, (Z.div_small doe) by lia. replace (era * 146097 + doe - (era + 0) * 146097) with doe by lia.
  rewrite Z.add_0_r. done.
Qed.

Lemma leap_era y era : leap (y + era * 400) = leap y.
Proof.
  unfold leap. replace (y + era * 400) with (y + (era * 100) * 4) at 1 by lia. rewrite Z.mod_add by lia.
  replace (y + era * 400) with (y + (era * 4) * 100) at 1 by lia. rewrite Z.mod_add by lia. by rewrite Z.mod_add.
Qed.

(** C40.  The day numbers count the Gregorian calendar: the day 0 is the first
    of January 1970, and from the first of March of the year 0 on, the date of
    each day is the one the calendar - months of their lengths, February by the
    leap-year rule, December followed by January - puts after the date of the
    day before.  So the partition of a row is the UTC day it was created on. *)
Theorem civil_counts_days days :
  -719468 <= days -> civil_from_days 0 = (1970, 1, 1) /\ civil_from_days (days + 1) = next_day (civil_from_days days).
Proof.
  intros Hdays. split; [done|]. set (z := days + 719468).
  pose proof (Z.div_mod z 146097 ltac:(lia)) as Hz. pose proof (Z.mod_pos_bound z 146097 ltac:(lia)) as Hdoe.
  assert (0 <= z / 146097) as Hera by (apply Z.div_pos; lia). set (era := z / 146097) in *. set (doe := z mod 146097) in *.
  replace days with (era * 146097 + doe - 719468) by lia. rewrite (civil_split era doe) by lia.
  destruct (day_in_year doe Hdoe) as [Hy [Hlo Hhi]]. set (y := year_of_era doe) in *.
  destruct (year_bounds y Hy) as (_ & _ & Hlen). pose proof (leap_era (y + 1) era) as Hleap.
  replace (y + 1 + era * 400) with (y + era * 400 + 1) in Hleap by lia.
  destruct (Z.eq_dec doe (last_day y)) as [Elast|Hne].
  - replace (doe - year_start y) with (if leap (y + era * 400 + 1) then 365 else 364) by (rewrite Hleap; lia).
    rewrite from_march_last. destruct (Z.eq_dec y 399) as [E|Hy399].
    + assert (doe = 146096) as -> by (rewrite E in Elast; exact Elast).
      replace (era * 146097 + 146096 - 719468 + 1) with ((era + 1) * 146097 + 0 - 719468) by lia.
      rewrite civil_split by lia. change (year_start (year_of_era 0)) with 0. change (year_of_era 0) with 0.
      rewrite from_march_first. do 2 f_equal. lia.
    + assert (doe + 1 = year_start (y + 1)) as Hnext by (unfold last_day in Elast; destruct (Z.eqb_spec y 399); lia).
      pose proof (year_start_bounds (y + 1) ltac:(lia)). destruct (year_bounds (y + 1)) as (Hs & _); [lia|].
      replace (era * 146097 + doe - 719468 + 1) with (era * 146097 + (doe + 1) - 719468) by lia.
      rewrite civil_split by lia. rewrite Hnext, Hs, Z.sub_diag, from_march_first. do 2 f_equal. lia.
  - assert (year_of_era (doe + 1) = y) as Hsame.
    { destruct (year_bounds y Hy) as (_ & Hl & _).
      assert (last_day y < 146097) by (unfold last_day; destruct (Z.eqb_spec y 399); [lia|];
        pose proof (year_start_bounds (y + 1) ltac:(lia)); lia).
      pose proof (year_of_era_mono doe (doe + 1) ltac:(lia) ltac:(lia)).
      pose proof (year_of_era_mono (doe + 1) (last_day y) ltac:(lia) ltac:(lia)). lia. }
    assert (doe + 1 < 146097) by (unfold last_day in *; destruct (Z.eqb_spec y 399); [lia|];
      pose proof (year_start_bounds (y + 1) ltac:(lia)); lia).
    replace (era * 146097 + doe - 719468 + 1) with (era * 146097 + (doe + 1) - 719468) by lia.
    rewrite civil_split by lia. rewrite Hsame. replace (doe + 1 - year_start y) with (doe - year_start y + 1) by lia.
    apply from_march_next. rewrite Hleap. lia.
Qed.

Lemma civil_counts_days_witness : civil_from_days (19782 + 1) = (2024, 3, 1).
Proof. destruct (civil_counts_days 19782 ltac:(lia)) as [_ ->]. vm_compute. reflexivity. Defined.

(** Before the year 0 the dates are wrong: the rounding of the era is the one of
    a division that truncates. *)
Example civil_before_year_zero :
  civil_from_days (-719469) = (0, 2, 29) /\ civil_from_days (-719470) <> (0, 2, 28).
Proof. vm_compute. split; [reflexivity|discriminate]. Qed.

(** ** Partitions *)

(** [f"{n:04d}"]: at least [w] characters, the sign first. *)
Definition zero_padded (w : nat) (n : Z) : string :=
  let digits := str_of_int (Z.abs n) in
  let sign := if n <? 0 then "-"%string else ""%string in
  sign +:+ str_zeros (w - String.length sign - String.length digits) +:+ digits.

Definition civil_text (days : Z) : string :=
  let '(y, m, d) := civil_from_days days in
  (zero_padded 4 y +:+ "-" +:+ zero_padded 2 m +:+ "-" +:+ zero_padded 2 d)%string.

(** [int(x // 86_400)] of a number that is not infinite: the floor of the exact
    quotient, which the division of floats gives for any timestamp. *)
Definition float_floor_div (x : float) (k : Z) : option Z :=
  match x with
  | S754_zero _ => Some 0
  | S754_finite s m e =>
      let m := if s then Zneg m else Zpos m in
      Some (if 0 <=? e then (m * 2 ^ e) / k else m / (k * 2 ^ (- e)))
  | _ => None
  end.

Definition date_partition (epoch_seconds : float) : res string :=
  match float_floor_div epoch_seconds 86400 with
  | Some days => Ok (civil_text days)
  | None => Raise PyValueError
  end.

Example partition_of_a_day :
  date_partition (fz 1753000000) = Ok "2025-07-20"%string /\ date_partition (fz 951782399) = Ok "2000-02-28"%string /\
  date_partition (fz 951782400) = Ok "2000-02-29"%string.
Proof. vm_compute. split_and!; reflexivity. Qed.
