(* ===== verification/BronzeRows.v ===== *)
(** * Bronze rows ([glassbox/adapters/outbound/delta/rows.py])

    The row a record of evidence becomes, from the record itself and from the
    document the database holds of it; both are the same row. *)

From stdpp Require Import base tactics list strings gmap sorting.
From Stdlib Require Import ZArith Lia Ascii Floats.SpecFloat.
From S2P Require Import Prelude PyFloat PyStr Serialization Json Action Identity Risk Decision Config Evidence EvidenceStore PgEvidence Calendar.

Open Scope string_scope.
Open Scope list_scope.

(** A row, in the order of its columns. *)
Abbreviation row := (list (string * json)).

Definition BRONZE_INTENT_PARTITION_COLUMNS : list string := ["tenant_id"; "cdc_date"].

Definition intent_bronze_schema : list string :=
  ["decision_id"; "segment_id"; "seq"; "tenant_id"; "cdc_date"; "created_at"; "agent_ref"; "agent_instance_id";
   "delegating_subject"; "credential_type"; "credential_id"; "action"; "resource_kind"; "resource_id";
   "consequence_class"; "idempotency_key"; "policy_bundle_id"; "policy_bundle_sha256"; "decision_effect"; "reasons_csv";
   "risk_model_ver"; "risk_score"; "risk_level"; "exposure_monetary"; "exposure_records"; "blast_radius"; "trace_id";
   "causation_id"; "record_json"; "cdc_lsn"; "cdc_operation"].

Definition outcome_bronze_schema : list string :=
  ["decision_id"; "tenant_id"; "status"; "completed_at"; "result_digest"; "error_class"; "cdc_lsn"; "cdc_operation"].

Definition j_opt {A} (f : A -> json) (o : option A) : json := from_option f JNull o.

(** [json.dumps(dict(...), sort_keys=True, separators=(",", ":"), ensure_ascii=False)]. *)
Definition dumps_record (j : json) : string := dumps canonical_config j.

(** [d[k] = v]. *)
Lemma get_set_item items k v k' : dict_get (set_item items k v) k' = if (k =? k')%string then Some v else dict_get items k'.
Proof.
  induction items as [|[k0 v0] items IH]; cbn; [done|]. destruct (String.eqb_spec k0 k) as [->|Hk]; cbn.
  - by destruct (k =? k')%string.
  - rewrite IH. destruct (String.eqb_spec k0 k') as [->|]; [|done]. by destruct (String.eqb_spec k k') as [->|].
Qed.

(** ** From a record *)

Definition intent_record_to_bronze_row (r : IntentRecord) (seq : Z) (cdc_lsn cdc_operation : string) : res row :=
  let action := ir_action r in
  let decision := ir_decision r in
  let risk := ir_risk r in
  let principal := ir_principal r in
  cdc_date ← date_partition (ir_created_at r);
  evidence ← normalise "$.record" (intent_as_evidence r);
  Ok [("decision_id", JStr (ir_decision_id r)); ("segment_id", JStr (ir_segment_id r)); ("seq", JInt seq);
      ("tenant_id", JStr (ir_tenant_id r)); ("cdc_date", JStr cdc_date); ("created_at", JFloat (ir_created_at r));
      ("agent_ref", JStr (vp_agent_ref principal)); ("agent_instance_id", JStr (vp_agent_instance_id principal));
      ("delegating_subject", j_opt JStr (vp_delegating_subject principal));
      ("credential_type", JStr (credential_type_value (vp_credential_type principal)));
      ("credential_id", JStr (vp_credential_id principal)); ("action", JStr (pa_action action));
      ("resource_kind", JStr (rr_kind (pa_resource action))); ("resource_id", JStr (rr_id (pa_resource action)));
      ("consequence_class", JStr (consequence_value (pa_consequence action)));
      ("idempotency_key", JStr (pa_idempotency_key action));
      ("policy_bundle_id", j_opt JStr (ad_policy_bundle_id decision));
      ("policy_bundle_sha256", j_opt JStr (ad_policy_bundle_sha256 decision));
      ("decision_effect", JStr (effect_value (ad_effect decision)));
      ("reasons_csv", JStr (str_join "," (map denial_reason_value (ad_reasons decision))));
      ("risk_model_ver", JStr (rs_model_version risk)); ("risk_score", JFloat (rs_value risk));
      ("risk_level", JStr (risk_level_value (score_level risk)));
      ("exposure_monetary", j_opt JFloat (ex_monetary (pa_exposure action)));
      ("exposure_records", j_opt JInt (ex_records (pa_exposure action)));
      ("blast_radius", JStr (blast_value (ex_blast_radius (pa_exposure action)))); ("trace_id", JStr (ir_trace_id r));
      ("causation_id", j_opt JStr (ir_causation_id r)); ("record_json", JStr (dumps_record evidence));
      ("cdc_lsn", JStr cdc_lsn); ("cdc_operation", JStr cdc_operation)].

Definition outcome_record_to_bronze_row (r : OutcomeRecord) (tenant_id cdc_lsn cdc_operation : string) : row :=
  let outcome := or_outcome r in
  [("decision_id", JStr (or_decision_id r)); ("tenant_id", JStr tenant_id);
   ("status", JStr (execution_status_value (eo_status outcome))); ("completed_at", JFloat (eo_completed_at outcome));
   ("result_digest", j_opt JStr (eo_result_digest outcome)); ("error_class", j_opt JStr (eo_error_class outcome));
   ("cdc_lsn", JStr cdc_lsn); ("cdc_operation", JStr cdc_operation)].

(** ** From a document *)

(** [d[k]]. *)
Definition item (d : json) (k : string) : res json :=
  match d with
  | JObj items => match dict_get items k with Some v => Ok v | None => Raise PyKeyError end
  | _ => Raise PyTypeError
  end.

Definition single (c : ascii) : string := String c "".
Fixpoint chars (s : string) : list string := match s with EmptyString => [] | String c s' => single c :: chars s' end.

(** [",".join(v)]: of the texts a list holds, the characters of a text or the
    keys of a dict. *)
Definition csv (v : json) : res string :=
  match v with
  | JArr l =>
      texts ← res_map (fun x => match x with JStr s => Ok s | _ => Raise PyTypeError end) l;
      Ok (str_join "," texts)
  | JStr s => Ok (str_join "," (chars s))
  | JObj items => Ok (str_join "," (map fst items))
  | _ => Raise PyTypeError
  end.

(** [_date_partition] of a value of a document. *)
Definition date_partition_of (v : json) : res string :=
  match v with
  | JFloat x => date_partition x
  | JInt n => Ok (civil_text (n / 86400))
  | JBool b => Ok (civil_text 0)
  | _ => Raise PyTypeError
  end.

Definition intent_evidence_dict_to_bronze_row (evidence : json) (seq : json) (cdc_lsn cdc_operation : string) : res row :=
  identity ← item evidence "identity";
  action ← item evidence "action";
  policy_decision ← item evidence "policy_decision";
  risk ← item evidence "risk";
  exposure ← item action "exposure";
  decision_id ← item evidence "decision_id";
  segment_id ← item evidence "segment_id";
  tenant_id ← item evidence "tenant_id";
  created_at ← item evidence "created_at";
  cdc_date ← date_partition_of created_at;
  agent_ref ← item identity "agent_ref";
  agent_instance_id ← item identity "agent_instance_id";
  delegating_subject ← item identity "delegating_subject";
  credential_type ← item identity "credential_type";
  credential_id ← item identity "credential_id";
  action_name ← item action "action";
  resource_kind ← item action "resource_kind";
  resource_id ← item action "resource_id";
  consequence_class ← item action "consequence_class";
  idempotency_key ← item action "idempotency_key";
  policy_bundle_id ← item policy_decision "policy_bundle_id";
  policy_bundle_sha256 ← item policy_decision "policy_bundle_sha256";
  effect ← item policy_decision "effect";
  reasons ← item policy_decision "reasons";
  reasons_csv ← csv reasons;
  risk_model_ver ← item risk "risk_model_ver";
  risk_score ← item risk "risk_score";
  risk_level ← item risk "risk_level";
  monetary ← item exposure "monetary";
  records ← item exposure "records";
  blast_radius ← item exposure "blast_radius";
  trace_id ← item evidence "trace_id";
  causation_id ← item evidence "causation_id";
  Ok [("decision_id", decision_id); ("segment_id", segment_id); ("seq", seq); ("tenant_id", tenant_id);
      ("cdc_date", JStr cdc_date); ("created_at", created_at); ("agent_ref", agent_ref);
      ("agent_instance_id", agent_instance_id); ("delegating_subject", delegating_subject);
      ("credential_type", credential_type); ("credential_id", credential_id); ("action", action_name);
      ("resource_kind", resource_kind); ("resource_id", resource_id); ("consequence_class", consequence_class);
      ("idempotency_key", idempotency_key); ("policy_bundle_id", policy_bundle_id);
      ("policy_bundle_sha256", policy_bundle_sha256); ("decision_effect", effect); ("reasons_csv", JStr reasons_csv);
      ("risk_model_ver", risk_model_ver); ("risk_score", risk_score); ("risk_level", risk_level);
      ("exposure_monetary", monetary); ("exposure_records", records); ("blast_radius", blast_radius);
      ("trace_id", trace_id); ("causation_id", causation_id); ("record_json", JStr (dumps_record evidence));
      ("cdc_lsn", JStr cdc_lsn); ("cdc_operation", JStr cdc_operation)].

Definition outcome_evidence_dict_to_bronze_row (evidence : json) (tenant_id : option string) (cdc_lsn cdc_operation : string)
    : res row :=
  decision_id ← item evidence "decision_id";
  status ← item evidence "status";
  completed_at ← item evidence "completed_at";
  result_digest ← item evidence "result_digest";
  error_class ← item evidence "error_class";
  Ok [("decision_id", decision_id); ("tenant_id", j_opt JStr tenant_id); ("status", status); ("completed_at", completed_at);
      ("result_digest", result_digest); ("error_class", error_class); ("cdc_lsn", JStr cdc_lsn);
      ("cdc_operation", JStr cdc_operation)].

(** ** Both are the same row *)

(** A field of a record, read off a document equal to its evidence up to the
    order of keys: [y] is how the field is written. *)
Lemma read_leaf path l j items k x y :
  NoDup (map fst l) -> normalise path (pdict l) = Ok j -> sort_keys (JObj items) = sort_keys j -> (k, x) ∈ l ->
  (forall p z, normalise p x = Ok z -> z = y) -> (forall v, sort_keys v = sort_keys y -> v = y) ->
  item (JObj items) k = Ok y.
Proof.
  intros Hnd Hn Hs Hin Hy Hv. destruct (document_field _ _ _ _ _ _ Hnd Hn Hs Hin) as (? & v & z & [= <-] & Hg & Hz & Hsz).
  cbn. rewrite Hg. f_equal. apply Hv. by rewrite <-(Hy _ _ Hz).
Qed.

Lemma leaf_str p s z : normalise p (PStr s) = Ok z -> z = JStr s.
Proof. by intros [= <-]. Qed.
Lemma leaf_float p x z : normalise p (PFloat x) = Ok z -> z = JFloat x.
Proof. cbn. destruct (isfinite x); [by intros [= <-]|done]. Qed.
Lemma leaf_opt {A} (f : A -> pyval) (g : A -> json) o :
  (forall p a z, normalise p (f a) = Ok z -> z = g a) -> forall p z, normalise p (p_opt f o) = Ok z -> z = j_opt g o.
Proof. intros Hf p z. destruct o; cbn; [apply Hf|by intros [= <-]]. Qed.
Lemma leaf_int p n z : normalise p (PInt n) = Ok z -> z = JInt n.
Proof. by intros [= <-]. Qed.

(** Values without keys to sort. *)
Lemma flat_str v s : sort_keys v = sort_keys (JStr s) -> v = JStr s.
Proof. by destruct v. Qed.
Lemma flat_float v x : sort_keys v = sort_keys (JFloat x) -> v = JFloat x.
Proof. by destruct v. Qed.
Lemma flat_opt {A} (g : A -> json) o v :
  (forall a v, sort_keys v = sort_keys (g a) -> v = g a) -> sort_keys v = sort_keys (j_opt g o) -> v = j_opt g o.
Proof. intros Hg. destruct o; cbn; [apply Hg|by destruct v]. Qed.
Lemma flat_int v n : sort_keys v = sort_keys (JInt n) -> v = JInt n.
Proof. by destruct v. Qed.
Lemma leaf_strs p l z : normalise p (p_strs l) = Ok z -> z = JArr (map JStr l).
Proof.
  unfold p_strs. cbn [normalise]. intros Hz. apply bind_ok in Hz as (zs & Hl & [= <-]). f_equal. revert Hl. generalize 0%nat as n.
  revert zs. induction l as [|s l IH]; intros zs n; cbn; [by intros [= <-]|].
  intros Hl. apply bind_ok in Hl as (ys & Hl%IH & [= <-]). by rewrite Hl.
Qed.

Lemma flat_strs v l : sort_keys v = sort_keys (JArr (map JStr l)) -> v = JArr (map JStr l).
Proof.
  destruct v as [| | | | |vs|]; try done. cbn. intros [= Hl]. f_equal. rewrite map_map in Hl. cbn in Hl. revert vs Hl.
  induction l as [|s l IH]; intros [|v vs]; cbn; try done. intros [= Hv Hl]. f_equal; [by destruct v|by apply IH].
Qed.

Lemma csv_strs l : csv (JArr (map JStr l)) = Ok (str_join "," l).
Proof.
  cbn. assert (res_map (fun x => match x with JStr s => Ok s | _ => Raise PyTypeError end) (map JStr l) = Ok l) as ->; [|done].
  induction l as [|s l IH]; [done|]. cbn. fold (res_map (fun x => match x with JStr s => Ok s | _ => Raise PyTypeError end)).
  by rewrite IH.
Qed.

Lemma leaf_str_opt p o z : normalise p (p_str_opt o) = Ok z -> z = j_opt JStr o.
Proof. apply (leaf_opt PStr JStr). intros ???. apply leaf_str. Qed.
Lemma flat_str_opt o v : sort_keys v = sort_keys (j_opt JStr o) -> v = j_opt JStr o.
Proof. apply flat_opt. intros a ?. apply flat_str. Qed.
Lemma leaf_float_opt p o z : normalise p (p_opt PFloat o) = Ok z -> z = j_opt JFloat o.
Proof. apply (leaf_opt PFloat JFloat). intros ???. apply leaf_float. Qed.
Lemma flat_float_opt o v : sort_keys v = sort_keys (j_opt JFloat o) -> v = j_opt JFloat o.
Proof. apply flat_opt. intros a ?. apply flat_float. Qed.
Lemma leaf_int_opt p o z : normalise p (p_opt PInt o) = Ok z -> z = j_opt JInt o.
Proof. apply (leaf_opt PInt JInt). intros ???. apply leaf_int. Qed.
Lemma flat_int_opt o v : sort_keys v = sort_keys (j_opt JInt o) -> v = j_opt JInt o.
Proof. apply flat_opt. intros a ?. apply flat_int. Qed.

Create HintDb leaves.
#[export] Hint Resolve leaf_str leaf_float leaf_str_opt leaf_float_opt leaf_int_opt leaf_strs : leaves.
#[export] Hint Resolve flat_str flat_float flat_str_opt flat_float_opt flat_int_opt flat_strs : leaves.

(** Reads the next field off the document [Hs] of the dict [Hn]. *)
Ltac member_of_literal := first [apply list_elem_of_here | apply list_elem_of_further; member_of_literal].
Ltac read_field Hnd Hn Hs :=
  match type of Hs with sort_keys (JObj ?it) = _ =>
    match goal with |- (item (JObj it) ?k ≫= _) = _ =>
      let Hf := fresh in
      eassert (item (JObj it) k = Ok _) as Hf
        by (eapply (read_leaf _ _ _ it k _ _ Hnd Hn Hs); [member_of_literal|eauto with leaves|eauto with leaves]);
      rewrite Hf; cbn [mbind res_bind]; clear Hf
    end
  end.

Definition same_document (evidence : pyval) (j : json) (items : list (string * json)) : Prop :=
  normalise "$.record" evidence = Ok j /\ sort_keys (JObj items) = sort_keys j.

Lemma intent_row_of_document r j items seq lsn op :
  same_document (intent_as_evidence r) j items ->
  intent_evidence_dict_to_bronze_row (JObj items) (JInt seq) lsn op = intent_record_to_bronze_row r seq lsn op.
Proof.
  intros [Hj Hs]. unfold intent_record_to_bronze_row. rewrite Hj. unfold intent_as_evidence in Hj.
  match type of Hj with normalise _ (pdict ?l) = _ => assert (NoDup (map fst l)) as Hk by literal_keys end.
  destruct (document_dict _ _ _ _ "identity" (principal_as_evidence (ir_principal r)) Hk Hj Hs) as (ii & ji & Hi & Hji & Hsi);
    [by repeat constructor|].
  destruct (document_dict _ _ _ _ "action" (action_as_evidence (ir_action r)) Hk Hj Hs) as (ia & ja & Ha & Hja & Hsa);
    [by repeat constructor|].
  destruct (document_dict _ _ _ _ "risk" (risk_score_as_evidence (ir_risk r)) Hk Hj Hs) as (ik & jk & Hr & Hjk & Hsk);
    [by repeat constructor|].
  unfold decision_as_evidence in Hj.
  match type of Hj with context [("policy_decision", pdict ?l)] =>
    destruct (document_dict _ _ _ _ "policy_decision" l Hk Hj Hs) as (id & jd & Hd & Hjd & Hsd); [by repeat constructor|];
    assert (NoDup (map fst l)) as Hkd by (destruct (ad_approval_id _), (ad_approval_state _); literal_keys) end.
  assert (NoDup (map fst (principal_as_evidence (ir_principal r)))) as Hki by literal_keys.
  assert (NoDup (map fst (action_as_evidence (ir_action r)))) as Hka by literal_keys.
  assert (NoDup (map fst (risk_score_as_evidence (ir_risk r)))) as Hkr by literal_keys.
  destruct (document_dict _ _ _ _ "exposure" (exposure_as_evidence (pa_exposure (ir_action r))) Hka Hja Hsa) as (ie & je & He & Hje & Hse);
    [by repeat constructor|].
  assert (NoDup (map fst (exposure_as_evidence (pa_exposure (ir_action r))))) as Hke by literal_keys.
  unfold intent_evidence_dict_to_bronze_row.
  assert (Hitem : forall l k v, dict_get l k = Some v -> item (JObj l) k = Ok v) by (intros l k v Hv; cbn; by rewrite Hv).
  rewrite (Hitem _ _ _ Hi), (Hitem _ _ _ Ha), (Hitem _ _ _ Hd), (Hitem _ _ _ Hr). cbn [mbind res_bind].
  rewrite (Hitem _ _ _ He). cbn [mbind res_bind].
  do 4 read_field Hk Hj Hs. change (date_partition_of (JFloat (ir_created_at r))) with (date_partition (ir_created_at r)).
  destruct (date_partition _) as [date|]; cbn [mbind res_bind]; [|done].
  do 5 read_field Hki Hji Hsi. do 5 read_field Hka Hja Hsa. do 4 read_field Hkd Hjd Hsd. rewrite csv_strs. cbn [mbind res_bind].
  do 3 read_field Hkr Hjk Hsk. do 3 read_field Hke Hje Hse. do 2 read_field Hk Hj Hs. unfold dumps_record, dumps. by rewrite Hs.
Qed.

(** The row of a change event is the row of the record: flattening the
    document the database gives back for an intent - any document equal to the
    record's evidence up to the order of keys - yields the same Bronze row as
    flattening the record, column by column and with the same record text, or
    the same error. *)
Theorem intent_rows_agree r j items seq lsn op :
  same_document (intent_as_evidence r) j items ->
  intent_evidence_dict_to_bronze_row (JObj items) (JInt seq) lsn op = intent_record_to_bronze_row r seq lsn op.
Proof. apply intent_row_of_document. Qed.

Definition items_of (evidence : pyval) : list (string * json) :=
  match normalise "$.record" evidence with Ok (JObj items) => items | _ => [] end.

Lemma intent_rows_agree_witness :
  intent_evidence_dict_to_bronze_row (JObj (rev (items_of (intent_as_evidence (sample_intent "d1"))))) (JInt 7) "12" "insert" =
  intent_record_to_bronze_row (sample_intent "d1") 7 "12" "insert".
Proof.
  apply (intent_rows_agree (sample_intent "d1") (JObj (items_of (intent_as_evidence (sample_intent "d1"))))).
  split; vm_compute; reflexivity.
Defined.

Lemma outcome_rows_agree r j items tenant lsn op :
  same_document (outcome_record_as_evidence r) j items ->
  outcome_evidence_dict_to_bronze_row (JObj items) (Some tenant) lsn op = Ok (outcome_record_to_bronze_row r tenant lsn op).
Proof.
  intros [Hj Hs]. unfold outcome_record_as_evidence in Hj.
  match type of Hj with normalise _ (pdict ?l) = _ => assert (NoDup (map fst l)) as Hk by literal_keys end.
  unfold outcome_evidence_dict_to_bronze_row. by do 5 read_field Hk Hj Hs.
Qed.

(** The columns are those of the schemas, in order. *)
Lemma intent_row_columns r seq lsn op row :
  intent_record_to_bronze_row r seq lsn op = Ok row -> map fst row = intent_bronze_schema.
Proof.
  unfold intent_record_to_bronze_row. intros Hr. apply bind_ok in Hr as (? & _ & Hr). apply bind_ok in Hr as (? & _ & [= <-]). done.
Qed.

Lemma outcome_row_columns r tenant lsn op : map fst (outcome_record_to_bronze_row r tenant lsn op) = outcome_bronze_schema.
Proof. done. Qed.
