(* ===== verification/Medallion.v ===== *)
(** * The evidence lake ([glassbox/adapters/outbound/delta/])

    The Bronze writer, the consumer that lands change events in it and moves a
    checkpoint, and the Silver merger.  The [deltalake] package is a class of
    the operations used, with what it documents as laws on the rows of the
    tables.  A consumer that may stop at any point lands every event of a
    source that can be asked again, once; of a source that gives each event out
    once it loses exactly the batches it stopped on before writing them. *)

From stdpp Require Import base tactics list strings gmap.
From Stdlib Require Import ZArith Lia Ascii Floats.SpecFloat.
From S2P Require Import Prelude PyFloat PyStr Serialization Config BronzeRows.

Open Scope string_scope.
Open Scope list_scope.

(** ** Delta tables *)

(** The text of a column, when it holds one. *)
Definition text_of (key : string) (r : row) : option string :=
  match dict_get r key with Some (JStr s) => Some s | _ => None end.

(** [target.key = source.key]: no match for a missing value. *)
Definition same_key (key : string) (a b : row) : bool :=
  match text_of key a, text_of key b with Some x, Some y => (x =? y)%string | _, _ => false end.

Definition unmatched (key : string) (target source : list row) : list row :=
  List.filter (fun s => negb (existsb (same_key key s) target)) source.

(** [when_matched_update_all] for a source with one row per key. *)
Definition updated (key : string) (source : list row) (t : row) : row := default t (List.find (same_key key t) source).

Class DeltaLake (T : Type) := {
  table_rows : T -> string -> option (list row);
  write_append : T -> string -> list row -> T;
  merge_insert : T -> string -> string -> list row -> T * Z;
  merge_upsert : T -> string -> string -> list row -> T * (Z * Z)
}.

Definition columns (r : row) : list string := map fst r.

Class DeltaLaws (T : Type) `{DeltaLake T} := {
  write_spec : forall t p rows, exists rows',
    table_rows (write_append t p rows) p = Some rows' /\ rows' ≡ₚ default [] (table_rows t p) ++ rows;
  write_frame : forall t p rows p', p' <> p -> table_rows (write_append t p rows) p' = table_rows t p';
  insert_spec : forall t p key source target, table_rows t p = Some target ->
    let '(t', n) := merge_insert t p key source in
    n = Z.of_nat (length (unmatched key target source)) /\
    exists rows', table_rows t' p = Some rows' /\ rows' ≡ₚ target ++ unmatched key target source;
  insert_frame : forall t p key source p', p' <> p -> table_rows (merge_insert t p key source).1 p' = table_rows t p';
  upsert_spec : forall t p key source target, table_rows t p = Some target -> NoDup (map (text_of key) source) ->
    (forall a b, a ∈ target -> b ∈ source -> columns a = columns b) ->
    let '(t', (inserted, changed)) := merge_upsert t p key source in
    inserted = Z.of_nat (length (unmatched key target source)) /\
    changed = Z.of_nat (length (List.filter (fun r => existsb (same_key key r) source) target)) /\
    exists rows', table_rows t' p = Some rows' /\ rows' ≡ₚ map (updated key source) target ++ unmatched key target source;
  upsert_frame : forall t p key source p', p' <> p -> table_rows (merge_upsert t p key source).1 p' = table_rows t p'
}.

(** ** [DeltaBronzeWriter] *)

Record DeltaBronzeWriter := {
  bw_table_path : string;
  bw_partition_by : list string;
  bw_schema : option (list string)
}.

Definition mk_DeltaBronzeWriter (installed : bool) (table_path : string) (partition_by : list string)
    (schema : option (list string)) : res DeltaBronzeWriter :=
  if negb installed then Raise (PyException "ImportError")
  else Ok {| bw_table_path := table_path; bw_partition_by := partition_by; bw_schema := schema |}.

(** [pa.Table.from_pylist(rows, schema)]: the columns of the schema, [None] for
    those a row does not have. *)
Definition project (schema : option (list string)) (r : row) : row :=
  match schema with
  | None => r
  | Some cols => map (fun c => (c, default JNull (dict_get r c))) cols
  end.
Definition from_pylist (schema : option (list string)) (rows : list row) : list row := map (project schema) rows.

Section bronze.
Context {T : Type} `{DeltaLake T}.

Definition append_batch (w : DeltaBronzeWriter) (t : T) (rows : list row) : Z * T :=
  match rows with
  | [] => (0%Z, t)
  | _ =>
      let source := from_pylist (bw_schema w) rows in
      match table_rows t (bw_table_path w) with
      | None => (Z.of_nat (length source), write_append t (bw_table_path w) source)
      | Some _ => let '(t', n) := merge_insert t (bw_table_path w) "decision_id" source in (n, t')
      end
  end.

Definition row_count (w : DeltaBronzeWriter) (t : T) : Z :=
  Z.of_nat (length (default [] (table_rows t (bw_table_path w)))).
End bronze.

(** ** [CdcConsumer] *)

(** A source of events: those after a checkpoint, at most so many. *)
Class ChangeEventSource (S : Type) := poll : S -> option string -> Z -> res (list row) * S.

Record CdcConsumer (S T : Type) := {
  cc_source : S;
  cc_bronze : DeltaBronzeWriter;
  cc_lake : T;
  cc_checkpoints : gmap string string;
  cc_stream : string
}.
Arguments cc_source {S T}.
Arguments cc_bronze {S T}.
Arguments cc_lake {S T}.
Arguments cc_checkpoints {S T}.
Arguments cc_stream {S T}.

(** Where the process may stop. *)
Inductive crash := NoCrash | AfterPoll | AfterAppend.

Section consumer.
Context {S T : Type} `{ChangeEventSource S} `{DeltaLake T}.

Definition with_source (c : CdcConsumer S T) (s : S) : CdcConsumer S T :=
  {| cc_source := s; cc_bronze := cc_bronze c; cc_lake := cc_lake c; cc_checkpoints := cc_checkpoints c;
     cc_stream := cc_stream c |}.
Definition with_lake (c : CdcConsumer S T) (t : T) : CdcConsumer S T :=
  {| cc_source := cc_source c; cc_bronze := cc_bronze c; cc_lake := t; cc_checkpoints := cc_checkpoints c;
     cc_stream := cc_stream c |}.
Definition set_checkpoint (c : CdcConsumer S T) (checkpoint : string) : CdcConsumer S T :=
  {| cc_source := cc_source c; cc_bronze := cc_bronze c; cc_lake := cc_lake c;
     cc_checkpoints := <[cc_stream c := checkpoint]> (cc_checkpoints c); cc_stream := cc_stream c |}.

(** [None] is a process that stopped. *)
Definition poll_and_land (crashed : crash) (c : CdcConsumer S T) (batch_size : Z)
    : option (res (Z * Z)) * CdcConsumer S T :=
  let '(events, s) := poll (cc_source c) (cc_checkpoints c !! cc_stream c) batch_size in
  let c := with_source c s in
  match events with
  | Raise e => (Some (Raise e), c)
  | Ok [] => (Some (Ok (0, 0)%Z), c)
  | Ok events =>
      match crashed with
      | AfterPoll => (None, c)
      | _ =>
          let '(inserted, t) := append_batch (cc_bronze c) (cc_lake c) events in
          let c := with_lake c t in
          match crashed with
          | AfterAppend => (None, c)
          | _ =>
              let c := match last events ≫= text_of "cdc_lsn" with
                       | Some checkpoint => set_checkpoint c checkpoint
                       | None => c
                       end in
              (Some (Ok (Z.of_nat (length events), inserted)), c)
          end
      end
  end.

Definition run_once (crashed : crash) (c : CdcConsumer S T) (batch_size : Z) : option (res Z) * CdcConsumer S T :=
  let '(r, c) := poll_and_land crashed c batch_size in
  (match r with
   | None => None
   | Some (Raise e) => Some (Raise e)
   | Some (Ok (_, inserted)) => Some (Ok inserted)
   end, c).

Fixpoint run_until_drained (c : CdcConsumer S T) (batch_size : Z) (max_batches : nat) (total : Z)
    : res Z * CdcConsumer S T :=
  match max_batches with
  | O => (Ok total, c)
  | Datatypes.S n =>
      match poll_and_land NoCrash c batch_size with
      | (Some (Ok (events_seen, inserted)), c) =>
          if (events_seen =? 0)%Z then (Ok total, c)
          else run_until_drained c batch_size n (total + inserted)
      | (Some (Raise e), c) => (Raise e, c)
      | (None, c) => (Ok total, c)
      end
  end.

(** Runs of the consumer, each of which may stop. *)
Fixpoint run_crashing (c : CdcConsumer S T) (batch_size : Z) (crashes : list crash) : CdcConsumer S T :=
  match crashes with
  | [] => c
  | x :: rest => run_crashing (run_once x c batch_size).2 batch_size rest
  end.

(** What a run polled and did not write, because it stopped in between. *)
Definition unwritten (x : crash) (c : CdcConsumer S T) (batch_size : Z) : list row :=
  match x with
  | AfterPoll =>
      match (poll (cc_source c) (cc_checkpoints c !! cc_stream c) batch_size).1 with Ok events => events | Raise _ => [] end
  | _ => []
  end.
Fixpoint all_unwritten (c : CdcConsumer S T) (batch_size : Z) (crashes : list crash) : list row :=
  match crashes with
  | [] => []
  | x :: rest => unwritten x c batch_size ++ all_unwritten (run_once x c batch_size).2 batch_size rest
  end.
End consumer.

(** ** Rows by key *)

Lemma unmatched_nil key l : unmatched key [] l = l.
Proof. unfold unmatched. induction l as [|r l IH]; [done|]. cbn. by f_equal. Qed.

Section keyed.
Variable key : string.
Variable log : list row.
Hypothesis keyed : Forall (fun r => is_Some (text_of key r)) log.
Hypothesis distinct : NoDup (map (text_of key) log).

Lemma same_key_eq a b : a ∈ log -> b ∈ log -> same_key key a b = true <-> a = b.
Proof.
  intros Ha Hb. rewrite Forall_forall in keyed. destruct (keyed a Ha) as [x Hx], (keyed b Hb) as [y Hy].
  unfold same_key. rewrite Hx, Hy, String.eqb_eq. split; [|intros ->; congruence]. intros <-.
  apply list_elem_of_lookup in Ha as [i Hi], Hb as [j Hj].
  assert (i = j) as ->; [|congruence]. eapply NoDup_lookup; [exact distinct| |]; rewrite list_lookup_fmap; [by rewrite Hi|].
  rewrite Hj. cbn. by rewrite Hx, Hy.
Qed.

Lemma matched_spec target s : (forall r, r ∈ target -> r ∈ log) -> s ∈ log -> existsb (same_key key s) target = true <-> s ∈ target.
Proof.
  intros Ht Hs. rewrite existsb_exists. split.
  - intros (r & Hr%list_elem_of_In & Hk). apply same_key_eq in Hk; [by subst|done|auto].
  - intros Hin. exists s. split; [by apply list_elem_of_In|]. by apply same_key_eq.
Qed.

Lemma unmatched_in target source :
  (forall r, r ∈ target -> r ∈ log) -> (forall r, r ∈ source -> r ∈ target) -> unmatched key target source = [].
Proof.
  intros Ht Hs. unfold unmatched. induction source as [|s source IH]; [done|]. cbn.
  assert (existsb (same_key key s) target = true) as -> by (apply matched_spec; [done|set_solver|set_solver]). cbn. set_solver.
Qed.

Lemma unmatched_out target source :
  (forall r, r ∈ target -> r ∈ log) -> (forall r, r ∈ source -> r ∈ log /\ r ∉ target) -> unmatched key target source = source.
Proof.
  intros Ht Hs. unfold unmatched. induction source as [|s source IH]; [done|]. cbn.
  destruct (Hs s ltac:(left)) as [Hin Hout]. destruct (existsb (same_key key s) target) eqn:E.
  - apply matched_spec in E; done.
  - cbn. f_equal. apply IH. set_solver.
Qed.

Lemma unmatched_perm t t' source : t ≡ₚ t' -> unmatched key t source = unmatched key t' source.
Proof.
  intros Ht. unfold unmatched. induction source as [|s source IH]; [done|]. cbn. rewrite IH.
  assert (existsb (same_key key s) t = existsb (same_key key s) t') as ->; [|done].
  apply eq_true_iff_eq. rewrite !existsb_exists. split; intros (r & Hr & Hk); exists r; (split; [|done]).
  - apply list_elem_of_In. rewrite <-Ht. by apply list_elem_of_In.
  - apply list_elem_of_In. rewrite Ht. by apply list_elem_of_In.
Qed.

Lemma log_nodup : NoDup log.
Proof. by eapply (NoDup_fmap_1 (text_of key)). Qed.

(** A batch from [n] on, into a table that holds the first [k]. *)
Lemma unmatched_batch n m k :
  n <= k <= length log ->
  take k log ++ unmatched key (take k log) (take m (drop n log)) = take (k `max` (n + m)) log.
Proof.
  intros Hk. pose proof log_nodup as Hnd.
  assert (Hin : forall r, r ∈ take k log -> r ∈ log) by (intros r Hr; by eapply subseteq_take).
  destruct (decide (n + m <= k)) as [Hle|Hgt].
  - rewrite unmatched_in; [by rewrite app_nil_r, Nat.max_l by lia|done|].
    intros r Hr. assert (take k log = take n log ++ take (k - n) (drop n log)) as ->.
    { rewrite take_take_drop. f_equal. lia. }
    apply elem_of_app. right. apply list_elem_of_lookup in Hr as [i Hi].
    apply lookup_take_Some in Hi as [Hi Hm]. apply list_elem_of_lookup. exists i. apply lookup_take_Some. split; [done|lia].
  - rewrite Nat.max_r by lia.
    assert (take m (drop n log) = take (k - n) (drop n log) ++ take (n + m - k) (drop k log)) as Hb.
    { replace (drop k log) with (drop (k - n) (drop n log)) by (rewrite drop_drop; f_equal; lia).
      rewrite take_take_drop. f_equal. lia. }
    rewrite Hb. unfold unmatched. rewrite List.filter_app. fold (unmatched key (take k log) (take (k - n) (drop n log))).
    fold (unmatched key (take k log) (take (n + m - k) (drop k log))).
    rewrite unmatched_in, unmatched_out; [| | |done|].
    + cbn. rewrite take_take_drop. f_equal. lia.
    + done.
    + intros r Hr. assert (r ∈ drop k log) as Hd by (by eapply subseteq_take). split; [by eapply subseteq_drop|].
      intros Ht. rewrite <-(take_drop k log) in Hnd. apply NoDup_app in Hnd as (_ & Hdis & _). by apply (Hdis r).
    + intros r Hr. assert (take k log = take n log ++ take (k - n) (drop n log)) as ->
        by (rewrite take_take_drop; f_equal; lia).
      apply elem_of_app. by right.
Qed.
End keyed.

(** ** Exactly once *)

(** The events after a checkpoint. *)
Fixpoint after (checkpoint : string) (log : list row) : list row :=
  match log with
  | [] => []
  | r :: rest => if bool_decide (text_of "cdc_lsn" r = Some checkpoint) then rest else after checkpoint rest
  end.
Definition pending (checkpoint : option string) (log : list row) : list row :=
  match checkpoint with None => log | Some c => after c log end.

Section exactly_once.
Context {S T : Type} `{ChangeEventSource S} `{DeltaLaws T}.
Variable log : list row.
Variable w : DeltaBronzeWriter.
Variable stream : string.
Hypothesis has_decisions : Forall (fun r => is_Some (text_of "decision_id" r)) log.
Hypothesis decisions_distinct : NoDup (map (text_of "decision_id") log).
Hypothesis has_lsns : Forall (fun r => is_Some (text_of "cdc_lsn" r)) log.
Hypothesis lsns_distinct : NoDup (map (text_of "cdc_lsn") log).
Hypothesis fits_schema : Forall (fun r => project (bw_schema w) r = r) log.

(** The source can be asked again: the answer depends on the checkpoint only. *)
Variable source : S -> Prop.
Hypothesis replayable : forall s checkpoint limit, source s ->
  exists s', poll s checkpoint limit = (Ok (take (Z.to_nat limit) (pending checkpoint log)), s') /\ source s'.

Definition checkpoint_at (n : nat) : option string :=
  match n with O => None | Datatypes.S i => log !! i ≫= text_of "cdc_lsn" end.

(** The checkpoint is after the first [n] events and the table holds the first [k]. *)
Record landed (c : CdcConsumer S T) (n k : nat) : Prop := {
  ld_source : source (cc_source c);
  ld_writer : cc_bronze c = w;
  ld_stream : cc_stream c = stream;
  ld_checkpoint : cc_checkpoints c !! stream = checkpoint_at n;
  ld_rows : default [] (table_rows (cc_lake c) (bw_table_path w)) ≡ₚ take k log;
  ld_order : n <= k <= length log
}.

Lemma after_at l n r : NoDup (map (text_of "cdc_lsn") l) -> Forall (fun r => is_Some (text_of "cdc_lsn" r)) l ->
  l !! n = Some r -> from_option (fun c => after c l) [] (text_of "cdc_lsn" r) = drop (Datatypes.S n) l.
Proof.
  revert n. induction l as [|x l IH]; intros n Hnd Hall Hr; [done|].
  apply NoDup_cons in Hnd as [Hx Hnd]. apply Forall_cons in Hall as [[lx Hlx] Hall]. destruct n as [|n]; cbn in Hr.
  - injection Hr as ->. cbn. rewrite Hlx. cbn. by rewrite bool_decide_true.
  - cbn [after]. pose proof Hr as Hin%list_elem_of_lookup_2. pose proof Hall as Hall'. rewrite Forall_forall in Hall'.
    destruct (Hall' r Hin) as [lr Hlr]. rewrite Hlr. cbn. rewrite bool_decide_false.
    + specialize (IH n Hnd Hall Hr). rewrite Hlr in IH. exact IH.
    + intros Heq. apply Hx. rewrite Heq, <-Hlr. by apply list_elem_of_fmap_2.
Qed.

Lemma pending_at n : n <= length log -> pending (checkpoint_at n) log = drop n log.
Proof.
  destruct n as [|n]; [done|]. intros Hn. destruct (lookup_lt_is_Some_2 log n ltac:(lia)) as [r Hr]. cbn [checkpoint_at].
  rewrite Hr. cbn [mbind option_bind]. pose proof (after_at log n r lsns_distinct has_lsns Hr) as Ha.
  pose proof (list_elem_of_lookup_2 _ _ _ Hr) as Hin. rewrite Forall_forall in has_lsns. destruct (has_lsns r Hin) as [c Hc].
  rewrite Hc in *. exact Ha.
Qed.

Lemma projected l : (forall r, r ∈ l -> r ∈ log) -> from_pylist (bw_schema w) l = l.
Proof.
  intros Hl. unfold from_pylist. rewrite <-(map_id l) at 2. apply map_ext_in. intros r Hr%list_elem_of_In%Hl.
  rewrite Forall_forall in fits_schema. by apply fits_schema.
Qed.

(** Landing the batch after the first [n] events. *)
Lemma append_lands t n m k :
  default [] (table_rows t (bw_table_path w)) ≡ₚ take k log -> n <= k <= length log ->
  default [] (table_rows (append_batch w t (take m (drop n log))).2 (bw_table_path w)) ≡ₚ take (k `max` (n + m)) log.
Proof.
  intros Ht Hk. pose proof (unmatched_batch "decision_id" log has_decisions decisions_distinct n m k Hk) as Hb.
  unfold append_batch. destruct (take m (drop n log)) as [|r batch] eqn:E.
  { cbn in *. rewrite app_nil_r in Hb. by rewrite <-Hb. }
  rewrite projected. 2: { intros x Hx. rewrite <-E in Hx. apply list_elem_of_lookup in Hx as [i Hi].
         apply lookup_take_Some in Hi as [Hi _]. rewrite lookup_drop in Hi. by eapply list_elem_of_lookup_2. }
  destruct (table_rows t (bw_table_path w)) as [target|] eqn:Et; cbn in Ht.
  - pose proof (insert_spec t (bw_table_path w) "decision_id" (r :: batch) target Et) as Hi.
    destruct (merge_insert _ _ _ _) as [t' c]. destruct Hi as (_ & rows & Hrows & Hperm). cbn [snd]. rewrite Hrows. cbn.
    rewrite Hperm, (unmatched_perm _ _ _ _ Ht). by rewrite Ht, Hb.
  - cbn [snd]. destruct (write_spec t (bw_table_path w) (r :: batch)) as (rows & Hrows & Hperm). rewrite Hrows. cbn.
    rewrite Et in Hperm. cbn in Hperm. rewrite Hperm, <-Hb.
    apply Permutation_nil in Ht. rewrite Ht. by rewrite unmatched_nil.
Qed.

(** The checkpoint a batch moves to. *)
Lemma last_checkpoint n m batch :
  batch = take m (drop n log) -> batch <> [] ->
  exists cp, last batch ≫= text_of "cdc_lsn" = Some cp /\ checkpoint_at (n + length batch) = Some cp.
Proof.
  intros -> Hne. set (len := length (take m (drop n log))).
  assert (0 < len) as Hpos by (unfold len; destruct (take m (drop n log)); [done|cbn; lia]).
  assert (len <= m /\ len <= length log - n) as [Hm Hl] by (unfold len; rewrite length_take, length_drop; lia).
  rewrite last_lookup. fold len. rewrite lookup_take, decide_True by lia. rewrite lookup_drop.
  destruct (lookup_lt_is_Some_2 log (n + pred len)) as [z Hz]; [lia|]. rewrite Hz. cbn [mbind option_bind].
  replace (n + len) with (Datatypes.S (n + pred len)) by lia. cbn [checkpoint_at]. rewrite Hz. cbn [mbind option_bind].
  rewrite Forall_forall in has_lsns. destruct (has_lsns z) as [cp Hcp]; [by eapply list_elem_of_lookup_2|]. by exists cp.
Qed.

Lemma step_lands crashed c batch_size n k :
  landed c n k -> (1 <= batch_size)%Z ->
  let '(r, c') := poll_and_land crashed c batch_size in
  let seen := length (take (Z.to_nat batch_size) (drop n log)) in
  match r with
  | None => exists k', k <= k' /\ landed c' n k'
  | Some (Ok (events, inserted)) => events = Z.of_nat seen /\ landed c' (n + seen) (k `max` (n + seen))
  | Some (Raise _) => False
  end.
Proof.
  intros [Hs Hw Hst Hcp Hrows Hord] Hb. unfold poll_and_land. rewrite Hst, Hcp.
  destruct (replayable (cc_source c) (checkpoint_at n) batch_size Hs) as (s' & -> & Hs'). rewrite pending_at by lia.
  remember (take (Z.to_nat batch_size) (drop n log)) as batch eqn:Hbatch.
  assert (Hlen : length batch <= length log - n) by (subst; rewrite length_take, length_drop; lia).
  assert (Hap : default [] (table_rows (append_batch w (cc_lake c) batch).2 (bw_table_path w)) ≡ₚ take (k `max` (n + length batch)) log).
  { pose proof (append_lands (cc_lake c) n (Z.to_nat batch_size) k Hrows Hord) as Hap. rewrite <-Hbatch in Hap. rewrite Hap.
    assert (length batch = Z.to_nat batch_size `min` (length log - n)) as Hl by (subst; by rewrite length_take, length_drop).
    destruct (decide (Z.to_nat batch_size <= length log - n)) as [Hle|Hgt]; [by rewrite Hl, Nat.min_l by lia|].
    rewrite !take_ge by lia. done. }
  pose proof (last_checkpoint n _ batch Hbatch) as Hlast. clear Hbatch.
  destruct batch as [|r rest]; cbn zeta.
  { split; [done|]. cbn [length]. rewrite Nat.add_0_r, Nat.max_l by lia. by constructor. }
  destruct (Hlast ltac:(done)) as (cp & Hl & Hcp'). cbn [cc_bronze with_source cc_lake]. rewrite Hw.
  destruct crashed; [| |]; try (exists k; split; [lia|]; by constructor);
    destruct (append_batch w (cc_lake c) (r :: rest)) as [inserted t']; cbn [snd] in Hap.
  - split; [done|]. rewrite Hl. constructor; cbn; try done; [|cbn in Hlen; lia]. by rewrite Hst, lookup_insert_eq.
  - exists (k `max` (n + length (r :: rest))). split; [lia|]. constructor; cbn; try done. cbn in Hlen. lia.
Qed.

Lemma drain_lands max_batches : forall c batch_size n k total,
  landed c n k -> (1 <= batch_size)%Z -> length log - n < max_batches ->
  let '(r, c') := run_until_drained c batch_size max_batches total in
  is_ok r = true /\ landed c' (length log) (length log).
Proof.
  induction max_batches as [|fuel IH]; intros c batch_size n k total Hl Hb Hfuel; [lia|]. cbn [run_until_drained].
  pose proof (step_lands NoCrash c batch_size n k Hl Hb) as Hstep.
  assert (Hnone : (poll_and_land NoCrash c batch_size).1 <> None).
  { unfold poll_and_land. destruct (poll _ _ _) as [[[|]|] ?]; try done. by destruct (append_batch _ _ _). }
  destruct (poll_and_land NoCrash c batch_size) as [[[[events inserted]|]|] c']; [|done|done].
  destruct Hstep as [-> Hl']. pose proof (ld_order _ _ _ Hl) as Hord.
  destruct (Z.eqb_spec (Z.of_nat (length (take (Z.to_nat batch_size) (drop n log)))) 0) as [E|E].
  - split; [done|]. rewrite length_take, length_drop in E.
    assert (n = length log) as -> by lia. assert (k = length log) as -> by lia.
    rewrite length_take, length_drop in Hl'. replace (length log - length log) with 0 in Hl' by lia.
    rewrite Nat.min_0_r, Nat.add_0_r, Nat.max_id in Hl'. done.
  - eapply IH; [exact Hl'|done|]. rewrite length_take, length_drop in *. lia.
Qed.

Lemma crashing_lands crashes : forall c batch_size n k,
  landed c n k -> (1 <= batch_size)%Z -> exists n' k', landed (run_crashing c batch_size crashes) n' k'.
Proof.
  induction crashes as [|x rest IH]; intros c batch_size n k Hl Hb; [eauto|]. cbn [run_crashing].
  pose proof (step_lands x c batch_size n k Hl Hb) as Hstep. unfold run_once.
  destruct (poll_and_land x c batch_size) as [[[[events inserted]|]|] c']; cbn [snd]; [|done|].
  - destruct Hstep as [_ Hl']. by eapply IH.
  - destruct Hstep as (k' & _ & Hl'). by eapply IH.
Qed.

(** With a source that answers by the checkpoint alone, as a list of events does
    and the replication slot of [PgCdc] does not, whatever runs of the
    consumer came before - each of them finished, or stopped after the poll, or
    stopped after the write and before the checkpoint - a run that drains the
    source ends, and then the Bronze table holds the rows of the log, every one
    of them and each once. *)
Theorem cdc_lands_exactly_once c batch_size crashes max_batches :
  source (cc_source c) -> cc_bronze c = w -> cc_stream c = stream -> cc_checkpoints c !! stream = None ->
  table_rows (cc_lake c) (bw_table_path w) = None -> (1 <= batch_size)%Z -> length log < max_batches ->
  let '(r, c') := run_until_drained (run_crashing c batch_size crashes) batch_size max_batches 0 in
  is_ok r = true /\ default [] (table_rows (cc_lake c') (bw_table_path w)) ≡ₚ log.
Proof.
  intros Hs Hw Hst Hcp Hrows Hb Hmax.
  assert (landed c 0 0) as Hl by (constructor; try done; [by rewrite Hrows|lia]).
  destruct (crashing_lands crashes c batch_size 0 0 Hl Hb) as (n & k & Hl').
  pose proof (drain_lands max_batches _ batch_size n k 0 Hl' Hb ltac:(lia)) as Hd.
  destruct (run_until_drained _ _ _ _) as [r c']. destruct Hd as [Hok [_ _ _ _ Hr _]]. split; [done|].
  by rewrite firstn_all in Hr.
Qed.
End exactly_once.

(** ** A source that gives every event out once *)

Section consuming.
Context {S T : Type} `{ChangeEventSource S} `{DeltaLaws T}.
Variable log : list row.
Variable w : DeltaBronzeWriter.
Variable stream : string.
Hypothesis has_decisions : Forall (fun r => is_Some (text_of "decision_id" r)) log.
Hypothesis decisions_distinct : NoDup (map (text_of "decision_id") log).
Hypothesis fits_schema : Forall (fun r => project (bw_schema w) r = r) log.

(** A checkpoint that one of the first [n] events set. *)
Definition earlier (n : nat) (checkpoint : option string) : Prop :=
  checkpoint = None \/ exists i r, i < n /\ log !! i = Some r /\ checkpoint = text_of "cdc_lsn" r.

(** A source that gave out the first [n] events and will fail at most [k] more
    times; a failing poll gives nothing out, another gives some while there are
    any. *)
Variable source : S -> nat -> nat -> Prop.
Hypothesis gives_out : forall s n k checkpoint limit, source s n k -> earlier n checkpoint -> (1 <= limit)%Z ->
  (exists e s', poll s checkpoint limit = (Raise e, s') /\ source s' n (pred k) /\ 0 < k) \/
  (exists m s', poll s checkpoint limit = (Ok (take m (drop n log)), s') /\ source s' (n + m) (pred k) /\
     n + m <= length log /\ (n < length log -> 0 < m)).

(** The table holds what was given out, but for what is [gone]. *)
Record progress (c : CdcConsumer S T) (n k : nat) (gone : list row) : Prop := {
  pr_source : source (cc_source c) n k;
  pr_writer : cc_bronze c = w;
  pr_stream : cc_stream c = stream;
  pr_checkpoint : earlier n (cc_checkpoints c !! stream);
  pr_rows : default [] (table_rows (cc_lake c) (bw_table_path w)) ++ gone ≡ₚ take n log;
  pr_order : n <= length log
}.

Lemma earlier_mono n n' cp : earlier n cp -> n <= n' -> earlier n' cp.
Proof. intros [->|(i & r & Hi & Hr & ->)] Hn; [by left|]. right. exists i, r. split_and!; [lia|done|done]. Qed.

(** The batch a source gives out is new to the table. *)
Lemma append_new t n m gone :
  default [] (table_rows t (bw_table_path w)) ++ gone ≡ₚ take n log -> n <= length log ->
  default [] (table_rows (append_batch w t (take m (drop n log))).2 (bw_table_path w)) ++ gone ≡ₚ take (n + m) log.
Proof using H1 has_decisions decisions_distinct fits_schema.
  intros Ht Hn. rewrite <-(take_take_drop log n m). set (batch := take m (drop n log)).
  pose proof (log_nodup "decision_id" log decisions_distinct) as Hnd.
  assert (forall r, r ∈ batch -> r ∈ log /\ r ∉ take n log) as Hnew.
  { intros r Hr. assert (r ∈ drop n log) as Hd by (by eapply subseteq_take). split; [by eapply subseteq_drop|].
    intros Hin. rewrite <-(take_drop n log) in Hnd. apply NoDup_app in Hnd as (_ & Hdis & _). by apply (Hdis r). }
  assert (default [] (table_rows (append_batch w t batch).2 (bw_table_path w)) ≡ₚ
          default [] (table_rows t (bw_table_path w)) ++ batch) as Happ.
  2: { by rewrite Happ, <-app_assoc, (Permutation_app_comm batch gone), app_assoc, Ht. }
  unfold append_batch. destruct batch as [|r batch'] eqn:Eb; [by rewrite app_nil_r|]. rewrite <-Eb in *.
  assert (from_pylist (bw_schema w) batch = batch) as Hp.
  { unfold from_pylist. rewrite <-(map_id batch) at 2. apply map_ext_in. intros x Hx%list_elem_of_In.
    destruct (Hnew x Hx) as [Hin _]. rewrite Forall_forall in fits_schema. by apply fits_schema. }
  rewrite Hp. destruct (table_rows t (bw_table_path w)) as [target|] eqn:Et; cbn in Ht |- *.
  - pose proof (insert_spec t (bw_table_path w) "decision_id" batch target Et) as Hi.
    destruct (merge_insert _ _ _ _) as [t' c]. destruct Hi as (_ & rows & Hrows & Hperm). cbn [snd]. rewrite Hrows. cbn.
    rewrite Hperm, (unmatched_out "decision_id" log has_decisions decisions_distinct); [done| |].
    + intros x Hx. eapply (subseteq_take n). rewrite <-Ht. apply elem_of_app. by left.
    + intros x Hx. destruct (Hnew x Hx) as [Hin Hout]. split; [done|]. intros Hxt. apply Hout. rewrite <-Ht. apply elem_of_app. by left.
  - cbn [snd]. destruct (write_spec t (bw_table_path w) batch) as (rows & Hrows & Hperm). rewrite Hrows. cbn.
    by rewrite Et in Hperm.
Qed.

(** The checkpoint a batch sets. *)
Lemma batch_checkpoint n m cp :
  n + m <= length log -> earlier n cp ->
  earlier (n + m) (match last (take m (drop n log)) ≫= text_of "cdc_lsn" with Some c => Some c | None => cp end).
Proof.
  intros Hm Hcp. destruct (last (take m (drop n log)) ≫= text_of "cdc_lsn") as [c|] eqn:E; [|apply (earlier_mono n); [done|lia]].
  apply bind_Some in E as (r & Hr & Hc). rewrite last_lookup in Hr. apply lookup_take_Some in Hr as [Hr Hlt].
  rewrite lookup_drop in Hr. right. eexists _, r. split_and!; [|exact Hr|done]. lia.
Qed.

Lemma consume_step x c batch_size n k gone :
  progress c n k gone -> (1 <= batch_size)%Z ->
  let '(r, c') := poll_and_land x c batch_size in
  exists n', n <= n' /\ progress c' n' (pred k) (gone ++ unwritten x c batch_size) /\
    match r with
    | None => x <> NoCrash
    | Some (Raise _) => 0 < k
    | Some (Ok (seen, _)) => if (seen =? 0)%Z then n' = length log else n < n'
    end.
Proof using H1 has_decisions decisions_distinct fits_schema gives_out.
  intros [Hs Hw Hst Hcp Hrows Hn] Hb. unfold poll_and_land, unwritten. rewrite Hst.
  destruct (gives_out _ _ _ _ batch_size Hs Hcp Hb) as [(e & s' & -> & Hs' & Hk)|(m & s' & -> & Hs' & Hm & Hpos)]; cbn [fst snd].
  { exists n. split_and!; [lia| |done]. replace (gone ++ _) with gone by (by destruct x; rewrite ?app_nil_r). by constructor. }
  pose proof (append_new (cc_lake c) n m gone Hrows Hn) as Happ. pose proof (batch_checkpoint n m _ Hm Hcp) as Hck.
  assert (length (take m (drop n log)) = m) as Hlen by (rewrite length_take, length_drop; lia).
  pose proof (take_take_drop log n m) as Hsplit. remember (take m (drop n log)) as batch eqn:Hbatch. clear Hbatch.
  destruct batch as [|r rest]; cbn zeta.
  { cbn in Hlen. subst m. rewrite Nat.add_0_r in *. exists n. split_and!; [lia| |].
    - replace (gone ++ _) with gone by (by destruct x; rewrite ?app_nil_r). by constructor.
    - cbn. destruct (decide (n < length log)); [lia|]. lia. }
  assert (0 < m) as Hm0 by (rewrite <-Hlen; cbn; lia).
  assert (forall seen n' : nat, seen = m -> n' = n + m -> if (Z.of_nat seen =? 0)%Z then n' = length log else n < n') as Hseen.
  { intros seen n' -> ->. rewrite (proj2 (Z.eqb_neq _ _)) by lia. lia. }
  cbn [cc_bronze with_source cc_lake]. rewrite Hw.
  destruct x; try (destruct (append_batch w (cc_lake c) (r :: rest)) as [inserted t']; cbn [snd] in Happ); exists (n + m); rewrite ?app_nil_r.
  - split_and!; [lia| |by apply Hseen]. cbv zeta. destruct (last (r :: rest) ≫= text_of "cdc_lsn") as [cp|] eqn:El; constructor; cbn [cc_source cc_bronze cc_lake cc_checkpoints cc_stream set_checkpoint with_lake with_source]; try done;
      rewrite Hst; by rewrite ?lookup_insert_eq.
  - split_and!; [lia| |done]. constructor; cbn; try done; [apply (earlier_mono n); [done|lia]|].
    by rewrite app_assoc, Hrows, Hsplit.
  - split_and!; [lia| |done]. constructor; cbn; try done. apply (earlier_mono n); [done|lia].
Qed.

Lemma consume_runs crashes : forall c batch_size n k gone,
  progress c n k gone -> (1 <= batch_size)%Z ->
  exists n', progress (run_crashing c batch_size crashes) n' (k - length crashes) (gone ++ all_unwritten c batch_size crashes).
Proof using H1 has_decisions decisions_distinct fits_schema gives_out.
  induction crashes as [|x rest IH]; intros c batch_size n k gone Hp Hb; cbn [run_crashing all_unwritten length].
  { rewrite Nat.sub_0_r, app_nil_r. by exists n. }
  pose proof (consume_step x c batch_size n k gone Hp Hb) as Hstep. unfold run_once.
  destruct (poll_and_land x c batch_size) as [r c']. destruct Hstep as (n' & _ & Hp' & _). cbn [snd].
  rewrite app_assoc. replace (k - Datatypes.S (length rest)) with (pred k - length rest) by lia. by eapply IH.
Qed.

Lemma consume_drain max_batches : forall c batch_size n gone total,
  progress c n 0 gone -> (1 <= batch_size)%Z -> length log - n < max_batches ->
  let '(r, c') := run_until_drained c batch_size max_batches total in
  is_ok r = true /\ progress c' (length log) 0 gone.
Proof using H1 has_decisions decisions_distinct fits_schema gives_out.
  induction max_batches as [|fuel IH]; intros c batch_size n gone total Hp Hb Hfuel; [lia|]. cbn [run_until_drained].
  pose proof (consume_step NoCrash c batch_size n 0 gone Hp Hb) as Hstep.
  destruct (poll_and_land NoCrash c batch_size) as [[[[seen inserted]|e]|] c']; destruct Hstep as (n' & Hle & Hp' & Hr); [|lia|done].
  cbn [unwritten pred] in Hp'. rewrite app_nil_r in Hp'. pose proof (pr_order _ _ _ _ Hp').
  destruct (seen =? 0)%Z; [by subst n'|]. eapply IH; [exact Hp'|done|lia].
Qed.

(** Any runs, of which at most the failing polls are repeated, and a drain. *)
Lemma consumer_lands c k batch_size crashes max_batches :
  source (cc_source c) 0 k -> cc_bronze c = w -> cc_stream c = stream -> cc_checkpoints c !! stream = None ->
  table_rows (cc_lake c) (bw_table_path w) = None -> (1 <= batch_size)%Z -> k <= length crashes -> length log < max_batches ->
  let '(r, c') := run_until_drained (run_crashing c batch_size crashes) batch_size max_batches 0 in
  is_ok r = true /\
  default [] (table_rows (cc_lake c') (bw_table_path w)) ++ all_unwritten c batch_size crashes ≡ₚ log.
Proof using H1 has_decisions decisions_distinct fits_schema gives_out.
  intros Hs Hw Hst Hcp Hrows Hb Hk Hmax.
  assert (progress c 0 k []) as Hp by (constructor; try done; [by left|by rewrite Hrows|lia]).
  destruct (consume_runs crashes c batch_size 0 k [] Hp Hb) as (n & Hp'). replace (k - length crashes) with 0 in Hp' by lia.
  pose proof (consume_drain max_batches _ batch_size n _ 0 Hp' Hb ltac:(lia)) as Hd.
  destruct (run_until_drained _ _ _ _) as [r c']. destruct Hd as [Hok Hd]. split; [done|].
  pose proof (pr_rows _ _ _ _ Hd) as Hr. by rewrite firstn_all in Hr.
Qed.
End consuming.

(** ** [DeltaSilverMerger] *)

Record DeltaSilverMerger := {
  sm_intent_path : string;
  sm_outcome_path : string;
  sm_silver_path : string;
  sm_partition_by : list string
}.

Definition outcome_only_columns : list string := ["status"; "completed_at"; "result_digest"; "error_class"].

Definition drop_column (c : string) (r : row) : row := List.filter (fun kv => negb (kv.1 =? c)%string) r.

(** The name a column of the right side has in the join. *)
Definition joined_name (left : list string) (c : string) : string := if bool_decide (c ∈ left) then c +:+ "_outcome" else c.

(** The right side's columns of a row, [None] where nothing matches. *)
Definition right_side (left : list string) (o : row) : row :=
  map (fun kv => (joined_name left kv.1, kv.2)) (drop_column "decision_id" o).
Definition blank (o : row) : row := map (fun kv => (kv.1, JNull)) o.

(** [intent.join(outcome, keys="decision_id", join_type="left outer", right_suffix="_outcome")]. *)
Definition join_row (outcomes : list row) (i : row) : list row :=
  match List.filter (same_key "decision_id" i) outcomes with
  | [] => [i ++ right_side (columns i) (blank (hd [] outcomes))]
  | matches => map (fun o => i ++ right_side (columns i) o) matches
  end.

Definition silver_rows (intents : list row) (outcomes : option (list row)) : list row :=
  match outcomes with
  | Some (o :: l) => concat (map (join_row (map (drop_column "tenant_id") (o :: l))) intents)
  | _ => map (fun i => i ++ map (fun c => (c, JNull)) outcome_only_columns) intents
  end.

Section silver.
Context {T : Type} `{DeltaLake T}.

Definition silver_merge (m : DeltaSilverMerger) (t : T) : res (Z * Z) * T :=
  match table_rows t (sm_intent_path m) with
  | None => (Raise (PyException "TableNotFoundError"), t)
  | Some intents =>
      let joined := silver_rows intents (table_rows t (sm_outcome_path m)) in
      match table_rows t (sm_silver_path m) with
      | None => (Ok (Z.of_nat (length joined), 0%Z), write_append t (sm_silver_path m) joined)
      | Some _ => let '(t', counts) := merge_upsert t (sm_silver_path m) "decision_id" joined in (Ok counts, t')
      end
  end.
End silver.

(** The one row of an intent. *)
Definition silver_row (outcomes : option (list row)) (i : row) : row :=
  match outcomes with
  | Some (o :: l) =>
      let right := map (drop_column "tenant_id") (o :: l) in
      i ++ right_side (columns i) (default (blank (hd [] right)) (List.find (same_key "decision_id" i) right))
  | _ => i ++ map (fun c => (c, JNull)) outcome_only_columns
  end.

Lemma find_filter {A} (f : A -> bool) l : List.find f l = hd_error (List.filter f l).
Proof. induction l as [|x l IH]; [done|]. cbn. by destruct (f x). Qed.

Lemma filter_single key i l :
  NoDup (map (text_of key) l) -> Forall (fun r => is_Some (text_of key r)) l ->
  length (List.filter (same_key key i) l) <= 1.
Proof.
  induction l as [|r l IH]; intros Hnd Hall; [cbn; lia|]. apply NoDup_cons in Hnd as [Hr Hnd]. apply Forall_cons in Hall as [Hs Hall].
  cbn. destruct (same_key key i r) eqn:E; [|by apply IH]. cbn.
  assert (List.filter (same_key key i) l = []) as ->; [|cbn; lia].
  destruct (List.filter (same_key key i) l) as [|x k] eqn:Ef; [done|]. exfalso.
  assert (In x (List.filter (same_key key i) l)) as [Hx Hk]%List.filter_In by (rewrite Ef; by left).
  apply Hr. unfold same_key in *. destruct (text_of key i), (text_of key r) as [y|], (text_of key x) as [z|] eqn:Ex; try done.
  apply String.eqb_eq in E, Hk. subst. rewrite <-Ex. apply list_elem_of_fmap_2. by apply list_elem_of_In.
Qed.

(** With one outcome per decision, one row per intent. *)
Lemma silver_rows_single intents outcomes :
  (forall l, outcomes = Some l -> NoDup (map (text_of "decision_id") (map (drop_column "tenant_id") l)) /\
     Forall (fun r => is_Some (text_of "decision_id" r)) (map (drop_column "tenant_id") l)) ->
  silver_rows intents outcomes = map (silver_row outcomes) intents.
Proof.
  intros Ho. destruct outcomes as [[|o l]|]; [done| |done]. destruct (Ho _ eq_refl) as [Hnd Hall].
  unfold silver_rows, silver_row. set (right := map (drop_column "tenant_id") (o :: l)) in *.
  induction intents as [|i intents IH]; [done|]. cbn [map concat]. rewrite IH. unfold join_row at 1. rewrite find_filter.
  pose proof (filter_single "decision_id" i right Hnd Hall) as Hone.
  destruct (List.filter (same_key "decision_id" i) right) as [|x [|y k]]; cbn in *; [done|done|lia].
Qed.

Lemma same_key_sym key a b : same_key key a b = same_key key b a.
Proof. unfold same_key. destruct (text_of key a), (text_of key b); try done. apply String.eqb_sym. Qed.

Lemma updated_key key source t : text_of key (updated key source t) = text_of key t.
Proof.
  unfold updated. destruct (List.find (same_key key t) source) as [r|] eqn:E; [|done]. apply List.find_some in E as [_ Hk].
  unfold same_key in Hk. cbn. destruct (text_of key t), (text_of key r); try done. apply String.eqb_eq in Hk. by subst.
Qed.

Lemma updated_to key source t r :
  Forall (fun r => is_Some (text_of key r)) source -> NoDup (map (text_of key) source) -> r ∈ source ->
  same_key key t r = true -> updated key source t = r.
Proof.
  intros Hall Hnd Hr Hk. unfold updated. destruct (List.find (same_key key t) source) as [x|] eqn:E.
  - apply List.find_some in E as [Hx%list_elem_of_In Hkx]. cbn. apply (same_key_eq key source Hall Hnd); [done..|].
    unfold same_key in *. destruct (text_of key t), (text_of key r), (text_of key x); try done.
    apply String.eqb_eq in Hk, Hkx. subst. apply String.eqb_refl.
  - apply list_elem_of_In in Hr. pose proof (List.find_none _ _ E r Hr). congruence.
Qed.

Lemma unmatched_nodup key target source : NoDup (map (text_of key) source) -> NoDup (map (text_of key) (unmatched key target source)).
Proof.
  unfold unmatched. induction source as [|r source IH]; [done|]. cbn. intros [Hr Hnd]%NoDup_cons.
  destruct (negb _); [|auto]. cbn. apply NoDup_cons. split; [|auto]. intros (x & Hx & Hin)%list_elem_of_fmap. apply Hr. rewrite Hx.
  apply list_elem_of_fmap_2. apply list_elem_of_In in Hin. apply List.filter_In in Hin as [Hin _]. by apply list_elem_of_In.
Qed.

Section silver_facts.
Context {T : Type} `{DeltaLaws T}.
Variable m : DeltaSilverMerger.

Lemma text_of_app key (a b : row) v : dict_get a key = Some v -> dict_get (a ++ b) key = Some v.
Proof. induction a as [|[k x] a IH]; cbn; [done|]. by destruct (k =? key)%string. Qed.

Lemma silver_row_key outcomes i d : text_of "decision_id" i = Some d -> text_of "decision_id" (silver_row outcomes i) = Some d.
Proof.
  unfold text_of. destruct (dict_get i "decision_id") as [v|] eqn:E; [|done]. intros Hv.
  assert (forall b, dict_get (i ++ b) "decision_id" = Some v) as Happ by (intros b; by apply text_of_app).
  unfold silver_row. destruct outcomes as [[|o l]|]; by rewrite Happ.
Qed.

(** Silver holds one row per decision, with its outcome: after a merge,
    where every decision has one intent and at most one outcome in Bronze and
    the columns of Silver are those of the rows that come in, every intent's
    row in Silver is the join of the intent with its outcome - or with blanks
    where the outcome has not landed - and no decision has two rows.  A row
    from an earlier merge is replaced, not doubled. *)
Theorem silver_is_the_join t intents silver :
  let outcomes := table_rows t (sm_outcome_path m) in
  let rows := map (silver_row outcomes) intents in
  table_rows t (sm_intent_path m) = Some intents -> table_rows t (sm_silver_path m) = Some silver ->
  Forall (fun r => is_Some (text_of "decision_id" r)) intents -> NoDup (map (text_of "decision_id") intents) ->
  (forall l, outcomes = Some l -> NoDup (map (text_of "decision_id") (map (drop_column "tenant_id") l)) /\
     Forall (fun r => is_Some (text_of "decision_id" r)) (map (drop_column "tenant_id") l)) ->
  NoDup (map (text_of "decision_id") silver) -> (forall a b, a ∈ silver -> b ∈ rows -> columns a = columns b) ->
  let '(r, t') := silver_merge m t in
  exists silver', is_ok r = true /\ table_rows t' (sm_silver_path m) = Some silver' /\
    (forall i, i ∈ intents -> silver_row outcomes i ∈ silver') /\ NoDup (map (text_of "decision_id") silver').
Proof.
  intros outcomes rows Hint Hsil Hkeys Hnd Hout Hsnd Hcols. unfold silver_merge. rewrite Hint, Hsil.
  fold outcomes. rewrite silver_rows_single by done. fold rows.
  assert (map (text_of "decision_id") rows = map (text_of "decision_id") intents) as Hrk.
  { unfold rows. rewrite map_map. apply map_ext_in. intros i Hi%list_elem_of_In. rewrite Forall_forall in Hkeys.
    destruct (Hkeys i Hi) as [d Hd]. by rewrite (silver_row_key _ _ _ Hd), Hd. }
  assert (Forall (fun r => is_Some (text_of "decision_id" r)) rows) as Hrs.
  { apply Forall_fmap. eapply Forall_impl; [exact Hkeys|]. intros i [d Hd]. exists d. by apply silver_row_key. }
  assert (NoDup (map (text_of "decision_id") rows)) as Hrnd by (by rewrite Hrk).
  pose proof (upsert_spec t (sm_silver_path m) "decision_id" rows silver Hsil Hrnd Hcols) as Hu.
  destruct (merge_upsert _ _ _ _) as [t' [ins chg]]. destruct Hu as (_ & _ & silver' & Hs' & Hperm).
  exists silver'. split_and!; [done|done| |].
  - intros i Hi. rewrite Hperm. apply elem_of_app.
    assert (silver_row outcomes i ∈ rows) as Hin by (by apply list_elem_of_fmap_2).
    destruct (existsb (same_key "decision_id" (silver_row outcomes i)) silver) eqn:E.
    + left. apply existsb_exists in E as (s & Hs%list_elem_of_In & Hk). apply list_elem_of_fmap. exists s. split; [|done].
      symmetry. apply updated_to; [done..|]. by rewrite same_key_sym.
    + right. apply list_elem_of_In, List.filter_In. split; [by apply list_elem_of_In|]. by rewrite E.
  - rewrite Hperm, map_app, map_map. rewrite (map_ext _ _ (updated_key "decision_id" rows)).
    apply NoDup_app. split_and!; [done| |by apply unmatched_nodup].
    intros k (s & -> & Hs)%list_elem_of_fmap (r & Hk & [Hr Hun]%list_elem_of_In%List.filter_In)%list_elem_of_fmap.
    rewrite Forall_forall in Hrs. destruct (Hrs r ltac:(by apply list_elem_of_In)) as [d Hd].
    apply negb_true_iff in Hun. assert (existsb (same_key "decision_id" r) silver = true); [|congruence].
    apply existsb_exists. exists s. split; [by apply list_elem_of_In|]. unfold same_key. rewrite Hk, Hd. apply String.eqb_refl.
Qed.
End silver_facts.

(** ** A lake and a source to run on *)

Abbreviation lake := (gmap string (list row)).

#[export] Instance plain_lake : DeltaLake lake := {
  table_rows t p := t !! p;
  write_append t p rows := <[p := default [] (t !! p) ++ rows]> t;
  merge_insert t p key source :=
    let target := default [] (t !! p) in
    (<[p := target ++ unmatched key target source]> t, Z.of_nat (length (unmatched key target source)));
  merge_upsert t p key source :=
    let target := default [] (t !! p) in
    (<[p := map (updated key source) target ++ unmatched key target source]> t,
     (Z.of_nat (length (unmatched key target source)),
      Z.of_nat (length (List.filter (fun r => existsb (same_key key r) source) target))))
}.

#[export] Instance plain_lake_laws : DeltaLaws lake.
Proof.
  constructor; intros; cbn;
    try (match goal with E : table_rows _ _ = Some _ |- _ => cbn in E; rewrite E end; cbn; split_and!; try done);
    rewrite ?lookup_insert_eq, ?lookup_insert_ne by done; eauto.
Qed.

(** A log that can be read from any checkpoint. *)
Record log_source := { ls_log : list row }.
#[export] Instance log_poll : ChangeEventSource log_source := fun s checkpoint limit =>
  (Ok (take (Z.to_nat limit) (pending checkpoint (ls_log s))), s).

Definition sample_event (d lsn : string) : row := [("decision_id", JStr d); ("tenant_id", JStr "t1"); ("cdc_lsn", JStr lsn)].
Definition sample_log : list row := [sample_event "d1" "10"; sample_event "d2" "11"; sample_event "d3" "12"].
Definition sample_writer : DeltaBronzeWriter :=
  {| bw_table_path := "bronze"; bw_partition_by := ["tenant_id"]; bw_schema := Some ["decision_id"; "tenant_id"; "cdc_lsn"] |}.
Definition consumer_of {S} (s : S) : CdcConsumer S lake :=
  {| cc_source := s; cc_bronze := sample_writer; cc_lake := ∅; cc_checkpoints := ∅; cc_stream := "evidence_intent" |}.

Lemma cdc_lands_exactly_once_witness :
  let '(_, c) := run_until_drained (run_crashing (consumer_of {| ls_log := sample_log |}) 2 [AfterPoll; AfterAppend]) 2 10 0 in
  default [] (table_rows (cc_lake c) "bronze") ≡ₚ sample_log.
Proof.
  pose proof (cdc_lands_exactly_once sample_log sample_writer "evidence_intent"
    ltac:(repeat constructor; eauto) ltac:(apply (bool_decide_unpack _); vm_compute; exact I)
    ltac:(repeat constructor; eauto) ltac:(apply (bool_decide_unpack _); vm_compute; exact I)
    ltac:(repeat constructor) (fun s => ls_log s = sample_log)
    ltac:(intros s cp limit Hs; exists s; split; [unfold poll, log_poll; by rewrite Hs|done])
    (consumer_of {| ls_log := sample_log |}) 2 [AfterPoll; AfterAppend] 10 eq_refl eq_refl eq_refl eq_refl eq_refl
    ltac:(lia) ltac:(cbn; lia)) as Hw.
  destruct (run_until_drained _ _ _ _) as [r c]. apply Hw.
Defined.

Definition sample_merger : DeltaSilverMerger :=
  {| sm_intent_path := "bronze"; sm_outcome_path := "outcomes"; sm_silver_path := "silver"; sm_partition_by := ["tenant_id"] |}.
Definition sample_outcome_row (d status lsn : string) : row :=
  [("decision_id", JStr d); ("tenant_id", JNull); ("status", JStr status); ("completed_at", JFloat (fz 5)); ("result_digest", JNull);
   ("error_class", JNull); ("cdc_lsn", JStr lsn)].
Definition sample_outcomes : list row := [sample_outcome_row "d2" "succeeded" "20"].
Definition joined_lake : lake :=
  <["bronze" := sample_log]> (<["outcomes" := sample_outcomes]>
    (<["silver" := [silver_row (Some sample_outcomes) (sample_event "d1" "10")]]> ∅)).

Lemma silver_is_the_join_witness :
  let '(_, t) := silver_merge sample_merger joined_lake in
  exists silver, table_rows t "silver" = Some silver /\ NoDup (map (text_of "decision_id") silver).
Proof.
  pose proof (silver_is_the_join sample_merger joined_lake sample_log [silver_row (Some sample_outcomes) (sample_event "d1" "10")]
    eq_refl eq_refl ltac:(repeat constructor; eauto) ltac:(apply (bool_decide_unpack _); vm_compute; exact I)) as Hw.
  cbv zeta in Hw. destruct (silver_merge sample_merger joined_lake) as [r t]. destruct Hw as (silver & _ & Hs & _ & Hnd).
  - intros l Hl. vm_compute in Hl. injection Hl as <-. split; [apply (bool_decide_unpack _); vm_compute; exact I|repeat constructor; eauto].
  - apply (bool_decide_unpack _). vm_compute. exact I.
  - intros a b Ha Hb. apply list_elem_of_In in Ha, Hb. vm_compute in Ha, Hb.
    destruct Ha as [<-|[]]. destruct Hb as [<-|[<-|[<-|[]]]]; reflexivity.
  - by exists silver.
Defined.

(** ** Where the code departs from what it says *)

(** The columns of a merge before any outcome has landed are not those of a
    merge after: the suffixed ones are missing. *)
Example silver_columns_differ :
  columns (silver_row None (sample_event "d1" "10")) = ["decision_id"; "tenant_id"; "cdc_lsn"; "status"; "completed_at"; "result_digest"; "error_class"] /\
  columns (silver_row (Some sample_outcomes) (sample_event "d1" "10")) =
    ["decision_id"; "tenant_id"; "cdc_lsn"; "status"; "completed_at"; "result_digest"; "error_class"; "cdc_lsn_outcome"].
Proof. vm_compute. split; reflexivity. Qed.

(** A row twice in one batch is landed twice, and so is a batch that two writers
    both find the table missing for: only the table is looked at, and only
    before the write. *)
Example batch_is_not_deduplicated :
  let batch := [sample_event "d1" "10"; sample_event "d1" "10"] in
  (append_batch sample_writer (∅ : lake) batch).1 = 2%Z /\
  (append_batch sample_writer (<["bronze" := []]> ∅ : lake) batch).1 = 2%Z.
Proof. vm_compute. split; reflexivity. Qed.
