(* ===== verification/PgCdc.v ===== *)
(** * The change source over Postgres ([glassbox/adapters/outbound/postgres/cdc_source.py])

    The poll of a logical replication slot and the rows made of what it
    returns.  The server is a class of the three statements used, with what
    Postgres documents as laws: reading the changes of a slot consumes them.
    The consumer of [Medallion] over this source lands every intent once, but
    for those of a run that stopped between the poll and the write. *)

From stdpp Require Import base tactics list strings gmap sorting.
From Stdlib Require Import ZArith Lia Ascii DecimalString DecimalPos Floats.SpecFloat.
From S2P Require Import Prelude PyFloat PyStr Serialization Json Config Evidence BronzeRows Medallion.

Open Scope string_scope.
Open Scope list_scope.

(** A row of [pg_logical_slot_get_changes]: the position and the text. *)
Record change := { ch_lsn : string; ch_data : string }.

Class ReplicationServer (D : Type) := {
  slot_exists : D -> string -> bool;
  create_slot : D -> string -> D;
  slot_changes : D -> string -> list change;
  get_changes : D -> string -> Z -> list change * D
}.

(** The changes returned are the first of those there, some while there are any,
    and then gone. *)
Class ReplicationLaws (D : Type) `{ReplicationServer D} := {
  get_changes_spec : forall d slot limit, let '(rows, d') := get_changes d slot limit in
    slot_changes d slot = rows ++ slot_changes d' slot;
  get_changes_some : forall d slot limit, (1 <= limit)%Z -> slot_changes d slot <> [] -> (get_changes d slot limit).1 <> [];
  create_slot_spec : forall d slot, slot_exists d slot = false -> slot_exists (create_slot d slot) slot = true
}.

Inductive stream := IntentStream | OutcomeStream.

Definition INTENT_TABLE : string := "public.evidence_intent".
Definition OUTCOME_TABLE : string := "public.evidence_outcome".

Record PostgresLogicalReplicationSource := {
  lr_slot_name : string;
  lr_stream : stream;
  lr_ensured : bool
}.

Definition mk_source (slot_name stream_name : string) : res PostgresLogicalReplicationSource :=
  if (stream_name =? "intent")%string then Ok {| lr_slot_name := slot_name; lr_stream := IntentStream; lr_ensured := false |}
  else if (stream_name =? "outcome")%string then Ok {| lr_slot_name := slot_name; lr_stream := OutcomeStream; lr_ensured := false |}
  else Raise PyValueError.

Definition stream_table (s : stream) : string := match s with IntentStream => INTENT_TABLE | OutcomeStream => OUTCOME_TABLE end.

(** [int(s, 16)] of a text of hexadecimal digits. *)
Fixpoint hex_number (acc : N) (s : string) : option N :=
  match s with
  | EmptyString => Some acc
  | String c s' => d ← hex_value c; hex_number (acc * 16 + d)%N s'
  end.
Definition int16 (s : string) : res Z :=
  if str_is_empty s then Raise PyValueError
  else match hex_number 0 s with Some n => Ok (Z.of_N n) | None => Raise PyValueError end.

Definition lsn_to_int (lsn : string) : res Z :=
  match split_on "/" lsn with
  | [high; low] => h ← int16 high; l ← int16 low; Ok (Z.lor (Z.shiftl h 32) l)
  | _ => Raise PyValueError
  end.

(** [change.get(k)] of what [json.loads] gave. *)
Definition get_field (v : json) (k : string) : res (option json) :=
  match v with JObj items => Ok (dict_get items k) | _ => Raise (PyException "AttributeError") end.

(** [f"{v}"] of the name of a schema or a table. *)
Definition text_or_none (v : option json) : string := match v with Some (JStr s) => s | _ => "None" end.

Definition decode_column (column : json) : res json :=
  value ← get_field column "value";
  type ← get_field column "type";
  match value, type with
  | Some (JStr s), Some (JStr t) =>
      if (t =? "jsonb")%string || (t =? "json")%string
      then match loads s with Some v => Ok v | None => Raise PyValueError end
      else Ok (JStr s)
  | _, _ => Ok (default JNull value)
  end.

(** [{column["name"]: _decode_column(column) for column in ...}]. *)
Fixpoint decode_columns (l : list json) (acc : list (string * json)) : res (list (string * json)) :=
  match l with
  | [] => Ok acc
  | column :: rest =>
      name ← item column "name";
      value ← decode_column column;
      match name with
      | JStr n => decode_columns rest (set_item acc n value)
      | JArr _ | JObj _ => Raise PyTypeError
      | _ => decode_columns rest acc
      end
  end.

Definition change_columns (v : json) : res (list (string * json)) :=
  columns ← get_field v "columns";
  match columns with
  | None => Ok []
  | Some (JArr l) => decode_columns l []
  | Some (JObj []) | Some (JStr EmptyString) => Ok []
  | Some _ => Raise PyTypeError
  end.

(** The event of one change, if it is one. *)
Definition event_of (s : stream) (floor : Z) (c : change) : res (option row) :=
  lsn ← lsn_to_int (ch_lsn c);
  if (lsn <=? floor)%Z then Ok None
  else
    match loads (ch_data c) with
    | None => Raise PyValueError
    | Some v =>
        action ← get_field v "action";
        if negb (match action with Some (JStr a) => (a =? "I")%string | _ => false end) then Ok None
        else
          schema ← get_field v "schema";
          table ← get_field v "table";
          if negb (text_or_none schema +:+ "." +:+ text_or_none table =? stream_table s)%string then Ok None
          else
            columns ← change_columns v;
            record ← item (JObj columns) "record";
            let cdc_lsn := str_of_int lsn in
            match s with
            | IntentStream =>
                seq ← item (JObj columns) "seq";
                r ← intent_evidence_dict_to_bronze_row record seq cdc_lsn "insert"; Ok (Some r)
            | OutcomeStream => r ← outcome_evidence_dict_to_bronze_row record None cdc_lsn "insert"; Ok (Some r)
            end
    end.

Fixpoint events_from_rows (s : stream) (floor : Z) (rows : list change) : res (list row) :=
  match rows with
  | [] => Ok []
  | c :: rest =>
      e ← event_of s floor c;
      l ← events_from_rows s floor rest;
      Ok (match e with Some r => r :: l | None => l end)
  end.

Definition DriverUnavailableError : exn := PyException "DriverUnavailableError".

Section source.
Context {D : Type} `{ReplicationServer D}.

(** [works]: whether a transaction reaches the server and commits. *)
Definition ensure_slot (works : bool) (p : PostgresLogicalReplicationSource) (d : D)
    : res unit * (PostgresLogicalReplicationSource * D) :=
  if lr_ensured p then (Ok tt, (p, d))
  else if negb works then (Raise DriverUnavailableError, (p, d))
  else
    let d' := if slot_exists d (lr_slot_name p) then d else create_slot d (lr_slot_name p) in
    (Ok tt, ({| lr_slot_name := lr_slot_name p; lr_stream := lr_stream p; lr_ensured := true |}, d')).

Definition pg_poll (ensure_works read_works : bool) (p : PostgresLogicalReplicationSource) (d : D)
    (since_checkpoint : option string) (limit : Z) : res (list row) * (PostgresLogicalReplicationSource * D) :=
  match ensure_slot ensure_works p d with
  | (Raise e, s) => (Raise e, s)
  | (Ok _, (p, d)) =>
      match (match since_checkpoint with None => Some (-1)%Z | Some c => int_of_text c end) with
      | None => (Raise PyValueError, (p, d))
      | Some floor =>
          if negb read_works then (Raise DriverUnavailableError, (p, d))
          else
            let '(rows, d') := get_changes d (lr_slot_name p) limit in
            (events_from_rows (lr_stream p) floor rows, (p, d'))
      end
  end.
End source.

(** The source as the consumer sees it: with the server, and which of the two
    transactions of each coming poll work; all do once the list has run out. *)
Record SlotSource (D : Type) := {
  ss_source : PostgresLogicalReplicationSource;
  ss_server : D;
  ss_works : list (bool * bool)
}.
Arguments ss_source {D}.
Arguments ss_server {D}.
Arguments ss_works {D}.

#[export] Instance pg_source {D} `{ReplicationServer D} : ChangeEventSource (SlotSource D) := fun s checkpoint limit =>
  let '(ensure_works, read_works) := hd (true, true) (ss_works s) in
  let '(r, (p, d)) := pg_poll ensure_works read_works (ss_source s) (ss_server s) checkpoint limit in
  (r, {| ss_source := p; ss_server := d; ss_works := tl (ss_works s) |}).

(** ** An intent through the slot *)

Definition wal_column (name type : string) (value : json) : json :=
  JObj [("name", JStr name); ("type", JStr type); ("value", value)].

(** What the [wal2json] plugin writes for an insert. *)
Definition wal_insert (table : string) (columns : list json) : json :=
  JObj [("action", JStr "I"); ("schema", JStr "public"); ("table", JStr table); ("columns", JArr columns)].

(** A column that is not JSON. *)
Definition plain_column (c : string * string * json) : bool :=
  negb ((c.1.2 =? "jsonb")%string || (c.1.2 =? "json")%string).

Lemma decode_plain name type value :
  plain_column (name, type, value) = true -> decode_column (wal_column name type value) = Ok value.
Proof.
  unfold plain_column, decode_column. cbn [fst snd]. intros Hp%negb_true_iff. cbn. rewrite Hp. by destruct value.
Qed.

Lemma decode_json name text v : loads text = Some v -> decode_column (wal_column name "jsonb" (JStr text)) = Ok v.
Proof. intros Hl. unfold decode_column. cbn -[loads]. by rewrite Hl. Qed.

Lemma decode_columns_plain extra l acc :
  forallb plain_column extra = true ->
  decode_columns (map (fun c => wal_column c.1.1 c.1.2 c.2) extra ++ l) acc =
  decode_columns l (foldl (fun a c => set_item a c.1.1 c.2) acc extra).
Proof.
  revert acc. induction extra as [|[[n t] v] extra IH]; intros acc Hp; [done|]. cbn [forallb] in Hp.
  apply andb_true_iff in Hp as [Hc Hp]. cbn [map app decode_columns foldl fst snd].
  change (item (wal_column n t v) "name") with (Ok (JStr n)). rewrite (decode_plain n t v Hc). cbn [mbind res_bind]. by apply IH.
Qed.

(** One stored intent, as it comes out of the slot. *)
Record stored_intent := {
  si_change : change;
  si_lsn : Z;
  si_seq : Z;
  si_record : IntentRecord
}.

Record carried (s : stored_intent) : Prop := {
  ca_lsn : lsn_to_int (ch_lsn (si_change s)) = Ok (si_lsn s);
  ca_data : exists extra text document items,
    forallb plain_column extra = true /\
    loads (ch_data (si_change s)) = Some (wal_insert "evidence_intent"
      (map (fun c => wal_column c.1.1 c.1.2 c.2) extra ++
       [wal_column "seq" "bigint" (JInt (si_seq s)); wal_column "record" "jsonb" (JStr text)])) /\
    loads text = Some (JObj items) /\ same_document (intent_as_evidence (si_record s)) document items
}.

Definition bronze_row (s : stored_intent) : res row :=
  intent_record_to_bronze_row (si_record s) (si_seq s) (str_of_int (si_lsn s)) "insert".

Lemma event_of_intent s floor :
  carried s -> event_of IntentStream floor (si_change s) =
  if (si_lsn s <=? floor)%Z then Ok None else r ← bronze_row s; Ok (Some r).
Proof.
  intros [Hlsn (extra & text & document & items & Hp & Hd & Ht & Hdoc)]. unfold event_of. rewrite Hlsn. cbn [mbind res_bind].
  destruct (si_lsn s <=? floor)%Z; [done|]. rewrite Hd.
  cbn [get_field wal_insert dict_get mbind res_bind String.eqb Ascii.eqb Bool.eqb negb text_or_none].
  change (("public" +:+ "." +:+ "evidence_intent" =? stream_table IntentStream)%string) with true. cbn [negb].
  unfold change_columns.
  match goal with |- context [get_field (wal_insert ?t ?l) "columns"] =>
    change (get_field (wal_insert t l) "columns") with (Ok (Some (JArr l))) end.
  cbn [mbind res_bind]. rewrite decode_columns_plain by done. cbn [decode_columns].
  change (item (wal_column "seq" "bigint" (JInt (si_seq s))) "name") with (Ok (JStr "seq")).
  change (item (wal_column "record" "jsonb" (JStr text)) "name") with (Ok (JStr "record")).
  rewrite (decode_plain "seq" "bigint" (JInt (si_seq s)) eq_refl), (decode_json _ _ _ Ht). cbn [mbind res_bind item]. rewrite !get_set_item.
  change ("record" =? "record")%string with true. change ("record" =? "seq")%string with false.
  change ("seq" =? "seq")%string with true. cbn [mbind res_bind]. unfold bronze_row.
  by rewrite (intent_row_of_document _ _ _ _ _ _ Hdoc).
Qed.

(** The slot delivers the evidence: for changes that carry stored
    intents - whatever the other columns, and whatever the order of keys in the
    stored documents - a poll yields, in the order of the slot, exactly the
    Bronze rows of the records beyond the checkpoint, each with its sequence
    number and its position, or the error of the first row that cannot be made. *)
Theorem slot_delivers_intents floor l :
  Forall carried l ->
  events_from_rows IntentStream floor (map si_change l) =
  res_map bronze_row (List.filter (fun s => negb (si_lsn s <=? floor)%Z) l).
Proof.
  induction l as [|s l IH]; intros Hl; [done|]. apply Forall_cons in Hl as [Hs Hl]. cbn [map events_from_rows List.filter].
  rewrite (event_of_intent s floor Hs), (IH Hl). destruct (si_lsn s <=? floor)%Z; cbn [negb mbind res_bind].
  - by destruct (res_map _ _).
  - cbn [res_map]. destruct (bronze_row s); cbn [mbind res_bind]; [|done]. by destruct (res_map _ _).
Qed.

(** ** Checkpoints are read back *)

Lemma digits_value_acc d p : digits_value (Zpos p) (NilEmpty.string_of_uint d) = Zpos (Pos.of_uint_acc d p).
Proof.
  revert p. induction d as [|d IH|d IH|d IH|d IH|d IH|d IH|d IH|d IH|d IH|d IH]; intros p; [done|..];
    cbn [NilEmpty.string_of_uint digits_value Pos.of_uint_acc];
    match goal with |- digits_value ?a _ = Zpos (Pos.of_uint_acc _ ?q) => replace a with (Zpos q); [apply IH|] end;
    change (digit_val _) with 0%Z || change (digit_val _) with 1%Z || change (digit_val _) with 2%Z ||
    change (digit_val _) with 3%Z || change (digit_val _) with 4%Z || change (digit_val _) with 5%Z ||
    change (digit_val _) with 6%Z || change (digit_val _) with 7%Z || change (digit_val _) with 8%Z ||
    change (digit_val _) with 9%Z; lia.
Qed.

Lemma digits_value_uint d : digits_value 0 (NilEmpty.string_of_uint d) = Z.of_N (Pos.of_uint d).
Proof. induction d; [done|exact IHd|..]; cbn; apply (digits_value_acc d). Qed.

Lemma digits_from_digits b s : str_forallb is_digit s = true -> (b = true \/ s <> "") -> digits_from b s = Some s.
Proof.
  revert b. induction s as [|c s IH]; intros b Hd Hb; cbn in *; [by destruct Hb as [->|]|].
  apply andb_true_iff in Hd as [-> Hd]. rewrite (IH true Hd) by (by left). done.
Qed.

Lemma rev_str_digits s acc :
  str_forallb is_digit s = true -> str_forallb is_digit acc = true -> str_forallb is_digit (rev_str s acc) = true.
Proof.
  revert acc. induction s as [|c s IH]; intros acc Hs Ha; [done|]. cbn in *. apply andb_true_iff in Hs as [Hc Hs].
  apply IH; [done|]. cbn. by rewrite Hc.
Qed.

Lemma rev_str_app s acc : rev_str s acc = rev_str s "" +:+ acc.
Proof.
  revert acc. induction s as [|c s IH]; intros acc; [done|]. cbn. by rewrite IH, (IH (String c "")), app_str_assoc.
Qed.

Lemma rev_str_rev s acc : rev_str (rev_str s acc) "" = rev_str acc "" +:+ s.
Proof.
  revert acc. induction s as [|c s IH]; intros acc; cbn; [by rewrite app_str_nil_r|]. rewrite IH. cbn.
  by rewrite (rev_str_app acc (String c "")), app_str_assoc.
Qed.

Lemma lstrip_digits s : str_forallb is_digit s = true -> lstrip s = s.
Proof.
  destruct s as [|c s]; [done|]. cbn. intros [Hc _]%andb_true_iff. destruct (is_space c) eqn:E; [|done].
  destruct c as [[] [] [] [] [] [] [] []]; vm_compute in Hc, E; discriminate.
Qed.

(** [int] reads back what [str] wrote of a position. *)
Lemma int_of_text_str z : (0 <= z)%Z -> int_of_text (str_of_int z) = Some z.
Proof.
  intros Hz. pose proof (str_of_int_nonneg z Hz) as Hd. pose proof (str_of_int_cons z) as (c & s & Hc & _).
  unfold int_of_text, strip. rewrite (lstrip_digits _ Hd), (lstrip_digits _ (rev_str_digits _ "" Hd eq_refl)), rev_str_rev. cbn [rev_str String.append].
  assert (digits_value 0 <$> digits_from false (str_of_int z) = Some z) as Hu.
  { rewrite digits_from_digits by (done || (right; by rewrite Hc)). cbn. f_equal. unfold str_of_int.
    destruct z as [|p|p]; [done| |lia]. cbn [Z.to_int]. cbn [NilEmpty.string_of_int]. rewrite digits_value_uint.
    by rewrite DecimalPos.Unsigned.of_to. }
  rewrite Hc in *. cbn in Hd. apply andb_true_iff in Hd as [Hd _].
  destruct c as [[] [] [] [] [] [] [] []]; vm_compute in Hd; try discriminate; exact Hu.
Qed.

Lemma hex_number_nonneg s z : int16 s = Ok z -> (0 <= z)%Z.
Proof. unfold int16. destruct (str_is_empty s); [done|]. destruct (hex_number 0 s); [|done]. intros [= <-]. lia. Qed.

Lemma lsn_nonneg s z : lsn_to_int s = Ok z -> (0 <= z)%Z.
Proof.
  unfold lsn_to_int. destruct (split_on "/" s) as [|high [|low [|]]]; try done. intros Hz.
  apply bind_ok in Hz as (h & Hh%hex_number_nonneg & Hz). apply bind_ok in Hz as (l & Hl%hex_number_nonneg & [= <-]).
  apply Z.lor_nonneg. split; [by apply Z.shiftl_nonneg|done].
Qed.

(** ** Draining the slot *)

Section draining.
Context {D T : Type} `{ReplicationLaws D} `{DeltaLaws T}.
Variables (stored : list stored_intent) (log : list row).
Hypothesis all_carried : Forall carried stored.
Hypothesis rows : res_map bronze_row stored = Ok log.
Hypothesis positions_rise : StronglySorted Z.lt (map si_lsn stored).

(** What the slot still holds once the first [n] changes were read. *)
Definition slot_at (s : SlotSource D) (n k : nat) : Prop :=
  lr_stream (ss_source s) = IntentStream /\
  (lr_ensured (ss_source s) = true \/ slot_exists (ss_server s) (lr_slot_name (ss_source s)) = true) /\
  slot_changes (ss_server s) (lr_slot_name (ss_source s)) = map si_change (drop n stored) /\
  (length (ss_works s) <= k)%nat /\ (n <= length stored)%nat.

Lemma bronze_row_fields s r :
  bronze_row s = Ok r -> text_of "decision_id" r = Some (ir_decision_id (si_record s)) /\
    text_of "cdc_lsn" r = Some (str_of_int (si_lsn s)) /\ map fst r = intent_bronze_schema.
Proof.
  intros Hr. pose proof (intent_row_columns _ _ _ _ _ Hr) as Hc. unfold bronze_row, intent_record_to_bronze_row in Hr.
  apply bind_ok in Hr as (? & _ & Hr). apply bind_ok in Hr as (? & _ & [= <-]). done.
Qed.

Lemma rows_of_stored : Forall2 (fun s r => bronze_row s = Ok r) stored log.
Proof using rows. by apply res_map_ok. Qed.

Lemma rows_length : length log = length stored.
Proof using rows. symmetry. eapply Forall2_length, rows_of_stored. Qed.

(** The rows of a stretch of the changes. *)
Lemma rows_between n m : res_map bronze_row (take m (drop n stored)) = Ok (take m (drop n log)).
Proof using rows.
  pose proof (Forall2_take _ _ _ m (Forall2_drop _ _ _ n rows_of_stored)) as Hf. revert Hf.
  generalize (take m (drop n stored)), (take m (drop n log)). clear. intros l l'.
  induction 1 as [|s r l l' Hs _ IH]; [done|]. cbn [res_map]. by rewrite Hs, IH.
Qed.

(** A checkpoint set earlier is below every position still to come. *)
Lemma floor_below n cp :
  earlier log n cp -> exists floor, (match cp with None => Some (-1)%Z | Some c => int_of_text c end) = Some floor /\
    List.filter (fun s => negb (si_lsn s <=? floor)%Z) (drop n stored) = drop n stored.
Proof using all_carried rows positions_rise.
  assert (forall floor, (forall s, s ∈ drop n stored -> (floor < si_lsn s)%Z) ->
    List.filter (fun s => negb (si_lsn s <=? floor)%Z) (drop n stored) = drop n stored) as Hkeep.
  { intros floor. generalize (drop n stored). induction l as [|s l IH]; intros Hl; [done|]. cbn.
    rewrite (proj2 (Z.leb_gt _ _)) by (apply Hl; left). cbn. f_equal. apply IH. intros x Hx. apply Hl. by right. }
  assert (forall s, s ∈ stored -> (0 <= si_lsn s)%Z) as Hpos.
  { intros s Hs. rewrite Forall_forall in all_carried. destruct (all_carried s Hs) as [Hl _]. by apply lsn_nonneg in Hl. }
  intros [->|(i & r & Hi & Hr & ->)].
  - exists (-1)%Z. split; [done|]. apply Hkeep. intros s Hs. pose proof (Hpos s (subseteq_drop n stored s Hs)). lia.
  - destruct (Forall2_lookup_r _ _ _ _ _ rows_of_stored Hr) as (s & Hs & Hrow). apply bronze_row_fields in Hrow as (_ & -> & _).
    exists (si_lsn s). split; [apply int_of_text_str, Hpos; by eapply list_elem_of_lookup_2|].
    apply Hkeep. intros x Hx. pose proof positions_rise as Hrise. rewrite <-(take_drop n stored), map_app in Hrise.
    apply (StronglySorted_app_1_elem_of Z.lt _ _ _ _ Hrise); apply list_elem_of_fmap_2; [|done].
    apply list_elem_of_lookup. exists i. by apply lookup_take_Some.
Qed.

(** The slot gives every change out once. *)
Lemma slot_gives_out (s : SlotSource D) n k cp limit : slot_at s n k -> earlier log n cp -> (1 <= limit)%Z ->
  (exists e s', poll s cp limit = (Raise e, s') /\ slot_at s' n (pred k) /\ (0 < k)%nat) \/
  (exists m s', poll s cp limit = (Ok (take m (drop n log)), s') /\ slot_at s' (n + m) (pred k) /\
     (n + m <= length log)%nat /\ ((n < length log)%nat -> (0 < m)%nat)).
Proof using all_carried rows positions_rise H0.
  destruct s as [p d works]. intros (Hst & Hens & Hch & Hk & Hn) Hcp Hlim. cbn [ss_source ss_server ss_works] in *.
  unfold poll, pg_source. cbn [ss_source ss_server ss_works].
  destruct (floor_below n cp Hcp) as (floor & Hfloor & Hkeep).
  assert (forall p' d' n', lr_stream p' = IntentStream -> (lr_ensured p' = true \/ slot_exists d' (lr_slot_name p') = true) ->
    slot_changes d' (lr_slot_name p') = map si_change (drop n' stored) -> (n' <= length stored)%nat ->
    slot_at {| ss_source := p'; ss_server := d'; ss_works := tl works |} n' (pred k)) as Hat.
  { intros p' d' n' H1' H2' H3' H4'. split_and!; cbn; try done. destruct works; cbn in *; lia. }
  assert (Hlast : hd (true, true) works <> (true, true) -> (0 < k)%nat) by (destruct works; cbn in *; [done|lia]).
  destruct (hd (true, true) works) as [ew rw] eqn:Ew. unfold pg_poll.
  assert (ensure_slot ew p d = (Raise DriverUnavailableError, (p, d)) /\ ew = false \/
          exists p', ensure_slot ew p d = (Ok tt, (p', d)) /\ lr_ensured p' = true /\
            lr_stream p' = lr_stream p /\ lr_slot_name p' = lr_slot_name p) as [[-> ->]|(p' & -> & Hp' & Es & En)].
  { unfold ensure_slot. destruct (lr_ensured p) eqn:Ep; [by right; exists p|]. destruct ew; cbn [negb]; [|by left].
    right. destruct Hens as [?| ->]; [done|]. eexists. by split. }
  { left. eexists _, _. split_and!; [done|by apply Hat|by apply Hlast]. }
  rewrite Hfloor. destruct rw; cbn [negb].
  2: { left. eexists _, _. split_and!; [done| |by apply Hlast; destruct ew]. apply Hat; [congruence|by left|congruence|done]. }
  right. rewrite <-En in Hch. pose proof (get_changes_spec d (lr_slot_name p') limit) as Hg.
  pose proof (get_changes_some d (lr_slot_name p') limit Hlim) as Hs. destruct (get_changes d (lr_slot_name p') limit) as [got d'].
  cbn [fst] in Hs. rewrite Hch in Hg, Hs. remember (length got) as m eqn:Em.
  assert (m <= length stored - n)%nat as Hm.
  { apply (f_equal length) in Hg. rewrite length_app, length_map, length_drop in Hg. lia. }
  assert (got = map si_change (take m (drop n stored)) /\ slot_changes d' (lr_slot_name p') = map si_change (drop (n + m) stored)) as [-> Hrest].
  { rewrite <-(take_drop m (drop n stored)), map_app in Hg. apply app_inj_1 in Hg as [E1 E2].
    - rewrite drop_drop in E2. by rewrite E1, <-E2.
    - rewrite length_map, length_take, length_drop. lia. }
  exists m. eexists. split_and!.
  - rewrite Es, Hst, slot_delivers_intents.
    + rewrite <-(rows_between n m). do 3 f_equal.
      rewrite <-(take_drop m (drop n stored)) in Hkeep. rewrite List.filter_app in Hkeep.
      apply app_inj_1 in Hkeep as [Hkeep _]; [done|]. apply (f_equal length) in Hkeep as Hl. rewrite !length_app in Hl.
      pose proof (List.filter_length_le (fun s => negb (si_lsn s <=? floor)%Z) (take m (drop n stored))).
      pose proof (List.filter_length_le (fun s => negb (si_lsn s <=? floor)%Z) (drop m (drop n stored))). lia.
    + by apply Forall_take, Forall_drop.
  - apply Hat; [congruence|by left|done|lia].
  - rewrite rows_length. lia.
  - rewrite rows_length. intros Hlt. destruct m as [|m']; [|lia]. exfalso. apply Hs; [|by rewrite take_0].
    intros E. apply (f_equal length) in E. rewrite length_map, length_drop in E. cbn in E. lia.
Qed.

Lemma nothing_unwritten crashes : forall (c : CdcConsumer (SlotSource D) T) batch_size,
  AfterPoll ∉ crashes -> all_unwritten c batch_size crashes = [].
Proof.
  induction crashes as [|x rest IH]; intros c b Hx; [done|]. cbn [all_unwritten].
  apply not_elem_of_cons in Hx as [Hx Hr]. rewrite (IH _ b Hr), app_nil_r. by destruct x.
Qed.

End draining.

(** ** A server to poll *)

Abbreviation slots := (gmap string (list change)).

#[export] Instance plain_server : ReplicationServer slots := {
  slot_exists d slot := bool_decide (is_Some (d !! slot));
  create_slot d slot := <[slot := []]> d;
  slot_changes d slot := default [] (d !! slot);
  get_changes d slot limit :=
    let l := default [] (d !! slot) in (take (Z.to_nat limit) l, <[slot := drop (Z.to_nat limit) l]> d)
}.

#[export] Instance plain_server_laws : ReplicationLaws slots.
Proof.
  constructor; cbn; intros.
  - rewrite lookup_insert_eq. cbn. by rewrite take_drop.
  - destruct (default [] (d !! slot)) as [|x l]; [done|]. by destruct (Z.to_nat limit) eqn:E; [lia|].
  - by rewrite lookup_insert_eq.
Qed.

Definition intent_change (lsn d : string) : change :=
  {| ch_lsn := lsn;
     ch_data := print canonical_config (wal_insert "evidence_intent"
       [wal_column "seq" "bigint" (JInt 0);
        wal_column "record" "jsonb" (JStr (print canonical_config (JObj (items_of (intent_as_evidence (sample_intent d))))))]) |}.
Definition outcome_change (lsn : string) : change :=
  {| ch_lsn := lsn; ch_data := print canonical_config (wal_insert "evidence_outcome" []) |}.

Definition sample_stored (d : string) (lsn : string) (n : Z) : stored_intent :=
  {| si_change := intent_change lsn d; si_lsn := n; si_seq := 0; si_record := sample_intent d |}.

(** The stored document of the sample and its text. *)
Definition document_of (d : string) : json := JObj (items_of (intent_as_evidence (sample_intent d))).

Lemma sample_carried d lsn n :
  lsn_to_int lsn = Ok n ->
  loads (ch_data (intent_change lsn d)) = Some (wal_insert "evidence_intent"
    [wal_column "seq" "bigint" (JInt 0); wal_column "record" "jsonb" (JStr (print canonical_config (document_of d)))]) ->
  loads (print canonical_config (document_of d)) = Some (document_of d) ->
  normalise "$.record" (intent_as_evidence (sample_intent d)) = Ok (document_of d) -> carried (sample_stored d lsn n).
Proof.
  intros Hlsn Hd Ht Hn. constructor; [exact Hlsn|].
  exists [], (print canonical_config (document_of d)), (document_of d), (items_of (intent_as_evidence (sample_intent d))).
  split_and!; [reflexivity|exact Hd|exact Ht|exact (conj Hn eq_refl)].
Qed.

Lemma slot_delivers_intents_witness :
  events_from_rows IntentStream 100 [intent_change "0/64" "d1"; intent_change "0/C8" "d2"] =
  res_map bronze_row [sample_stored "d2" "0/C8" 200].
Proof.
  apply (slot_delivers_intents 100 [sample_stored "d1" "0/64" 100; sample_stored "d2" "0/C8" 200]).
  constructor; [|constructor; [|constructor]]; apply sample_carried; vm_compute; reflexivity.
Defined.

Definition intent_source : PostgresLogicalReplicationSource :=
  {| lr_slot_name := "slot"; lr_stream := IntentStream; lr_ensured := false |}.
Definition intent_writer : DeltaBronzeWriter :=
  {| bw_table_path := "bronze"; bw_partition_by := BRONZE_INTENT_PARTITION_COLUMNS; bw_schema := Some intent_bronze_schema |}.
Definition pg_consumer (changes : list change) (works : list (bool * bool)) : CdcConsumer (SlotSource slots) lake :=
  {| cc_source := {| ss_source := intent_source; ss_server := {[ "slot" := changes ]}; ss_works := works |}; cc_bronze := intent_writer; cc_lake := ∅; cc_checkpoints := ∅;
     cc_stream := "evidence_intent" |}.
Definition landed_ids {S} (c : CdcConsumer S lake) : list (option string) :=
  map (text_of "decision_id") (default [] (table_rows (cc_lake c) "bronze")).

Definition three_stored : list stored_intent :=
  [sample_stored "d1" "0/64" 100; sample_stored "d2" "0/C8" 200; sample_stored "d3" "0/12C" 300].
Definition three_rows : list row := match res_map bronze_row three_stored with Ok l => l | Raise _ => [] end.


(** Drained without a stop, everything lands. *)
Example slot_drains :
  landed_ids (run_until_drained (pg_consumer [intent_change "0/64" "d1"; intent_change "0/C8" "d2"] []) 1 10 0).2
    = [Some "d1"; Some "d2"].
Proof. vm_compute. reflexivity. Qed.

(** Reading the slot consumes it: a process that stops between the poll and the
    write loses the batch for good. *)
Example stop_after_poll_loses_a_batch :
  let c := run_crashing (pg_consumer [intent_change "0/64" "d1"; intent_change "0/C8" "d2"] []) 1 [AfterPoll] in
  landed_ids (run_until_drained c 1 10 0).2 = [Some "d2"].
Proof. vm_compute. reflexivity. Qed.

(** Transactions come in the order of their commits, their changes with the
    positions at which they were made: one made earlier and committed later is
    below the checkpoint and dropped. *)
Example later_commit_is_dropped :
  landed_ids (run_until_drained (pg_consumer [intent_change "0/C8" "d2"; intent_change "0/64" "d1"] []) 1 10 0).2 = [Some "d2"].
Proof. vm_compute. reflexivity. Qed.

(** A batch without a change of the table looks like the end of the source. *)
Example drain_stops_at_other_changes :
  landed_ids (run_until_drained (pg_consumer [outcome_change "0/10"; intent_change "0/64" "d1"] []) 1 10 0).2 = [].
Proof. vm_compute. reflexivity. Qed.
