(* ===== verification/GovernanceState.v ===== *)
(** * Limit, baseline and mandate stores
      ([glassbox/adapters/outbound/memory/governance_state.py],
       [glassbox/ports/baseline.py])

    An [OrderedDict] is an association list, oldest entry first.  A method is a
    step: its result or exception, with the store it leaves. *)

From stdpp Require Import base tactics list strings gmap.
From Stdlib Require Import ZArith Lia.
From S2P Require Import Prelude PyFloat PyStr Serialization Action Identity Mandate Limits.

Open Scope string_scope.
Open Scope list_scope.

(** ** [OrderedDict] *)

Section ordered_dict.
Context {A : Type}.

Fixpoint od_get (d : list (string * A)) (k : string) : option A :=
  match d with
  | [] => None
  | (k', v) :: d' => if (k' =? k)%string then Some v else od_get d' k
  end.

(** [d[k] = v]: in place, or at the end. *)
Fixpoint od_set (d : list (string * A)) (k : string) (v : A) : list (string * A) :=
  match d with
  | [] => [(k, v)]
  | (k', v') :: d' => if (k' =? k)%string then (k, v) :: d' else (k', v') :: od_set d' k v
  end.

Definition od_delete (d : list (string * A)) (k : string) : list (string * A) :=
  List.filter (fun kv => negb (kv.1 =? k)%string) d.

(** [d.move_to_end(k)]. *)
Definition od_move_to_end (d : list (string * A)) (k : string) : res (list (string * A)) :=
  match od_get d k with
  | Some v => Ok (od_delete d k ++ [(k, v)])
  | None => Raise PyKeyError
  end.
End ordered_dict.

(** ** [InMemoryLimitStore] *)

(** An admission: when, the member, the cost. *)
Abbreviation entry := (float * string * float)%type.

Record LimitStore := {
  ls_windows : list (string * list entry);
  ls_cooldowns : gmap string float;
  ls_limits : gmap string float;
  ls_default_limit : float;
  ls_cooldown_seconds : float;
  ls_max_subjects : Z;
  ls_available : bool
}.

Definition limit_store_init (limits : gmap string float) (default_limit cooldown_seconds : float)
    (max_subjects : Z) : LimitStore :=
  {| ls_windows := []; ls_cooldowns := ∅; ls_limits := limits; ls_default_limit := default_limit;
     ls_cooldown_seconds := cooldown_seconds; ls_max_subjects := max_subjects; ls_available := true |}.

Definition with_windows (s : LimitStore) (w : list (string * list entry)) : LimitStore :=
  {| ls_windows := w; ls_cooldowns := ls_cooldowns s; ls_limits := ls_limits s;
     ls_default_limit := ls_default_limit s; ls_cooldown_seconds := ls_cooldown_seconds s;
     ls_max_subjects := ls_max_subjects s; ls_available := ls_available s |}.
Definition with_cooldowns (s : LimitStore) (c : gmap string float) : LimitStore :=
  {| ls_windows := ls_windows s; ls_cooldowns := c; ls_limits := ls_limits s;
     ls_default_limit := ls_default_limit s; ls_cooldown_seconds := ls_cooldown_seconds s;
     ls_max_subjects := ls_max_subjects s; ls_available := ls_available s |}.

Definition limit_require_available (s : LimitStore) : res unit :=
  raise_if (negb (ls_available s)) LimitStoreUnavailable.

(** [entry[0] > horizon]. *)
Definition live (horizon : float) (e : entry) : bool := fgt e.1.1 horizon.
Definition cost_of (e : entry) : float := e.2.
Definition entries_sum (l : list entry) : float := py_sum (map cost_of l).

(** [_observed]. *)
Definition observed_in (s : LimitStore) (canonical : string) (window : Window) (now : float) : res float :=
  horizon ← start_of window now;
  Ok (entries_sum (List.filter (live horizon) (from_option id [] (od_get (ls_windows s) canonical)))).

(** [_evict_if_needed]: pop the oldest counters, with their cooldowns. *)
Fixpoint evict (max_subjects : Z) (w : list (string * list entry)) (c : gmap string float)
    : res unit * (list (string * list entry) * gmap string float) :=
  match w with
  | [] => ((if (max_subjects <? 0)%Z then Raise PyKeyError else Ok tt), (w, c))
  | (k, _) :: w' =>
      if (max_subjects <? Z.of_nat (length w))%Z then evict max_subjects w' (delete k c)
      else (Ok tt, (w, c))
  end.

(** The part of [try_consume] after the cooldown check, on the entries of a
    counter that is present and last. *)
Definition consume (s : LimitStore) (key : LimitKey) (canonical member : string) (ceiling cost now : float)
    (entries : list entry) : res LimitVerdict * LimitStore :=
  match start_of (lk_window key) now with
  | Raise e => (Raise e, s)
  | Ok horizon =>
      let kept := List.filter (live horizon) entries in
      let s1 := with_windows s (od_set (ls_windows s) canonical kept) in
      if existsb (fun e : entry => (e.1.2 =? member)%string) kept
      then (mk_LimitVerdict true key ceiling (entries_sum kept) now None None, s1)
      else
        let observed := entries_sum kept in
        if fgt (fadd observed cost) ceiling then
          let cooldown_until := fadd now (ls_cooldown_seconds s) in
          let s2 := with_cooldowns s1 (<[canonical := cooldown_until]> (ls_cooldowns s1)) in
          (mk_LimitVerdict false key ceiling (fadd observed cost) now
             (Some (ls_cooldown_seconds s)) (Some cooldown_until), s2)
        else
          let s2 := with_windows s1 (od_set (ls_windows s1) canonical (kept ++ [(now, member, cost)])) in
          (mk_LimitVerdict true key ceiling (fadd observed cost) now None None, s2)
  end.

(** The rest of the critical section: open the counter, move it to the end, consume. *)
Definition open_counter (s : LimitStore) (canonical : string) : res unit * LimitStore :=
  match od_get (ls_windows s) canonical with
  | Some _ => (Ok tt, s)
  | None =>
      let '(r, (w, c)) := evict (ls_max_subjects s) (od_set (ls_windows s) canonical []) (ls_cooldowns s) in
      (r, with_cooldowns (with_windows s w) c)
  end.

Definition open_and_consume (s : LimitStore) (key : LimitKey) (canonical member : string)
    (ceiling cost now : float) : res LimitVerdict * LimitStore :=
  let '(opened, s1) := open_counter s canonical in
  match (_ ← opened; od_move_to_end (ls_windows s1) canonical) with
  | Raise e => (Raise e, s1)
  | Ok w =>
      consume (with_windows s1 w) key canonical member ceiling cost now (from_option id [] (od_get w canonical))
  end.

Definition try_consume (s : LimitStore) (key : LimitKey) (cost : float) (decision_id : string) (now : float)
    : res LimitVerdict * LimitStore :=
  match (_ ← limit_require_available s; member_for decision_id now) with
  | Raise e => (Raise e, s)
  | Ok member =>
      let canonical := canonical_key key in
      let ceiling := from_option id (ls_default_limit s) (ls_limits s !! canonical) in
      match ls_cooldowns s !! canonical with
      | Some cooldown_until =>
          if flt now cooldown_until then
            ((observed ← observed_in s canonical (lk_window key) now;
              mk_LimitVerdict false key ceiling observed now
                (Some (fsub cooldown_until now)) (Some cooldown_until)), s)
          else open_and_consume (with_cooldowns s (delete canonical (ls_cooldowns s)))
                 key canonical member ceiling cost now
      | None => open_and_consume s key canonical member ceiling cost now
      end
  end.

Definition cumulative (s : LimitStore) (key : LimitKey) (window : Window) (now : float) : res float :=
  _ ← limit_require_available s;
  observed_in s (canonical_key key) window now.

Definition release (s : LimitStore) (key : LimitKey) (decision_id : string) : res unit * LimitStore :=
  match limit_require_available s with
  | Raise e => (Raise e, s)
  | Ok _ =>
      let canonical := canonical_key key in
      match od_get (ls_windows s) canonical with
      | None | Some [] => (Ok tt, s)
      | Some entries =>
          let suffix := ":" +:+ decision_id in
          (Ok tt, with_windows s (od_set (ls_windows s) canonical
             (List.filter (fun e : entry => negb (endswith suffix e.1.2)) entries)))
      end
  end.

Definition limit_configure (s : LimitStore) (key : LimitKey) (ceiling : float) : LimitStore :=
  {| ls_windows := ls_windows s; ls_cooldowns := ls_cooldowns s;
     ls_limits := <[canonical_key key := ceiling]> (ls_limits s);
     ls_default_limit := ls_default_limit s; ls_cooldown_seconds := ls_cooldown_seconds s;
     ls_max_subjects := ls_max_subjects s; ls_available := ls_available s |}.

Definition limit_set_available (s : LimitStore) (available : bool) : LimitStore :=
  {| ls_windows := ls_windows s; ls_cooldowns := ls_cooldowns s; ls_limits := ls_limits s;
     ls_default_limit := ls_default_limit s; ls_cooldown_seconds := ls_cooldown_seconds s;
     ls_max_subjects := ls_max_subjects s; ls_available := available |}.

Definition tracked_subjects (s : LimitStore) : nat := length (ls_windows s).

(** ** Baselines *)

Inductive BaselineScope := BASELINE_AGENT | BASELINE_PEER_GROUP | BASELINE_TENANT.

Definition baseline_scope_value (s : BaselineScope) : string :=
  match s with BASELINE_AGENT => "agent" | BASELINE_PEER_GROUP => "peer_group" | BASELINE_TENANT => "tenant" end.

Record BaselineKey := {
  bk_tenant_id : string;
  bk_scope : BaselineScope;
  bk_subject : string;
  bk_metric : string;
  bk_window : Window
}.

Definition mk_BaselineKey (tenant_id : string) (scope : BaselineScope) (subject metric : string)
    (window : Window) : res BaselineKey :=
  tenant_id ← require_identifier tenant_id "tenant_id";
  subject ← require_identifier subject "subject";
  metric ← require_identifier metric "metric";
  Ok {| bk_tenant_id := tenant_id; bk_scope := scope; bk_subject := subject; bk_metric := metric;
        bk_window := window |}.

Definition baseline_canonical_key (k : BaselineKey) : string :=
  str_join "|" ["glassbox"; "baseline"; bk_tenant_id k; baseline_scope_value (bk_scope k);
                bk_subject k; bk_metric k; window_label (bk_window k)].

Definition peer_group_fallback (k : BaselineKey) (peer_group : string) : res BaselineKey :=
  mk_BaselineKey (bk_tenant_id k) BASELINE_PEER_GROUP peer_group (bk_metric k) (bk_window k).

Record Baseline := {
  bl_key : BaselineKey;
  bl_sample_count : Z;
  bl_mean : float;
  bl_stddev : float;
  bl_updated_at : float
}.

Definition mk_Baseline (key : BaselineKey) (sample_count : Z) (mean stddev updated_at : float) : res Baseline :=
  _ ← raise_if (sample_count <? 0)%Z (DomainValidationError "sample_count");
  mean ← require_finite mean "mean";
  stddev ← require_non_negative stddev "stddev";
  updated_at ← require_timestamp updated_at "updated_at";
  Ok {| bl_key := key; bl_sample_count := sample_count; bl_mean := mean; bl_stddev := stddev;
        bl_updated_at := updated_at |}.

Definition z_score (b : Baseline) (observation : float) : res float :=
  value ← require_finite observation "observation";
  if feq (bl_stddev b) (fz 0)
  then Ok (if feq value (bl_mean b) then fz 0 else finf)
  else Ok (fdiv (fsub value (bl_mean b)) (bl_stddev b)).

(** [x ** 2]: a finite base whose square is not a finite number raises. *)
Definition fsquare (x : float) : res float :=
  let y := fmul x x in
  if isfinite x && negb (isfinite y) then Raise PyOverflowError else Ok y.

(** [Baseline.summarise]; the caller never passes an empty sequence, on which
    the division raises. *)
Definition summarise (key : BaselineKey) (samples : list float) (now : float) : res Baseline :=
  _ ← raise_if (match samples with [] => true | _ => false end) (PyException "ZeroDivisionError");
  let count := Z.of_nat (length samples) in
  let mean := fdiv (py_sum samples) (fz count) in
  squares ← res_map (fun value => fsquare (fsub value mean)) samples;
  let variance := fdiv (py_sum squares) (fz count) in
  _ ← raise_if (flt variance (fz 0)) PyValueError;
  mk_Baseline key count mean (fsqrt variance) now.

Record BaselineVerdict := {
  bv_anomalous : bool;
  bv_key : BaselineKey;
  bv_observation : float;
  bv_z_score : float;
  bv_threshold : float;
  bv_sample_count : Z;
  bv_used_peer_prior : bool
}.

Definition mk_BaselineVerdict (anomalous : bool) (key : BaselineKey) (observation z_score threshold : float)
    (sample_count : Z) (used_peer_prior : bool) : res BaselineVerdict :=
  observation ← require_finite observation "observation";
  threshold ← require_non_negative threshold "threshold";
  Ok {| bv_anomalous := anomalous; bv_key := key; bv_observation := observation;
        bv_z_score := z_score; bv_threshold := threshold; bv_sample_count := sample_count;
        bv_used_peer_prior := used_peer_prior |}.

Definition baseline_verdict_as_evidence (v : BaselineVerdict) : pyval :=
  pdict [("anomalous", PBool (bv_anomalous v)); ("key", PStr (baseline_canonical_key (bv_key v)));
         ("observation", PFloat (bv_observation v));
         ("z_score", if feq (bv_z_score v) finf then PNone else PFloat (bv_z_score v));
         ("threshold", PFloat (bv_threshold v)); ("sample_count", PInt (bv_sample_count v));
         ("used_peer_prior", PBool (bv_used_peer_prior v))].

Record BaselineStore := {
  bs_observations : list (string * list float);
  bs_min_samples : nat;
  bs_max_samples : nat;
  bs_max_subjects : Z;
  bs_available : bool
}.

Definition baseline_store_init (min_samples max_samples : nat) (max_subjects : Z) : BaselineStore :=
  {| bs_observations := []; bs_min_samples := min_samples; bs_max_samples := max_samples;
     bs_max_subjects := max_subjects; bs_available := true |}.

Definition baseline_require_available (s : BaselineStore) : res unit :=
  raise_if (negb (bs_available s)) BaselineStoreUnavailable.

Definition baseline_get (s : BaselineStore) (key : BaselineKey) (now : float) : res (option Baseline) :=
  _ ← baseline_require_available s;
  match od_get (bs_observations s) (baseline_canonical_key key) with
  | None | Some [] => Ok None
  | Some samples => b ← summarise key samples now; Ok (Some b)
  end.

Definition baseline_evaluate (s : BaselineStore) (key : BaselineKey) (observation : float)
    (peer_group : string) (threshold now : float) : res BaselineVerdict :=
  _ ← baseline_require_available s;
  let own := od_get (bs_observations s) (baseline_canonical_key key) in
  let short := match own with Some l => (length l <? bs_min_samples s)%nat | None => true end in
  '(used_peer_prior, effective_key, samples) ← (
    if short then
      k ← peer_group_fallback key peer_group;
      Ok (true, k, od_get (bs_observations s) (baseline_canonical_key k))
    else Ok (false, key, own));
  match samples with
  | None | Some [] => mk_BaselineVerdict true effective_key observation finf threshold 0 used_peer_prior
  | Some l =>
      baseline ← summarise effective_key l now;
      z ← z_score baseline observation;
      mk_BaselineVerdict (fgt (fabs z) threshold) effective_key observation z threshold
        (bl_sample_count baseline) used_peer_prior
  end.

(** [deque(maxlen=n).append(x)]. *)
Definition deque_append (maxlen : nat) (l : list float) (x : float) : list float :=
  let l' := l ++ [x] in drop (length l' - maxlen) l'.

Fixpoint evict_observations (max_subjects : Z) (w : list (string * list float))
    : res unit * list (string * list float) :=
  match w with
  | [] => ((if (max_subjects <? 0)%Z then Raise PyKeyError else Ok tt), w)
  | _ :: w' =>
      if (max_subjects <? Z.of_nat (length w))%Z then evict_observations max_subjects w'
      else (Ok tt, w)
  end.

Definition with_observations (s : BaselineStore) (w : list (string * list float)) : BaselineStore :=
  {| bs_observations := w; bs_min_samples := bs_min_samples s; bs_max_samples := bs_max_samples s;
     bs_max_subjects := bs_max_subjects s; bs_available := bs_available s |}.

Definition baseline_observe (s : BaselineStore) (key : BaselineKey) (observation : float)
    : res unit * BaselineStore :=
  match baseline_require_available s with
  | Raise e => (Raise e, s)
  | Ok _ =>
      let canonical := baseline_canonical_key key in
      let '(opened, s1) :=
        match od_get (bs_observations s) canonical with
        | Some _ => (Ok tt, s)
        | None =>
            let '(r, w) := evict_observations (bs_max_subjects s) (od_set (bs_observations s) canonical []) in
            (r, with_observations s w)
        end in
      match (_ ← opened; od_move_to_end (bs_observations s1) canonical) with
      | Raise e => (Raise e, s1)
      | Ok w =>
          (Ok tt, with_observations s1 (od_set w canonical
             (deque_append (bs_max_samples s1) (from_option id [] (od_get w canonical)) observation)))
      end
  end.

Definition baseline_set_available (s : BaselineStore) (available : bool) : BaselineStore :=
  {| bs_observations := bs_observations s; bs_min_samples := bs_min_samples s;
     bs_max_samples := bs_max_samples s; bs_max_subjects := bs_max_subjects s; bs_available := available |}.

Definition baseline_tracked_subjects (s : BaselineStore) : nat := length (bs_observations s).

(** ** [InMemoryMandateStore] *)

Record MandateStore := {
  ms_mandates : gmap (string * string) Mandate;
  ms_revoked : gset (string * string);
  ms_available : bool
}.

Definition mandate_store_init : MandateStore := {| ms_mandates := ∅; ms_revoked := ∅; ms_available := true |}.

Definition mandate_require_available (s : MandateStore) : res unit :=
  raise_if (negb (ms_available s)) MandateError.

Definition mandate_get (s : MandateStore) (tenant_id agent_ref : string) (now : float)
    : res (option Mandate) :=
  _ ← mandate_require_available s;
  match ms_mandates s !! (tenant_id, agent_ref) with
  | None => Ok None
  | Some m =>
      active ← mandate_is_active_at m now;
      Ok (if active : bool then Some m else None)
  end.

Definition mandate_is_revoked (s : MandateStore) (tenant_id agent_ref : string) (now : float) : res bool :=
  _ ← mandate_require_available s;
  if bool_decide ((tenant_id, agent_ref) ∈ ms_revoked s) then Ok true
  else match ms_mandates s !! (tenant_id, agent_ref) with
       | None => Ok true
       | Some m => mandate_is_revoked_at m now
       end.

Definition mandate_put (s : MandateStore) (m : Mandate) : MandateStore :=
  let k := (md_tenant_id m, md_agent_ref m) in
  {| ms_mandates := <[k := m]> (ms_mandates s); ms_revoked := ms_revoked s ∖ {[k]};
     ms_available := ms_available s |}.

Definition mandate_revoke (s : MandateStore) (tenant_id agent_ref : string) : MandateStore :=
  {| ms_mandates := ms_mandates s; ms_revoked := {[(tenant_id, agent_ref)]} ∪ ms_revoked s;
     ms_available := ms_available s |}.

Definition mandate_set_available (s : MandateStore) (available : bool) : MandateStore :=
  {| ms_mandates := ms_mandates s; ms_revoked := ms_revoked s; ms_available := available |}.

(** ** Facts about ordered dictionaries *)

Section ordered_dict_facts.
Context {A : Type}.
Implicit Types (d : list (string * A)).

Lemma od_get_set d k v k' :
  od_get (od_set d k v) k' = if (k =? k')%string then Some v else od_get d k'.
Proof.
  induction d as [|[k0 v0] d IH]; cbn [od_set od_get]; [done|].
  destruct (String.eqb_spec k0 k) as [->|Hk]; cbn [od_get].
  - by destruct (k =? k')%string.
  - rewrite IH. destruct (String.eqb_spec k0 k') as [->|]; [|done].
    by destruct (String.eqb_spec k k') as [->|].
Qed.

Lemma od_get_app d1 d2 k :
  od_get (d1 ++ d2) k = match od_get d1 k with Some v => Some v | None => od_get d2 k end.
Proof.
  induction d1 as [|[k0 v0] d1 IH]; cbn [od_get app]; [done|]. by destruct (k0 =? k)%string.
Qed.

Lemma od_get_delete d k k' :
  od_get (od_delete d k) k' = if (k =? k')%string then None else od_get d k'.
Proof.
  unfold od_delete. induction d as [|[k0 v0] d IH]; cbn [List.filter od_get fst].
  { by destruct (k =? k')%string. }
  destruct (String.eqb_spec k0 k) as [->|Hk]; cbn [negb od_get]; rewrite IH.
  - by destruct (k =? k')%string.
  - destruct (String.eqb_spec k0 k') as [->|]; [|done].
    by destruct (String.eqb_spec k k') as [->|].
Qed.

Lemma od_move_to_end_spec d k d' :
  od_move_to_end d k = Ok d' ->
  (forall k', od_get d' k' = od_get d k') /\ length d' <= length d.
Proof.
  unfold od_move_to_end. destruct (od_get d k) as [v|] eqn:E; [|done]. intros [= <-]. split.
  - intros k'. rewrite od_get_app, od_get_delete. cbn [od_get].
    destruct (String.eqb_spec k k') as [->|]; [by rewrite E|]. by destruct (od_get d k').
  - rewrite length_app. cbn [length].
    enough (length (od_delete d k) < length d) by lia.
    induction d as [|[k0 v0] d IH]; cbn [od_get] in E; [done|].
    cbn [od_delete List.filter fst]. destruct (k0 =? k)%string; cbn [negb length].
    + pose proof (List.filter_length_le (fun kv : string * A => negb (kv.1 =? k)%string) d). lia.
    + fold (od_delete d k). apply IH in E. lia.
Qed.

Lemma od_move_to_end_total d k v : od_get d k = Some v -> is_ok (od_move_to_end d k) = true.
Proof. unfold od_move_to_end. by intros ->. Qed.

Lemma od_set_length d k v :
  length (od_set d k v) = match od_get d k with Some _ => length d | None => Datatypes.S (length d) end.
Proof.
  induction d as [|[k0 v0] d IH]; cbn [od_set od_get length]; [done|].
  destruct (k0 =? k)%string; cbn [length]; [done|]. rewrite IH. by destruct (od_get d k).
Qed.

Lemma od_set_fresh d k v : od_get d k = None -> od_set d k v = d ++ [(k, v)].
Proof.
  induction d as [|[k0 v0] d IH]; cbn [od_set od_get app]; [done|].
  destruct (k0 =? k)%string; [done|]. by intros ->%IH.
Qed.
End ordered_dict_facts.

(** ** What an admission does *)

Definition entries_at (s : LimitStore) (k : string) : list entry :=
  from_option id [] (od_get (ls_windows s) k).

Lemma evict_spec m w k v c r w' c' :
  (1 <= m)%Z -> evict m (w ++ [(k, v)]) c = (r, (w', c')) ->
  r = Ok tt /\ (Z.of_nat (length w') <= m)%Z /\ (exists w0 w1, w = w0 ++ w1 /\ w' = w1 ++ [(k, v)]) /\
  ((Z.of_nat (length w) < m)%Z -> w' = w ++ [(k, v)] /\ c' = c).
Proof.
  intros Hm. revert c. induction w as [|[k0 v0] w IH]; intros c.
  - cbn [app evict length]. destruct (Z.ltb_spec m (Z.of_nat 1)); [lia|]. intros [= <- <- <-].
    split_and!; [done | cbn; lia | by exists [], [] | done].
  - cbn [app evict]. destruct (Z.ltb_spec m (Z.of_nat (length ((k0, v0) :: w ++ [(k, v)])))) as [Hl|Hl].
    + intros H%IH. destruct H as (-> & ? & (w0 & w1 & -> & ->) & _).
      split_and!; [done | done | by exists ((k0, v0) :: w0), w1 | ].
      cbn [length] in *. rewrite !length_app in *. cbn in *. lia.
    + intros [= <- <- <-]. split_and!; [done | lia | by exists [], ((k0, v0) :: w) | done].
Qed.

(** The counter [k] of the other store, everything else unchanged. *)
Definition same_others (s s' : LimitStore) (k : string) : Prop :=
  forall k', k' <> k -> od_get (ls_windows s') k' = od_get (ls_windows s) k'.

(** The two stores bound the number of counters alike, and agree on the others
    while there is room. *)
Definition bounded_step (s s' : LimitStore) (k : string) : Prop :=
  ((Z.of_nat (tracked_subjects s) <= ls_max_subjects s)%Z ->
     (Z.of_nat (tracked_subjects s') <= ls_max_subjects s)%Z) /\
  ((Z.of_nat (tracked_subjects s) < ls_max_subjects s)%Z -> same_others s s' k).

(** The counter is present and otherwise untouched before the window is
    trimmed. *)
Lemma open_counter_spec s k r s1 :
  (1 <= ls_max_subjects s)%Z -> open_counter s k = (r, s1) ->
  r = Ok tt /\ od_get (ls_windows s1) k = Some (entries_at s k) /\
  ls_cooldown_seconds s1 = ls_cooldown_seconds s /\ bounded_step s s1 k.
Proof.
  intros Hm. unfold open_counter, bounded_step, same_others, entries_at, tracked_subjects.
  destruct (od_get (ls_windows s) k) eqn:E.
  { intros [= <- <-]. by rewrite E. }
  rewrite (od_set_fresh _ _ _ E). destruct (evict _ _ _) as [r' [w c]] eqn:H. intros [= <- <-].
  apply evict_spec in H as (-> & Hl & (w0 & w1 & Hw0 & Hw) & Hroom); [|done].
  cbn [with_cooldowns with_windows ls_windows ls_cooldown_seconds from_option]. split_and!; try done.
  - rewrite Hw0, od_get_app in E. rewrite Hw, od_get_app.
    destruct (od_get w0 k); [done|]. rewrite E. cbn [od_get]. by rewrite String.eqb_refl.
  - intros Hr k' Hk. destruct (Hroom Hr) as [-> _]. rewrite od_get_app.
    destruct (od_get (ls_windows s) k'); [done|]. cbn [od_get]. by destruct (String.eqb_spec k k').
Qed.

(** How one [try_consume] ends: in cooldown; the same admission again; over the
    ceiling; or a new admission. *)
Inductive admission (s s' : LimitStore) (k member : string) (kept : list entry) (cost now : float)
    (v : LimitVerdict) : Prop :=
| AdmissionCooling until :
    ls_cooldowns s !! k = Some until -> flt now until = true ->
    lv_admitted v = false -> s' = s -> admission s s' k member kept cost now v
| AdmissionRepeated :
    member ∈ map (fun e : entry => e.1.2) kept ->
    lv_admitted v = true -> lv_observed v = entries_sum kept ->
    entries_at s' k = kept -> admission s s' k member kept cost now v
| AdmissionRefused :
    member ∉ map (fun e : entry => e.1.2) kept ->
    fgt (fadd (entries_sum kept) cost) (lv_limit v) = true ->
    lv_admitted v = false -> entries_at s' k = kept ->
    ls_cooldowns s' !! k = Some (fadd now (ls_cooldown_seconds s)) ->
    admission s s' k member kept cost now v
| AdmissionNew :
    member ∉ map (fun e : entry => e.1.2) kept ->
    fgt (fadd (entries_sum kept) cost) (lv_limit v) = false ->
    lv_admitted v = true -> lv_observed v = fadd (entries_sum kept) cost ->
    entries_at s' k = kept ++ [(now, member, cost)] -> admission s s' k member kept cost now v.

Lemma member_present member (l : list entry) :
  existsb (fun e : entry => (e.1.2 =? member)%string) l = true <-> member ∈ map (fun e : entry => e.1.2) l.
Proof.
  rewrite existsb_exists, list_elem_of_fmap. split.
  - intros (e & He & <-%String.eqb_eq). exists e. by rewrite list_elem_of_In.
  - intros (e & -> & He). exists e. rewrite <-list_elem_of_In. by rewrite String.eqb_refl.
Qed.

(** The three ways [consume] returns. *)
Definition consumed (k member : string) (kept : list entry) (ceiling cost now cooldown : float)
    (v : LimitVerdict) (s' : LimitStore) : Prop :=
  (member ∈ map (fun e : entry => e.1.2) kept /\ lv_admitted v = true /\
     lv_observed v = entries_sum kept /\ entries_at s' k = kept) \/
  ((member ∉ map (fun e : entry => e.1.2) kept) /\
     fgt (fadd (entries_sum kept) cost) ceiling = true /\ lv_admitted v = false /\
     entries_at s' k = kept /\ ls_cooldowns s' !! k = Some (fadd now cooldown)) \/
  ((member ∉ map (fun e : entry => e.1.2) kept) /\
     fgt (fadd (entries_sum kept) cost) ceiling = false /\ lv_admitted v = true /\
     lv_observed v = fadd (entries_sum kept) cost /\
     entries_at s' k = kept ++ [(now, member, cost)]).

Lemma consume_spec s key k member ceiling cost now entries v s' :
  od_get (ls_windows s) k = Some entries ->
  consume s key k member ceiling cost now entries = (Ok v, s') ->
  exists horizon, start_of (lk_window key) now = Ok horizon /\ lv_limit v = ceiling /\
    consumed k member (List.filter (live horizon) entries) ceiling cost now (ls_cooldown_seconds s) v s' /\
    tracked_subjects s' = tracked_subjects s /\ same_others s s' k.
Proof.
  intros Hk. unfold consume. destruct (start_of _ now) as [horizon|]; [|done].
  set (kept := List.filter (live horizon) entries). intros H.
  exists horizon. split; [done|].
  destruct (existsb _ kept) eqn:Hm;
    [apply member_present in Hm |
     assert (Hn : member ∉ map (fun e : entry => e.1.2) kept)
       by (rewrite <-member_present; congruence);
     destruct (fgt _ ceiling) eqn:Hc];
    injection H as Hv <-; apply mk_LimitVerdict_ok in Hv as (Ha & _ & Hl & Ho & _);
    unfold consumed, entries_at, tracked_subjects, same_others;
    cbn [with_windows with_cooldowns ls_windows ls_cooldowns];
    (split_and!; [done | | | ]);
    try (rewrite ?od_set_length, ?od_get_set, ?String.eqb_refl, ?Hk; reflexivity);
    try (intros k' Hk'; rewrite !od_get_set; destruct (String.eqb_spec k k'); [congruence|done]).
  - left. by rewrite od_get_set, String.eqb_refl.
  - right; left. rewrite od_get_set, String.eqb_refl. rewrite lookup_insert_eq. done.
  - right; right. rewrite od_get_set, String.eqb_refl. done.
Qed.

Lemma open_and_consume_spec s key k member ceiling cost now v s' :
  (1 <= ls_max_subjects s)%Z ->
  open_and_consume s key k member ceiling cost now = (Ok v, s') ->
  exists horizon, start_of (lk_window key) now = Ok horizon /\ lv_limit v = ceiling /\
    consumed k member (List.filter (live horizon) (entries_at s k)) ceiling cost now
      (ls_cooldown_seconds s) v s' /\ bounded_step s s' k.
Proof.
  intros Hm. unfold open_and_consume. destruct (open_counter s k) as [r s1] eqn:Hopen.
  apply open_counter_spec in Hopen as (-> & Hget & Hcd & Hlen & Hothers); [|done]. cbn [mbind res_bind].
  destruct (od_move_to_end _ k) as [w2|] eqn:Hmv; [|done].
  apply od_move_to_end_spec in Hmv as [Hg2 Hl2]. rewrite Hg2, Hget. cbn [from_option id].
  intros H. apply consume_spec in H as (horizon & Hh & Hlim & Hcase & Htr & Hoth); [|by cbn; rewrite Hg2].
  cbn [with_windows ls_cooldown_seconds] in Hcase. rewrite Hcd in Hcase.
  exists horizon. split_and!; try done. unfold tracked_subjects in *. split.
  - unfold tracked_subjects. rewrite Htr. cbn [with_windows ls_windows]. lia.
  - intros Hr k' Hk'. rewrite (Hoth k' Hk'). cbn [with_windows ls_windows]. rewrite Hg2.
    by apply Hothers.
Qed.

Lemma consumed_admission s s' k member kept cost now v :
  consumed k member kept (lv_limit v) cost now (ls_cooldown_seconds s) v s' ->
  admission s s' k member kept cost now v.
Proof.
  intros [(? & ? & ? & ?)|[(? & ? & ? & ? & ?)|(? & ? & ? & ? & ?)]].
  - by apply AdmissionRepeated.
  - by apply AdmissionRefused.
  - by apply AdmissionNew.
Qed.

(** Check-and-consume is exact.  With room for at least one counter, a
    [try_consume] that returns is one of: refused because the counter is in
    cooldown, the store unchanged; admitted as the admission it already holds,
    nothing added; refused because the window's sum and the cost exceed the
    ceiling, nothing added and the cooldown set; or admitted within the ceiling
    with exactly one entry added.  The entries that leave the window are the
    only ones dropped, the number of tracked counters stays within the bound,
    and while there is room no other counter changes. *)
Theorem limit_admission_is_exact s key cost d now v s' :
  (1 <= ls_max_subjects s)%Z ->
  try_consume s key cost d now = (Ok v, s') ->
  exists member horizon,
    member_for d now = Ok member /\ start_of (lk_window key) now = Ok horizon /\
    admission s s' (canonical_key key) member
      (List.filter (live horizon) (entries_at s (canonical_key key))) cost now v /\
    lv_limit v = from_option id (ls_default_limit s) (ls_limits s !! canonical_key key) /\
    bounded_step s s' (canonical_key key).
Proof.
  intros Hm. unfold try_consume.
  destruct (limit_require_available s ≫= _) as [member|] eqn:Hmem; [|done].
  apply bind_ok in Hmem as ([] & _ & Hmem).
  set (k := canonical_key key). destruct (ls_cooldowns s !! k) as [u|] eqn:Hu; [destruct (flt now u) eqn:Hnow|].
  - intros [= Hv <-]. apply bind_ok in Hv as (o & Ho & Hv). apply mk_LimitVerdict_ok in Hv as (? & _ & ? & ? & _).
    unfold observed_in in Ho. apply bind_ok in Ho as (horizon & Hh & _).
    exists member, horizon. split_and!; try done. by eapply AdmissionCooling.
  - intros H. apply open_and_consume_spec in H as (horizon & Hh & Hl & Hcase & Hb); [|done].
    exists member, horizon. split_and!; try done. rewrite <-Hl in Hcase. by apply consumed_admission.
  - intros H. apply open_and_consume_spec in H as (horizon & Hh & Hl & Hcase & Hb); [|done].
    exists member, horizon. split_and!; try done. rewrite <-Hl in Hcase. by apply consumed_admission.
Qed.

Definition sample_limits : LimitStore := limit_store_init ∅ (fz 2) (fz 300) 10.

Definition verdict_of (r : res LimitVerdict * LimitStore) : LimitVerdict :=
  match r with
  | (Ok v, _) => v
  | (Raise _, _) =>
      {| lv_admitted := false; lv_key := sample_key; lv_limit := fz 0; lv_observed := fz 0;
         lv_evaluated_at := fz 0; lv_retry_after_s := None; lv_cooldown_until := None |}
  end.

Definition sample_consumed := try_consume sample_limits sample_key (fz 1) "d1" (fz 100).

Lemma limit_admission_is_exact_witness :
  lv_admitted (verdict_of sample_consumed) = true /\
  bounded_step sample_limits sample_consumed.2 (canonical_key sample_key).
Proof.
  split; [vm_compute; reflexivity|].
  edestruct (limit_admission_is_exact sample_limits sample_key (fz 1) "d1" (fz 100)
               (verdict_of sample_consumed) sample_consumed.2) as (m & h & _ & _ & _ & _ & Hb).
  - vm_compute. discriminate.
  - vm_compute. reflexivity.
  - exact Hb.
Defined.

(** Releasing one decision's budget also releases that of a decision whose id
    ends in the same way after a colon. *)
Example release_frees_another_decision :
  let s := (try_consume sample_limits sample_key (fz 1) "batch:d1" (fz 100)).2 in
  length (entries_at s (canonical_key sample_key)) = 1 /\
  length (entries_at (release s sample_key "d1").2 (canonical_key sample_key)) = 0.
Proof. vm_compute. done. Qed.

(** A decision id that comes back later in the window is a second admission. *)
Example repeated_decision_counts_twice :
  let s := (try_consume sample_limits sample_key (fz 1) "d1" (fz 100)).2 in
  lv_observed (verdict_of (try_consume s sample_key (fz 1) "d1" (fz 101))) = fz 2.
Proof. vm_compute. done. Qed.

(** ** Cold start *)

Lemma mk_BaselineVerdict_ok a k o z t n u v :
  mk_BaselineVerdict a k o z t n u = Ok v ->
  bv_anomalous v = a /\ bv_key v = k /\ bv_z_score v = z /\ bv_used_peer_prior v = u.
Proof. unfold mk_BaselineVerdict. intros H. inv_ok. by subst v. Qed.

(** The samples held for a key. *)
Definition samples_at (s : BaselineStore) (k : BaselineKey) : list float :=
  from_option id [] (od_get (bs_observations s) (baseline_canonical_key k)).

(** A subject with too little history is never exempt from detection:
    the verdict is taken against its peer group and says so, and where the peer
    group has no history either the observation is anomalous. *)
Theorem cold_start_is_judged_by_peers s key o peer t now v :
  length (samples_at s key) < bs_min_samples s ->
  baseline_evaluate s key o peer t now = Ok v ->
  exists pk, peer_group_fallback key peer = Ok pk /\ bv_key v = pk /\ bv_used_peer_prior v = true /\
    (samples_at s pk = [] -> bv_anomalous v = true) /\
    (samples_at s pk <> [] ->
       exists b z, summarise pk (samples_at s pk) now = Ok b /\ z_score b o = Ok z /\
                   bv_anomalous v = fgt (fabs z) t).
Proof.
  unfold samples_at, baseline_evaluate. intros Hshort H. apply bind_ok in H as (_ & _ & H).
  assert (E : match od_get (bs_observations s) (baseline_canonical_key key) with
              | Some l => (length l <? bs_min_samples s)%nat | None => true end = true).
  { destruct (od_get _ _); [|done]. by apply Nat.ltb_lt. }
  rewrite E in H. apply bind_ok in H as ([[u pk] samples] & Hk & H).
  apply bind_ok in Hk as (pk' & Hk & [= <- <- <-]). exists pk'. split; [done|].
  destruct (od_get _ (baseline_canonical_key pk')) as [[|x l]|]; cbn [from_option id];
    try (apply mk_BaselineVerdict_ok in H as (? & ? & ? & ?); by split_and!).
  apply bind_ok in H as (b & Hb & H). apply bind_ok in H as (z & Hz & H).
  apply mk_BaselineVerdict_ok in H as (? & ? & ? & ?). split_and!; try done. intros _. by exists b, z.
Qed.

Definition sample_baseline_key : BaselineKey :=
  {| bk_tenant_id := "t1"; bk_scope := BASELINE_AGENT; bk_subject := "agent-1";
     bk_metric := "exposure_monetary"; bk_window := {| win_seconds := 60 |} |}.
Definition sample_baselines : BaselineStore := baseline_store_init 30 512 10.
Definition sample_baseline_verdict : BaselineVerdict :=
  {| bv_anomalous := true;
     bv_key := {| bk_tenant_id := "t1"; bk_scope := BASELINE_PEER_GROUP; bk_subject := "payments.wire";
                  bk_metric := "exposure_monetary"; bk_window := {| win_seconds := 60 |} |};
     bv_observation := fz 5; bv_z_score := finf; bv_threshold := fz 3; bv_sample_count := 0;
     bv_used_peer_prior := true |}.

Lemma cold_start_is_judged_by_peers_witness :
  bv_used_peer_prior sample_baseline_verdict = true.
Proof.
  destruct (cold_start_is_judged_by_peers sample_baselines sample_baseline_key (fz 5) "payments.wire"
              (fz 3) (fz 100) sample_baseline_verdict) as (pk & _ & _ & Hu & _).
  - vm_compute. lia.
  - vm_compute. reflexivity.
  - exact Hu.
Defined.

(** ** Revocation *)

Inductive mandate_op :=
| MPut (m : Mandate)
| MRevoke (tenant_id agent_ref : string)
| MSetAvailable (available : bool).

Definition mandate_apply (s : MandateStore) (op : mandate_op) : MandateStore :=
  match op with
  | MPut m => mandate_put s m
  | MRevoke t a => mandate_revoke s t a
  | MSetAvailable b => mandate_set_available s b
  end.

Definition mandate_run : MandateStore -> list mandate_op -> MandateStore := foldl mandate_apply.

(** No operation of the list issues a new mandate to this agent. *)
Definition not_reissued (t a : string) (ops : list mandate_op) : Prop :=
  Forall (fun op => match op with MPut m => (md_tenant_id m, md_agent_ref m) <> (t, a) | _ => True end) ops.

Lemma revoked_stays s t a ops :
  not_reissued t a ops -> (t, a) ∈ ms_revoked s -> (t, a) ∈ ms_revoked (mandate_run s ops).
Proof.
  unfold mandate_run. revert s. induction ops as [|op ops IH]; intros s Hn Hin; [done|].
  apply Forall_cons in Hn as [Hop Hn]. cbn [foldl]. apply IH; [done|].
  destruct op; cbn [mandate_apply mandate_put mandate_revoke mandate_set_available ms_revoked]; set_solver.
Qed.

Lemma never_issued s t a ops :
  not_reissued t a ops -> ms_mandates s !! (t, a) = None ->
  ms_mandates (mandate_run s ops) !! (t, a) = None.
Proof.
  unfold mandate_run. revert s. induction ops as [|op ops IH]; intros s Hn Hin; [done|].
  apply Forall_cons in Hn as [Hop Hn]. cbn [foldl]. apply IH; [done|].
  destruct op; cbn [mandate_apply mandate_put mandate_revoke mandate_set_available ms_mandates]; try done.
  by rewrite lookup_insert_ne.
Qed.

(** Revocation holds until a new mandate is issued to the agent: after
    [revoke], whatever else happens to the store, [is_revoked] answers true or
    raises because the store is unreachable.  An agent that was never issued a
    mandate has none and counts as revoked. *)
Theorem revocation_holds s t a ops now :
  not_reissued t a ops ->
  (mandate_is_revoked (mandate_run (mandate_revoke s t a) ops) t a now
     ∈ [Ok true; Raise MandateError]) /\
  (ms_mandates s !! (t, a) = None ->
     mandate_get (mandate_run s ops) t a now ∈ [Ok None; Raise MandateError] /\
     mandate_is_revoked (mandate_run s ops) t a now ∈ [Ok true; Raise MandateError]).
Proof.
  intros Hn. split_and!.
  - unfold mandate_is_revoked, mandate_require_available, raise_if. rewrite bool_decide_eq_true_2.
    + case_match; cbn; set_solver.
    + apply revoked_stays; [done|]. cbn. set_solver.
  - intros Hnone. pose proof (never_issued s t a ops Hn Hnone) as Hno.
    unfold mandate_get, mandate_is_revoked, mandate_require_available, raise_if. rewrite Hno.
    destruct (negb _), (bool_decide _); cbn; set_solver.
Qed.

Lemma revocation_holds_witness :
  mandate_is_revoked (mandate_run (mandate_revoke (mandate_put mandate_store_init sample_mandate)
    "t1" "agent-1") [MRevoke "t1" "agent-2"; MSetAvailable true]) "t1" "agent-1" (fz 20)
    ∈ [Ok true; Raise MandateError].
Proof.
  apply (revocation_holds (mandate_put mandate_store_init sample_mandate) "t1" "agent-1"
           [MRevoke "t1" "agent-2"; MSetAvailable true] (fz 20)).
  repeat constructor.
Defined.
