(* ===== verification/Redis.v ===== *)
(** * The Redis stores ([glassbox/adapters/outbound/redis/])

    The Lua scripts of the distributed limit store and the commands of the
    baseline store, over a Redis server that is a parameter: a class of the
    commands used, with what Redis documents of them as laws on the contents of
    the keys and on the time they have left.  A script runs alone, so the
    replicas' calls are a sequence.  The limit store is shown to answer as the
    in-memory store does. *)

From stdpp Require Import base tactics list strings gmap.
From Stdlib Require Import ZArith Lia Ascii Floats.SpecFloat.
From S2P Require Import Prelude PyFloat PyStr Serialization Action Limits Kms Mandate GovernanceState.

Open Scope string_scope.
Open Scope list_scope.

(** ** The server *)

(** What a key holds: nothing, or one kind of value. *)
Record value := {
  v_zset : gmap string float;
  v_hash : gmap string float;
  v_number : option float;
  v_list : list float
}.

Definition no_value : value := {| v_zset := ∅; v_hash := ∅; v_number := None; v_list := [] |}.
Definition set_zset (z : gmap string float) (v : value) : value :=
  {| v_zset := z; v_hash := v_hash v; v_number := v_number v; v_list := v_list v |}.
Definition set_hash (h : gmap string float) (v : value) : value :=
  {| v_zset := v_zset v; v_hash := h; v_number := v_number v; v_list := v_list v |}.
Definition set_number (n : option float) (v : value) : value :=
  {| v_zset := v_zset v; v_hash := v_hash v; v_number := n; v_list := v_list v |}.
Definition set_list (l : list float) (v : value) : value :=
  {| v_zset := v_zset v; v_hash := v_hash v; v_number := v_number v; v_list := l |}.

(** The commands, and time passing at the server, in milliseconds.  Numbers
    passed to a command keep their value; the text of [tostring] is the number
    it reads as. *)
Class Redis (R : Type) := {
  zadd : R -> string -> float -> string -> R;
  zrem : R -> string -> list string -> R;
  zrange : R -> string -> Z -> Z -> list string;
  zrangebyscore_upto : R -> string -> float -> list string;
  zrangebyscore_above : R -> string -> float -> list string;
  zcard : R -> string -> Z;
  hset : R -> string -> string -> float -> R;
  hdel : R -> string -> list string -> R;
  hmget : R -> string -> list string -> list (option float);
  hexists : R -> string -> string -> bool;
  get : R -> string -> option float;
  set : R -> string -> float -> R;
  del : R -> list string -> R;
  expire : R -> string -> Z -> R;
  lpush : R -> string -> float -> R;
  ltrim : R -> string -> Z -> Z -> R;
  lrange : R -> string -> list float;
  elapse : R -> Z -> R;
  tostring : float -> float;
  unpackable : nat -> bool
}.

(** The documented behaviour, on the contents of the keys and the milliseconds
    each has left, if it is to expire. *)
Class RedisLaws (R : Type) `{Redis R} := {
  contents : R -> string -> value;
  remaining : R -> string -> option Z;
  zadd_spec : forall r k s m k', contents (zadd r k s m) k' =
    if decide (k' = k) then set_zset (<[m := s]> (v_zset (contents r k))) (contents r k) else contents r k';
  zrem_spec : forall r k l k', contents (zrem r k l) k' =
    if decide (k' = k) then set_zset (filter (fun ms => ms.1 ∉ l) (v_zset (contents r k))) (contents r k) else contents r k';
  hset_spec : forall r k m x k', contents (hset r k m x) k' =
    if decide (k' = k) then set_hash (<[m := x]> (v_hash (contents r k))) (contents r k) else contents r k';
  hdel_spec : forall r k l k', contents (hdel r k l) k' =
    if decide (k' = k) then set_hash (filter (fun ms => ms.1 ∉ l) (v_hash (contents r k))) (contents r k) else contents r k';
  set_spec : forall r k x k', contents (set r k x) k' =
    if decide (k' = k) then set_number (Some x) (contents r k) else contents r k';
  del_spec : forall r l k', contents (del r l) k' = if decide (k' ∈ l) then no_value else contents r k';
  expire_spec : forall r k ttl k', (0 < ttl)%Z -> contents (expire r k ttl) k' = contents r k';
  lpush_spec : forall r k x k', contents (lpush r k x) k' =
    if decide (k' = k) then set_list (x :: v_list (contents r k)) (contents r k) else contents r k';
  ltrim_spec : forall r k n k', (0 < n)%Z -> contents (ltrim r k 0 (n - 1)) k' =
    if decide (k' = k) then set_list (take (Z.to_nat n) (v_list (contents r k))) (contents r k) else contents r k';
  zrange_spec : forall r k, zrange r k 0 (-1) ≡ₚ map fst (map_to_list (v_zset (contents r k)));
  upto_spec : forall r k h, zrangebyscore_upto r k h ≡ₚ
    map fst (List.filter (fun ms => fle ms.2 h) (map_to_list (v_zset (contents r k))));
  above_spec : forall r k h, zrangebyscore_above r k h ≡ₚ
    map fst (List.filter (fun ms => fgt ms.2 h) (map_to_list (v_zset (contents r k))));
  hmget_spec : forall r k l, hmget r k l = map (fun m => v_hash (contents r k) !! m) l;
  hexists_spec : forall r k m, hexists r k m = bool_decide (is_Some (v_hash (contents r k) !! m));
  get_spec : forall r k, get r k = v_number (contents r k);
  lrange_spec : forall r k, lrange r k = v_list (contents r k);
  absent_remaining : forall r k, contents r k = no_value -> remaining r k = None;
  expire_remaining : forall r k ttl k', (0 < ttl)%Z -> contents r k <> no_value ->
    remaining (expire r k ttl) k' = if decide (k' = k) then Some (1000 * ttl)%Z else remaining r k';
  lpush_remaining : forall r k x k', k' <> k -> remaining (lpush r k x) k' = remaining r k';
  ltrim_remaining : forall r k i j k', k' <> k -> remaining (ltrim r k i j) k' = remaining r k';
  elapse_spec : forall r d k, (0 <= d)%Z -> contents (elapse r d) k =
    match remaining r k with Some t => if (t <=? d)%Z then no_value else contents r k | None => contents r k end;
  elapse_remaining : forall r d k, (0 <= d)%Z -> remaining (elapse r d) k =
    match remaining r k with Some t => if (t <=? d)%Z then None else Some (t - d)%Z | None => None end
}.

(** ** Scripts: a state and error monad.  An error keeps what was done. *)

Definition script (R A : Type) : Type := R -> option A * R.

#[export] Instance script_ret {R} : MRet (script R) := fun A a r => (Some a, r).
#[export] Instance script_bind {R} : MBind (script R) := fun A B f x r =>
  match x r with (Some a, r') => f a r' | (None, r') => (None, r') end.

Definition tell {R} (f : R -> R) : script R unit := fun r => (Some tt, f r).
Definition ask {R A} (f : R -> A) : script R A := fun r => (Some (f r), r).
Definition script_error {R A} : script R A := fun r => (None, r).

(** What may happen to a call: the server is not reached, or the script runs
    and its answer is lost. *)
Inductive redis_fault := NoRedisFault | Unreachable | ReplyLost.

Definition run_script {R A} (f : redis_fault) (s : script R A) (r : R) : option A * R :=
  match f with
  | NoRedisFault => s r
  | Unreachable => (None, r)
  | ReplyLost => (None, (s r).2)
  end.

Section scripts.
Context {R : Type} `{Redis R}.

(** [unpack(l)] as the arguments of a command: too many do not fit the stack. *)
Definition unpack {A} (l : list string) (k : script R A) : script R A :=
  if unpackable (length l) then k else script_error.

(** [math.ceil] of a finite number. *)
Definition ceil (x : float) : option Z :=
  match x with
  | S754_zero _ => Some 0%Z
  | S754_finite s m e =>
      if (0 <=? e)%Z then Some (if s then - (Zpos m * 2 ^ e) else Zpos m * 2 ^ e)%Z
      else Some (if s then - (Zpos m / 2 ^ (- e)) else - (- Zpos m / 2 ^ (- e)))%Z
  | _ => None
  end.

(** The loop adding the costs that are there. *)
Definition lua_sum (costs : list (option float)) : float :=
  foldl (fun total c => match c with Some x => fadd total x | None => total end) (fz 0) costs.

Definition script_observed (window_key cost_key : string) : script R float :=
  members ← ask (fun r => zrange r window_key 0 (-1));
  match members with
  | [] => mret (fz 0)
  | _ => costs ← unpack members (ask (fun r => hmget r cost_key members)); mret (lua_sum costs)
  end.

(** What the consume script returns: admitted, observed, limit, and the two
    texts that may be empty. *)
Record consume_reply := {
  cr_admitted : bool;
  cr_observed : float;
  cr_limit : float;
  cr_retry_after : option float;
  cr_cooldown_until : option float
}.

(** Removing members from the window and their costs. *)
Definition script_remove (window_key cost_key : string) (members : list string) : script R unit :=
  match members with
  | [] => mret tt
  | _ => _ ← unpack members (tell (fun r => zrem r window_key members));
         unpack members (tell (fun r => hdel r cost_key members))
  end.

Definition script_reply (ceiling : float) (admitted : bool) (observed : float) (retry until : option float) : consume_reply :=
  {| cr_admitted := admitted; cr_observed := tostring observed; cr_limit := tostring ceiling;
     cr_retry_after := retry; cr_cooldown_until := until |}.

(** The script from the check for a repeated member on. *)
Definition script_admit (window_key cost_key cooldown_key : string) (now : float) (member : string)
    (cost ceiling cooldown_seconds : float) (ttl : Z) : script R consume_reply :=
  present ← ask (fun r => hexists r cost_key member);
  if (present : bool)
  then o ← script_observed window_key cost_key; mret (script_reply ceiling true o None None)
  else
    current ← script_observed window_key cost_key;
    if fgt (fadd current cost) ceiling then
      let trip_until := fadd now cooldown_seconds in
      _ ← tell (fun r => set r cooldown_key (tostring trip_until));
      _ ← (match ceil cooldown_seconds with
           | Some n => tell (fun r => expire r cooldown_key (Z.max 1 n))
           | None => script_error
           end);
      mret (script_reply ceiling false (fadd current cost) (Some (tostring cooldown_seconds)) (Some (tostring trip_until)))
    else
      _ ← tell (fun r => zadd r window_key now member);
      _ ← tell (fun r => hset r cost_key member cost);
      _ ← tell (fun r => expire r window_key ttl);
      _ ← tell (fun r => expire r cost_key ttl);
      mret (script_reply ceiling true (fadd current cost) None None).

Definition CONSUME_SCRIPT (window_key cost_key cooldown_key : string) (now horizon : float) (member : string)
    (cost ceiling cooldown_seconds : float) (ttl : Z) : script R consume_reply :=
  expired ← ask (fun r => zrangebyscore_upto r window_key horizon);
  _ ← script_remove window_key cost_key expired;
  cooldown_until ← ask (fun r => get r cooldown_key);
  let go_on := script_admit window_key cost_key cooldown_key now member cost ceiling cooldown_seconds ttl in
  match cooldown_until with
  | Some until =>
      if flt now until then
        o ← script_observed window_key cost_key;
        mret (script_reply ceiling false o (Some (tostring (fsub until now))) (Some (tostring until)))
      else _ ← tell (fun r => del r [cooldown_key]); go_on
  | None => go_on
  end.

Definition CUMULATIVE_SCRIPT (window_key cost_key : string) (horizon : float) : script R float :=
  members ← ask (fun r => zrangebyscore_above r window_key horizon);
  match members with
  | [] => mret (fz 0)
  | _ => costs ← unpack members (ask (fun r => hmget r cost_key members)); mret (tostring (lua_sum costs))
  end.

(** [string.sub(m, -string.len(suffix)) == suffix]. *)
Definition RELEASE_SCRIPT (window_key cost_key suffix : string) : script R Z :=
  all_members ← ask (fun r => zrange r window_key 0 (-1));
  let to_remove := List.filter (endswith suffix) all_members in
  _ ← script_remove window_key cost_key to_remove;
  mret (Z.of_nat (length to_remove)).

Fixpoint evict_subjects (subjects_key : string) (oldest : list string) : script R unit :=
  match oldest with
  | [] => mret tt
  | s :: rest =>
      _ ← tell (fun r => del r [s +:+ ":w"; s +:+ ":c"; s +:+ ":cd"]);
      _ ← tell (fun r => zrem r subjects_key [s]);
      evict_subjects subjects_key rest
  end.

Definition TENANT_QUOTA_SCRIPT (subjects_key : string) (now : float) (subject : string) (max_subjects : Z) : script R Z :=
  _ ← tell (fun r => zadd r subjects_key now subject);
  if (max_subjects <=? 0)%Z then mret 0%Z
  else
    count ← ask (fun r => zcard r subjects_key);
    if (max_subjects <? count)%Z then
      oldest ← ask (fun r => zrange r subjects_key 0 (count - max_subjects - 1));
      _ ← evict_subjects subjects_key oldest;
      mret (Z.of_nat (length oldest))
    else mret 0%Z.
End scripts.

(** ** [RedisLimitStore] *)

Record RedisLimitStore := {
  rl_limits : gmap string float;
  rl_default_limit : float;
  rl_cooldown_seconds : float;
  rl_key_prefix : string;
  rl_max_tenant_subjects : Z
}.

Definition TTL_PADDING_SECONDS : Z := 60.

Definition redis_prefixed (c : RedisLimitStore) (key : LimitKey) : string :=
  rl_key_prefix c +:+ "{" +:+ lk_tenant_id key +:+ "}:" +:+ canonical_key key.
Definition window_key (c : RedisLimitStore) (key : LimitKey) : string := redis_prefixed c key +:+ ":w".
Definition cost_key (c : RedisLimitStore) (key : LimitKey) : string := redis_prefixed c key +:+ ":c".
Definition cooldown_key (c : RedisLimitStore) (key : LimitKey) : string := redis_prefixed c key +:+ ":cd".
Definition tenant_subjects_key (c : RedisLimitStore) (key : LimitKey) : string :=
  rl_key_prefix c +:+ "{" +:+ lk_tenant_id key +:+ "}:tenant_subjects".

Definition redis_configure (c : RedisLimitStore) (key : LimitKey) (ceiling : float) : RedisLimitStore :=
  {| rl_limits := <[canonical_key key := ceiling]> (rl_limits c); rl_default_limit := rl_default_limit c;
     rl_cooldown_seconds := rl_cooldown_seconds c; rl_key_prefix := rl_key_prefix c;
     rl_max_tenant_subjects := rl_max_tenant_subjects c |}.

Section limit_store.
Context {R : Type} `{Redis R}.
Variable c : RedisLimitStore.

(** [int(window.seconds + cooldown_seconds + padding)]. *)
Definition redis_ttl (key : LimitKey) : res Z :=
  match trunc (fadd (fadd (fz (win_seconds (lk_window key))) (rl_cooldown_seconds c)) (fz TTL_PADDING_SECONDS)) with
  | Some n => Ok n
  | None => Raise PyOverflowError
  end.

Definition redis_verdict (key : LimitKey) (now : float) (reply : consume_reply) : res LimitVerdict :=
  mk_LimitVerdict (cr_admitted reply) key (cr_limit reply) (cr_observed reply) now
    (cr_retry_after reply) (cr_cooldown_until reply).

Definition redis_consume_script (key : LimitKey) (member : string) (horizon cost now : float) (ttl : Z)
    : script R consume_reply :=
  CONSUME_SCRIPT (window_key c key) (cost_key c key) (cooldown_key c key) now horizon member cost
    (from_option id (rl_default_limit c) (rl_limits c !! canonical_key key)) (rl_cooldown_seconds c) ttl.

(** [quota] and [f] are what happens to the two calls. *)
Definition redis_try_consume (quota f : redis_fault) (r : R) (key : LimitKey) (cost : float) (decision_id : string)
    (now : float) : res LimitVerdict * R :=
  match (member ← member_for decision_id now; horizon ← start_of (lk_window key) now;
         ttl ← redis_ttl key; Ok (member, horizon, ttl)) with
  | Raise e => (Raise e, r)
  | Ok (member, horizon, ttl) =>
      let '(admitted, r1) :=
        if (rl_max_tenant_subjects c =? 0)%Z then (Some 0%Z, r)
        else run_script quota (TENANT_QUOTA_SCRIPT (tenant_subjects_key c key) now (redis_prefixed c key)
                                 (rl_max_tenant_subjects c)) r in
      match admitted with
      | None => (Raise LimitStoreUnavailable, r1)
      | Some _ =>
          match run_script f (redis_consume_script key member horizon cost now ttl) r1 with
          | (None, r2) => (Raise LimitStoreUnavailable, r2)
          | (Some reply, r2) => (redis_verdict key now reply, r2)
          end
      end
  end.

Definition redis_cumulative (f : redis_fault) (r : R) (key : LimitKey) (window : Window) (now : float) : res float :=
  horizon ← start_of window now;
  match (run_script f (CUMULATIVE_SCRIPT (window_key c key) (cost_key c key) horizon) r).1 with
  | Some total => Ok total
  | None => Raise LimitStoreUnavailable
  end.

Definition redis_release (f : redis_fault) (r : R) (key : LimitKey) (decision_id : string) : res unit * R :=
  match run_script f (RELEASE_SCRIPT (window_key c key) (cost_key c key) (":" +:+ decision_id)) r with
  | (Some _, r') => (Ok tt, r')
  | (None, r') => (Raise LimitStoreUnavailable, r')
  end.
End limit_store.

(** ** One counter, abstractly

    The contract both limit stores are checked against: the admissions of a
    window and the time a tripped breaker stays closed. *)
Record budget := { bg_entries : list entry; bg_cooldown : option float }.

Definition budget_init : budget := {| bg_entries := []; bg_cooldown := None |}.

(** Admitted, observed, retry after, cooldown until. *)
Abbreviation budget_answer := (bool * float * option float * option float)%type.

Definition member_of (e : entry) : string := e.1.2.

Definition budget_admit (kept : list entry) (member : string) (cost ceiling cooldown_seconds now : float)
    : budget_answer * budget :=
  let observed := entries_sum kept in
  if existsb (fun e : entry => (member_of e =? member)%string) kept
  then ((true, observed, None, None), {| bg_entries := kept; bg_cooldown := None |})
  else if fgt (fadd observed cost) ceiling
  then let until := fadd now cooldown_seconds in
       ((false, fadd observed cost, Some cooldown_seconds, Some until),
        {| bg_entries := kept; bg_cooldown := Some until |})
  else ((true, fadd observed cost, None, None),
        {| bg_entries := kept ++ [(now, member, cost)]; bg_cooldown := None |}).

Definition budget_consume (b : budget) (horizon : float) (member : string) (cost ceiling cooldown_seconds now : float)
    : budget_answer * budget :=
  let kept := List.filter (live horizon) (bg_entries b) in
  match bg_cooldown b with
  | Some until =>
      if flt now until
      then ((false, entries_sum kept, Some (fsub until now), Some until), b)
      else budget_admit kept member cost ceiling cooldown_seconds now
  | None => budget_admit kept member cost ceiling cooldown_seconds now
  end.

Definition budget_release (b : budget) (suffix : string) : budget :=
  {| bg_entries := List.filter (fun e => negb (endswith suffix (member_of e))) (bg_entries b);
     bg_cooldown := bg_cooldown b |}.

(** ** The in-memory store keeps a budget *)

Section memory.
Variable key : LimitKey.
Let k := canonical_key key.

(** A store that has seen no other counter. *)
Record holds (s : LimitStore) (b : budget) : Prop := {
  ho_windows : ls_windows s = [(k, bg_entries b)] \/ (ls_windows s = [] /\ bg_entries b = []);
  ho_cooldown : ls_cooldowns s !! k = bg_cooldown b;
  ho_room : (1 <= ls_max_subjects s)%Z;
  ho_available : ls_available s = true
}.

Lemma opened_counter s b :
  holds s b ->
  match (_ ← (open_counter s k).1; od_move_to_end (ls_windows (open_counter s k).2) k) with
  | Ok w => w = [(k, bg_entries b)]
  | Raise _ => False
  end /\ holds (open_counter s k).2 b /\ ls_cooldown_seconds (open_counter s k).2 = ls_cooldown_seconds s /\
  ls_limits (open_counter s k).2 = ls_limits s /\ ls_default_limit (open_counter s k).2 = ls_default_limit s.
Proof.
  intros [[Hw|[Hw Hb]] Hc Hr Ha].
  - unfold open_counter. rewrite Hw. cbn [od_get]. rewrite String.eqb_refl. cbn [fst snd mbind res_bind].
    rewrite Hw. unfold od_move_to_end. cbn [od_get]. rewrite String.eqb_refl. cbn. rewrite String.eqb_refl. cbn.
    split_and!; try done. by constructor; [left|..].
  - unfold open_counter. rewrite Hw. cbn [od_get od_set evict length].
    destruct (Z.ltb_spec (ls_max_subjects s) (Z.of_nat 1)); [lia|]. cbn [fst snd mbind res_bind with_cooldowns with_windows ls_windows].
    unfold od_move_to_end. cbn [od_get]. rewrite String.eqb_refl. cbn. rewrite String.eqb_refl. cbn.
    rewrite Hb. split_and!; try done. constructor; cbn; try done. left. by rewrite Hb.
Qed.

Definition verdict_for (ceiling now : float) (a : budget_answer) : res LimitVerdict :=
  let '(admitted, observed, retry, until) := a in mk_LimitVerdict admitted key ceiling observed now retry until.

Lemma memory_admit s b member cost now horizon c0 :
  holds s b -> start_of (lk_window key) now = Ok horizon -> c0 !! k = None ->
  let ceiling := from_option id (ls_default_limit s) (ls_limits s !! k) in
  let '(a, b') := budget_admit (List.filter (live horizon) (bg_entries b)) member cost ceiling (ls_cooldown_seconds s) now in
  let '(r, s') := open_and_consume (with_cooldowns s c0) key k member ceiling cost now in
  r = verdict_for ceiling now a /\ holds s' b' /\ ls_limits s' = ls_limits s /\
  ls_default_limit s' = ls_default_limit s /\ ls_cooldown_seconds s' = ls_cooldown_seconds s.
Proof.
  intros [Hw Hc Hr Ha] Hh Hc0 ceiling.
  assert (holds (with_cooldowns s c0) {| bg_entries := bg_entries b; bg_cooldown := None |}) as Hs1 by (by constructor).
  pose proof (opened_counter _ _ Hs1) as (Hopen & Hs2 & Hcd & Hlim & Hdef). unfold open_and_consume.
  destruct (open_counter _ k) as [opened s2]. cbn [fst snd] in *.
  destruct (_ ← opened; od_move_to_end _ k) as [w|] eqn:Ew; [|done]. subst w.
  cbn [od_get bg_entries from_option id]. rewrite String.eqb_refl. cbn [from_option id].
  unfold consume. rewrite Hh. unfold budget_admit. cbn [with_windows with_cooldowns ls_cooldown_seconds] in *. rewrite Hcd.
  destruct Hs2 as [_ Hc2 Hr2 Ha2]. cbn [bg_cooldown] in Hc2.
  change (fun e : entry => (e.1.2 =? member)%string) with (fun e : entry => (member_of e =? member)%string).
  destruct (existsb _ _); [|destruct (fgt _ ceiling)]; cbn -[mk_LimitVerdict]; rewrite ?String.eqb_refl; cbn -[mk_LimitVerdict];
    rewrite ?String.eqb_refl; (split_and!; [done| |by rewrite Hlim|by rewrite Hdef|by rewrite Hcd]);
    (constructor; cbn; rewrite ?lookup_insert_eq; auto).
Qed.

Lemma memory_consume s b cost d now member horizon :
  holds s b -> member_for d now = Ok member -> start_of (lk_window key) now = Ok horizon ->
  let ceiling := from_option id (ls_default_limit s) (ls_limits s !! k) in
  let '(a, b') := budget_consume b horizon member cost ceiling (ls_cooldown_seconds s) now in
  let '(r, s') := try_consume s key cost d now in
  r = verdict_for ceiling now a /\ holds s' b' /\ ls_limits s' = ls_limits s /\
  ls_default_limit s' = ls_default_limit s /\ ls_cooldown_seconds s' = ls_cooldown_seconds s.
Proof.
  intros Hs Hm Hh ceiling. pose proof Hs as [Hw Hc Hr Ha]. unfold try_consume, limit_require_available. rewrite Ha, Hm.
  cbn [negb raise_if mbind res_bind]. fold k. unfold budget_consume. rewrite Hc.
  destruct (bg_cooldown b) as [u|] eqn:Eb; [destruct (flt now u)|].
  - unfold observed_in. rewrite Hh. cbn [mbind res_bind]. split_and!; try done.
    unfold verdict_for. fold ceiling. do 2 f_equal. destruct Hw as [->|[-> ->]]; [|done]. cbn. by rewrite String.eqb_refl.
  - apply memory_admit; [done|done|apply lookup_delete_eq].
  - pose proof (memory_admit s b member cost now horizon (ls_cooldowns s) Hs Hh Hc) as Had.
    assert (with_cooldowns s (ls_cooldowns s) = s) as Heq by (by destruct s). by rewrite Heq in Had.
Qed.

Lemma memory_release s b d :
  holds s b -> let '(r, s') := release s key d in
  r = Ok tt /\ holds s' (budget_release b (":" +:+ d)) /\ ls_limits s' = ls_limits s /\
  ls_default_limit s' = ls_default_limit s /\ ls_cooldown_seconds s' = ls_cooldown_seconds s.
Proof.
  intros [Hw Hc Hr Ha]. unfold release, limit_require_available. rewrite Ha. cbn [negb raise_if]. fold k.
  destruct Hw as [Hw|[Hw Hb]]; rewrite Hw; cbn [od_get]; [rewrite String.eqb_refl|].
  - destruct (bg_entries b) as [|e l] eqn:Eb; cbn [with_windows ls_limits ls_default_limit ls_cooldown_seconds];
      (split_and!; try done); constructor; cbn; try done; left; [by rewrite Hw, Eb|by rewrite String.eqb_refl, Eb].
  - split_and!; try done. constructor; cbn; try done. right. by rewrite Hb.
Qed.
End memory.

(** ** The Redis store keeps a budget *)

Section redis.
Context {R : Type} `{RedisLaws R}.
Variables kw kc kcd : string.
Hypothesis keys_differ : kw <> kc /\ kw <> kcd /\ kc <> kcd.

Definition scores (l : list entry) : gmap string float := list_to_map (map (fun e => (member_of e, e.1.1)) l).
Definition costs (l : list entry) : gmap string float := list_to_map (map (fun e => (member_of e, cost_of e)) l).

(** The keys hold the entries that are live at [h]; a cooldown that was over at
    [t] may be gone. *)
Record mirrors (r : R) (b : budget) (h t : float) : Prop := {
  mi_scores : v_zset (contents r kw) = scores (List.filter (live h) (bg_entries b));
  mi_costs : v_hash (contents r kc) = costs (List.filter (live h) (bg_entries b));
  mi_unique : NoDup (map member_of (List.filter (live h) (bg_entries b)));
  mi_times : Forall (fun e : entry => is_nan e.1.1 = false) (bg_entries b);
  mi_cooldown : v_number (contents r kcd) = bg_cooldown b \/
    (v_number (contents r kcd) = None /\ exists u, bg_cooldown b = Some u /\ flt t u = false)
}.

Lemma live_mono h h' e : fle h h' = true -> live h' e = true -> live h e = true.
Proof. unfold live. intros H1 H2. float_ranks. Qed.

Lemma filter_live_mono h h' l :
  fle h h' = true -> List.filter (live h') (List.filter (live h) l) = List.filter (live h') l.
Proof.
  intros Hh. induction l as [|e l IH]; [done|]. cbn. destruct (live h e) eqn:E; cbn.
  - by rewrite IH.
  - destruct (live h' e) eqn:E'; [|done]. by rewrite (live_mono _ _ _ Hh E') in E.
Qed.

Lemma keyed_fst {A} (f : entry -> A) l : (map (fun e => (member_of e, f e)) l).*1 = map member_of l.
Proof. induction l as [|e l IH]; [done|]. cbn. by f_equal. Qed.

Lemma keyed_lookup {A} (f : entry -> A) l m x :
  NoDup (map member_of l) ->
  (list_to_map (M := gmap string A) (map (fun e => (member_of e, f e)) l)) !! m = Some x <->
  exists e, e ∈ l /\ member_of e = m /\ f e = x.
Proof.
  intros Hn. rewrite <-elem_of_list_to_map; [|by rewrite keyed_fst].
  rewrite list_elem_of_fmap. split; [intros (e & [= -> ->] & He)|intros (e & He & <- & <-)]; by exists e.
Qed.

Lemma in_filter {A} (f : A -> bool) x l : x ∈ List.filter f l <-> x ∈ l /\ f x = true.
Proof. rewrite !list_elem_of_In. apply List.filter_In. Qed.

Lemma unique_filter f l : NoDup (map member_of l) -> NoDup (map member_of (List.filter f l)).
Proof.
  induction l as [|e l IH]; cbn; [done|]. intros [He Hn]%NoDup_cons. destruct (f e); cbn; [|auto].
  apply NoDup_cons. split; [|auto]. intros (e' & Heq & Hin)%list_elem_of_fmap. apply He.
  apply in_filter in Hin as [Hin _]. rewrite Heq. by apply list_elem_of_fmap_2.
Qed.

(** An entry is found again by its member. *)
Lemma unique_member l e e' : NoDup (map member_of l) -> e ∈ l -> e' ∈ l -> member_of e = member_of e' -> e = e'.
Proof.
  intros Hn (i & Hi)%list_elem_of_lookup (j & Hj)%list_elem_of_lookup Heq.
  assert (i = j) as ->; [|congruence].
  eapply NoDup_lookup; [exact Hn| |]; rewrite list_lookup_fmap; [by rewrite Hi|]. by rewrite Hj, Heq.
Qed.

(** Removing members from the map of the entries is filtering the entries. *)
Lemma filter_keyed {A} (f : entry -> A) (keep : entry -> bool) (gone : list string) l :
  NoDup (map member_of l) -> (forall e, e ∈ l -> (member_of e ∉ gone <-> keep e = true)) ->
  filter (fun mx => mx.1 ∉ gone) (list_to_map (M := gmap string A) (map (fun e => (member_of e, f e)) l)) =
  list_to_map (map (fun e => (member_of e, f e)) (List.filter keep l)).
Proof.
  intros Hn Hk. apply map_eq. intros m. apply option_eq. intros x.
  rewrite map_lookup_filter_Some, !keyed_lookup by (done || by apply unique_filter). cbn. split.
  - intros [(e & He & <- & <-) Hg]. exists e. rewrite in_filter. split_and!; try done. by apply Hk.
  - intros (e & [He Hke]%in_filter & <- & <-). split; [by exists e|]. by apply Hk.
Qed.

Lemma live_not_upto h e : is_nan e.1.1 = false -> is_nan h = false -> fle e.1.1 h = negb (live h e).
Proof.
  intros He Hh. unfold live. destruct (fle e.1.1 h) eqn:E1, (fgt e.1.1 h) eqn:E2; try done; exfalso.
  - float_ranks.
  - assert (fgt e.1.1 h = true); [|congruence]. apply fgt_spec. split_and!; try done.
    destruct (decide (rank_lt (rank h) (rank e.1.1))) as [|Hn]; [done|].
    assert (fle e.1.1 h = true) as E by (apply fle_spec; done). congruence.
Qed.

(** At most [n] entries can be passed to a command. *)
Variable n : nat.
Hypothesis unpacks : forall m, (m <= n)%nat -> unpackable m = true.

(** [script_remove] takes away the members, and nothing else. *)
Lemma script_remove_spec r members :
  (length members <= n)%nat ->
  exists r', script_remove kw kc members r = (Some tt, r') /\
    forall k, contents r' k = if decide (k = kw) then set_zset (filter (fun mx => mx.1 ∉ members) (v_zset (contents r kw))) (contents r kw)
                    else if decide (k = kc) then set_hash (filter (fun mx => mx.1 ∉ members) (v_hash (contents r kc))) (contents r kc)
                    else contents r k.
Proof.
  intros Hn. destruct keys_differ as (Hwc & _ & _). destruct members as [|m l].
  - exists r. split; [done|]. intros k.
    assert (forall M : gmap string float, filter (fun mx => mx.1 ∉ @nil string) M = M) as Hf.
    { intros M. apply map_filter_id. intros i x _. apply not_elem_of_nil. }
    rewrite !Hf. by destruct (decide (k = kw)) as [->|]; [destruct (contents r kw)|destruct (decide (k = kc)) as [->|]; [destruct (contents r kc)|]].
  - eexists. unfold script_remove, unpack. rewrite (unpacks _ Hn). split; [reflexivity|]. intros k.
    rewrite hdel_spec, !zrem_spec. destruct (decide (k = kc)) as [->|].
    + rewrite (decide_False (P := kc = kw)) by done. by rewrite (decide_False (P := kc = kw)) by done.
    + by destruct (decide (k = kw)).
Qed.

(** The sums of Lua and Python agree on the costs in use, in any order. *)
Variable ok_cost : float -> Prop.
Hypothesis sums_agree : forall l l', l ≡ₚ l' -> Forall ok_cost l -> (length l <= n)%nat -> lua_sum (map Some l) = py_sum l'.

Definition countable_entries (l : list entry) : Prop :=
  NoDup (map member_of l) /\ (length l <= n)%nat /\ Forall (fun e => ok_cost (cost_of e)) l.

Lemma members_of_scores l : NoDup (map member_of l) -> map fst (map_to_list (scores l)) ≡ₚ map member_of l.
Proof.
  intros Hn. unfold scores. rewrite (map_to_list_to_map (M := gmap string)) by (by rewrite keyed_fst).
  by rewrite (keyed_fst (fun e : entry => e.1.1) l : map fst _ = _).
Qed.

(** Adding up the costs of some members of a counter, in whatever order. *)
Lemma sum_of_members r l f members :
  v_hash (contents r kc) = costs l -> countable_entries l -> members ≡ₚ map member_of (List.filter f l) ->
  lua_sum (hmget r kc members) = entries_sum (List.filter f l).
Proof.
  intros Hh (Hn & Hlen & Hok) Hperm. apply Permutation_map_inv in Hperm as (l' & -> & Hl).
  assert (Hsub : forall e, e ∈ l' -> e ∈ l) by (intros e He; rewrite <-Hl in He; by apply in_filter in He as [? _]).
  rewrite hmget_spec, map_map, Hh.
  assert (map (fun e => costs l !! member_of e) l' = map Some (map cost_of l')) as ->.
  { rewrite map_map. apply map_ext_in. intros e He%list_elem_of_In. apply keyed_lookup; [done|]. exists e. auto. }
  apply sums_agree.
  - by apply Permutation_map.
  - apply Forall_fmap, Forall_forall. intros e He%Hsub. rewrite Forall_forall in Hok. by apply (Hok e).
  - rewrite length_map, <-Hl. etrans; [apply List.filter_length_le|done].
Qed.

Lemma filter_all {A} (l : list A) : List.filter (fun _ => true) l = l.
Proof. induction l as [|x l IH]; [done|]. cbn. by rewrite IH. Qed.

Lemma script_observed_spec r l :
  v_zset (contents r kw) = scores l -> v_hash (contents r kc) = costs l -> countable_entries l ->
  script_observed kw kc r = (Some (entries_sum l), r).
Proof.
  intros Hz Hh Hl. assert (zrange r kw 0 (-1) ≡ₚ map member_of l) as Hm.
  { rewrite zrange_spec, Hz. apply members_of_scores, Hl. }
  pose proof (sum_of_members r l (fun _ => true) (zrange r kw 0 (-1)) Hh Hl) as Hs. rewrite filter_all in Hs.
  specialize (Hs Hm). unfold script_observed, mbind, script_bind, ask.
  pose proof (Permutation_length Hm) as Hlen. rewrite length_map in Hlen.
  destruct (zrange r kw 0 (-1)) as [|m ms] eqn:E.
  - destruct l as [|e l]; [done|cbn in Hlen; lia].
  - unfold unpack. rewrite unpacks by (rewrite Hlen; apply Hl).
    by rewrite Hs.
Qed.

Definition reply_for (ceiling : float) (a : budget_answer) : consume_reply :=
  let '(admitted, observed, retry, until) := a in
  script_reply ceiling admitted observed (tostring <$> retry) (tostring <$> until).

Lemma filter_idem {A} (f : A -> bool) l : List.filter f (List.filter f l) = List.filter f l.
Proof. induction l as [|x l IH]; [done|]. cbn. destruct (f x) eqn:E; cbn; rewrite ?E, IH; done. Qed.

(** The keys hold exactly the entries [l] and no cooldown. *)
Record cleared (r : R) (l : list entry) : Prop := {
  cl_scores : v_zset (contents r kw) = scores l;
  cl_costs : v_hash (contents r kc) = costs l;
  cl_cooldown : v_number (contents r kcd) = None
}.

Lemma present_member r l member :
  v_hash (contents r kc) = costs l -> NoDup (map member_of l) ->
  hexists r kc member = existsb (fun e : entry => (member_of e =? member)%string) l.
Proof.
  intros Hh Hn. rewrite hexists_spec, Hh. apply eq_true_iff_eq. rewrite bool_decide_eq_true, existsb_exists. split.
  - intros [x Hx]. apply keyed_lookup in Hx as (e & He & <- & _); [|done]. exists e.
    split; [by apply list_elem_of_In|apply String.eqb_refl].
  - intros (e & He%list_elem_of_In & <-%String.eqb_eq). exists (cost_of e). apply keyed_lookup; [done|]. eauto.
Qed.

Lemma keyed_snoc {A} (f : entry -> A) l e :
  NoDup (map member_of (l ++ [e])) ->
  list_to_map (M := gmap string A) (map (fun e => (member_of e, f e)) (l ++ [e])) =
  <[member_of e := f e]> (list_to_map (map (fun e => (member_of e, f e)) l)).
Proof.
  intros Hn. rewrite map_app. cbn. rewrite list_to_map_snoc; [done|].
  rewrite map_app in Hn. apply NoDup_app in Hn as (_ & Hd & _). rewrite keyed_fst. intros Hin. apply (Hd _ Hin). by left.
Qed.

Lemma script_admit_spec r l now horizon member cost ceiling cooldown z ttl :
  cleared r l -> countable_entries l -> List.filter (live horizon) l = l ->
  Forall (fun e : entry => is_nan e.1.1 = false) l -> fgt now horizon = true ->
  tostring (fadd now cooldown) = fadd now cooldown -> ceil cooldown = Some z -> (0 < ttl)%Z ->
  let '(a, b') := budget_admit l member cost ceiling cooldown now in
  exists r', script_admit kw kc kcd now member cost ceiling cooldown ttl r = (Some (reply_for ceiling a), r') /\
    mirrors r' b' horizon now.
Proof.
  intros [Hz Hh Hcd] Hl Hlive Htimes Hnow Hshow Hceil Httl. destruct keys_differ as (Hwc & Hwd & Hcd').
  pose proof (script_observed_spec r l Hz Hh Hl) as Ho. pose proof Hl as (Hn & _ & _).
  unfold budget_admit, script_admit. unfold mbind, script_bind, ask, tell, mret, script_ret.
  rewrite (present_member r l member Hh Hn).
  destruct (existsb _ l) eqn:Ex; rewrite Ho; [|destruct (fgt _ ceiling)].
  - exists r. split; [done|]. constructor; cbn [bg_entries bg_cooldown]; rewrite ?Hlive; auto.
  - rewrite Hceil. eexists. split; [cbn; by rewrite Hshow|].
    constructor; cbn [bg_entries bg_cooldown]; rewrite ?Hlive; try done;
      rewrite expire_spec, set_spec by lia; repeat case_decide; try congruence; try done. by left.
  - eexists. split; [reflexivity|].
    assert (NoDup (map member_of (l ++ [(now, member, cost)]))) as Hn'.
    { rewrite map_app. apply NoDup_app. split_and!; [done| |by apply NoDup_singleton].
      intros m Hm ->%list_elem_of_singleton. cbn in Hm. apply list_elem_of_fmap in Hm as (e & He1 & He2).
      assert (existsb (fun e : entry => (member_of e =? member)%string) l = true); [|congruence].
      apply existsb_exists. exists e. split; [by apply list_elem_of_In|]. rewrite <-He1. apply String.eqb_refl. }
    assert (List.filter (live horizon) (l ++ [(now, member, cost)]) = l ++ [(now, member, cost)]) as Hlive'.
    { rewrite List.filter_app, Hlive. cbn. unfold live at 1. cbn. by rewrite Hnow. }
    constructor; cbn [bg_entries bg_cooldown]; rewrite ?Hlive'; try done.
    + rewrite !expire_spec, hset_spec, !zadd_spec by done. repeat case_decide; try congruence. cbn.
      unfold scores. rewrite keyed_snoc by done. by rewrite Hz.
    + rewrite !expire_spec, hset_spec, !zadd_spec by done. repeat case_decide; try congruence. cbn.
      unfold costs. rewrite keyed_snoc by done. by rewrite Hh.
    + apply Forall_app. split; [done|]. constructor; [|done]. cbn. by apply fgt_spec in Hnow as (? & _).
    + left. rewrite !expire_spec, hset_spec, !zadd_spec by done. by repeat case_decide.
Qed.

(** The script trims the window to the entries that are live. *)
Lemma trimmed r b h t horizon :
  mirrors r b h t -> fle h horizon = true -> is_nan horizon = false -> (length (bg_entries b) <= n)%nat ->
  exists r', script_remove kw kc (zrangebyscore_upto r kw horizon) r = (Some tt, r') /\
    v_zset (contents r' kw) = scores (List.filter (live horizon) (bg_entries b)) /\
    v_hash (contents r' kc) = costs (List.filter (live horizon) (bg_entries b)) /\
    contents r' kcd = contents r kcd.
Proof.
  intros [Hz Hh Hn Htimes _] Hle Hnan Hlen. set (l := List.filter (live h) (bg_entries b)) in *.
  destruct keys_differ as (Hwc & Hwd & Hcd). pose proof (upto_spec r kw horizon) as Hup. rewrite Hz in Hup.
  assert (map_to_list (scores l) ≡ₚ map (fun e => (member_of e, e.1.1)) l) as Hlist
    by (apply map_to_list_to_map; by rewrite keyed_fst).
  assert (Hgone : forall e, e ∈ l -> (member_of e ∉ zrangebyscore_upto r kw horizon <-> live horizon e = true)).
  { intros e He. assert (is_nan e.1.1 = false) as Hne.
    { rewrite Forall_forall in Htimes. apply Htimes. by apply in_filter in He as [? _]. }
    rewrite Hup. rewrite <-not_false_iff_true. apply not_iff_compat. rewrite list_elem_of_fmap. split.
    - intros ([m s] & Heq & [Hin Hs]%in_filter). cbn in Heq, Hs. subst m.
      apply elem_of_map_to_list, keyed_lookup in Hin as (e' & He' & Hm & <-); [|done].
      rewrite (unique_member l e' e Hn He' He Hm) in Hs. rewrite live_not_upto in Hs by done. by apply negb_true_iff.
    - intros Hd. exists (member_of e, e.1.1). split; [done|]. apply in_filter. split.
      + apply elem_of_map_to_list, keyed_lookup; eauto.
      + cbn. rewrite live_not_upto by done. by rewrite Hd. }
  assert (length (zrangebyscore_upto r kw horizon) <= n)%nat as Hup'.
  { rewrite Hup, length_map. etrans; [apply List.filter_length_le|]. rewrite Hlist, length_map.
    etrans; [apply List.filter_length_le|done]. }
  destruct (script_remove_spec r _ Hup') as (r' & Hr & Hc). exists r'. split; [done|].
  rewrite !Hc. repeat case_decide; try congruence. cbn. rewrite Hz, Hh.
  unfold scores, costs. rewrite !(filter_keyed _ (live horizon)) by done. unfold l. by rewrite filter_live_mono.
Qed.

Lemma countable_filter f b :
  NoDup (map member_of (List.filter f (bg_entries b))) -> (length (bg_entries b) <= n)%nat ->
  Forall (fun e => ok_cost (cost_of e)) (bg_entries b) -> countable_entries (List.filter f (bg_entries b)).
Proof.
  intros Hn Hlen Hok. split_and!; [done|etrans; [apply List.filter_length_le|done]|].
  apply Forall_forall. intros e [He _]%in_filter. rewrite Forall_forall in Hok. auto.
Qed.

Lemma redis_consume r b h t now horizon member cost ceiling cooldown z ttl :
  mirrors r b h t -> fle h horizon = true -> fle t now = true -> fgt now horizon = true ->
  (length (bg_entries b) <= n)%nat -> Forall (fun e => ok_cost (cost_of e)) (bg_entries b) ->
  tostring (fadd now cooldown) = fadd now cooldown -> ceil cooldown = Some z -> (0 < ttl)%Z ->
  let '(a, b') := budget_consume b horizon member cost ceiling cooldown now in
  exists r', CONSUME_SCRIPT kw kc kcd now horizon member cost ceiling cooldown ttl r = (Some (reply_for ceiling a), r') /\
    mirrors r' b' horizon now.
Proof.
  intros Hm Hle Ht Hnow Hlen Hok Hshow Hceil Httl.
  assert (is_nan horizon = false) as Hnan by (by apply fgt_spec in Hnow as (_ & ? & _)).
  destruct (trimmed r b h t horizon Hm Hle Hnan Hlen) as (r1 & Hr1 & Hz & Hh & Hnum).
  pose proof Hm as [_ _ Hn Htimes Hcool].
  assert (NoDup (map member_of (List.filter (live horizon) (bg_entries b)))) as Hn'
    by (rewrite <-(filter_live_mono h) by done; by apply unique_filter).
  pose proof (countable_filter _ b Hn' Hlen Hok) as Hcount.
  assert (Hadmit : forall r2, cleared r2 (List.filter (live horizon) (bg_entries b)) -> 
    let '(a, b') := budget_admit (List.filter (live horizon) (bg_entries b)) member cost ceiling cooldown now in
    exists r', script_admit kw kc kcd now member cost ceiling cooldown ttl r2 = (Some (reply_for ceiling a), r') /\ mirrors r' b' horizon now).
  { intros r2 H2. eapply script_admit_spec; eauto using filter_idem. apply Forall_forall. intros e [He _]%in_filter.
    rewrite Forall_forall in Htimes. auto. }
  assert (Hrun : forall (A : Type) (f : unit -> script R A), script_bind _ _ f (script_remove kw kc (zrangebyscore_upto r kw horizon)) r = f tt r1)
    by (intros; unfold script_bind; by rewrite Hr1).
  unfold CONSUME_SCRIPT, budget_consume. unfold mbind at 1, script_bind at 1, ask at 1. unfold mbind at 1. rewrite Hrun.
  unfold mbind at 1, script_bind at 1, ask at 1. rewrite get_spec, Hnum.
  destruct Hcool as [Hc|(Hc & u & Hu & Hover)]; rewrite Hc.
  - destruct (bg_cooldown b) as [u|] eqn:Eu; [destruct (flt now u)|].
    + unfold mbind, script_bind, mret, script_ret. rewrite (script_observed_spec r1 _ Hz Hh Hcount). eexists. split; [done|].
      constructor; try done. left. by rewrite Hnum, Hc.
    + unfold mbind, script_bind, tell. apply Hadmit. destruct keys_differ as (? & ? & ?).
      constructor; rewrite del_spec; case_decide; try done; set_solver.
    + apply Hadmit. constructor; try done. by rewrite Hnum, Hc.
  - rewrite Hu. assert (flt now u = false) as ->.
    { destruct (flt now u) eqn:E; [|done]. assert (flt t u = true); [|congruence]. float_ranks. }
    apply Hadmit. constructor; try done. by rewrite Hnum, Hc.
Qed.

#[local] Instance filter_perm {A} (f : A -> bool) : Proper ((≡ₚ) ==> (≡ₚ)) (List.filter f).
Proof.
  intros l l' Hp. induction Hp as [|x l l' _ IH|x y l|l1 l2 l3 _ IH1 _ IH2]; cbn; [done| | |by etrans].
  - by destruct (f x); [constructor|].
  - destruct (f x), (f y); try done. constructor.
Qed.

Lemma filter_comm {A} (f g : A -> bool) l : List.filter f (List.filter g l) = List.filter g (List.filter f l).
Proof.
  induction l as [|x l IH]; [done|]. cbn.
  destruct (g x) eqn:Eg, (f x) eqn:Ef; cbn; rewrite ?Ef, ?Eg, IH; done.
Qed.

Lemma redis_release_spec r b h t suffix :
  mirrors r b h t -> (length (bg_entries b) <= n)%nat ->
  exists a r', RELEASE_SCRIPT kw kc suffix r = (Some a, r') /\ mirrors r' (budget_release b suffix) h t.
Proof.
  intros [Hz Hh Hn Htimes Hcool] Hlen. set (l := List.filter (live h) (bg_entries b)) in *.
  destruct keys_differ as (Hwc & Hwd & Hcd). unfold RELEASE_SCRIPT.
  set (gone := List.filter (endswith suffix) (zrange r kw 0 (-1))).
  assert (zrange r kw 0 (-1) ≡ₚ map member_of l) as Hm by (rewrite zrange_spec, Hz; by apply members_of_scores).
  assert (length gone <= n)%nat as Hgone.
  { etrans; [apply List.filter_length_le|]. rewrite Hm, length_map. etrans; [apply List.filter_length_le|done]. }
  destruct (script_remove_spec r gone Hgone) as (r' & Hr & Hc). exists (Z.of_nat (length gone)), r'.
  split; [unfold mbind, script_bind, ask; fold gone; by rewrite Hr|].
  set (keep := fun e => negb (endswith suffix (member_of e))).
  assert (List.filter (live h) (bg_entries (budget_release b suffix)) = List.filter keep l) as Hl
    by (cbn; apply filter_comm).
  assert (Hk : forall e, e ∈ l -> (member_of e ∉ gone <-> keep e = true)).
  { intros e He. unfold gone, keep. rewrite in_filter, negb_true_iff, <-not_true_iff_false. rewrite Hm.
    split; [|tauto]. intros Hnot Hend. apply Hnot. split; [by apply list_elem_of_fmap_2|done]. }
  constructor; rewrite ?Hl; rewrite ?Hc; repeat case_decide; try congruence; cbn.
  - rewrite Hz. unfold scores. by apply filter_keyed.
  - rewrite Hh. unfold costs. by apply filter_keyed.
  - by apply unique_filter.
  - apply Forall_forall. intros e [He _]%in_filter. rewrite Forall_forall in Htimes. auto.
  - done.
Qed.

Lemma redis_cumulative_spec r b h t horizon :
  mirrors r b h t -> fle h horizon = true -> (length (bg_entries b) <= n)%nat ->
  Forall (fun e => ok_cost (cost_of e)) (bg_entries b) ->
  let total := entries_sum (List.filter (live horizon) (bg_entries b)) in
  exists x, CUMULATIVE_SCRIPT kw kc horizon r = (Some x, r) /\ (x = tostring total \/ x = total).
Proof.
  intros [Hz Hh Hn Htimes _] Hle Hlen Hok total. set (l := List.filter (live h) (bg_entries b)) in *.
  pose proof (above_spec r kw horizon) as Hup. rewrite Hz in Hup.
  assert (map_to_list (scores l) ≡ₚ map (fun e => (member_of e, e.1.1)) l) as Hlist
    by (apply map_to_list_to_map; by rewrite keyed_fst).
  assert (zrangebyscore_above r kw horizon ≡ₚ map member_of (List.filter (live horizon) l)) as Hm.
  { rewrite Hup, Hlist. clear. induction l as [|e l IH]; [done|]. cbn. unfold live at 1. destruct (fgt _ _); cbn; [by constructor|done]. }
  assert (Hl : List.filter (live horizon) l = List.filter (live horizon) (bg_entries b)) by (by apply filter_live_mono).
  assert (countable_entries l) as Hcl by (by apply countable_filter).
  unfold CUMULATIVE_SCRIPT, mbind, script_bind, ask.
  destruct (zrangebyscore_above r kw horizon) as [|m ms] eqn:E.
  - exists (fz 0). split; [done|]. right. unfold total. rewrite <-Hl.
    apply Permutation_nil in Hm. destruct (List.filter (live horizon) l); done.
  - rewrite <-E in Hm |- *. unfold unpack. rewrite unpacks.
    2: { rewrite Hm, length_map. etrans; [apply List.filter_length_le|apply Hcl]. }
    exists (tostring total). split; [|by left]. rewrite (sum_of_members r l _ _ Hh Hcl Hm). unfold total. by rewrite <-Hl.
Qed.

(** The server may reclaim a counter once every entry is out of the window,
    and a cooldown once it is over: the times to live are longer. *)
Definition lapse (r : R) (horizon : float) : R :=
  if forallb (fun ms => fle ms.2 horizon) (map_to_list (v_zset (contents r kw))) then del r [kw; kc] else r.
Definition lapse_cooldown (r : R) (now : float) : R :=
  match v_number (contents r kcd) with
  | Some until => if flt now until then r else del r [kcd]
  | None => r
  end.

Lemma lapse_spec r b h t horizon :
  mirrors r b h t -> fle h horizon = true -> is_nan horizon = false ->
  exists h', fle h' horizon = true /\ mirrors (lapse r horizon) b h' t.
Proof using keys_differ.
  clear sums_agree ok_cost unpacks n.
  intros Hm Hle Hnan. pose proof Hm as [Hz Hh Hn Htimes Hcool]. destruct keys_differ as (Hwc & Hwd & Hcd). unfold lapse.
  destruct (forallb _ _) eqn:E; [|by exists h]. exists horizon. split; [by apply fle_spec; rewrite Hnan; split_and!; [..|destruct (rank horizon) as [[? ?] ?]; cbn; lia]|].
  assert (List.filter (live horizon) (bg_entries b) = []) as Hdead.
  { destruct (List.filter (live horizon) (bg_entries b)) as [|e l] eqn:El; [done|]. exfalso.
    assert (e ∈ List.filter (live horizon) (bg_entries b)) as He by (rewrite El; left). apply in_filter in He as [He Hlive].
    assert (e ∈ List.filter (live h) (bg_entries b)) as He' by (apply in_filter; split; [done|by eapply live_mono]).
    rewrite forallb_forall in E. assert (fle e.1.1 horizon = true) as Hf.
    { apply (E (member_of e, e.1.1)). apply list_elem_of_In, elem_of_map_to_list. rewrite Hz. apply keyed_lookup; eauto. }
    rewrite live_not_upto, Hlive in Hf; [done| |done]. rewrite Forall_forall in Htimes. auto. }
  constructor; rewrite ?Hdead; try done; try (by constructor); rewrite del_spec; case_decide; try done; set_solver.
Qed.

Lemma lapse_cooldown_spec r b h t now :
  mirrors r b h t -> fle t now = true -> exists t', fle t' now = true /\ mirrors (lapse_cooldown r now) b h t'.
Proof using keys_differ.
  clear sums_agree ok_cost unpacks n.
  intros Hm Hle. pose proof Hm as [Hz Hh Hn Htimes Hcool]. destruct keys_differ as (Hwc & Hwd & Hcd). unfold lapse_cooldown.
  destruct (v_number (contents r kcd)) as [u|] eqn:E; [|by exists t]. destruct (flt now u) eqn:Eu; [by exists t|].
  exists now. split; [apply fle_spec in Hle as (_ & Hnan & _); apply fle_spec; split_and!; [done..|destruct (rank now) as [[? ?] ?]; cbn; lia]|].
  constructor; try done; rewrite del_spec; case_decide; try done; set_solver.
Qed.
End redis.

(** ** Runs of one counter, on both stores *)

(** What the replicas ask, in the order the server runs it, and when the server
    may have reclaimed keys. *)
Inductive limit_op :=
| OpConsume (cost : float) (decision_id : string) (now : float)
| OpCumulative (now : float)
| OpRelease (decision_id : string)
| OpLapse (now : float)
| OpLapseCooldown (now : float).

Inductive limit_answer :=
| Verdict (r : res LimitVerdict)
| Total (r : res float)
| Released (r : res unit)
| NoAnswer.

Definition op_time (op : limit_op) : option float :=
  match op with
  | OpConsume _ _ now | OpCumulative now | OpLapse now | OpLapseCooldown now => Some now
  | OpRelease _ => None
  end.

Section runs.
Context {R : Type} `{RedisLaws R}.
Variable c : RedisLimitStore.
Variable key : LimitKey.

Definition memory_step (s : LimitStore) (op : limit_op) : limit_answer * LimitStore :=
  match op with
  | OpConsume cost d now => let '(r, s') := try_consume s key cost d now in (Verdict r, s')
  | OpCumulative now => (Total (cumulative s key (lk_window key) now), s)
  | OpRelease d => let '(r, s') := release s key d in (Released r, s')
  | OpLapse _ | OpLapseCooldown _ => (NoAnswer, s)
  end.

(** [f] is what happens to the call. *)
Definition redis_step (f : redis_fault) (r : R) (op : limit_op) : limit_answer * R :=
  match op with
  | OpConsume cost d now => let '(v, r') := redis_try_consume c NoRedisFault f r key cost d now in (Verdict v, r')
  | OpCumulative now => (Total (redis_cumulative c f r key (lk_window key) now), r)
  | OpRelease d => let '(u, r') := redis_release c f r key d in (Released u, r')
  | OpLapse now =>
      (NoAnswer, match start_of (lk_window key) now with
                 | Ok horizon => lapse (window_key c key) (cost_key c key) r horizon
                 | Raise _ => r
                 end)
  | OpLapseCooldown now => (NoAnswer, lapse_cooldown (cooldown_key c key) r now)
  end.

Abbreviation limit_call := (limit_op * redis_fault)%type.

(** What is expected of a call: the in-memory store's answer, where it is
    answered.  A call that does not reach the server does not reach the
    reference. *)
Definition reference_step (s : LimitStore) (call : limit_call) : option limit_answer * LimitStore :=
  match call.2 with
  | NoRedisFault => (Some (memory_step s call.1).1, (memory_step s call.1).2)
  | Unreachable => (None, s)
  | ReplyLost => (None, (memory_step s call.1).2)
  end.

Fixpoint run_calls {S A C} (step : S -> C -> A * S) (s : S) (calls : list C) : list A :=
  match calls with
  | [] => []
  | call :: rest => let '(a, s') := step s call in a :: run_calls step s' rest
  end.

(** Times rise, and so do the starts of their windows. *)
Fixpoint well_timed (h t : float) (ops : list limit_op) : bool :=
  match ops with
  | [] => true
  | op :: ops' =>
      match op_time op with
      | None => well_timed h t ops'
      | Some now =>
          match start_of (lk_window key) now with
          | Ok horizon => fle h horizon && fle t now && fgt now horizon && well_timed horizon now ops'
          | Raise _ => false
          end
      end
  end.

(** The answers agree, up to the digits [tostring] keeps. *)
Inductive agrees : limit_answer -> limit_answer -> Prop :=
| agrees_same a : agrees a a
| agrees_verdict ceiling now a :
    agrees (Verdict (verdict_for key ceiling now a)) (Verdict (redis_verdict key now (reply_for ceiling a)))
| agrees_total t : agrees (Total (Ok t)) (Total (Ok (tostring t))).

(** A call without an answer is refused. *)
Inductive refused : limit_answer -> Prop :=
| refused_verdict v : is_ok v = false -> refused (Verdict v)
| refused_total : refused (Total (Raise LimitStoreUnavailable))
| refused_release : refused (Released (Raise LimitStoreUnavailable))
| refused_nothing : refused NoAnswer.

Definition meets (expected : option limit_answer) (given : limit_answer) : Prop :=
  match expected with Some a => agrees a given | None => refused given end.

Lemma store_keys_differ :
  window_key c key <> cost_key c key /\ window_key c key <> cooldown_key c key /\ cost_key c key <> cooldown_key c key.
Proof. unfold window_key, cost_key, cooldown_key. split_and!; intros Heq%app_str_inv_head; discriminate Heq. Qed.

(** The configuration of the two stores. *)
Definition same_settings (s : LimitStore) : Prop :=
  ls_limits s = rl_limits c /\ ls_default_limit s = rl_default_limit c /\ ls_cooldown_seconds s = rl_cooldown_seconds c.

Variable n : nat.
Hypothesis unpacks : forall m, (m <= n)%nat -> unpackable m = true.
Variable ok_cost : float -> Prop.
Hypothesis sums_agree : forall l l', l ≡ₚ l' -> Forall ok_cost l -> (length l <= n)%nat -> lua_sum (map Some l) = py_sum l'.
Hypothesis no_quota : rl_max_tenant_subjects c = 0%Z.
Variables ttl z : Z.
Hypothesis has_ttl : redis_ttl c key = Ok ttl.
Hypothesis ttl_positive : (0 < ttl)%Z.
Hypothesis has_ceil : ceil (rl_cooldown_seconds c) = Some z.

Definition op_ok (op : limit_op) : Prop :=
  match op with
  | OpConsume cost _ now => ok_cost cost /\ tostring (fadd now (rl_cooldown_seconds c)) = fadd now (rl_cooldown_seconds c)
  | _ => True
  end.

Abbreviation mirrored := (mirrors (window_key c key) (cost_key c key) (cooldown_key c key)).

(** Both stores hold the same budget. *)
Record linked (s : LimitStore) (r : R) (b : budget) (h t : float) (room : nat) : Prop := {
  li_memory : holds key s b;
  li_settings : same_settings s;
  li_redis : exists h' t', mirrored r b h' t' /\ fle h' h = true /\ fle t' t = true;
  li_length : (length (bg_entries b) + room <= n)%nat;
  li_costs : Forall (fun e => ok_cost (cost_of e)) (bg_entries b)
}.

Lemma budget_consume_size b horizon member cost ceiling cd now :
  ok_cost cost -> Forall (fun e => ok_cost (cost_of e)) (bg_entries b) ->
  let b' := (budget_consume b horizon member cost ceiling cd now).2 in
  (length (bg_entries b') <= S (length (bg_entries b)))%nat /\ Forall (fun e => ok_cost (cost_of e)) (bg_entries b').
Proof.
  intros Hc Hb. set (kept := List.filter (live horizon) (bg_entries b)).
  assert (length kept <= length (bg_entries b))%nat as Hlen by apply List.filter_length_le.
  assert (Forall (fun e => ok_cost (cost_of e)) kept) as Hk.
  { apply Forall_forall. intros e [He _]%in_filter. rewrite Forall_forall in Hb. auto. }
  assert (Ha : let b' := (budget_admit kept member cost ceiling cd now).2 in
    (length (bg_entries b') <= S (length (bg_entries b)))%nat /\ Forall (fun e => ok_cost (cost_of e)) (bg_entries b')).
  { unfold budget_admit. destruct (existsb _ _); [|destruct (fgt _ _)]; cbn; try (split; [lia|done]).
    rewrite length_app. split; [cbn; lia|]. apply Forall_app. split; [done|]. by constructor. }
  unfold budget_consume. fold kept. destruct (bg_cooldown b) as [u|]; [destruct (flt now u)|]; [cbn; split; [lia|done]|exact Ha..].
Qed.

Lemma consume_linked s r b h t room cost d now horizon :
  linked s r b h t (S room) -> op_ok (OpConsume cost d now) -> start_of (lk_window key) now = Ok horizon ->
  fle h horizon = true -> fle t now = true -> fgt now horizon = true ->
  agrees (memory_step s (OpConsume cost d now)).1 (redis_step NoRedisFault r (OpConsume cost d now)).1 /\
  exists b', linked (memory_step s (OpConsume cost d now)).2 (redis_step NoRedisFault r (OpConsume cost d now)).2 b' horizon now room.
Proof.
  intros [Hmem Hset (h' & t' & Hred & Hh & Ht) Hlen Hcost] [Hok Hshow] Hstart Hle Hlt Hgt.
  unfold memory_step, redis_step, redis_try_consume. destruct (member_for d now) as [member|e] eqn:Em.
  2: { unfold try_consume, limit_require_available. rewrite (ho_available _ _ _ Hmem), Em. cbn.
       split; [constructor|]. exists b. constructor; try done; [|lia]. exists h', t'. split_and!; [done|by eapply fle_trans..]. }
  pose proof Hset as (Hlim & Hdef & Hcd). pose proof (memory_consume key s b cost d now member horizon Hmem Em Hstart) as Hm.
  set (ceiling := from_option id (ls_default_limit s) (ls_limits s !! canonical_key key)) in Hm.
  cbv zeta in Hm. rewrite Hcd in Hm.
  pose proof (redis_consume _ _ _ store_keys_differ n unpacks ok_cost sums_agree r b h' t' now horizon member cost ceiling
    (rl_cooldown_seconds c) z ttl Hred ltac:(by eapply fle_trans) ltac:(by eapply fle_trans) Hgt ltac:(lia) Hcost Hshow has_ceil ttl_positive) as Hr.
  pose proof (budget_consume_size b horizon member cost ceiling (rl_cooldown_seconds c) now Hok Hcost) as [Hsize Hcost'].
  destruct (budget_consume b horizon member cost ceiling (rl_cooldown_seconds c) now) as [a b']. cbn [snd] in Hsize, Hcost'.
  destruct Hr as (r' & Hr & Hmir). destruct (try_consume s key cost d now) as [v s']. destruct Hm as (-> & Hmem' & E1 & E2 & E3).
  rewrite Hstart, has_ttl, no_quota. cbn [mbind res_bind Z.eqb run_script]. unfold redis_consume_script.
  rewrite <-Hdef, <-Hlim. fold ceiling. rewrite Hr. cbn [fst snd]. split; [constructor|]. exists b'.
  constructor; try done; [unfold same_settings; by rewrite E1, E2, E3| |lia].
  exists horizon, now. apply fgt_spec in Hgt as (? & ? & _). split_and!; [done|by apply fle_refl..].
Qed.

Lemma step_linked s r b h t room op ops :
  linked s r b h t (S room) -> op_ok op -> well_timed h t (op :: ops) = true ->
  agrees (memory_step s op).1 (redis_step NoRedisFault r op).1 /\
  exists b' h2 t2, linked (memory_step s op).2 (redis_step NoRedisFault r op).2 b' h2 t2 room /\ well_timed h2 t2 ops = true.
Proof.
  intros Hl Hop Hw. pose proof Hl as [Hmem Hset (h' & t' & Hred & Hh & Ht) Hlen Hcost].
  destruct op as [cost d now|now|d|now|now]; cbn [well_timed op_time] in Hw;
    try (destruct (start_of (lk_window key) now) as [horizon|] eqn:Es; [|done];
         rewrite !andb_true_iff in Hw; destruct Hw as [[[Hle Hlt] Hgt] Hw]).
  - destruct (consume_linked s r b h t room cost d now horizon Hl Hop Es Hle Hlt Hgt) as [Ha [b' Hb]]. split; [done|]. by exists b', horizon, now.
  - destruct (redis_cumulative_spec _ _ _ n unpacks ok_cost sums_agree r b h' t' horizon Hred ltac:(by eapply fle_trans) ltac:(lia) Hcost)
      as (x & Hx & Hshow). cbn [memory_step redis_step fst snd]. unfold redis_cumulative, cumulative, observed_in, limit_require_available.
    rewrite (ho_available _ _ _ Hmem), Es. cbn [negb raise_if mbind res_bind run_script]. rewrite Hx. cbn [fst].
    assert (from_option id [] (od_get (ls_windows s) (canonical_key key)) = bg_entries b) as ->.
    { destruct (ho_windows _ _ _ Hmem) as [->|[-> ->]]; [|done]. cbn. by rewrite String.eqb_refl. }
    split; [destruct Hshow as [-> | ->]; constructor|]. exists b, horizon, now. split; [|done].
    constructor; try done; [|lia]. exists h', t'. split_and!; [done|by eapply fle_trans..].
  - cbn [memory_step redis_step]. unfold redis_release. pose proof (memory_release key s b d Hmem) as Hm.
    destruct (redis_release_spec _ _ _ store_keys_differ n unpacks r b h' t' (":" +:+ d) Hred ltac:(lia)) as (a & r' & Hr & Hmir).
    destruct (release s key d) as [u s']. destruct Hm as (-> & Hmem' & E1 & E2 & E3). cbn [run_script]. rewrite Hr. cbn [fst snd].
    split; [constructor|]. exists (budget_release b (":" +:+ d)), h, t. split; [|done].
    destruct Hset as (Hlim & Hdef & Hcd). constructor; try done; [unfold same_settings; by rewrite E1, E2, E3|by exists h', t'| |].
    + cbn. pose proof (List.filter_length_le (fun e => negb (endswith (":" +:+ d) (member_of e))) (bg_entries b)). cbn in *. lia.
    + apply Forall_forall. intros e [He _]%in_filter. rewrite Forall_forall in Hcost. auto.
  - cbn [memory_step redis_step fst snd]. rewrite Es. apply fgt_spec in Hgt as (Hn1 & Hn2 & _).
    destruct (lapse_spec _ _ _ store_keys_differ r b h' t' horizon Hred ltac:(by eapply fle_trans) Hn2) as (h2 & Hh2 & Hmir).
    split; [constructor|]. exists b, horizon, now. split; [|done]. constructor; try done; [|lia].
    exists h2, t'. split_and!; [done..|by eapply fle_trans].
  - cbn [memory_step redis_step fst snd]. apply fgt_spec in Hgt as (Hn1 & Hn2 & _).
    destruct (lapse_cooldown_spec _ _ _ store_keys_differ r b h' t' now Hred ltac:(by eapply fle_trans)) as (t2 & Ht2 & Hmir).
    split; [constructor|]. exists b, horizon, now. split; [|done]. constructor; try done; [|lia].
    exists h', t2. split_and!; [done|by eapply fle_trans|done].
Qed.

Definition is_lapse (op : limit_op) : bool :=
  match op with OpLapse _ | OpLapseCooldown _ => true | _ => false end.

(** A call the server does not see leaves it alone; one whose answer is lost
    leaves it as an answered one does; neither gives an answer. *)
Lemma redis_step_fault f r op :
  f <> NoRedisFault ->
  (forall now, op_time op = Some now -> is_ok (start_of (lk_window key) now) = true) ->
  refused (redis_step f r op).1 /\
  (redis_step f r op).2 = (if is_lapse op then (redis_step NoRedisFault r op).2
                           else match f with Unreachable => r | _ => (redis_step NoRedisFault r op).2 end).
Proof using no_quota has_ttl.
  clear ttl_positive has_ceil sums_agree unpacks. clear z ok_cost n.
  intros Hf Hs. destruct op as [cost d now|now|d|now|now]; cbn [redis_step is_lapse op_time] in *;
    try specialize (Hs _ eq_refl); try (split; [constructor|by destruct f]).
  - unfold redis_try_consume. rewrite has_ttl, no_quota. destruct (member_for d now) as [m|]; cbn [mbind res_bind];
      [|split; [by constructor|by destruct f]].
    destruct (start_of (lk_window key) now) as [h|]; [|done]. cbn [mbind res_bind Z.eqb].
    unfold run_script. destruct f; [done| |]; cbn [fst snd]; (split; [by constructor|]); [done|].
    by destruct (redis_consume_script _ _ _ _ _ _ _ _) as [[reply|] r'].
  - unfold redis_cumulative. destruct (start_of (lk_window key) now) as [h|]; [|done]. cbn [mbind res_bind].
    destruct f; [done| |]; cbn [run_script fst]; split; constructor || done.
  - unfold redis_release. destruct f; [done| |]; cbn [run_script fst snd]; (split; [constructor|]); [done|].
    by destruct (RELEASE_SCRIPT _ _ _ _) as [[reply|] r'].
Qed.

Lemma linked_later s r b h t h2 t2 room room' :
  linked s r b h t room -> fle h h2 = true -> fle t t2 = true -> (room' <= room)%nat -> linked s r b h2 t2 room'.
Proof.
  intros [Hmem Hset (h' & t' & Hred & Hh & Ht) Hlen Hcost] Hle Hlt Hroom. constructor; try done; [|lia].
  exists h', t'. split_and!; [done|by eapply fle_trans..].
Qed.

(** Once the time of a call was taken, a later one follows. *)
Lemma timed_next h t op ops :
  is_nan h = false -> is_nan t = false -> well_timed h t (op :: ops) = true ->
  (forall now, op_time op = Some now -> is_ok (start_of (lk_window key) now) = true) /\
  exists h2 t2, fle h h2 = true /\ fle t t2 = true /\ well_timed h2 t2 ops = true.
Proof.
  intros Hh Ht. cbn [well_timed]. destruct (op_time op) as [now|].
  - destruct (start_of (lk_window key) now) as [h2|] eqn:E; [|done]. rewrite !andb_true_iff. intros [[[Hle Hlt] _] Hw].
    split; [intros ? [= <-]; by rewrite E|]. by exists h2, now.
  - intros Hw. split; [done|]. exists h, t. by rewrite !fle_refl.
Qed.

Lemma linked_times s r b h t room : linked s r b h t room -> is_nan h = false /\ is_nan t = false.
Proof. intros [_ _ (h' & t' & _ & Hh & Ht) _ _]. apply fle_spec in Hh as (_ & ? & _), Ht as (_ & ? & _). done. Qed.

Lemma call_linked s r b h t room op f ops :
  linked s r b h t (S room) -> op_ok op -> well_timed h t (op :: ops) = true ->
  meets (reference_step s (op, f)).1 (redis_step f r op).1 /\
  exists b' h2 t2, linked (reference_step s (op, f)).2 (redis_step f r op).2 b' h2 t2 room /\ well_timed h2 t2 ops = true.
Proof.
  intros Hl Hop Hw. pose proof (linked_times _ _ _ _ _ _ Hl) as [Hh Ht].
  destruct (timed_next h t op ops Hh Ht Hw) as (Hs & h2 & t2 & Hle & Hlt & Hw2).
  pose proof (step_linked s r b h t room op ops Hl Hop Hw) as [Ha Hnext].
  unfold reference_step. cbn [fst snd]. destruct f; cbn [fst snd].
  - by split.
  - destruct (redis_step_fault Unreachable r op) as [Hr ->]; [done..|]. split; [done|].
    destruct (is_lapse op) eqn:El; [by destruct op; try done|]. exists b, h2, t2. split; [|done].
    eapply linked_later; [exact Hl|done..|lia].
  - destruct (redis_step_fault ReplyLost r op) as [Hr ->]; [done..|]. split; [done|]. by destruct (is_lapse op).
Qed.

Lemma run_linked calls : forall s r b h t,
  linked s r b h t (length calls) -> Forall (fun call => op_ok call.1) calls -> well_timed h t (map fst calls) = true ->
  Forall2 meets (run_calls reference_step s calls) (run_calls (fun r call => redis_step call.2 r call.1) r calls).
Proof.
  induction calls as [|[op f] calls IH]; intros s r b h t Hl Hok Hw; [constructor|].
  apply Forall_cons in Hok as [Hop Hok]. cbn [length map fst] in Hl, Hw, Hop.
  destruct (call_linked s r b h t (length calls) op f _ Hl Hop Hw) as (Ha & b' & h2 & t2 & Hl' & Hw').
  cbn [run_calls fst snd]. destruct (reference_step s (op, f)) as [a s'], (redis_step f r op) as [a2 r'].
  constructor; [done|]. by eapply IH.
Qed.

(** C11.  The distributed limit store is a refinement of the in-memory one.
    Take one counter of a store without a tenant quota, a server with nothing
    under its keys, and a sequence of calls from any number of replicas -
    consuming, reading the total, releasing - some of which do not reach the
    server or lose their answer, with keys reclaimed at any point where every
    entry has left the window or the cooldown is over.  Suppose the times
    of the calls never go back, every cooldown would end at a time [tostring]
    writes without loss, the members fit the arguments of one command, and the
    costs in use add up the same in any order.  Then every answered call gets
    the answer the in-memory store gives after the calls that reached the
    server: the same admissions, refusals, cooldowns and errors, with the
    figures as [tostring] writes them; and every other call is refused.
    (The conditions matter: [cooldown_loses_digits], [crowded_window_fails],
    [quota_forgets_cooldown].) *)
Theorem redis_refines_memory r max_subjects calls h t :
  (forall k, k ∈ [window_key c key; cost_key c key; cooldown_key c key] -> contents r k = no_value) ->
  (1 <= max_subjects)%Z -> (length calls <= n)%nat -> Forall (fun call => op_ok call.1) calls ->
  is_nan h = false -> is_nan t = false -> well_timed h t (map fst calls) = true ->
  Forall2 meets
    (run_calls reference_step
       (limit_store_init (rl_limits c) (rl_default_limit c) (rl_cooldown_seconds c) max_subjects) calls)
    (run_calls (fun r call => redis_step call.2 r call.1) r calls).
Proof.
  intros Hempty Hmax Hlen Hok Hh Ht Hw. eapply (run_linked _ _ _ budget_init h t); [|done..].
  constructor; try done.
  - constructor; try done. by right.
  - exists h, t. rewrite !fle_refl by done. split_and!; [|done..].
    constructor; rewrite ?Hempty by set_solver; try done; [constructor|by left].
Qed.
End runs.

(** ** A server to run the scripts on *)

Module Server.
(** The keys, and the milliseconds left to those that expire. *)
Record state := { sv_values : gmap string value; sv_left : gmap string Z }.
Definition at_key (r : state) (k : string) : value := default no_value (sv_values r !! k).

(** A key whose value is empty is no key, and has no time to live. *)
Definition vacant (v : value) : bool :=
  bool_decide (v_zset v = ∅) && bool_decide (v_hash v = ∅) &&
  match v_number v with None => true | _ => false end && match v_list v with [] => true | _ => false end.
Definition left (r : state) (k : string) : option Z := if vacant (at_key r k) then None else sv_left r !! k.

(** A command on a key: a new key starts without a time to live. *)
Definition update (f : value -> value) (k : string) (r : state) : state :=
  {| sv_values := <[k := f (at_key r k)]> (sv_values r);
     sv_left := if vacant (at_key r k) then delete k (sv_left r) else sv_left r |}.
Definition remove (k : string) (r : state) : state :=
  {| sv_values := delete k (sv_values r); sv_left := delete k (sv_left r) |}.
Definition store (f : value -> value) (k : string) (r : state) : state :=
  {| sv_values := <[k := f (at_key r k)]> (sv_values r); sv_left := delete k (sv_left r) |}.

(** [EXPIRE]: of no effect without a key, and deleting it for a time not positive. *)
Definition expire_in (k : string) (seconds : Z) (r : state) : state :=
  if vacant (at_key r k) then r
  else if (seconds <=? 0)%Z then remove k r
  else {| sv_values := sv_values r; sv_left := <[k := (1000 * seconds)%Z]> (sv_left r) |}.

Definition pass (ms : Z) (r : state) : state :=
  {| sv_values := map_imap (fun k v => match sv_left r !! k with
                                       | Some t => if (t <=? ms)%Z then None else Some v
                                       | None => Some v
                                       end) (sv_values r);
     sv_left := omap (fun t => if (t <=? ms)%Z then None else Some (t - ms)%Z) (sv_left r) |}.

(** Members by score, then by name. *)
Definition before (x y : string * float) : bool :=
  flt x.2 y.2 || (feq x.2 y.2 && String.ltb x.1 y.1).
Fixpoint place (x : string * float) (l : list (string * float)) : list (string * float) :=
  match l with
  | [] => [x]
  | y :: l' => if before x y then x :: l else y :: place x l'
  end.
Definition by_score (z : gmap string float) : list (string * float) := foldr place [] (map_to_list z).

Definition ranked (r : state) (k : string) : list (string * float) := by_score (v_zset (at_key r k)).

(** A range of indices, both included; a negative one counts from the end. *)
Definition index (len i : Z) : Z := if (i <? 0)%Z then (len + i)%Z else i.
Definition range {A} (l : list A) (i j : Z) : list A :=
  let len := Z.of_nat (length l) in
  let i' := Z.max 0 (index len i) in
  take (Z.to_nat (index len j + 1 - i')) (drop (Z.to_nat i') l).

(** [%.14g]: the nearest number of fourteen digits. *)
Definition g14 (x : float) : float :=
  match x with
  | S754_finite s m e =>
      let y := default S754_nan (float_of_unsigned_str (hd "" (candidates m e (decimal_point m e) 14))) in
      if s then fneg y else y
  | _ => x
  end.

(** Lua's limit on the values a C function may be given. *)
Definition LUAI_MAXCSTACK : Z := 8000.
End Server.

#[export] Instance server_empty : Empty Server.state := {| Server.sv_values := ∅; Server.sv_left := ∅ |}.

#[export] Instance server : Redis Server.state := {
  zadd r k s m := Server.update (fun v => set_zset (<[m := s]> (v_zset v)) v) k r;
  zrem r k l := Server.update (fun v => set_zset (filter (fun ms => ms.1 ∉ l) (v_zset v)) v) k r;
  zrange r k i j := map fst (Server.range (Server.ranked r k) i j);
  zrangebyscore_upto r k h := map fst (List.filter (fun ms => fle ms.2 h) (Server.ranked r k));
  zrangebyscore_above r k h := map fst (List.filter (fun ms => fgt ms.2 h) (Server.ranked r k));
  zcard r k := Z.of_nat (size (v_zset (Server.at_key r k)));
  hset r k m x := Server.update (fun v => set_hash (<[m := x]> (v_hash v)) v) k r;
  hdel r k l := Server.update (fun v => set_hash (filter (fun ms => ms.1 ∉ l) (v_hash v)) v) k r;
  hmget r k l := map (fun m => v_hash (Server.at_key r k) !! m) l;
  hexists r k m := bool_decide (is_Some (v_hash (Server.at_key r k) !! m));
  get r k := v_number (Server.at_key r k);
  set r k x := Server.store (set_number (Some x)) k r;
  del r l := foldr Server.remove r l;
  expire r k ttl := Server.expire_in k ttl r;
  lpush r k x := Server.update (fun v => set_list (x :: v_list v) v) k r;
  ltrim r k i j := Server.update (fun v => set_list (Server.range (v_list v) i j) v) k r;
  lrange r k := v_list (Server.at_key r k);
  elapse r ms := Server.pass ms r;
  tostring := Server.g14;
  unpackable n := (Z.of_nat n <? Server.LUAI_MAXCSTACK)%Z
}.

Lemma server_update f k r k' :
  Server.at_key (Server.update f k r) k' = if decide (k' = k) then f (Server.at_key r k) else Server.at_key r k'.
Proof.
  unfold Server.update, Server.at_key at 1. cbn. case_decide as Hk; [subst; by rewrite lookup_insert_eq|].
  by rewrite lookup_insert_ne.
Qed.

Lemma server_store f k r k' :
  Server.at_key (Server.store f k r) k' = if decide (k' = k) then f (Server.at_key r k) else Server.at_key r k'.
Proof.
  unfold Server.store, Server.at_key at 1. cbn. case_decide as Hk; [subst; by rewrite lookup_insert_eq|].
  by rewrite lookup_insert_ne.
Qed.

Lemma server_vacant v : Server.vacant v = true <-> v = no_value.
Proof.
  unfold Server.vacant. destruct v as [zs hs nu li]. cbn. rewrite !andb_true_iff, !bool_decide_eq_true. split.
  - intros [[[-> ->] Hn] Hl]. by destruct nu, li.
  - intros [= -> -> -> ->]. done.
Qed.

Lemma server_update_left f k r k' : k' <> k -> Server.left (Server.update f k r) k' = Server.left r k'.
Proof.
  intros Hk. unfold Server.left. rewrite server_update, decide_False by done. unfold Server.update. cbn.
  destruct (Server.vacant (Server.at_key r k)); [|done]. by rewrite lookup_delete_ne.
Qed.

Lemma server_expire r k ttl k' : (0 < ttl)%Z -> Server.at_key (Server.expire_in k ttl r) k' = Server.at_key r k'.
Proof.
  intros Ht. unfold Server.expire_in. destruct (Server.vacant _); [done|]. by rewrite (proj2 (Z.leb_gt _ _)).
Qed.

Lemma server_pass r d k :
  Server.at_key (Server.pass d r) k =
  match Server.left r k with Some t => if (t <=? d)%Z then no_value else Server.at_key r k | None => Server.at_key r k end.
Proof.
  unfold Server.left. destruct (Server.vacant (Server.at_key r k)) eqn:Ev.
  - apply server_vacant in Ev. rewrite Ev. unfold Server.at_key in *. cbn. rewrite map_lookup_imap.
    destruct (Server.sv_values r !! k) as [v|]; [|done]. cbn in *. subst v.
    destruct (Server.sv_left r !! k) as [t|]; [|done]. by destruct (_ <=? _)%Z.
  - unfold Server.at_key in *. cbn. rewrite map_lookup_imap. destruct (Server.sv_values r !! k) as [v|]; cbn.
    + destruct (Server.sv_left r !! k) as [t|]; [|done]. by destruct (_ <=? _)%Z.
    + destruct (Server.sv_left r !! k) as [t|]; [|done]. by destruct (_ <=? _)%Z.
Qed.

Lemma server_pass_left r d k :
  Server.left (Server.pass d r) k =
  match Server.left r k with Some t => if (t <=? d)%Z then None else Some (t - d)%Z | None => None end.
Proof.
  unfold Server.left at 1. rewrite server_pass. cbn. rewrite lookup_omap. unfold Server.left.
  destruct (Server.vacant (Server.at_key r k)) eqn:Ev; [by rewrite Ev|].
  destruct (Server.sv_left r !! k) as [t|]; cbn; [|by destruct (Server.vacant _)].
  destruct (t <=? d)%Z; cbn; [|by rewrite Ev]. by destruct (Server.vacant _).
Qed.

Lemma server_place x l : Server.place x l ≡ₚ x :: l.
Proof. induction l as [|y l IH]; cbn; [done|]. destruct (Server.before x y); [done|]. rewrite IH. constructor. Qed.

Lemma server_by_score z : Server.by_score z ≡ₚ map_to_list z.
Proof.
  unfold Server.by_score. induction (map_to_list z) as [|x l IH]; cbn; [done|]. by rewrite server_place, IH.
Qed.

Lemma server_filter f z : map fst (List.filter f (Server.by_score z)) ≡ₚ map fst (List.filter f (map_to_list z)).
Proof.
  apply Permutation_map. induction (server_by_score z) as [|x l l' _ IH|x y l|l1 l2 l3 _ IH1 _ IH2]; cbn.
  - done.
  - destruct (f x); [by constructor|done].
  - destruct (f x), (f y); try done. constructor.
  - by etrans.
Qed.

Lemma server_range_head {A} (l : list A) n : (0 < n)%Z -> Server.range l 0 (n - 1) = take (Z.to_nat n) l.
Proof.
  intros Hn. unfold Server.range, Server.index. destruct (Z.ltb_spec (n - 1) 0); [lia|]. cbn. f_equal. lia.
Qed.

Lemma server_range_all {A} (l : list A) : Server.range l 0 (-1) = l.
Proof. unfold Server.range, Server.index. cbn. rewrite drop_0, firstn_all2; [done|lia]. Qed.

Lemma server_del r l k : Server.at_key (foldr Server.remove r l) k = if decide (k ∈ l) then no_value else Server.at_key r k.
Proof.
  induction l as [|k0 l IH]; cbn [foldr]; [by rewrite decide_False by apply not_elem_of_nil|].
  unfold Server.at_key at 1. cbn [Server.remove Server.sv_values]. destruct (decide (k = k0)) as [->|Hk].
  - rewrite lookup_delete_eq. by rewrite decide_True by left.
  - rewrite lookup_delete_ne by done. unfold Server.at_key in IH at 1. rewrite IH.
    destruct (decide (k ∈ l)); [rewrite decide_True; [done|by right]|rewrite decide_False; [done|by intros [?|?]%elem_of_cons]].
Qed.

Lemma server_expire_left r k ttl k' :
  (0 < ttl)%Z -> Server.at_key r k <> no_value ->
  Server.left (Server.expire_in k ttl r) k' = if decide (k' = k) then Some (1000 * ttl)%Z else Server.left r k'.
Proof.
  intros Ht Hk. unfold Server.left. rewrite server_expire by done. unfold Server.expire_in.
  assert (Server.vacant (Server.at_key r k) = false) as Hv by (apply not_true_iff_false; by rewrite server_vacant).
  rewrite Hv, (proj2 (Z.leb_gt _ _)) by done. cbn. case_decide as Hd; [subst; by rewrite Hv, lookup_insert_eq|].
  by rewrite lookup_insert_ne.
Qed.

#[export] Instance server_laws : RedisLaws Server.state.
Proof.
  unshelve refine {| contents := Server.at_key; remaining := Server.left |}; intros.
  1-4, 8: cbn; by rewrite server_update.
  - apply server_store.
  - apply server_del.
  - by apply server_expire.
  - cbn. rewrite server_update. by rewrite server_range_head.
  - cbn. rewrite server_range_all. apply Permutation_map, server_by_score.
  - apply server_filter.
  - apply server_filter.
  - done.
  - done.
  - done.
  - done.
  - unfold Server.left. by rewrite (proj2 (server_vacant _)).
  - by apply server_expire_left.
  - by apply server_update_left.
  - by apply server_update_left.
  - by apply server_pass.
  - by apply server_pass_left.
Defined.

(** ** The limit store, run *)

Definition sample_store (max_tenant_subjects : Z) : RedisLimitStore :=
  {| rl_limits := ∅; rl_default_limit := fz 2; rl_cooldown_seconds := fz 300; rl_key_prefix := "gb:";
     rl_max_tenant_subjects := max_tenant_subjects |}.

(** The second call reaches the server, but the caller does not hear of it and
    repeats it; the one before the last does not reach it. *)
Definition sample_calls : list (limit_op * redis_fault) :=
  [(OpConsume (fz 1) "d1" (fz 100), NoRedisFault); (OpConsume (fz 1) "d2" (fz 101), ReplyLost);
   (OpConsume (fz 1) "d2" (fz 101), NoRedisFault); (OpConsume (fz 1) "d3" (fz 102), NoRedisFault);
   (OpCumulative (fz 103), NoRedisFault); (OpRelease "d1", NoRedisFault); (OpLapse (fz 4000), NoRedisFault);
   (OpLapseCooldown (fz 4000), NoRedisFault); (OpConsume (fz 1) "d4" (fz 4001), Unreachable);
   (OpConsume (fz 1) "d4" (fz 4001), NoRedisFault)].

(** Only whole costs of one. *)
Definition unit_cost (x : float) : Prop := x = fz 1.

Lemma unit_sums l l' :
  l ≡ₚ l' -> Forall unit_cost l -> (length l <= 10)%nat -> lua_sum (map Some l) = py_sum l'.
Proof.
  intros Hp Hl Hlen. assert (Hl' : Forall unit_cost l') by (by rewrite <-Hp). pose proof (Permutation_length Hp) as Heq.
  assert (forall k : list float, Forall unit_cost k -> k = replicate (length k) (fz 1)) as Hrep.
  { induction k as [|x k IH]; intros H; [done|]. apply Forall_cons in H as [-> Hk]. cbn. f_equal. by apply IH. }
  rewrite (Hrep l Hl), (Hrep l' Hl'), <-Heq. clear -Hlen. revert Hlen. generalize (length l) as m. intros m Hlen.
  do 11 (destruct m as [|m]; [vm_compute; reflexivity|]). lia.
Qed.

Lemma server_unpacks m : (m <= 10)%nat -> unpackable (R := Server.state) m = true.
Proof. intros Hm. apply Z.ltb_lt. unfold Server.LUAI_MAXCSTACK. lia. Qed.

Lemma redis_refines_memory_witness :
  Forall2 (meets sample_key)
    (run_calls (reference_step sample_key) (limit_store_init ∅ (fz 2) (fz 300) 10) sample_calls)
    (run_calls (fun r call => redis_step (R := Server.state) (sample_store 0) sample_key call.2 r call.1) ∅ sample_calls).
Proof.
  apply (redis_refines_memory (R := Server.state) (sample_store 0) sample_key 10 server_unpacks
           unit_cost unit_sums eq_refl 420 300 ltac:(vm_compute; reflexivity) ltac:(lia) ltac:(vm_compute; reflexivity)
           ∅ 10 sample_calls (fz 0) (fz 0)).
  - intros k _. reflexivity.
  - lia.
  - cbn. lia.
  - repeat constructor; vm_compute; reflexivity.
  - reflexivity.
  - reflexivity.
  - vm_compute. reflexivity.
Defined.

(** Whatever happens to the calls, the store never admits without the server's
    word: a call whose answer does not arrive is refused. *)
Lemma redis_fails_closed {R} `{Redis R} c quota f r key cost d now v r' :
  redis_try_consume c quota f r key cost d now = (Ok v, r') ->
  f = NoRedisFault /\ (rl_max_tenant_subjects c <> 0%Z -> quota = NoRedisFault).
Proof.
  unfold redis_try_consume. destruct (_ ← member_for d now; _) as [[[m h] t]|]; [|done].
  destruct (Z.eqb_spec (rl_max_tenant_subjects c) 0) as [Hz|Hz]; cbn.
  - destruct f; cbn; [|done|by destruct (redis_consume_script c key m h cost now t r)]. done.
  - destruct quota; cbn; try done. destruct (TENANT_QUOTA_SCRIPT _ _ _ _ r) as [[x|] r1]; [|done].
    destruct f; done.
Qed.

(** A window with more members than [unpack] can pass to a command is refused
    as an outage until enough of them expire, whatever the budget. *)
Lemma crowded_window_fails {R} `{Redis R} c r key cost d now horizon :
  rl_max_tenant_subjects c = 0%Z -> start_of (lk_window key) now = Ok horizon ->
  is_ok (member_for d now) = true -> is_ok (redis_ttl c key) = true ->
  zrangebyscore_upto r (window_key c key) horizon = [] -> get r (cooldown_key c key) = None ->
  unpackable (length (zrange r (window_key c key) 0 (-1))) = false -> zrange r (window_key c key) 0 (-1) <> [] ->
  redis_try_consume c NoRedisFault NoRedisFault r key cost d now = (Raise LimitStoreUnavailable, r).
Proof.
  intros Hq Hs Hm Ht Hup Hcd Hun Hne. unfold redis_try_consume. destruct (member_for d now) as [m|]; [|done].
  destruct (redis_ttl c key) as [t|]; [|done]. rewrite Hs, Hq. cbn [mbind res_bind Z.eqb run_script].
  unfold redis_consume_script, CONSUME_SCRIPT, mbind, script_bind, ask. rewrite Hup. cbn [script_remove mret script_ret].
  unfold mret, script_ret. rewrite Hcd. unfold script_admit, mbind, script_bind, ask.
  assert (script_observed (window_key c key) (cost_key c key) r = (None, r)) as Ho.
  { unfold script_observed, mbind, script_bind, ask, unpack. destruct (zrange r _ 0 (-1)); [done|]. by rewrite Hun. }
  destruct (hexists _ _ _); by rewrite Ho.
Qed.

(** The cooldown is stored as [tostring] writes it: here it ends 43 microseconds
    before the time the in-memory store keeps. *)
Example cooldown_loses_digits :
  let now := fdiv (fz 1753000000123443) (fz 1000000) in
  let s := (redis_try_consume (R := Server.state) (sample_store 0) NoRedisFault NoRedisFault ∅ sample_key (fz 5) "d1" now).2 in
  get s (cooldown_key (sample_store 0) sample_key) = Some (fdiv (fz 17530003001234) (fz 10000)) /\
  flt (fdiv (fz 17530003001234) (fz 10000)) (fadd now (fz 300)) = true.
Proof. vm_compute. split; reflexivity. Qed.

Definition other_key : LimitKey :=
  {| lk_tenant_id := "t1"; lk_scope := SCOPE_AGENT; lk_subject := "agent-2";
     lk_window := {| win_seconds := 60 |}; lk_action := "*" |}.

Definition admissions (l : list (LimitKey * float * string * float)) (c : RedisLimitStore) : list (option bool) :=
  (foldl (fun acc '(key, cost, d, now) =>
            let '(v, r) := redis_try_consume c NoRedisFault NoRedisFault acc.2 key cost d now in
            (acc.1 ++ [match v with Ok v => Some (lv_admitted v) | Raise _ => None end], r))
         ([], (∅ : Server.state)) l).1.

(** A breaker that has tripped is reset by the quota: touching another subject
    evicts the counter together with its cooldown. *)
Example quota_forgets_cooldown :
  let calls := [(sample_key, fz 5, "d1", fz 100); (sample_key, fz 1, "d2", fz 101); (other_key, fz 1, "d3", fz 102);
                (sample_key, fz 1, "d4", fz 103)] in
  admissions calls (sample_store 0) = [Some false; Some false; Some true; Some false] /\
  admissions calls (sample_store 1) = [Some false; Some false; Some true; Some true].
Proof. vm_compute. split; reflexivity. Qed.
