(* ===== verification/RedisBaseline.v ===== *)
(** * The Redis baseline store ([glassbox/adapters/outbound/redis/baseline.py])

    The window of observations the replicas share, each behind a circuit
    breaker of its own of the same shape as the KMS signer's.  A fleet of
    replicas acts on one server while time passes there: the window of a key is
    bounded whatever happens to the calls, and is reclaimed once the key was
    idle for its time to live; while it is not, a replica judges as the
    in-memory store does. *)

From stdpp Require Import base tactics list strings gmap.
From Stdlib Require Import ZArith Lia Floats.SpecFloat.
From S2P Require Import Prelude PyFloat PyStr Serialization Limits Kms GovernanceState Redis.

Open Scope string_scope.
Open Scope list_scope.

Definition DEFAULT_TTL_SECONDS : Z := 30 * 86400.

Record RedisBaselineStore := {
  rb_min_samples : nat;
  rb_max_samples : Z;
  rb_ttl_seconds : Z;
  rb_key_prefix : string;
  rb_breaker : CircuitBreaker
}.

(** [_CircuitBreaker()]: five failures, ten seconds. *)
Definition baseline_breaker : CircuitBreaker :=
  {| cb_threshold := 5; cb_reset_after := fz 10; cb_failures := 0; cb_opened_at := None |}.

Definition redis_baseline_init (min_samples : nat) (max_samples ttl_seconds : Z) (key_prefix : string) : RedisBaselineStore :=
  {| rb_min_samples := min_samples; rb_max_samples := max_samples; rb_ttl_seconds := ttl_seconds;
     rb_key_prefix := key_prefix; rb_breaker := baseline_breaker |}.

Definition with_breaker (c : RedisBaselineStore) (b : CircuitBreaker) : RedisBaselineStore :=
  {| rb_min_samples := rb_min_samples c; rb_max_samples := rb_max_samples c; rb_ttl_seconds := rb_ttl_seconds c;
     rb_key_prefix := rb_key_prefix c; rb_breaker := b |}.

Definition redis_key (c : RedisBaselineStore) (key : BaselineKey) : string :=
  rb_key_prefix c +:+ "{" +:+ bk_tenant_id key +:+ "}:" +:+ baseline_canonical_key key.

(** One call to the server: what happens to it, and the monotonic clock before
    it and when it fails. *)
Record redis_call := { rc_fault : redis_fault; rc_before : float; rc_after : float }.

(** What a failed or answered call leaves of the breaker. *)
Definition answered (c : RedisBaselineStore) : RedisBaselineStore := with_breaker c (record_success (rb_breaker c)).
Definition failed (c : RedisBaselineStore) (q : redis_call) : RedisBaselineStore :=
  with_breaker c (record_failure (rb_breaker c) (rc_after q)).

Section store.
Context {R : Type} `{Redis R}.

(** The pipeline is one transaction. *)
Definition observe_pipeline (c : RedisBaselineStore) (key : BaselineKey) (observation : float) : script R unit :=
  _ ← tell (fun r => lpush r (redis_key c key) observation);
  _ ← tell (fun r => ltrim r (redis_key c key) 0 (rb_max_samples c - 1));
  tell (fun r => expire r (redis_key c key) (rb_ttl_seconds c)).

Definition redis_observe (q : redis_call) (c : RedisBaselineStore) (r : R) (key : BaselineKey) (observation : float)
    : res unit * (RedisBaselineStore * R) :=
  if is_open (rb_breaker c) (rc_before q) then (Raise BaselineStoreUnavailable, (c, r))
  else
    match run_script (rc_fault q) (observe_pipeline c key observation) r with
    | (None, r') => (Raise BaselineStoreUnavailable, (failed c q, r'))
    | (Some _, r') => (Ok tt, (answered c, r'))
    end.

Definition read_samples (q : redis_call) (c : RedisBaselineStore) (r : R) (key : BaselineKey)
    : res (list float) * RedisBaselineStore :=
  if is_open (rb_breaker c) (rc_before q) then (Raise BaselineStoreUnavailable, c)
  else
    match (run_script (rc_fault q) (ask (fun r => lrange r (redis_key c key))) r).1 with
    | None => (Raise BaselineStoreUnavailable, failed c q)
    | Some samples => (Ok samples, answered c)
    end.

Definition redis_get (q : redis_call) (c : RedisBaselineStore) (r : R) (key : BaselineKey) (now : float)
    : res (option Baseline) * RedisBaselineStore :=
  let '(samples, c') := read_samples q c r key in
  (match samples with
   | Raise e => Raise e
   | Ok [] => Ok None
   | Ok l => b ← summarise key l now; Ok (Some b)
   end, c').

(** The verdict once the samples are read. *)
Definition judge (effective_key : BaselineKey) (samples : list float) (observation threshold now : float)
    (used_peer_prior : bool) : res BaselineVerdict :=
  match samples with
  | [] => mk_BaselineVerdict true effective_key observation finf threshold 0 used_peer_prior
  | _ =>
      baseline ← summarise effective_key samples now;
      z ← z_score baseline observation;
      mk_BaselineVerdict (fgt (fabs z) threshold) effective_key observation z threshold
        (bl_sample_count baseline) used_peer_prior
  end.

(** [q1] reads the subject's samples and [q2] those of its peers. *)
Definition redis_evaluate (q1 q2 : redis_call) (c : RedisBaselineStore) (r : R) (key : BaselineKey)
    (observation : float) (peer_group : string) (threshold now : float) : res BaselineVerdict * RedisBaselineStore :=
  let '(own, c1) := read_samples q1 c r key in
  match own with
  | Raise e => (Raise e, c1)
  | Ok samples =>
      if (length samples <? rb_min_samples c)%nat then
        match peer_group_fallback key peer_group with
        | Raise e => (Raise e, c1)
        | Ok k =>
            let '(peers, c2) := read_samples q2 c1 r k in
            (samples ← peers; judge k samples observation threshold now true, c2)
        end
      else (judge key samples observation threshold now false, c1)
  end.
End store.

(** ** A fleet on one server *)

Section fleet.
Context {R : Type} `{Redis R}.

(** What the replicas do, in the order the server sees it: the replica of that
    index observes, evaluates or reads; or milliseconds pass at the server. *)
Inductive fleet_event :=
| EvObserve (i : nat) (q : redis_call) (key : BaselineKey) (observation : float)
| EvEvaluate (i : nat) (q1 q2 : redis_call) (key : BaselineKey) (observation : float) (peer_group : string) (threshold now : float)
| EvGet (i : nat) (q : redis_call) (key : BaselineKey) (now : float)
| EvElapse (ms : Z).

Abbreviation fleet := (list RedisBaselineStore * R)%type.

Definition fleet_step (f : fleet) (ev : fleet_event) : fleet :=
  match ev with
  | EvObserve i q key x =>
      match f.1 !! i with
      | Some c => let '(_, (c', r')) := redis_observe q c f.2 key x in (<[i := c']> f.1, r')
      | None => f
      end
  | EvEvaluate i q1 q2 key x peer threshold now =>
      match f.1 !! i with
      | Some c => (<[i := (redis_evaluate q1 q2 c f.2 key x peer threshold now).2]> f.1, f.2)
      | None => f
      end
  | EvGet i q key now =>
      match f.1 !! i with
      | Some c => (<[i := (redis_get q c f.2 key now).2]> f.1, f.2)
      | None => f
      end
  | EvElapse ms => (f.1, elapse f.2 ms)
  end.

Definition run_fleet (f : fleet) (events : list fleet_event) : fleet := foldl fleet_step f events.

(** A call that reached the server was not refused by the breaker, though its
    answer may have been lost. *)
Definition reaches (q : redis_call) (c : RedisBaselineStore) : bool :=
  negb (is_open (rb_breaker c) (rc_before q)) && match rc_fault q with Unreachable => false | _ => true end.

(** What the server saw: an observation under the name of its key, or time. *)
Inductive moment :=
| Landed (name : string) (key : BaselineKey) (observation : float)
| Passed (ms : Z).

Definition seen (f : fleet) (ev : fleet_event) : list moment :=
  match ev with
  | EvObserve i q key x =>
      match f.1 !! i with
      | Some c => if reaches q c then [Landed (redis_key c key) key x] else []
      | None => []
      end
  | EvElapse ms => [Passed ms]
  | _ => []
  end.

Fixpoint history (f : fleet) (events : list fleet_event) : list moment :=
  match events with
  | [] => []
  | ev :: rest => seen f ev ++ history (fleet_step f ev) rest
  end.
End fleet.

(** ** The window of a key, from what the server saw

    The observations since the key was last idle for its time to live, latest
    first, and the milliseconds left. *)
Definition window_step (ttl : Z) (name : string) (w : list float * option Z) (m : moment) : list float * option Z :=
  match m with
  | Landed name' _ x => if bool_decide (name' = name) then (x :: w.1, Some (1000 * ttl)%Z) else w
  | Passed ms =>
      match w.2 with
      | Some t => if (t <=? ms)%Z then ([], None) else (w.1, Some (t - ms)%Z)
      | None => w
      end
  end.
Definition window_of (ttl : Z) (name : string) (log : list moment) : list float * option Z :=
  foldl (window_step ttl name) ([], None) log.

Section window.
Context {R : Type} `{RedisLaws R}.
Variables (min_samples : nat) (max_samples ttl : Z) (prefix : string).

(** The replicas have the same settings; each has its own breaker. *)
Definition configured (c : RedisBaselineStore) : Prop :=
  rb_min_samples c = min_samples /\ rb_max_samples c = max_samples /\ rb_ttl_seconds c = ttl /\ rb_key_prefix c = prefix.

Hypothesis room : (0 < max_samples)%Z.
Hypothesis lives : (0 < ttl)%Z.

Abbreviation fleet := (list RedisBaselineStore * R)%type.

(** The server holds the window of the key. *)
Record holds_window (r : R) (name : string) (w : list float * option Z) : Prop := {
  hw_contents : contents r name = set_list (take (Z.to_nat max_samples) w.1) no_value;
  hw_remaining : remaining r name = w.2;
  hw_empty : w.1 = [] -> w.2 = None
}.

Lemma configured_breaker c b : configured c -> configured (with_breaker c b).
Proof. done. Qed.

Lemma read_configured q c (r : R) key : configured c -> configured (read_samples q c r key).2.
Proof.
  intros Hc. unfold read_samples. destruct (is_open _ _); [done|].
  by destruct ((run_script _ _ _).1); apply configured_breaker.
Qed.

Lemma get_configured q c (r : R) key now : configured c -> configured (redis_get q c r key now).2.
Proof.
  intros Hc. apply (read_configured q c r key) in Hc. unfold redis_get. by destruct (read_samples q c r key).
Qed.

Lemma evaluate_configured q1 q2 c (r : R) key x peer th now :
  configured c -> configured (redis_evaluate q1 q2 c r key x peer th now).2.
Proof.
  intros Hc. apply (read_configured q1 c r key) in Hc. unfold redis_evaluate. destruct (read_samples q1 c r key) as [[l|e] c1]; [|done].
  destruct (_ <? _)%nat; [|done]. destruct (peer_group_fallback key peer) as [k|]; [|done].
  apply (read_configured q2 c1 r k) in Hc. by destruct (read_samples q2 c1 r k).
Qed.

(** The pipeline adds to the window of its key and gives it its time to live. *)
Lemma pipeline_window c (r : R) key x name w :
  configured c -> holds_window r name w ->
  holds_window (observe_pipeline c key x r).2 name (window_step ttl name w (Landed (redis_key c key) key x)).
Proof using room lives.
  intros (_ & Hmax & Httl & _) [Hc Hr He]. unfold observe_pipeline, mbind, script_bind, tell. cbn [snd window_step].
  rewrite Hmax, Httl. set (k := redis_key c key).
  set (r1 := ltrim (lpush r k x) k 0 (max_samples - 1)).
  assert (contents r1 name = if decide (name = k) then set_list (take (Z.to_nat max_samples) (x :: v_list (contents r k))) (contents r k)
                             else contents r name) as Hc1.
  { unfold r1. rewrite ltrim_spec by done. rewrite !lpush_spec. repeat case_decide; try congruence. done. }
  assert (v_list (contents r1 k) <> []) as Hne.
  { unfold r1. rewrite ltrim_spec, decide_True, !lpush_spec, decide_True by done. cbn.
    destruct (Z.to_nat max_samples) eqn:E; [lia|done]. }
  assert (contents r1 k <> no_value) as Hfull by (by intros E; rewrite E in Hne).
  destruct (decide (name = k)) as [->|Hk].
  - rewrite bool_decide_true by done. constructor; cbn [fst snd]; [|by rewrite expire_remaining, decide_True by done|done].
    rewrite expire_spec, Hc1, Hc by done. unfold set_list, no_value. cbn. f_equal.
    destruct (Z.to_nat max_samples) as [|m] eqn:E; [lia|]. rewrite !firstn_cons. f_equal. rewrite firstn_firstn. f_equal. lia.
  - rewrite bool_decide_false by congruence. constructor; [by rewrite expire_spec, Hc1 by done| |done].
    rewrite expire_remaining, decide_False by done. unfold r1. by rewrite ltrim_remaining, lpush_remaining by done.
Qed.

Definition fleet_ok (f : fleet) : Prop := Forall configured f.1.

Lemma fleet_insert (f : fleet) i c r' : fleet_ok f -> configured c -> fleet_ok (<[i := c]> f.1, r').
Proof. intros Hf Hc. by apply Forall_insert. Qed.

Lemma observe_step q c (r : R) key x name w :
  configured c -> holds_window r name w ->
  let '(_, (c', r')) := redis_observe q c r key x in
  configured c' /\
  holds_window r' name (if reaches q c then window_step ttl name w (Landed (redis_key c key) key x) else w).
Proof using room lives.
  intros Hc Hw. unfold redis_observe, reaches. destruct (is_open _ _); cbn [negb andb]; [done|].
  pose proof (pipeline_window c r key x name w Hc Hw) as Hp.
  destruct (rc_fault q); cbn [run_script]; [|by split|];
    destruct (observe_pipeline c key x r) as [[[]|] r']; cbn [snd] in Hp; split; (exact Hp || exact Hc).
Qed.

Lemma fleet_step_window (f : fleet) ev name w :
  (forall ms, ev = EvElapse ms -> (0 <= ms)%Z) -> fleet_ok f -> holds_window f.2 name w ->
  fleet_ok (fleet_step f ev) /\ holds_window (fleet_step f ev).2 name (foldl (window_step ttl name) w (seen f ev)).
Proof using room lives.
  intros Hev Hf Hw. destruct ev as [i q key x|i q1 q2 key x peer th now|i q key now|ms]; cbn [fleet_step seen].
  - destruct (f.1 !! i) as [c|] eqn:Ei; [|done]. pose proof (proj1 (Forall_lookup _ _) Hf i c Ei) as Hc.
    pose proof (observe_step q c f.2 key x name w Hc Hw) as Ho. destruct (redis_observe q c f.2 key x) as [a [c' r']].
    destruct Ho as [Hc' Hw']. split; [by apply fleet_insert|]. by destruct (reaches q c).
  - destruct (f.1 !! i) as [c|] eqn:Ei; [|done]. pose proof (proj1 (Forall_lookup _ _) Hf i c Ei) as Hc.
    split; [by apply fleet_insert, evaluate_configured|done].
  - destruct (f.1 !! i) as [c|] eqn:Ei; [|done]. pose proof (proj1 (Forall_lookup _ _) Hf i c Ei) as Hc.
    split; [by apply fleet_insert, get_configured|done].
  - split; [done|]. specialize (Hev ms eq_refl). destruct Hw as [Hc Hr He]. cbn.
    destruct w as [l [t|]]; cbn [fst snd] in *.
    + destruct (Z.leb_spec t ms); constructor; cbn [fst snd]; rewrite ?elapse_spec, ?elapse_remaining, ?Hr by done;
        rewrite ?(proj2 (Z.leb_le t ms)), ?(proj2 (Z.leb_gt t ms)) by done; try done.
      * by rewrite take_nil.
      * intros Hl. by specialize (He Hl).
    + constructor; cbn [fst snd]; rewrite ?elapse_spec, ?elapse_remaining, ?Hr by done; done.
Qed.

Lemma fleet_window events : forall (f : fleet) name w,
  Forall (fun ev => forall ms, ev = EvElapse ms -> (0 <= ms)%Z) events -> fleet_ok f -> holds_window f.2 name w ->
  fleet_ok (run_fleet f events) /\
  holds_window (run_fleet f events).2 name (foldl (window_step ttl name) w (history f events)).
Proof using room lives.
  unfold run_fleet. induction events as [|ev events IH]; intros f name w Hev Hf Hw; [done|]. cbn [history foldl].
  apply Forall_cons in Hev as [Hev Hevs]. destruct (fleet_step_window f ev name w Hev Hf Hw) as [Hf' Hw'].
  rewrite foldl_app. by apply IH.
Qed.

Lemma nothing_held (r : R) name : contents r name = no_value -> holds_window r name ([], None).
Proof. intros Hc. constructor; cbn; [by rewrite take_nil, Hc|by apply absent_remaining|done]. Qed.

(** C13.  The shared window stays within its size, whatever happens.  After any
    run of any number of replicas with the same positive settings - observing,
    evaluating, reading, with calls refused by the replica's breaker, lost on
    the way or answered in vain, while time passes at the server - the list of
    a key that was absent at the start holds the observations that reached the
    server since the key was last idle for its time to live, latest first, and
    never more than the configured number of them. *)
Theorem redis_window_bounded (f : fleet) name events :
  fleet_ok f -> contents f.2 name = no_value ->
  Forall (fun ev => forall ms, ev = EvElapse ms -> (0 <= ms)%Z) events ->
  let r' := (run_fleet f events).2 in
  v_list (contents r' name) = take (Z.to_nat max_samples) (window_of ttl name (history f events)).1 /\
  (Z.of_nat (length (v_list (contents r' name))) <= max_samples)%Z.
Proof using room lives.
  intros Hf Hr Hev. destruct (fleet_window events f name _ Hev Hf (nothing_held _ _ Hr)) as [_ [Hc _ _]].
  cbv zeta. rewrite Hc. cbn [v_list set_list]. split; [done|]. rewrite length_take. lia.
Qed.
End window.

(** ** The in-memory window *)

Definition same_baseline_limits (s s' : BaselineStore) : Prop :=
  bs_min_samples s' = bs_min_samples s /\ bs_max_samples s' = bs_max_samples s /\
  bs_max_subjects s' = bs_max_subjects s /\ bs_available s' = bs_available s.

Lemma evict_within max w : (Z.of_nat (length w) <= max)%Z -> evict_observations max w = (Ok tt, w).
Proof.
  intros Hw. destruct w as [|x w]; cbn [evict_observations]; [|set (n := length (x :: w)) in *].
  - destruct (Z.ltb_spec max 0); [cbn in Hw; lia|done].
  - destruct (Z.ltb_spec max (Z.of_nat n)); [lia|done].
Qed.

(** While there is room for another subject nothing is evicted. *)
Lemma memory_observe s key x :
  bs_available s = true -> (Z.of_nat (length (bs_observations s)) < bs_max_subjects s)%Z ->
  let '(a, s') := baseline_observe s key x in
  a = Ok tt /\ same_baseline_limits s s' /\
  (length (bs_observations s') <= S (length (bs_observations s)))%nat /\
  forall k, samples_at s' k = if bool_decide (baseline_canonical_key k = baseline_canonical_key key)
                    then deque_append (bs_max_samples s) (samples_at s k) x else samples_at s k.
Proof.
  intros Ha Hroom. unfold baseline_observe, baseline_require_available. rewrite Ha. cbn [negb raise_if].
  set (ck := baseline_canonical_key key).
  set (opened := match od_get (bs_observations s) ck with Some _ => _ | None => _ end).
  assert (exists s1, opened = (Ok tt, s1) /\ same_baseline_limits s s1 /\ is_Some (od_get (bs_observations s1) ck) /\
    (length (bs_observations s1) <= S (length (bs_observations s)))%nat /\
    forall k, from_option id [] (od_get (bs_observations s1) k) = from_option id [] (od_get (bs_observations s) k)) as
    (s1 & -> & (Hmin & Hmax & Hsub & Hav) & [v Hv] & Hlen & Hget).
  { unfold opened. destruct (od_get (bs_observations s) ck) as [v|] eqn:E.
    - exists s. split_and!; try done. lia.
    - rewrite evict_within by (rewrite od_set_length, E; lia). eexists. split_and!; [reflexivity|done| | |].
      + cbn. rewrite od_get_set, String.eqb_refl. done.
      + cbn [with_observations bs_observations]. rewrite od_set_length, E. lia.
      + intros k. cbn [with_observations bs_observations]. rewrite od_get_set.
        destruct (String.eqb_spec ck k) as [<-|]; [by rewrite E|reflexivity]. }
  cbn [mbind res_bind]. pose proof (od_move_to_end_total _ _ _ Hv) as Hok.
  destruct (od_move_to_end (bs_observations s1) ck) as [w|] eqn:Ew; [|done]. apply od_move_to_end_spec in Ew as [Hw Hwlen].
  split_and!; try done.
  - cbn [with_observations bs_observations]. rewrite od_set_length, Hw, Hv. lia.
  - intros k. unfold samples_at. cbn [with_observations bs_observations]. rewrite od_get_set. destruct (String.eqb_spec ck (baseline_canonical_key k)) as [Hk|Hk].
    + rewrite bool_decide_true by done. cbn [from_option id]. rewrite Hmax, Hw, Hget. by rewrite Hk.
    + rewrite bool_decide_false by congruence. by rewrite Hw, Hget.
Qed.

(** ** The two stores agree *)

(** The same store with every window latest first. *)
Definition newest_first (s : BaselineStore) : BaselineStore :=
  with_observations s (map (fun kv => (kv.1, rev kv.2)) (bs_observations s)).

Lemma newest_first_get s k :
  od_get (bs_observations (newest_first s)) k = @rev float <$> od_get (bs_observations s) k.
Proof.
  unfold newest_first. cbn [with_observations bs_observations].
  induction (bs_observations s) as [|[k0 v] d IH]; cbn [map od_get fst snd]; [done|]. by destruct (k0 =? k)%string.
Qed.

Lemma newest_first_samples s k : samples_at (newest_first s) k = rev (samples_at s k).
Proof. unfold samples_at. rewrite newest_first_get. by destruct (od_get _ _). Qed.

Lemma deque_append_rev m l x : rev (deque_append m l x) = take m (x :: rev l).
Proof. unfold deque_append. change (x :: rev l) with (rev [x] ++ rev l). by rewrite <-rev_app_distr, firstn_rev. Qed.

(** Evaluation and reading depend on a store through the samples alone. *)
Lemma evaluate_samples s key o peer t now :
  bs_available s = true -> (1 <= bs_min_samples s)%nat ->
  baseline_evaluate s key o peer t now =
  if (length (samples_at s key) <? bs_min_samples s)%nat
  then k ← peer_group_fallback key peer; judge k (samples_at s k) o t now true
  else judge key (samples_at s key) o t now false.
Proof.
  intros Ha Hmin. unfold baseline_evaluate, baseline_require_available, samples_at. rewrite Ha. cbn [negb raise_if mbind res_bind].
  assert (forall k u, match od_get (bs_observations s) (baseline_canonical_key k) with
    | Some [] | None => mk_BaselineVerdict true k o finf t 0 u
    | Some l => baseline ← summarise k l now; z ← z_score baseline o;
        mk_BaselineVerdict (fgt (fabs z) t) k o z t (bl_sample_count baseline) u
    end = judge k (from_option id [] (od_get (bs_observations s) (baseline_canonical_key k))) o t now u) as Hj.
  { intros k u. by destruct (od_get _ _) as [[|y l]|]. }
  destruct (od_get (bs_observations s) (baseline_canonical_key key)) as [l|] eqn:E; cbn [from_option id].
  - destruct (Nat.ltb_spec (length l) (bs_min_samples s)).
    + destruct (peer_group_fallback key peer) as [k|]; cbn [mbind res_bind]; [apply Hj|done].
    + cbn [mbind res_bind]. specialize (Hj key false). by rewrite E in Hj.
  - destruct (Nat.ltb_spec (@length float []) (bs_min_samples s)); [|cbn in *; lia].
    destruct (peer_group_fallback key peer) as [k|]; cbn [mbind res_bind]; [apply Hj|done].
Qed.

Lemma get_samples s key now :
  bs_available s = true ->
  baseline_get s key now = match samples_at s key with [] => Ok None | l => b ← summarise key l now; Ok (Some b) end.
Proof.
  intros Ha. unfold baseline_get, baseline_require_available, samples_at. rewrite Ha. cbn [negb raise_if mbind res_bind].
  by destruct (od_get _ _) as [[|y l]|].
Qed.

(** The observations of a key that landed, latest first, and whether the key was
    never idle for its time to live between them and since. *)
Fixpoint landed_at (name : string) (log : list moment) (before : list float) : list float :=
  match log with
  | [] => before
  | Landed name' _ x :: rest => landed_at name rest (if bool_decide (name' = name) then x :: before else before)
  | Passed _ :: rest => landed_at name rest before
  end.
Fixpoint never_idle (ttl : Z) (name : string) (left : option Z) (log : list moment) : bool :=
  match log with
  | [] => true
  | Landed name' _ _ :: rest => never_idle ttl name (if bool_decide (name' = name) then Some (1000 * ttl)%Z else left) rest
  | Passed ms :: rest =>
      match left with
      | Some t => (ms <? t)%Z && never_idle ttl name (Some (t - ms)%Z) rest
      | None => never_idle ttl name None rest
      end
  end.

Lemma window_never_idle ttl name log : forall w left,
  never_idle ttl name left log = true -> (foldl (window_step ttl name) (w, left) log).1 = landed_at name log w.
Proof.
  induction log as [|[name' k x|ms] log IH]; intros w left Hn; [done| |]; cbn [foldl window_step landed_at never_idle fst snd] in *.
  - destruct (bool_decide _); by apply IH.
  - destruct left as [t|]; [|by apply IH]. apply andb_true_iff in Hn as [Ht Hn]. apply Z.ltb_lt in Ht.
    rewrite (proj2 (Z.leb_gt _ _)) by lia. by apply IH.
Qed.

(** The in-memory store that is given what landed. *)
Definition memory_moment (s : BaselineStore) (m : moment) : BaselineStore :=
  match m with Landed _ key x => (baseline_observe s key x).2 | Passed _ => s end.
Definition memory_of (s : BaselineStore) (log : list moment) : BaselineStore := foldl memory_moment s log.

Definition landings (log : list moment) : nat :=
  length (List.filter (fun m => match m with Landed _ _ _ => true | Passed _ => false end) log).

(** An observation of the tenant, under the name its key has. *)
Definition of_tenant (prefix tenant : string) (m : moment) : Prop :=
  match m with
  | Landed name key _ => bk_tenant_id key = tenant /\ name = redis_key (redis_baseline_init 0 0 0 prefix) key
  | Passed _ => True
  end.

(** Within a tenant the keys of the server are apart as those in memory are. *)
Lemma tenant_keys c k k' :
  bk_tenant_id k = bk_tenant_id k' ->
  redis_key c k = redis_key c k' <-> baseline_canonical_key k = baseline_canonical_key k'.
Proof.
  intros Hk. unfold redis_key. rewrite Hk. split; [|by intros ->]. by intros Heq%app_str_inv_head%app_str_inv_head%app_str_inv_head%app_str_inv_head.
Qed.

Lemma memory_holds prefix tenant key log : forall s w,
  bs_available s = true -> (Z.of_nat (length (bs_observations s) + landings log) <= bs_max_subjects s)%Z ->
  Forall (of_tenant prefix tenant) log -> bk_tenant_id key = tenant ->
  rev (samples_at s key) = take (bs_max_samples s) w ->
  same_baseline_limits s (memory_of s log) /\
  rev (samples_at (memory_of s log) key) =
    take (bs_max_samples s) (landed_at (redis_key (redis_baseline_init 0 0 0 prefix) key) log w).
Proof.
  unfold memory_of, landings. induction log as [|[name k x|ms] log IH]; intros s w Ha Hroom Hlog Hk Hs; [done| |];
    apply Forall_cons in Hlog as [Hm Hlog]; cbn [foldl memory_moment landed_at List.filter length] in *; [|by apply IH].
  destruct Hm as [Htk ->]. pose proof (memory_observe s k x Ha ltac:(lia)) as Ho.
  destruct (baseline_observe s k x) as [a s']. cbn [snd]. destruct Ho as (_ & (E1 & E2 & E3 & E4) & Hlen & Hget).
  destruct (IH s' (if bool_decide (redis_key (redis_baseline_init 0 0 0 prefix) k = redis_key (redis_baseline_init 0 0 0 prefix) key)
                   then x :: w else w)) as ((F1 & F2 & F3 & F4) & Hrun); [by rewrite E4|lia|done|done| |].
  - rewrite Hget, E2.
    rewrite (bool_decide_ext (redis_key _ k = redis_key _ key) (baseline_canonical_key key = baseline_canonical_key k))
      by (rewrite tenant_keys by congruence; by split).
    destruct (bool_decide _); [|done]. rewrite deque_append_rev, Hs.
    destruct (bs_max_samples s) as [|m]; [done|]. rewrite !firstn_cons. f_equal. rewrite firstn_firstn. f_equal. lia.
  - split; [split_and!; congruence|]. by rewrite Hrun, E2.
Qed.

Section agreement.
Context {R : Type} `{RedisLaws R}.
Variables (min_samples max_samples : nat) (ttl : Z) (prefix tenant : string).

Definition fine (q : redis_call) : Prop := rc_fault q = NoRedisFault.

Abbreviation fleet := (list RedisBaselineStore * R)%type.
Abbreviation settings := (configured min_samples (Z.of_nat max_samples) ttl prefix).

Lemma redis_key_prefix c k : settings c -> redis_key c k = redis_key (redis_baseline_init 0 0 0 prefix) k.
Proof. intros (_ & _ & _ & Hp). unfold redis_key. by rewrite Hp. Qed.

(** Observations of one tenant are what the server sees. *)
Definition tenant_event (ev : fleet_event) : Prop :=
  match ev with
  | EvObserve _ _ key _ => bk_tenant_id key = tenant
  | EvElapse ms => (0 <= ms)%Z
  | _ => True
  end.

Lemma tenant_elapses events :
  Forall tenant_event events -> Forall (fun ev => forall ms, ev = EvElapse ms -> (0 <= ms)%Z) events.
Proof. intros He. eapply Forall_impl; [exact He|]. by intros ev Hev ms ->. Qed.

Lemma seen_tenant (f : fleet) ev : fleet_ok min_samples (Z.of_nat max_samples) ttl prefix f -> tenant_event ev ->
  Forall (of_tenant prefix tenant) (seen f ev).
Proof.
  intros Hf Hev. destruct ev as [i q key x| | |ms]; cbn [seen]; [|constructor|constructor|by repeat constructor].
  destruct (f.1 !! i) as [c|] eqn:Ei; [|constructor]. pose proof (proj1 (Forall_lookup _ _) Hf i c Ei) as Hc.
  destruct (reaches q c); repeat constructor; [done|by apply redis_key_prefix].
Qed.

Hypothesis room : (0 < max_samples)%nat.
Hypothesis lives : (0 < ttl)%Z.

Lemma fleet_step_ok (f : fleet) ev :
  fleet_ok min_samples (Z.of_nat max_samples) ttl prefix f -> fleet_ok min_samples (Z.of_nat max_samples) ttl prefix (fleet_step f ev).
Proof.
  intros Hf. destruct ev as [i q key x|i q1 q2 key x peer th now|i q key now|ms]; cbn [fleet_step]; [..|done];
    (destruct (f.1 !! i) as [c|] eqn:Ei; [|done]); pose proof (proj1 (Forall_lookup _ _) Hf i c Ei) as Hc.
  - destruct (redis_observe q c f.2 key x) as [a [c' r']] eqn:Ho. apply fleet_insert; [done|].
    unfold redis_observe in Ho. destruct (is_open _ _); [by injection Ho as _ <- _|].
    destruct (run_script _ _ _) as [[u|] r1]; injection Ho as _ <- _; by apply configured_breaker.
  - by apply fleet_insert, evaluate_configured.
  - by apply fleet_insert, get_configured.
Qed.

Lemma history_tenant events : forall f : fleet,
  fleet_ok min_samples (Z.of_nat max_samples) ttl prefix f -> Forall tenant_event events ->
  Forall (of_tenant prefix tenant) (history f events).
Proof.
  induction events as [|ev events IH]; intros f Hf Hev; [constructor|]. apply Forall_cons in Hev as [Hev Hevs].
  cbn [history]. apply Forall_app. split; [by apply seen_tenant|]. apply IH; [by apply fleet_step_ok|done].
Qed.

Lemma open_after_answer c t : is_open (rb_breaker (answered c)) t = false.
Proof. done. Qed.

Lemma peer_tenant key peer k : peer_group_fallback key peer = Ok k -> bk_tenant_id k = bk_tenant_id key.
Proof.
  unfold peer_group_fallback, mk_BaselineKey. intros Hk. apply bind_ok in Hk as (x & Hx%require_identifier_ok & Hk).
  apply bind_ok in Hk as (y & _ & Hk). apply bind_ok in Hk as (z & _ & Hk). injection Hk as <-. apply Hx.
Qed.

(** A call that is answered reads the window. *)
Lemma read_window q c (r : R) k l :
  is_open (rb_breaker c) (rc_before q) = false -> fine q -> v_list (contents r (redis_key c k)) = l ->
  read_samples q c r k = (Ok l, answered c).
Proof.
  intros Hopen Hq Hl. unfold read_samples. rewrite Hopen, Hq. cbn [run_script ask fst]. by rewrite lrange_spec, Hl.
Qed.

(** C12.  Where it runs does not change what is anomalous.  Take a run of any
    number of replicas with the same positive settings on a server without keys:
    observations of one tenant's keys, evaluations and readings, with failing calls and
    breakers that open, while time passes.  Give the in-memory store the
    observations that reached the server, with room for their subjects.  Then a
    replica whose breaker lets its calls through, and whose calls are answered,
    gives every evaluation and every baseline the in-memory store gives on the
    same windows read latest first, as long as neither the key nor the peers'
    key was ever idle for the time to live: the same window sizes, the same
    choice between the subject's own history and that of its peers, the same
    cold start, the same errors. *)
Theorem redis_baseline_refines_memory (f : fleet) events max_subjects i c q1 q2 key o peer t now :
  fleet_ok min_samples (Z.of_nat max_samples) ttl prefix f -> (forall k, contents f.2 k = no_value) ->
  (1 <= min_samples)%nat -> Forall tenant_event events -> bk_tenant_id key = tenant ->
  (run_fleet f events).1 !! i = Some c -> is_open (rb_breaker c) (rc_before q1) = false -> fine q1 -> fine q2 ->
  let log := history f events in
  (Z.of_nat (landings log) <= max_subjects)%Z ->
  never_idle ttl (redis_key c key) None log = true ->
  (forall k, peer_group_fallback key peer = Ok k -> never_idle ttl (redis_key c k) None log = true) ->
  let s := newest_first (memory_of (baseline_store_init min_samples max_samples max_subjects) log) in
  (redis_evaluate q1 q2 c (run_fleet f events).2 key o peer t now).1 = baseline_evaluate s key o peer t now /\
  (redis_get q1 c (run_fleet f events).2 key now).1 = baseline_get s key now.
Proof using room lives.
  intros Hf Hempty Hmin Hev Hkey Hi Hopen Hq1 Hq2 log Hroom Hidle Hpidle s. pose proof (tenant_elapses _ Hev) as Hpass.
  pose proof (history_tenant events f Hf Hev) as Hlog. fold log in Hlog.
  set (s0 := baseline_store_init min_samples max_samples max_subjects) in *. set (r := (run_fleet f events).2) in *.
  pose proof (fleet_window min_samples (Z.of_nat max_samples) ttl prefix ltac:(lia) lives events f) as Hrun.
  assert (settings c) as Hc.
  { destruct (Hrun "" _ Hpass Hf (nothing_held _ _ _ (Hempty ""))) as [Hf' _]. exact (proj1 (Forall_lookup _ _) Hf' i c Hi). }
  assert (forall k, bk_tenant_id k = tenant -> never_idle ttl (redis_key c k) None log = true ->
    v_list (contents r (redis_key c k)) = samples_at s k) as Hread.
  { intros k Hk Hn. destruct (Hrun (redis_key c k) _ Hpass Hf (nothing_held _ _ _ (Hempty _))) as [_ [Hw _ _]].
    fold log in Hw. rewrite (window_never_idle ttl _ log [] None Hn) in Hw. unfold r, s. rewrite Hw, newest_first_samples.
    destruct (memory_holds prefix tenant k log s0 [] eq_refl ltac:(cbn; lia) Hlog Hk) as [_ Hm]; [by rewrite take_nil|].
    rewrite Hm, (redis_key_prefix c k Hc). cbn. by rewrite Nat2Z.id. }
  destruct (memory_holds prefix tenant key log s0 [] eq_refl ltac:(cbn; lia) Hlog Hkey) as [(E1 & E2 & E3 & E4) _];
    [by rewrite take_nil|].
  assert (bs_available s = true) as Ha by (cbn; by rewrite E4). assert (bs_min_samples s = min_samples) as Hms by (cbn; by rewrite E1).
  rewrite evaluate_samples, get_samples by (done || by rewrite Hms). unfold redis_evaluate, redis_get.
  rewrite (read_window q1 c r key _ Hopen Hq1 (Hread key Hkey Hidle)). split; [|by destruct (samples_at s key)].
  rewrite Hms, (proj1 Hc). destruct (_ <? _)%nat; [|done]. destruct (peer_group_fallback key peer) as [k|] eqn:Ek; [|done].
  assert (bk_tenant_id k = tenant) as Hk by (apply peer_tenant in Ek; congruence).
  by rewrite (read_window q2 (answered c) r k _ (open_after_answer _ _) Hq2 (Hread k Hk (Hpidle k eq_refl))).
Qed.
End agreement.

Definition sample_call : redis_call := {| rc_fault := NoRedisFault; rc_before := fz 1; rc_after := fz 2 |}.
Definition lost_call : redis_call := {| rc_fault := ReplyLost; rc_before := fz 1; rc_after := fz 2 |}.
Definition down_call : redis_call := {| rc_fault := Unreachable; rc_before := fz 3; rc_after := fz 4 |}.

(** Two replicas; one observation whose answer is lost and one that does not
    arrive; a day between two of them. *)
Definition two_replicas : list RedisBaselineStore :=
  [redis_baseline_init 2 2 DEFAULT_TTL_SECONDS "gb:"; redis_baseline_init 2 2 DEFAULT_TTL_SECONDS "gb:"].
Definition sample_events : list fleet_event :=
  [EvObserve 0 lost_call sample_baseline_key (fz 10); EvObserve 1 sample_call sample_baseline_key (fz 12);
   EvElapse 86400000; EvObserve 1 down_call sample_baseline_key (fz 99); EvGet 0 sample_call sample_baseline_key (fz 100);
   EvObserve 0 sample_call sample_baseline_key (fz 11)].
Definition sample_fleet : list RedisBaselineStore * Server.state := run_fleet (two_replicas, ∅) sample_events.

Lemma sample_events_elapse : Forall (fun ev => forall ms, ev = EvElapse ms -> (0 <= ms)%Z) sample_events.
Proof. repeat constructor; intros ms [=]; lia. Qed.

Lemma redis_window_bounded_witness :
  v_list (contents sample_fleet.2 (redis_key (redis_baseline_init 2 2 DEFAULT_TTL_SECONDS "gb:") sample_baseline_key)) = [fz 11; fz 12].
Proof.
  destruct (redis_window_bounded (R := Server.state) 2 2 DEFAULT_TTL_SECONDS "gb:" eq_refl eq_refl (two_replicas, ∅)
    (redis_key (redis_baseline_init 2 2 DEFAULT_TTL_SECONDS "gb:") sample_baseline_key) sample_events
    ltac:(repeat constructor) eq_refl sample_events_elapse) as [Hw _].
  unfold sample_fleet. rewrite Hw. vm_compute. reflexivity.
Defined.

Lemma redis_baseline_refines_memory_witness :
  exists c, sample_fleet.1 !! 1%nat = Some c /\
  is_ok (redis_evaluate sample_call sample_call c sample_fleet.2 sample_baseline_key (fz 90) "payments.wire" (fz 3) (fz 100)).1 = true.
Proof.
  eexists. split; [vm_compute; reflexivity|].
  match goal with |- context [redis_evaluate _ _ ?c _ _ _ _ _ _] =>
    destruct (redis_baseline_refines_memory (R := Server.state) 2 2 DEFAULT_TTL_SECONDS "gb:" "t1" ltac:(lia) eq_refl
      (two_replicas, ∅) sample_events 10 1 c sample_call sample_call sample_baseline_key (fz 90) "payments.wire" (fz 3) (fz 100)
      ltac:(repeat constructor) ltac:(intros k; reflexivity) ltac:(lia) ltac:(repeat constructor; cbn; lia) eq_refl
      ltac:(vm_compute; reflexivity) eq_refl eq_refl eq_refl ltac:(vm_compute; discriminate) ltac:(vm_compute; reflexivity)
      ltac:(intros k; vm_compute; intros [= <-]; reflexivity)) as [Hw _]
  end.
  unfold sample_fleet. rewrite Hw. vm_compute. reflexivity.
Defined.

(** A subject not observed for the time to live starts cold again; the
    in-memory store keeps it while there is room. *)
Example idle_baseline_is_forgotten :
  let c := redis_baseline_init 2 2 DEFAULT_TTL_SECONDS "gb:" in
  let events := [EvObserve 0 sample_call sample_baseline_key (fz 10); EvObserve 0 sample_call sample_baseline_key (fz 12);
                 EvElapse (DEFAULT_TTL_SECONDS * 1000)] in
  let '(_, r) := run_fleet (R := Server.state) ([c], ∅) events in
  v_list (contents r (redis_key c sample_baseline_key)) = [] /\
  length (samples_at (memory_of (baseline_store_init 2 2 10) (history (R := Server.state) ([c], ∅) events)) sample_baseline_key) = 2%nat.
Proof. vm_compute. split; reflexivity. Qed.

(** Five failures in a row open the breaker; ten seconds later one answered
    call closes it again. *)
Lemma breaker_recovers {R} `{Redis R} q c (r : R) key x opened_at :
  cb_opened_at (rb_breaker c) = Some opened_at -> fge (fsub (rc_before q) opened_at) (cb_reset_after (rb_breaker c)) = true ->
  fine q -> let '(a, (c', _)) := redis_observe q c r key x in a = Ok tt /\ cb_opened_at (rb_breaker c') = None /\ cb_failures (rb_breaker c') = 0%Z.
Proof.
  intros Ho Ht Hq. unfold redis_observe, is_open, ready_to_probe. rewrite Ho, Ht. cbn [negb]. by rewrite Hq.
Qed.

Example breaker_opens :
  let c := redis_baseline_init 1 2 DEFAULT_TTL_SECONDS "gb:" in
  let '(fleet, r) := run_fleet (R := Server.state) ([c], ∅) (replicate 5 (EvObserve 0 down_call sample_baseline_key (fz 1))) in
  match fleet !! 0%nat with
  | Some c' =>
      (redis_observe sample_call c' r sample_baseline_key (fz 1)).1 = Raise BaselineStoreUnavailable /\
      (redis_observe {| rc_fault := NoRedisFault; rc_before := fz 14; rc_after := fz 15 |} c' r sample_baseline_key (fz 1)).1 = Ok tt
  | None => False
  end.
Proof. vm_compute. split; reflexivity. Qed.
