(* ===== verification/Durable.v ===== *)
(** * The factories of the durable adapters
      ([adapters/outbound/kms/__init__.py], [kms/client.py], [postgres/__init__.py],
       [postgres/driver.py], [redis/limits.py], [redis/baseline.py])

    How a production process gets its signer, its evidence store and its Redis
    stores from the configuration, and when it does not start.  The packages
    [boto3], [psycopg_pool] and [redis] are parameters: whether they are
    installed, and what their constructors and calls do. *)

From stdpp Require Import base tactics list strings gmap.
From Stdlib Require Import ZArith Lia.
From S2P Require Import Prelude PyFloat PyStr Serialization Merkle Config Schema Kms Redis RedisBaseline.

Open Scope string_scope.
Open Scope list_scope.

(** ** The AWS client *)

(** A boto3 client for KMS: what its calls return or raise. *)
Record boto_client := {
  bo_generate_mac : string -> bytes -> string -> sdk (option bytes);
  bo_verify_mac : string -> bytes -> bytes -> string -> sdk (option bool);
  bo_describe_key : string -> sdk aws_metadata
}.

(** [import boto3], and [boto3.client("kms", ...)]. *)
Inductive boto3 :=
| Boto3Missing
| Boto3Client (made : sdk boto_client).

(** [AwsKmsClient.__init__], given a client or not. *)
Definition mk_AwsKmsClient (given : option boto_client) (package : boto3) : kres boto_client :=
  match given with
  | Some c => inr c
  | None =>
      match package with
      | Boto3Missing | Boto3Client (SdkRaised _) => inl KmsUnavailable
      | Boto3Client (SdkReturned c) => inr c
      end
  end.

(** [generate_mac], [verify_mac] and [describe_key]. *)
Definition AwsKmsClient (c : boto_client) : KmsClient :=
  {| kc_generate_mac := fun key_id message => aws_generate_mac (bo_generate_mac c key_id message MAC_ALGORITHM);
     kc_verify_mac := fun key_id message mac => aws_verify_mac (bo_verify_mac c key_id message mac MAC_ALGORITHM);
     kc_describe_key := fun key_id => aws_describe_key key_id (bo_describe_key c key_id) |}.

(** [build_mac_signer]: the key is described before anything is signed. *)
Definition build_kms_signer (config : GlassBoxConfig) (package : boto3) : kres KmsMacSigner :=
  let key_id := sc_key_id (gc_signing config) in
  if str_is_empty key_id then inl SigningUnavailable
  else if sc_allow_local_key (gc_signing config) then inl SigningUnavailable
  else match mk_AwsKmsClient None package with
       | inl e => inl e
       | inr c => mk_KmsMacSigner (AwsKmsClient c) key_id [] DEFAULT_MAC_CACHE_SIZE true
       end.

(** ** The Postgres driver *)

Inductive psycopg_pool :=
| PoolMissing
| PoolRaised (class_name : string)
| PoolOpened.

Inductive driver_error :=
| DriverUnavailable
| EvidenceWrite
| NotFromDriver (class_name : string).
(** [isinstance(exc, EvidenceWriteError)]: [DriverUnavailableError] derives from it. *)
Definition is_evidence_write (e : driver_error) : bool :=
  match e with DriverUnavailable | EvidenceWrite => true | NotFromDriver _ => false end.

(** [PsycopgConnectionProvider.__init__]. *)
Definition open_provider (package : psycopg_pool) : driver_error + unit :=
  match package with
  | PoolMissing | PoolRaised _ => inl DriverUnavailable
  | PoolOpened => inr tt
  end.

(** [PsycopgConnectionProvider.transaction]: whether a connection, a transaction
    and a cursor are had; the
    block on them; and whether the commit succeeds.  What is not an evidence
    failure becomes one. *)
Definition driver_transaction {A} (entered : driver_error + unit) (block : driver_error + A) (committed : driver_error + unit)
    : driver_error + A :=
  let outcome := match entered with
                 | inl e => inl e
                 | inr _ => match block with
                            | inl e => inl e
                            | inr a => match committed with inl e => inl e | inr _ => inr a end
                            end
                 end in
  match outcome with
  | inl e => inl (if is_evidence_write e then e else DriverUnavailable)
  | inr a => inr a
  end.

(** [build_evidence_store]: the migrations run before a store is returned. *)
Definition build_pg_evidence_store (config : GlassBoxConfig) (package : psycopg_pool) (reachable : bool)
    (works : Z -> bool) (partitions_work : string -> bool) (year month : Z) (s : schema)
    : (driver_error + unit) * schema :=
  if str_is_empty (ec_dsn (gc_evidence config)) then (inl EvidenceWrite, s)
  else match open_provider package with
       | inl e => (inl e, s)
       | inr _ =>
           match apply_migrations reachable works partitions_work year month s with
           | (Ok _, s') => (inr tt, s')
           | (Raise _, s') => (inl EvidenceWrite, s')
           end
       end.

(** ** The Redis stores *)

(** What the client connects to. *)
Inductive redis_connection :=
| SentinelMaster (sentinels : hosts) (socket_timeout : float) (service_name : string)
| FromUrl (url : string).

Definition redis_connection_of (sentinels : hosts) (socket_timeout : float) (service_name url : string) : redis_connection :=
  if hosts_given sentinels then SentinelMaster sentinels socket_timeout service_name else FromUrl url.

(** [build_limit_store]. *)
Definition build_redis_limit_store (config : GlassBoxConfig) : res (redis_connection * RedisLimitStore) :=
  let limits := gc_limits config in
  cooldown_seconds ← float_of_int (lc_cooldown_seconds limits);
  Ok (redis_connection_of (lc_sentinel_hosts limits) (lc_sentinel_socket_timeout_s limits)
        (lc_sentinel_service_name limits) (lc_url limits),
      {| rl_limits := ∅; rl_default_limit := fz 100; rl_cooldown_seconds := cooldown_seconds; rl_key_prefix := "";
         rl_max_tenant_subjects := lc_max_tenant_subjects limits |}).

(** [build_baseline_store]. *)
Definition build_redis_baseline_store (config : GlassBoxConfig) : redis_connection * RedisBaselineStore :=
  let baseline := gc_baseline config in
  (redis_connection_of (bc_sentinel_hosts baseline) (bc_sentinel_socket_timeout_s baseline)
     (bc_sentinel_service_name baseline) (bc_url baseline),
   redis_baseline_init (Z.to_nat (bc_min_samples baseline)) 512 DEFAULT_TTL_SECONDS "").

(** ** A process starts only on what it can rely on *)

(** A signer is had only for a configured key the service described as usable
    for MACs, with the local key not allowed. *)
Lemma kms_signer_is_usable config package s :
  build_kms_signer config package = inr s ->
  ks_key_id s = sc_key_id (gc_signing config) /\ ks_key_id s <> "" /\
  sc_allow_local_key (gc_signing config) = false /\
  exists c m, package = Boto3Client (SdkReturned c) /\
    aws_describe_key (ks_key_id s) (bo_describe_key c (ks_key_id s)) = inr m /\ is_usable m = true.
Proof.
  unfold build_kms_signer, mk_KmsMacSigner. destruct (str_is_empty (sc_key_id (gc_signing config))) eqn:Hk; [done|].
  destruct (sc_allow_local_key _); [done|]. destruct package as [|[|c]]; [done..|]. cbn.
  destruct (aws_describe_key _ _) as [|m] eqn:Hd; [done|]. destruct (is_usable m) eqn:Hu; [|done]. intros [= <-]. cbn.
  split_and!; [done| |done|by eauto]. intros E. by rewrite E in Hk.
Qed.

(** A store is had only on a schema with every migration applied. *)
Lemma pg_store_is_current config package reachable works pworks y m s s' :
  schema_ok s -> build_pg_evidence_store config package reachable works pworks y m s = (inr tt, s') ->
  ec_dsn (gc_evidence config) <> "" /\ package = PoolOpened /\ sc_applied s' = MIGRATIONS.
Proof.
  intros [k Hk]. unfold build_pg_evidence_store. destruct (str_is_empty _) eqn:Hd; [done|].
  destruct package; [done..|]. cbn [open_provider].
  destruct (apply_migrations reachable works pworks y m s) as [[vs|e] s1] eqn:Ea; [|done]. intros [= <-].
  split_and!; [intros E; by rewrite E in Hd|done|]. destruct reachable; [|by injection Ea].
  destruct (apply_spec _ _ _ _ _ _ _ _ Hk Ea) as (_ & _ & [?|(_ & Hall & _)]); done.
Qed.

(** Whatever happens in a transaction, its failure is an evidence failure. *)
Lemma transaction_fails_as_evidence {A} entered (block : driver_error + A) committed e :
  driver_transaction entered block committed = inl e -> is_evidence_write e = true.
Proof. unfold driver_transaction. destruct entered as [x|]; [|destruct block as [x|]; [|destruct committed as [x|]]]; try done; intros [= <-]; by destruct x. Qed.

(** Sentinels, when there are any, are what both stores connect to. *)
Lemma sentinels_win sentinels timeout service url :
  redis_connection_of sentinels timeout service url = FromUrl url <-> hosts_given sentinels = false.
Proof. unfold redis_connection_of. by destruct (hosts_given sentinels). Qed.
