(* ===== verification/Sealer.v ===== *)
(** * Sealing and retention ([glassbox/app/sealer.py],
      [glassbox/app/retention_scheduler.py], [glassbox/ports/worm.py],
      [glassbox/adapters/outbound/worm.py])

    A segment prefix is sealed by signing the Merkle root of its record MACs
    and storing the anchor write-once; only an anchored prefix is purged.  The
    anchor store is an interface, with the in-memory store as an instance; the
    retention side is the in-memory evidence store. *)

From stdpp Require Import base tactics list strings gmap relations.
From Stdlib Require Import ZArith Lia Init.Byte.
From S2P Require Import Prelude PyFloat PyStr Serialization Sha256 Merkle Action Identity Mandate Decision Signing Evidence EvidenceStore GovernanceState.

Open Scope string_scope.
Open Scope list_scope.

(** ** Anchor stores *)

(** [anchor == other] on the dataclass. *)
Definition anchor_eqb (a b : WormAnchor) : bool :=
  (wa_anchor_id a =? wa_anchor_id b)%string && (wa_segment_id a =? wa_segment_id b)%string &&
  (wa_tenant_id a =? wa_tenant_id b)%string && bool_decide (wa_merkle_root a = wa_merkle_root b) &&
  (wa_tree_size a =? wa_tree_size b)%Z && (wa_first_seq a =? wa_first_seq b)%Z &&
  (wa_last_seq a =? wa_last_seq b)%Z && feq (wa_sealed_at a) (wa_sealed_at b) &&
  bool_decide (wa_root_signature a = wa_root_signature b) &&
  (wa_signer_key_id a =? wa_signer_key_id b)%string.

Class AnchorStore (W : Type) := {
  worm_put : W -> WormAnchor -> res string * W;
  worm_get : W -> string -> res (option WormAnchor);
  worm_list : W -> string -> res (list WormAnchor)
}.

(** What sealing relies on: a failed put changes nothing, a stored anchor can
    be read back and is listed for its segment, and what was stored before
    stays, up to equality of anchors. *)
Class AnchorStoreLaws (W : Type) `{AnchorStore W} := {
  put_failed : forall w a e w', worm_put w a = (Raise e, w') -> w' = w;
  put_stored : forall w a loc w', worm_put w a = (Ok loc, w') -> worm_get w' (wa_anchor_id a) = Ok (Some a);
  put_keeps : forall w a r w' id x, worm_put w a = (r, w') -> worm_get w id = Ok (Some x) ->
    exists y, worm_get w' id = Ok (Some y) /\ (y = x \/ anchor_eqb x y = true);
  list_sound : forall w sid l a, worm_list w sid = Ok l -> a ∈ l -> wa_segment_id a = sid;
  list_complete : forall w a loc w', worm_put w a = (Ok loc, w') ->
    exists l, worm_list w' (wa_segment_id a) = Ok l /\ a ∈ l /\
      forall x, x ∈ l -> x = a \/ exists l0, worm_list w (wa_segment_id a) = Ok l0 /\ x ∈ l0
}.

(** ** [InMemoryWormAnchorStore] *)

Record MemoryWorm := { mw_anchors : list (string * WormAnchor) }.
Definition memory_worm_init : MemoryWorm := {| mw_anchors := [] |}.

Definition memory_worm_put (w : MemoryWorm) (anchor : WormAnchor) : res string * MemoryWorm :=
  let store :=
    (Ok ("memory://" +:+ wa_anchor_id anchor),
     {| mw_anchors := od_set (mw_anchors w) (wa_anchor_id anchor) anchor |}) in
  match od_get (mw_anchors w) (wa_anchor_id anchor) with
  | Some existing => if negb (anchor_eqb existing anchor) then (Raise EvidenceWriteError, w) else store
  | None => store
  end.

Definition memory_worm_get (w : MemoryWorm) (anchor_id : string) : option WormAnchor :=
  od_get (mw_anchors w) anchor_id.

(** [(a.first_seq, a.sealed_at) < (b.first_seq, b.sealed_at)]. *)
Definition anchor_ltb (a b : WormAnchor) : bool :=
  if (wa_first_seq a =? wa_first_seq b)%Z then flt (wa_sealed_at a) (wa_sealed_at b)
  else (wa_first_seq a <? wa_first_seq b)%Z.

Fixpoint insert_anchor (x : WormAnchor) (l : list WormAnchor) : list WormAnchor :=
  match l with
  | [] => [x]
  | y :: l' => if anchor_ltb y x then y :: insert_anchor x l' else x :: l
  end.
Definition sort_anchors (l : list WormAnchor) : list WormAnchor := foldr insert_anchor [] l.

Definition memory_worm_list (w : MemoryWorm) (segment_id : string) : list WormAnchor :=
  sort_anchors (List.filter (fun a => (wa_segment_id a =? segment_id)%string) (map snd (mw_anchors w))).

#[export] Instance memory_worm : AnchorStore MemoryWorm :=
  {| worm_put := memory_worm_put; worm_get w id := Ok (memory_worm_get w id);
     worm_list w sid := Ok (memory_worm_list w sid) |}.

(** ** [SegmentSealer] *)

Record SealResult := {
  sr_anchor : WormAnchor;
  sr_locator : string;
  sr_leaves_sealed : Z
}.

Record PurgeResult := {
  ps_segment_id : string;
  ps_purged : Z;
  ps_anchor_id : string
}.

Definition PLACEHOLDER_SIGNATURE : bytes := repeat x00 32.

Definition unsigned_anchor (anchor_id segment_id tenant_id : string) (root : bytes)
    (tree_size first_seq last_seq : Z) (sealed_at : float) : res WormAnchor :=
  mk_WormAnchor anchor_id segment_id tenant_id root tree_size first_seq last_seq sealed_at
    PLACEHOLDER_SIGNATURE "pending".

Fixpoint contiguous_from (expected : Z) (leaves : list SegmentLeaf) : bool :=
  match leaves with
  | [] => true
  | leaf :: rest => (lf_seq leaf =? expected)%Z && contiguous_from (expected + 1) rest
  end.

Definition require_contiguous (leaves : list SegmentLeaf) : res unit :=
  match leaves with
  | [] => Raise (PyException "IndexError")
  | leaf :: _ => raise_if (negb (contiguous_from (lf_seq leaf) leaves)) EvidenceIntegrityError
  end.

Definition anchor_name (segment_id : string) (first_seq last_seq : Z) : string :=
  segment_id +:+ ":" +:+ str_of_int first_seq +:+ "-" +:+ str_of_int last_seq.

(** What the sealer and the scheduler need of a store ([ports/retention.py]). *)
Class RetentionStore (R : Type) := {
  ret_state : R -> string -> res (option EvidenceSegment);
  ret_leaves : R -> string -> option Z -> res (list SegmentLeaf);
  ret_mark_sealed : R -> string -> WormAnchor -> string -> res unit * R;
  ret_purge_before : R -> string -> Z -> res Z * R
}.

#[export] Instance memory_retention : RetentionStore EvidenceStore := {
  ret_state := segment_state;
  ret_leaves := segment_leaves;
  ret_mark_sealed := mark_sealed;
  ret_purge_before := purge_before
}.

Section sealer.
Context {S R W : Type} `{MacSigner S} `{RetentionStore R} `{AnchorStore W}.
Variable signer : S.

(** What the sealer acts on. *)
Definition stores : Type := R * W.

(** The [try] around the signature. *)
Definition sign_anchor (unsigned : WormAnchor) : res bytes :=
  match (payload ← signing_payload unsigned; signer_mac signer payload) with
  | Ok m => Ok m
  | Raise SigningUnavailableError => Raise SigningUnavailableError
  | Raise _ => Raise EvidenceWriteError
  end.

(** Everything before the anchor is stored. *)
Definition seal_anchor (st : R) (segment_id : string) (before_seq : Z) (now : float)
    : res WormAnchor :=
  state ← ret_state st segment_id;
  match state with
  | None => Raise EvidenceWriteError
  | Some state =>
      leaves ← ret_leaves st segment_id (Some before_seq);
      match leaves, last leaves with
      | first :: _, Some final =>
          let root := merkle_root (map lf_record_hmac leaves) in
          let first_seq := lf_seq first in
          let last_seq := lf_seq final in
          _ ← require_contiguous leaves;
          let anchor_id := anchor_name segment_id first_seq last_seq in
          let size := Z.of_nat (length leaves) in
          unsigned ← unsigned_anchor anchor_id segment_id (sg_tenant_id state) root size
                       first_seq last_seq now;
          signature ← sign_anchor unsigned;
          mk_WormAnchor anchor_id segment_id (sg_tenant_id state) root size first_seq last_seq now
            signature (signer_key_id signer)
      | _, _ => Raise EvidenceWriteError
      end
  end.

Definition seal (s : stores) (segment_id : string) (before_seq : Z) (now : float)
    : res SealResult * stores :=
  let '(st, w) := s in
  match seal_anchor st segment_id before_seq now with
  | Raise e => (Raise e, s)
  | Ok anchor =>
      match worm_put w anchor with
      | (Raise e, w') => (Raise e, (st, w'))
      | (Ok locator, w') =>
          match ret_mark_sealed st segment_id anchor locator with
          | (Raise e, st') => (Raise e, (st', w'))
          | (Ok _, st') =>
              (Ok {| sr_anchor := anchor; sr_locator := locator; sr_leaves_sealed := wa_tree_size anchor |},
               (st', w'))
          end
      end
  end.

Definition verify_anchor (anchor : WormAnchor) : res bool :=
  match (payload ← signing_payload anchor;
         signer_verify signer payload (wa_root_signature anchor) (wa_signer_key_id anchor)) with
  | Raise SigningUnavailableError => Raise EvidenceIntegrityError
  | r => r
  end.

Fixpoint first_covering (anchors : list WormAnchor) (before_seq : Z) : res (option WormAnchor) :=
  match anchors with
  | [] => Ok None
  | anchor :: rest =>
      if (wa_last_seq anchor <? before_seq - 1)%Z then first_covering rest before_seq
      else if negb (wa_last_seq anchor =? before_seq - 1)%Z then first_covering rest before_seq
      else verified ← verify_anchor anchor;
           if (verified : bool) then Ok (Some anchor) else first_covering rest before_seq
  end.

Definition covering_anchor (w : W) (segment_id : string) (before_seq : Z) : res (option WormAnchor) :=
  anchors ← worm_list w segment_id; first_covering anchors before_seq.

Definition purge (s : stores) (segment_id : string) (before_seq : Z) : res PurgeResult * stores :=
  let '(st, w) := s in
  match covering_anchor w segment_id before_seq with
  | Raise e => (Raise e, s)
  | Ok None => (Raise EvidenceWriteError, s)
  | Ok (Some anchor) =>
      let '(r, st') := ret_purge_before st segment_id before_seq in
      match r with
      | Raise e => (Raise e, (st', w))
      | Ok purged => (Ok {| ps_segment_id := segment_id; ps_purged := purged;
                            ps_anchor_id := wa_anchor_id anchor |}, (st', w))
      end
  end.

Definition sealer_seal_and_purge (s : stores) (segment_id : string) (before_seq : Z) (now : float)
    : res PurgeResult * stores :=
  match seal s segment_id before_seq now with
  | (Raise e, s') => (Raise e, s')
  | (Ok _, s') => purge s' segment_id before_seq
  end.

(** [sorted(leaves, key=seq)]. *)
Fixpoint insert_leaf (x : SegmentLeaf) (l : list SegmentLeaf) : list SegmentLeaf :=
  match l with
  | [] => [x]
  | y :: l' => if (lf_seq x <=? lf_seq y)%Z then x :: l else y :: insert_leaf x l'
  end.
Definition sort_leaves (l : list SegmentLeaf) : list SegmentLeaf := foldr insert_leaf [] l.

Fixpoint index_of_seq (seq : Z) (i : nat) (l : list SegmentLeaf) : option (nat * SegmentLeaf) :=
  match l with
  | [] => None
  | leaf :: l' => if (lf_seq leaf =? seq)%Z then Some (i, leaf) else index_of_seq seq (Datatypes.S i) l'
  end.

Definition prove_inclusion (leaves : list SegmentLeaf) (seq : Z) : res (MerkleProof * bytes) :=
  let ordered := sort_leaves leaves in
  match index_of_seq seq 0 ordered with
  | None => Raise EvidenceIntegrityError
  | Some (index, leaf) =>
      proof ← build_inclusion_proof (map lf_record_hmac ordered) (Z.of_nat index);
      Ok (proof, lf_record_hmac leaf)
  end.

(** ** [RetentionScheduler] *)

Inductive RetentionAction := SEALED | PURGED | SKIPPED | RETENTION_FAILED.

(** A text, or [str(exc)]. *)
Inductive detail := Text (text : string) | OfException (e : exn).

Record RetentionOutcome := {
  ro_segment_id : string;
  ro_action : RetentionAction;
  ro_detail : detail
}.

Record RetentionScheduler := {
  rs_seal_after_seconds : float;
  rs_purge_grace_seconds : float
}.

Definition mk_RetentionScheduler (seal_after_seconds purge_grace_seconds : float)
    : res RetentionScheduler :=
  _ ← raise_if (flt seal_after_seconds (fz 0) || flt purge_grace_seconds (fz 0)) EvidenceWriteError;
  Ok {| rs_seal_after_seconds := seal_after_seconds; rs_purge_grace_seconds := purge_grace_seconds |}.

Definition concluded (segment_id : string) (action : RetentionAction) (d : detail) : res RetentionOutcome :=
  Ok {| ro_segment_id := segment_id; ro_action := action; ro_detail := d |}.

Definition maybe_seal (r : RetentionScheduler) (s : stores) (segment_id : string) (now opened_at : float)
    : res RetentionOutcome * stores :=
  if flt (fsub now opened_at) (rs_seal_after_seconds r)
  then (concluded segment_id SKIPPED (Text "not old enough to seal"), s)
  else
    match ret_leaves s.1 segment_id None with
    | Raise e => (concluded segment_id RETENTION_FAILED (OfException e), s)
    | Ok leaves =>
        match last leaves with
        | None => (concluded segment_id SKIPPED (Text "nothing to seal yet"), s)
        | Some final =>
            let '(result, s') := seal s segment_id (lf_seq final + 1) now in
            match result with
            | Ok sr => (concluded segment_id SEALED
                          (Text ("sealed " +:+ str_of_int (sr_leaves_sealed sr) +:+ " record(s)")), s')
            | Raise EvidenceWriteError => (concluded segment_id RETENTION_FAILED (OfException EvidenceWriteError), s')
            | Raise SigningUnavailableError =>
                (concluded segment_id RETENTION_FAILED (OfException SigningUnavailableError), s')
            | Raise e => (Raise e, s')
            end
        end
    end.

Definition maybe_purge (r : RetentionScheduler) (s : stores) (segment_id : string) (now sealed_at : float)
    (sealed_last_seq : option Z) (live_first_seq : Z) : res RetentionOutcome * stores :=
  if flt (fsub now sealed_at) (rs_purge_grace_seconds r)
  then (concluded segment_id SKIPPED (Text "within purge grace period"), s)
  else
    match sealed_last_seq with
    | None => (concluded segment_id SKIPPED (Text "no sealed boundary"), s)
    | Some l =>
        if (l + 1 <=? live_first_seq)%Z then (concluded segment_id SKIPPED (Text "already purged"), s)
        else
          let '(result, s') := purge s segment_id (l + 1) in
          match result with
          | Ok pr => (concluded segment_id PURGED
                        (Text ("purged " +:+ str_of_int (ps_purged pr) +:+ " record(s)")), s')
          | Raise EvidenceWriteError => (concluded segment_id RETENTION_FAILED (OfException EvidenceWriteError), s')
          | Raise e => (Raise e, s')
          end
    end.

Definition consider (r : RetentionScheduler) (s : stores) (segment_id : string) (now : float)
    : res RetentionOutcome * stores :=
  match ret_state s.1 segment_id with
  | Raise e => (concluded segment_id RETENTION_FAILED (OfException e), s)
  | Ok None => (concluded segment_id SKIPPED (Text "segment not found"), s)
  | Ok (Some state) =>
      match sg_sealed_at state with
      | None => maybe_seal r s segment_id now (sg_opened_at state)
      | Some sealed_at => maybe_purge r s segment_id now sealed_at (sg_last_seq state) (sg_first_seq state)
      end
  end.

(** [now] is the one reading of the clock. *)
Fixpoint run_once (r : RetentionScheduler) (s : stores) (segment_ids : list string) (now : float)
    : res (list RetentionOutcome) * stores :=
  match segment_ids with
  | [] => (Ok [], s)
  | sid :: rest =>
      match consider r s sid now with
      | (Raise e, s') => (Raise e, s')
      | (Ok o, s') =>
          let '(os, s'') := run_once r s' rest now in
          (os ← os; Ok (o :: os), s'')
      end
  end.
End sealer.
Arguments stores : clear implicits.

(** ** The in-memory anchor store keeps its promises *)

Lemma insert_anchor_in x l y : y ∈ insert_anchor x l <-> y = x \/ y ∈ l.
Proof.
  induction l as [|z l IH]; cbn [insert_anchor]; [|destruct (anchor_ltb z x)];
    rewrite !elem_of_cons, ?IH, ?elem_of_nil; naive_solver.
Qed.

Lemma sort_anchors_in l y : y ∈ sort_anchors l <-> y ∈ l.
Proof.
  induction l as [|x l IH]; cbn; [done|]. fold (sort_anchors l).
  rewrite insert_anchor_in, IH, elem_of_cons. done.
Qed.

Lemma memory_worm_list_in w sid a :
  a ∈ memory_worm_list w sid <-> wa_segment_id a = sid /\ exists k, (k, a) ∈ mw_anchors w.
Proof.
  unfold memory_worm_list. rewrite sort_anchors_in, list_elem_of_In, List.filter_In, String.eqb_eq, <-list_elem_of_In.
  rewrite list_elem_of_fmap. split.
  - intros [([k x] & -> & Hin) Hs]. eauto.
  - intros [Hs [k Hin]]. split; [|done]. by exists (k, a).
Qed.

Lemma od_set_in {A} (d : list (string * A)) k v x : x ∈ od_set d k v -> x = (k, v) \/ x ∈ d.
Proof.
  induction d as [|[k' v'] d IH]; cbn [od_set]; [|destruct (k' =? k)%string];
    rewrite !elem_of_cons, ?elem_of_nil; naive_solver.
Qed.

Lemma od_set_has {A} (d : list (string * A)) k v : (k, v) ∈ od_set d k v.
Proof.
  induction d as [|[k' v'] d IH]; cbn [od_set]; [by left|]. destruct (k' =? k)%string; [by left | by right].
Qed.

(** What a put does, whatever it was given. *)
Lemma memory_worm_put_cases w a r w' :
  memory_worm_put w a = (r, w') ->
  (r = Raise EvidenceWriteError /\ w' = w) \/
  (is_ok r = true /\ mw_anchors w' = od_set (mw_anchors w) (wa_anchor_id a) a /\
   forall x, od_get (mw_anchors w) (wa_anchor_id a) = Some x -> anchor_eqb x a = true).
Proof.
  unfold memory_worm_put. destruct (od_get _ _) as [x|]; [destruct (anchor_eqb x a) eqn:E|];
    intros [= <- <-]; naive_solver.
Qed.

#[export] Instance memory_worm_laws : AnchorStoreLaws MemoryWorm.
Proof.
  constructor; cbn [worm_put worm_get worm_list memory_worm].
  - intros w a e w' [[_ ->]|[? _]]%memory_worm_put_cases; done.
  - intros w a loc w' [[? _]|(_ & Hw & _)]%memory_worm_put_cases; [done|].
    unfold memory_worm_get. by rewrite Hw, od_get_set, String.eqb_refl.
  - intros w a r w' id x Hput [= Hx]. apply memory_worm_put_cases in Hput as [[_ ->]|(_ & Hw & Heq)]; [by exists x; rewrite Hx; eauto|].
    unfold memory_worm_get in *. rewrite Hw, od_get_set. destruct (String.eqb_spec (wa_anchor_id a) id) as [<-|].
    + exists a. auto.
    + exists x. rewrite Hx. auto.
  - intros w sid l a [= <-] [? _]%memory_worm_list_in. done.
  - intros w a loc w' [[? _]|(_ & Hw & _)]%memory_worm_put_cases; [done|].
    eexists. split; [done|]. setoid_rewrite memory_worm_list_in. rewrite Hw. split.
    + split; [done|]. eexists. apply od_set_has.
    + intros x (Hs & k & [[= _ ->]|Hin]%od_set_in); [by left|]. right. eexists. split; [done|].
      apply memory_worm_list_in. eauto.
Qed.

(** ** Contiguous leaves *)

Lemma contiguous_spec e l :
  contiguous_from e l = true <-> forall i lf, l !! i = Some lf -> lf_seq lf = (e + Z.of_nat i)%Z.
Proof.
  revert e. induction l as [|x l IH]; intros e; cbn [contiguous_from]; [done|].
  rewrite andb_true_iff, Z.eqb_eq, IH. split.
  - intros [Hx Hl] [|i] lf Hi; [injection Hi as <-; lia|]. rewrite (Hl i lf Hi). lia.
  - intros H. split; [rewrite (H 0%nat x eq_refl); lia|]. intros i lf Hi.
    rewrite (H (Datatypes.S i) lf Hi). lia.
Qed.

Lemma contiguous_sorted e l : contiguous_from e l = true -> sort_leaves l = l.
Proof.
  revert e. induction l as [|x l IH]; intros e; cbn [contiguous_from]; [done|].
  intros [Hx%Z.eqb_eq Hl]%andb_true_iff. cbn. fold (sort_leaves l). rewrite (IH _ Hl).
  destruct l as [|y l]; [done|]. cbn [contiguous_from] in Hl. apply andb_true_iff in Hl as [Hy%Z.eqb_eq _].
  cbn [insert_leaf]. by rewrite (proj2 (Z.leb_le _ _)) by lia.
Qed.

Lemma index_of_contiguous e l i lf k :
  contiguous_from e l = true -> l !! i = Some lf ->
  index_of_seq (lf_seq lf) k l = Some ((k + i)%nat, lf).
Proof.
  revert e i k. induction l as [|x l IH]; intros e i k Hc Hi; [done|].
  pose proof (proj1 (contiguous_spec _ _) Hc) as Hs.
  cbn [contiguous_from] in Hc. apply andb_true_iff in Hc as [Hx%Z.eqb_eq Hl]. cbn [index_of_seq].
  destruct i as [|i].
  - injection Hi as <-. rewrite Z.eqb_refl, Nat.add_0_r. done.
  - rewrite (Hs _ _ Hi). destruct (Z.eqb_spec (lf_seq x) (e + Z.of_nat (Datatypes.S i))); [lia|].
    rewrite <-(Hs _ _ Hi). rewrite (IH _ i _ Hl Hi). do 2 f_equal. lia.
Qed.

(** A contiguous sequence of leaves proves each of them against its root. *)
Lemma contiguous_provable e l lf :
  contiguous_from e l = true -> lf ∈ l ->
  exists p, prove_inclusion l (lf_seq lf) = Ok (p, lf_record_hmac lf) /\
    verify p (lf_record_hmac lf) (merkle_root (map lf_record_hmac l)) = true.
Proof.
  intros Hc [i Hi]%list_elem_of_lookup. unfold prove_inclusion.
  rewrite (contiguous_sorted _ _ Hc), (index_of_contiguous _ _ _ _ 0 Hc Hi). cbn [Nat.add].
  destruct (build_inclusion_proof_ok (map lf_record_hmac l) i (lf_record_hmac lf)) as (p & Hp & _ & _ & Hv).
  { by rewrite list_lookup_fmap, Hi. }
  exists p. rewrite Hp. done.
Qed.

(** ** What a seal attests *)

Lemma require_mac_id v f r : require_mac v f = Ok r -> r = v.
Proof. unfold require_mac. intros H. inv_ok. by repeat case_match; inv_ok; subst. Qed.

Lemma mk_WormAnchor_ok id sid t root n fs ls now sig key a :
  mk_WormAnchor id sid t root n fs ls now sig key = Ok a ->
  wa_anchor_id a = id /\ wa_segment_id a = sid /\ wa_tenant_id a = t /\ wa_merkle_root a = root /\
  wa_tree_size a = n /\ wa_first_seq a = fs /\ wa_last_seq a = ls /\ wa_sealed_at a = now /\
  wa_root_signature a = sig /\ wa_signer_key_id a = key /\ n = (ls - fs + 1)%Z.
Proof.
  unfold mk_WormAnchor. intros H. inv_ok. subst a. cbn.
  repeat match goal with
  | H : require_identifier _ _ = Ok _ |- _ => apply require_identifier_valid in H as [-> ?]
  | H : require_mac _ _ = Ok _ |- _ => apply require_mac_id in H as ->
  | H : require_timestamp _ _ = Ok _ |- _ => apply require_timestamp_ok in H as (-> & _)
  | H : negb _ = false |- _ => apply negb_false_iff, Z.eqb_eq in H
  end. done.
Qed.

(** The anchor [a] attests the leaves of a segment. *)
Record attests (a : WormAnchor) (sid : string) (leaves : list SegmentLeaf) : Prop := {
  att_segment : wa_segment_id a = sid;
  att_some : leaves <> [];
  att_root : wa_merkle_root a = merkle_root (map lf_record_hmac leaves);
  att_size : wa_tree_size a = Z.of_nat (length leaves);
  att_range : wa_last_seq a = (wa_first_seq a + Z.of_nat (length leaves) - 1)%Z;
  att_seqs : contiguous_from (wa_first_seq a) leaves = true
}.

(** The operations of the in-memory store. *)
Ltac memory_store := cbn [ret_state ret_leaves ret_mark_sealed ret_purge_before memory_retention] in *.

Section sealing.
Context {S W : Type} `{MacSignerLaws S} `{AnchorStoreLaws W}.
Implicit Types (sg : S) (w : W).

Lemma mark_sealed_ok st sid a loc st' :
  mark_sealed st sid a loc = (Ok tt, st') ->
  es_worm_anchors st' !! sid = Some (a, loc) /\ es_segments st' = es_segments st /\
  is_Some (es_segments st' !! sid).
Proof.
  unfold mark_sealed. destruct (es_segments st !! sid) eqn:Es; [|done]. intros [= <-]. cbn.
  rewrite lookup_insert_eq, Es. eauto.
Qed.

Lemma seal_anchor_ok sg st sid b now a :
  seal_anchor sg st sid b now = Ok a ->
  wa_sealed_at a = now /\ verify_anchor sg a = Ok true /\
  exists leaves, segment_leaves st sid (Some b) = Ok leaves /\ attests a sid leaves.
Proof.
  unfold seal_anchor. memory_store. intros Hs. apply bind_ok in Hs as ([state|] & _ & Hs); [|done].
  apply bind_ok in Hs as (leaves & Hl & Hs). destruct leaves as [|first rest]; [done|].
  destruct (last (first :: rest)) as [final|] eqn:Hlast; [|done]. set (leaves := first :: rest) in *.
  apply bind_ok in Hs as ([] & Hc & Hs). apply bind_ok in Hs as (u & Hu & Hs).
  apply bind_ok in Hs as (m & Hm & Hs).
  apply raise_if_ok, negb_false_iff in Hc.
  apply mk_WormAnchor_ok in Hu as (U1 & U2 & U3 & U4 & U5 & U6 & U7 & U8 & _ & _ & _).
  apply mk_WormAnchor_ok in Hs as (A1 & A2 & A3 & A4 & A5 & A6 & A7 & A8 & A9 & A10 & A11).
  split_and!; [done| |].
  - assert (Hp : signing_payload a = signing_payload u)
      by (unfold signing_payload; by rewrite U1, U2, U3, U4, U5, U6, U7, U8, A1, A2, A3, A4, A5, A6, A7, A8).
    unfold sign_anchor in Hm. unfold verify_anchor. rewrite Hp, A9, A10.
    destruct (signing_payload u) as [p|e]; cbn [mbind res_bind] in *; [|by destruct e].
    destruct (signer_mac sg p) as [m'|e] eqn:Emac; [injection Hm as ->|by destruct e].
    by rewrite (mac_verifies _ _ _ Emac).
  - exists leaves. split; [done|]. constructor; try done.
    + rewrite A6, A7 in *. lia.
    + by rewrite A6.
Qed.

Lemma seal_ok sg st w sid b now r s' :
  seal sg (st, w) sid b now = (Ok r, s') ->
  seal_anchor sg st sid b now = Ok (sr_anchor r) /\ sr_leaves_sealed r = wa_tree_size (sr_anchor r) /\
  worm_put w (sr_anchor r) = (Ok (sr_locator r), s'.2) /\
  mark_sealed st sid (sr_anchor r) (sr_locator r) = (Ok tt, s'.1).
Proof.
  unfold seal. memory_store. destruct (seal_anchor sg st sid b now) as [a|]; [|done].
  destruct (worm_put w a) as [[loc|] w'] eqn:Hput; [|done].
  destruct (mark_sealed st sid a loc) as [[[]|] st'] eqn:Hm; [|done]. intros [= <- <-]. done.
Qed.

(** C23.  What is sealed stays provable.  A successful seal signs an anchor
    that verifies, whose root is the Merkle root of the MACs of all records
    below the boundary, with no gap in their sequence; it is stored and read
    back.  From then on, whatever is purged, those MACs prove each of the
    sealed records against the anchor, and nothing else can be proved against
    it unless the verification and the sealed tree hash two different byte
    strings to the same digest. *)
Theorem sealed_records_stay_provable sg st w sid b now r s' :
  seal sg (st, w) sid b now = (Ok r, s') ->
  let a := sr_anchor r in
  worm_get s'.2 (wa_anchor_id a) = Ok (Some a) /\ anchor_for s'.1 sid = Some a /\
  wa_sealed_at a = now /\ verify_anchor sg a = Ok true /\
  exists leaves, segment_leaves st sid (Some b) = Ok leaves /\ attests a sid leaves /\
    sr_leaves_sealed r = Z.of_nat (length leaves) /\
    (forall lf, lf ∈ leaves -> exists p, prove_inclusion leaves (lf_seq lf) = Ok (p, lf_record_hmac lf) /\
       verify p (lf_record_hmac lf) (wa_merkle_root a) = true) /\
    (forall p leaf, verify p leaf (wa_merkle_root a) = true ->
       leaf ∈ map lf_record_hmac leaves \/
       collide (path_hashed leaf (reverse (mp_path p))) (hashed (map lf_record_hmac leaves))).
Proof.
  intros (Ha & Hn & Hput & Hmark)%seal_ok. cbv zeta.
  apply seal_anchor_ok in Ha as (Hnow & Hver & leaves & Hl & Hatt).
  split_and!; try done.
  - by eapply put_stored.
  - apply mark_sealed_ok in Hmark as (Hmark & _). unfold anchor_for. by rewrite Hmark.
  - exists leaves. split_and!; try done.
    + rewrite Hn. apply Hatt.
    + intros lf Hlf. rewrite (att_root _ _ _ Hatt). eapply contiguous_provable; [apply Hatt | done].
    + intros p leaf Hp. rewrite (att_root _ _ _ Hatt) in Hp.
      apply verified_leaf_is_included in Hp as [(j & _ & Hj)|]; [left | by right].
      by eapply list_elem_of_lookup_2.
Qed.

(** ** Sealing, then purging *)

Definition below (b : Z) (seg : list StoredRecord) : list StoredRecord :=
  List.filter (fun s => (st_seq s <? b)%Z) seg.

Lemma below_none sg seg n prev b :
  chain_ok intent_chain_payload sg seg n prev -> (b <= n)%Z -> below b seg = [].
Proof.
  intros Hch Hb. unfold below. destruct (List.filter _ seg) as [|s l] eqn:E; [done|]. exfalso.
  assert (Hs : In s (List.filter (fun s => (st_seq s <? b)%Z) seg)) by (rewrite E; by left).
  apply List.filter_In in Hs as [Hin%list_elem_of_In Hlt%Z.ltb_lt].
  pose proof (chain_seqs _ _ _ _ _ _ Hch Hin). lia.
Qed.

(** On a chain, the records below a boundary are the prefix the purge drops. *)
Lemma purge_point_chain sg b seg n prev i an :
  chain_ok intent_chain_payload sg seg n prev ->
  let k := length (below b seg) in
  below b seg = take k seg /\
  (purge_point seg b i i an).1 = (i + k)%nat /\
  ((purge_point seg b i i an).2 = None -> an = None /\ k = 0%nat).
Proof.
  cbv zeta. revert n prev i an. induction seg as [|s seg IH]; intros n prev i an Hch.
  { cbn. rewrite Nat.add_0_r. done. }
  destruct Hch as (Hs & Hp & Hl & Hch). cbn [purge_point]. destruct (Z.leb_spec b (st_seq s)) as [Hb|Hb].
  - rewrite (below_none sg _ n prev) by (lia || done). cbn. rewrite Nat.add_0_r. done.
  - unfold below. cbn [List.filter]. rewrite (proj2 (Z.ltb_lt _ _) Hb). fold (below b seg).
    destruct (IH _ _ (Datatypes.S i) (Some (st_record_hmac s)) Hch) as (Ht & Hk & Hn).
    cbn [length take]. split_and!; [by rewrite <-Ht | rewrite Hk; lia |].
    intros Hnone. by destruct (Hn Hnone).
Qed.

Lemma seal_and_purge_exact sg st sid b n st' :
  store_inv sg st -> seal_and_purge st sid b = (n, st') ->
  let gone := below b (segment_of st sid) in
  n = Z.of_nat (length gone) /\ gone = take (length gone) (segment_of st sid) /\
  segment_of st' sid = drop (length gone) (segment_of st sid).
Proof.
  intros Hinv Hp. cbv zeta. pose proof (chain_of_segment sg st sid Hinv) as Hch.
  destruct (purge_point_chain _ b _ _ _ 0 None Hch) as (Ht & Hk & Hn).
  unfold seal_and_purge in Hp. destruct (purge_point _ b 0 0 None) as [k [an|]]; cbn in Hk, Hn.
  - injection Hp as <- <-. rewrite Hk. split_and!; try done. unfold segment_of at 1, get_or. cbn.
    by rewrite lookup_insert_eq.
  - injection Hp as <- <-. destruct (Hn eq_refl) as [_ Hz]. rewrite Hz, drop_0. rewrite Hz in Ht. done.
Qed.

(** The leaves of a chain are its records below the boundary, in order. *)
Lemma segment_leaves_chain sg st sid b leaves :
  store_inv sg st -> segment_leaves st sid (Some b) = Ok leaves ->
  Forall2 (fun s lf => lf_seq lf = st_seq s /\ lf_record_hmac lf = st_record_hmac s)
    (below b (segment_of st sid)) leaves.
Proof.
  intros Hinv. unfold segment_leaves. rewrite (sort_seq_chain _ sg _ _ _ (chain_of_segment sg st sid Hinv)).
  fold (below b (segment_of st sid)). rewrite res_map_ok. intros HF. eapply Forall2_impl; [exact HF|].
  intros s lf. unfold mk_SegmentLeaf. cbn. intros Hl. inv_ok. by subst lf.
Qed.

(** Every stored anchor that ends at the boundary can be checked. *)
Definition checkable sg w (sid : string) (b : Z) : Prop :=
  forall l a, worm_list w sid = Ok l -> a ∈ l -> wa_last_seq a = (b - 1)%Z ->
    is_ok (verify_anchor sg a) = true.

Lemma first_covering_finds sg l b a :
  (forall x, x ∈ l -> wa_last_seq x = (b - 1)%Z -> is_ok (verify_anchor sg x) = true) ->
  a ∈ l -> wa_last_seq a = (b - 1)%Z -> verify_anchor sg a = Ok true ->
  exists x, first_covering sg l b = Ok (Some x).
Proof.
  intros Hall Hin Ha Hv. induction l as [|x l IH]; [by apply elem_of_nil in Hin|]. cbn [first_covering].
  assert (IH' : a ∈ l -> exists x, first_covering sg l b = Ok (Some x))
    by (intros; apply IH; [intros; apply Hall; [by right | done] | done]).
  destruct (Z.ltb_spec (wa_last_seq x) (b - 1)) as [Hlt|_].
  { apply elem_of_cons in Hin as [<-|Hin]; [lia | by apply IH']. }
  destruct (Z.eqb_spec (wa_last_seq x) (b - 1)) as [Heq|Hne]; cbn [negb].
  - pose proof (Hall x ltac:(by left) Heq) as Hok. destruct (verify_anchor sg x) as [[]|] eqn:Ex; [|  |done].
    + by exists x.
    + apply elem_of_cons in Hin as [<-|Hin]; [congruence | by apply IH'].
  - apply elem_of_cons in Hin as [<-|Hin]; [lia | by apply IH'].
Qed.

Lemma first_covering_sound sg l b a :
  first_covering sg l b = Ok (Some a) ->
  a ∈ l /\ wa_last_seq a = (b - 1)%Z /\ verify_anchor sg a = Ok true.
Proof.
  induction l as [|x l IH]; cbn [first_covering]; [done|].
  assert (IH' : first_covering sg l b = Ok (Some a) ->
    a ∈ x :: l /\ wa_last_seq a = (b - 1)%Z /\ verify_anchor sg a = Ok true)
    by (intros Hf; destruct (IH Hf); by split; [right|]).
  destruct (_ <? _)%Z; [done|]. destruct (Z.eqb_spec (wa_last_seq x) (b - 1)); cbn [negb]; [|done].
  intros Hf. apply bind_ok in Hf as ([] & Hv & Hf); [|by apply IH'].
  injection Hf as <-. split_and!; [by left | done | done].
Qed.

(** A sealed prefix can be purged, and exactly it goes.  On an honest
    store, where the anchors that end at the boundary can be checked, a
    successful seal up to the record just before the boundary is followed by a
    successful purge at that boundary: it removes as many records as were sealed, which are the records whose MACs
    the anchor attests, keeps all others in order, and the segment still
    verifies. *)
Theorem sealed_prefix_can_be_purged sg st w sid b now r s1 at_ :
  reachable sg st -> valid_id sid -> is_ok (require_timestamp at_ "verified_at") = true ->
  checkable sg w sid b ->
  seal sg (st, w) sid b now = (Ok r, s1) -> wa_last_seq (sr_anchor r) = (b - 1)%Z ->
  exists pr s2, purge sg s1 sid b = (Ok pr, s2) /\
    ps_purged pr = sr_leaves_sealed r /\ s2.2 = s1.2 /\
    (exists gone, segment_of st sid = gone ++ segment_of s2.1 sid /\
       wa_merkle_root (sr_anchor r) = merkle_root (map st_record_hmac gone)) /\
    exists rep, verify_segment sg s2.1 sid at_ = Ok rep /\ is_fully_acceptable rep = true.
Proof.
  intros Hreach%reachable_store_inv Hid Hat Hcheck Hseal Hend.
  apply seal_ok in Hseal as (Ha & Hn & Hput & Hmark).
  apply seal_anchor_ok in Ha as (_ & Hver & leaves & Hl & Hatt).
  pose proof (mark_sealed_inv _ _ _ _ _ _ _ Hreach Hmark) as Hinv1.
  destruct s1 as [st1 w1]. cbn [fst snd] in *.
  destruct (list_complete _ _ _ _ Hput) as (l & Hlist & Hin & Hback). rewrite (att_segment _ _ _ Hatt) in *.
  destruct (first_covering_finds sg l b (sr_anchor r)) as [x Hx]; [|done..|].
  { intros y Hy Hyb. destruct (Hback y Hy) as [->|(l0 & Hl0 & Hy0)]; [by rewrite Hver | by eapply Hcheck]. }
  unfold purge, covering_anchor. memory_store. rewrite Hlist. cbn [mbind res_bind]. rewrite Hx.
  pose proof (mark_sealed_ok _ _ _ _ _ Hmark) as (Hanc & Hsegs & Hs1).
  assert (Hsame : segment_of st1 sid = segment_of st sid) by (unfold segment_of; by rewrite Hsegs).
  unfold purge_before. rewrite Hanc.
  rewrite Hend, Z.eqb_refl. cbn [negb].
  destruct (seal_and_purge st1 sid b) as [n st2] eqn:Ep.
  pose proof (seal_and_purge_inv _ _ _ _ _ _ Hinv1 Ep) as Hinv2.
  destruct (seal_and_purge_exact _ _ _ _ _ _ Hinv1 Ep) as (Hcount & Htake & Hdrop). rewrite Hsame in *.
  pose proof (segment_leaves_chain _ _ _ _ _ Hreach Hl) as HF.
  eexists _, (st2, w1). split; [reflexivity|]. cbn [ps_purged fst snd]. split_and!; [|done| |].
  - rewrite Hcount, Hn, (att_size _ _ _ Hatt). f_equal. by apply Forall2_length in HF.
  - exists (below b (segment_of st sid)). split.
    + rewrite Hdrop. rewrite Htake at 1. by rewrite take_drop.
    + rewrite (att_root _ _ _ Hatt). f_equal. clear -HF. induction HF as [|? ? ? ? [_ ?]]; cbn; congruence.
  - assert (Hs2 : is_Some (es_segments st2 !! sid)).
    { destruct (seal_and_purge_cases _ _ _ _ _ Ep) as [[_ ->]|(j & s & _ & _ & _ & Hseg & _)]; [done|].
      rewrite Hseg, lookup_insert_eq. by eexists. }
    destruct (verify_inv sg st2 sid at_ Hinv2 Hs2 Hid Hat) as (rep & ? & _ & _ & ?). eauto.
Qed.

(** ** Retention passes *)

Lemma purge_before_cases st sid b r st' :
  purge_before st sid b = (r, st') ->
  (r = Raise EvidenceWriteError /\ st' = st) \/
  exists n own, r = Ok n /\ anchor_for st sid = Some own /\ wa_last_seq own = (b - 1)%Z.
Proof.
  unfold purge_before, anchor_for. destruct (es_worm_anchors st !! sid) as [[own loc]|]; [|intros [= <- <-]; by left].
  destruct (Z.eqb_spec (wa_last_seq own) (b - 1)); cbn [negb]; [|intros [= <- <-]; by left].
  destruct (seal_and_purge st sid b) as [n st1]. intros [= <- <-]. right. by exists n, own.
Qed.

(** Nothing is purged without an anchor that authenticates. *)
Lemma purge_cases sg st w sid b r s2 :
  purge sg (st, w) sid b = (r, s2) ->
  (is_ok r = false /\ s2 = (st, w)) \/
  exists pr a l own, r = Ok pr /\ s2.2 = w /\ purge_before st sid b = (Ok (ps_purged pr), s2.1) /\
    worm_list w sid = Ok l /\ a ∈ l /\ wa_last_seq a = (b - 1)%Z /\ verify_anchor sg a = Ok true /\
    anchor_for st sid = Some own /\ wa_last_seq own = (b - 1)%Z.
Proof.
  unfold purge, covering_anchor. memory_store. destruct (worm_list w sid) as [l|] eqn:El; cbn [mbind res_bind];
    [|intros [= <- <-]; by left].
  destruct (first_covering sg l b) as [[a|]|] eqn:Ef; try (intros [= <- <-]; by left).
  apply first_covering_sound in Ef as (Hin & Hlast & Hv).
  destruct (purge_before st sid b) as [pb st'] eqn:Ep.
  destruct (purge_before_cases _ _ _ _ _ Ep) as [[-> ->]|(n & own & -> & Ho & Hb)]; intros [= <- <-]; [by left|].
  right. exists {| ps_segment_id := sid; ps_purged := n; ps_anchor_id := wa_anchor_id a |}, a, l, own.
  cbn. split_and!; done.
Qed.

(** What a seal does to the evidence, whether it succeeds or not. *)
Lemma seal_cases sg st w sid b now r s2 :
  seal sg (st, w) sid b now = (r, s2) ->
  (s2.1 = st \/ exists a loc, mark_sealed st sid a loc = (Ok tt, s2.1)) /\ es_segments s2.1 = es_segments st /\
  (s2.2 = w \/ exists a loc, worm_put w a = (Ok loc, s2.2)).
Proof.
  unfold seal. memory_store. destruct (seal_anchor sg st sid b now) as [a|]; [|intros [= <- <-]; eauto].
  destruct (worm_put w a) as [[loc|] w'] eqn:Hput; [|apply put_failed in Hput as ->; intros [= <- <-]; eauto].
  destruct (mark_sealed st sid a loc) as [[[]|] st'] eqn:Hm; intros [= <- <-]; cbn.
  - pose proof (mark_sealed_ok _ _ _ _ _ Hm) as (_ & ? & _). split_and!; eauto.
  - unfold mark_sealed in Hm. destruct (es_segments st !! sid); [done|]. injection Hm as <- <-. split_and!; eauto.
Qed.

Lemma mk_EvidenceSegment_ok sid t op fs sa ls root sig wid g :
  mk_EvidenceSegment sid t op fs sa ls root sig wid = Ok g ->
  sg_sealed_at g = sa /\ sg_last_seq g = ls /\ sg_first_seq g = fs.
Proof. unfold mk_EvidenceSegment. intros Hg. inv_ok. by subst g. Qed.

(** Why a segment may be left alone: it is not there, it is unsealed and too
    young or empty, or it is sealed and within its grace period or already
    purged up to its boundary. *)
Definition nothing_due (r : RetentionScheduler) (st : EvidenceStore) (sid : string) (now : float) : Prop :=
  segment_state st sid = Ok None \/
  exists state, segment_state st sid = Ok (Some state) /\
    match sg_sealed_at state with
    | None => flt (fsub now (sg_opened_at state)) (rs_seal_after_seconds r) = true \/ segment_leaves st sid None = Ok []
    | Some sealed_at =>
        flt (fsub now sealed_at) (rs_purge_grace_seconds r) = true \/
        exists l, sg_last_seq state = Some l /\ (l < sg_first_seq state)%Z
    end.

(** What a pass concluded about one segment, from the stores it found and left. *)
Definition justified sg (r : RetentionScheduler) (s s' : stores EvidenceStore W) (sid : string) (now : float)
    (action : RetentionAction) : Prop :=
  match action with
  | SEALED => anchor_for s.1 sid = None /\ es_segments s'.1 = es_segments s.1 /\
      (exists state, segment_state s.1 sid = Ok (Some state) /\
         flt (fsub now (sg_opened_at state)) (rs_seal_after_seconds r) = false) /\
      exists a, anchor_for s'.1 sid = Some a /\ wa_sealed_at a = now /\ verify_anchor sg a = Ok true
  | PURGED => exists own a l, anchor_for s.1 sid = Some own /\
      flt (fsub now (wa_sealed_at own)) (rs_purge_grace_seconds r) = false /\
      worm_list s.2 sid = Ok l /\ a ∈ l /\ wa_last_seq a = wa_last_seq own /\ verify_anchor sg a = Ok true
  | SKIPPED => s' = s /\ nothing_due r s.1 sid now
  | RETENTION_FAILED => es_segments s'.1 = es_segments s.1
  end.

Lemma segment_state_anchor st sid state :
  segment_state st sid = Ok (Some state) ->
  sg_sealed_at state = wa_sealed_at <$> anchor_for st sid /\ sg_last_seq state = wa_last_seq <$> anchor_for st sid.
Proof.
  unfold segment_state, anchor_for. destruct (es_segments st !! sid); [|done]. intros Hs.
  apply bind_ok in Hs as (g & Hg & [= <-]). by apply mk_EvidenceSegment_ok in Hg as (-> & -> & _).
Qed.

Lemma maybe_seal_justified sg r s sid now state o s' :
  segment_state s.1 sid = Ok (Some state) -> sg_sealed_at state = None -> anchor_for s.1 sid = None ->
  maybe_seal sg r s sid now (sg_opened_at state) = (Ok o, s') ->
  ro_segment_id o = sid /\ justified sg r s s' sid now (ro_action o).
Proof.
  intros Hst Hopen Hnone. unfold maybe_seal, concluded. memory_store. destruct s as [st w]. cbn [fst] in *.
  assert (Hskip : flt (fsub now (sg_opened_at state)) (rs_seal_after_seconds r) = true \/ segment_leaves st sid None = Ok [] ->
    nothing_due r st sid now) by (intros; right; exists state; by rewrite Hopen).
  destruct (flt _ _) eqn:Eage; [by intros [= <- <-]; repeat split; eauto|].
  destruct (segment_leaves st sid None) as [l|] eqn:El; [|by intros [= <- <-]].
  destruct (last l) as [f|] eqn:Ef; [|apply last_None in Ef as ->; by intros [= <- <-]; repeat split; eauto].
  destruct (seal sg (st, w) sid (lf_seq f + 1) now) as [res s1] eqn:Es. pose proof (seal_cases _ _ _ _ _ _ _ _ Es) as (_ & Hsegs & _).
  destruct res as [sr|[]]; try done; intros [= <- <-]; cbn [ro_segment_id ro_action justified]; split_and!; eauto.
  apply seal_ok in Es as (Ha & _ & _ & Hm). apply seal_anchor_ok in Ha as (Hnow & Hv & _).
  exists (sr_anchor sr). split_and!; try done. apply mark_sealed_ok in Hm as (Hm & _). unfold anchor_for. by rewrite Hm.
Qed.

Lemma maybe_purge_justified sg r s sid now state own o s' :
  segment_state s.1 sid = Ok (Some state) -> sg_sealed_at state = Some (wa_sealed_at own) ->
  sg_last_seq state = Some (wa_last_seq own) -> anchor_for s.1 sid = Some own ->
  maybe_purge sg r s sid now (wa_sealed_at own) (sg_last_seq state) (sg_first_seq state) = (Ok o, s') ->
  ro_segment_id o = sid /\ justified sg r s s' sid now (ro_action o).
Proof.
  intros Hst Hsealed Hlast Hown. rewrite Hlast. unfold maybe_purge, concluded. memory_store.
  assert (Hskip : flt (fsub now (wa_sealed_at own)) (rs_purge_grace_seconds r) = true \/ (wa_last_seq own < sg_first_seq state)%Z ->
    nothing_due r s.1 sid now) by (intros; right; exists state; rewrite Hsealed, Hlast; naive_solver).
  destruct (flt _ _) eqn:Eg; [by intros [= <- <-]; repeat split; eauto|].
  destruct (Z.leb_spec (wa_last_seq own + 1) (sg_first_seq state));
    [by intros [= <- <-]; repeat split; try done; apply Hskip; right; lia|]. destruct s as [st w].
  destruct (purge sg (st, w) sid (wa_last_seq own + 1)) as [res s1] eqn:Ep.
  apply purge_cases in Ep as [[Hno ->]|(pr & a & l & own' & -> & _ & _ & Hl & Hin & Ha & Hv & Ho & _)].
  - destruct res as [|[]]; try done; intros [= <- <-]; cbn; done.
  - intros [= <- <-]. cbn [ro_segment_id ro_action justified]. split; [done|].
    exists own, a, l. split_and!; try done. lia.
Qed.

Lemma consider_justified sg r s sid now o s' :
  consider sg r s sid now = (Ok o, s') ->
  ro_segment_id o = sid /\ justified sg r s s' sid now (ro_action o).
Proof.
  unfold consider. memory_store. destruct (segment_state s.1 sid) as [[state|]|] eqn:Es; try (by intros [= <- <-]);
    [|by intros [= <- <-]; repeat split; left].
  pose proof (segment_state_anchor _ _ _ Es) as [Hsealed Hlast].
  destruct (anchor_for s.1 sid) as [own|] eqn:Ha; cbn [fmap option_fmap option_map] in *; rewrite Hsealed.
  - by eapply maybe_purge_justified.
  - by eapply maybe_seal_justified.
Qed.

(** Considering a segment only takes steps of the store. *)
Lemma consider_steps sg r s sid now o s' :
  consider sg r s sid now = (o, s') -> reachable sg s.1 -> reachable sg s'.1.
Proof.
  assert (Hseal : forall st w b res s1, seal sg (st, w) sid b now = (res, s1) -> reachable sg st -> reachable sg s1.1).
  { intros st w b res s1 Hs [sg0 Hr]. apply seal_cases in Hs as ([->|(a & loc & Hm)] & _); exists sg0; [done|].
    eapply rtc_r; [exact Hr|]. by eapply step_mark_sealed. }
  assert (Hpurge : forall st w b res s1, purge sg (st, w) sid b = (res, s1) -> reachable sg st -> reachable sg s1.1).
  { intros st w b res s1 Hs [sg0 Hr].
    apply purge_cases in Hs as [[_ ->]|(pr & a & l & own & _ & _ & Hp & _)]; exists sg0; [done|].
    eapply rtc_r; [exact Hr|]. by eapply step_purge_before. }
  destruct s as [st w]. unfold consider, maybe_seal, maybe_purge. memory_store. cbn [fst]. intros H' Hr.
  repeat case_match; simplify_eq; try done; eauto.
Qed.

Lemma anchor_eqb_trans a b c : anchor_eqb a b = true -> anchor_eqb b c = true -> anchor_eqb a c = true.
Proof.
  unfold anchor_eqb. rewrite !andb_true_iff, !String.eqb_eq, !Z.eqb_eq, !bool_decide_eq_true, !feq_spec.
  intuition congruence.
Qed.

(** No anchor of [w] was lost or replaced by another in [w']. *)
Definition anchors_kept (w w' : W) : Prop :=
  forall id x, worm_get w id = Ok (Some x) ->
    exists y, worm_get w' id = Ok (Some y) /\ (y = x \/ anchor_eqb x y = true).

Lemma anchors_kept_refl w : anchors_kept w w.
Proof. intros id x Hx. eauto. Qed.

Lemma anchors_kept_trans w1 w2 w3 : anchors_kept w1 w2 -> anchors_kept w2 w3 -> anchors_kept w1 w3.
Proof.
  intros H12 H23 id x Hx. destruct (H12 id x Hx) as (y & Hy & Hxy). destruct (H23 id y Hy) as (z & Hz & Hyz).
  exists z. split; [done|]. destruct Hxy as [->|Hxy], Hyz as [->|Hyz]; auto. right. by eapply anchor_eqb_trans.
Qed.

Lemma consider_keeps sg r s sid now o s' : consider sg r s sid now = (o, s') -> anchors_kept s.2 s'.2.
Proof.
  assert (Hseal : forall st w b res s1, seal sg (st, w) sid b now = (res, s1) -> anchors_kept w s1.2).
  { intros st w b res s1 Hs. apply seal_cases in Hs as (_ & _ & [->|(a & loc & Hput)]); [apply anchors_kept_refl|].
    intros id x Hx. by eapply put_keeps. }
  assert (Hpurge : forall st w b res s1, purge sg (st, w) sid b = (res, s1) -> anchors_kept w s1.2).
  { intros st w b res s1 Hs.
    apply purge_cases in Hs as [[_ ->]|(pr & a & l & own & _ & -> & _)]; apply anchors_kept_refl. }
  destruct s as [st w]. unfold consider, maybe_seal, maybe_purge. memory_store. cbn [fst snd]. intros Hc.
  repeat case_match; simplify_eq; eauto using anchors_kept_refl.
Qed.

(** A pass, segment by segment. *)
Inductive pass sg (r : RetentionScheduler) (now : float)
    : stores EvidenceStore W -> list string -> list RetentionOutcome -> stores EvidenceStore W -> Prop :=
| pass_done s : pass sg r now s [] [] s
| pass_segment s s1 s2 sid sids o os :
    ro_segment_id o = sid -> justified sg r s s1 sid now (ro_action o) ->
    pass sg r now s1 sids os s2 -> pass sg r now s (sid :: sids) (o :: os) s2.

(** C25.  A retention pass keeps evidence honest.  However it ends, on a
    reachable evidence store, the store it leaves is reachable, so every segment of it verifies, and
    no stored anchor is lost or replaced.  A pass that returns considered every
    segment once, in order, and acted only where it could justify it: it sealed
    only unsealed segments opened at least the configured time ago, under a
    verified anchor and without touching a record; it purged only segments
    sealed at least the grace period ago, up to the boundary of an anchor that
    verifies; it skipped, changing nothing, only segments with nothing due; and
    a failed segment lost no record.  Failing to write evidence never stops a
    pass; what can stop it, before the remaining segments, is another error of
    one segment, such as an anchor whose check fails for want of the signer. *)
Theorem retention_keeps_evidence_honest sg r (s : stores EvidenceStore W) sids now o s' :
  reachable sg s.1 -> run_once sg r s sids now = (o, s') ->
  reachable sg s'.1 /\ anchors_kept s.2 s'.2 /\
  (forall os, o = Ok os -> pass sg r now s sids os s') /\ o <> Raise EvidenceWriteError.
Proof.
  revert s o s'. induction sids as [|sid sids IH]; intros s o s' Hr Hrun; cbn [run_once] in Hrun.
  { injection Hrun as <- <-. split_and!; [done | apply anchors_kept_refl | | done].
    intros os [= <-]. constructor. }
  destruct (consider sg r s sid now) as [[c|e] s1] eqn:Ec.
  - pose proof (consider_steps _ _ _ _ _ _ _ Ec Hr) as Hr1. pose proof (consider_keeps _ _ _ _ _ _ _ Ec) as Hk.
    apply consider_justified in Ec as [Hid Hj].
    destruct (run_once sg r s1 sids now) as [os s2] eqn:Er. injection Hrun as <- <-.
    destruct (IH _ _ _ Hr1 Er) as (Hr2 & Hk2 & Hpass & Hne).
    split_and!; [done | by eapply anchors_kept_trans | | by destruct os as [|[]]].
    intros l Hl. apply bind_ok in Hl as (os' & -> & [= <-]). eapply pass_segment; [done | exact Hj | by apply Hpass].
  - injection Hrun as <- <-. split_and!; [by eapply consider_steps | by eapply consider_keeps | done |].
    intros [= ->]. unfold consider, maybe_seal, maybe_purge in Ec. memory_store. by repeat case_match; simplify_eq.
Qed.
End sealing.

(** ** Concrete runs *)

Definition sample_stores : stores EvidenceStore MemoryWorm := (sample_store, memory_worm_init).
Definition sealed_run : res SealResult * stores EvidenceStore MemoryWorm :=
  seal sample_signer sample_stores sample_segment 1 (fz 40).
Definition sample_seal : SealResult :=
  match sealed_run.1 with
  | Ok r => r
  | Raise _ =>
      {| sr_anchor := {| wa_anchor_id := ""; wa_segment_id := ""; wa_tenant_id := ""; wa_merkle_root := [];
                         wa_tree_size := 0; wa_first_seq := 0; wa_last_seq := 0; wa_sealed_at := fz 0;
                         wa_root_signature := []; wa_signer_key_id := "" |};
         sr_locator := ""; sr_leaves_sealed := 0 |}
  end.

Lemma sample_seals : sealed_run = (Ok sample_seal, sealed_run.2).
Proof. vm_compute. reflexivity. Qed.

Lemma sealed_records_stay_provable_witness :
  sr_locator sample_seal = "memory://t1.19700101:0-0" /\
  verify_anchor sample_signer (sr_anchor sample_seal) = Ok true.
Proof.
  split; [vm_compute; reflexivity|].
  apply (sealed_records_stay_provable sample_signer sample_store memory_worm_init sample_segment 1 (fz 40)
           sample_seal sealed_run.2 sample_seals).
Defined.

Lemma sealed_prefix_can_be_purged_witness :
  exists pr s2, purge sample_signer sealed_run.2 sample_segment 1 = (Ok pr, s2) /\ ps_purged pr = 1%Z.
Proof.
  destruct (sealed_prefix_can_be_purged sample_signer sample_store memory_worm_init sample_segment 1 (fz 40)
              sample_seal sealed_run.2 (fz 50) sample_store_reachable sample_segment_id)
    as (pr & s2 & Hp & Hn & _).
  - vm_compute. reflexivity.
  - intros l a [= <-] Ha. by apply elem_of_nil in Ha.
  - exact sample_seals.
  - vm_compute. reflexivity.
  - exists pr, s2. split; [exact Hp|]. rewrite Hn. vm_compute. reflexivity.
Defined.

Definition sample_scheduler : RetentionScheduler :=
  {| rs_seal_after_seconds := fz 10; rs_purge_grace_seconds := fz 100 |}.
Definition first_pass := run_once sample_signer sample_scheduler sample_stores [sample_segment; "other"] (fz 40).
Definition second_pass := run_once sample_signer sample_scheduler first_pass.2 [sample_segment] (fz 200).

Lemma retention_keeps_evidence_honest_witness :
  (os ← first_pass.1; Ok (map ro_action os)) = Ok [SEALED; SKIPPED] /\
  (os ← second_pass.1; Ok (map ro_action os)) = Ok [PURGED] /\
  reachable sample_signer second_pass.2.1.
Proof.
  split; [vm_compute; reflexivity|]. split; [vm_compute; reflexivity|].
  apply (retention_keeps_evidence_honest sample_signer sample_scheduler first_pass.2 [sample_segment] (fz 200)
           second_pass.1 second_pass.2); [|apply surjective_pairing].
  apply (retention_keeps_evidence_honest sample_signer sample_scheduler sample_stores [sample_segment; "other"]
           (fz 40) first_pass.1 first_pass.2); [exact sample_store_reachable | apply surjective_pairing].
Defined.

(** Sealing the same prefix again at another time is refused: the anchor's
    signing time is part of it. *)
Example reseal_is_refused :
  (seal sample_signer sealed_run.2 sample_segment 1 (fz 41)).1 = Raise EvidenceWriteError.
Proof. vm_compute. reflexivity. Qed.

(** With the signer unreachable the purge of one segment aborts the pass: the
    segments after it are not considered. *)
Example integrity_error_aborts_pass :
  (run_once (local_set_available sample_signer false) sample_scheduler first_pass.2 [sample_segment; "other"]
     (fz 200)).1 = Raise EvidenceIntegrityError.
Proof. vm_compute. reflexivity. Qed.

(** A record appended to a sealed segment is never sealed by the scheduler. *)
Example late_record_is_never_sealed :
  let st := (append_intent sample_signer first_pass.2.1 (sample_intent "d2")).2 in
  let pass2 := run_once sample_signer sample_scheduler (st, first_pass.2.2) [sample_segment] (fz 1000) in
  let pass3 := run_once sample_signer sample_scheduler pass2.2 [sample_segment] (fz 9000) in
  (os ← pass2.1; Ok (map ro_action os)) = Ok [PURGED] /\
  (os ← pass3.1; Ok (map ro_detail os)) = Ok [Text "already purged"] /\
  segment_size pass3.2.1 sample_segment = 1%nat.
Proof. vm_compute. split_and!; reflexivity. Qed.
