(* ===== verification/AnchorStores.v ===== *)
(** * Durable anchor stores ([glassbox/adapters/outbound/worm.py])

    The JSON text of an anchor, the store that keeps anchors as files created
    once, and the store over S3 Object Lock.  A directory is the map of its
    files; each [put] meets the next moment of a schedule: what other processes
    create while it runs, and the fault it meets.  The S3 client is a
    parameter, with what S3 documents of conditional writes as laws.  Both
    stores are shown write-once against one interface. *)

From stdpp Require Import base tactics list strings gmap.
From Stdlib Require Import ZArith Lia Ascii Init.Byte Floats.SpecFloat.
From S2P Require Import Prelude PyFloat PyStr Serialization Json Sha256 Merkle Signing Evidence Config EvidenceStore PgEvidence GovernanceState Sealer.

Open Scope string_scope.
Open Scope list_scope.

(** ** The text of an anchor *)

Definition anchor_json (a : WormAnchor) : json :=
  JObj [("anchor_id", JStr (wa_anchor_id a)); ("segment_id", JStr (wa_segment_id a));
        ("tenant_id", JStr (wa_tenant_id a)); ("merkle_root", JStr (bytes_hex (wa_merkle_root a)));
        ("tree_size", JInt (wa_tree_size a)); ("first_seq", JInt (wa_first_seq a));
        ("last_seq", JInt (wa_last_seq a)); ("sealed_at", JFloat (wa_sealed_at a));
        ("root_signature", JStr (bytes_hex (wa_root_signature a))); ("signer_key_id", JStr (wa_signer_key_id a))].

Definition anchor_to_json (a : WormAnchor) : string := dumps canonical_config (anchor_json a).

(** [bytes.fromhex]: pairs of hexadecimal digits, white space between them. *)
Definition is_ascii_space (c : ascii) : bool := in_range 9 13 c || Ascii.eqb c " ".

Fixpoint fromhex (s : string) : option bytes :=
  match s with
  | EmptyString => Some []
  | String c s' =>
      if is_ascii_space c then fromhex s'
      else match s' with
           | String d s'' =>
               h ← hex_value c; l ← hex_value d; b ← Byte.of_N (16 * h + l); rest ← fromhex s''; Some (b :: rest)
           | EmptyString => None
           end
  end.

Definition int_of_json (j : json) : option Z :=
  match j with
  | JInt z => Some z
  | JBool b => Some (if b then 1%Z else 0%Z)
  | JFloat x => trunc x
  | JStr s => int_of_text s
  | _ => None
  end.

Definition text_field (items : list (string * json)) (k : string) : option string :=
  match dict_get items k with Some (JStr s) => Some s | _ => None end.
Definition int_field (items : list (string * json)) (k : string) : option Z := dict_get items k ≫= int_of_json.
Definition float_field (items : list (string * json)) (k : string) : option float :=
  j ← dict_get items k; match float_of_json j with Ok x => Some x | Raise _ => None end.

(** The body of the [try]; whatever goes wrong is a malformed anchor. *)
Definition read_anchor (payload : string) : option WormAnchor :=
  data ← loads payload;
  match data with
  | JObj d =>
      anchor_id ← text_field d "anchor_id"; segment_id ← text_field d "segment_id";
      tenant_id ← text_field d "tenant_id"; merkle_root ← text_field d "merkle_root" ≫= fromhex;
      tree_size ← int_field d "tree_size"; first_seq ← int_field d "first_seq"; last_seq ← int_field d "last_seq";
      sealed_at ← float_field d "sealed_at"; root_signature ← text_field d "root_signature" ≫= fromhex;
      signer_key_id ← text_field d "signer_key_id";
      match mk_WormAnchor anchor_id segment_id tenant_id merkle_root tree_size first_seq last_seq sealed_at
              root_signature signer_key_id with
      | Ok a => Some a
      | Raise _ => None
      end
  | _ => None
  end.

Definition anchor_from_json (payload : string) : res WormAnchor :=
  match read_anchor payload with Some a => Ok a | None => Raise EvidenceIntegrityError end.

(** [anchor_id.replace(":", "__").replace("/", "_")]. *)
Fixpoint safe_name (s : string) : string :=
  match s with
  | EmptyString => EmptyString
  | String c s' =>
      (if Ascii.eqb c ":" then "__" else if Ascii.eqb c "/" then "_" else String c EmptyString) +:+ safe_name s'
  end.

Definition file_name (anchor_id : string) : string := safe_name anchor_id +:+ ".json".

(** ** [FilesystemWormAnchorStore] *)

(** What a file holds: a text, bytes that are not UTF-8, or what the process
    may not read. *)
Inductive content := Content (text : string) | Undecodable | Unreadable.

(** What happens to one [put]: nothing; the file cannot be created; the write
    fails, leaving it empty; the write is short, leaving the first characters or
    the first half of one; a sync or the change of mode fails after the write. *)
Inductive disk_fault :=
| NoDiskFault
| CannotCreate
| WriteFails
| ShortWrite (written : nat) (splits : bool)
| SyncFails.

(** The files other processes create between the look at the path and the
    [open], and the fault. *)
Record disk_moment := { dm_created : list (string * content); dm_fault : disk_fault }.

Record Filesystem := { fs_files : gmap string content; fs_moments : list disk_moment }.

Definition fs_init (moments : list disk_moment) : Filesystem := {| fs_files := ∅; fs_moments := moments |}.

(** The name is one component below the root, so without symbolic links it
    never resolves outside. *)
Definition fs_get (fs : Filesystem) (anchor_id : string) : res (option WormAnchor) :=
  match fs_files fs !! file_name anchor_id with
  | None => Ok None
  | Some Unreadable => Raise EvidenceIntegrityError
  | Some Undecodable => Raise (PyException "UnicodeDecodeError")
  | Some (Content text) => a ← anchor_from_json text; Ok (Some a)
  end.

Definition with_file (fs : Filesystem) (name : string) (c : content) : Filesystem :=
  {| fs_files := <[name := c]> (fs_files fs); fs_moments := fs_moments fs |}.

Definition next_fault (fs : Filesystem) : disk_fault :=
  match fs_moments fs with m :: _ => dm_fault m | [] => NoDiskFault end.

(** The directory when the [open] is reached: other processes create files too,
    and replace none. *)
Definition create_new (files : gmap string content) (new : string * content) : gmap string content :=
  match files !! new.1 with Some _ => files | None => <[new.1 := new.2]> files end.
Definition meanwhile (fs : Filesystem) : Filesystem :=
  {| fs_files := foldl create_new (fs_files fs) (match fs_moments fs with m :: _ => dm_created m | [] => [] end);
     fs_moments := tl (fs_moments fs) |}.

Definition fs_put (root_uri : string) (fs : Filesystem) (anchor : WormAnchor) : res string * Filesystem :=
  let name := file_name (wa_anchor_id anchor) in
  let uri := root_uri +:+ "/" +:+ name in
  let payload := anchor_to_json anchor in
  let fs1 := meanwhile fs in
  match fs_files fs !! name with
  | Some _ =>
      match fs_get fs1 (wa_anchor_id anchor) with
      | Raise e => (Raise e, fs1)
      | Ok (Some existing) => if anchor_eqb existing anchor then (Ok uri, fs1) else (Raise EvidenceWriteError, fs1)
      | Ok None => (Raise EvidenceWriteError, fs1)
      end
  | None =>
      match fs_files fs1 !! name with
      | Some _ => (Raise EvidenceWriteError, fs1)  (* [O_EXCL]: FileExistsError *)
      | None =>
          match next_fault fs with
          | NoDiskFault => (Ok uri, with_file fs1 name (Content payload))
          | CannotCreate => (Raise EvidenceWriteError, fs1)
          | WriteFails => (Raise EvidenceWriteError, with_file fs1 name (Content ""))
          | ShortWrite n splits =>
              (* the number of bytes [os.write] returns is not looked at *)
              (Ok uri, with_file fs1 name (if splits then Undecodable else Content (String.substring 0 n payload)))
          | SyncFails => (Raise EvidenceWriteError, with_file fs1 name (Content payload))
          end
      end
  end.

(** [sorted(root.glob("*.json"))]. *)
Definition sorted_files (fs : Filesystem) : list (string * content) :=
  sort_by fst (List.filter (fun kv => String.eqb (String.substring (String.length kv.1 - 5) 5 kv.1) ".json")
                 (map_to_list (fs_files fs))).

Definition read_file (c : content) : res WormAnchor :=
  match c with
  | Unreadable => Raise EvidenceIntegrityError
  | Undecodable => Raise (PyException "UnicodeDecodeError")
  | Content text => anchor_from_json text
  end.

Definition fs_list (fs : Filesystem) (segment_id : string) : res (list WormAnchor) :=
  anchors ← res_map (fun kv : string * content => read_file kv.2) (sorted_files fs);
  Ok (sort_anchors (List.filter (fun a => (wa_segment_id a =? segment_id)%string) anchors)).

(** ** [S3WormAnchorStore] *)

(** An exception of the SDK: the code of its response, if it has one, and its class. *)
Record sdk_error := { se_response_code : option string; se_class : string }.

Definition error_code (e : sdk_error) : string :=
  match se_response_code e with
  | Some code => if (code =? "")%string then se_class e else code
  | None => se_class e
  end.

Definition NOT_FOUND_CODES : list string := ["NoSuchKey"; "404"].
Definition CONFLICT_CODES : list string := ["PreconditionFailed"; "412"].

(** One page of a listing: its keys, [IsTruncated], [NextContinuationToken]. *)
Record page := { pg_keys : list string; pg_truncated : bool; pg_next : option string }.

(** The client of one bucket.  A body is the text it decodes to, or [None];
    [others] is what other writers do before the next request. *)
Class S3Client (B : Type) := {
  get_object : B -> string -> sdk_error + option string;
  put_object : B -> string -> string -> string -> Z -> option sdk_error * B;
  list_objects_v2 : B -> string -> option string -> sdk_error + page;
  others : B -> B
}.

Record S3Store (B : Type) := {
  s3_client : B;
  s3_bucket : string;
  s3_prefix : string;
  s3_retention_days : Z;
  s3_retention_mode : string
}.
Arguments s3_client {B}.
Arguments s3_bucket {B}.
Arguments s3_prefix {B}.
Arguments s3_retention_days {B}.
Arguments s3_retention_mode {B}.

Definition mk_S3Store {B} (client : B) (bucket prefix : string) (retention_days : Z) (retention_mode : string)
    : res (S3Store B) :=
  _ ← raise_if (negb (bool_decide (retention_mode ∈ ["COMPLIANCE"; "GOVERNANCE"]))) EvidenceWriteError;
  Ok {| s3_client := client; s3_bucket := bucket; s3_prefix := prefix; s3_retention_days := retention_days;
        s3_retention_mode := retention_mode |}.

(** [datetime.fromtimestamp(x, tz=utc)] in microseconds, halves to even. *)
Definition microseconds (x : float) : option Z :=
  match x with
  | S754_zero _ => Some 0%Z
  | S754_finite s m e =>
      let num := (Zpos m * 1000000 * (if 0 <=? e then 2 ^ e else 1))%Z in
      let den := (if 0 <=? e then 1 else 2 ^ (- e))%Z in
      let q := (num / den)%Z in
      let r := (num mod den)%Z in
      let z := if (2 * r <? den)%Z then q else if (den <? 2 * r)%Z then (q + 1)%Z
               else if Z.even q then q else (q + 1)%Z in
      Some (if s then (- z)%Z else z)
  | _ => None
  end.

(** The last microsecond of the year 9999. *)
Definition MAX_DATETIME : Z := 253402300799999999.
Definition DAY : Z := 86400000000.

(** Adding the retention days; [timedelta] and the sum overflow. *)
Definition retain_until (sealed_at : float) (days : Z) : res Z :=
  match microseconds sealed_at with
  | None => Raise PyValueError
  | Some t =>
      if (999999999 <? Z.abs days)%Z || (MAX_DATETIME <? t + days * DAY)%Z || (t + days * DAY <? -62135596800000000)%Z
      then Raise (PyException "OverflowError") else Ok (t + days * DAY)%Z
  end.

Section s3.
Context {B : Type} `{S3Client B}.

Definition key_for (s : S3Store B) (anchor_id : string) : string := s3_prefix s +:+ file_name anchor_id.

Definition s3_get (s : S3Store B) (anchor_id : string) : res (option WormAnchor) :=
  match get_object (s3_client s) (key_for s anchor_id) with
  | inl e => if bool_decide (error_code e ∈ NOT_FOUND_CODES) then Ok None else Raise EvidenceIntegrityError
  | inr None => Raise (PyException "UnicodeDecodeError")
  | inr (Some body) => a ← anchor_from_json body; Ok (Some a)
  end.

Definition with_client (s : S3Store B) (b : B) : S3Store B :=
  {| s3_client := b; s3_bucket := s3_bucket s; s3_prefix := s3_prefix s;
     s3_retention_days := s3_retention_days s; s3_retention_mode := s3_retention_mode s |}.

Definition s3_put (s : S3Store B) (anchor : WormAnchor) : res string * S3Store B :=
  let key := key_for s (wa_anchor_id anchor) in
  let locator := "s3://" +:+ s3_bucket s +:+ "/" +:+ key in
  match s3_get s (wa_anchor_id anchor) with
  | Raise e => (Raise e, s)
  | Ok (Some existing) => if anchor_eqb existing anchor then (Ok locator, s) else (Raise EvidenceWriteError, s)
  | Ok None =>
      match retain_until (wa_sealed_at anchor) (s3_retention_days s) with
      | Raise e => (Raise e, s)
      | Ok date =>
          match put_object (others (s3_client s)) key (anchor_to_json anchor) (s3_retention_mode s) date with
          | (None, b) => (Ok locator, with_client s b)
          | (Some e, b) =>
              if bool_decide (error_code e ∈ CONFLICT_CODES) then
                let s' := with_client s (others b) in
                match s3_get s' (wa_anchor_id anchor) with
                | Raise e => (Raise e, s')
                | Ok (Some existing) =>
                    if anchor_eqb existing anchor then (Ok locator, s') else (Raise EvidenceWriteError, s')
                | Ok None => (Ok locator, s')
                end
              else (Raise EvidenceWriteError, with_client s b)
          end
      end
  end.

(** The objects of one page that belong to the segment. *)
Definition read_object (s : S3Store B) (key : string) : res WormAnchor :=
  match get_object (s3_client s) key with
  | inr (Some body) => anchor_from_json body
  | _ => Raise EvidenceIntegrityError
  end.

(** The loop over the pages, at most [pages] of them; [None] is a listing that
    goes on. *)
Fixpoint list_pages (s : S3Store B) (pages : nat) (token : option string) : option (res (list WormAnchor)) :=
  match pages with
  | O => None
  | S n =>
      match list_objects_v2 (s3_client s) (s3_prefix s) token with
      | inl _ => Some (Raise EvidenceIntegrityError)
      | inr p =>
          match res_map (read_object s) (pg_keys p) with
          | Raise e => Some (Raise e)
          | Ok anchors =>
              if pg_truncated p then
                match pg_next p with
                | None => Some (Raise EvidenceIntegrityError)
                | Some t => option_map (fun r => rest ← r; Ok (anchors ++ rest)) (list_pages s n (Some t))
                end
              else Some (Ok anchors)
          end
      end
  end.

Definition s3_list (s : S3Store B) (pages : nat) (segment_id : string) : option (res (list WormAnchor)) :=
  option_map (fun r => anchors ← r; Ok (sort_anchors (List.filter (fun a => (wa_segment_id a =? segment_id)%string) anchors)))
    (list_pages s pages None).
End s3.

(** ** An anchor is read back as it was written *)

Lemma fromhex_hex l : fromhex (bytes_hex l) = Some l.
Proof.
  induction l as [|b l IH]; [done|]. cbn [bytes_hex]. unfold hex2. cbn [String.append].
  assert (forall t, fromhex (String (hex_digit (Byte.to_N b / 16)) (String (hex_digit (Byte.to_N b mod 16)) t))
                    = (rest ← fromhex t; Some (b :: rest))) as ->; [|by rewrite IH].
  intros t. by destruct b.
Qed.

(** An anchor some constructor call made, whose time has a decimal literal. *)
Definition anchor_valid (a : WormAnchor) : Prop :=
  mk_WormAnchor (wa_anchor_id a) (wa_segment_id a) (wa_tenant_id a) (wa_merkle_root a) (wa_tree_size a)
    (wa_first_seq a) (wa_last_seq a) (wa_sealed_at a) (wa_root_signature a) (wa_signer_key_id a) = Ok a /\
  repr_found (wa_sealed_at a) = true.

Lemma anchor_valid_finite a : anchor_valid a -> isfinite (wa_sealed_at a) = true.
Proof.
  intros [H _]. unfold mk_WormAnchor in H. inv_ok.
  rename select (require_timestamp _ _ = Ok _) into Ht. by apply require_timestamp_ok in Ht as (_ & ? & _).
Qed.

Lemma sorted_anchor a : sort_keys (anchor_json a) =
  JObj [("anchor_id", JStr (wa_anchor_id a)); ("first_seq", JInt (wa_first_seq a)); ("last_seq", JInt (wa_last_seq a));
        ("merkle_root", JStr (bytes_hex (wa_merkle_root a))); ("root_signature", JStr (bytes_hex (wa_root_signature a)));
        ("sealed_at", JFloat (wa_sealed_at a)); ("segment_id", JStr (wa_segment_id a));
        ("signer_key_id", JStr (wa_signer_key_id a)); ("tenant_id", JStr (wa_tenant_id a)); ("tree_size", JInt (wa_tree_size a))].
Proof. reflexivity. Qed.

Lemma anchor_reads_back a : anchor_valid a -> anchor_from_json (anchor_to_json a) = Ok a.
Proof.
  intros Ha. pose proof (anchor_valid_finite a Ha) as Hfin. destruct Ha as [Hmk Hrepr].
  unfold anchor_from_json, read_anchor, anchor_to_json, dumps.
  rewrite (loads_print canonical_config "" ""); [|done..| |];
    rewrite sorted_anchor; [|cbn [floats_ok forallb snd]; by rewrite Hfin, Hrepr|done].
  unfold text_field, int_field, float_field. cbn -[mk_WormAnchor fromhex bytes_hex]. rewrite !fromhex_hex.
  cbn -[mk_WormAnchor]. by rewrite Hmk.
Qed.

(** ** Write-once stores *)

Lemma anchor_eqb_eq a b : anchor_eqb a b = true <->
  wa_anchor_id a = wa_anchor_id b /\ wa_segment_id a = wa_segment_id b /\ wa_tenant_id a = wa_tenant_id b /\
  wa_merkle_root a = wa_merkle_root b /\ wa_tree_size a = wa_tree_size b /\ wa_first_seq a = wa_first_seq b /\
  wa_last_seq a = wa_last_seq b /\ feq (wa_sealed_at a) (wa_sealed_at b) = true /\
  wa_root_signature a = wa_root_signature b /\ wa_signer_key_id a = wa_signer_key_id b.
Proof.
  unfold anchor_eqb. rewrite !andb_true_iff, !String.eqb_eq, !Z.eqb_eq, !bool_decide_eq_true. tauto.
Qed.

Lemma anchor_eqb_sym a b : anchor_eqb a b = true -> anchor_eqb b a = true.
Proof. rewrite !anchor_eqb_eq, !feq_spec. intuition congruence. Qed.

Lemma anchor_eqb_refl a : anchor_valid a -> anchor_eqb a a = true.
Proof.
  intros Hf%anchor_valid_finite%isfinite_nan. apply anchor_eqb_eq. rewrite feq_spec. done.
Qed.

(** What a write-once store promises, while it is [intact]: a put that returns
    is read back, and what is read stays what it is, whatever is put later. *)
Class WriteOnce (W : Type) `{AnchorStore W} := {
  intact : W -> Prop;
  put_intact : forall w a r w', intact w -> worm_put w a = (r, w') -> intact w';
  put_reads : forall w a loc w', intact w -> anchor_valid a -> worm_put w a = (Ok loc, w') ->
    exists x, worm_get w' (wa_anchor_id a) = Ok (Some x) /\ anchor_eqb x a = true;
  read_stays : forall w a r w' id x, worm_put w a = (r, w') -> worm_get w id = Ok (Some x) ->
    exists y, worm_get w' id = Ok (Some y) /\ (y = x \/ anchor_eqb y x = true)
}.

Section write_once.
Context {W : Type} `{WriteOnce W}.

(** A run of puts: what each returned, and the store at the end. *)
Fixpoint run_puts (w : W) (l : list WormAnchor) : list (WormAnchor * res string) * W :=
  match l with
  | [] => ([], w)
  | a :: l' => let '(r, w1) := worm_put w a in let '(rs, w2) := run_puts w1 l' in ((a, r) :: rs, w2)
  end.

Lemma run_keeps w l id x a :
  worm_get w id = Ok (Some x) -> anchor_eqb x a = true ->
  exists y, worm_get (run_puts w l).2 id = Ok (Some y) /\ anchor_eqb y a = true.
Proof.
  revert w x. induction l as [|b l IH]; intros w x Hx Ha; cbn [run_puts]; [by exists x|].
  destruct (worm_put w b) as [r w1] eqn:Hp. destruct (read_stays _ _ _ _ _ _ Hp Hx) as (y & Hy & Hxy).
  specialize (IH w1 y Hy). destruct (run_puts w1 l) as [rs w2]. apply IH.
  destruct Hxy as [->|Hxy]; [done|]. by eapply anchor_eqb_trans.
Qed.

Lemma run_puts_app w l1 l2 : (run_puts w (l1 ++ l2)).2 = (run_puts (run_puts w l1).2 l2).2.
Proof.
  revert w. induction l1 as [|a l1 IH]; intros w; cbn [run_puts app]; [done|].
  destruct (worm_put w a) as [r w1]. specialize (IH w1). by destruct (run_puts w1 (l1 ++ l2)), (run_puts w1 l1).
Qed.

(** An anchor that was stored is read back at the end of the run, and whatever
    else was stored under its identifier equals it. *)
Lemma run_write_once w l rs w' :
  intact w -> Forall anchor_valid l -> run_puts w l = (rs, w') ->
  forall a loc, (a, Ok loc) ∈ rs ->
    exists x, worm_get w' (wa_anchor_id a) = Ok (Some x) /\ anchor_eqb x a = true.
Proof.
  intros Hw HF. revert w Hw rs w'. induction HF as [|b l Hb HF IH]; intros w Hw rs w' Hrun a loc Hin; cbn [run_puts] in Hrun.
  { injection Hrun as <- <-. by apply not_elem_of_nil in Hin. }
  destruct (worm_put w b) as [r w1] eqn:Hp. destruct (run_puts w1 l) as [rs' w2] eqn:Hr. injection Hrun as <- <-.
  apply elem_of_cons in Hin as [[= <- <-]|Hin].
  - destruct (put_reads _ _ _ _ Hw Hb Hp) as (x & Hx & Ha).
    pose proof (run_keeps w1 l _ _ _ Hx Ha) as Hk. by rewrite Hr in Hk.
  - eapply (IH w1); [by eapply put_intact|done|done].
Qed.

Lemma run_same_id w l rs w' a b loc loc' :
  intact w -> Forall anchor_valid l -> run_puts w l = (rs, w') ->
  (a, Ok loc) ∈ rs -> (b, Ok loc') ∈ rs -> wa_anchor_id a = wa_anchor_id b -> anchor_eqb a b = true.
Proof.
  intros Hw HF Hr Ha Hb Hid. destruct (run_write_once _ _ _ _ Hw HF Hr _ _ Ha) as (x & Hx & Hxa).
  destruct (run_write_once _ _ _ _ Hw HF Hr _ _ Hb) as (y & Hy & Hyb). rewrite Hid, Hy in Hx. injection Hx as <-.
  eapply anchor_eqb_trans; [by apply anchor_eqb_sym|done].
Qed.
End write_once.

(** *** Files *)

Definition fs_store (root_uri : string) : AnchorStore Filesystem :=
  {| worm_put := fs_put root_uri; worm_get := fs_get; worm_list := fs_list |}.

Definition not_short (m : disk_moment) : bool := match dm_fault m with ShortWrite _ _ => false | _ => true end.

Lemma create_new_keeps l files name c : files !! name = Some c -> foldl create_new files l !! name = Some c.
Proof.
  revert files. induction l as [|[n x] l IH]; intros files Hc; cbn [foldl]; [done|]. apply IH. unfold create_new. cbn.
  destruct (files !! n) eqn:E; [done|]. rewrite lookup_insert_ne; [done|]. by intros ->; rewrite E in Hc.
Qed.

Lemma meanwhile_keeps fs name c : fs_files fs !! name = Some c -> fs_files (meanwhile fs) !! name = Some c.
Proof. apply create_new_keeps. Qed.

Lemma fs_put_cases root fs a r fs' :
  fs_put root fs a = (r, fs') ->
  fs_moments fs' = tl (fs_moments fs) /\
  (fs_files fs' = fs_files (meanwhile fs) \/
   exists c, fs_files (meanwhile fs) !! file_name (wa_anchor_id a) = None /\
     fs_files fs' = <[file_name (wa_anchor_id a) := c]> (fs_files (meanwhile fs))).
Proof.
  unfold fs_put. destruct (fs_files fs !! _) as [c|] eqn:E.
  - destruct (fs_get _ _) as [[x|]|]; [destruct (anchor_eqb x a)| |]; intros [= <- <-]; split; eauto.
  - destruct (fs_files (meanwhile fs) !! _) eqn:E1; [intros [= <- <-]; split; eauto|].
    destruct (next_fault fs); intros [= <- <-]; split; eauto.
Qed.

(** A put keeps the files that were there when it got to the [open]. *)
Lemma fs_put_keeps root fs a name c :
  fs_files (meanwhile fs) !! name = Some c -> fs_files (fs_put root fs a).2 !! name = Some c.
Proof.
  destruct (fs_put root fs a) as [r fs'] eqn:Hp. cbn [snd]. apply fs_put_cases in Hp as [_ [->|(c' & Hn & ->)]]; [done|].
  intros Hc. cbn. rewrite lookup_insert_ne; [done|]. by intros <-; rewrite Hn in Hc.
Qed.

Lemma fs_run_keeps root l fs name c :
  fs_files fs !! name = Some c -> fs_files (@run_puts Filesystem (fs_store root) fs l).2 !! name = Some c.
Proof.
  revert fs. induction l as [|a l IH]; intros fs Hc; cbn [run_puts]; [done|].
  pose proof (fs_put_keeps root fs a _ _ (meanwhile_keeps _ _ _ Hc)) as Hp. cbn [worm_put fs_store].
  destruct (fs_put root fs a) as [r fs1]. specialize (IH fs1 Hp). by destruct (run_puts fs1 l).
Qed.

(** Reading depends on the one file. *)
Lemma fs_get_file fs fs' id x :
  (forall name c, fs_files fs !! name = Some c -> fs_files fs' !! name = Some c) ->
  fs_get fs id = Ok (Some x) -> fs_get fs' id = Ok (Some x).
Proof.
  intros Hk. unfold fs_get. destruct (fs_files fs !! _) as [c|] eqn:E; [|done]. by rewrite (Hk _ _ E).
Qed.

Lemma fs_get_stays root fs a r fs' id x :
  fs_put root fs a = (r, fs') -> fs_get fs id = Ok (Some x) -> fs_get fs' id = Ok (Some x).
Proof.
  intros Hp. apply fs_get_file. intros name c Hc. pose proof (fs_put_keeps root fs a _ _ (meanwhile_keeps _ _ _ Hc)) as Hk.
  by rewrite Hp in Hk.
Qed.

#[export] Instance fs_write_once root_uri : @WriteOnce Filesystem (fs_store root_uri).
Proof.
  refine (@Build_WriteOnce Filesystem (fs_store root_uri) (fun fs => Forall (fun m => not_short m = true) (fs_moments fs)) _ _ _).
  - intros w a r w' Hw Hp. apply fs_put_cases in Hp as [-> _]. by destruct Hw.
  - intros w a loc w' Hw Ha Hp. cbn in *. unfold fs_put in Hp.
    destruct (fs_files w !! file_name (wa_anchor_id a)) as [c|] eqn:E.
    + destruct (fs_get (meanwhile w) _) as [[x|]|] eqn:Ex; [destruct (anchor_eqb x a) eqn:Exa| |]; try done.
      injection Hp as _ <-. exists x. split; [exact Ex|done].
    + destruct (fs_files (meanwhile w) !! _) eqn:E1; [done|].
      assert (w' = with_file (meanwhile w) (file_name (wa_anchor_id a)) (Content (anchor_to_json a))) as ->.
      { unfold next_fault in Hp. destruct (fs_moments w) as [|[cr f] l]; [by injection Hp as _ <-|].
        apply Forall_cons in Hw as [Hf _]. destruct f; try done; by injection Hp as _ <-. }
      exists a. split; [|by apply anchor_eqb_refl]. unfold fs_get. cbn [with_file fs_files]. rewrite lookup_insert_eq.
      by rewrite anchor_reads_back.
  - intros w a r w' id x Hp Hx. exists x. split; [exact (fs_get_stays _ _ _ _ _ _ _ Hp Hx)|by left].
Defined.

(** C24.  Files are write-once.  In any run of puts of valid anchors, whose times
    have a decimal literal, on a directory, in which
    other processes may create files at any point, writes and syncs may fail,
    but no write is short: an anchor whose put returned is read back at the
    end, equal to what was put; two puts under the same identifier both return
    only if their anchors are equal; and whatever file is there when a put gets
    to its [open], also one another process created since the put looked, is
    there at the end with the same content.  (A short write is excluded: its
    put returns and the anchor is not readable.) *)
Theorem filesystem_is_write_once root_uri fs anchors :
  Forall (fun m => not_short m = true) (fs_moments fs) -> Forall anchor_valid anchors ->
  let run l := @run_puts Filesystem (fs_store root_uri) fs l in
  (forall a uri, (a, Ok uri) ∈ (run anchors).1 ->
     exists x, fs_get (run anchors).2 (wa_anchor_id a) = Ok (Some x) /\ anchor_eqb x a = true) /\
  (forall a b uri uri', (a, Ok uri) ∈ (run anchors).1 -> (b, Ok uri') ∈ (run anchors).1 ->
     wa_anchor_id a = wa_anchor_id b -> anchor_eqb a b = true) /\
  (forall before a after name c, anchors = before ++ a :: after ->
     (fs_files (run before).2 !! name = Some c \/ fs_files (meanwhile (run before).2) !! name = Some c) ->
     fs_files (run anchors).2 !! name = Some c).
Proof.
  intros Hf Ha run. destruct (run anchors) as [results fs'] eqn:Hr. cbn [fst snd]. split_and!.
  - intros a uri. exact (@run_write_once Filesystem _ (fs_write_once root_uri) fs anchors results fs' Hf Ha Hr a uri).
  - intros a b uri uri'. exact (@run_same_id Filesystem _ (fs_write_once root_uri) fs anchors results fs' a b uri uri' Hf Ha Hr).
  - intros before a after name c -> Hc.
    assert (Hm : fs_files (meanwhile (run before).2) !! name = Some c) by (destruct Hc; [by apply meanwhile_keeps|done]).
    apply (fs_put_keeps root_uri _ a) in Hm. apply (fs_run_keeps root_uri after) in Hm.
    change fs' with (results, fs').2. rewrite <-Hr. unfold run in *. rewrite run_puts_app.
    cbn [run_puts worm_put fs_store]. destruct (fs_put _ _ a) as [r fs1]. cbn [snd] in Hm. by destruct (run_puts fs1 after).
Qed.

(** *** Objects *)

(** What S3 documents: a successful write is read by every later read; an
    object under Object Lock is not changed, by a conditional write or by
    others; a conditional write is refused only where there is an object. *)
Class S3Laws (B : Type) `{S3Client B} := {
  put_then_get : forall b k body mode date b', put_object b k body mode date = (None, b') -> get_object b' k = inr (Some body);
  put_keeps_objects : forall b k body mode date r b' k' o, put_object b k body mode date = (r, b') ->
    get_object b k' = inr o -> get_object b' k' = inr o;
  conflict_is_present : forall b k body mode date e b', put_object b k body mode date = (Some e, b') ->
    error_code e ∈ CONFLICT_CODES -> exists o, get_object b' k = inr o;
  others_keep : forall b k o, get_object b k = inr o -> get_object (others b) k = inr o
}.

Definition s3_store {B} `{S3Client B} (pages : nat) : AnchorStore (S3Store B) :=
  {| worm_put := s3_put; worm_get := s3_get;
     worm_list s sid := default (Raise EvidenceIntegrityError) (s3_list s pages sid) |}.

Section s3_theorems.
Context {B : Type} `{S3Laws B}.

Lemma s3_get_some (s : S3Store B) id x :
  s3_get s id = Ok (Some x) <->
  exists body, get_object (s3_client s) (key_for s id) = inr (Some body) /\ anchor_from_json body = Ok x.
Proof.
  unfold s3_get. destruct (get_object _ _) as [e|[body|]].
  - destruct (bool_decide _); split; try done; by intros (? & ? & ?).
  - split; [|by intros (? & [= <-] & ->)]. intros H1. apply bind_ok in H1 as (a & Ha & [= <-]). eauto.
  - split; [done|]. by intros (? & ? & ?).
Qed.

(** Objects stay under every put, and so do the settings of the store. *)
Lemma s3_put_keeps (s s' : S3Store B) a r :
  s3_put s a = (r, s') ->
  (forall id, key_for s' id = key_for s id) /\
  (forall k o, get_object (s3_client s) k = inr o -> get_object (s3_client s') k = inr o).
Proof.
  unfold s3_put. destruct (s3_get s _) as [[x|]|]; [destruct (anchor_eqb x a); by intros [= <- <-]| |by intros [= <- <-]].
  destruct (retain_until _ _) as [date|]; [|by intros [= <- <-]].
  destruct (put_object _ _ _ _ _) as [[e|] b] eqn:Hp.
  - assert (forall k o, get_object (s3_client s) k = inr o -> get_object b k = inr o) as Hb
      by (intros k o Ho; eapply put_keeps_objects, others_keep; done).
    destruct (bool_decide _).
    + assert (forall k o, get_object (s3_client s) k = inr o -> get_object (others b) k = inr o) as Hb'
        by (intros k o Ho; by apply others_keep, Hb).
      destruct (s3_get _ _) as [[x|]|]; [destruct (anchor_eqb x a)| |]; by intros [= <- <-].
    + by intros [= <- <-].
  - intros [= <- <-]. split; [done|]. intros k o Ho. eapply put_keeps_objects, others_keep; done.
Qed.

Lemma s3_put_reads (s s' : S3Store B) a loc :
  anchor_valid a -> s3_put s a = (Ok loc, s') ->
  exists x, s3_get s' (wa_anchor_id a) = Ok (Some x) /\ anchor_eqb x a = true.
Proof.
  intros Ha. unfold s3_put. destruct (s3_get s _) as [[x|]|] eqn:Ex; [| |done].
  { destruct (anchor_eqb x a) eqn:E; [|done]. intros [= _ <-]. eauto. }
  destruct (retain_until _ _) as [date|]; [|done]. destruct (put_object _ _ _ _ _) as [[e|] b] eqn:Hp.
  - destruct (bool_decide _) eqn:Ec; [|done]. apply bool_decide_eq_true in Ec.
    destruct (s3_get (with_client s (others b)) _) as [[x|]|] eqn:E; [| |done].
    { destruct (anchor_eqb x a) eqn:Exa; [|done]. intros [= _ <-]. eauto. }
    exfalso. destruct (conflict_is_present _ _ _ _ _ _ _ Hp Ec) as [o Ho%others_keep].
    unfold s3_get in E. cbn [with_client s3_client key_for] in E. unfold key_for in *. cbn [with_client s3_prefix] in E.
    rewrite Ho in E. destruct o; [|done]. by apply bind_ok in E as (? & _ & ?).
  - intros [= _ <-]. exists a. split; [|by apply anchor_eqb_refl]. apply s3_get_some.
    exists (anchor_to_json a). split; [|by apply anchor_reads_back]. by apply put_then_get in Hp.
Qed.

#[export] Instance s3_write_once pages : @WriteOnce (S3Store B) (s3_store pages).
Proof.
  refine (@Build_WriteOnce (S3Store B) (s3_store pages) (fun _ => True) _ _ _).
  - done.
  - intros w a loc w' _. apply s3_put_reads.
  - intros w a r w' id x Hp Hx. exists x. split; [|by left]. cbn in *. apply s3_put_keeps in Hp as [Hk Hp].
    apply s3_get_some in Hx as (body & Hb & Hx). apply s3_get_some. exists body. rewrite Hk. eauto.
Defined.

(** Objects are write-once.  Over a bucket with S3's documented
    behaviour, whatever other writers do between the requests: an anchor whose
    put returned is read back at the end of any run of puts, equal to what was
    put, and two puts under the same identifier both return only if their
    anchors are equal. *)
Theorem s3_is_write_once (s : S3Store B) anchors :
  Forall anchor_valid anchors ->
  let '(results, s') := @run_puts (S3Store B) (s3_store 0) s anchors in
  (forall a loc, (a, Ok loc) ∈ results -> exists x, s3_get s' (wa_anchor_id a) = Ok (Some x) /\ anchor_eqb x a = true) /\
  (forall a b loc loc', (a, Ok loc) ∈ results -> (b, Ok loc') ∈ results -> wa_anchor_id a = wa_anchor_id b ->
     anchor_eqb a b = true).
Proof.
  intros Ha. destruct (run_puts s anchors) as [results s'] eqn:Hr. split.
  - intros a loc. exact (@run_write_once (S3Store B) _ (s3_write_once 0) s anchors results s' I Ha Hr a loc).
  - intros a b loc loc'. exact (@run_same_id (S3Store B) _ (s3_write_once 0) s anchors results s' a b loc loc' I Ha Hr).
Qed.
End s3_theorems.

(** ** Runs on concrete anchors *)

Definition file_anchor (id : string) (last : Z) : WormAnchor :=
  {| wa_anchor_id := id; wa_segment_id := "t1:2024"; wa_tenant_id := "t1"; wa_merkle_root := repeat x01 32;
     wa_tree_size := (last + 1)%Z; wa_first_seq := 0; wa_last_seq := last; wa_sealed_at := fz 1700000000;
     wa_root_signature := repeat x02 32; wa_signer_key_id := "k1" |}.

Example anchor_text :
  anchor_from_json (anchor_to_json (file_anchor "t1:2024:0-4" 4)) = Ok (file_anchor "t1:2024:0-4" 4).
Proof. vm_compute. reflexivity. Qed.

Definition alone (f : disk_fault) : disk_moment := {| dm_created := []; dm_fault := f |}.

(** The first put fails to sync, the second finds the file and returns, the
    third, of another anchor, is refused; the fourth loses the race for its
    file. *)
Definition file_puts : list WormAnchor :=
  [file_anchor "t1:2024:0-4" 4; file_anchor "t1:2024:0-4" 4; file_anchor "t1:2024:0-4" 7;
   file_anchor "a:b" 4].
Definition file_disk : Filesystem :=
  fs_init [alone SyncFails; alone NoDiskFault; alone NoDiskFault;
           {| dm_created := [("a__b.json", Content "theirs")]; dm_fault := NoDiskFault |}].
Definition file_run := @run_puts Filesystem (fs_store "file:///a") file_disk file_puts.

Lemma file_puts_valid : Forall anchor_valid file_puts.
Proof. repeat apply List.Forall_cons; [..|apply List.Forall_nil]; split; vm_compute; reflexivity. Qed.

Lemma filesystem_is_write_once_witness :
  map snd file_run.1 = [Raise EvidenceWriteError; Ok "file:///a/t1__2024__0-4.json"; Raise EvidenceWriteError;
                        Raise EvidenceWriteError] /\
  fs_files file_run.2 !! "a__b.json" = Some (Content "theirs") /\
  exists x, fs_get file_run.2 "t1:2024:0-4" = Ok (Some x) /\ anchor_eqb x (file_anchor "t1:2024:0-4" 4) = true.
Proof.
  split; [vm_compute; reflexivity|].
  destruct (filesystem_is_write_once "file:///a" file_disk file_puts ltac:(repeat constructor) file_puts_valid)
    as (Hput & _ & Hkept).
  split.
  - apply (Hkept (take 3 file_puts) (file_anchor "a:b" 4) [] "a__b.json" (Content "theirs") eq_refl). right.
    vm_compute. reflexivity.
  - apply (Hput (file_anchor "t1:2024:0-4" 4) "file:///a/t1__2024__0-4.json").
    assert (file_run.1 !! 1%nat = Some (file_anchor "t1:2024:0-4" 4, Ok "file:///a/t1__2024__0-4.json")) as Hl
      by (vm_compute; reflexivity).
    by eapply list_elem_of_lookup_2.
Defined.

(** Two identifiers may share a file: the second anchor is refused. *)
Example colliding_names_are_refused :
  map snd (@run_puts _ (fs_store "file:///a") (fs_init []) [file_anchor "a:b" 4; file_anchor "a__b" 4]).1
  = [Ok "file:///a/a__b.json"; Raise EvidenceWriteError].
Proof. vm_compute. reflexivity. Qed.

(** A write that failed leaves an empty file, so the anchor can never be
    stored: every retry reports a malformed anchor. *)
Example failed_write_blocks_the_anchor :
  map snd (@run_puts _ (fs_store "file:///a") (fs_init [alone WriteFails])
             [file_anchor "a:b" 4; file_anchor "a:b" 4; file_anchor "a:b" 4]).1
  = [Raise EvidenceWriteError; Raise EvidenceIntegrityError; Raise EvidenceIntegrityError].
Proof. vm_compute. reflexivity. Qed.

(** A short write returns, and the anchor is not there to be read. *)
Example short_write_returns :
  let '(r, fs) := fs_put "file:///a" (fs_init [alone (ShortWrite 20 false)]) (file_anchor "a:b" 4) in
  r = Ok "file:///a/a__b.json" /\ fs_get fs "a:b" = Raise EvidenceIntegrityError.
Proof. vm_compute. split; reflexivity. Qed.

(** One corrupt file hides the anchors of every segment from [list_for_segment];
    one that is not UTF-8 raises what the port does not name. *)
Example corrupt_file_hides_all :
  let fs c := {| fs_files := {[ file_name "a:b" := Content (anchor_to_json (file_anchor "a:b" 4)); "z.json" := c ]};
                 fs_moments := [] |} in
  fs_list (fs (Content "{")) "t1:2024" = Raise EvidenceIntegrityError /\
  fs_list (fs Undecodable) "t1:2024" = Raise (PyException "UnicodeDecodeError") /\
  fs_get (fs Undecodable) "z" = Raise (PyException "UnicodeDecodeError").
Proof. vm_compute. split_and!; reflexivity. Qed.

(** A bucket: its objects, and what another writer puts next. *)
Record Bucket := { bk_objects : gmap string string; bk_next : option (string * string) }.

Definition add_object (b : gmap string string) (k body : string) : gmap string string :=
  match b !! k with Some _ => b | None => <[k := body]> b end.

#[export] Instance bucket_client : S3Client Bucket := {|
  get_object b k := match bk_objects b !! k with
                    | Some body => inr (Some body)
                    | None => inl {| se_response_code := Some "NoSuchKey"; se_class := "ClientError" |}
                    end;
  put_object b k body _ _ :=
    match bk_objects b !! k with
    | Some _ => (Some {| se_response_code := Some "PreconditionFailed"; se_class := "ClientError" |}, b)
    | None => (None, {| bk_objects := <[k := body]> (bk_objects b); bk_next := bk_next b |})
    end;
  list_objects_v2 b _ _ := inr {| pg_keys := map fst (map_to_list (bk_objects b)); pg_truncated := false; pg_next := None |};
  others b := match bk_next b with
              | Some (k, body) => {| bk_objects := add_object (bk_objects b) k body; bk_next := None |}
              | None => b
              end
|}.

#[export] Instance bucket_laws : S3Laws Bucket.
Proof.
  split; cbn.
  - intros b k body _ _ b'. destruct (bk_objects b !! k); [done|]. intros [= <-]. cbn. by rewrite lookup_insert_eq.
  - intros b k body _ _ r b' k' o Hp Ho. destruct (bk_objects b !! k) eqn:Ek; injection Hp as _ <-; [done|]. cbn.
    destruct (decide (k = k')) as [->|]; [by rewrite Ek in Ho|]. by rewrite lookup_insert_ne.
  - intros b k body _ _ e b'. destruct (bk_objects b !! k) as [o|] eqn:Ek; [|done]. intros [= _ <-] _. rewrite Ek. eauto.
  - intros b k o Ho. destruct (bk_next b) as [[k' body]|]; [|done]. cbn. unfold add_object.
    destruct (bk_objects b !! k') eqn:Ek; [done|]. destruct (decide (k' = k)) as [->|]; [by rewrite Ek in Ho|].
    by rewrite lookup_insert_ne.
Qed.

(** Another writer stores the same anchor between the read and the write. *)
Definition raced_store : S3Store Bucket :=
  {| s3_client := {| bk_objects := ∅; bk_next := Some ("p/a__b.json", anchor_to_json (file_anchor "a:b" 4)) |};
     s3_bucket := "bucket"; s3_prefix := "p/"; s3_retention_days := 2555; s3_retention_mode := "COMPLIANCE" |}.
Definition object_puts : list WormAnchor := [file_anchor "a:b" 4; file_anchor "a:b" 7].
Definition object_run := @run_puts _ (s3_store 0) raced_store object_puts.

Lemma object_puts_valid : Forall anchor_valid object_puts.
Proof. repeat apply List.Forall_cons; [..|apply List.Forall_nil]; split; vm_compute; reflexivity. Qed.

Lemma s3_is_write_once_witness :
  map snd object_run.1 = [Ok "s3://bucket/p/a__b.json"; Raise EvidenceWriteError] /\
  exists x, s3_get object_run.2 "a:b" = Ok (Some x) /\ anchor_eqb x (file_anchor "a:b" 4) = true.
Proof.
  split; [vm_compute; reflexivity|].
  pose proof (s3_is_write_once raced_store object_puts object_puts_valid) as Hw.
  fold object_run in Hw. rewrite (surjective_pairing object_run) in Hw. destruct Hw as (Hw & _).
  apply (Hw (file_anchor "a:b" 4) "s3://bucket/p/a__b.json").
  assert (object_run.1 !! 0%nat = Some (file_anchor "a:b" 4, Ok "s3://bucket/p/a__b.json")) as Hl by (vm_compute; reflexivity).
  by eapply list_elem_of_lookup_2.
Defined.
