(* ===== verification/Maintenance.v ===== *)
(** * The maintenance run ([adapters/inbound/cli/maintenance.py])

    The scheduled job: top up the schema, warn about a backlog, and let the
    retention scheduler of [Sealer] work on the segments of the Postgres store
    that have retention work outstanding, with every statement free to fail. *)

From stdpp Require Import base tactics list strings gmap relations sorting.
From Stdlib Require Import ZArith Lia.
From S2P Require Import Prelude PyFloat PyStr Serialization Schema Config Signing Evidence EvidenceStore PgEvidence Sealer AnchorStores.

Open Scope string_scope.
Open Scope list_scope.

(** ** The Postgres store for the sealer

    What happens to each of its statements in one pass; a pass reads and writes
    each segment at most once in each of these ways. *)
Record pg_faults := {
  pf_state : string -> fault;
  pf_leaves : string -> option Z -> fault;
  pf_mark : string -> fault;
  pf_purge : string -> fault
}.

Definition pg_retention `{PgColumns} (bypassrls : bool) (pf : pg_faults) : RetentionStore Db := {|
  ret_state db sid := pg_segment_state (pf_state pf sid) db sid;
  ret_leaves db sid before := pg_segment_leaves bypassrls (pf_leaves pf sid before) db sid before;
  ret_mark_sealed db sid anchor loc := pg_mark_sealed bypassrls (pf_mark pf sid) db sid anchor loc;
  ret_purge_before db sid before := pg_purge_before bypassrls (pf_purge pf sid) db sid before
|}.

(** ** The queries *)

(** [retention_sealed_last_seq IS NULL OR purged_before_seq <= retention_sealed_last_seq]. *)
Definition outstanding (s : segment_row) : bool :=
  match sr_retention s with
  | None => true
  | Some rt => (sr_purged_before_seq s <=? rt_sealed_last_seq rt)%Z
  end.

(** [ORDER BY opened_at ASC]. *)
Fixpoint insert_segment (x : string * segment_row) (l : list (string * segment_row)) : list (string * segment_row) :=
  match l with
  | [] => [x]
  | y :: l' => if (sr_opened_at x.2 <=? sr_opened_at y.2)%Z then x :: l else y :: insert_segment x l'
  end.
Definition oldest_first (l : list (string * segment_row)) : list (string * segment_row) := foldr insert_segment [] l.

Definition candidates (db : Db) : list (string * segment_row) :=
  oldest_first (List.filter (fun x => outstanding x.2) (map_to_list (db_segments db))).

(** A negative [LIMIT] is an error of the database. *)
Definition fetch_segment_ids (f : fault) (db : Db) (limit : Z) : res (list string) :=
  if (limit <? 0)%Z then Raise EvidenceWriteError
  else reading f EvidenceWriteError (take (Z.to_nat limit) (map fst (candidates db))).

(** [max(0.0, now - opened_at)]. *)
Definition fetch_oldest_outstanding_segment_age_seconds (f : fault) (db : Db) (now : float) : res (option float) :=
  oldest ← reading f EvidenceWriteError (head (candidates db));
  Ok (match oldest with
      | None => None
      | Some (_, s) => let age := fsub now (as_epoch (sr_opened_at s)) in Some (if fgt age (fz 0) then age else fz 0)
      end).

(** The two figures of the warning. *)
Definition detect_stale_backlog (oldest_outstanding_age_seconds : option float) (staleness_threshold_seconds : float)
    : option (float * float) :=
  match oldest_outstanding_age_seconds with
  | None => None
  | Some age => if fle age staleness_threshold_seconds then None else Some (age, staleness_threshold_seconds)
  end.

(** ** One run *)

(** What the run finds around it: which statements work, and its clock, read
    for the backlog and for the pass. *)
Record circumstances := {
  ci_reachable : bool;
  ci_works : Z -> bool;
  ci_partitions_work : string -> bool;
  ci_year : Z;
  ci_month : Z;
  ci_backlog : fault;
  ci_select : fault;
  ci_pg : pg_faults;
  ci_now : float;
  ci_pass_now : float
}.

Record world (W : Type) := { wd_schema : schema; wd_db : Db; wd_anchors : W }.
Arguments wd_schema {W} _.
Arguments wd_db {W} _.
Arguments wd_anchors {W} _.

Section maintenance.
Context `{PgColumns} {S W : Type} `{MacSigner S} `{AnchorStore W}.
(** The role of the job, and the two [build_mac_signer]. *)
Context (bypassrls : bool) (local_signer kms_signer : GlassBoxConfig -> res S).

Definition build_signer (config : GlassBoxConfig) : res S :=
  if sc_allow_local_key (gc_signing config) then local_signer config else kms_signer config.

Definition default_staleness (seal_after_seconds purge_grace_seconds : float) : float :=
  fadd (fadd seal_after_seconds purge_grace_seconds) (fz (7 * 86400)).

(** The warning of [run] is its second result. *)
Definition maintenance_run (config : GlassBoxConfig) (seal_after_seconds purge_grace_seconds : float) (segment_batch_limit : Z)
    (staleness_threshold_seconds : option float) (ci : circumstances) (w : world W)
    : res (list RetentionOutcome) * option (float * float) * world W :=
  let threshold := default (default_staleness seal_after_seconds purge_grace_seconds) staleness_threshold_seconds in
  let '(migrated, schema') :=
    apply_migrations (ci_reachable ci) (ci_works ci) (ci_partitions_work ci) (ci_year ci) (ci_month ci) (wd_schema w) in
  let w := {| wd_schema := schema'; wd_db := wd_db w; wd_anchors := wd_anchors w |} in
  match (_ ← migrated; fetch_oldest_outstanding_segment_age_seconds (ci_backlog ci) (wd_db w) (ci_now ci)) with
  | Raise e => (Raise e, None, w)
  | Ok age =>
      let warning := detect_stale_backlog age threshold in
      match (store_signer ← build_signer config; signer ← build_signer config;
             scheduler ← mk_RetentionScheduler seal_after_seconds purge_grace_seconds;
             ids ← fetch_segment_ids (ci_select ci) (wd_db w) segment_batch_limit;
             Ok (signer, scheduler, ids)) with
      | Raise e => (Raise e, warning, w)
      | Ok (signer, scheduler, ids) =>
          let '(outcomes, (db', anchors')) :=
            @run_once S Db W _ (pg_retention bypassrls (ci_pg ci)) _ signer scheduler (wd_db w, wd_anchors w) ids
              (ci_pass_now ci) in
          (outcomes, warning, {| wd_schema := schema'; wd_db := db'; wd_anchors := anchors' |})
      end
  end.

(** ** The command *)

Definition env_float (environ : list (string * string)) (key : string) : res (option float) :=
  match dict_get environ key with
  | None => Ok None
  | Some raw => match float_of_text raw with Some x => Ok (Some x) | None => Raise PyValueError end
  end.
Definition env_int (environ : list (string * string)) (key : string) : res (option Z) :=
  match dict_get environ key with
  | None => Ok None
  | Some raw => match int_of_text raw with Some z => Ok (Some z) | None => Raise PyValueError end
  end.

Definition is_failed (o : RetentionOutcome) : bool :=
  match ro_action o with RETENTION_FAILED => true | _ => false end.

(** The exit code, or the error that reaches the shell. *)
Definition main (environ : list (string * string)) (ci : circumstances) (w : world W) : cfg Z * world W :=
  match from_env environ with
  | inl e => (inl e, w)
  | inr config =>
      match (seal_after ← env_float environ "GLASSBOX_MAINTENANCE_SEAL_AFTER_SECONDS";
             purge_grace ← env_float environ "GLASSBOX_MAINTENANCE_PURGE_GRACE_SECONDS";
             limit ← env_int environ "GLASSBOX_MAINTENANCE_SEGMENT_BATCH_LIMIT";
             staleness ← env_float environ "GLASSBOX_MAINTENANCE_STALENESS_THRESHOLD_SECONDS";
             Ok (default (fz (30 * 86400)) seal_after, default (fz (30 * 86400)) purge_grace, default 5000%Z limit, staleness)) with
      | Raise _ => (inr 1%Z, w)
      | Ok (seal_after, purge_grace, limit, staleness) =>
          let '(outcomes, _, w') := maintenance_run config seal_after purge_grace limit staleness ci w in
          (inr (match outcomes with
                | Raise _ => 1%Z
                | Ok os => if existsb is_failed os then 1%Z else 0%Z
                end), w')
      end
  end.
End maintenance.

(** ** What a pass may do to its store *)

Section preserved.
Context {S R W : Type} `{MacSigner S} `{RetentionStore R} `{AnchorStore W}.
Variable P : R -> Prop.

(** The scheduler changes the store only by sealing up to the last record it
    read, and by purging. *)
Hypothesis seal_keeps : forall r sid b leaves final a loc o r',
  P r -> ret_leaves r sid (Some b) = Ok leaves -> last leaves = Some final -> wa_last_seq a = lf_seq final ->
  ret_mark_sealed r sid a loc = (o, r') -> P r'.
Hypothesis purge_keeps : forall r sid b o r', P r -> ret_purge_before r sid b = (o, r') -> P r'.

Lemma seal_preserves sg (s : stores R W) sid b now o s' : seal sg s sid b now = (o, s') -> P s.1 -> P s'.1.
Proof.
  unfold seal. destruct s as [st w]. destruct (seal_anchor sg st sid b now) as [a|e] eqn:Ea; [|by intros [= <- <-]].
  assert (exists leaves final, ret_leaves st sid (Some b) = Ok leaves /\ last leaves = Some final /\ wa_last_seq a = lf_seq final)
    as (leaves & final & Hl & Hlast & Hseq).
  { unfold seal_anchor in Ea. apply bind_ok in Ea as ([state|] & _ & Ea); [|done].
    apply bind_ok in Ea as (leaves & Hl & Ea). destruct leaves as [|f rest]; [done|].
    destruct (last (f :: rest)) as [final|] eqn:El; [|done]. exists (f :: rest), final. split; [done|]. split; [done|].
    apply bind_ok in Ea as ([] & _ & Ea). apply bind_ok in Ea as (u & _ & Ea). apply bind_ok in Ea as (m & _ & Ea).
    by apply mk_WormAnchor_ok in Ea as (_ & _ & _ & _ & _ & _ & ? & _). }
  destruct (worm_put w a) as [[loc|e] w']; [|by intros [= <- <-]].
  destruct (ret_mark_sealed st sid a loc) as [[u|e] st'] eqn:Em; intros [= <- <-] Hp; by eapply seal_keeps.
Qed.

Lemma purge_preserves sg (s : stores R W) sid b o s' : purge sg s sid b = (o, s') -> P s.1 -> P s'.1.
Proof.
  unfold purge. destruct s as [st w]. destruct (covering_anchor sg w sid b) as [[a|]|e]; [|by intros [= <- <-]..].
  destruct (ret_purge_before st sid b) as [[n|e] st'] eqn:Ep; intros [= <- <-] Hp; by eapply purge_keeps.
Qed.

Lemma consider_preserves sg r (s : stores R W) sid now o s' : consider sg r s sid now = (o, s') -> P s.1 -> P s'.1.
Proof.
  unfold consider, maybe_seal, maybe_purge, concluded. intros Hc Hp.
  repeat (case_match; simplify_eq; try done); eauto using seal_preserves, purge_preserves.
Qed.

Lemma run_once_preserves sg r (s : stores R W) sids now o s' : run_once sg r s sids now = (o, s') -> P s.1 -> P s'.1.
Proof.
  revert s o s'. induction sids as [|sid sids IH]; intros s o s'; cbn [run_once]; [by intros [= <- <-]|].
  destruct (consider sg r s sid now) as [[c|e] s1] eqn:Ec; [|intros [= <- <-]; by eapply consider_preserves].
  destruct (run_once sg r s1 sids now) as [os s2] eqn:Er. intros [= <- <-] Hp.
  eapply IH; [done|]. by eapply consider_preserves.
Qed.
End preserved.

(** Each segment of a pass gets its outcome, in order. *)
Lemma run_once_segments {S R W : Type} `{MacSigner S} `{RetentionStore R} `{AnchorStore W}
    sg r (s : stores R W) sids now os s' :
  run_once sg r s sids now = (Ok os, s') -> map ro_segment_id os = sids.
Proof.
  revert s os s'. induction sids as [|sid sids IH]; intros s os s'; cbn [run_once]; [by intros [= <- <-]|].
  destruct (consider sg r s sid now) as [[c|e] s1] eqn:Ec; [|done].
  destruct (run_once sg r s1 sids now) as [[os'|e] s2] eqn:Er; [|done]. intros [= <- <-]. cbn. f_equal; [|by eapply IH].
  unfold consider, maybe_seal, maybe_purge, concluded in Ec. by repeat (case_match; simplify_eq).
Qed.

(** ** The candidates *)

Definition older (x y : string * segment_row) : Prop := (sr_opened_at x.2 <= sr_opened_at y.2)%Z.

Lemma insert_segment_perm x l : insert_segment x l ≡ₚ x :: l.
Proof.
  induction l as [|y l IH]; cbn [insert_segment]; [done|]. destruct (_ <=? _)%Z; [done|].
  rewrite IH. apply Permutation_swap.
Qed.

Lemma oldest_first_perm l : oldest_first l ≡ₚ l.
Proof. induction l as [|x l IH]; cbn; [done|]. by rewrite insert_segment_perm, IH. Qed.

Lemma insert_segment_sorted x l : StronglySorted older l -> StronglySorted older (insert_segment x l).
Proof.
  induction 1 as [|y l Hs IH Hf]; cbn [insert_segment]; [by repeat constructor|].
  destruct (Z.leb_spec (sr_opened_at x.2) (sr_opened_at y.2)) as [Hle|Hlt].
  - constructor; [by constructor|]. constructor; [exact Hle|].
    eapply Forall_impl; [exact Hf|]. unfold older. intros z. cbn. lia.
  - constructor; [done|]. rewrite insert_segment_perm. constructor; [unfold older; lia|done].
Qed.

Lemma oldest_first_sorted l : StronglySorted older (oldest_first l).
Proof. induction l; cbn; [constructor|by apply insert_segment_sorted]. Qed.

(** The candidates are the segments with work outstanding, each once and the
    oldest first. *)
Lemma candidates_in db sid s :
  (sid, s) ∈ candidates db <-> db_segments db !! sid = Some s /\ outstanding s = true.
Proof.
  unfold candidates. rewrite oldest_first_perm, list_elem_of_In, filter_In, <-list_elem_of_In, elem_of_map_to_list. done.
Qed.

Lemma candidates_nodup db : NoDup (map fst (candidates db)).
Proof.
  unfold candidates. rewrite oldest_first_perm. pose proof (NoDup_fst_map_to_list (db_segments db)) as Hnd.
  induction (map_to_list (db_segments db)) as [|x l IH]; [constructor|]. cbn in *.
  apply NoDup_cons in Hnd as [Hx Hnd]. destruct (outstanding x.2); cbn; [|by apply IH].
  constructor; [|by apply IH]. intros Hin. apply Hx. apply list_elem_of_fmap in Hin as (y & Hy & Hin).
  apply list_elem_of_In, filter_In in Hin as [Hin _]. apply list_elem_of_fmap. exists y. split; [done|]. by apply list_elem_of_In.
Qed.

Lemma fetch_segment_ids_ok f db limit ids :
  fetch_segment_ids f db limit = Ok ids ->
  NoDup ids /\ (Z.of_nat (length ids) <= limit)%Z /\
  (forall sid, sid ∈ ids -> exists s, db_segments db !! sid = Some s /\ outstanding s = true) /\
  (forall sid s, db_segments db !! sid = Some s -> outstanding s = true -> sid ∉ ids ->
     Z.of_nat (length ids) = limit /\
     forall sid' s', sid' ∈ ids -> db_segments db !! sid' = Some s' -> (sr_opened_at s' <= sr_opened_at s)%Z).
Proof.
  unfold fetch_segment_ids. destruct (Z.ltb_spec limit 0); [done|]. unfold reading. destruct f; try done. intros [= <-].
  pose proof (candidates_nodup db) as Hnd. pose proof (oldest_first_sorted (List.filter (fun x => outstanding x.2) (map_to_list (db_segments db)))) as Hso.
  pose proof (candidates_in db) as Hin. fold (candidates db) in Hso. set (l := candidates db) in *.
  set (n := Z.to_nat limit). rewrite <-(take_drop n l) in Hnd, Hso.
  assert (Hmap : take n (map fst l) = map fst (take n l)) by by rewrite <-fmap_take.
  rewrite Hmap. rewrite map_app in Hnd. apply NoDup_app in Hnd as (Hnd & Hdis & _).
  assert (Hlen : length (map fst (take n l)) = length (take n l)) by apply length_map.
  split_and!.
  - done.
  - rewrite Hlen, length_take. lia.
  - intros sid (x & -> & Hx)%list_elem_of_fmap. exists x.2. apply Hin. rewrite <-surjective_pairing.
    rewrite <-(take_drop n l). apply elem_of_app. by left.
  - intros sid s Hs Ho Hnot. assert (Hmem : (sid, s) ∈ drop n l).
    { assert (Hl : (sid, s) ∈ l) by by apply Hin. rewrite <-(take_drop n l) in Hl. apply elem_of_app in Hl as [Hl|Hl]; [|done].
      destruct Hnot. by apply (list_elem_of_fmap_2 fst) in Hl. }
    split.
    + rewrite Hlen, length_take. assert (n < length l)%nat; [|lia].
      destruct (decide (n < length l)%nat); [done|]. rewrite drop_ge in Hmem by lia. by apply not_elem_of_nil in Hmem.
    + intros sid' s' (x & -> & Hx)%list_elem_of_fmap Hs'. assert (Hx' : db_segments db !! x.1 = Some x.2).
      { apply (Hin x.1 x.2). rewrite <-surjective_pairing, <-(take_drop n l). apply elem_of_app. by left. }
      rewrite Hs' in Hx'. injection Hx' as ->.
      exact (StronglySorted_app_1_elem_of older _ _ x (sid, s) Hso Hx Hmem).
Qed.

(** ** The settings of the command *)

(** No section of the configuration has a name the settings of the job begin with. *)
Lemma maintenance_variable rest : variable_of ("GLASSBOX_MAINTENANCE_" +:+ rest) = UnknownVariable.
Proof.
  unfold variable_of, str_drop. cbn. done.
Qed.

(** So a configuration only loads where none of them is set. *)
Lemma settings_absent environ config rest :
  from_env environ = inr config -> dict_get environ ("GLASSBOX_MAINTENANCE_" +:+ rest) = None.
Proof.
  intros (n & unknown & [_ Hall] & -> & _)%from_env_inv. destruct (dict_get environ _) as [raw|] eqn:E; [|done].
  exfalso. assert (Hin : ("GLASSBOX_MAINTENANCE_" +:+ rest, raw) ∈ environ).
  { clear Hall. induction environ as [|[k v] environ IH]; cbn [dict_get] in E; [done|].
    destruct (String.eqb_spec k ("GLASSBOX_MAINTENANCE_" +:+ rest)) as [->|]; [injection E as ->; by left|right; by apply IH]. }
  specialize (Hall _ _ Hin eq_refl). rewrite maintenance_variable in Hall. by apply not_elem_of_nil in Hall.
Qed.

(** ** The run keeps the evidence honest *)

(** Segments purged by the retention path only, not by [seal_and_purge]. *)
Definition retention_only (db : Db) : Prop :=
  forall sid s, db_segments db !! sid = Some s -> sr_merkle_root s = None.

Section honest.
Context `{PgColumns} {S W : Type} `{MacSignerLaws S} `{AnchorStore W}.
Context (local_signer kms_signer : GlassBoxConfig -> res S).
Implicit Types sg : S.

Lemma chain_seq_range sg l n a row :
  chain_ok intent_payload sg l n a -> row ∈ l -> (n <= st_seq row < n + Z.of_nat (length l))%Z.
Proof.
  revert n a. induction l as [|x l IH]; intros n a; cbn [chain_ok length]; [by intros _ ?%not_elem_of_nil|].
  intros (Hn & _ & _ & Hl) [->|Hin]%elem_of_cons; [lia|]. specialize (IH _ _ Hl Hin). lia.
Qed.

(** The last record of the leaves that were read is live. *)
Lemma read_leaf_live sg db f sid b leaves final anchor :
  pg_inv sg db -> pg_segment_leaves true f db sid (Some b) = Ok leaves -> last leaves = Some final ->
  wa_last_seq anchor = lf_seq final -> seals_live db sid anchor.
Proof.
  intros Hinv Hl Hlast Hseq s Hs. destruct (pi_segments _ _ Hinv _ _ Hs) as [a Hok].
  unfold pg_segment_leaves in Hl. apply bind_ok in Hl as (rows & Hrows & Hl). unfold reading in Hrows.
  destruct f; try done. injection Hrows as <-. apply res_map_ok in Hl.
  apply last_Some_elem_of in Hlast. apply list_elem_of_lookup in Hlast as (i & Hi).
  destruct (Forall2_lookup_r _ _ _ _ _ Hl Hi) as (row & Hrow & Hmk).
  apply list_elem_of_lookup_2, list_elem_of_In, filter_In in Hrow as [Hrow _]. apply list_elem_of_In in Hrow.
  unfold select_chain in Hrow. rewrite (sort_seq_chain _ _ _ _ _ (so_chain _ _ _ _ Hok)) in Hrow.
  apply (chain_seq_range _ _ _ _ _ (so_chain _ _ _ _ Hok)) in Hrow. pose proof (so_count _ _ _ _ Hok).
  assert (lf_seq final = st_seq row) by (unfold mk_SegmentLeaf in Hmk; inv_ok; by subst final). lia.
Qed.

Lemma transaction_segments {A} f (body : res (A * Db)) db o db' (P : Db -> Prop) :
  transaction f body db = (o, db') -> P db -> (forall a db1, body = Ok (a, db1) -> P db1) -> P db'.
Proof. unfold transaction. intros Ht Hp Hb. repeat case_match; simplify_eq; eauto. Qed.

Lemma with_segment_retention_only db sid s :
  retention_only db -> sr_merkle_root s = None -> retention_only (with_segment db sid s).
Proof.
  intros Hr Hs sid' s'. cbn. rewrite lookup_insert. case_decide; [by intros [= <-]|]. apply Hr.
Qed.

Lemma mark_sealed_retention_only f db sid a loc o db' :
  retention_only db -> pg_mark_sealed true f db sid a loc = (o, db') -> retention_only db'.
Proof.
  intros Hr Hm. eapply transaction_segments; [exact Hm|done|]. intros [] db1 Hb. unfold mark_sealed_body in Hb.
  apply bind_ok in Hb as (t & _ & Hb). destruct (db_segments db !! sid) as [s|] eqn:Es; injection Hb as <-; [|done].
  apply with_segment_retention_only; [done|]. exact (Hr sid s Es).
Qed.

Lemma purge_retention_only f db sid b o db' :
  retention_only db -> pg_purge_before true f db sid b = (o, db') -> retention_only db'.
Proof.
  intros Hr Hm. eapply transaction_segments; [exact Hm|done|]. intros n db1 Hb. unfold purge_before_body in Hb.
  destruct (db_segments db !! sid) as [s|] eqn:Es; [|done]. apply bind_ok in Hb as ([] & _ & Hb).
  destruct (delete_purged true db sid b) as [k db2] eqn:Ed. apply live_delete in Ed as (Hseg & _).
  apply bind_ok in Hb as ([] & _ & [= <- <-]).
  apply with_segment_retention_only; [|exact (Hr sid s Es)]. unfold retention_only. by rewrite Hseg.
Qed.

Lemma pg_reachable_step sg db db' : pg_step (sg, db) (sg, db') -> pg_reachable sg db -> pg_reachable sg db'.
Proof. intros Hs [sg0 Hr]. exists sg0. by eapply rtc_r. Qed.

Definition honest sg (db : Db) : Prop := pg_reachable sg db /\ retention_only db.

Lemma pass_keeps_honest sg sg' pf r (db : Db) (anchors : W) sids now o s' :
  @run_once S Db W _ (pg_retention true pf) _ sg' r (db, anchors) sids now = (o, s') -> honest sg db -> honest sg s'.1.
Proof.
  intros Hrun Hh. eapply (@run_once_preserves S Db W _ (pg_retention true pf) _ (honest sg)); [| |exact Hrun|exact Hh].
  - intros db1 sid b leaves final a loc o1 db2 [Hr Hx] Hl Hlast Hseq Hm. cbn in Hl, Hm. split.
    + eapply pg_reachable_step; [|exact Hr]. eapply pg_step_mark_sealed; [|exact Hm].
      eapply read_leaf_live; [by eapply pg_reachable_inv|done..].
    + by eapply mark_sealed_retention_only.
  - intros db1 sid b o1 db2 [Hr Hx] Hp. cbn in Hp. split.
    + eapply pg_reachable_step; [|exact Hr]. eapply pg_step_purge_before; [apply Hx|exact Hp].
    + by eapply purge_retention_only.
Qed.

(** A run, whatever fails in it. *)
Lemma run_keeps_honest sg config sa pg limit st ci (w : world W) o warning w' :
  honest sg (wd_db w) -> schema_ok (wd_schema w) ->
  maintenance_run true local_signer kms_signer config sa pg limit st ci w = (o, warning, w') ->
  honest sg (wd_db w') /\ schema_ok (wd_schema w') /\
  (forall os, o = Ok os -> sc_applied (wd_schema w') = MIGRATIONS /\
     fetch_segment_ids NoFault (wd_db w) limit = Ok (map ro_segment_id os) /\
     exists signer r, build_signer local_signer kms_signer config = Ok signer /\ mk_RetentionScheduler sa pg = Ok r /\
       @run_once S Db W _ (pg_retention true (ci_pg ci)) _ signer r (wd_db w, wd_anchors w) (map ro_segment_id os)
         (ci_pass_now ci) = (Ok os, (wd_db w', wd_anchors w'))).
Proof.
  intros Hh Hok. unfold maintenance_run.
  destruct (apply_migrations _ _ _ _ _ _) as [mig sch] eqn:Em.
  assert (Hs : schema_ok sch /\ (forall vs, mig = Ok vs -> sc_applied sch = MIGRATIONS)).
  { destruct Hok as [k Hk]. destruct (ci_reachable ci); [|injection Em as <- <-; by split; [exists k|]].
    destruct (apply_spec _ _ _ _ _ _ _ _ Hk Em) as ((j & Hj) & _ & Hr). split.
    - destruct (take_prefix MIGRATIONS k j) as [n Hn]. exists n. by rewrite Hj.
    - intros vs ->. by destruct Hr as [?|(_ & ? & _)]. }
  destruct Hs as [Hs Hall]. destruct mig as [vs|e]; cbn [mbind res_bind]; [|intros [= <- <- <-]; by split_and!].
  destruct (fetch_oldest_outstanding_segment_age_seconds _ _ _) as [age|e]; cbn [mbind res_bind];
    [|intros [= <- <- <-]; by split_and!].
  destruct (build_signer _ _ config) as [sg'|e] eqn:Eb; cbn [mbind res_bind]; [|intros [= <- <- <-]; by split_and!].
  destruct (mk_RetentionScheduler sa pg) as [r|e] eqn:Esch; cbn [mbind res_bind]; [|intros [= <- <- <-]; by split_and!].
  destruct (fetch_segment_ids _ _ _) as [ids|e] eqn:Ef; cbn [mbind res_bind]; [|intros [= <- <- <-]; by split_and!].
  destruct (run_once _ _ _ _ _) as [os [db' an']] eqn:Er. intros [= <- <- <-]. cbn [wd_db wd_schema] in *.
  pose proof (pass_keeps_honest _ _ _ _ _ _ _ _ _ _ Er Hh) as Hh'. split_and!; [done|done|].
  intros l ->. pose proof (run_once_segments _ _ _ _ _ _ _ Er) as ->. split; [by eapply Hall|]. split.
  - unfold fetch_segment_ids in *. destruct (limit <? 0)%Z; [done|]. by destruct (ci_select ci).
  - exists sg', r. split_and!; done.
Qed.

(** The pass of a run: by the deployment's own signer, over the evidence the
    run found, leaving what the run left. *)
Definition passed_over (environ : list (string * string)) (ci : circumstances) (w w' : world W)
    (ids : list string) (outcomes : list RetentionOutcome) : Prop :=
  exists config signer r, from_env environ = inr config /\ build_signer local_signer kms_signer config = Ok signer /\
    mk_RetentionScheduler (fz (30 * 86400)) (fz (30 * 86400)) = Ok r /\
    @run_once S Db W _ (pg_retention true (ci_pg ci)) _ signer r (wd_db w, wd_anchors w) ids (ci_pass_now ci)
      = (Ok outcomes, (wd_db w', wd_anchors w')).

(** C26.  The maintenance job can run at any time, under a role that bypasses
    row-level security, over honest evidence.  However it ends - refused settings, a lost database, a
    failing statement anywhere in the pass - the evidence it leaves is evidence
    the store itself could have reached, so every segment verifies, and the
    schema is a prefix of the migrations; an error without an exit code touched
    nothing.  Exit code 0 means that the schema is complete and that one
    retention pass, with the deployment's own signer and thirty days either
    way, went over at most 5000 segments with work outstanding, each once, and
    leaves out such a segment only where 5000 at least as old were taken. *)
Theorem maintenance_is_safe sg environ ci (w : world W) code w' :
  honest sg (wd_db w) -> schema_ok (wd_schema w) ->
  main true local_signer kms_signer environ ci w = (code, w') ->
  honest sg (wd_db w') /\ schema_ok (wd_schema w') /\
  (forall e, code = inl e -> w' = w) /\
  (code = inr 0%Z -> sc_applied (wd_schema w') = MIGRATIONS /\
     exists ids outcomes, passed_over environ ci w w' ids outcomes /\ map ro_segment_id outcomes = ids /\
       NoDup ids /\ (Z.of_nat (length ids) <= 5000)%Z /\
       (forall sid, sid ∈ ids -> exists s, db_segments (wd_db w) !! sid = Some s /\ outstanding s = true) /\
       (forall sid s, db_segments (wd_db w) !! sid = Some s -> outstanding s = true -> sid ∉ ids ->
          Z.of_nat (length ids) = 5000%Z /\
          forall sid' s', sid' ∈ ids -> db_segments (wd_db w) !! sid' = Some s' -> (sr_opened_at s' <= sr_opened_at s)%Z)).
Proof.
  intros Hh Hs. unfold main. destruct (from_env environ) as [e|config] eqn:Ec; [by intros [= <- <-]; split_and!|].
  unfold env_float, env_int. pose proof (settings_absent _ _ "SEAL_AFTER_SECONDS" Ec) as E1.
  pose proof (settings_absent _ _ "PURGE_GRACE_SECONDS" Ec) as E2. pose proof (settings_absent _ _ "SEGMENT_BATCH_LIMIT" Ec) as E3.
  pose proof (settings_absent _ _ "STALENESS_THRESHOLD_SECONDS" Ec) as E4. cbn [String.append] in E1, E2, E3, E4.
  rewrite E1, E2, E3, E4. cbn [mbind res_bind default].
  destruct (maintenance_run _ _ _ _ _ _ _ _ _ _) as [[o warning] w1] eqn:Er. intros [= <- <-].
  destruct (run_keeps_honest _ _ _ _ _ _ _ _ _ _ _ Hh Hs Er) as (Hh' & Hs' & Hok). split_and!; [done|done|done|].
  intros Hz. destruct o as [os|e]; [|done]. destruct (Hok os eq_refl) as (Hm & Hf & signer & r & Hb & Hr & Hrun).
  split; [done|]. exists (map ro_segment_id os), os. change (from_option id 5000%Z None) with 5000%Z in Hf.
  destruct (fetch_segment_ids_ok _ _ _ _ Hf) as (Hnd & Hle & Hsome & Hall).
  split_and!; try done. by exists config, signer, r.
Qed.

(** Any of the settings the command documents stops it: the configuration knows
    no such variable, and is loaded outside the handler. *)
Theorem maintenance_settings_stop_the_run environ rest raw ci (w : world W) :
  dict_get environ ("GLASSBOX_MAINTENANCE_" +:+ rest) = Some raw ->
  exists e, main true local_signer kms_signer environ ci w = (inl e, w).
Proof.
  intros Hset. unfold main. destruct (from_env environ) as [e|config] eqn:Ec; [by exists e|].
  apply settings_absent with (rest := rest) in Ec. congruence.
Qed.
End honest.

(** ** A concrete run *)

#[local] Existing Instance plain_columns.

Definition all_works (now : float) : circumstances :=
  {| ci_reachable := true; ci_works := fun _ => true; ci_partitions_work := fun _ => true; ci_year := 2026; ci_month := 12;
     ci_backlog := NoFault; ci_select := NoFault;
     ci_pg := {| pf_state := fun _ => NoFault; pf_leaves := fun _ _ => NoFault; pf_mark := fun _ => NoFault;
                 pf_purge := fun _ => NoFault |};
     ci_now := now; ci_pass_now := now |}.

Definition sample_world : world MemoryWorm :=
  {| wd_schema := schema_init; wd_db := pg_sample; wd_anchors := memory_worm_init |}.
Definition sample_main (environ : list (string * string)) (ci : circumstances) (w : world MemoryWorm) : cfg Z * world MemoryWorm :=
  main true (fun _ => Ok sample_signer) (fun _ => Ok sample_signer) environ ci w.

Definition dev_environ : list (string * string) := [("GLASSBOX_PROFILE", "dev")].

(** The segment is sealed by the first run and purged by one a month later. *)
Example two_runs_purge :
  let first := sample_main dev_environ (all_works (fz 3000000)) sample_world in
  let second := sample_main dev_environ (all_works (fz 6000000)) first.2 in
  first.1 = inr 0%Z /\ length (db_intents (wd_db first.2)) = 3%nat /\ length (mw_anchors (wd_anchors first.2)) = 1%nat /\
  second.1 = inr 0%Z /\ db_intents (wd_db second.2) = [] /\ candidates (wd_db second.2) = [].
Proof. vm_compute. split_and!; reflexivity. Qed.

Lemma maintenance_is_safe_witness :
  honest sample_signer (wd_db (sample_main dev_environ (all_works (fz 3000000)) sample_world).2) /\
  sc_applied (wd_schema (sample_main dev_environ (all_works (fz 3000000)) sample_world).2) = MIGRATIONS.
Proof.
  assert (Hx : sample_main dev_environ (all_works (fz 3000000)) sample_world
             = (inr 0%Z, (sample_main dev_environ (all_works (fz 3000000)) sample_world).2)) by (vm_compute; reflexivity).
  assert (Hh : honest sample_signer (wd_db sample_world)).
  { split; [exact pg_sample_reachable|]. intros sid s Hs. cbn in Hs.
    assert (Hone : map_Forall (fun _ s => sr_merkle_root s = None) (db_segments pg_sample))
      by (apply map_Forall_to_list; vm_compute; repeat constructor).
    exact (Hone sid s Hs). }
  destruct (maintenance_is_safe (fun _ => Ok sample_signer) (fun _ => Ok sample_signer) sample_signer dev_environ (all_works (fz 3000000))
              sample_world (inr 0%Z) _ Hh (ex_intro _ 0%nat eq_refl) Hx) as (H1 & _ & _ & H2).
  split; [exact H1|exact (proj1 (H2 eq_refl))].
Defined.

(** A record appended after its segment was purged is never sealed: the segment
    is no longer selected. *)
Example late_records_are_forgotten :
  let purged := (sample_main dev_environ (all_works (fz 6000000)) (sample_main dev_environ (all_works (fz 3000000)) sample_world).2).2 in
  let db := (pg_append_intent true NoFault sample_signer (wd_db purged) 10000000 (sample_intent "d4")).2 in
  length (db_intents db) = 1%nat /\ candidates db = [].
Proof. vm_compute. split; reflexivity. Qed.
