(* ===== verification/Decisioning.v ===== *)
(** * Reference identity, policy and risk adapters
      ([glassbox/adapters/outbound/memory/decisioning.py],
       [glassbox/adapters/outbound/identity/assertions.py]) *)

From stdpp Require Import base tactics list strings gmap.
From Stdlib Require Import ZArith Lia Ascii String.
From S2P Require Import Prelude PyFloat PyStr Serialization Sha256 Action Identity Risk Decision Catalogue.

Open Scope string_scope.
Open Scope list_scope.

(** ** Assertions against a verified principal *)

(** [check_assertion]: the two messages are context of one exception. *)
Definition check_assertion (principal : VerifiedPrincipal) (asserted_tenant_id asserted_subject : string)
    : res unit :=
  let tenant_mismatch :=
    negb (str_is_empty asserted_tenant_id) &&
    negb (asserted_tenant_id =? vp_tenant_id principal)%string in
  let subject_mismatch :=
    negb (str_is_empty asserted_subject) &&
    negb ((asserted_subject =? vp_agent_ref principal)%string ||
          match vp_delegating_subject principal with
          | Some d => (asserted_subject =? d)%string
          | None => false
          end) in
  raise_if (tenant_mismatch || subject_mismatch) IdentityError.

(** ** [DevIdentityVerifier] *)

Record DevIdentityVerifier := {
  dv_validity_seconds : float;
  dv_reject_mismatched : bool
}.

Definition colon : Ascii.ascii := ":"%char.

(** Every exception of the constructor becomes an [IdentityError]. *)
Definition dev_verify (v : DevIdentityVerifier) (credential : RawCredential) (now : float)
    : res VerifiedPrincipal :=
  match split_on colon (rc_material credential) with
  | [scheme; tenant_id; agent_ref; instance_id] =>
      if negb (scheme =? "dev")%string then Raise IdentityError
      else match mk_VerifiedPrincipal agent_ref instance_id tenant_id OIDC
                   ("dev/" +:+ tenant_id +:+ "/" +:+ agent_ref) now
                   (fadd now (dv_validity_seconds v)) None {| hops := [] |} (AsTuple []) with
           | Ok p => Ok p
           | Raise _ => Raise IdentityError
           end
  | _ => Raise IdentityError
  end.

Definition dev_assert_matches (v : DevIdentityVerifier) (principal : VerifiedPrincipal)
    (asserted_tenant_id asserted_subject : string) : res unit :=
  if negb (dv_reject_mismatched v) then Ok tt
  else check_assertion principal asserted_tenant_id asserted_subject.

(** ** [AllowListPolicyDecisionPoint] *)

Record AllowList := {
  al_allowed : gmap string (gset string);
  al_bundle_id : string;
  al_available : bool
}.

Definition allow_list_init (allowed : gmap string (gset string)) (bundle_id : string) : AllowList :=
  {| al_allowed := allowed; al_bundle_id := bundle_id; al_available := true |}.

Definition allowed_for (a : AllowList) (tenant_id : string) : gset string :=
  from_option id ∅ (al_allowed a !! tenant_id).

Definition allow_list_digest (a : AllowList) (tenant_id : string) : res string :=
  _ ← raise_if (negb (al_available a)) PolicyBundleUnavailableError;
  let material := str_join "|" (sorted_set (allowed_for a tenant_id)) in
  Ok (bytes_hex (sha256 (utf8 (al_bundle_id a +:+ "|" +:+ tenant_id +:+ "|" +:+ material)))).

Definition allow_list_decide (a : AllowList) (request : AuthorizationRequest) : res AuthorizationDecision :=
  digest ← allow_list_digest a (aq_tenant_id request);
  let name := pa_action (aq_action request) in
  if bool_decide (name ∈ allowed_for a (aq_tenant_id request))
  then decision_allow ("action " +:+ str_repr name +:+ " is on the tenant allow list")
         (al_bundle_id a) digest ["allowlist." +:+ name] []
  else decision_deny [POLICY_DENIED]
         ("action " +:+ str_repr name +:+ " is not on the allow list for tenant " +:+
          str_repr (aq_tenant_id request)) (Some (al_bundle_id a)) (Some digest) [].

Definition allow_list_allow (a : AllowList) (tenant_id : string) (actions : list string) : AllowList :=
  {| al_allowed := <[tenant_id := allowed_for a tenant_id ∪ list_to_set actions]> (al_allowed a);
     al_bundle_id := al_bundle_id a; al_available := al_available a |}.

Definition allow_list_set_available (a : AllowList) (available : bool) : AllowList :=
  {| al_allowed := al_allowed a; al_bundle_id := al_bundle_id a; al_available := available |}.

(** ** [ReferenceRiskEngine] *)

Record RiskEngine := {
  re_model_version : string;
  re_escalation : float;
  re_escalation_floor : float;
  re_available : bool
}.

Definition risk_engine_init (model_version : string) (escalation escalation_floor : float) : RiskEngine :=
  {| re_model_version := model_version; re_escalation := escalation;
     re_escalation_floor := escalation_floor; re_available := true |}.

(** [sorted(scores, reverse=True)]: descending, equal scores in their order. *)
Fixpoint insert_desc (x : float) (l : list float) : list float :=
  match l with
  | [] => [x]
  | y :: l' => if fgt y x then y :: insert_desc x l' else x :: l
  end.
Definition sort_desc (l : list float) : list float := foldr insert_desc [] l.

(** [min(a, b)]. *)
Definition fmin (a b : float) : float := if flt b a then b else a.

Definition aggregate (e : RiskEngine) (factors : list RiskFactor) : float :=
  match sort_desc (map rf_score factors) with
  | [] => fz 0
  | top :: rest =>
      let elevated := List.length (List.filter (fun value => fge value (re_escalation_floor e)) rest) in
      fmin MAX_RISK_SCORE (fadd top (fmul (fz (Z.of_nat elevated)) (re_escalation e)))
  end.

Definition engine_score (e : RiskEngine) (inputs : RiskInputs) (model_version : string) : res RiskScore :=
  _ ← raise_if (negb (re_available e)) RiskModelUnavailableError;
  score ← mk_RiskScore (aggregate e (ri_factors inputs)) model_version inputs (fz (-1)) false;
  with_consequence_floor score.

Definition risk_score_inputs (e : RiskEngine) (inputs : RiskInputs) : res RiskScore :=
  engine_score e inputs (re_model_version e).

Definition score_with_model (e : RiskEngine) (inputs : RiskInputs) (model_version : string) : res RiskScore :=
  _ ← raise_if (negb (model_version =? re_model_version e)%string) RiskModelUnavailableError;
  engine_score e inputs model_version.

Definition engine_set_available (e : RiskEngine) (available : bool) : RiskEngine :=
  {| re_model_version := re_model_version e; re_escalation := re_escalation e;
     re_escalation_floor := re_escalation_floor e; re_available := available |}.

(** ** Identity comes from the credential *)

Lemma mk_VerifiedPrincipal_ok ar ai t ct ci ia ea ds dc cl p :
  mk_VerifiedPrincipal ar ai t ct ci ia ea ds dc cl = Ok p ->
  vp_agent_ref p = ar /\ vp_agent_instance_id p = ai /\ vp_tenant_id p = t /\
  vp_issued_at p = ia /\ vp_expires_at p = ea /\ vp_delegating_subject p = ds /\
  valid_id ar /\ valid_id t /\ fle ea ia = false.
Proof.
  unfold mk_VerifiedPrincipal. intros H. inv_ok. subst p. cbn.
  repeat match goal with
  | H : require_identifier _ _ = Ok _ |- _ => apply require_identifier_valid in H as [-> ?]
  | H : require_timestamp _ _ = Ok _ |- _ => apply require_timestamp_ok in H as (-> & _)
  | H : res_opt _ _ = Ok _ |- _ => apply res_opt_ok in H as [(-> & ->)|(? & ? & -> & ? & ->)]
  end; split_and!; congruence || done.
Qed.

Lemma str_join_cons sep x y l : str_join sep (x :: y :: l) = x +:+ sep +:+ str_join sep (y :: l).
Proof. done. Qed.

Lemma split_on_cons c s : exists x l, split_on c s = x :: l.
Proof.
  destruct s as [|b s]; cbn [split_on]; [by eauto|]. destruct (Ascii.eqb b c); [by eauto|].
  destruct (split_on c s); eauto.
Qed.

Lemma split_on_parts c s : str_join (String c EmptyString) (split_on c s) = s.
Proof.
  induction s as [|a s IH]; [done|]. cbn [split_on].
  destruct (split_on_cons c s) as (x & l & E). rewrite E in *.
  destruct (Ascii.eqb_spec a c) as [->|Hac].
  - rewrite str_join_cons, IH. done.
  - destruct l as [|y l]; [cbn [str_join] in *; by subst|].
    rewrite str_join_cons in *. by rewrite <-IH.
Qed.

(** A development credential is the only source of the tenant and the
    agent: a principal is issued exactly for a credential
    [dev:tenant:agent:instance] with those names, valid from now; a transport
    assertion is accepted only where it names that tenant and, for the subject,
    that agent; and no other exception than [IdentityError] escapes. *)
Theorem identity_comes_from_credential v cred now :
  (forall e, dev_verify v cred now = Raise e -> e = IdentityError) /\
  (forall p, dev_verify v cred now = Ok p ->
     rc_material cred =
       str_join ":" ["dev"; vp_tenant_id p; vp_agent_ref p; vp_agent_instance_id p] /\
     vp_issued_at p = now /\
     forall t s, check_assertion p t s = Ok tt <->
       (t = "" \/ t = vp_tenant_id p) /\ (s = "" \/ s = vp_agent_ref p)).
Proof.
  unfold dev_verify. pose proof (split_on_parts colon (rc_material cred)) as Hjoin.
  destruct (split_on colon (rc_material cred)) as [|a [|b [|c [|d [|e l]]]]];
    try (split; [by intros ? [= <-] | done]).
  destruct (String.eqb_spec a "dev") as [->|]; cbn [negb]; [|split; [by intros ? [= <-] | done]].
  destruct (mk_VerifiedPrincipal _ _ _ _ _ _ _ _ _ _) as [p|] eqn:Hp; [|split; [by intros ? [= <-] | done]].
  split; [done|]. intros p' [= <-].
  apply mk_VerifiedPrincipal_ok in Hp as (Ha & Hi & Ht & -> & _ & Hd & _). rewrite Ha, Hi, Ht.
  split_and!; [done | done |].
  intros t s. unfold check_assertion. rewrite raise_if_ok, orb_false_iff, Hd, orb_false_r, Ha, Ht.
  destruct t as [|x t], s as [|y s]; cbn [str_is_empty negb andb];
    rewrite ?negb_false_iff, ?String.eqb_eq; intuition congruence.
Qed.

Definition sample_verifier : DevIdentityVerifier :=
  {| dv_validity_seconds := fz 3600; dv_reject_mismatched := true |}.
Definition sample_credential : RawCredential :=
  {| rc_credential_type := OIDC; rc_material := "dev:t1:agent-1:i1"; rc_presented_at := fz 10 |}.
Definition dev_principal : VerifiedPrincipal :=
  {| vp_agent_ref := "agent-1"; vp_agent_instance_id := "i1"; vp_tenant_id := "t1";
     vp_credential_type := OIDC; vp_credential_id := "dev/t1/agent-1"; vp_issued_at := fz 20;
     vp_expires_at := fz 3620; vp_delegating_subject := None; vp_delegation_chain := {| hops := [] |};
     vp_claims := [] |}.

Lemma identity_comes_from_credential_witness :
  check_assertion dev_principal "t1" "agent-1" = Ok tt.
Proof.
  destruct (identity_comes_from_credential sample_verifier sample_credential (fz 20)) as [_ H].
  destruct (H dev_principal ltac:(vm_compute; reflexivity)) as (_ & _ & Ha).
  apply Ha. split; right; reflexivity.
Defined.

(** ** Deny by default *)

(** The allow list denies by default and cites its bundle: a decision
    it returns allows exactly the actions listed for the request's tenant,
    never asks for approval or adds obligations, and carries the bundle id and
    the digest of that tenant's list; without a bundle it raises. *)
Theorem allow_list_denies_by_default a r :
  (al_available a = false -> allow_list_decide a r = Raise PolicyBundleUnavailableError) /\
  (forall d, allow_list_decide a r = Ok d ->
     ad_effect d = (if bool_decide (pa_action (aq_action r) ∈ allowed_for a (aq_tenant_id r))
                    then ALLOW else DENY) /\
     ad_obligations d = [] /\ ad_policy_bundle_id d = Some (al_bundle_id a) /\
     exists digest, allow_list_digest a (aq_tenant_id r) = Ok digest /\
                    ad_policy_bundle_sha256 d = Some digest).
Proof.
  split; [intros E; unfold allow_list_decide, allow_list_digest; by rewrite E|].
  intros d H. unfold allow_list_decide in H. apply bind_ok in H as (digest & Hdig & H).
  assert (Hl : lower digest = digest)
    by (unfold allow_list_digest in Hdig; inv_ok; subst; apply lower_bytes_hex).
  destruct (bool_decide _); cbn [decision_deny is_nil raise_if mbind res_bind] in H;
    apply decision_cites in H as (? & ? & ? & ? & ? & Hd); rewrite Hl in Hd; split_and!; try done; by exists digest.
Qed.

Definition sample_allow_list : AllowList :=
  allow_list_init {["t1" := {["payments.wire"]}]} "reference.allowlist".
Definition sample_request (action : ProposedAction) : AuthorizationRequest :=
  {| aq_decision_id := "d1"; aq_principal := dev_principal; aq_action := action;
     aq_evaluated_at := fz 20; aq_attributes := [] |}.

Lemma allow_list_denies_by_default_witness :
  exists d, allow_list_decide sample_allow_list (sample_request (sample_action "x")) = Ok d /\
            ad_obligations d = [].
Proof.
  destruct (allow_list_decide sample_allow_list (sample_request (sample_action "x"))) as [d|e] eqn:E.
  - exists d. split; [reflexivity|].
    apply (allow_list_denies_by_default sample_allow_list (sample_request (sample_action "x"))). exact E.
  - vm_compute in E. discriminate E.
Defined.
