(* ===== verification/Jws.v ===== *)
(** * Compact JWS ([glassbox/adapters/outbound/identity/jwt_verify.py], [jwks.py])

    Base64url as Python's lenient decoder reads it, JSON from bytes in the
    encodings [json.loads] detects, and the verification of a compact JWS with
    the two algorithms the code permits.  The [cryptography] package is a
    parameter. *)

From stdpp Require Import base tactics list strings gmap.
From Stdlib Require Import ZArith Lia Ascii Strings.Byte Floats.SpecFloat.
From S2P Require Import Prelude PyFloat PyStr Serialization Json Merkle Config PgEvidence.

Open Scope string_scope.
Open Scope list_scope.

(** ** Base64 *)

(** The value of a character, [-] and [_] standing for [+] and [/]. *)
Definition b64_value (c : ascii) : option Z :=
  let n := Z.of_N (code c) in
  if in_range 65 90 c then Some (n - 65)%Z
  else if in_range 97 122 c then Some (n - 71)%Z
  else if in_range 48 57 c then Some (n + 4)%Z
  else if Ascii.eqb c "+" || Ascii.eqb c "-" then Some 62%Z
  else if Ascii.eqb c "/" || Ascii.eqb c "_" then Some 63%Z
  else None.

(** [binascii.a2b_base64], not strict: characters outside the alphabet are
    skipped, and reading stops at the pad that completes a group.  [quad] is the
    position in the group, [left] the bits kept from the last character and
    [pads] the pads seen since. *)
Fixpoint a2b_base64 (quad : Z) (left : Z) (pads : Z) (s : string) : option bytes :=
  match s with
  | EmptyString => if (quad =? 0)%Z then Some [] else None
  | String c s' =>
      if Ascii.eqb c "=" then
        if (2 <=? quad)%Z
        then if (4 <=? quad + (pads + 1))%Z then Some [] else a2b_base64 quad left (pads + 1) s'
        else a2b_base64 quad left pads s'
      else
        match b64_value c with
        | None => a2b_base64 quad left pads s'
        | Some v =>
            if (quad =? 0)%Z then a2b_base64 1 v 0 s'
            else if (quad =? 1)%Z then cons (Z_byte (left * 4 + v / 16)) <$> a2b_base64 2 (v mod 16) 0 s'
            else if (quad =? 2)%Z then cons (Z_byte (left * 16 + v / 4)) <$> a2b_base64 3 (v mod 4) 0 s'
            else cons (Z_byte (left * 64 + v)) <$> a2b_base64 0 0 0 s'
        end
  end.

Definition is_ascii (s : string) : bool := str_forallb (fun c => (code c <? 128)%N) s.

Fixpoint pads (n : nat) : string := match n with O => "" | S m => String "=" (pads m) end.

(** [segment + "=" * (-len(segment) % 4)]. *)
Definition padded (segment : string) : string :=
  segment +:+ pads (Z.to_nat (- Z.of_nat (String.length segment) mod 4)).

(** [base64.urlsafe_b64decode(padded.encode("ascii"))]: a [ValueError] is [None]. *)
Definition urlsafe_b64decode (s : string) : option bytes :=
  if is_ascii s then a2b_base64 0 0 0 s else None.

Definition b64url_decode (segment : string) : res bytes :=
  match urlsafe_b64decode (padded segment) with
  | Some b => Ok b
  | None => Raise IdentityError
  end.

(** ** [json.loads] of bytes *)

(** Text of code points below 256; a byte sequence that is not valid, or that
    is another code point, is refused. *)
Fixpoint utf8_decode (l : bytes) : option string :=
  match l with
  | [] => Some ""
  | b :: t =>
      let n := Byte.to_N b in
      if (n <? 128)%N then String (ascii_of_N n) <$> utf8_decode t
      else match t with
           | b' :: t' =>
               let n' := Byte.to_N b' in
               if ((n =? 194) || (n =? 195))%N && (128 <=? n')%N && (n' <? 192)%N
               then String (ascii_of_N (64 * (n - 192) + (n' - 128))) <$> utf8_decode t'
               else None
           | [] => None
           end
  end.

Fixpoint utf16_decode (big : bool) (l : bytes) : option string :=
  match l with
  | [] => Some ""
  | a :: b :: t =>
      let '(high, low) := if big then (a, b) else (b, a) in
      if (Byte.to_N high =? 0)%N then String (ascii_of_N (Byte.to_N low)) <$> utf16_decode big t else None
  | _ => None
  end.

Fixpoint utf32_decode (big : bool) (l : bytes) : option string :=
  match l with
  | [] => Some ""
  | a :: b :: c :: d :: t =>
      let '(high, low) := if big then ([a; b; c], d) else ([b; c; d], a) in
      if forallb (fun x => Byte.to_N x =? 0)%N high
      then String (ascii_of_N (Byte.to_N low)) <$> utf32_decode big t else None
  | _ => None
  end.

Definition starts (p : list N) (l : bytes) : bool := bool_decide (map Byte.to_N (take (length p) l) = p).

(** [detect_encoding] and the decoding it chooses. *)
Definition decode_text (l : bytes) : option string :=
  let zero i := match l !! i with Some b => (Byte.to_N b =? 0)%N | None => false end in
  if starts [0; 0; 254; 255]%N l then utf32_decode true (drop 4 l)
  else if starts [255; 254; 0; 0]%N l then utf32_decode false (drop 4 l)
  else if starts [254; 255]%N l then utf16_decode true (drop 2 l)
  else if starts [255; 254]%N l then utf16_decode false (drop 2 l)
  else if starts [239; 187; 191]%N l then utf8_decode (drop 3 l)
  else if (4 <=? length l)%nat then
    if zero 0%nat then if zero 1%nat then utf32_decode true l else utf16_decode true l
    else if zero 1%nat then if zero 2%nat && zero 3%nat then utf32_decode false l else utf16_decode false l
    else utf8_decode l
  else if (length l =? 2)%nat then
    if zero 0%nat then utf16_decode true l else if zero 1%nat then utf16_decode false l else utf8_decode l
  else utf8_decode l.

Definition json_loads (raw : bytes) : option json := s ← decode_text raw; loads s.

Definition decode_json_segment (raw : bytes) : res (list (string * json)) :=
  match json_loads raw with
  | Some (JObj items) => Ok items
  | _ => Raise IdentityError
  end.

(** ** [str] of a value read from JSON *)

Fixpoint py_repr (j : json) : string :=
  match j with
  | JNull => "None"
  | JBool b => if b then "True" else "False"
  | JInt z => str_of_int z
  | JFloat x => float_repr x
  | JStr s => str_repr s
  | JArr l => "[" +:+ str_join ", " (map py_repr l) +:+ "]"
  | JObj items => "{" +:+ str_join ", " (map (fun kv => str_repr kv.1 +:+ ": " +:+ py_repr kv.2) items) +:+ "}"
  end.

Definition py_str (j : json) : string := match j with JStr s => s | _ => py_repr j end.

(** [bool(v)]. *)
Definition truthy (j : json) : bool :=
  match j with
  | JNull => false
  | JBool b => b
  | JInt z => negb (z =? 0)%Z
  | JFloat x => negb (feq x (fz 0))
  | JStr s => negb (str_is_empty s)
  | JArr l => match l with [] => false | _ => true end
  | JObj items => match items with [] => false | _ => true end
  end.

(** ** Signatures *)

Inductive algorithm := RS256 | ES256.
Definition algorithm_value (a : algorithm) : string := match a with RS256 => "RS256" | ES256 => "ES256" end.
Definition SUPPORTED_ALGORITHMS : list algorithm := [RS256; ES256].

(** [header.get("alg")] when it is permitted. *)
Definition permitted_algorithm (v : option json) : option algorithm :=
  match v with
  | Some (JStr s) => List.find (fun a => (algorithm_value a =? s)%string) SUPPORTED_ALGORITHMS
  | _ => None
  end.

Inductive key_type := RSAPublicKey | EllipticCurvePublicKey | OtherKey.

(** What [public_key.verify] does. *)
Inductive verification := Verified | InvalidSignature | VerificationError.

(** The [cryptography] package. *)
Class Cryptography (pubkey : Type) := {
  type_of_key : pubkey -> key_type;
  rsa_verify : pubkey -> bytes -> bytes -> verification;
  encode_dss_signature : Z -> Z -> bytes;
  ecdsa_verify : pubkey -> bytes -> bytes -> verification
}.

(** [int.from_bytes(b, "big")]. *)
Definition from_bytes_big (b : bytes) : Z := foldl (fun acc x => acc * 256 + byte_Z x)%Z 0%Z b.

Record VerifiedJws := {
  vj_header : list (string * json);
  vj_claims : list (string * json);
  vj_key_id : string
}.

(** [str(d.get(k, ""))]. *)
Definition get_str (d : list (string * json)) (k : string) : string := from_option py_str "" (dict_get d k).

Section jws.
Context {pubkey : Type} `{Cryptography pubkey}.
(** Whether the package is installed. *)
Variable installed : bool.

Definition check_verification (v : verification) : res unit :=
  match v with Verified => Ok tt | InvalidSignature | VerificationError => Raise IdentityError end.

Definition verify_signature (a : algorithm) (public_key : pubkey) (signature message : bytes) : res unit :=
  if negb installed then Raise IdentityError
  else
    match a with
    | RS256 =>
        match type_of_key public_key with
        | RSAPublicKey => check_verification (rsa_verify public_key signature message)
        | _ => Raise IdentityError
        end
    | ES256 =>
        match type_of_key public_key with
        | EllipticCurvePublicKey =>
            if negb (length signature =? 64)%nat then Raise IdentityError
            else
              let r := from_bytes_big (take 32 signature) in
              let s := from_bytes_big (drop 32 signature) in
              check_verification (ecdsa_verify public_key (encode_dss_signature r s) message)
        | _ => Raise IdentityError
        end
    end.

Definition dot : ascii := ".".

Definition signing_input (header_b64 payload_b64 : string) : string := header_b64 +:+ "." +:+ payload_b64.

Definition verify_compact_jws (token : string) (public_key : pubkey) : res VerifiedJws :=
  match split_on dot token with
  | [header_b64; payload_b64; signature_b64] =>
      raw_header ← b64url_decode header_b64;
      header ← decode_json_segment raw_header;
      match permitted_algorithm (dict_get header "alg") with
      | None => Raise IdentityError
      | Some a =>
          signature ← b64url_decode signature_b64;
          if negb (is_ascii (signing_input header_b64 payload_b64)) then Raise (PyException "UnicodeEncodeError")
          else
            _ ← verify_signature a public_key signature (utf8 (signing_input header_b64 payload_b64));
            raw_claims ← b64url_decode payload_b64;
            claims ← decode_json_segment raw_claims;
            Ok {| vj_header := header; vj_claims := claims; vj_key_id := get_str header "kid" |}
      end
  | _ => Raise IdentityError
  end.
End jws.

(** ** [StaticJwksProvider] *)

(** What a verifier asks of a key provider. *)
Class JwksProvider (provider pubkey : Type) := get_key : provider -> string -> res pubkey.

Record StaticJwksProvider (pubkey : Type) := { sp_keys : gmap string pubkey }.
Arguments sp_keys {pubkey}.

#[export] Instance static_get_key {pubkey} : JwksProvider (StaticJwksProvider pubkey) pubkey := fun p key_id =>
  match sp_keys p !! key_id with
  | Some key => Ok key
  | None => Raise IdentityError
  end.

(** ** The decoder inverts the encoding of JWS *)

Definition b64_char (n : Z) : ascii :=
  if (n <? 26)%Z then ascii_of_N (Z.to_N (65 + n))
  else if (n <? 52)%Z then ascii_of_N (Z.to_N (71 + n))
  else if (n <? 62)%Z then ascii_of_N (Z.to_N (n - 4))
  else if (n =? 62)%Z then "-" else "_".

(** RFC 7515: base64url without padding. *)
Fixpoint b64url_encode (l : bytes) : string :=
  match l with
  | [] => ""
  | [a] => let a := byte_Z a in
      String (b64_char (a / 4)) (String (b64_char (a mod 4 * 16)) "")
  | [a; b] => let a := byte_Z a in let b := byte_Z b in
      String (b64_char (a / 4)) (String (b64_char (a mod 4 * 16 + b / 16)) (String (b64_char (b mod 16 * 4)) ""))
  | a :: b :: c :: t => let a := byte_Z a in let b := byte_Z b in let c := byte_Z c in
      String (b64_char (a / 4)) (String (b64_char (a mod 4 * 16 + b / 16))
        (String (b64_char (b mod 16 * 4 + c / 64)) (String (b64_char (c mod 64)) (b64url_encode t))))
  end.

Lemma b64_char_facts n :
  (0 <= n < 64)%Z -> Ascii.eqb (b64_char n) "=" = false /\ b64_value (b64_char n) = Some n /\ (code (b64_char n) <? 128)%N = true.
Proof.
  intros Hn.
  assert (forallb (fun n => negb (Ascii.eqb (b64_char n) "=") && bool_decide (b64_value (b64_char n) = Some n) &&
    (code (b64_char n) <? 128)%N) (map Z.of_nat (seq 0 64)) = true) as Hall by (vm_compute; reflexivity).
  rewrite forallb_forall in Hall. specialize (Hall n). rewrite !andb_true_iff, negb_true_iff, bool_decide_eq_true in Hall.
  assert (In n (map Z.of_nat (seq 0 64))) as Hin by (apply in_map_iff; exists (Z.to_nat n); rewrite in_seq; lia).
  by destruct (Hall Hin) as [[? ?] ?].
Qed.

Lemma byte_Z_range b : (0 <= byte_Z b < 256)%Z.
Proof. destruct b; vm_compute; split; congruence. Qed.

Lemma Z_byte_byte b : Z_byte (byte_Z b) = b.
Proof. by destruct b. Qed.

(** One character of the alphabet. *)
Lemma a2b_char quad left p n s :
  (0 <= n < 64)%Z ->
  a2b_base64 quad left p (String (b64_char n) s) =
    if (quad =? 0)%Z then a2b_base64 1 n 0 s
    else if (quad =? 1)%Z then cons (Z_byte (left * 4 + n / 16)) <$> a2b_base64 2 (n mod 16) 0 s
    else if (quad =? 2)%Z then cons (Z_byte (left * 16 + n / 4)) <$> a2b_base64 3 (n mod 4) 0 s
    else cons (Z_byte (left * 64 + n)) <$> a2b_base64 0 0 0 s.
Proof. intros (He & Hv & _)%b64_char_facts. cbn [a2b_base64]. by rewrite He, Hv. Qed.

(** The bytes back from the six-bit pieces. *)
Lemma first_piece a : Z_byte (byte_Z a / 4 * 4 + byte_Z a mod 4) = a.
Proof. rewrite <-(Z_byte_byte a) at 3. f_equal. pose proof (Z.div_mod (byte_Z a) 4). lia. Qed.
Lemma second_piece a : Z_byte (byte_Z a / 16 * 16 + byte_Z a mod 16) = a.
Proof. rewrite <-(Z_byte_byte a) at 3. f_equal. pose proof (Z.div_mod (byte_Z a) 16). lia. Qed.
Lemma third_piece a : Z_byte (byte_Z a / 64 * 64 + byte_Z a mod 64) = a.
Proof. rewrite <-(Z_byte_byte a) at 3. f_equal. pose proof (Z.div_mod (byte_Z a) 64). lia. Qed.

Lemma split_piece n m k : (0 < k)%Z -> (0 <= m < k)%Z -> ((n * k + m) / k = n /\ (n * k + m) mod k = m)%Z.
Proof.
  intros Hk Hm. split; [rewrite Z.div_add_l, Z.div_small by lia; lia|].
  rewrite Z.add_comm, Z.mod_add, Z.mod_small by lia. done.
Qed.

Ltac six_bits :=
  repeat match goal with b : byte |- _ =>
    match goal with
    | _ : (0 <= byte_Z b < 256)%Z |- _ => fail 1
    | _ => pose proof (byte_Z_range b)
    end
  end; Z.to_euclidean_division_equations; lia.

Lemma a2b_encoded n : forall l, (length l <= n)%nat ->
  a2b_base64 0 0 0 (b64url_encode l +:+ pads (Z.to_nat (- Z.of_nat (String.length (b64url_encode l)) mod 4))) = Some l.
Proof.
  induction n as [|n IH]; intros [|a [|b [|c t]]] Hl; cbn [length] in Hl; try lia; try reflexivity;
    cbn [b64url_encode String.append String.length].
  - change (Z.to_nat _) with 2%nat. rewrite !a2b_char by six_bits. cbn -[Z.div Z.modulo Z_byte].
    rewrite Z.div_mul by done. by rewrite first_piece.
  - change (Z.to_nat _) with 1%nat. rewrite !a2b_char by six_bits. cbn -[Z.div Z.modulo Z_byte].
    destruct (split_piece (byte_Z a mod 4) (byte_Z b / 16) 16) as [-> ->]; [lia|six_bits|].
    rewrite Z.div_mul by done. by rewrite first_piece, second_piece.
  - replace (- Z.of_nat (S (S (S (S (String.length (b64url_encode t)))))) mod 4)%Z
      with (- Z.of_nat (String.length (b64url_encode t)) mod 4)%Z
      by (rewrite !Nat2Z.inj_succ; Z.to_euclidean_division_equations; lia).
    rewrite !a2b_char by six_bits. cbn -[Z.div Z.modulo Z_byte a2b_base64 pads Z.to_nat].
    rewrite IH by lia.
    destruct (split_piece (byte_Z a mod 4) (byte_Z b / 16) 16) as [-> ->]; [lia|six_bits|].
    destruct (split_piece (byte_Z b mod 16) (byte_Z c / 64) 4) as [-> ->]; [lia|six_bits|].
    cbn -[Z.div Z.modulo Z_byte]. by rewrite first_piece, second_piece, third_piece.
Qed.

Lemma pads_ascii k : is_ascii (pads k) = true.
Proof. induction k as [|k IH]; [done|exact IH]. Qed.

Lemma is_ascii_app a b : is_ascii (a +:+ b) = is_ascii a && is_ascii b.
Proof. induction a as [|c a IH]; [done|]. unfold is_ascii in *. cbn [String.append str_forallb]. by rewrite IH, andb_assoc. Qed.

Lemma is_ascii_cons n s : (0 <= n < 64)%Z -> is_ascii s = true -> is_ascii (String (b64_char n) s) = true.
Proof. intros (_ & _ & Hc)%b64_char_facts Hs. unfold is_ascii in *. cbn [str_forallb]. by rewrite Hc. Qed.

Lemma encoded_ascii n : forall l, (length l <= n)%nat -> is_ascii (b64url_encode l) = true.
Proof.
  induction n as [|n IH]; intros [|a [|b [|c t]]] Hl; cbn [length] in Hl; try lia; try reflexivity;
    cbn [b64url_encode]; repeat (apply is_ascii_cons; [six_bits|]); try reflexivity. apply IH. lia.
Qed.

(** Every byte string comes back from its base64url text without
    padding, the encoding of a JWS segment, of any length: [_b64url_decode]
    restores exactly the padding that was left out. *)
Theorem b64url_roundtrip l : b64url_decode (b64url_encode l) = Ok l.
Proof.
  unfold b64url_decode, urlsafe_b64decode, padded.
  by rewrite is_ascii_app, pads_ascii, (encoded_ascii (length l)), (a2b_encoded (length l)).
Qed.

(** ** What a verified JWS is *)

Section verified.
Context {pubkey : Type} `{Cryptography pubkey}.

(** The signature of an algorithm, by a key of its type. *)
Definition genuine (a : algorithm) (key : pubkey) (signature message : bytes) : Prop :=
  match a with
  | RS256 => type_of_key key = RSAPublicKey /\ rsa_verify key signature message = Verified
  | ES256 => type_of_key key = EllipticCurvePublicKey /\ length signature = 64%nat /\
      ecdsa_verify key (encode_dss_signature (from_bytes_big (take 32 signature)) (from_bytes_big (drop 32 signature)))
        message = Verified
  end.

Lemma verify_signature_ok installed a key signature message :
  verify_signature installed a key signature message = Ok tt <-> installed = true /\ genuine a key signature message.
Proof.
  unfold verify_signature, genuine. destruct installed; cbn [negb]; [|naive_solver].
  destruct a, (type_of_key key); try naive_solver.
  - destruct (rsa_verify _ _ _); cbn; naive_solver.
  - destruct (Nat.eqb_spec (length signature) 64); cbn [negb]; [|naive_solver].
    destruct (ecdsa_verify _ _ _); cbn; naive_solver.
Qed.

Lemma verify_signature_raise installed a key signature message e :
  verify_signature installed a key signature message = Raise e -> e = IdentityError.
Proof.
  unfold verify_signature, check_verification. intros Hr. repeat case_match; congruence.
Qed.

(** The token is three segments; the header names a permitted algorithm and the
    key signed the text of the first two; the claims are the second. *)
Record signed (token : string) (key : pubkey) (v : VerifiedJws) : Prop := {
  sg_parts : exists header_b64 payload_b64 signature_b64 raw_header raw_claims signature a,
    split_on dot token = [header_b64; payload_b64; signature_b64] /\
    b64url_decode header_b64 = Ok raw_header /\ json_loads raw_header = Some (JObj (vj_header v)) /\
    dict_get (vj_header v) "alg" = Some (JStr (algorithm_value a)) /\
    b64url_decode signature_b64 = Ok signature /\
    is_ascii (signing_input header_b64 payload_b64) = true /\
    genuine a key signature (utf8 (signing_input header_b64 payload_b64)) /\
    b64url_decode payload_b64 = Ok raw_claims /\ json_loads raw_claims = Some (JObj (vj_claims v));
  sg_key_id : vj_key_id v = get_str (vj_header v) "kid"
}.

Lemma permitted_spec v a : permitted_algorithm v = Some a <-> v = Some (JStr (algorithm_value a)).
Proof.
  unfold permitted_algorithm. split.
  - destruct v as [[]|]; try done. unfold SUPPORTED_ALGORITHMS. cbn [List.find algorithm_value].
    destruct (String.eqb_spec "RS256" s) as [<-|]; [by intros [= <-]|].
    destruct (String.eqb_spec "ES256" s) as [<-|]; [by intros [= <-]|done].
  - intros ->. by destruct a.
Qed.

Lemma decode_json_segment_ok raw items : decode_json_segment raw = Ok items <-> json_loads raw = Some (JObj items).
Proof. unfold decode_json_segment. destruct (json_loads raw) as [[]|]; naive_solver. Qed.

Lemma verify_compact_jws_ok installed token key v :
  verify_compact_jws installed token key = Ok v <-> installed = true /\ signed token key v.
Proof.
  unfold verify_compact_jws. split.
  - destruct (split_on dot token) as [|h [|p [|g [|? ?]]]] eqn:E; try done. intros Hv.
    apply bind_ok in Hv as (raw_header & Hrh & Hv). apply bind_ok in Hv as (header & Hh%decode_json_segment_ok & Hv).
    destruct (permitted_algorithm _) as [a|] eqn:Ea; [|done]. apply permitted_spec in Ea.
    apply bind_ok in Hv as (signature & Hs & Hv). destruct (is_ascii _) eqn:Eas; [|done].
    apply bind_ok in Hv as ([] & [Hi Hg]%verify_signature_ok & Hv). apply bind_ok in Hv as (raw_claims & Hrc & Hv).
    apply bind_ok in Hv as (claims & Hc%decode_json_segment_ok & [= <-]).
    split; [done|]. constructor; [|done]. by exists h, p, g, raw_header, raw_claims, signature, a.
  - intros (-> & [(h & p & g & rh & rc & s & a & -> & Hrh & Hh & Ha & Hs & Has & Hg & Hrc & Hc) Hk]).
    rewrite Hrh. cbn [mbind res_bind]. apply decode_json_segment_ok in Hh, Hc. rewrite Hh. cbn [mbind res_bind].
    apply permitted_spec in Ha. rewrite Ha, Hs. cbn [mbind res_bind]. rewrite Has. cbn [negb].
    assert (verify_signature true a key s (utf8 (signing_input h p)) = Ok tt) as -> by (by apply verify_signature_ok).
    cbn [mbind res_bind]. rewrite Hrc. cbn [mbind res_bind]. rewrite Hc. cbn [mbind res_bind].
    rewrite <-Hk. by destruct v.
Qed.
End verified.
