(* ===== verification/Oidc.v ===== *)
(** * OIDC identity ([glassbox/adapters/outbound/identity/oidc.py], [delegation.py])

    The verifier of OIDC tokens and of delegation chains, over any key provider
    and any [cryptography] package.  A principal comes only from a token that
    the key of its [kid] signed, for the issuer and audience that are trusted
    and within its times; a chain only from hops signed one by one. *)

From stdpp Require Import base tactics list strings gmap sorting.
From Stdlib Require Import ZArith Lia Ascii Floats.SpecFloat.
From S2P Require Import Prelude PyFloat PyStr Serialization Json Merkle Action Identity Config PgEvidence Decisioning Sha256 Jws.

Open Scope string_scope.
Open Scope list_scope.

Definition CLOCK_SKEW_TOLERANCE_S : float := fz 60.

Record ClaimMapping := {
  cm_tenant_claim : string;
  cm_agent_ref_claim : string;
  cm_agent_instance_claim : string;
  cm_delegating_subject_claim : string
}.

Definition default_mapping : ClaimMapping :=
  {| cm_tenant_claim := "tenant_id"; cm_agent_ref_claim := "sub"; cm_agent_instance_claim := "instance_id";
     cm_delegating_subject_claim := "act" |}.

Record OidcIdentityVerifier (provider : Type) := {
  ov_issuer : string;
  ov_audience : string;
  ov_jwks : provider;
  ov_claims : ClaimMapping;
  ov_reject_mismatched : bool
}.
Arguments ov_issuer {provider}.
Arguments ov_audience {provider}.
Arguments ov_jwks {provider}.
Arguments ov_claims {provider}.
Arguments ov_reject_mismatched {provider}.

Definition mk_OidcIdentityVerifier {provider} (issuer audience : string) (jwks : provider)
    (claims : option ClaimMapping) (reject_mismatched_assertions : bool) : res (OidcIdentityVerifier provider) :=
  _ ← raise_if (str_is_empty issuer || str_is_empty audience) IdentityError;
  Ok {| ov_issuer := issuer; ov_audience := audience; ov_jwks := jwks; ov_claims := default default_mapping claims;
        ov_reject_mismatched := reject_mismatched_assertions |}.

(** ** Claims *)

Abbreviation claims := (list (string * json)).

(** [_require_claim] of [oidc.py]. *)
Definition require_claim (c : claims) (name : string) : res string :=
  match dict_get c name with
  | Some (JStr s) => if str_is_empty s then Raise IdentityError else Ok s
  | _ => Raise IdentityError
  end.

Definition issuer_matches (issuer : string) (c : claims) : bool :=
  match dict_get c "iss" with Some (JStr s) => (s =? issuer)%string | _ => false end.

Definition audience_matches (audience : string) (c : claims) : bool :=
  match dict_get c "aud" with
  | Some (JStr s) => (s =? audience)%string
  | Some (JArr l) => existsb (fun v => match v with JStr s => (s =? audience)%string | _ => false end) l
  | _ => false
  end.

Definition require_issuer_and_audience (issuer audience : string) (c : claims) : res unit :=
  _ ← raise_if (negb (issuer_matches issuer c)) IdentityError;
  raise_if (negb (audience_matches audience c)) IdentityError.

(** [claims.get(name)], and [float] of it unless it is [None]. *)
Definition claim_time (c : claims) (name : string) : res (option float) :=
  match dict_get c name with
  | None | Some JNull => Ok None
  | Some v => x ← float_of_json v; Ok (Some x)
  end.

Definition require_temporal_validity (c : claims) (now : float) : res unit :=
  exp ← claim_time c "exp";
  match exp with
  | None => Raise IdentityError
  | Some expires_at =>
      _ ← raise_if (fgt now (fadd expires_at CLOCK_SKEW_TOLERANCE_S)) CredentialExpiredError;
      nbf ← claim_time c "nbf";
      match nbf with
      | None => Ok tt
      | Some not_before => raise_if (flt now (fsub not_before CLOCK_SKEW_TOLERANCE_S)) CredentialExpiredError
      end
  end.

(** The first of the claims that is true, or the default: [a or b or c]. *)
Definition first_truthy (c : claims) (names : list string) (default : string) : string :=
  match List.find truthy (omap (dict_get c) names) with Some v => py_str v | None => default end.

(** [sorted((k, v) for k, v in claims.items() if isinstance(v, str))]. *)
Definition text_claims (c : claims) : list (string * pyval) :=
  sort_by fst (omap (fun kv => match kv.2 with JStr s => Some (kv.1, PStr s) | _ => None end) c).

(** The arguments of [VerifiedPrincipal] and what they raise. *)
Definition principal_of (m : ClaimMapping) (key_id tenant_id agent_ref : string) (c : claims) (now : float)
    : res VerifiedPrincipal :=
  issued_at ← (match dict_get c "iat" with None => Ok now | Some v => float_of_json v end);
  expires_at ← (match dict_get c "exp" with None => Raise PyKeyError | Some v => float_of_json v end);
  mk_VerifiedPrincipal agent_ref (first_truthy c [cm_agent_instance_claim m; "jti"] agent_ref) tenant_id OIDC
    (from_option py_str key_id (dict_get c "jti")) issued_at expires_at
    (match dict_get c (cm_delegating_subject_claim m) with Some v => if truthy v then Some (py_str v) else None | None => None end)
    {| hops := [] |} (AsTuple (text_claims c)).

(** [except (IdentityError, DelegationError): raise], anything else wrapped. *)
Definition as_identity_error {A} (r : res A) : res A :=
  match r with
  | Ok a => Ok a
  | Raise DelegationError => Raise DelegationError
  | Raise CredentialExpiredError => Raise CredentialExpiredError
  | Raise _ => Raise IdentityError
  end.

(** ** The header before the key *)

(** [_peek_header] of both files, and [header.get] on what it returns. *)
Definition peek_header (token : string) : res json :=
  match split_on dot token with
  | [header_b64; _; _] =>
      match urlsafe_b64decode (padded header_b64) ≫= json_loads with
      | Some header => Ok header
      | None => Raise IdentityError
      end
  | _ => Raise IdentityError
  end.

Definition header_kid (header : json) : res string :=
  match header with
  | JObj items => Ok (get_str items "kid")
  | _ => Raise (PyException "AttributeError")
  end.

Section verifier.
Context {provider pubkey : Type} `{Cryptography pubkey} `{JwksProvider provider pubkey}.
Variable installed : bool.

(** The key that the token names, and the token checked with it. *)
Definition verify_token (jwks : provider) (token : string) : res (string * VerifiedJws) :=
  header ← peek_header token;
  key_id ← header_kid header;
  _ ← raise_if (str_is_empty key_id) IdentityError;
  public_key ← get_key jwks key_id;
  verified ← verify_compact_jws installed token public_key;
  Ok (key_id, verified).

Definition oidc_verify (v : OidcIdentityVerifier provider) (credential : RawCredential) (now : float)
    : res VerifiedPrincipal :=
  _ ← raise_if (negb (bool_decide (rc_credential_type credential = OIDC))) IdentityError;
  '(key_id, verified) ← verify_token (ov_jwks v) (rc_material credential);
  let c := vj_claims verified in
  _ ← require_issuer_and_audience (ov_issuer v) (ov_audience v) c;
  _ ← require_temporal_validity c now;
  tenant_id ← require_claim c (cm_tenant_claim (ov_claims v));
  agent_ref ← require_claim c (cm_agent_ref_claim (ov_claims v));
  as_identity_error (principal_of (ov_claims v) key_id tenant_id agent_ref c now).

Definition oidc_assert_matches (v : OidcIdentityVerifier provider) (principal : VerifiedPrincipal)
    (asserted_tenant_id asserted_subject : string) : res unit :=
  if negb (ov_reject_mismatched v) then Ok tt
  else check_assertion principal asserted_tenant_id asserted_subject.

(** ** Delegation *)

(** [_require_claim] of [delegation.py]. *)
Definition hop_claim (c : claims) (name : string) : res json :=
  match dict_get c name with
  | None | Some JNull => Raise IdentityError
  | Some (JStr s) => if str_is_empty s then Raise IdentityError else Ok (JStr s)
  | Some v => Ok v
  end.

Definition subject_type_of (v : json) : option SubjectType :=
  match v with
  | JStr s => List.find (fun t => (subject_type_value t =? s)%string) [HUMAN; AGENT; SERVICE]
  | _ => None
  end.

(** [claims.get("capabilities") or ()], which must be a list. *)
Definition claimed_capabilities (c : claims) : res (list string) :=
  match dict_get c "capabilities" with
  | None => Ok []
  | Some v => if truthy v then match v with JArr l => Ok (map py_str l) | _ => Raise IdentityError end else Ok []
  end.

(** [DelegationHop(...)]: a subject that is not text is refused by the type. *)
Definition hop_of (subject : json) (subject_type : SubjectType) (capabilities : list string) (c : claims) : res DelegationHop :=
  issued_at ← (v ← hop_claim c "iat"; float_of_json v);
  expires_at ← (v ← hop_claim c "exp"; float_of_json v);
  match subject with
  | JStr s => mk_DelegationHop s subject_type (list_to_set capabilities) issued_at expires_at
  | _ => Raise (DomainValidationError "subject")
  end.

Definition verify_hop (jwks : provider) (token : string) : res DelegationHop :=
  '(_, verified) ← verify_token jwks token;
  let c := vj_claims verified in
  subject ← hop_claim c "sub";
  subject_type_raw ← hop_claim c "subject_type";
  match subject_type_of subject_type_raw with
  | None => Raise IdentityError
  | Some t =>
      capabilities ← claimed_capabilities c;
      match hop_of subject t capabilities c with
      | Ok h => Ok h
      | Raise _ => Raise IdentityError
      end
  end.

Definition verify_delegation_chain (jwks : provider) (hop_tokens : list string) : res DelegationChain :=
  hops ← res_map (verify_hop jwks) hop_tokens;
  mk_DelegationChain hops.
End verifier.

(** ** What the verifier accepts *)

Section accepted.
Context {provider pubkey : Type} `{Cryptography pubkey} `{JwksProvider provider pubkey}.
Variable installed : bool.

Lemma b64url_decode_ok s raw : b64url_decode s = Ok raw <-> urlsafe_b64decode (padded s) = Some raw.
Proof. unfold b64url_decode. destruct (urlsafe_b64decode _); naive_solver. Qed.

(** A verified token names its own key. *)
Lemma verify_token_ok jwks token kid j :
  verify_token installed jwks token = Ok (kid, j) <->
  installed = true /\ exists key, kid <> "" /\ kid = get_str (vj_header j) "kid" /\ get_key jwks kid = Ok key /\ signed token key j.
Proof.
  unfold verify_token. split.
  - intros Hv. apply bind_ok in Hv as (header & Hp & Hv). apply bind_ok in Hv as (k & Hk & Hv).
    apply bind_ok in Hv as ([] & Hne%raise_if_ok & Hv). apply bind_ok in Hv as (key & Hg & Hv).
    apply bind_ok in Hv as (v & [Hi Hs]%verify_compact_jws_ok & [= <- <-]). split; [done|]. exists key.
    pose proof Hs as [(h & p & g & rh & rc & s & a & E & Hrh & Hh & _) _]. unfold peek_header in Hp. rewrite E in Hp.
    apply b64url_decode_ok in Hrh. rewrite Hrh in Hp. cbn in Hp. rewrite Hh in Hp. injection Hp as <-. injection Hk as <-.
    split_and!; try done. intros Hempty. rewrite Hempty in Hne. done.
  - intros (Hi & key & Hne & Hkid & Hg & Hs). pose proof Hs as [(h & p & g & rh & rc & s & a & E & Hrh & Hh & _) _].
    unfold peek_header. rewrite E. apply b64url_decode_ok in Hrh. rewrite Hrh. cbn [mbind option_bind]. rewrite Hh.
    cbn [mbind res_bind header_kid]. rewrite <-Hkid. destruct kid as [|c kid]; [done|]. cbn [str_is_empty raise_if mbind res_bind].
    rewrite Hg. cbn [mbind res_bind].
    assert (verify_compact_jws installed token key = Ok j) as -> by (by apply verify_compact_jws_ok). done.
Qed.

Lemma claim_time_ok c name t :
  claim_time c name = Ok t <->
  match t with
  | None => dict_get c name = None \/ dict_get c name = Some JNull
  | Some x => exists v, dict_get c name = Some v /\ v <> JNull /\ float_of_json v = Ok x
  end.
Proof.
  unfold claim_time. destruct (dict_get c name) as [v|]; [|destruct t; naive_solver].
  destruct v; [destruct t; naive_solver|..];
    (destruct (float_of_json _) as [y|] eqn:E; cbn [mbind res_bind]; destruct t; naive_solver congruence).
Qed.

(** The token's times allow [now], give or take a minute. *)
Definition within_times (c : claims) (now : float) : Prop :=
  (exists x, claim_time c "exp" = Ok (Some x) /\ fgt now (fadd x CLOCK_SKEW_TOLERANCE_S) = false) /\
  (claim_time c "nbf" = Ok None \/
   exists x, claim_time c "nbf" = Ok (Some x) /\ flt now (fsub x CLOCK_SKEW_TOLERANCE_S) = false).

Lemma temporal_ok c now : require_temporal_validity c now = Ok tt <-> within_times c now.
Proof.
  unfold require_temporal_validity, within_times.
  destruct (claim_time c "exp") as [[x|]|]; cbn [mbind res_bind]; [|by split; [|intros [(? & ? & _) _]]..].
  destruct (fgt now _) eqn:E; cbn [raise_if mbind res_bind].
  { split; [done|]. intros [(y & [= <-] & Hy) _]. congruence. }
  destruct (claim_time c "nbf") as [[y|]|]; cbn [mbind res_bind].
  - rewrite raise_if_ok. split; [intros Hf; split; [by exists x|right; by exists y]|].
    intros [_ [?|(z & [= <-] & ?)]]; done.
  - split; [|done]. intros _. split; [by exists x|by left].
  - split; [done|]. intros [_ [?|(? & ? & _)]]; done.
Qed.

Definition trusted (v : OidcIdentityVerifier provider) (c : claims) : Prop :=
  dict_get c "iss" = Some (JStr (ov_issuer v)) /\
  (dict_get c "aud" = Some (JStr (ov_audience v)) \/ exists l, dict_get c "aud" = Some (JArr l) /\ JStr (ov_audience v) ∈ l).

Lemma trusted_ok v c : require_issuer_and_audience (ov_issuer v) (ov_audience v) c = Ok tt <-> trusted v c.
Proof.
  unfold require_issuer_and_audience, trusted, issuer_matches, audience_matches.
  rewrite bind_ok. setoid_rewrite raise_if_ok. setoid_rewrite negb_false_iff. split.
  - intros ([] & Hi & Ha). split.
    + destruct (dict_get c "iss") as [[]|]; try done. apply String.eqb_eq in Hi. by subst.
    + destruct (dict_get c "aud") as [[]|]; try done; [left; apply String.eqb_eq in Ha; by subst|right].
      eexists. split; [done|]. apply existsb_exists in Ha as (x & Hx & Heq). destruct x; try done.
      apply String.eqb_eq in Heq. subst. by apply list_elem_of_In.
  - intros [-> Ha]. exists tt. rewrite String.eqb_refl. split; [done|]. destruct Ha as [->|(l & -> & Hl)].
    + apply String.eqb_refl.
    + apply existsb_exists. exists (JStr (ov_audience v)). split; [by apply list_elem_of_In|apply String.eqb_refl].
Qed.

Lemma require_claim_ok c name s : require_claim c name = Ok s <-> dict_get c name = Some (JStr s) /\ s <> "".
Proof. unfold require_claim. destruct (dict_get c name) as [[]|]; try naive_solver. destruct s0; cbn; naive_solver. Qed.

Lemma as_identity_error_ok {A} (r : res A) a : as_identity_error r = Ok a <-> r = Ok a.
Proof. destruct r as [|[]]; cbn; naive_solver. Qed.

(** C9.  An OIDC principal is always attested, and every attested one is
    accepted: [verify] returns a principal exactly when the credential is a
    three-part token whose header names a permitted algorithm and a [kid], the
    key the provider holds for that [kid] is of the algorithm's type and signed
    the header and payload as presented, the payload names the one trusted
    issuer and audience, [exp] and [nbf] allow the present moment within a
    minute, and the tenant and agent claims are there.  Nothing of the
    principal comes from elsewhere: tenant, agent and expiry are the values of
    the signed claims. *)
Theorem oidc_principal_is_attested v cred now p :
  oidc_verify installed v cred now = Ok p <->
  installed = true /\ rc_credential_type cred = OIDC /\
  exists kid key j tenant agent,
    kid <> "" /\ kid = get_str (vj_header j) "kid" /\ get_key (ov_jwks v) kid = Ok key /\ signed (rc_material cred) key j /\
    trusted v (vj_claims j) /\ within_times (vj_claims j) now /\
    dict_get (vj_claims j) (cm_tenant_claim (ov_claims v)) = Some (JStr tenant) /\ tenant <> "" /\
    dict_get (vj_claims j) (cm_agent_ref_claim (ov_claims v)) = Some (JStr agent) /\ agent <> "" /\
    principal_of (ov_claims v) kid tenant agent (vj_claims j) now = Ok p /\
    vp_tenant_id p = tenant /\ vp_agent_ref p = agent /\
    (exists e, dict_get (vj_claims j) "exp" = Some e /\ float_of_json e = Ok (vp_expires_at p)).
Proof.
  unfold oidc_verify. split.
  - intros Hv. apply bind_ok in Hv as ([] & Ht%raise_if_ok & Hv). apply negb_false_iff, bool_decide_eq_true in Ht.
    apply bind_ok in Hv as ([kid j] & (Hi & key & Hne & Hkid & Hg & Hs)%verify_token_ok & Hv).
    apply bind_ok in Hv as ([] & Htr%trusted_ok & Hv). apply bind_ok in Hv as ([] & Hw%temporal_ok & Hv).
    apply bind_ok in Hv as (tenant & [Hten Hten']%require_claim_ok & Hv).
    apply bind_ok in Hv as (agent & [Hag Hag']%require_claim_ok & Hp). rewrite as_identity_error_ok in Hp.
    split_and!; [done..|]. exists kid, key, j, tenant, agent. split_and!; try done; unfold principal_of in Hp;
      apply bind_ok in Hp as (iat & _ & Hp); apply bind_ok in Hp as (exp & He & Hp);
      apply mk_VerifiedPrincipal_ok in Hp as (? & ? & ? & ? & Hexp & _); try done.
    destruct (dict_get _ "exp") as [e|]; [|done]. exists e. by rewrite Hexp.
  - intros (Hi & Ht & kid & key & j & tenant & agent & Hne & Hkid & Hg & Hs & Htr & Hw & Hten & Hten' & Hag & Hag' & Hp & _).
    rewrite Ht. cbn [bool_decide negb raise_if mbind res_bind].
    assert (verify_token installed (ov_jwks v) (rc_material cred) = Ok (kid, j)) as -> by (apply verify_token_ok; split; [done|by exists key]).
    cbn [mbind res_bind]. apply trusted_ok in Htr as ->. apply temporal_ok in Hw as ->. cbn [mbind res_bind].
    assert (require_claim (vj_claims j) (cm_tenant_claim (ov_claims v)) = Ok tenant) as -> by (by apply require_claim_ok).
    cbn [mbind res_bind].
    assert (require_claim (vj_claims j) (cm_agent_ref_claim (ov_claims v)) = Ok agent) as -> by (by apply require_claim_ok).
    cbn [mbind res_bind]. by rewrite Hp.
Qed.
End accepted.

(** ** What the verifier raises *)

Section errors.
Context {provider pubkey : Type} `{Cryptography pubkey} `{JwksProvider provider pubkey}.
Variable installed : bool.

(** The claims' times are numbers, or texts of numbers. *)
Definition readable_times (c : claims) : Prop :=
  is_ok (claim_time c "exp") = true /\ is_ok (claim_time c "nbf") = true.

Lemma verify_compact_jws_raise token (key : pubkey) e :
  is_ascii token = true -> verify_compact_jws installed token key = Raise e -> e = IdentityError.
Proof.
  intros Hascii. unfold verify_compact_jws. pose proof (split_on_parts dot token) as Hjoin.
  destruct (split_on dot token) as [|h [|p [|g [|? ?]]]]; try congruence.
  assert (is_ascii (signing_input h p) = true) as Has.
  { rewrite <-Hjoin in Hascii. cbn [str_join] in Hascii. unfold signing_input. rewrite !is_ascii_app in *.
    by repeat (apply andb_true_iff in Hascii as [-> Hascii]). }
  assert (Hb : forall s e, b64url_decode s = Raise e -> e = IdentityError).
  { intros s e'. unfold b64url_decode. destruct (urlsafe_b64decode _); congruence. }
  assert (Hd : forall s e, decode_json_segment s = Raise e -> e = IdentityError).
  { intros s e'. unfold decode_json_segment. destruct (json_loads s) as [[]|]; congruence. }
  destruct (b64url_decode h) as [rh|] eqn:E1; cbn [mbind res_bind]; [|intros [= <-]; by eapply Hb].
  destruct (decode_json_segment rh) as [hd|] eqn:E2; cbn [mbind res_bind]; [|intros [= <-]; by eapply Hd].
  destruct (permitted_algorithm _) as [a|]; [|congruence].
  destruct (b64url_decode g) as [sg|] eqn:E3; cbn [mbind res_bind]; [|intros [= <-]; by eapply Hb].
  rewrite Has. cbn [negb].
  destruct (verify_signature _ _ _ _ _) as [[]|] eqn:E4; cbn [mbind res_bind]; [|intros [= <-]; by eapply verify_signature_raise].
  destruct (b64url_decode p) as [rc|] eqn:E5; cbn [mbind res_bind]; [|intros [= <-]; by eapply Hb].
  destruct (decode_json_segment rc) as [cl|] eqn:E6; cbn [mbind res_bind]; [done|intros [= <-]; by eapply Hd].
Qed.

Lemma temporal_raise c now e :
  readable_times c -> require_temporal_validity c now = Raise e -> e = IdentityError \/ e = CredentialExpiredError.
Proof.
  intros [He Hn]. unfold require_temporal_validity.
  destruct (claim_time c "exp") as [[x|]|]; cbn in He |- *; [|naive_solver|done].
  destruct (fgt now _); cbn; [naive_solver|]. destruct (claim_time c "nbf") as [[y|]|]; cbn in Hn |- *; [|naive_solver|done].
  destruct (flt now _); cbn; naive_solver.
Qed.

(** What cannot be raised. *)
Definition unraised {A} (e : exn) (r : res A) : Prop := r <> Raise e.

Lemma unraised_ok {A} e (a : A) : unraised e (Ok a).
Proof. done. Qed.
Lemma unraised_bind {A B} e (m : res A) (f : A -> res B) : unraised e m -> (forall a, unraised e (f a)) -> unraised e (m ≫= f).
Proof. destruct m as [a|e']; cbn; [auto|]. unfold unraised. congruence. Qed.
Lemma unraised_raise_if b e e' : e' <> e -> unraised e (raise_if b e').
Proof. destruct b; unfold unraised; cbn; congruence. Qed.
Lemma unraised_identifier e v f : e <> DomainValidationError f -> unraised e (require_identifier v f).
Proof. unfold unraised, require_identifier, require_non_empty, mbind, res_bind. intros He Hr. repeat case_match; congruence. Qed.
Lemma unraised_timestamp e v f : e <> DomainValidationError f -> unraised e (require_timestamp v f).
Proof. unfold unraised, require_timestamp, require_finite, mbind, res_bind. intros He Hr. repeat case_match; congruence. Qed.
Lemma unraised_float v : unraised DelegationError (float_of_json v).
Proof. unfold unraised, float_of_json, float_of_int. intros Hr. repeat case_match; congruence. Qed.

Ltac unraised_step :=
  first [ apply unraised_ok | apply unraised_identifier; discriminate | apply unraised_timestamp; discriminate
        | apply unraised_raise_if; discriminate | apply unraised_float | progress case_match | discriminate
        | apply unraised_bind; [|intros ?] ].

Lemma principal_no_delegation_error m kid t a c now : unraised DelegationError (principal_of m kid t a c now).
Proof.
  unfold principal_of, mk_VerifiedPrincipal, res_opt, freeze_pairs. repeat unraised_step.
Qed.

(** The verifier fails as it documents: for a token of ASCII text whose
    header is a JSON object and whose times read as numbers, with a provider
    that only ever raises [IdentityError], a credential that yields no
    principal is an [IdentityError] or a [CredentialExpiredError], whatever the
    rest of it holds - never an error that a caller does not expect. *)
Theorem oidc_errors_are_documented (v : OidcIdentityVerifier provider) cred now e :
  (forall k e, get_key (ov_jwks v) k = Raise e -> e = IdentityError) ->
  is_ascii (rc_material cred) = true ->
  (forall header, peek_header (rc_material cred) = Ok header -> exists items, header = JObj items) ->
  (forall key j, signed (rc_material cred) key j -> readable_times (vj_claims j)) ->
  oidc_verify installed v cred now = Raise e ->
  e = IdentityError \/ e = CredentialExpiredError.
Proof.
  intros Hget Hascii Hheader Htimes. unfold oidc_verify.
  destruct (negb _); cbn [raise_if mbind res_bind]; [naive_solver|].
  destruct (verify_token _ _ _) as [[kid j]|e'] eqn:Et; cbn [mbind res_bind].
  - apply verify_token_ok in Et as (_ & key & _ & _ & _ & Hs). specialize (Htimes key j Hs).
    unfold require_issuer_and_audience. destruct (negb (issuer_matches _ _)); cbn [raise_if mbind res_bind]; [naive_solver|].
    destruct (negb (audience_matches _ _)); cbn [raise_if mbind res_bind]; [naive_solver|].
    destruct (require_temporal_validity _ _) as [[]|e'] eqn:Ew; cbn [mbind res_bind].
    2: { intros [= <-]. by eapply temporal_raise. }
    assert (Hc : forall name e, require_claim (vj_claims j) name = Raise e -> e = IdentityError).
    { intros name e'. unfold require_claim. intros Hr. repeat case_match; congruence. }
    destruct (require_claim _ (cm_tenant_claim _)) as [t|] eqn:E1; cbn [mbind res_bind]; [|intros [= <-]; left; by eapply Hc].
    destruct (require_claim _ (cm_agent_ref_claim _)) as [a|] eqn:E2; cbn [mbind res_bind]; [|intros [= <-]; left; by eapply Hc].
    destruct (principal_of _ _ _ _ _ _) as [p|e'] eqn:Ep; cbn; [done|].
    destruct e'; try naive_solver. exfalso. by apply principal_no_delegation_error in Ep.
  - intros [= <-]. left. unfold verify_token in Et. destruct (peek_header _) as [header|] eqn:Eh; cbn [mbind res_bind] in Et.
    + destruct (Hheader header eq_refl) as [items ->]. cbn [header_kid mbind res_bind] in Et.
      destruct (str_is_empty _); cbn [raise_if mbind res_bind] in Et; [congruence|].
      destruct (get_key _ _) as [key|] eqn:Ek; cbn [mbind res_bind] in Et; [|injection Et as <-; by eapply Hget].
      destruct (verify_compact_jws _ _ _) as [|] eqn:Ev; cbn [mbind res_bind] in Et; [done|injection Et as <-].
      by eapply verify_compact_jws_raise.
    + unfold peek_header in Eh. repeat case_match; congruence.
Qed.
End errors.

(** ** Delegation chains *)

Section chains.
Context {provider pubkey : Type} `{Cryptography pubkey} `{JwksProvider provider pubkey}.
Variable installed : bool.

(** The hop that a token's claims describe. *)
Record hop_from (c : claims) (h : DelegationHop) : Prop := {
  hf_subject : dict_get c "sub" = Some (JStr (hop_subject h));
  hf_type : dict_get c "subject_type" = Some (JStr (subject_type_value (hop_subject_type h)));
  hf_capabilities : forall x, x ∈ hop_capabilities h -> exists l v, dict_get c "capabilities" = Some (JArr l) /\ v ∈ l /\ py_str v = x;
  hf_expires : exists v, dict_get c "exp" = Some v /\ float_of_json v = Ok (hop_expires_at h);
  hf_wf : hop_wf h
}.

Lemma hop_claim_ok c name v : hop_claim c name = Ok v -> dict_get c name = Some v.
Proof. unfold hop_claim. destruct (dict_get c name) as [[]|]; try congruence. by case_match; [|intros [= <-]]. Qed.

Lemma subject_type_ok v t : subject_type_of v = Some t -> v = JStr (subject_type_value t).
Proof. destruct v; try done. unfold subject_type_of. intros [_ Heq%String.eqb_eq]%List.find_some. by subst. Qed.

Lemma capabilities_ok c l x :
  claimed_capabilities c = Ok l -> x ∈ l -> exists k v, dict_get c "capabilities" = Some (JArr k) /\ v ∈ k /\ py_str v = x.
Proof.
  unfold claimed_capabilities. destruct (dict_get c "capabilities") as [v|]; [|intros [= <-]; set_solver].
  destruct (truthy v); [|intros [= <-]; set_solver]. destruct v; try done. intros [= <-] (v & -> & Hv)%list_elem_of_fmap. eauto.
Qed.

Lemma mk_DelegationHop_fields s t caps i e h :
  mk_DelegationHop s t caps i e = Ok h ->
  hop_subject h = s /\ hop_subject_type h = t /\ hop_capabilities h ⊆ caps /\ hop_expires_at h = e.
Proof.
  unfold mk_DelegationHop. intros Hh. inv_ok. subst h. cbn.
  repeat match goal with
  | Hx : require_identifier _ _ = Ok _ |- _ => apply require_identifier_valid in Hx as [-> ?]
  | Hx : require_timestamp _ _ = Ok _ |- _ => apply require_timestamp_ok in Hx as (-> & _)
  end. split_and!; done || set_solver.
Qed.

Lemma verify_hop_ok jwks token h :
  verify_hop installed jwks token = Ok h ->
  installed = true /\ exists kid key j, kid <> "" /\ kid = get_str (vj_header j) "kid" /\ get_key jwks kid = Ok key /\
    signed token key j /\ hop_from (vj_claims j) h.
Proof.
  unfold verify_hop. intros Hv. apply bind_ok in Hv as ([kid j] & (Hi & key & Hne & Hkid & Hg & Hs)%verify_token_ok & Hv).
  apply bind_ok in Hv as (sub & Hsub%hop_claim_ok & Hv). apply bind_ok in Hv as (ty & Hty%hop_claim_ok & Hv).
  destruct (subject_type_of ty) as [t|] eqn:Et; [|done]. apply subject_type_ok in Et. subst ty.
  apply bind_ok in Hv as (caps & Hcaps & Hv). destruct (hop_of _ _ _ _) as [h'|] eqn:Eh; [|done]. injection Hv as ->.
  unfold hop_of in Eh. apply bind_ok in Eh as (iat & _ & Eh). apply bind_ok in Eh as (exp & He & Eh).
  apply bind_ok in He as (v & Hv%hop_claim_ok & He). destruct sub as [| | | |s| |]; try done.
  pose proof (mk_DelegationHop_wf _ _ _ _ _ _ Eh) as Hwf. apply mk_DelegationHop_fields in Eh as (E1 & E2 & E3 & E4).
  split; [done|]. exists kid, key, j. split_and!; try done. constructor; [by rewrite E1|by rewrite E2| |by exists v; rewrite E4|done].
  intros x Hx. eapply capabilities_ok; [done|]. apply E3, elem_of_list_to_set in Hx. done.
Qed.

(** C10.  A delegation chain is signed hop by hop and only narrows: when
    [verify_delegation_chain] returns a chain, each hop is described by the
    claims of the token at its place, which the key of that token's [kid]
    signed with a permitted algorithm, and from the root to the leaf no hop
    holds a capability that an earlier one lacks or expires after it. *)
Theorem delegation_is_signed_and_narrows jwks tokens ch :
  verify_delegation_chain installed jwks tokens = Ok ch ->
  Forall2 (fun token h => exists kid key j,
      kid <> "" /\ kid = get_str (vj_header j) "kid" /\ get_key jwks kid = Ok key /\ signed token key j /\
      hop_from (vj_claims j) h) tokens (hops ch) /\
  StronglySorted attenuates (hops ch).
Proof.
  unfold verify_delegation_chain. intros Hv. apply bind_ok in Hv as (l & Hl & Hch). apply res_map_ok in Hl.
  unfold mk_DelegationChain in Hch. apply bind_ok in Hch as ([] & Hatt & [= <-]). cbn [hops].
  assert (Forall2 (fun token h => exists kid key j,
      kid <> "" /\ kid = get_str (vj_header j) "kid" /\ get_key jwks kid = Ok key /\ signed token key j /\
      hop_from (vj_claims j) h) tokens l) as Hall.
  { eapply Forall2_impl; [exact Hl|]. intros token h Hh. by apply verify_hop_ok in Hh as (_ & Hh). }
  split; [done|]. apply require_attenuating_ok; [|done]. clear -Hall.
  induction Hall as [|token h ts hs (kid & key & j & _ & _ & _ & _ & []) _ IH]; by constructor.
Qed.
End chains.

(** ** Tokens to run the verifiers on *)

(** A [cryptography] package: a signature is the digest of the key and the text. *)
Definition toy_sign (key : string) (message : bytes) : bytes := sha256 (utf8 key ++ message).

#[local] Instance toy_cryptography : Cryptography string := {
  type_of_key _ := RSAPublicKey;
  rsa_verify key signature message := if bool_decide (signature = toy_sign key message) then Verified else InvalidSignature;
  encode_dss_signature r s := [];
  ecdsa_verify _ _ _ := InvalidSignature
}.

Definition segment (v : json) : string := b64url_encode (utf8 (print canonical_config v)).
Definition token (key : string) (header payload : json) : string :=
  let text := signing_input (segment header) (segment payload) in text +:+ "." +:+ b64url_encode (toy_sign key (utf8 text)).

Definition toy_jwks : StaticJwksProvider string := {| sp_keys := {[ "k1" := "issuer key"; "k2" := "agent key" ]} |}.
Definition toy_verifier : OidcIdentityVerifier (StaticJwksProvider string) :=
  {| ov_issuer := "https://idp"; ov_audience := "glassbox"; ov_jwks := toy_jwks; ov_claims := default_mapping;
     ov_reject_mismatched := true |}.

Definition toy_header (kid : string) : json := JObj [("alg", JStr "RS256"); ("kid", JStr kid)].
Definition toy_payload (exp : json) : json :=
  JObj [("iss", JStr "https://idp"); ("aud", JArr [JStr "other"; JStr "glassbox"]); ("exp", exp); ("iat", JInt 50);
        ("tenant_id", JStr "t1"); ("sub", JStr "agent-1"); ("jti", JStr "tok-1")].
Definition oidc_credential (material : string) : RawCredential :=
  {| rc_credential_type := OIDC; rc_material := material; rc_presented_at := fz 90 |}.
Definition toy_token : string := token "issuer key" (toy_header "k1") (toy_payload (JInt 100)).

Definition toy_principal : VerifiedPrincipal :=
  {| vp_agent_ref := "agent-1"; vp_agent_instance_id := "tok-1"; vp_tenant_id := "t1"; vp_credential_type := OIDC;
     vp_credential_id := "tok-1"; vp_issued_at := fz 50; vp_expires_at := fz 100; vp_delegating_subject := None;
     vp_delegation_chain := {| hops := [] |};
     vp_claims := [("iss", PStr "https://idp"); ("jti", PStr "tok-1"); ("sub", PStr "agent-1"); ("tenant_id", PStr "t1")] |}.

(** Accepted to the minute after it expires, not with another key, not changed. *)
Example toy_token_verifies :
  oidc_verify true toy_verifier (oidc_credential toy_token) (fz 160) = Ok toy_principal /\
  oidc_verify true toy_verifier (oidc_credential toy_token) (fz 161) = Raise CredentialExpiredError /\
  oidc_verify true toy_verifier (oidc_credential (token "agent key" (toy_header "k1") (toy_payload (JInt 100)))) (fz 90)
    = Raise IdentityError /\
  oidc_verify false toy_verifier (oidc_credential toy_token) (fz 90) = Raise IdentityError.
Proof. vm_compute. split_and!; reflexivity. Qed.

Lemma oidc_errors_are_documented_witness :
  oidc_verify true toy_verifier (oidc_credential toy_token) (fz 161) = Raise CredentialExpiredError /\
  (CredentialExpiredError = IdentityError \/ CredentialExpiredError = CredentialExpiredError).
Proof.
  assert (oidc_verify true toy_verifier (oidc_credential toy_token) (fz 161) = Raise CredentialExpiredError) as Hr
    by (vm_compute; reflexivity).
  split; [exact Hr|]. apply (oidc_errors_are_documented true toy_verifier (oidc_credential toy_token) (fz 161)).
  - intros k e. unfold get_key, static_get_key. destruct (_ !! k); congruence.
  - vm_compute. reflexivity.
  - intros header Hh. vm_compute in Hh. injection Hh as <-. eexists. reflexivity.
  - intros key [header claims kid]. intros [(h & p & g & rh & rc & s & a & E & _ & _ & _ & _ & _ & _ & Hrc & Hc) _].
    vm_compute in E. injection E as <- <- <-. vm_compute in Hrc. injection Hrc as <-. vm_compute in Hc. injection Hc as <-.
    split; vm_compute; reflexivity.
  - exact Hr.
Defined.

Definition hop_payload (subject subject_type : string) (capabilities : list string) (exp : Z) : json :=
  JObj [("sub", JStr subject); ("subject_type", JStr subject_type); ("capabilities", JArr (map JStr capabilities));
        ("iat", JInt 10); ("exp", JInt exp)].

Definition toy_chain_tokens (kid key : string) : list string :=
  [token key (toy_header kid) (hop_payload "alice" "human" ["wire"; "read"] 200);
   token "agent key" (toy_header "k2") (hop_payload "agent-1" "agent" ["read"] 150)].

Definition chain_of (r : res DelegationChain) : DelegationChain := match r with Ok c => c | Raise _ => {| hops := [] |} end.

Lemma delegation_is_signed_and_narrows_witness :
  StronglySorted attenuates (hops (chain_of (verify_delegation_chain true toy_jwks (toy_chain_tokens "k1" "issuer key")))).
Proof.
  apply (delegation_is_signed_and_narrows true toy_jwks (toy_chain_tokens "k1" "issuer key")). vm_compute. reflexivity.
Defined.

(** ** Where the code departs from what it says *)

(** A header that is JSON but not an object is an [AttributeError]. *)
Example array_header_escapes :
  oidc_verify true toy_verifier (oidc_credential (token "issuer key" (JArr []) (toy_payload (JInt 100)))) (fz 90)
    = Raise (PyException "AttributeError").
Proof. vm_compute. reflexivity. Qed.

(** Text that is not ASCII in the payload is a [UnicodeEncodeError], before any
    signature is checked: no key is needed to cause it. *)
Example payload_text_escapes :
  oidc_verify true toy_verifier
    (oidc_credential (segment (toy_header "k1") +:+ "." +:+ String (ascii_of_nat 233) "" +:+ ".AAAA")) (fz 90)
    = Raise (PyException "UnicodeEncodeError").
Proof. vm_compute. reflexivity. Qed.

(** An [exp] that is no number is a [ValueError] or a [TypeError]. *)
Example exp_text_escapes :
  oidc_verify true toy_verifier (oidc_credential (token "issuer key" (toy_header "k1") (toy_payload (JStr "soon")))) (fz 90)
    = Raise PyValueError /\
  oidc_verify true toy_verifier (oidc_credential (token "issuer key" (toy_header "k1") (toy_payload (JArr [])))) (fz 90)
    = Raise PyTypeError.
Proof. vm_compute. split; reflexivity. Qed.

(** Characters outside the alphabet are skipped: one signature has many texts. *)
Example signature_text_is_not_unique :
  oidc_verify true toy_verifier (oidc_credential (toy_token +:+ "!!!!")) (fz 90) = Ok toy_principal.
Proof. vm_compute. reflexivity. Qed.

(** Nothing ties the signer of a hop to the delegator before it: the agent's own
    key signs the grant that it is said to have been given by a human. *)
Example agent_signs_its_own_grant :
  is_ok (verify_delegation_chain true toy_jwks (toy_chain_tokens "k2" "agent key")) = true.
Proof. vm_compute. reflexivity. Qed.
