(* ===== verification/Errors.v ===== *)
(** * The error taxonomy ([domain/errors.py])

    The classes with their names, codes and bases, the structured form an error
    is logged and answered in, and the agreement of the exceptions of the model
    with them: every [except] clause of the modelled code catches exactly the
    subclasses of the class it names. *)

From stdpp Require Import base tactics list strings relations.
From Stdlib Require Import ZArith Lia.
From S2P Require Import Prelude PyFloat PyStr Serialization Config Jws.

Open Scope string_scope.
Open Scope list_scope.

Module Class.

Inductive error_class :=
| GlassBoxError
| DomainValidationError
| IdentityError
| CredentialExpiredError
| DelegationError
| MandateError
| MandateNotFoundError
| MandateRevokedError
| MandateExceededError
| PolicyError
| PolicyBundleUnavailableError
| PolicyBundleSignatureError
| CatalogueError
| ActionNotGovernedError
| CatalogueBundleUnavailableError
| AttestationUnavailableError
| KillSwitchUnavailableError
| ToolRegistryError
| ToolNotGovernedError
| ToolRegistryUnavailableError
| ToolQuarantinedError
| RiskError
| RiskModelUnavailableError
| LimitStoreUnavailable
| BaselineStoreUnavailable
| EvidenceError
| EvidenceWriteError
| EvidenceIntegrityError
| SigningUnavailableError
| DispatchError
| DispatchTimeoutError
| DispatchRefusedError
| ToolOutputQuarantinedError
| ApprovalError
| ApprovalNotFoundError
| ApprovalGatewayUnavailableError
| ApprovalTransitionError.

(** The class of the library a class extends. *)
Definition parent (c : error_class) : option error_class :=
  match c with
  | GlassBoxError => None
  | CredentialExpiredError | DelegationError => Some IdentityError
  | MandateNotFoundError | MandateRevokedError | MandateExceededError => Some MandateError
  | PolicyBundleUnavailableError | PolicyBundleSignatureError => Some PolicyError
  | ActionNotGovernedError | CatalogueBundleUnavailableError => Some CatalogueError
  | ToolNotGovernedError | ToolRegistryUnavailableError | ToolQuarantinedError => Some ToolRegistryError
  | RiskModelUnavailableError => Some RiskError
  | EvidenceWriteError | EvidenceIntegrityError | SigningUnavailableError => Some EvidenceError
  | DispatchTimeoutError | DispatchRefusedError | ToolOutputQuarantinedError => Some DispatchError
  | ApprovalNotFoundError | ApprovalGatewayUnavailableError | ApprovalTransitionError => Some ApprovalError
  | DomainValidationError | IdentityError | MandateError | PolicyError | CatalogueError
  | AttestationUnavailableError | KillSwitchUnavailableError | ToolRegistryError | RiskError
  | LimitStoreUnavailable | BaselineStoreUnavailable | EvidenceError | DispatchError | ApprovalError =>
      Some GlassBoxError
  end.

Definition code (c : error_class) : string :=
  match c with
  | GlassBoxError => "glassbox_error"
  | DomainValidationError => "domain_validation_failed"
  | IdentityError => "identity_verification_failed"
  | CredentialExpiredError => "credential_expired"
  | DelegationError => "delegation_invalid"
  | MandateError => "mandate_error"
  | MandateNotFoundError => "mandate_not_found"
  | MandateRevokedError => "mandate_revoked"
  | MandateExceededError => "mandate_exceeded"
  | PolicyError => "policy_error"
  | PolicyBundleUnavailableError => "policy_bundle_unavailable"
  | PolicyBundleSignatureError => "policy_bundle_signature_invalid"
  | CatalogueError => "catalogue_error"
  | ActionNotGovernedError => "action_not_governed"
  | CatalogueBundleUnavailableError => "catalogue_bundle_unavailable"
  | AttestationUnavailableError => "attestation_unavailable"
  | KillSwitchUnavailableError => "kill_switch_unavailable"
  | ToolRegistryError => "tool_registry_error"
  | ToolNotGovernedError => "tool_not_governed"
  | ToolRegistryUnavailableError => "tool_registry_unavailable"
  | ToolQuarantinedError => "tool_quarantined"
  | RiskError => "risk_error"
  | RiskModelUnavailableError => "risk_model_unavailable"
  | LimitStoreUnavailable => "limit_store_unavailable"
  | BaselineStoreUnavailable => "baseline_store_unavailable"
  | EvidenceError => "evidence_error"
  | EvidenceWriteError => "evidence_write_failed"
  | EvidenceIntegrityError => "evidence_integrity_failed"
  | SigningUnavailableError => "signing_unavailable"
  | DispatchError => "dispatch_error"
  | DispatchTimeoutError => "dispatch_timeout"
  | DispatchRefusedError => "dispatch_refused_no_evidence"
  | ToolOutputQuarantinedError => "tool_output_quarantined"
  | ApprovalError => "approval_error"
  | ApprovalNotFoundError => "approval_not_found"
  | ApprovalGatewayUnavailableError => "approval_gateway_unavailable"
  | ApprovalTransitionError => "approval_transition_invalid"
  end.

(** [type(self).__name__]. *)
Definition class_name (c : error_class) : string :=
  match c with
  | GlassBoxError => "GlassBoxError"
  | DomainValidationError => "DomainValidationError"
  | IdentityError => "IdentityError"
  | CredentialExpiredError => "CredentialExpiredError"
  | DelegationError => "DelegationError"
  | MandateError => "MandateError"
  | MandateNotFoundError => "MandateNotFoundError"
  | MandateRevokedError => "MandateRevokedError"
  | MandateExceededError => "MandateExceededError"
  | PolicyError => "PolicyError"
  | PolicyBundleUnavailableError => "PolicyBundleUnavailableError"
  | PolicyBundleSignatureError => "PolicyBundleSignatureError"
  | CatalogueError => "CatalogueError"
  | ActionNotGovernedError => "ActionNotGovernedError"
  | CatalogueBundleUnavailableError => "CatalogueBundleUnavailableError"
  | AttestationUnavailableError => "AttestationUnavailableError"
  | KillSwitchUnavailableError => "KillSwitchUnavailableError"
  | ToolRegistryError => "ToolRegistryError"
  | ToolNotGovernedError => "ToolNotGovernedError"
  | ToolRegistryUnavailableError => "ToolRegistryUnavailableError"
  | ToolQuarantinedError => "ToolQuarantinedError"
  | RiskError => "RiskError"
  | RiskModelUnavailableError => "RiskModelUnavailableError"
  | LimitStoreUnavailable => "LimitStoreUnavailable"
  | BaselineStoreUnavailable => "BaselineStoreUnavailable"
  | EvidenceError => "EvidenceError"
  | EvidenceWriteError => "EvidenceWriteError"
  | EvidenceIntegrityError => "EvidenceIntegrityError"
  | SigningUnavailableError => "SigningUnavailableError"
  | DispatchError => "DispatchError"
  | DispatchTimeoutError => "DispatchTimeoutError"
  | DispatchRefusedError => "DispatchRefusedError"
  | ToolOutputQuarantinedError => "ToolOutputQuarantinedError"
  | ApprovalError => "ApprovalError"
  | ApprovalNotFoundError => "ApprovalNotFoundError"
  | ApprovalGatewayUnavailableError => "ApprovalGatewayUnavailableError"
  | ApprovalTransitionError => "ApprovalTransitionError"
  end.

#[export] Instance error_class_eq_dec : EqDecision error_class.
Proof. solve_decision. Defined.

(** [issubclass]: no class is more than two steps below the base. *)
Fixpoint below (n : nat) (c d : error_class) : bool :=
  bool_decide (c = d) ||
  match n, parent c with
  | S n, Some p => below n p d
  | _, _ => false
  end.
Definition issubclass (c d : error_class) : bool := below 2 c d.

End Class.

(** An error: its class, message and context of text. *)
Record Error := {
  er_class : Class.error_class;
  er_message : string;
  er_context : list (string * string)
}.

(** [GlassBoxError(message, **context)]. *)
Definition mk_Error (c : Class.error_class) (message : string) (context : list (string * json)) : Error :=
  {| er_class := c; er_message := message; er_context := map (fun kv => (kv.1, py_str kv.2)) context |}.

(** [DomainValidationError(message, field=field, **context)]: the field comes last. *)
Definition mk_DomainValidationError (message : string) (field : option string) (context : list (string * json)) : Error :=
  mk_Error Class.DomainValidationError message
    (match field with Some f => context ++ [("field", JStr f)] | None => context end).

Definition as_dict (e : Error) : json :=
  JObj [("error_class", JStr (Class.class_name (er_class e))); ("code", JStr (Class.code (er_class e)));
        ("message", JStr (er_message e)); ("context", JObj (map (fun kv => (kv.1, JStr kv.2)) (er_context e)))].

(** ** The exceptions of the model *)

(** The class of an exception; [None] for the exceptions of the language and of
    other libraries. *)
Definition class_of (e : exn) : option Class.error_class :=
  match e with
  | DomainValidationError _ => Some Class.DomainValidationError
  | IdentityError => Some Class.IdentityError
  | CredentialExpiredError => Some Class.CredentialExpiredError
  | DelegationError => Some Class.DelegationError
  | MandateError => Some Class.MandateError
  | PolicyBundleUnavailableError => Some Class.PolicyBundleUnavailableError
  | PolicyBundleSignatureError => Some Class.PolicyBundleSignatureError
  | ActionNotGovernedError => Some Class.ActionNotGovernedError
  | CatalogueBundleUnavailableError => Some Class.CatalogueBundleUnavailableError
  | AttestationUnavailableError => Some Class.AttestationUnavailableError
  | KillSwitchUnavailableError => Some Class.KillSwitchUnavailableError
  | ToolNotGovernedError => Some Class.ToolNotGovernedError
  | ToolRegistryUnavailableError => Some Class.ToolRegistryUnavailableError
  | ToolQuarantinedError => Some Class.ToolQuarantinedError
  | RiskModelUnavailableError => Some Class.RiskModelUnavailableError
  | LimitStoreUnavailable => Some Class.LimitStoreUnavailable
  | BaselineStoreUnavailable => Some Class.BaselineStoreUnavailable
  | EvidenceWriteError => Some Class.EvidenceWriteError
  | EvidenceIntegrityError => Some Class.EvidenceIntegrityError
  | SigningUnavailableError => Some Class.SigningUnavailableError
  | DispatchError => Some Class.DispatchError
  | DispatchTimeoutError => Some Class.DispatchTimeoutError
  | DispatchRefusedError => Some Class.DispatchRefusedError
  | ToolOutputQuarantinedError => Some Class.ToolOutputQuarantinedError
  | ApprovalNotFoundError => Some Class.ApprovalNotFoundError
  | ApprovalGatewayUnavailableError => Some Class.ApprovalGatewayUnavailableError
  | PyValueError | PyTypeError | PyKeyError | PyOverflowError | PyException _ => None
  end.

(** [except <class>]. *)
Definition except (d : Class.error_class) (e : exn) : bool :=
  match class_of e with Some c => Class.issubclass c d | None => false end.
Definition is_glassbox_error : exn -> bool := except Class.GlassBoxError.

Lemma below_refl n c : Class.below n c c = true.
Proof. by destruct n, c. Qed.

(** Every class extends the base class, within the two steps looked at. *)
Lemma subclass_of_base c : Class.issubclass c Class.GlassBoxError = true.
Proof. by destruct c. Qed.

(** A class is a subclass of exactly those on its way to the base. *)
Lemma issubclass_iff c d :
  Class.issubclass c d = true <-> rtc (fun x y => Class.parent x = Some y) c d.
Proof.
  split.
  - unfold Class.issubclass. generalize 2%nat. intros n. revert c. induction n as [|n IH]; intros c; cbn [Class.below];
      (case_bool_decide as E; [intros _; subst; apply rtc_refl|]); [done|].
    cbn. destruct (Class.parent c) eqn:Ep; [|done]. intros H. by apply rtc_l with e, IH.
  - intros H. apply rtc_inv in H as [->|(y & H1 & H)]; [apply below_refl|].
    apply rtc_inv in H as [->|(z & H2 & H)]; [by destruct c, d|].
    apply rtc_inv in H as [->|(w & H3 & _)]; [destruct c; cbn in H1; simplify_eq; cbn in H2; simplify_eq; reflexivity|].
    destruct c; cbn in H1; simplify_eq; cbn in H2; simplify_eq; cbn in H3; simplify_eq.
Qed.

(** Names and codes tell the classes apart. *)
Lemma class_name_inj c d : Class.class_name c = Class.class_name d -> c = d.
Proof. destruct c, d; (reflexivity || discriminate). Qed.
Lemma code_inj c d : Class.code c = Class.code d -> c = d.
Proof. destruct c, d; (reflexivity || discriminate). Qed.

(** What the handlers of the modelled code catch is what they name. *)
Lemma exn_name_of e c : class_of e = Some c -> exn_name e = Class.class_name c.
Proof. by destruct e; intros [= <-]. Qed.
Lemma catches_identity e : is_identity_error e = except Class.IdentityError e.
Proof. by destruct e. Qed.
Lemma catches_dispatch e : is_dispatch_error e = except Class.DispatchError e.
Proof. by destruct e. Qed.
