(* ===== verification/Observability.v ===== *)
(** * Structured logging and request context ([glassbox/app/observability.py])

    The correlation context and its bindings, the record a logging call makes,
    the filter and the formatter, the [glassbox] logger and its handlers, and
    the functions that log errors and the startup.  Of Python's [logging] it has
    what the module uses: levels, [makeRecord] (Python 3.12) with its refusal of
    reserved names, handlers with filters, and propagation to the root.

    A field of a record is the JSON value it is printed as; what is not JSON is
    printed as its text ([default=str]), and is that text here. *)

From stdpp Require Import base tactics list strings.
From Stdlib Require Import ZArith Lia.
From S2P Require Import Prelude PyFloat PyStr Serialization Json Config BronzeRows Errors.

Open Scope string_scope.
Open Scope list_scope.

Abbreviation fields := (list (string * json)).

(** ** [CorrelationContext] *)

Record CorrelationContext := {
  cx_decision_id : option string;
  cx_trace_id : option string;
  cx_tenant_id : option string;
  cx_agent_ref : option string
}.
Definition no_context : CorrelationContext :=
  {| cx_decision_id := None; cx_trace_id := None; cx_tenant_id := None; cx_agent_ref := None |}.

Definition context_items (c : CorrelationContext) : list (string * option string) :=
  [("decision_id", cx_decision_id c); ("trace_id", cx_trace_id c); ("tenant_id", cx_tenant_id c);
   ("agent_ref", cx_agent_ref c)].

(** [as_dict]: what is not [None], the empty text included. *)
Definition context_as_dict (c : CorrelationContext) : list (string * string) :=
  omap (fun kv => v ← kv.2; Some (kv.1, v)) (context_items c).

(** [a or b]. *)
Definition some_or (a b : option string) : option string :=
  match a with Some s => if str_is_empty s then b else Some s | None => b end.

Definition merged_with (c other : CorrelationContext) : CorrelationContext :=
  {| cx_decision_id := some_or (cx_decision_id other) (cx_decision_id c);
     cx_trace_id := some_or (cx_trace_id other) (cx_trace_id c);
     cx_tenant_id := some_or (cx_tenant_id other) (cx_tenant_id c);
     cx_agent_ref := some_or (cx_agent_ref other) (cx_agent_ref c) |}.

(** A computation that reads and writes the context variable, and a state. *)
Definition comp (S A : Type) : Type := CorrelationContext * S -> res A * (CorrelationContext * S).

(** [with bind_context(...)]: the token restores the value the variable had, on
    every way out of the block. *)
Definition bind_context {S A} (given : CorrelationContext) (block : CorrelationContext -> comp S A) : comp S A :=
  fun '(c, s) =>
    let merged := merged_with c given in
    let '(r, (_, s')) := block merged (merged, s) in
    (r, (c, s')).

(** ** Records *)

Record LogRecord := {
  re_time : string;
  re_level : string;
  re_name : string;
  re_message : string;
  re_fields : fields;
  re_exception : option string
}.

(** The attributes of every record, and the two the formatter adds. *)
Definition STANDARD_RECORD_FIELDS : list string :=
  ["name"; "msg"; "args"; "levelname"; "levelno"; "pathname"; "filename"; "module"; "exc_info"; "exc_text";
   "stack_info"; "lineno"; "funcName"; "created"; "msecs"; "relativeCreated"; "thread"; "threadName";
   "processName"; "process"; "taskName"; "message"; "asctime"].
Definition is_standard (key : string) : bool := bool_decide (key ∈ STANDARD_RECORD_FIELDS).

(** [makeRecord] refuses an extra field that would overwrite one of its own. *)
Definition make_record (time level name message : string) (extra : fields) : res LogRecord :=
  if existsb (fun kv => is_standard kv.1) extra then Raise PyKeyError
  else Ok {| re_time := time; re_level := level; re_name := name; re_message := message; re_fields := extra;
             re_exception := None |}.

(** [CorrelationFilter.filter]: a field the record has stays. *)
Definition correlation_filter (c : CorrelationContext) (r : LogRecord) : LogRecord :=
  {| re_time := re_time r; re_level := re_level r; re_name := re_name r; re_message := re_message r;
     re_fields := foldl (fun fs kv => match dict_get fs kv.1 with Some _ => fs | None => fs ++ [(kv.1, JStr kv.2)] end)
                    (re_fields r) (context_as_dict c);
     re_exception := re_exception r |}.

(** ** Formatting *)

(** [json.dumps] with the numbers JSON has no text for. *)
Definition json_float (x : float) : string :=
  match x with
  | SpecFloat.S754_nan => "NaN"
  | SpecFloat.S754_infinity s => if s then "-Infinity" else "Infinity"
  | _ => float_repr x
  end.

Fixpoint dump (v : json) : string :=
  match v with
  | JNull => "null"
  | JBool b => if b then "true" else "false"
  | JInt z => str_of_int z
  | JFloat x => json_float x
  | JStr s => json_str true s
  | JArr l => "[" +:+ str_join ", " (map dump l) +:+ "]"
  | JObj items => "{" +:+ str_join ", " (map (fun kv => json_str true kv.1 +:+ ": " +:+ dump kv.2) items) +:+ "}"
  end.

(** The payload of [StructuredFormatter.format]. *)
Definition payload_of (service_name : string) (r : LogRecord) : fields :=
  let base := [("timestamp", JStr (re_time r)); ("level", JStr (re_level r)); ("service", JStr service_name);
               ("logger", JStr (re_name r)); ("message", JStr (re_message r))] in
  let shown := List.filter (fun kv => negb (is_standard kv.1) && negb (startswith "_" kv.1)) (re_fields r) in
  let payload := foldl (fun p kv => set_item p kv.1 kv.2) base shown in
  match re_exception r with Some text => set_item payload "exception" (JStr text) | None => payload end.

Definition structured_format (service_name : string) (r : LogRecord) : string :=
  dump (sort_keys (JObj (payload_of service_name r))).

(** ["%(asctime)s %(levelname)s %(name)s %(message)s"]. *)
Definition plain_format (r : LogRecord) : string :=
  re_time r +:+ " " +:+ re_level r +:+ " " +:+ re_name r +:+ " " +:+ re_message r.

(** ** Loggers *)

Inductive formatter :=
| Structured (service_name : string)
| Plain
| Foreign (f : LogRecord -> string).
Definition format (f : formatter) (r : LogRecord) : string :=
  match f with Structured s => structured_format s r | Plain => plain_format r | Foreign g => g r end.

(** [ha_managed]: the mark [_glassbox_managed]; [ha_filters]: it has the filter. *)
Record Handler := { ha_managed : bool; ha_filters : bool; ha_formatter : formatter }.

Record Logger := { lo_level : Z; lo_handlers : list Handler; lo_propagate : bool }.
(** The logger as [getLogger] first makes it. *)
Definition logger_init : Logger := {| lo_level := 0; lo_handlers := []; lo_propagate := true |}.

Definition LEVELS : list (string * Z) :=
  [("critical", 50); ("fatal", 50); ("error", 40); ("warn", 30); ("warning", 30); ("info", 20); ("debug", 10);
   ("notset", 0)]%Z.

(** [setLevel(name.upper())]. *)
Definition level_number (name : string) : res Z :=
  match dict_get LEVELS (lower name) with Some n => Ok n | None => Raise PyValueError end.

Definition managed_handler (config : ObservabilityConfig) : Handler :=
  {| ha_managed := true; ha_filters := true;
     ha_formatter := if oc_json_logs config then Structured (oc_service_name config) else Plain |}.

Definition configure_logging (config : ObservabilityConfig) (logger : Logger) : res Logger :=
  level ← level_number (oc_log_level config);
  Ok {| lo_level := level;
        lo_handlers := List.filter (fun h => negb (ha_managed h)) (lo_handlers logger) ++ [managed_handler config];
        lo_propagate := false |}.

(** [get_logger]: the name of the child. *)
Definition logger_name (name : string) : string :=
  if startswith "glassbox" name then name else "glassbox." +:+ name.

(** The handlers see one record after the other; the filter changes it. *)
Fixpoint handle_all (c : CorrelationContext) (r : LogRecord) (hs : list Handler) : list string :=
  match hs with
  | [] => []
  | h :: hs' =>
      let r' := if ha_filters h then correlation_filter c r else r in
      format (ha_formatter h) r' :: handle_all c r' hs'
  end.

(** [logger.log(level, message, extra=...)] on a child of the [glassbox] logger:
    the texts written.  [root]: the level and the handlers of the root logger,
    which decide where the package logger sets no level or propagates; with no handler
    at all, the last resort prints a warning's message. *)
Definition log (logger : Logger) (root : Z * list Handler) (c : CorrelationContext) (time : string) (name : string)
    (level : string * Z) (message : string) (extra : fields) : res (list string) :=
  let threshold := if (lo_level logger =? 0)%Z then root.1 else lo_level logger in
  if (level.2 <? threshold)%Z then Ok []
  else
    r ← make_record time level.1 name message extra;
    match lo_handlers logger ++ (if lo_propagate logger then root.2 else []) with
    | [] => Ok (if (30 <=? level.2)%Z then [message] else [])
    | hs => Ok (handle_all c r hs)
    end.
Definition INFO : string * Z := ("INFO", 20%Z).
Definition WARNING : string * Z := ("WARNING", 30%Z).
Definition ERROR : string * Z := ("ERROR", 40%Z).

(** ** Errors and the startup *)

(** What is logged: an error of the library, or another exception's class name
    and text. *)
Inductive reported :=
| Governed (e : Error)
| Unhandled (class_name text : string).

(** The fields and the text of [log_error]. *)
Definition error_payload (extra : fields) (e : reported) : fields :=
  match e with
  | Governed er =>
      foldl (fun p kv => set_item p ("ctx_" +:+ kv.1) (JStr kv.2))
        (set_item (set_item extra "error_code" (JStr (Class.code (er_class er))))
           "error_class" (JStr (Class.class_name (er_class er))))
        (er_context er)
  | Unhandled class_name _ =>
      set_item (set_item extra "error_code" (JStr "unhandled_exception")) "error_class" (JStr class_name)
  end.
Definition error_text (message : option string) (e : reported) : string :=
  let own := match e with Governed er => er_message er | Unhandled _ text => text end in
  match message with Some m => str_or m own | None => own end.

Section logging.
Context (logger : Logger) (root : Z * list Handler) (c : CorrelationContext) (time name : string).

Definition log_error (e : reported) (message : option string) (level : string * Z) (extra : fields) : res (list string) :=
  log logger root c time name level (error_text message e) (error_payload extra e).

Definition DEV_PROFILE_BANNER : string :=
  "GLASSBOX IS RUNNING IN THE DEVELOPMENT PROFILE. Evidence is not durable, not MAC-signed against a managed key, and not admissible. Limits are not enforced across replicas. THIS CONFIGURATION PROVIDES NO ASSURANCE AND MUST NOT BE USED IN PRODUCTION.".

(** [{**a, **b}]. *)
Definition dict_updated (a b : fields) : fields := foldl (fun p kv => set_item p kv.1 kv.2) a b.

Definition log_startup (config : GlassBoxConfig) (extra : fields) : res (list string) :=
  let described := match config_describe config with JObj items => items | _ => [] end in
  let profile := JStr (profile_value (gc_profile config)) in
  started ← log logger root c time name INFO "glassbox runtime starting" (dict_updated described extra);
  banner ← (if provides_assurance (gc_profile config) then Ok []
            else log logger root c time name WARNING DEV_PROFILE_BANNER [("profile", profile)]);
  let unsafe := unsafe_switches config in
  switches ← (match unsafe with
              | [] => Ok []
              | _ => log logger root c time name WARNING "safety switches are disabled"
                       [("unsafe_switches", JArr (map JStr unsafe)); ("profile", profile)]
              end);
  Ok (started ++ banner ++ switches).
End logging.

(** ** One line of JSON *)

Lemma map_eq_Forall {A B} (f g : A -> B) l : Forall (fun x => f x = g x) l -> map f l = map g l.
Proof. induction 1 as [|x l Hx _ IH]; [done|]. cbn. by rewrite Hx, IH. Qed.

Lemma Forall_forallb_impl {A} (p : A -> bool) (P : A -> Prop) l :
  Forall (fun x => p x = true -> P x) l -> forallb p l = true -> Forall P l.
Proof.
  induction 1 as [|x l Hx _ IH]; cbn; [done|]. intros [H1 H2]%andb_true_iff. constructor; auto.
Qed.

Lemma dump_print v : floats_ok v = true -> dump v = print default_config v.
Proof.
  induction v as [|b|z|x|s|l IH|l IH] using json_ind'; cbn [floats_ok dump print]; intros Hf; try done.
  - by destruct x.
  - by rewrite (map_eq_Forall _ _ _ (Forall_forallb_impl _ _ _ IH Hf)).
  - rewrite (map_eq_Forall _ (fun kv => json_str true kv.1 +:+ ": " +:+ print default_config kv.2) l); [done|].
    eapply Forall_impl; [exact (Forall_forallb_impl (fun kv => floats_ok kv.2) _ _ IH Hf)|]. cbn. by intros kv ->.
Qed.

(** A text without the character that would end a log line. *)
Definition one_line (s : string) : bool := negb (has_char newline s).

Lemma one_line_app a b : one_line (a +:+ b) = one_line a && one_line b.
Proof. unfold one_line. by rewrite has_char_app, negb_orb. Qed.

Lemma one_line_between a b s : one_line a = true -> one_line b = true -> one_line s = true -> one_line (a +:+ s +:+ b) = true.
Proof. intros Ha Hb Hs. by rewrite !one_line_app, Ha, Hb, Hs. Qed.

Lemma one_line_chars f s : f newline = false -> str_forallb f s = true -> one_line s = true.
Proof.
  intros Hn. unfold one_line. induction s as [|c s IH]; [done|]. cbn [str_forallb has_char].
  intros [Hc Hs]%andb_true_iff. destruct (Ascii.eqb_spec c newline) as [->|]; [congruence|]. by apply IH.
Qed.

Lemma one_line_escape s : one_line (escape_str true s) = true.
Proof.
  induction s as [|c s IH]; [done|]. cbn [escape_str]. rewrite one_line_app, IH, andb_true_r.
  destruct c as [[] [] [] [] [] [] [] []]; vm_compute; reflexivity.
Qed.

Lemma one_line_str s : one_line (json_str true s) = true.
Proof.
  unfold json_str. change (String dquote_char ?x) with (String dquote_char EmptyString +:+ x).
  rewrite !one_line_app, one_line_escape. reflexivity.
Qed.

Lemma one_line_join sep l : one_line sep = true -> Forall (fun s => one_line s = true) l -> one_line (str_join sep l) = true.
Proof.
  intros Hs. induction 1 as [|s l H HF IH]; [done|]. destruct l as [|s' l]; [done|].
  cbn [str_join] in *. by rewrite !one_line_app, H, Hs, IH.
Qed.

(** Whatever the record holds, its JSON is one line. *)
Lemma dump_one_line v : one_line (dump v) = true.
Proof.
  induction v as [|b|z|x|s|l IH|l IH] using json_ind'; cbn [dump].
  - reflexivity.
  - by destruct b.
  - apply (one_line_chars is_int_char); [reflexivity|apply str_of_int_chars].
  - unfold json_float. destruct x as [[]|[]| |s m e]; try reflexivity.
    apply (one_line_chars is_num_char); [reflexivity|by apply float_repr_chars].
  - apply one_line_str.
  - apply one_line_between; [done..|]. apply one_line_join; [done|by apply Forall_map].
  - apply one_line_between; [done..|]. apply one_line_join; [done|]. apply Forall_map. eapply Forall_impl; [exact IH|].
    intros [k v] Hv. cbn [fst snd] in Hv |- *. by rewrite !one_line_app, one_line_str, Hv.
Qed.

(** ** What a line says *)

Lemma keys_set_item items k v : map fst (set_item items k v) = map fst items ++ (if bool_decide (k ∈ map fst items) then [] else [k]).
Proof.
  induction items as [|[k' v'] items IH]; [done|]. cbn. destruct (String.eqb_spec k' k) as [->|Hne]; cbn.
  - rewrite bool_decide_eq_true_2 by by left. by rewrite app_nil_r.
  - rewrite IH. f_equal. f_equal. case_bool_decide as H1; case_bool_decide as H2; try done; exfalso.
    + apply H2. by right.
    + apply H1. by apply elem_of_cons in H2 as [->|?].
Qed.

Lemma NoDup_set_item items k v : NoDup (map fst items) -> NoDup (map fst (set_item items k v)).
Proof.
  intros H. rewrite keys_set_item. case_bool_decide as Hk; [by rewrite app_nil_r|].
  apply NoDup_app. split_and!; [done| |apply NoDup_singleton]. by intros x Hx ->%list_elem_of_singleton.
Qed.

Lemma NoDup_updated a b : NoDup (map fst a) -> NoDup (map fst (dict_updated a b)).
Proof. unfold dict_updated. revert a. induction b as [|[k v] b IH]; intros a H; [done|]. cbn. by apply IH, NoDup_set_item. Qed.

(** [{**a, **b}]: what [b] has wins. *)
Lemma get_updated a b k : NoDup (map fst b) ->
  dict_get (dict_updated a b) k = match dict_get b k with Some v => Some v | None => dict_get a k end.
Proof.
  unfold dict_updated. revert a. induction b as [|[k' v'] b IH]; intros a; [done|]. cbn. intros [Hk Hb]%NoDup_cons.
  rewrite IH by done. destruct (dict_get b k) as [v|] eqn:E.
  - destruct (String.eqb_spec k' k) as [->|]; [|done]. by apply dict_get_elem in E.
  - rewrite get_set_item. by destruct (k' =? k)%string.
Qed.

Lemma get_filtered (P : string -> bool) (l : fields) k :
  dict_get (List.filter (fun kv => P kv.1) l) k = if P k then dict_get l k else None.
Proof.
  induction l as [|[k' v'] l IH]; [by destruct (P k)|]. cbn. destruct (P k') eqn:E; cbn; rewrite IH;
    destruct (String.eqb_spec k' k) as [->|]; rewrite ?E; try done; by destruct (P k).
Qed.

Lemma NoDup_filtered (P : string * json -> bool) l : NoDup (map fst l) -> NoDup (map fst (List.filter P l)).
Proof.
  induction l as [|kv l IH]; [done|]. cbn. intros [Hk H]%NoDup_cons. destruct (P kv); [|by apply IH]. cbn. constructor; [|by apply IH].
  intros Hin. apply Hk. apply list_elem_of_fmap in Hin as (x & -> & Hx). apply list_elem_of_fmap. exists x. split; [done|].
  apply list_elem_of_In in Hx. apply list_elem_of_In. by apply List.filter_In in Hx as [? _].
Qed.

(** The filter adds what the record has not. *)
Definition add_missing (fs : fields) (kv : string * string) : fields :=
  match dict_get fs kv.1 with Some _ => fs | None => fs ++ [(kv.1, JStr kv.2)] end.

Lemma dict_get_app (a b : fields) k : dict_get (a ++ b) k = match dict_get a k with Some v => Some v | None => dict_get b k end.
Proof. induction a as [|[k' v'] a IH]; cbn; [done|]. by destruct (k' =? k)%string. Qed.

Lemma get_added l fs k : NoDup (map fst l) ->
  dict_get (foldl add_missing fs l) k = match dict_get fs k with Some v => Some v | None => JStr <$> dict_get l k end.
Proof.
  revert fs. induction l as [|[k' s] l IH]; intros fs; [by cbn; destruct (dict_get fs k)|]. cbn. intros [Hk Hl]%NoDup_cons.
  rewrite IH by done. unfold add_missing. cbn [fst snd].
  destruct (dict_get fs k') eqn:E.
  - destruct (String.eqb_spec k' k) as [->|]; [by rewrite E|done].
  - rewrite dict_get_app. cbn. destruct (String.eqb_spec k' k) as [->|]; [by rewrite E|]. by destruct (dict_get fs k).
Qed.

Lemma dict_get_none {A} (l : list (string * A)) k : dict_get l k = None -> k ∉ map fst l.
Proof.
  induction l as [|[k' v'] l IH]; cbn; [intros _; apply not_elem_of_nil|]. destruct (String.eqb_spec k' k) as [->|]; [done|].
  intros H [->|Hin]%elem_of_cons; [done|]. by apply IH.
Qed.

Lemma NoDup_added l fs : NoDup (map fst fs) -> NoDup (map fst (foldl add_missing fs l)).
Proof.
  revert fs. induction l as [|[k s] l IH]; intros fs H; [done|]. cbn. apply IH. unfold add_missing. cbn [fst snd].
  destruct (dict_get fs k) eqn:E; [done|]. rewrite map_app. apply NoDup_app. split_and!; [done| |apply NoDup_singleton].
  apply dict_get_none in E. by intros x Hx ->%list_elem_of_singleton.
Qed.

Definition context_field (c : CorrelationContext) (k : string) : option string := k' ← dict_get (context_items c) k; k'.

(** The populated ones of some fields. *)
Definition populated (l : list (string * option string)) : list (string * string) :=
  omap (fun kv => v ← kv.2; Some (kv.1, v)) l.

Lemma populated_keys l : map fst (populated l) ⊆ map fst l.
Proof.
  induction l as [|[k [v|]] l IH]; cbn; [done|by apply list_subseteq_skip|]. intros x Hx. right. by apply IH.
Qed.

Lemma NoDup_populated l : NoDup (map fst l) -> NoDup (map fst (populated l)).
Proof.
  induction l as [|[k [v|]] l IH]; cbn; [done| |]; intros [Hk H]%NoDup_cons; [|by apply IH].
  constructor; [|by apply IH]. intros Hin. by apply Hk, populated_keys.
Qed.

Lemma get_populated l k : NoDup (map fst l) -> dict_get (populated l) k = (v ← dict_get l k; v).
Proof.
  induction l as [|[k' o] l IH]; [done|]. cbn [map fst]. intros [Hk H]%NoDup_cons.
  assert (Hno : dict_get l k' = None) by (destruct (dict_get l k') eqn:E; [by apply dict_get_elem in E|done]).
  destruct o as [v|]; cbn; destruct (String.eqb_spec k' k) as [->|]; try done; try by apply IH.
  change (dict_get (populated l) k = None). by rewrite IH, Hno.
Qed.

Lemma context_keys c : NoDup (map fst (context_items c)).
Proof. apply (bool_decide_unpack _). reflexivity. Qed.

Lemma NoDup_context c : NoDup (map fst (context_as_dict c)).
Proof. apply NoDup_populated, context_keys. Qed.

Lemma get_context c k : dict_get (context_as_dict c) k = context_field c k.
Proof. apply get_populated, context_keys. Qed.

(** *** The payload *)

Lemma payload_value service_name r k :
  re_exception r = None -> NoDup (map fst (re_fields r)) ->
  is_standard k = false -> startswith "_" k = false ->
  dict_get (payload_of service_name r) k =
  match dict_get (re_fields r) k with
  | Some v => Some v
  | None => dict_get [("timestamp", JStr (re_time r)); ("level", JStr (re_level r)); ("service", JStr service_name);
                      ("logger", JStr (re_name r)); ("message", JStr (re_message r))] k
  end.
Proof.
  intros He Hn Hs Hu. unfold payload_of. rewrite He.
  change (foldl ?f ?b (List.filter ?P (re_fields r))) with (dict_updated b (List.filter P (re_fields r))).
  rewrite get_updated by by apply NoDup_filtered.
  rewrite (get_filtered (fun k => negb (is_standard k) && negb (startswith "_" k))), Hs, Hu. done.
Qed.

(** No extra field replaces the message. *)
Lemma payload_message service_name r :
  re_exception r = None -> NoDup (map fst (re_fields r)) ->
  dict_get (payload_of service_name r) "message" = Some (JStr (re_message r)).
Proof.
  intros He Hn. unfold payload_of. rewrite He.
  change (foldl ?f ?b (List.filter ?P (re_fields r))) with (dict_updated b (List.filter P (re_fields r))).
  rewrite get_updated by by apply NoDup_filtered.
  by rewrite (get_filtered (fun k => negb (is_standard k) && negb (startswith "_" k))).
Qed.

Lemma payload_distinct service_name r : NoDup (map fst (payload_of service_name r)).
Proof.
  unfold payload_of. change (foldl ?f ?b (List.filter ?P (re_fields r))) with (dict_updated b (List.filter P (re_fields r))).
  assert (H : NoDup (map fst (dict_updated [("timestamp", JStr (re_time r)); ("level", JStr (re_level r)); ("service", JStr service_name);
    ("logger", JStr (re_name r)); ("message", JStr (re_message r))]
    (List.filter (fun kv => negb (is_standard kv.1) && negb (startswith "_" kv.1)) (re_fields r))))).
  { apply NoDup_updated. by apply (bool_decide_unpack _). }
  destruct (re_exception r); [by apply NoDup_set_item|done].
Qed.

(** Every value of the payload is text or a value of the record. *)
Lemma payload_values (P : json -> Prop) service_name r :
  re_exception r = None -> (forall s, P (JStr s)) -> Forall (fun kv => P kv.2) (re_fields r) ->
  Forall (fun kv => P kv.2) (payload_of service_name r).
Proof.
  intros He Hs HF. unfold payload_of. rewrite He.
  assert (Hset : forall items k v, P v -> Forall (fun kv => P kv.2) items -> Forall (fun kv => P kv.2) (set_item items k v)).
  { intros items k v Hv. induction 1 as [|[k' v'] items Hi Hl IH]; cbn [set_item].
    { apply Forall_singleton. exact Hv. }
    destruct (k' =? k)%string; apply Forall_cons; by split. }
  assert (Hup : forall l a, Forall (fun kv => P kv.2) a -> Forall (fun kv => P kv.2) l ->
    Forall (fun kv => P kv.2) (foldl (fun p kv => set_item p kv.1 kv.2) a l)).
  { induction l as [|[k v] l IH]; intros a Ha Hl; [done|]. apply Forall_cons in Hl as [Hv Hl]. cbn. apply IH; [by apply Hset|done]. }
  apply Hup; [repeat (constructor; [apply Hs|]); constructor|].
  rewrite Forall_forall in HF |- *. intros kv Hin. apply HF. apply list_elem_of_In in Hin. apply list_elem_of_In.
  by apply List.filter_In in Hin as [? _].
Qed.

(** *** Reading a line back *)

Lemma get_perm (l l' : fields) k : l ≡ₚ l' -> NoDup (map fst l) -> dict_get l k = dict_get l' k.
Proof.
  induction 1 as [|[k1 v1] l l' _ IH|[k1 v1] [k2 v2] l|l1 l2 l3 H1 IH1 _ IH2]; cbn; intros Hn.
  - done.
  - apply NoDup_cons in Hn as [_ Hn]. by rewrite IH.
  - apply NoDup_cons in Hn as [Hn _]. destruct (String.eqb_spec k1 k) as [->|], (String.eqb_spec k2 k) as [->|]; try done.
    exfalso. apply Hn. by left.
  - rewrite IH1 by done. apply IH2. by rewrite <-H1.
Qed.

Lemma get_mapped (f : json -> json) (l : fields) k :
  dict_get (map (fun kv => (kv.1, f kv.2)) l) k = f <$> dict_get l k.
Proof. induction l as [|[k' v'] l IH]; cbn; [done|]. by destruct (k' =? k)%string. Qed.

Lemma map_fst_mapped (f : json -> json) (l : fields) : map fst (map (fun kv => (kv.1, f kv.2)) l) = map fst l.
Proof. induction l as [|[k v] l IH]; cbn; [done|]. by rewrite IH. Qed.

Lemma NoDup_sorted (l : fields) :
  NoDup (map fst l) -> NoDup (map fst (sort_by fst (map (fun kv => (kv.1, sort_keys kv.2)) l))).
Proof.
  intros H. pose proof (sort_by_perm fst (map (fun kv => (kv.1, sort_keys kv.2)) l)) as Hp.
  rewrite (Permutation_map fst Hp). by rewrite map_fst_mapped.
Qed.

Lemma forallb_Forall {A} (p : A -> bool) l : Forall (fun x => p x = true) l -> forallb p l = true.
Proof. induction 1 as [|x l Hx _ IH]; [done|]. cbn. by rewrite Hx. Qed.

Lemma keys_distinct_sorted v : keys_distinct v = true -> keys_distinct (sort_keys v) = true.
Proof.
  induction v as [|b|z|x|s|l IH|l IH] using json_ind'; cbn [keys_distinct sort_keys]; try done.
  - intros Hf. apply forallb_Forall, Forall_map. exact (Forall_forallb_impl _ _ _ IH Hf).
  - intros [Hd%bool_decide_eq_true Hf]%andb_true_iff. apply andb_true_iff. split.
    + apply bool_decide_eq_true. by apply NoDup_sorted.
    + apply forallb_Forall. rewrite sort_by_perm. apply Forall_map.
      exact (Forall_forallb_impl (fun kv => keys_distinct kv.2) _ _ IH Hf).
Qed.

(** The line of a record is its payload, with the keys sorted. *)
Lemma line_read_back service_name r :
  re_exception r = None -> NoDup (map fst (re_fields r)) ->
  Forall (fun kv => floats_ok kv.2 = true /\ keys_distinct kv.2 = true) (re_fields r) ->
  exists items, loads (structured_format service_name r) = Some (JObj items) /\
    forall k, dict_get items k = sort_keys <$> dict_get (payload_of service_name r) k.
Proof.
  intros He Hn HF. set (p := payload_of service_name r). pose proof (payload_distinct service_name r) as Hd. fold p in Hd.
  pose proof (payload_values (fun v => floats_ok v = true /\ keys_distinct v = true) service_name r He (fun _ => conj eq_refl eq_refl) HF) as Hp.
  fold p in Hp.
  assert (Hfl : floats_ok (JObj p) = true).
  { cbn. apply forallb_Forall. eapply Forall_impl; [exact Hp|]. by intros kv [? _]. }
  assert (Hkd : keys_distinct (JObj p) = true).
  { cbn. rewrite bool_decide_eq_true_2 by done. apply forallb_Forall. eapply Forall_impl; [exact Hp|]. by intros kv [_ ?]. }
  exists (sort_by fst (map (fun kv => (kv.1, sort_keys kv.2)) p)). split.
  - unfold structured_format. fold p. rewrite dump_print by by rewrite floats_ok_sort.
    change (JObj (sort_by fst ?l)) with (sort_keys (JObj p)).
    apply (loads_print default_config " " " "); try done; [by rewrite floats_ok_sort|by apply keys_distinct_sorted].
  - intros k. rewrite (get_perm _ (map (fun kv => (kv.1, sort_keys kv.2)) p)).
    + apply get_mapped.
    + apply sort_by_perm.
    + by apply NoDup_sorted.
Qed.

(** ** Bindings *)

(** Blocks in blocks, the outermost first. *)
Fixpoint bound_within {S A} (bindings : list CorrelationContext) (block : comp S A) : comp S A :=
  match bindings with
  | [] => block
  | b :: bs => bind_context b (fun _ => bound_within bs block)
  end.

(** The block runs under the merged context, and leaves the caller's as it was. *)
Lemma within_merges {S A} bindings (block : comp S A) c s :
  bound_within bindings block (c, s) =
  let '(r, (c', s')) := block (foldl merged_with c bindings, s) in (r, (match bindings with [] => c' | _ => c end, s')).
Proof.
  revert c. induction bindings as [|b bs IH]; intros c; cbn [bound_within foldl]; [by destruct (block (c, s)) as [r [c' s']]|].
  unfold bind_context. rewrite IH. by destruct (block _) as [r [c' s']].
Qed.

Lemma field_merged c b k : context_field (merged_with c b) k = some_or (context_field b k) (context_field c k).
Proof.
  unfold context_field, context_items. cbn [merged_with cx_decision_id cx_trace_id cx_tenant_id cx_agent_ref dict_get].
  destruct ("decision_id" =? k)%string; [reflexivity|]. destruct ("trace_id" =? k)%string; [reflexivity|].
  destruct ("tenant_id" =? k)%string; [reflexivity|]. destruct ("agent_ref" =? k)%string; reflexivity.
Qed.

(** A non-empty value wins over those of the blocks around it, and a binding
    without one leaves theirs. *)
Lemma innermost_wins c bindings b k :
  context_field (foldl merged_with c (bindings ++ [b])) k =
  some_or (context_field b k) (context_field (foldl merged_with c bindings) k).
Proof. rewrite foldl_app. apply field_merged. Qed.

(** A logging call as a computation over what has been written. *)
Definition emit (logger : Logger) (root : Z * list Handler) (time name : string) (level : string * Z) (message : string)
    (extra : fields) : comp (list string) unit :=
  fun '(c, out) =>
    match log logger root c time name level message extra with
    | Ok lines => (Ok tt, (c, out ++ lines))
    | Raise e => (Raise e, (c, out))
    end.

(** ** The configured logger *)

Lemma unmanaged_none hs : forallb ha_managed hs = true -> List.filter (fun h => negb (ha_managed h)) hs = [].
Proof. induction hs as [|h hs IH]; [done|]. cbn. intros [-> H]%andb_true_iff. by apply IH. Qed.

Lemma filter_twice {A} (p : A -> bool) l : List.filter p (List.filter p l) = List.filter p l.
Proof. induction l as [|x l IH]; [done|]. cbn. destruct (p x) eqn:E; cbn; [by rewrite E, IH|done]. Qed.

Lemma configure_idempotent config lg lg1 : configure_logging config lg = Ok lg1 -> configure_logging config lg1 = Ok lg1.
Proof.
  unfold configure_logging. destruct (level_number _) as [n|]; [|done]. intros [= <-]. cbn.
  rewrite List.filter_app, filter_twice. cbn. by rewrite app_nil_r.
Qed.

Lemma configured_level config lg lg1 : configure_logging config lg = Ok lg1 -> level_number (oc_log_level config) = Ok (lo_level lg1).
Proof. unfold configure_logging. destruct (level_number _) as [n|]; [|done]. by intros [= <-]. Qed.

(** A configuration that loads names a level that is set, above [NOTSET]. *)
Lemma validated_level d config : mk_ObservabilityConfig d = inr config ->
  exists n, level_number (oc_log_level config) = Ok n /\ (10 <= n)%Z.
Proof.
  unfold mk_ObservabilityConfig. set (level := get_text d "log_level" "INFO").
  destruct (of_res _) as [|]; [done|]. cbn [mbind cfg_bind].
  destruct (bool_decide (lower level ∈ LOG_LEVELS)) eqn:E; cbn [negb violation_if app reject_if]; [|done].
  intros [= <-]. cbn [oc_log_level]. unfold level_number. apply bool_decide_eq_true in E. unfold LOG_LEVELS in E.
  repeat (apply elem_of_cons in E as [->|E]; [eexists; split; [reflexivity|lia]|]). by apply not_elem_of_nil in E.
Qed.

Definition CORRELATION_FIELDS : list string := ["decision_id"; "trace_id"; "tenant_id"; "agent_ref"].

(** The value a context states for a field, said without the merge. *)
Definition stated (k : string) (b : CorrelationContext) : option string :=
  if (k =? "decision_id")%string then cx_decision_id b
  else if (k =? "trace_id")%string then cx_trace_id b
  else if (k =? "tenant_id")%string then cx_tenant_id b
  else if (k =? "agent_ref")%string then cx_agent_ref b
  else None.

(** The first non-empty value of a list of contexts, or else the last one's. *)
Fixpoint first_stated (k : string) (l : list CorrelationContext) : option string :=
  match l with
  | [] => None
  | [b] => stated k b
  | b :: rest => match stated k b with
                 | Some s => if (s =? "")%string then first_stated k rest else Some s
                 | None => first_stated k rest
                 end
  end.

Lemma stated_field k b : k ∈ CORRELATION_FIELDS -> context_field b k = stated k b.
Proof.
  unfold CORRELATION_FIELDS. intros Hk.
  repeat (apply elem_of_cons in Hk as [->|Hk]; [reflexivity|]). by apply not_elem_of_nil in Hk.
Qed.

Lemma first_stated_cons k b l : l <> [] -> first_stated k (b :: l) = some_or (stated k b) (first_stated k l).
Proof.
  destruct l as [|b' l]; [done|]. intros _. cbn [first_stated]. unfold some_or. destruct (stated k b) as [[|a s]|]; done.
Qed.

(** Bindings in force: the innermost block first, the caller's context last. *)
Lemma merged_is_first_stated c bindings k :
  k ∈ CORRELATION_FIELDS -> context_field (foldl merged_with c bindings) k = first_stated k (rev bindings ++ [c]).
Proof.
  intros Hk. induction bindings as [|b bs IH] using rev_ind; [by apply stated_field|].
  rewrite innermost_wins, IH, rev_app_distr, stated_field by done. cbn [rev app].
  rewrite first_stated_cons; [done|]. by destruct (rev bs).
Qed.

(** C38.  A JSON log line says what it is about, once.  After
    [configure_logging] with [json_logs] on and a level above zero, of a logger
    without other handlers, a second time as after the first, a record at a level
    the configuration lets through, whose extras have different names, none of a
    standard field, and values JSON gives back, is written exactly once by the
    package's handler, inside any nest of [bind_context] blocks and without changing the caller's
    binding.  What is written is one line; read back as JSON it has the message
    that was logged and, for each correlation field, the record's own field or
    else the innermost non-empty value among the blocks around the call, and
    last the caller's context; and the time, level, service and logger, each
    unless the record has a field of its own of that name. *)
Theorem log_lines_carry_their_context config lg lg1 root bindings c time name level message extra out :
  configure_logging config lg = Ok lg1 -> forallb ha_managed (lo_handlers lg) = true -> oc_json_logs config = true ->
  (lo_level lg1 <= level.2)%Z -> (0 < lo_level lg1)%Z ->
  NoDup (map fst extra) -> existsb (fun kv => is_standard kv.1) extra = false ->
  Forall (fun kv => floats_ok kv.2 = true /\ keys_distinct kv.2 = true) extra ->
  configure_logging config lg1 = Ok lg1 /\
  exists line items,
    bound_within bindings (emit lg1 root time name level message extra) (c, out) = (Ok tt, (c, out ++ [line])) /\
    one_line line = true /\ loads line = Some (JObj items) /\ dict_get items "message" = Some (JStr message) /\
    (forall k, k ∈ CORRELATION_FIELDS -> dict_get items k =
       match dict_get extra k with
       | Some v => Some (sort_keys v)
       | None => JStr <$> first_stated k (rev bindings ++ [c])
       end) /\
    forall k v, (k, v) ∈ [("timestamp", time); ("level", level.1); ("service", oc_service_name config); ("logger", name)] ->
      dict_get extra k = None -> dict_get items k = Some (JStr v).
Proof.
  intros Hconf Hman Hjson Hlevel Hpos Hnd Hstd Hval. split; [by eapply configure_idempotent|].
  assert (Elg : lg1 = {| lo_level := lo_level lg1; lo_handlers := [managed_handler config]; lo_propagate := false |}).
  { unfold configure_logging in Hconf. destruct (level_number _); [|done]. injection Hconf as <-. by rewrite unmanaged_none. }
  set (cx := foldl merged_with c bindings).
  set (r := {| re_time := time; re_level := level.1; re_name := name; re_message := message; re_fields := extra; re_exception := None |}).
  set (r' := correlation_filter cx r).
  assert (Hf : re_fields r' = foldl add_missing extra (context_as_dict cx)) by done.
  assert (Hnd' : NoDup (map fst (re_fields r'))) by (rewrite Hf; by apply NoDup_added).
  assert (Hval' : Forall (fun kv => floats_ok kv.2 = true /\ keys_distinct kv.2 = true) (re_fields r')).
  { rewrite Hf. clear -Hval. revert extra Hval. induction (context_as_dict cx) as [|[k v] l IH]; intros extra Hval; [done|]. cbn.
    apply IH. unfold add_missing. cbn. destruct (dict_get extra k); [done|]. apply Forall_app. split; [done|]. by apply Forall_singleton. }
  destruct (line_read_back (oc_service_name config) r' eq_refl Hnd' Hval') as (items & Hl & Hget).
  exists (structured_format (oc_service_name config) r'), items. split_and!.
  - rewrite within_merges. fold cx. unfold emit, log. rewrite Elg. cbn [lo_level lo_handlers lo_propagate].
    rewrite (proj2 (Z.eqb_neq _ _)) by lia. rewrite (proj2 (Z.ltb_ge _ _) Hlevel). unfold make_record. rewrite Hstd. cbn.
    unfold managed_handler. rewrite Hjson. cbn. by destruct bindings.
  - apply dump_one_line.
  - exact Hl.
  - rewrite Hget, payload_message by done. reflexivity.
  - intros k Hk. rewrite Hget.
    assert (is_standard k = false /\ startswith "_" k = false /\
      dict_get [("timestamp", JStr (re_time r')); ("level", JStr (re_level r')); ("service", JStr (oc_service_name config));
                ("logger", JStr (re_name r')); ("message", JStr (re_message r'))] k = None) as (H1 & H2 & H3).
    { unfold CORRELATION_FIELDS in Hk.
      repeat (apply elem_of_cons in Hk as [->|Hk]; [split_and!; reflexivity|]). by apply not_elem_of_nil in Hk. }
    rewrite payload_value, H3 by done. rewrite Hf, get_added by apply NoDup_context. rewrite get_context.
    destruct (dict_get extra k); [done|]. rewrite <-merged_is_first_stated by done. fold cx. by destruct (context_field cx k).
  - intros k v Hk Hno. rewrite Hget.
    assert (is_standard k = false /\ startswith "_" k = false /\ context_field cx k = None /\
      dict_get [("timestamp", JStr (re_time r')); ("level", JStr (re_level r')); ("service", JStr (oc_service_name config));
                ("logger", JStr (re_name r')); ("message", JStr (re_message r'))] k = Some (JStr v)) as (H1 & H2 & H3 & H4).
    { repeat (apply elem_of_cons in Hk as [[= -> ->]|Hk]; [split_and!; reflexivity|]). by apply not_elem_of_nil in Hk. }
    rewrite payload_value, H4 by done. by rewrite Hf, get_added, get_context, Hno, H3 by apply NoDup_context.
Qed.

(** ** Errors *)

Lemma ctx_not_standard k : is_standard ("ctx_" +:+ k) = false.
Proof.
  unfold is_standard. apply bool_decide_eq_false. unfold STANDARD_RECORD_FIELDS. intros H.
  repeat (apply elem_of_cons in H as [H|H]; [cbn in H; discriminate H|]). by apply not_elem_of_nil in H.
Qed.

Lemma standard_set_item items k v :
  existsb (fun kv => is_standard kv.1) items = false -> is_standard k = false ->
  existsb (fun kv => is_standard kv.1) (set_item items k v) = false.
Proof.
  intros H Hk. induction items as [|[k' v'] items IH]; cbn in *; [by rewrite Hk|].
  apply orb_false_iff in H as [H1 H2]. destruct (k' =? k)%string; cbn; [by rewrite Hk, H2|by rewrite H1, IH].
Qed.

(** What the error brings never makes the record refused, and its code and class
    are on the record whatever else is. *)
Lemma error_payload_ok extra e :
  existsb (fun kv => is_standard kv.1) extra = false ->
  existsb (fun kv => is_standard kv.1) (error_payload extra e) = false /\
  dict_get (error_payload extra e) "error_code" =
    Some (JStr (match e with Governed er => Class.code (er_class er) | Unhandled _ _ => "unhandled_exception" end)) /\
  dict_get (error_payload extra e) "error_class" =
    Some (JStr (match e with Governed er => Class.class_name (er_class er) | Unhandled n _ => n end)).
Proof.
  intros Hx. assert (Hbase : forall code cls,
    let base := set_item (set_item extra "error_code" (JStr code)) "error_class" (JStr cls) in
    existsb (fun kv => is_standard kv.1) base = false /\
    dict_get base "error_code" = Some (JStr code) /\ dict_get base "error_class" = Some (JStr cls)).
  { intros code cls. cbn. split_and!; [by repeat apply standard_set_item| |by rewrite get_set_item].
    rewrite !get_set_item. reflexivity. }
  destruct e as [er|n t]; cbn [error_payload]; [|apply Hbase].
  destruct (Hbase (Class.code (er_class er)) (Class.class_name (er_class er))) as (H1 & H2 & H3). revert H1 H2 H3.
  generalize (set_item (set_item extra "error_code" (JStr (Class.code (er_class er)))) "error_class"
    (JStr (Class.class_name (er_class er)))).
  induction (er_context er) as [|[k v] l IH]; intros base H1 H2 H3; [done|]. cbn [foldl fst snd].
  apply IH; [apply standard_set_item; [done|apply ctx_not_standard]|by rewrite get_set_item..].
Qed.

Lemma log_error_is_logged logger root c time name e message level extra :
  existsb (fun kv => is_standard kv.1) extra = false ->
  exists lines, log_error logger root c time name e message level extra = Ok lines.
Proof.
  intros (Hs & _)%(error_payload_ok _ e). unfold log_error, log. destruct (_ <? _)%Z; [by eexists|].
  unfold make_record. rewrite Hs. cbn. by destruct (_ ++ _); eexists.
Qed.

(** ** A configured logger *)

Definition sample_observability : ObservabilityConfig :=
  {| oc_service_name := "glassbox"; oc_log_level := "Info"; oc_json_logs := true |}.
Definition sample_logger : Logger := match configure_logging sample_observability logger_init with Ok l => l | Raise _ => logger_init end.
Definition sample_bindings : list CorrelationContext :=
  [{| cx_decision_id := Some "d1"; cx_trace_id := Some "t1"; cx_tenant_id := None; cx_agent_ref := None |};
   {| cx_decision_id := None; cx_trace_id := Some ""; cx_tenant_id := Some "acme"; cx_agent_ref := Some "agent-1" |}].

Definition sample_extra : fields := [("tenant_id", JStr "other"); ("n", JInt 3)].

Lemma log_lines_carry_their_context_witness :
  exists line items, bound_within sample_bindings (emit sample_logger (30%Z, []) "now" "glassbox.http" INFO "hello" sample_extra) (no_context, [])
      = (Ok tt, (no_context, [line])) /\ loads line = Some (JObj items) /\
    dict_get items "trace_id" = Some (JStr "t1") /\ dict_get items "tenant_id" = Some (JStr "other") /\
    dict_get items "agent_ref" = Some (JStr "agent-1").
Proof.
  destruct (log_lines_carry_their_context sample_observability logger_init sample_logger (30%Z, []) sample_bindings no_context
    "now" "glassbox.http" INFO "hello" sample_extra []) as (_ & line & items & He & _ & Hl & _ & Hc & _).
  - vm_compute. reflexivity.
  - reflexivity.
  - reflexivity.
  - vm_compute. discriminate.
  - vm_compute. reflexivity.
  - apply (bool_decide_unpack _). vm_compute. exact I.
  - vm_compute. reflexivity.
  - repeat (apply Forall_cons; split; [split; vm_compute; reflexivity|]). apply Forall_nil. exact I.
  - exists line, items. split; [exact He|]. split; [exact Hl|]. split; [|split].
    + rewrite (Hc "trace_id"); [reflexivity|right; by left].
    + rewrite (Hc "tenant_id"); [reflexivity|right; right; by left].
    + rewrite (Hc "agent_ref"); [reflexivity|right; right; right; by left].
Defined.

(** A message cannot forge a second line, but in the plain format it can. *)
Example only_json_is_one_line :
  let forged := "ok" +:+ String newline "now CRITICAL glassbox x" in
  map one_line (match log sample_logger (30%Z, []) no_context "now" "glassbox" INFO forged [] with Ok l => l | Raise _ => [] end) = [true] /\
  map one_line (match configure_logging {| oc_service_name := "s"; oc_log_level := "INFO"; oc_json_logs := false |} logger_init with
                | Ok l => match log l (30%Z, []) no_context "now" "glassbox" INFO forged [] with Ok l => l | Raise _ => [] end
                | Raise _ => []
                end) = [false].
Proof. vm_compute. split; reflexivity. Qed.

(** A field of the caller replaces the level and the service of the record. *)
Example extra_replaces_the_level :
  match log sample_logger (30%Z, []) no_context "now" "glassbox" ERROR "m" [("level", JStr "DEBUG"); ("service", JStr "x")] with
  | Ok [line] => match loads line with
                 | Some (JObj items) => dict_get items "level" = Some (JStr "DEBUG") /\ dict_get items "service" = Some (JStr "x")
                 | _ => False
                 end
  | _ => False
  end.
Proof. vm_compute. split; reflexivity. Qed.
