(* ===== verification/Policy.v ===== *)
(** * Declarative policy ([glassbox/domain/policy_bundle.py],
      [glassbox/adapters/outbound/memory/policy.py])

    Rules are data: two shell patterns, two ceilings and an effect.  A bundle
    keeps them in ascending priority, the first rule that matches decides, and
    nothing matching is a denial.  Bundles are signed over their canonical
    payload and verified before they become active. *)

From stdpp Require Import base tactics list strings gmap.
From Stdlib Require Import ZArith Lia Sorted Ascii Init.Byte.
From S2P Require Import Prelude PyFloat PyStr Serialization Sha256 Merkle Fnmatch Action Identity Mandate Decision Catalogue Signing Decisioning.

Open Scope string_scope.
Open Scope list_scope.

(** ** Rules *)

Definition MAX_RULES_PER_BUNDLE : nat := Z.to_nat 10000.

Inductive RuleEffect := RULE_ALLOW | RULE_DENY | RULE_REQUIRE_APPROVAL.
#[export] Instance RuleEffect_eq_dec : EqDecision RuleEffect.
Proof. solve_decision. Defined.

Definition rule_effect_value (e : RuleEffect) : string :=
  match e with
  | RULE_ALLOW => "allow" | RULE_DENY => "deny" | RULE_REQUIRE_APPROVAL => "require_approval"
  end.

Record PolicyRule := {
  pr_name : string;
  pr_effect : RuleEffect;
  pr_action_pattern : string;
  pr_resource_pattern : string;
  pr_max_consequence : option ConsequenceClass;
  pr_max_monetary : option float;
  pr_priority : Z;
  pr_rationale : string
}.

Definition mk_PolicyRule (name : string) (effect : RuleEffect) (action_pattern resource_pattern : string)
    (max_consequence : option ConsequenceClass) (max_monetary : option float) (priority : Z)
    (rationale : string) : res PolicyRule :=
  name ← require_identifier name "name";
  action_pattern ← require_non_empty action_pattern "action_pattern";
  resource_pattern ← require_non_empty resource_pattern "resource_pattern";
  max_monetary ← res_opt (fun m => require_non_negative m "max_monetary") max_monetary;
  Ok {| pr_name := name; pr_effect := effect; pr_action_pattern := action_pattern;
        pr_resource_pattern := resource_pattern; pr_max_consequence := max_consequence;
        pr_max_monetary := max_monetary; pr_priority := priority; pr_rationale := rationale |}.

Definition rule_matches (r : PolicyRule) (action : ProposedAction) : bool :=
  if negb (fnmatchcase (pa_action action) (pr_action_pattern r)) then false
  else if negb (fnmatchcase (resource_name action) (pr_resource_pattern r)) then false
  else if match pr_max_consequence r with
          | Some c => consequence_gtb (pa_consequence action) c
          | None => false
          end then false
  else match pr_max_monetary r with
       | Some m => match ex_monetary (pa_exposure action) with
                   | None => false
                   | Some x => negb (fgt x m)
                   end
       | None => true
       end.

(** Without the rationale. *)
Definition rule_as_evidence (r : PolicyRule) : pyval :=
  pdict [("name", PStr (pr_name r)); ("effect", PStr (rule_effect_value (pr_effect r)));
         ("action_pattern", PStr (pr_action_pattern r));
         ("resource_pattern", PStr (pr_resource_pattern r));
         ("max_consequence", match pr_max_consequence r with
                             | Some c => PStr (consequence_value c)
                             | None => PNone
                             end);
         ("max_monetary", match pr_max_monetary r with Some m => PFloat m | None => PNone end);
         ("priority", PInt (pr_priority r))].

(** ** Bundles *)

Record PolicyBundle := {
  pb_bundle_id : string;
  pb_tenant_id : string;
  pb_version : Z;
  pb_created_at : float;
  pb_rules : list PolicyRule
}.

(** [sorted(rules, key=priority)], which is stable. *)
Fixpoint insert_rule (r : PolicyRule) (l : list PolicyRule) : list PolicyRule :=
  match l with
  | [] => [r]
  | y :: l' => if (pr_priority r <=? pr_priority y)%Z then r :: l else y :: insert_rule r l'
  end.
Definition sort_rules (l : list PolicyRule) : list PolicyRule := foldr insert_rule [] l.

Definition mk_PolicyBundle (bundle_id tenant_id : string) (version : Z) (created_at : float)
    (rules : list PolicyRule) : res PolicyBundle :=
  bundle_id ← require_identifier bundle_id "bundle_id";
  tenant_id ← require_identifier tenant_id "tenant_id";
  _ ← require_non_negative_int version "version";
  created_at ← require_timestamp created_at "created_at";
  _ ← raise_if (MAX_RULES_PER_BUNDLE <? length rules)%nat (DomainValidationError "rules");
  _ ← raise_if (has_dup [] (map pr_name rules)) (DomainValidationError "rules");
  Ok {| pb_bundle_id := bundle_id; pb_tenant_id := tenant_id; pb_version := version;
        pb_created_at := created_at; pb_rules := sort_rules rules |}.

Definition matching_rule (b : PolicyBundle) (action : ProposedAction) : option PolicyRule :=
  List.find (fun r => rule_matches r action) (pb_rules b).

Definition bundle_payload (b : PolicyBundle) : pyval :=
  pdict [("bundle_id", PStr (pb_bundle_id b)); ("tenant_id", PStr (pb_tenant_id b));
         ("version", PInt (pb_version b)); ("created_at", PFloat (pb_created_at b));
         ("rules", PList (map rule_as_evidence (pb_rules b)))].

Definition canonical_payload (b : PolicyBundle) : res bytes := canonical_bytes (bundle_payload b).

Definition policy_digest (b : PolicyBundle) : res string :=
  payload ← canonical_payload b; Ok (bytes_hex (sha256 payload)).

(** ** Conflicts *)

Record RuleConflict := {
  cn_rule_a : string;
  cn_rule_b : string;
  cn_reason : string
}.

Definition star : ascii := "*"%char.

Definition patterns_overlap (pattern_a pattern_b : string) : bool :=
  if negb (has_char star pattern_a) && negb (has_char star pattern_b)
  then (pattern_a =? pattern_b)%string
  else startswith (before star pattern_b) (before star pattern_a) ||
       startswith (before star pattern_a) (before star pattern_b).

Definition conflict (a b : PolicyRule) : option RuleConflict :=
  if bool_decide (pr_effect a = pr_effect b) then None
  else if patterns_overlap (pr_action_pattern a) (pr_action_pattern b) &&
          patterns_overlap (pr_resource_pattern a) (pr_resource_pattern b)
  then Some {| cn_rule_a := pr_name a; cn_rule_b := pr_name b;
               cn_reason :=
                 str_repr (rule_effect_value (pr_effect a)) +:+ " (" +:+ pr_name a +:+ ") and " +:+
                 str_repr (rule_effect_value (pr_effect b)) +:+ " (" +:+ pr_name b +:+ ") overlap on " +:+
                 "action=" +:+ str_repr (pr_action_pattern a) +:+ "/" +:+ str_repr (pr_action_pattern b) +:+
                 " resource=" +:+ str_repr (pr_resource_pattern a) +:+ "/" +:+
                 str_repr (pr_resource_pattern b) |}
  else None.

Fixpoint conflicts_among (rules : list PolicyRule) : list RuleConflict :=
  match rules with
  | [] => []
  | rule_a :: later => omap (conflict rule_a) later ++ conflicts_among later
  end.

Definition detect_conflicts (b : PolicyBundle) : list RuleConflict := conflicts_among (pb_rules b).

(** ** The decision point *)

Record SignedPolicyBundle := {
  sp_bundle : PolicyBundle;
  sp_mac : bytes;
  sp_signer_key_id : string
}.

Definition mk_SignedPolicyBundle (bundle : PolicyBundle) (mac : bytes) (signer_key_id : string)
    : res SignedPolicyBundle :=
  _ ← raise_if (length mac <? 32)%nat (DomainValidationError "mac");
  signer_key_id ← require_identifier signer_key_id "signer_key_id";
  Ok {| sp_bundle := bundle; sp_mac := mac; sp_signer_key_id := signer_key_id |}.

Section decision_point.
Context {S : Type} `{MacSigner S}.

Record DeclarativePolicy := {
  pd_signer : S;
  pd_bundles : gmap string SignedPolicyBundle;
  pd_available : bool
}.

Definition policy_init (signer : S) : DeclarativePolicy :=
  {| pd_signer := signer; pd_bundles := ∅; pd_available := true |}.

Definition activate (p : DeclarativePolicy) (signed : SignedPolicyBundle) : DeclarativePolicy :=
  {| pd_signer := pd_signer p; pd_bundles := <[pb_tenant_id (sp_bundle signed) := signed]> (pd_bundles p);
     pd_available := pd_available p |}.

Definition policy_load_bundle (p : DeclarativePolicy) (bundle : PolicyBundle)
    : res SignedPolicyBundle * DeclarativePolicy :=
  match (payload ← canonical_payload bundle;
         mac ← signer_mac (pd_signer p) payload;
         mk_SignedPolicyBundle bundle mac (signer_key_id (pd_signer p))) with
  | Ok signed => (Ok signed, activate p signed)
  | Raise e => (Raise e, p)
  end.

Definition policy_load_signed_bundle (p : DeclarativePolicy) (signed : SignedPolicyBundle)
    : res unit * DeclarativePolicy :=
  match (payload ← canonical_payload (sp_bundle signed);
         signer_verify (pd_signer p) payload (sp_mac signed) (sp_signer_key_id signed)) with
  | Raise SigningUnavailableError => (Raise PolicyBundleUnavailableError, p)
  | Raise e => (Raise e, p)
  | Ok false => (Raise PolicyBundleSignatureError, p)
  | Ok true => (Ok tt, activate p signed)
  end.

Definition policy_active (p : DeclarativePolicy) (tenant_id : string) : res SignedPolicyBundle :=
  _ ← raise_if (negb (pd_available p)) PolicyBundleUnavailableError;
  match pd_bundles p !! tenant_id with
  | Some signed => Ok signed
  | None => Raise PolicyBundleUnavailableError
  end.

Definition policy_decide (p : DeclarativePolicy) (request : AuthorizationRequest)
    : res AuthorizationDecision :=
  signed ← policy_active p (aq_tenant_id request);
  let bundle := sp_bundle signed in
  digest ← policy_digest bundle;
  match matching_rule bundle (aq_action request) with
  | None =>
      decision_deny [POLICY_DENIED] "no rule in the active bundle matches this action; deny by default"
        (Some (pb_bundle_id bundle)) (Some digest) []
  | Some rule =>
      match pr_effect rule with
      | RULE_DENY =>
          decision_deny [POLICY_DENIED]
            (str_or (pr_rationale rule) ("denied by rule " +:+ str_repr (pr_name rule)))
            (Some (pb_bundle_id bundle)) (Some digest) [pr_name rule]
      | RULE_REQUIRE_APPROVAL =>
          decision_require_approval
            (str_or (pr_rationale rule) ("rule " +:+ str_repr (pr_name rule) +:+ " requires human approval"))
            (pb_bundle_id bundle) digest [pr_name rule] [] None None
      | RULE_ALLOW =>
          decision_allow
            (str_or (pr_rationale rule) ("permitted by rule " +:+ str_repr (pr_name rule)))
            (pb_bundle_id bundle) digest [pr_name rule] []
      end
  end.

Definition policy_active_bundle_digest (p : DeclarativePolicy) (tenant_id : string) : res string :=
  signed ← policy_active p tenant_id; policy_digest (sp_bundle signed).

Definition policy_set_available (p : DeclarativePolicy) (available : bool) : DeclarativePolicy :=
  {| pd_signer := pd_signer p; pd_bundles := pd_bundles p; pd_available := available |}.
End decision_point.
Arguments DeclarativePolicy : clear implicits.

(** ** The rule that decides *)

Abbreviation prio_le := (fun x y => (pr_priority x <= pr_priority y)%Z).

Lemma insert_rule_in r l x : x ∈ insert_rule r l <-> x = r \/ x ∈ l.
Proof.
  induction l as [|y l IH]; cbn [insert_rule]; [|destruct (_ <=? _)%Z];
    rewrite !elem_of_cons, ?IH, ?elem_of_nil; naive_solver.
Qed.

Lemma sort_rules_in l x : x ∈ sort_rules l <-> x ∈ l.
Proof.
  induction l as [|y l IH]; cbn; [done|]. fold (sort_rules l). rewrite insert_rule_in, IH, elem_of_cons. done.
Qed.

Lemma insert_rule_sorted r l : StronglySorted prio_le l -> StronglySorted prio_le (insert_rule r l).
Proof.
  induction 1 as [|y l Hl IH Hy]; cbn [insert_rule]; [repeat constructor|].
  destruct (Z.leb_spec (pr_priority r) (pr_priority y)).
  - constructor; [by constructor|]. constructor; [done|].
    eapply Forall_impl; [exact Hy|]. cbn. lia.
  - constructor; [done|]. apply Forall_forall. intros x [->|Hx]%insert_rule_in; [lia|].
    rewrite Forall_forall in Hy. by apply Hy.
Qed.

Lemma sort_rules_sorted l : StronglySorted prio_le (sort_rules l).
Proof. induction l; cbn; [constructor | by apply insert_rule_sorted]. Qed.

(** Finding the first match after an insertion: the new rule wins ties. *)
Lemma find_insert f r l :
  StronglySorted prio_le l ->
  List.find f (insert_rule r l) =
    if f r then match List.find f l with
                | Some y => if (pr_priority r <=? pr_priority y)%Z then Some r else Some y
                | None => Some r
                end
    else List.find f l.
Proof.
  induction 1 as [|y l Hl IH Hy]; cbn [insert_rule List.find]; [done|].
  destruct (Z.leb_spec (pr_priority r) (pr_priority y)) as [Hle|Hlt]; cbn [List.find].
  - destruct (f r); [|done]. destruct (f y).
    + by rewrite (proj2 (Z.leb_le _ _) Hle).
    + destruct (List.find f l) as [z|] eqn:E; [|done].
      apply List.find_some in E as [Hz%list_elem_of_In _]. rewrite Forall_forall in Hy.
      specialize (Hy z Hz). cbn in Hy. rewrite (proj2 (Z.leb_le _ _)) by lia. done.
  - destruct (f y); [|done]. destruct (f r); [|done].
    by rewrite (proj2 (Z.leb_gt _ _) Hlt).
Qed.

(** [r] at position [i] of [rules] decides: among the rules that match it has
    the lowest priority, and comes first among those of that priority. *)
Definition decisive (rules : list PolicyRule) (f : PolicyRule -> bool) (i : nat) (r : PolicyRule) : Prop :=
  rules !! i = Some r /\ f r = true /\
  forall j r', rules !! j = Some r' -> f r' = true ->
    (pr_priority r < pr_priority r')%Z \/ pr_priority r = pr_priority r' /\ (i <= j)%nat.

Lemma find_sorted f l :
  match List.find f (sort_rules l) with
  | Some r => exists i, decisive l f i r
  | None => Forall (fun r => f r = false) l
  end.
Proof.
  induction l as [|r l IH]; [constructor|]. cbn [sort_rules foldr]. fold (sort_rules l).
  rewrite find_insert by apply sort_rules_sorted.
  destruct (f r) eqn:Hr.
  - destruct (List.find f (sort_rules l)) as [y|].
    + destruct IH as (i & Hi & Hy & Hmin). destruct (Z.leb_spec (pr_priority r) (pr_priority y)).
      * exists 0%nat. split_and!; try done. intros [|j] r' Hj Hr'; [injection Hj as <-; right; lia|].
        destruct (Hmin j r' Hj Hr'); lia.
      * exists (Datatypes.S i). split_and!; try done. intros [|j] r' Hj Hr'; [injection Hj as <-; lia|].
        destruct (Hmin j r' Hj Hr'); lia.
    + exists 0%nat. split_and!; try done. intros [|j] r' Hj Hr'; [injection Hj as <-; right; lia|].
      rewrite Forall_forall in IH. apply (list_elem_of_lookup_2 l j), IH in Hj. congruence.
  - destruct (List.find f (sort_rules l)) as [y|]; [|by constructor].
    destruct IH as (i & Hi & Hy & Hmin). exists (Datatypes.S i). split_and!; try done.
    intros [|j] r' Hj Hr'; [injection Hj as <-; congruence|]. destruct (Hmin j r' Hj Hr'); lia.
Qed.

Definition effect_decides (e : RuleEffect) : DecisionEffect :=
  match e with RULE_ALLOW => ALLOW | RULE_DENY => DENY | RULE_REQUIRE_APPROVAL => REQUIRE_APPROVAL end.

Lemma mk_PolicyBundle_ok id t v c rules b :
  mk_PolicyBundle id t v c rules = Ok b ->
  pb_bundle_id b = id /\ pb_tenant_id b = t /\ pb_version b = v /\ pb_rules b = sort_rules rules.
Proof.
  unfold mk_PolicyBundle. intros H. inv_ok. subst b. cbn.
  repeat match goal with
  | H : require_identifier _ _ = Ok _ |- _ => apply require_identifier_valid in H as [-> ?]
  end. done.
Qed.

Lemma policy_digest_lower b d : policy_digest b = Ok d -> lower d = d.
Proof. unfold policy_digest. intros H. inv_ok. subst. apply lower_bytes_hex. Qed.

Section decisions.
Context {S : Type} `{MacSigner S}.

(** The first rule decides, and nothing matching denies.  With a bundle
    built from [rules] active for the request's tenant, a decision cites that
    bundle and its digest, and has the effect and the name of the rule that,
    among those matching the action, has the lowest priority and comes first at
    that priority; where none matches, it is a policy denial that matched no
    rule.  Without an active bundle the decision point raises. *)
Theorem first_rule_decides (p : DeclarativePolicy S) id t v c rules b signed r d :
  mk_PolicyBundle id t v c rules = Ok b ->
  pd_bundles p !! aq_tenant_id r = Some signed -> sp_bundle signed = b ->
  policy_decide p r = Ok d ->
  pd_available p = true /\
  ad_policy_bundle_id d = Some id /\ ad_obligations d = [] /\
  (exists digest, policy_digest b = Ok digest /\ ad_policy_bundle_sha256 d = Some digest) /\
  ((exists i rule, decisive rules (fun x => rule_matches x (aq_action r)) i rule /\
      ad_effect d = effect_decides (pr_effect rule) /\ ad_matched_rules d = [pr_name rule]) \/
   Forall (fun x => rule_matches x (aq_action r) = false) rules /\
   ad_effect d = DENY /\ ad_reasons d = [POLICY_DENIED] /\ ad_matched_rules d = []).
Proof.
  intros Hb Hact Hs Hd. unfold policy_decide, policy_active in Hd. rewrite Hact in Hd.
  apply bind_ok in Hd as (x & Hx & Hd). apply bind_ok in Hx as ([] & Hav & [= <-]).
  apply raise_if_ok, negb_false_iff in Hav. rewrite Hs in Hd.
  apply bind_ok in Hd as (digest & Hdig & Hd). pose proof (policy_digest_lower _ _ Hdig) as Hlow.
  apply mk_PolicyBundle_ok in Hb as (<- & _ & _ & Hrules).
  pose proof (find_sorted (fun x => rule_matches x (aq_action r)) rules) as Hf.
  unfold matching_rule in Hd. rewrite Hrules in Hd.
  destruct (List.find _ _) as [rule|]; [destruct Hf as (i & Hdec); destruct (pr_effect rule) eqn:He|];
    cbn [decision_deny is_nil raise_if mbind res_bind] in Hd;
    apply decision_cites in Hd as (Heff & ? & ? & ? & ? & Hsha); rewrite Hlow in Hsha; split_and!; eauto;
    left; exists i, rule; by rewrite He.
Qed.
End decisions.

(** ** Conflict analysis *)

(** A pattern whose only special character is [*]. *)
Definition star_only (pat : string) : bool :=
  str_forallb (fun c => negb (Ascii.eqb c "?"%char || Ascii.eqb c "["%char)) pat.

Definition star_rule (r : PolicyRule) : bool :=
  star_only (pr_action_pattern r) && star_only (pr_resource_pattern r).

Lemma glob_prefix fuel pat name :
  (String.length pat <= fuel)%nat -> star_only pat = true -> glob (tokens fuel pat) name = true ->
  startswith (before star pat) name = true.
Proof.
  revert fuel name. induction pat as [|c pat IH]; intros [|fuel] name Hf Hs Hg; cbn [String.length] in Hf;
    try done; [lia|].
  unfold star_only in Hs. cbn [str_forallb] in Hs. apply andb_true_iff in Hs as [Hc Hs].
  cbn [before]. destruct (Ascii.eqb_spec c star) as [|Hne]; [done|].
  assert (Htok : tokens (S fuel) (String c pat) = GLit c :: tokens fuel pat).
  { destruct c as [[] [] [] [] [] [] [] []]; try done. }
  rewrite Htok in Hg. destruct name as [|d name]; [done|]. cbn [glob token_has] in Hg.
  apply andb_true_iff in Hg as [->%Ascii.eqb_eq Hg]. cbn [startswith]. rewrite Ascii.eqb_refl.
  apply (IH fuel); [lia | done | done].
Qed.

Lemma prefixes_comparable p q s :
  startswith p s = true -> startswith q s = true -> startswith q p || startswith p q = true.
Proof.
  revert q s. induction p as [|a p IH]; intros [|b q] [|c s]; cbn [startswith]; try done.
  intros [->%Ascii.eqb_eq Hp]%andb_true_iff [->%Ascii.eqb_eq Hq]%andb_true_iff.
  rewrite Ascii.eqb_refl. cbn. by apply (IH q s).
Qed.

Lemma star_free_literal pat :
  has_char star pat = false -> star_only pat = true ->
  str_forallb (fun c => negb (is_special c)) pat = true.
Proof.
  unfold star_only. induction pat as [|c pat IH]; cbn; [done|].
  intros [Hc Hh]%orb_false_iff [Hs Hp]%andb_true_iff. rewrite IH by done. unfold is_special.
  unfold star in Hc. rewrite Hc. cbn [orb]. by rewrite Hs.
Qed.

(** The heuristic misses no overlap of two such patterns. *)
Lemma overlap_sound p q name :
  star_only p = true -> star_only q = true -> fnmatchcase name p = true -> fnmatchcase name q = true ->
  patterns_overlap p q = true.
Proof.
  intros Hp Hq Mp Mq. unfold patterns_overlap.
  pose proof (prefixes_comparable _ _ _ (glob_prefix _ _ _ (le_n _) Hp Mp) (glob_prefix _ _ _ (le_n _) Hq Mq)).
  destruct (has_char star p) eqn:Ep, (has_char star q) eqn:Eq; cbn [negb andb]; try done.
  apply fnmatchcase_literal in Mp; [|by apply star_free_literal].
  apply fnmatchcase_literal in Mq; [|by apply star_free_literal]. subst. apply String.eqb_refl.
Qed.

Lemma rule_matches_patterns r a :
  rule_matches r a = true ->
  fnmatchcase (pa_action a) (pr_action_pattern r) = true /\
  fnmatchcase (resource_name a) (pr_resource_pattern r) = true.
Proof. unfold rule_matches. by destruct (fnmatchcase _ _), (fnmatchcase _ _). Qed.

Lemma conflict_reported a b x :
  star_rule a = true -> star_rule b = true -> rule_matches a x = true -> rule_matches b x = true ->
  pr_effect a <> pr_effect b ->
  exists c, conflict a b = Some c /\ cn_rule_a c = pr_name a /\ cn_rule_b c = pr_name b.
Proof.
  unfold star_rule. intros [Ha1 Ha2]%andb_true_iff [Hb1 Hb2]%andb_true_iff [Ma1 Ma2]%rule_matches_patterns
    [Mb1 Mb2]%rule_matches_patterns Hne.
  unfold conflict. rewrite bool_decide_eq_false_2 by done.
  rewrite (overlap_sound _ _ _ Ha1 Hb1 Ma1 Mb1), (overlap_sound _ _ _ Ha2 Hb2 Ma2 Mb2). eauto.
Qed.

Lemma conflicts_among_in rules i j a b c :
  rules !! i = Some a -> rules !! j = Some b -> (i < j)%nat -> conflict a b = Some c ->
  c ∈ conflicts_among rules.
Proof.
  revert i j. induction rules as [|r rules IH]; intros [|i] [|j] Hi Hj Hlt Hc; try done; try lia;
    cbn [conflicts_among]; rewrite elem_of_app.
  - injection Hi as ->. left. apply list_elem_of_omap. exists b. split; [|done].
    by apply (list_elem_of_lookup_2 rules j).
  - right. apply (IH i j); [done | done | lia | done].
Qed.

(** Conflict analysis misses nothing it claims to cover.  For a bundle
    whose patterns use no other wildcard than [*], two rules with different
    effects that both match some action are reported, in evaluation order; so
    where nothing is reported every rule matching an action has the effect of
    the rule that decides it, whatever their priorities. *)
Theorem conflicts_are_reported b :
  Forall (fun r => star_rule r = true) (pb_rules b) ->
  (forall i j r r' a, pb_rules b !! i = Some r -> pb_rules b !! j = Some r' -> (i < j)%nat ->
     rule_matches r a = true -> rule_matches r' a = true -> pr_effect r <> pr_effect r' ->
     exists c, c ∈ detect_conflicts b /\ cn_rule_a c = pr_name r /\ cn_rule_b c = pr_name r') /\
  (detect_conflicts b = [] -> forall a r r', matching_rule b a = Some r ->
     r' ∈ pb_rules b -> rule_matches r' a = true -> pr_effect r' = pr_effect r).
Proof.
  rewrite Forall_lookup. intros Hstar.
  assert (Hrep : forall i j r r' a, pb_rules b !! i = Some r -> pb_rules b !! j = Some r' -> (i < j)%nat ->
     rule_matches r a = true -> rule_matches r' a = true -> pr_effect r <> pr_effect r' ->
     exists c, c ∈ detect_conflicts b /\ cn_rule_a c = pr_name r /\ cn_rule_b c = pr_name r').
  { intros i j r r' a Hi Hj Hlt Hr Hr' Hne.
    destruct (conflict_reported r r' a) as (c & Hc & ? & ?); eauto.
    exists c. split; [by apply (conflicts_among_in _ i j r r') | done]. }
  split; [done|]. intros Hnone a r r' [Hin%list_elem_of_In Hr]%List.find_some Hin' Hr'.
  destruct (decide (pr_effect r' = pr_effect r)) as [|Hne]; [done|]. exfalso.
  apply list_elem_of_lookup in Hin as [i Hi], Hin' as [j Hj].
  destruct (Nat.lt_trichotomy i j) as [Hlt|[->|Hlt]]; [| congruence |].
  - destruct (Hrep i j r r' a) as (c & Hc & _); try done. rewrite Hnone in Hc. by apply elem_of_nil in Hc.
  - destruct (Hrep j i r' r a) as (c & Hc & _); try done. rewrite Hnone in Hc. by apply elem_of_nil in Hc.
Qed.

(** ** What a signature covers *)

Definition rule_json (r : PolicyRule) : json :=
  JObj [("name", JStr (pr_name r)); ("effect", JStr (rule_effect_value (pr_effect r)));
        ("action_pattern", JStr (pr_action_pattern r)); ("resource_pattern", JStr (pr_resource_pattern r));
        ("max_consequence", match pr_max_consequence r with
                            | Some c => JStr (consequence_value c) | None => JNull end);
        ("max_monetary", match pr_max_monetary r with Some m => JFloat m | None => JNull end);
        ("priority", JInt (pr_priority r))].

Lemma normalise_rule path r j : normalise path (rule_as_evidence r) = Ok j -> j = rule_json r.
Proof.
  unfold rule_as_evidence, rule_json, pdict, pairs_dict. cbn.
  destruct (pr_max_consequence r), (pr_max_monetary r) as [m|]; cbn; try (destruct (isfinite m); cbn); congruence.
Qed.

Lemma normalise_rules path rules j :
  normalise path (PList (map rule_as_evidence rules)) = Ok j -> j = JArr (map rule_json rules).
Proof.
  cbn [normalise]. intros H. apply bind_ok in H as (l & H & [= <-]). f_equal. revert l H.
  generalize 0%nat. induction rules as [|r rules IH]; intros i l H; cbn [map res_mapi] in *; [by injection H as <-|].
  apply bind_ok in H as (y & Hy%normalise_rule & H). apply bind_ok in H as (ys & Hys%IH & [= <-]). congruence.
Qed.

Definition bundle_json (b : PolicyBundle) : json :=
  JObj [("bundle_id", JStr (pb_bundle_id b)); ("tenant_id", JStr (pb_tenant_id b));
        ("version", JInt (pb_version b)); ("created_at", JFloat (pb_created_at b));
        ("rules", JArr (map rule_json (pb_rules b)))].

Lemma normalise_bundle b j : normalise "$" (bundle_payload b) = Ok j -> j = bundle_json b.
Proof.
  intros (items & -> & HF)%normalise_pdict. unfold bundle_json. f_equal.
  repeat match goal with
  | H : Forall2 _ (_ :: _) _ |- _ => apply Forall2_cons_inv_l in H as ([? ?] & ? & [? ?] & ? & ->)
  | H : Forall2 _ [] _ |- _ => apply Forall2_nil_inv_l in H as ->
  end; cbn [fst snd] in *; subst.
  repeat f_equal; try (cbn in *; congruence).
  - cbn in *. destruct (isfinite _); congruence.
  - by eapply normalise_rules.
Qed.

(** A rule without what its evidence leaves out. *)
Definition unexplained (r : PolicyRule) : PolicyRule :=
  {| pr_name := pr_name r; pr_effect := pr_effect r; pr_action_pattern := pr_action_pattern r;
     pr_resource_pattern := pr_resource_pattern r; pr_max_consequence := pr_max_consequence r;
     pr_max_monetary := pr_max_monetary r; pr_priority := pr_priority r; pr_rationale := "" |}.

Lemma rule_json_binds r r' :
  sort_keys (rule_json r) = sort_keys (rule_json r') -> unexplained r = unexplained r'.
Proof.
  unfold rule_json. cbn [sort_keys map fst snd].
  assert (Hsort : forall a b c d e f g : json,
    sort_by fst [("name", a); ("effect", b); ("action_pattern", c); ("resource_pattern", d);
                 ("max_consequence", e); ("max_monetary", f); ("priority", g)]
    = [("action_pattern", c); ("effect", b); ("max_consequence", e); ("max_monetary", f);
       ("name", a); ("priority", g); ("resource_pattern", d)]) by reflexivity.
  rewrite !Hsort. destruct r as [n e ap rp mc mm pr ra], r' as [n' e' ap' rp' mc' mm' pr' ra'].
  cbn [pr_name pr_effect pr_action_pattern pr_resource_pattern pr_max_consequence pr_max_monetary pr_priority].
  intros H. injection H as -> He Hmc Hmm -> -> ->. unfold unexplained. cbn. f_equal.
  - by destruct e, e'.
  - by destruct mc as [[]|], mc' as [[]|].
  - destruct mm, mm'; cbn in Hmm; congruence.
Qed.

Definition same_content (b b' : PolicyBundle) : Prop :=
  pb_bundle_id b = pb_bundle_id b' /\ pb_tenant_id b = pb_tenant_id b' /\ pb_version b = pb_version b' /\
  pb_created_at b = pb_created_at b' /\ map unexplained (pb_rules b) = map unexplained (pb_rules b').

Lemma cons_parts {A} (x y : A) l l' : x :: l = y :: l' -> x = y /\ l = l'.
Proof. by intros [= -> ->]. Qed.

Lemma rules_json_bind l l' :
  map sort_keys (map rule_json l) = map sort_keys (map rule_json l') -> map unexplained l = map unexplained l'.
Proof.
  revert l'. induction l as [|r l IH]; intros [|r' l'] H; try done.
  cbn [map] in H. apply cons_parts in H as [Hr Hl]. cbn [map]. f_equal; [by apply rule_json_binds | by apply IH].
Qed.

Lemma payload_binds b b' bs :
  floats_ok (bundle_json b) = true -> floats_ok (bundle_json b') = true ->
  canonical_payload b = Ok bs -> canonical_payload b' = Ok bs -> same_content b b'.
Proof.
  intros Hf Hf' H H'.
  pose proof H as (j & Hj & _)%canonical_bytes_ok. pose proof H' as (j' & Hj' & _)%canonical_bytes_ok.
  pose proof (normalise_bundle _ _ Hj) as ->. pose proof (normalise_bundle _ _ Hj') as ->.
  pose proof (canonical_bytes_normal _ _ _ _ _ Hj Hj' Hf Hf' H H') as Heq.
  unfold bundle_json in Heq. cbn [sort_keys] in Heq. cbn [map fst snd] in Heq. cbn [sort_keys] in Heq.
  assert (Hsort : forall a b c d e : json,
    sort_by fst [("bundle_id", a); ("tenant_id", b); ("version", c); ("created_at", d); ("rules", e)]
    = [("bundle_id", a); ("created_at", d); ("rules", e); ("tenant_id", b); ("version", c)]) by reflexivity.
  rewrite !Hsort in Heq. injection Heq as ? ? Hr ? ?. apply rules_json_bind in Hr. done.
Qed.

Section signatures.
Context {S : Type} `{MacSignerLaws S}.

Lemma policy_load_bundle_ok (p : DeclarativePolicy S) b signed p' :
  policy_load_bundle p b = (Ok signed, p') ->
  sp_bundle signed = b /\ p' = activate p signed /\
  exists bs, canonical_payload b = Ok bs /\
    signer_verify (pd_signer p) bs (sp_mac signed) (sp_signer_key_id signed) = Ok true.
Proof.
  unfold policy_load_bundle. destruct (canonical_payload b ≫= _) as [x|] eqn:E; [|done].
  intros [= <- <-]. apply bind_ok in E as (bs & Hbs & E). apply bind_ok in E as (m & Hm & E).
  unfold mk_SignedPolicyBundle in E. apply bind_ok in E as ([] & _ & E). apply bind_ok in E as (k & Hk & [= <-]).
  apply require_identifier_valid in Hk as [-> _]. cbn. split_and!; try done.
  exists bs. split; [done|]. by apply mac_verifies.
Qed.

Lemma policy_load_signed_ok (q : DeclarativePolicy S) signed r q' :
  policy_load_signed_bundle q signed = (r, q') ->
  (r = Ok tt /\ q' = activate q signed /\
   exists bs, canonical_payload (sp_bundle signed) = Ok bs /\
     signer_verify (pd_signer q) bs (sp_mac signed) (sp_signer_key_id signed) = Ok true) \/
  (is_ok r = false /\ q' = q).
Proof.
  unfold policy_load_signed_bundle. destruct (canonical_payload _ ≫= _) as [[]|e] eqn:E.
  - intros [= <- <-]. left. apply bind_ok in E as (bs & ? & ?). eauto.
  - intros [= <- <-]. by right.
  - destruct e; intros [= <- <-]; by right.
Qed.

(** C22.  An active bundle is an authentic one.  What [load_bundle] signs, any
    decision point whose signer still verifies that signer's MACs accepts; and
    a bundle presented there under the same MAC and key is either refused,
    leaving the active bundles as they were, or has the same identity, version
    and rules (up to the rationales, which the MAC does not cover), unless the
    MAC authenticates both its payload and the different payload of the
    original. *)
Theorem active_bundles_are_authentic (p q : DeclarativePolicy S) b signed p' forged r q' :
  policy_load_bundle p b = (Ok signed, p') -> signer_extends (pd_signer p) (pd_signer q) ->
  policy_load_signed_bundle q signed = (Ok tt, activate q signed) /\
  (sp_mac forged = sp_mac signed -> sp_signer_key_id forged = sp_signer_key_id signed ->
   floats_ok (bundle_json b) = true -> floats_ok (bundle_json (sp_bundle forged)) = true ->
   policy_load_signed_bundle q forged = (r, q') ->
   (is_ok r = false /\ q' = q) \/
   (pd_bundles q' !! pb_tenant_id b = Some forged /\ same_content (sp_bundle forged) b) \/
   exists bs bs', canonical_payload b = Ok bs /\ canonical_payload (sp_bundle forged) = Ok bs' /\
     forged_mac (pd_signer q) bs bs' (sp_mac signed) (sp_signer_key_id signed)).
Proof.
  intros Hl Hext. apply policy_load_bundle_ok in Hl as (<- & _ & bs & Hbs & Hv). apply Hext in Hv.
  split; [unfold policy_load_signed_bundle; rewrite Hbs; cbn [mbind res_bind]; by rewrite Hv|].
  intros Hm Hk Hf Hf' Hr. apply policy_load_signed_ok in Hr as [(-> & -> & bs' & Hbs' & Hv')|?]; [|by left].
  right. rewrite Hm, Hk in Hv'. destruct (decide (bs = bs')) as [->|Hne]; [left | right; by exists bs, bs'].
  pose proof (payload_binds _ _ _ Hf' Hf Hbs' Hbs) as Hsame. split; [|done].
  cbn. destruct Hsame as (_ & -> & _). apply lookup_insert_eq.
Qed.
End signatures.

(** ** Examples *)

Definition sample_rule (name : string) (effect : RuleEffect) (pattern : string) (priority : Z) : PolicyRule :=
  {| pr_name := name; pr_effect := effect; pr_action_pattern := pattern; pr_resource_pattern := "*";
     pr_max_consequence := None; pr_max_monetary := None; pr_priority := priority; pr_rationale := "" |}.

Definition sample_rules : list PolicyRule :=
  [sample_rule "allow.payments" RULE_ALLOW "payments.*" 200; sample_rule "deny.wires" RULE_DENY "payments.wire*" 10].

Definition sample_policy_bundle : PolicyBundle :=
  {| pb_bundle_id := "b1"; pb_tenant_id := "t1"; pb_version := 1; pb_created_at := fz 5;
     pb_rules := sort_rules sample_rules |}.

Definition policy_signer : LocalMacSigner := local_signer_init "k1" (repeat x07 32) ∅.
Definition loaded_policy : res SignedPolicyBundle * DeclarativePolicy LocalMacSigner :=
  policy_load_bundle (policy_init policy_signer) sample_policy_bundle.
Definition sample_signed : SignedPolicyBundle :=
  match loaded_policy.1 with
  | Ok s => s
  | Raise _ => {| sp_bundle := sample_policy_bundle; sp_mac := []; sp_signer_key_id := "" |}
  end.

Lemma sample_policy_loads : loaded_policy = (Ok sample_signed, activate (policy_init policy_signer) sample_signed).
Proof. vm_compute. reflexivity. Qed.

Definition policy_verdict : res AuthorizationDecision :=
  policy_decide loaded_policy.2 (sample_request (sample_action "x")).
Definition sample_policy_decision : AuthorizationDecision :=
  match policy_verdict with Ok d => d | Raise _ => sample_allow end.

Lemma sample_policy_decides : policy_verdict = Ok sample_policy_decision.
Proof. vm_compute. reflexivity. Qed.

Lemma first_rule_decides_witness :
  ad_effect sample_policy_decision = DENY /\ ad_policy_bundle_id sample_policy_decision = Some "b1".
Proof.
  split; [vm_compute; reflexivity|].
  apply (first_rule_decides loaded_policy.2 "b1" "t1" 1 (fz 5) sample_rules sample_policy_bundle sample_signed
           (sample_request (sample_action "x")) sample_policy_decision).
  - vm_compute. reflexivity.
  - rewrite sample_policy_loads. vm_compute. reflexivity.
  - vm_compute. reflexivity.
  - exact sample_policy_decides.
Defined.

Lemma conflicts_are_reported_witness :
  exists c, c ∈ detect_conflicts sample_policy_bundle /\
            cn_rule_a c = "deny.wires" /\ cn_rule_b c = "allow.payments".
Proof.
  apply (proj1 (conflicts_are_reported sample_policy_bundle ltac:(repeat constructor)) 0%nat 1%nat
           (sample_rule "deny.wires" RULE_DENY "payments.wire*" 10)
           (sample_rule "allow.payments" RULE_ALLOW "payments.*" 200) (sample_action "x"));
    first [vm_compute; reflexivity | lia | discriminate].
Defined.

(** The same MAC on a bundle whose deny rule became an allow. *)
Definition forged_bundle : SignedPolicyBundle :=
  {| sp_bundle := {| pb_bundle_id := "b1"; pb_tenant_id := "t1"; pb_version := 1; pb_created_at := fz 5;
                     pb_rules := [sample_rule "deny.wires" RULE_ALLOW "payments.wire*" 10] |};
     sp_mac := sp_mac sample_signed; sp_signer_key_id := sp_signer_key_id sample_signed |}.
Definition forged_load := policy_load_signed_bundle (policy_init policy_signer) forged_bundle.

Lemma active_bundles_are_authentic_witness :
  forged_load.1 = Raise PolicyBundleSignatureError /\
  (is_ok forged_load.1 = false /\ forged_load.2 = policy_init policy_signer \/
   (pd_bundles forged_load.2 !! "t1" = Some forged_bundle /\
    same_content (sp_bundle forged_bundle) sample_policy_bundle) \/
   exists bs bs', canonical_payload sample_policy_bundle = Ok bs /\
     canonical_payload (sp_bundle forged_bundle) = Ok bs' /\
     forged_mac policy_signer bs bs' (sp_mac sample_signed) (sp_signer_key_id sample_signed)).
Proof.
  split; [vm_compute; reflexivity|].
  apply (active_bundles_are_authentic (policy_init policy_signer) (policy_init policy_signer)
           sample_policy_bundle sample_signed _ forged_bundle forged_load.1 forged_load.2 sample_policy_loads).
  - intros ? ? ? Hv. exact Hv.
  - reflexivity.
  - reflexivity.
  - vm_compute. reflexivity.
  - vm_compute. reflexivity.
  - unfold forged_load. apply surjective_pairing.
Defined.

(** With other wildcards a conflict can go unreported: both rules below match
    [payments.wire]. *)
Example question_mark_conflict_missed :
  let b := {| pb_bundle_id := "b1"; pb_tenant_id := "t1"; pb_version := 1; pb_created_at := fz 5;
              pb_rules := [sample_rule "a" RULE_ALLOW "payments.wir?" 1;
                           sample_rule "d" RULE_DENY "payments.wire" 2] |} in
  detect_conflicts b = [] /\ map (fun r => rule_matches r (sample_action "x")) (pb_rules b) = [true; true].
Proof. split; vm_compute; reflexivity. Qed.

(** A blank rationale, which a rule may have, makes the decision point raise. *)
Example blank_rationale_raises :
  let rule := {| pr_name := "r"; pr_effect := RULE_ALLOW; pr_action_pattern := "*"; pr_resource_pattern := "*";
                 pr_max_consequence := None; pr_max_monetary := None; pr_priority := 1; pr_rationale := " " |} in
  let b := {| pb_bundle_id := "b1"; pb_tenant_id := "t1"; pb_version := 1; pb_created_at := fz 5;
              pb_rules := [rule] |} in
  is_ok (mk_PolicyRule "r" RULE_ALLOW "*" "*" None None 1 " ") = true /\
  policy_decide (policy_load_bundle (policy_init policy_signer) b).2 (sample_request (sample_action "x"))
    = Raise (DomainValidationError "rationale").
Proof. split; vm_compute; reflexivity. Qed.
