(* ===== verification/Spark.v ===== *)
(** * Batch jobs ([glassbox/adapters/outbound/spark/])

    Pre-authorisation of rows with a policy bundle, and the control tests over
    decision facts.  A row of Bronze gets the verdict the live policy gives the
    action it came from. *)

From stdpp Require Import base tactics list strings gmap.
From Stdlib Require Import ZArith Lia Floats.SpecFloat.
From S2P Require Import Prelude PyFloat PyStr Serialization Json Fnmatch Action Identity Risk Decision Config Signing Evidence PgEvidence Decisioning Policy Payload Calendar BronzeRows.

Open Scope string_scope.
Open Scope list_scope.

(** ** [batch_preauth.py] *)

(** [row[k]] of a dict. *)
Definition column (r : row) (k : string) : res json :=
  match dict_get r k with Some v => Ok v | None => Raise PyKeyError end.

Definition row_to_action (r : row) : res ProposedAction :=
  action ← column r "action";
  kind ← column r "resource_kind";
  id ← column r "resource_id";
  tenant_id ← column r "tenant_id";
  kind ← identifier_arg kind "kind";
  id ← identifier_arg id "id";
  tenant_id ← identifier_arg tenant_id "tenant_id";
  resource ← mk_ResourceRef kind id tenant_id;
  consequence_raw ← column r "consequence_class";
  consequence ← consequence_of consequence_raw;
  exposure ← exposure_of (dict_get r "blast_radius") (dict_get r "exposure_monetary") (dict_get r "exposure_records");
  idempotency_key ← column r "idempotency_key";
  action ← identifier_arg action "action";
  idempotency_key ← identifier_arg idempotency_key "idempotency_key";
  mk_ProposedAction action resource consequence exposure idempotency_key (AsTuple []).

(** [{**row, k: v, ...}]. *)
Definition extended (r : row) (fields : list (string * json)) : row := foldl (fun d kv => set_item d kv.1 kv.2) r fields.

(** [except (KeyError, ValueError, TypeError)]. *)
Definition caught (e : exn) : bool :=
  match e with DomainValidationError _ | PyValueError | PyTypeError | PyKeyError => true | _ => false end.

Section preauth.
(** The text of an error. *)
Variable error_text : exn -> string.

Definition verdict_fields (b : PolicyBundle) (digest effect : string) (rule : option string) (error : option string)
    : list (string * json) :=
  [("policy_effect", JStr effect); ("matched_rule", j_opt JStr rule); ("policy_bundle_id", JStr (pb_bundle_id b));
   ("policy_bundle_sha256", JStr digest); ("preauth_error", j_opt JStr error)].

Definition evaluate_row (r : row) (b : PolicyBundle) : res row :=
  match row_to_action r with
  | Raise e =>
      if caught e then
        digest ← policy_digest b;
        Ok (extended r (verdict_fields b digest "deny" None (Some (exn_name e +:+ ": " +:+ error_text e))))
      else Raise e
  | Ok action =>
      let rule := matching_rule b action in
      digest ← policy_digest b;
      Ok (extended r (verdict_fields b digest (from_option (fun r => rule_effect_value (pr_effect r)) "deny" rule)
                        (pr_name <$> rule) None))
  end.

Definition evaluate_partition (rows : list row) (b : PolicyBundle) : res (list row) := res_map (fun r => evaluate_row r b) rows.
End preauth.

(** ** [control_testing.py] *)

Record control := {
  ct_control_id : json;
  ct_applies_to_actions : option (list string);
  ct_requires_effect : option string
}.

Definition text_column (r : row) (k : string) (default : string) : string :=
  match dict_get r k with Some (JStr s) => s | _ => default end.

Definition evaluate_control (r : row) (c : control) : row :=
  let patterns := default ["*"] (ct_applies_to_actions c) in
  let applies := existsb (fnmatchcase (text_column r "action" "")) patterns in
  let passed := negb applies || match ct_requires_effect c with
                                | None => true
                                | Some e => match dict_get r "decision_effect" with Some (JStr s) => (s =? e)%string | _ => false end
                                end in
  [("control_id", ct_control_id c); ("decision_id", default JNull (dict_get r "decision_id")); ("applies", JBool applies);
   ("passed", JBool passed)].

(** [counts[k] = counts.get(k, 0) + 1], in the order of first use. *)
Fixpoint count_one (counts : list (string * Z)) (k : string) : list (string * Z) :=
  match counts with
  | [] => [(k, 1%Z)]
  | (k', n) :: rest => if (k' =? k)%string then (k', (n + 1)%Z) :: rest else (k', n) :: count_one rest k
  end.

Definition reasons_of (r : row) : list string :=
  match dict_get r "reasons" with
  | Some (JArr l) => omap (fun v => match v with JStr s => Some s | _ => None end) l
  | _ => []
  end.

Definition is_denied (r : row) : bool := (text_column r "decision_effect" "" =? "deny")%string.

Definition denial_reason_distribution (rows : list row) : list (string * Z) :=
  foldl (fun counts r => if is_denied r then foldl count_one counts (reasons_of r) else counts) [] rows.

Fixpoint add_total (totals : list (string * float)) (k : string) (x : float) : list (string * float) :=
  match totals with
  | [] => [(k, fadd (fz 0) x)]
  | (k', t) :: rest => if (k' =? k)%string then (k', fadd t x) :: rest else (k', t) :: add_total rest k x
  end.

Definition exposure_aggregate (rows : list row) : res (list (string * float)) :=
  foldl (fun acc r =>
    totals ← acc;
    match dict_get r "consequence_class", dict_get r "exposure_monetary" with
    | Some (JStr c), Some v =>
        match v with
        | JNull => Ok totals
        | _ => x ← float_of_json v; Ok (add_total totals c x)
        end
    | _, _ => Ok totals
    end) (Ok []) rows.

(** ** The batch agrees with the live policy *)

(** What the constructors of the action ensure. *)
Definition action_wf (a : ProposedAction) : Prop :=
  valid_id (pa_action a) /\ valid_id (pa_idempotency_key a) /\ valid_id (rr_kind (pa_resource a)) /\
  valid_id (rr_id (pa_resource a)) /\ valid_id (rr_tenant_id (pa_resource a)) /\ exposure_wf (pa_exposure a).

(** A row does not carry the parameters. *)
Definition without_parameters (a : ProposedAction) : ProposedAction :=
  {| pa_action := pa_action a; pa_resource := pa_resource a; pa_consequence := pa_consequence a;
     pa_exposure := pa_exposure a; pa_idempotency_key := pa_idempotency_key a; pa_parameters := [] |}.

Lemma matching_without_parameters b a : matching_rule b (without_parameters a) = matching_rule b a.
Proof. done. Qed.

Lemma identifier_back s f : valid_id s -> identifier_arg (JStr s) f = Ok s.
Proof. intros Hs. by apply require_identifier_valid. Qed.

Lemma mk_ResourceRef_back r :
  valid_id (rr_kind r) -> valid_id (rr_id r) -> valid_id (rr_tenant_id r) ->
  mk_ResourceRef (rr_kind r) (rr_id r) (rr_tenant_id r) = Ok r.
Proof.
  intros H1 H2 H3. unfold mk_ResourceRef. do 3 (erewrite (proj2 (require_identifier_valid _ _ _)) by done; cbn [mbind res_bind]).
  by destruct r.
Qed.

Lemma exposure_back e :
  exposure_wf e ->
  exposure_of (Some (JStr (blast_value (ex_blast_radius e)))) (Some (j_opt JFloat (ex_monetary e)))
    (Some (j_opt JInt (ex_records e))) = Ok e.
Proof.
  intros [Hm Hr]. unfold exposure_of. cbn [from_option id]. rewrite blast_back. cbn [mbind res_bind].
  assert (monetary_arg (Some (j_opt JFloat (ex_monetary e))) = Ok (ex_monetary e)) as -> by (by destruct (ex_monetary e)).
  assert (records_arg (Some (j_opt JInt (ex_records e))) = Ok (ex_records e)) as -> by (by destruct (ex_records e)).
  cbn [mbind res_bind].
  assert (res_opt (fun x => require_non_negative x "monetary") (ex_monetary e) = Ok (ex_monetary e)) as Hmo.
  { destruct (ex_monetary e) as [m|]; [|done]. cbn.
    assert (require_non_negative m "monetary" = Ok m) as ->; [|done]. apply require_non_negative_ok. by destruct (Hm m eq_refl). }
  rewrite Hmo. cbn [mbind res_bind]. unfold mk_Exposure. rewrite Hmo. cbn [mbind res_bind].
  destruct e as [b m [r|]]; [|done]. cbn in *. destruct (Z.ltb_spec r 0); [|done]. specialize (Hr r eq_refl). lia.
Qed.

Lemma row_to_action_back r seq lsn op row :
  action_wf (ir_action r) -> ir_tenant_id r = rr_tenant_id (pa_resource (ir_action r)) ->
  intent_record_to_bronze_row r seq lsn op = Ok row -> row_to_action row = Ok (without_parameters (ir_action r)).
Proof.
  intros (Ha & Hi & Hk & Hid & Ht & He) Htenant Hrow. unfold intent_record_to_bronze_row in Hrow.
  apply bind_ok in Hrow as (date & _ & Hrow). apply bind_ok in Hrow as (ev & _ & [= <-]). unfold row_to_action, column.
  cbn [dict_get String.eqb Ascii.eqb Bool.eqb mbind res_bind]. rewrite Htenant.
  rewrite !identifier_back by done. cbn [mbind res_bind]. rewrite mk_ResourceRef_back by done. cbn [mbind res_bind].
  rewrite consequence_back. cbn [mbind res_bind]. rewrite exposure_back by done. cbn [mbind res_bind].
  unfold mk_ProposedAction.
  do 2 (erewrite (proj2 (require_identifier_valid _ _ _)) by done; cbn [mbind res_bind]). done.
Qed.

Lemma extended_get r fields k v :
  NoDup (map fst fields) -> (k, v) ∈ fields -> dict_get (extended r fields) k = Some v.
Proof.
  unfold extended. revert r. induction fields as [|[k0 v0] fields IH]; intros r Hnd Hin; [by apply not_elem_of_nil in Hin|].
  apply NoDup_cons in Hnd as [Hk0 Hnd]. cbn [foldl fst snd]. apply elem_of_cons in Hin as [[= <- <-]|Hin]; [|by apply IH].
  assert (forall l (d : row), k ∉ map fst l -> dict_get (foldl (fun d kv => set_item d kv.1 kv.2) d l) k = dict_get d k) as Hkeep.
  { induction l as [|[k1 v1] l IHl]; intros d Hn; [done|]. cbn [foldl fst snd]. rewrite IHl by set_solver. rewrite get_set_item.
    destruct (String.eqb_spec k1 k) as [->|]; [|done]. exfalso. apply Hn. left. }
  rewrite Hkeep by done. by rewrite get_set_item, String.eqb_refl.
Qed.

Section agreement.
Context {S : Type} `{MacSigner S}.
Variable error_text : exn -> string.

(** C39.  A batch run repeats the live decision.  Take the Bronze row of an
    intent and any live request for the same action, while the bundle the batch
    was given is the active one of its tenant: the row comes back with the
    effect, the rule, the bundle and the digest of the decision the policy
    decision point makes, and without an error. *)
Theorem batch_agrees_with_live (p : DeclarativePolicy S) signed req d r seq lsn op row :
  action_wf (ir_action r) -> ir_tenant_id r = rr_tenant_id (pa_resource (ir_action r)) ->
  intent_record_to_bronze_row r seq lsn op = Ok row ->
  pd_bundles p !! aq_tenant_id req = Some signed -> aq_action req = ir_action r -> policy_decide p req = Ok d ->
  exists out, evaluate_row error_text row (sp_bundle signed) = Ok out /\
    dict_get out "policy_effect" = Some (JStr (effect_value (ad_effect d))) /\
    dict_get out "matched_rule" = Some (j_opt JStr (head (ad_matched_rules d))) /\
    dict_get out "policy_bundle_id" = Some (j_opt JStr (ad_policy_bundle_id d)) /\
    dict_get out "policy_bundle_sha256" = Some (j_opt JStr (ad_policy_bundle_sha256 d)) /\
    dict_get out "preauth_error" = Some JNull.
Proof.
  intros Hwf Htenant Hrow Hact Haction Hd. unfold evaluate_row. rewrite (row_to_action_back _ _ _ _ _ Hwf Htenant Hrow).
  rewrite matching_without_parameters. unfold policy_decide, policy_active in Hd. rewrite Hact, Haction in Hd.
  apply bind_ok in Hd as (x & Hx & Hd). apply bind_ok in Hx as ([] & _ & [= <-]).
  apply bind_ok in Hd as (digest & Hdig & Hd). rewrite Hdig. cbn [mbind res_bind].
  pose proof (policy_digest_lower _ _ Hdig) as Hlow. set (rule := matching_rule _ _) in *.
  assert (effect_value (ad_effect d) = from_option (fun r => rule_effect_value (pr_effect r)) "deny" rule /\
    head (ad_matched_rules d) = pr_name <$> rule /\ ad_policy_bundle_id d = Some (pb_bundle_id (sp_bundle signed)) /\
    ad_policy_bundle_sha256 d = Some digest) as (E1 & E2 & E3 & E4).
  { destruct rule as [x|]; [destruct (pr_effect x) eqn:Ee|]; cbn [decision_deny is_nil raise_if mbind res_bind] in Hd;
      apply decision_cites in Hd as (-> & _ & -> & _ & -> & ->); rewrite Hlow; cbn; rewrite ?Ee; done. }
  rewrite E1, E2, E3, E4. eexists. split; [reflexivity|].
  split_and!; apply extended_get; try (apply (bool_decide_unpack _); vm_compute; exact I); repeat constructor.
Qed.
End agreement.

Definition sample_row : row :=
  match intent_record_to_bronze_row (sample_intent "d1") 0 "12" "insert" with Ok row => row | Raise _ => [] end.

Lemma batch_agrees_with_live_witness :
  exists out, evaluate_row exn_name sample_row (sp_bundle sample_signed) = Ok out /\
    dict_get out "policy_effect" = Some (JStr "deny") /\ dict_get out "matched_rule" = Some (JStr "deny.wires").
Proof.
  destruct (batch_agrees_with_live exn_name loaded_policy.2 sample_signed (sample_request (sample_action "x"))
    sample_policy_decision (sample_intent "d1") 0 "12" "insert" sample_row) as (out & Ho & He & Hr & _).
  - unfold action_wf, valid_id. cbn -[String.length]. split_and!; try (vm_compute; reflexivity); try (vm_compute; lia).
    apply sample_exposure_wf; vm_compute; reflexivity.
  - reflexivity.
  - vm_compute. reflexivity.
  - rewrite sample_policy_loads. vm_compute. reflexivity.
  - reflexivity.
  - exact sample_policy_decides.
  - exists out. rewrite Ho, He, Hr. split_and!; vm_compute; reflexivity.
Defined.

(** A row that is no action is denied, and says why. *)
Example unreadable_row_is_denied :
  let out := evaluate_row exn_name (set_item sample_row "consequence_class" (JStr "harmless")) sample_policy_bundle in
  match out with Ok r => dict_get r "policy_effect" = Some (JStr "deny") /\ dict_get r "matched_rule" = Some JNull | Raise _ => False end.
Proof. vm_compute. split; reflexivity. Qed.

(** ** Counting denials *)

Definition count_of (counts : list (string * Z)) (k : string) : Z := default 0%Z (dict_get counts k).

Lemma count_one_spec counts k k' :
  count_of (count_one counts k) k' = (count_of counts k' + if (k =? k')%string then 1 else 0)%Z.
Proof.
  unfold count_of. induction counts as [|[k0 n] counts IH]; cbn.
  - by destruct (k =? k')%string.
  - destruct (String.eqb_spec k0 k) as [->|Hk]; cbn.
    + destruct (String.eqb_spec k k'); cbn; lia.
    + destruct (String.eqb_spec k0 k') as [->|]; [|done]. destruct (String.eqb_spec k k') as [->|]; [done|cbn; lia].
Qed.

Definition occurrences (k : string) (l : list string) : Z := Z.of_nat (length (List.filter (fun x => (x =? k)%string) l)).

(** The distribution counts every reason of every denied row, and nothing else. *)
Lemma distribution_counts rows k :
  count_of (denial_reason_distribution rows) k = occurrences k (concat (map reasons_of (List.filter is_denied rows))).
Proof.
  unfold denial_reason_distribution.
  assert (Hin : forall l counts, count_of (foldl count_one counts l) k = (count_of counts k + occurrences k l)%Z).
  { induction l as [|x l IH]; intros counts; cbn [foldl]; [unfold occurrences; cbn; lia|].
    rewrite IH, count_one_spec. unfold occurrences. cbn. destruct (x =? k)%string; cbn [length]; lia. }
  assert (Hout : forall counts, count_of (foldl (fun counts r => if is_denied r then foldl count_one counts (reasons_of r) else counts) counts rows) k
    = (count_of counts k + occurrences k (concat (map reasons_of (List.filter is_denied rows))))%Z).
  { induction rows as [|r rows IH]; intros counts; cbn [foldl]; [unfold occurrences; cbn; lia|]. rewrite IH. cbn [List.filter].
    destruct (is_denied r); [|done]. rewrite Hin. cbn [map concat]. unfold occurrences. rewrite List.filter_app, length_app. lia. }
  rewrite Hout. cbn. lia.
Qed.
