(* ===== verification/Workflow.v ===== *)
(** * Human review ([glassbox/store/repository.py],
      [glassbox/workflow/workflow_engine.py], [glassbox/app/approval_service.py])

    The workflow repository as its table, the engine with its in-memory quorum
    votes, and the approval service over it.  An instant is a number of
    microseconds since the epoch, as a [datetime] holds it, and one call reads
    one instant, and is one step: of the engine only the quorum is under a lock,
    and what its SLA monitor thread does falls between two operations here.  An
    ISO text stands for the instant it denotes, and the JSON column for the
    document written to it. *)

From stdpp Require Import base tactics list strings gmap relations.
From Stdlib Require Import ZArith Lia.
From S2P Require Import Prelude PyFloat PyStr Serialization Action Identity Decision.

Open Scope string_scope.
Open Scope list_scope.

Abbreviation instant := Z.

(** ** Steps and instances *)

Record WorkflowStep := {
  ws_step_id : string;
  ws_workflow_id : string;
  ws_step_type : string;
  ws_actor : option string;
  ws_notes : string;
  ws_outcome : string;
  ws_created_at : instant;
  ws_completed_at : option instant
}.

Definition mk_WorkflowStep (now : instant) (step_id workflow_id step_type : string) (actor : option string)
    (notes outcome : string) : WorkflowStep :=
  {| ws_step_id := step_id; ws_workflow_id := workflow_id; ws_step_type := step_type; ws_actor := actor;
     ws_notes := notes; ws_outcome := outcome; ws_created_at := now; ws_completed_at := None |}.

Definition complete_step (s : WorkflowStep) (now : instant) : WorkflowStep :=
  {| ws_step_id := ws_step_id s; ws_workflow_id := ws_workflow_id s; ws_step_type := ws_step_type s;
     ws_actor := ws_actor s; ws_notes := ws_notes s; ws_outcome := ws_outcome s;
     ws_created_at := ws_created_at s; ws_completed_at := Some now |}.

Record WorkflowInstance := {
  wf_workflow_id : string;
  wf_decision_id : string;
  wf_agent_id : string;
  wf_decision_type : string;
  wf_risk_score : float;
  wf_violations : list string;
  wf_sla_minutes : Z;
  wf_assigned_to : option string;
  wf_escalate_to : option string;
  wf_state : string;
  wf_steps : list WorkflowStep;
  wf_approval_actors : list string;
  wf_created_at : instant;
  wf_updated_at : instant;
  wf_resolved_at : option instant
}.

Definition mk_WorkflowInstance (now : instant) (workflow_id decision_id agent_id decision_type : string)
    (risk_score : float) (violations : list string) (sla_minutes : Z)
    (assigned_to escalate_to : option string) : WorkflowInstance :=
  {| wf_workflow_id := workflow_id; wf_decision_id := decision_id; wf_agent_id := agent_id;
     wf_decision_type := decision_type; wf_risk_score := risk_score; wf_violations := violations;
     wf_sla_minutes := sla_minutes; wf_assigned_to := assigned_to; wf_escalate_to := escalate_to;
     wf_state := "pending"; wf_steps := []; wf_approval_actors := []; wf_created_at := now;
     wf_updated_at := now; wf_resolved_at := None |}.

(** [timedelta.total_seconds]. *)
Definition total_seconds (microseconds : Z) : float := fdiv (fz microseconds) (fz 1000000).

Definition is_sla_breached (now : instant) (w : WorkflowInstance) : bool :=
  fgt (total_seconds (now - wf_created_at w)) (fz (wf_sla_minutes w * 60)).

(** The attributes the engine assigns. *)
Definition wf_with (w : WorkflowInstance) (state : string) (steps : list WorkflowStep)
    (escalate_to : option string) (actors : list string) (updated_at : instant)
    (resolved_at : option instant) : WorkflowInstance :=
  {| wf_workflow_id := wf_workflow_id w; wf_decision_id := wf_decision_id w; wf_agent_id := wf_agent_id w;
     wf_decision_type := wf_decision_type w; wf_risk_score := wf_risk_score w;
     wf_violations := wf_violations w; wf_sla_minutes := wf_sla_minutes w;
     wf_assigned_to := wf_assigned_to w; wf_escalate_to := escalate_to; wf_state := state;
     wf_steps := steps; wf_approval_actors := actors; wf_created_at := wf_created_at w;
     wf_updated_at := updated_at; wf_resolved_at := resolved_at |}.

Definition wf_with_state (w : WorkflowInstance) (state : string) : WorkflowInstance :=
  wf_with w state (wf_steps w) (wf_escalate_to w) (wf_approval_actors w) (wf_updated_at w) (wf_resolved_at w).
Definition wf_with_updated (w : WorkflowInstance) (now : instant) : WorkflowInstance :=
  wf_with w (wf_state w) (wf_steps w) (wf_escalate_to w) (wf_approval_actors w) now (wf_resolved_at w).
Definition wf_with_actors (w : WorkflowInstance) (actors : list string) : WorkflowInstance :=
  wf_with w (wf_state w) (wf_steps w) (wf_escalate_to w) actors (wf_updated_at w) (wf_resolved_at w).
Definition wf_with_escalate_to (w : WorkflowInstance) (to : string) : WorkflowInstance :=
  wf_with w (wf_state w) (wf_steps w) (Some to) (wf_approval_actors w) (wf_updated_at w) (wf_resolved_at w).

Definition add_step (now : instant) (w : WorkflowInstance) (step : WorkflowStep) : WorkflowInstance :=
  let resolved := Some (from_option id now (ws_completed_at step)) in
  let '(state, resolved_at) :=
    if (ws_outcome step =? "approved")%string then ("approved", resolved)
    else if (ws_outcome step =? "rejected")%string then ("rejected", resolved)
    else if (ws_outcome step =? "escalated")%string then ("escalated", wf_resolved_at w)
    else if (ws_outcome step =? "expired")%string then ("expired", resolved)
    else if (ws_outcome step =? "revoked")%string then ("revoked", resolved)
    else (wf_state w, wf_resolved_at w) in
  wf_with w state (wf_steps w ++ [step]) (wf_escalate_to w) (wf_approval_actors w) now resolved_at.

(** ** [SQLiteWorkflowRepository] *)

(** One row: the columns the queries read, and the document of [full_json],
    which leaves out the approval actors. *)
Record row := {
  rw_workflow_id : string;
  rw_decision_id : string;
  rw_state : string;
  rw_created_at : instant;
  rw_full_json : WorkflowInstance
}.

(** [json.dumps(instance.to_dict())]. *)
Definition to_json (w : WorkflowInstance) : WorkflowInstance := wf_with_actors w [].

(** [_from_json]: the steps are rebuilt from six of their fields, so their
    times are new ones. *)
Definition from_json (now : instant) (d : WorkflowInstance) : WorkflowInstance :=
  wf_with d (wf_state d)
    (map (fun s => mk_WorkflowStep now (ws_step_id s) (ws_workflow_id s) (ws_step_type s) (ws_actor s)
                     (ws_notes s) (ws_outcome s)) (wf_steps d))
    (wf_escalate_to d) [] (wf_updated_at d) (wf_resolved_at d).

Abbreviation table := (list row).

(** [INSERT]: a repeated workflow or decision id violates a constraint. *)
Definition repo_create (t : table) (w : WorkflowInstance) : res unit * table :=
  if existsb (fun r => (rw_workflow_id r =? wf_workflow_id w)%string ||
                       (rw_decision_id r =? wf_decision_id w)%string) t
  then (Raise (PyException "IntegrityError"), t)
  else (Ok tt, t ++ [{| rw_workflow_id := wf_workflow_id w; rw_decision_id := wf_decision_id w;
                        rw_state := wf_state w; rw_created_at := wf_created_at w;
                        rw_full_json := to_json w |}]).

Definition repo_get (now : instant) (t : table) (workflow_id : string) : option WorkflowInstance :=
  from_json now ∘ rw_full_json <$> List.find (fun r => (rw_workflow_id r =? workflow_id)%string) t.

Definition repo_get_by_decision (now : instant) (t : table) (decision_id : string)
    : option WorkflowInstance :=
  from_json now ∘ rw_full_json <$> List.find (fun r => (rw_decision_id r =? decision_id)%string) t.

Definition repo_update (now : instant) (t : table) (w : WorkflowInstance) : table :=
  let w := wf_with_updated w now in
  map (fun r => if (rw_workflow_id r =? wf_workflow_id w)%string
                then {| rw_workflow_id := rw_workflow_id r; rw_decision_id := rw_decision_id r;
                        rw_state := wf_state w; rw_created_at := rw_created_at r;
                        rw_full_json := to_json w |}
                else r) t.

(** [ORDER BY created_at]. *)
Fixpoint insert_row (x : row) (l : table) : table :=
  match l with
  | [] => [x]
  | y :: l' => if (rw_created_at x <=? rw_created_at y)%Z then x :: l else y :: insert_row x l'
  end.

Definition awaits_review (state : string) : bool :=
  (state =? "pending")%string || (state =? "in_review")%string.

Definition repo_list_pending (now : instant) (t : table) : list WorkflowInstance :=
  map (from_json now ∘ rw_full_json)
    (foldr insert_row [] (List.filter (fun r => awaits_review (rw_state r)) t)).

Definition repo_list_sla_breached (now : instant) (t : table) : list WorkflowInstance :=
  List.filter (is_sla_breached now) (repo_list_pending now t).

(** ** [WorkflowEngine] *)

Record QuorumEntry := {
  qe_actors : list string;
  qe_first_seen_at : instant
}.

Record Engine := {
  en_repo : table;
  en_minted : nat;
  en_default_sla_minutes : Z;
  en_quorum_state : gmap string QuorumEntry;
  en_quorum_entry_ttl_s : float
}.

Definition engine_init (default_sla_minutes : Z) (quorum_entry_ttl_s : float) : Engine :=
  {| en_repo := []; en_minted := 0; en_default_sla_minutes := default_sla_minutes;
     en_quorum_state := ∅; en_quorum_entry_ttl_s := quorum_entry_ttl_s |}.

Definition en_with_repo (e : Engine) (t : table) : Engine :=
  {| en_repo := t; en_minted := en_minted e; en_default_sla_minutes := en_default_sla_minutes e;
     en_quorum_state := en_quorum_state e; en_quorum_entry_ttl_s := en_quorum_entry_ttl_s e |}.
Definition en_with_quorum (e : Engine) (q : gmap string QuorumEntry) : Engine :=
  {| en_repo := en_repo e; en_minted := en_minted e; en_default_sla_minutes := en_default_sla_minutes e;
     en_quorum_state := q; en_quorum_entry_ttl_s := en_quorum_entry_ttl_s e |}.
Definition en_with_minted (e : Engine) : Engine :=
  {| en_repo := en_repo e; en_minted := S (en_minted e);
     en_default_sla_minutes := en_default_sla_minutes e; en_quorum_state := en_quorum_state e;
     en_quorum_entry_ttl_s := en_quorum_entry_ttl_s e |}.

Section engine.
(** [str(uuid.uuid4())], the n-th time it is called. *)
Variable mint : nat -> string.

Definition create_from_decision (now : instant) (e : Engine) (decision_id agent_id decision_type : string)
    (risk_score : float) (violations : list string) (warnings : option (list string))
    (sla_minutes : option Z) (assigned_to escalate_to : option string)
    : res WorkflowInstance * Engine :=
  match repo_get_by_decision now (en_repo e) decision_id with
  | Some existing => (Ok existing, e)
  | None =>
      let instance :=
        mk_WorkflowInstance now (mint (en_minted e)) decision_id agent_id decision_type risk_score
          (violations ++ from_option id [] warnings)
          (from_option id (en_default_sla_minutes e) sla_minutes) assigned_to escalate_to in
      let e := en_with_minted e in
      match repo_create (en_repo e) instance with
      | (Ok _, t) => (Ok instance, en_with_repo e t)
      | (Raise x, t) => (Raise x, en_with_repo e t)
      end
  end.

Definition transition (now : instant) (e : Engine) (workflow_id step_type actor notes new_state step_outcome : string)
    : option WorkflowInstance * Engine :=
  match repo_get now (en_repo e) workflow_id with
  | None => (None, e)
  | Some inst =>
      let step := complete_step (mk_WorkflowStep now (mint (en_minted e)) workflow_id step_type (Some actor)
                                   notes step_outcome) now in
      let in_review := (new_state =? "in_review")%string in
      let inst := if in_review then inst else wf_with_state inst new_state in
      let inst := add_step now inst step in
      let inst := if in_review then wf_with_state inst "in_review" else inst in
      (Some (wf_with_updated inst now),
       en_with_repo (en_with_minted e) (repo_update now (en_repo e) inst))
  end.

Definition start_review (now : instant) (e : Engine) (workflow_id actor notes : string)
    : option WorkflowInstance * Engine :=
  transition now e workflow_id "review" actor notes "in_review" "pending".

Definition evict_stale_quorum_entries (now : instant) (e : Engine) : Engine :=
  en_with_quorum e
    (filter (fun kv => fgt (total_seconds (now - qe_first_seen_at kv.2)) (en_quorum_entry_ttl_s e) = false)
       (en_quorum_state e)).

(** The block under the quorum lock: the actors who voted, this one included. *)
Definition record_vote (now : instant) (e : Engine) (workflow_id actor : string) : list string * Engine :=
  let e := evict_stale_quorum_entries now e in
  let entry := from_option id {| qe_actors := []; qe_first_seen_at := now |}
                 (en_quorum_state e !! workflow_id) in
  let actors := if bool_decide (actor ∈ qe_actors entry) then qe_actors entry
                else qe_actors entry ++ [actor] in
  (actors, en_with_quorum e (<[workflow_id := {| qe_actors := actors;
                                                 qe_first_seen_at := qe_first_seen_at entry |}]>
                               (en_quorum_state e))).

Definition approve (now : instant) (e : Engine) (workflow_id actor notes : string) (min_approvers : Z)
    : option WorkflowInstance * Engine :=
  let '(actors, e) := record_vote now e workflow_id actor in
  let count := Z.of_nat (length actors) in
  match repo_get now (en_repo e) workflow_id with
  | None => (None, e)
  | Some inst =>
      let inst := wf_with_actors inst actors in
      let e :=
        if (min_approvers <=? count)%Z then
          let '(inst, e) :=
            transition now e workflow_id "approve" actor
              ("Quorum reached (" +:+ str_of_int count +:+ "/" +:+ str_of_int min_approvers +:+ "). " +:+ notes)
              "approved" "approved" in
          let e := match inst with
                   | Some inst => en_with_repo e (repo_update now (en_repo e) (wf_with_actors inst actors))
                   | None => e
                   end in
          en_with_quorum e (delete workflow_id (en_quorum_state e))
        else
          let step := mk_WorkflowStep now (mint (en_minted e)) workflow_id "approve" (Some actor)
                        ("Partial approval (" +:+ str_of_int count +:+ "/" +:+ str_of_int min_approvers +:+
                         "). Needs " +:+ str_of_int (min_approvers - count) +:+ " more approver(s). " +:+ notes)
                        "partial_approval" in
          en_with_repo (en_with_minted e) (repo_update now (en_repo e) (add_step now inst step)) in
      (repo_get now (en_repo e) workflow_id, e)
  end.

Definition quorum_approve (now : instant) (e : Engine) (workflow_id actor : string) (min_approvers : Z)
    (notes : string) : option WorkflowInstance * Engine := approve now e workflow_id actor notes min_approvers.

Definition reject (now : instant) (e : Engine) (workflow_id actor notes : string)
    : option WorkflowInstance * Engine :=
  transition now e workflow_id "reject" actor notes "rejected" "rejected".

Definition escalate (now : instant) (e : Engine) (workflow_id actor escalate_to notes : string)
    : option WorkflowInstance * Engine :=
  match repo_get now (en_repo e) workflow_id with
  | None => (None, e)
  | Some inst =>
      let step := complete_step (mk_WorkflowStep now (mint (en_minted e)) workflow_id "escalate" (Some actor)
                                   notes "escalated") now in
      let inst := add_step now (wf_with_escalate_to inst escalate_to) step in
      (Some (wf_with_updated inst now), en_with_repo (en_with_minted e) (repo_update now (en_repo e) inst))
  end.

Definition expire (now : instant) (e : Engine) (workflow_id actor notes : string)
    : option WorkflowInstance * Engine :=
  match repo_get now (en_repo e) workflow_id with
  | None => (None, e)
  | Some inst =>
      if negb (awaits_review (wf_state inst)) then (None, e)
      else if negb (is_sla_breached now inst) then (None, e)
      else transition now e workflow_id "expire" actor notes "expired" "expired"
  end.

Definition revoke (now : instant) (e : Engine) (workflow_id actor notes : string)
    : option WorkflowInstance * Engine :=
  match repo_get now (en_repo e) workflow_id with
  | None => (None, e)
  | Some inst =>
      if negb (awaits_review (wf_state inst)) then (None, e)
      else transition now e workflow_id "revoke" actor notes "revoked" "revoked"
  end.

Definition EXPIRE_NOTES : string := "SLA window elapsed without a reviewer decision".

Fixpoint expire_all (now : instant) (e : Engine) (actor : string) (l : list WorkflowInstance)
    : list WorkflowInstance * Engine :=
  match l with
  | [] => ([], e)
  | inst :: rest =>
      let '(result, e) := expire now e (wf_workflow_id inst) actor EXPIRE_NOTES in
      let '(expired, e) := expire_all now e actor rest in
      (option_list result ++ expired, e)
  end.

Definition expire_overdue (now : instant) (e : Engine) (actor : string) : list WorkflowInstance * Engine :=
  expire_all now e actor (repo_list_sla_breached now (en_repo e)).

Definition add_comment (now : instant) (e : Engine) (workflow_id actor notes : string)
    : option WorkflowInstance * Engine :=
  match repo_get now (en_repo e) workflow_id with
  | None => (None, e)
  | Some inst =>
      let step := mk_WorkflowStep now (mint (en_minted e)) workflow_id "comment" (Some actor) notes "pending" in
      let inst := wf_with inst (wf_state inst) (wf_steps inst ++ [step]) (wf_escalate_to inst)
                    (wf_approval_actors inst) now (wf_resolved_at inst) in
      (Some (wf_with_updated inst now), en_with_repo (en_with_minted e) (repo_update now (en_repo e) inst))
  end.

(** One turn of [_sla_monitor_loop]; [elapsed] is the formatted waiting time. *)
Variable elapsed : instant -> WorkflowInstance -> string.

Fixpoint escalate_breached (now : instant) (e : Engine) (l : list WorkflowInstance) : Engine :=
  match l with
  | [] => e
  | wf :: rest =>
      let e :=
        match wf_escalate_to wf with
        | Some to =>
            if negb (str_is_empty to) && negb (wf_state wf =? "escalated")%string
            then (escalate now e (wf_workflow_id wf) "system.sla-monitor" to
                    ("Auto-escalated: SLA of " +:+ str_of_int (wf_sla_minutes wf) +:+ "min breached after " +:+
                     elapsed now wf +:+ "min")).2
            else e
        | None => e
        end in
      escalate_breached now e rest
  end.

Definition sla_monitor_turn (now : instant) (e : Engine) : Engine :=
  escalate_breached now e (repo_list_sla_breached now (en_repo e)).
End engine.

(** ** What the table holds *)

Definition find_row (t : table) (id : string) : option row :=
  List.find (fun r => (rw_workflow_id r =? id)%string) t.

Definition row_ok (r : row) : Prop :=
  wf_workflow_id (rw_full_json r) = rw_workflow_id r /\
  wf_decision_id (rw_full_json r) = rw_decision_id r /\
  wf_state (rw_full_json r) = rw_state r /\
  wf_created_at (rw_full_json r) = rw_created_at r.

Definition table_ok (t : table) : Prop :=
  NoDup (rw_workflow_id <$> t) /\ NoDup (rw_decision_id <$> t) /\ Forall row_ok t.

Definition updated_row (now : instant) (w : WorkflowInstance) (r : row) : row :=
  {| rw_workflow_id := rw_workflow_id r; rw_decision_id := rw_decision_id r;
     rw_state := wf_state w; rw_created_at := rw_created_at r;
     rw_full_json := to_json (wf_with_updated w now) |}.

(** The fields no operation changes. *)
Definition wf_identity (w : WorkflowInstance) := (wf_workflow_id w, wf_decision_id w, wf_created_at w).

Lemma find_row_Some t id r : find_row t id = Some r -> r ∈ t /\ rw_workflow_id r = id.
Proof.
  intros H. apply List.find_some in H as [H ->%String.eqb_eq]. by rewrite list_elem_of_In.
Qed.

Lemma find_by_key {A} (key : A -> string) l x :
  NoDup (key <$> l) -> x ∈ l -> List.find (fun y => (key y =? key x)%string) l = Some x.
Proof.
  induction l as [|y l IH]; cbn; intros Hnd Hx; [by apply not_elem_of_nil in Hx|].
  apply NoDup_cons in Hnd as [Hy Hnd]. apply elem_of_cons in Hx as [->|Hx].
  - by rewrite String.eqb_refl.
  - destruct (String.eqb_spec (key y) (key x)) as [E|_]; [|by apply IH].
    destruct Hy. rewrite E. apply list_elem_of_fmap. eauto.
Qed.

Lemma find_row_elem t r : NoDup (rw_workflow_id <$> t) -> r ∈ t -> find_row t (rw_workflow_id r) = Some r.
Proof. apply find_by_key. Qed.

Lemma find_row_update now t w id :
  find_row (repo_update now t w) id =
  if decide (id = wf_workflow_id w) then updated_row now w <$> find_row t id else find_row t id.
Proof.
  induction t as [|r t IH]; cbn; [by destruct decide|].
  destruct (String.eqb_spec (rw_workflow_id r) (wf_workflow_id w)) as [E|E]; cbn.
  - destruct (String.eqb_spec (rw_workflow_id r) id) as [E'|E']; [|done].
    destruct decide; [|congruence]. done.
  - destruct (String.eqb_spec (rw_workflow_id r) id) as [E'|E']; [|done].
    destruct decide; [congruence|done].
Qed.

Lemma repo_get_Some now t id inst :
  repo_get now t id = Some inst <-> exists r, find_row t id = Some r /\ inst = from_json now (rw_full_json r).
Proof. unfold repo_get, find_row. rewrite fmap_Some. cbn. naive_solver. Qed.

Lemma repo_get_ok now t id inst :
  table_ok t -> repo_get now t id = Some inst ->
  wf_workflow_id inst = id /\ (rw_state <$> find_row t id = Some (wf_state inst)).
Proof.
  intros (_ & _ & Hok) (r & Hr & ->)%repo_get_Some. rewrite Hr.
  apply find_row_Some in Hr as [Hin <-]. rewrite Forall_forall in Hok.
  destruct (Hok r Hin) as (? & _ & ? & _). cbn. split; [done|]. by f_equal.
Qed.

Lemma repo_get_update now t id inst w :
  repo_get now t id = Some inst -> wf_workflow_id w = id ->
  repo_get now (repo_update now t w) id = Some (from_json now (to_json (wf_with_updated w now))).
Proof.
  intros (r & Hr & ->)%repo_get_Some <-. apply repo_get_Some. rewrite find_row_update, Hr.
  destruct decide; [|done]. by eexists.
Qed.

(** A workflow is found by its decision exactly when it is found by its id. *)
Lemma repo_get_both now t id d w :
  table_ok t ->
  repo_get_by_decision now t d = Some w /\ wf_workflow_id w = id <->
  repo_get now t id = Some w /\ wf_decision_id w = d.
Proof.
  intros (Hw & Hd & Hok). rewrite Forall_forall in Hok. unfold repo_get_by_decision, repo_get.
  rewrite !fmap_Some. split.
  - intros [(r & Hr & ->) <-]. apply List.find_some in Hr as [Hin%list_elem_of_In <-%String.eqb_eq].
    destruct (Hok r Hin) as (E1 & E2 & _). split; [|done]. exists r. split; [|done].
    cbn. rewrite E1. by apply (find_by_key rw_workflow_id).
  - intros [(r & Hr & ->) <-]. apply List.find_some in Hr as [Hin%list_elem_of_In <-%String.eqb_eq].
    destruct (Hok r Hin) as (E1 & E2 & _). split; [|done]. exists r. split; [|done].
    cbn. rewrite E2. by apply (find_by_key rw_decision_id).
Qed.

(** No update changes which decision a workflow is for. *)
Definition same_decisions (t t' : table) : Prop :=
  forall id, rw_decision_id <$> find_row t' id = rw_decision_id <$> find_row t id.

#[export] Instance same_decisions_preorder : PreOrder same_decisions.
Proof. split; [by intros t id|]. intros t1 t2 t3 H12 H23 id. by rewrite H23, H12. Qed.

Lemma update_same_decisions now t w : same_decisions t (repo_update now t w).
Proof.
  intros id. rewrite find_row_update. destruct decide; [|done].
  by destruct (find_row t id).
Qed.

Lemma update_columns now t w :
  rw_workflow_id <$> repo_update now t w = rw_workflow_id <$> t /\
  rw_decision_id <$> repo_update now t w = rw_decision_id <$> t.
Proof.
  unfold repo_update. rewrite <- !list_fmap_compose.
  split; apply list_fmap_ext; intros ? r _; cbn; by destruct (rw_workflow_id r =? wf_workflow_id w)%string.
Qed.

Lemma update_table_ok now t id inst w :
  table_ok t -> repo_get now t id = Some inst -> wf_identity w = wf_identity inst ->
  table_ok (repo_update now t w).
Proof.
  intros Hok (r & Hr & ->)%repo_get_Some Hid. destruct Hok as (Hw & Hd & Hok).
  unfold table_ok. destruct (update_columns now t w) as [-> ->]. split_and!; [done..|].
  apply find_row_Some in Hr as [Hin _]. rewrite Forall_forall in Hok.
  destruct (Hok r Hin) as (E1 & E2 & _ & E4). unfold wf_identity in Hid. cbn in Hid. inversion Hid as [[H1 H2 H3]].
  apply Forall_forall. intros r' (r0 & Hr' & Hr0)%list_elem_of_fmap. cbn in Hr'.
  destruct (String.eqb_spec (rw_workflow_id r0) (wf_workflow_id w)) as [E|_]; subst r'; [|by apply Hok].
  assert (Some r0 = Some r) as [= ->].
  { rewrite <- (find_row_elem t r0), <- (find_row_elem t r) by done. f_equal. congruence. }
  unfold row_ok. cbn. split_and!; congruence.
Qed.

(** ** What the engine promises

    The workflows with their states, and the actors whose votes count. *)
Record review := {
  rv_state : gmap string string;
  rv_votes : gmap string (gset string)
}.

Inductive engine_op :=
| OpCreate (decision_id agent_id decision_type : string) (risk_score : float) (violations : list string)
    (warnings : option (list string)) (sla_minutes : option Z) (assigned_to escalate_to : option string)
| OpStartReview (workflow_id actor notes : string)
| OpApprove (workflow_id actor notes : string) (min_approvers : Z)
| OpReject (workflow_id actor notes : string)
| OpEscalate (workflow_id actor escalate_to notes : string)
| OpExpire (workflow_id actor notes : string)
| OpRevoke (workflow_id actor notes : string)
| OpExpireOverdue (actor : string)
| OpComment (workflow_id actor notes : string)
| OpMonitor.

Section run.
Context (mint : nat -> string) (elapsed : instant -> WorkflowInstance -> string).

Definition run_op (now : instant) (op : engine_op) (e : Engine) : Engine :=
  match op with
  | OpCreate d a ty rs vs ws sla asg esc => (create_from_decision mint now e d a ty rs vs ws sla asg esc).2
  | OpStartReview w a n => (start_review mint now e w a n).2
  | OpApprove w a n m => (approve mint now e w a n m).2
  | OpReject w a n => (reject mint now e w a n).2
  | OpEscalate w a to n => (escalate mint now e w a to n).2
  | OpExpire w a n => (expire mint now e w a n).2
  | OpRevoke w a n => (revoke mint now e w a n).2
  | OpExpireOverdue a => (expire_overdue mint now e a).2
  | OpComment w a n => (add_comment mint now e w a n).2
  | OpMonitor => sla_monitor_turn mint elapsed now e
  end.

Definition run_ops (tr : list (instant * engine_op)) (e : Engine) : Engine :=
  foldl (fun e x => run_op x.1 x.2 e) e tr.
End run.

(** The states a reviewer may set whatever the current one is, and those
    which only a workflow still awaiting review may reach. *)
Definition op_decides (op : engine_op) (id state : string) : Prop :=
  match op with
  | OpStartReview w _ _ => id = w /\ state = "in_review"
  | OpReject w _ _ => id = w /\ state = "rejected"
  | OpEscalate w _ _ _ => id = w /\ state = "escalated"
  | _ => False
  end.
Definition op_closes (op : engine_op) (id state : string) : Prop :=
  match op with
  | OpExpire w _ _ => id = w /\ state = "expired"
  | OpExpireOverdue _ => state = "expired"
  | OpRevoke w _ _ => id = w /\ state = "revoked"
  | OpMonitor => state = "escalated"
  | _ => False
  end.

Definition votes_for (s : review) (id : string) : gset string := default ∅ (rv_votes s !! id).

(** What one operation may do: an approval needs a vote of the caller and the
    quorum the caller asked for; votes may be forgotten, never invented. *)
Inductive review_step (op : engine_op) (s : review) : review -> Prop :=
| rs_request id d a ty rs vs ws sla asg esc :
    op = OpCreate d a ty rs vs ws sla asg esc -> rv_state s !! id = None ->
    review_step op s {| rv_state := <[id := "pending"]> (rv_state s); rv_votes := rv_votes s |}
| rs_vote id a n m :
    op = OpApprove id a n m ->
    review_step op s {| rv_state := rv_state s; rv_votes := <[id := {[a]} ∪ votes_for s id]> (rv_votes s) |}
| rs_forget votes a n m id :
    op = OpApprove id a n m -> votes ⊆ rv_votes s ->
    review_step op s {| rv_state := rv_state s; rv_votes := votes |}
| rs_approve id a n m :
    op = OpApprove id a n m -> is_Some (rv_state s !! id) ->
    a ∈ votes_for s id -> (m <= Z.of_nat (size (votes_for s id)))%Z ->
    review_step op s {| rv_state := <[id := "approved"]> (rv_state s);
                        rv_votes := delete id (rv_votes s) |}
| rs_decide id state :
    op_decides op id state -> is_Some (rv_state s !! id) ->
    review_step op s {| rv_state := <[id := state]> (rv_state s); rv_votes := rv_votes s |}
| rs_close id cur state :
    op_closes op id state -> rv_state s !! id = Some cur -> awaits_review cur = true ->
    review_step op s {| rv_state := <[id := state]> (rv_state s); rv_votes := rv_votes s |}.

Definition row_state (r : row) : string * string := (rw_workflow_id r, rw_state r).

Definition review_of (e : Engine) : review :=
  {| rv_state := list_to_map (row_state <$> en_repo e);
     rv_votes := (fun q => list_to_set (qe_actors q)) <$> en_quorum_state e |}.

Definition engine_ok (e : Engine) : Prop :=
  table_ok (en_repo e) /\ map_Forall (fun _ q => NoDup (qe_actors q)) (en_quorum_state e).

(** ** The engine keeps the promise *)

Lemma review_lookup t id : (list_to_map (row_state <$> t) : gmap string string) !! id = rw_state <$> find_row t id.
Proof.
  induction t as [|r t IH]; [done|]. cbn.
  destruct (String.eqb_spec (rw_workflow_id r) id) as [<-|E].
  - by rewrite lookup_insert_eq.
  - by rewrite lookup_insert_ne.
Qed.

(** Writing back an instance that was read. *)
Lemma update_review now e id inst w :
  engine_ok e -> repo_get now (en_repo e) id = Some inst -> wf_identity w = wf_identity inst ->
  engine_ok (en_with_repo e (repo_update now (en_repo e) w)) /\
  review_of (en_with_repo e (repo_update now (en_repo e) w)) =
    {| rv_state := <[id := wf_state w]> (rv_state (review_of e)); rv_votes := rv_votes (review_of e) |}.
Proof.
  intros [Ht Hq] Hget Hid. split.
  { split; [|done]. by eapply update_table_ok. }
  destruct (repo_get_ok now _ _ _ Ht Hget) as [Ewf Est].
  assert (wf_workflow_id w = id) as Ew by (unfold wf_identity in Hid; congruence).
  unfold review_of. cbn. f_equal. apply map_eq. intros i.
  rewrite review_lookup, find_row_update, Ew. destruct decide as [->|E].
  - rewrite lookup_insert_eq, <- option_fmap_compose. by destruct (find_row (en_repo e) id).
  - by rewrite lookup_insert_ne, review_lookup.
Qed.

(** What one call gives: the invariant and steps of the abstract machine. *)
Definition keeps (op : engine_op) (e e' : Engine) : Prop :=
  engine_ok e' /\ rtc (review_step op) (review_of e) (review_of e').

Lemma keeps_refl op e : engine_ok e -> keeps op e e.
Proof. done. Qed.

Lemma keeps_trans op e1 e2 e3 : keeps op e1 e2 -> keeps op e2 e3 -> keeps op e1 e3.
Proof. intros [_ H] [? ?]. split; [done|]. by etrans. Qed.

Lemma review_present now e id inst :
  engine_ok e -> repo_get now (en_repo e) id = Some inst ->
  rv_state (review_of e) !! id = Some (wf_state inst).
Proof. intros [Ht _] H. cbn. rewrite review_lookup. by apply (repo_get_ok now). Qed.

(** The states a step sets, by its outcome and the requested state. *)
Lemma transition_run mint now e id ty ac n new out inst :
  engine_ok e -> repo_get now (en_repo e) id = Some inst ->
  (new, out) ∈ [("in_review", "pending"); ("approved", "approved"); ("rejected", "rejected");
                ("expired", "expired"); ("revoked", "revoked")] ->
  let '(r, e') := transition mint now e id ty ac n new out in
  engine_ok e' /\
  (exists w w', r = Some w /\ wf_identity w = wf_identity inst /\ wf_state w = new /\
     repo_get now (en_repo e') id = Some w' /\ wf_identity w' = wf_identity inst) /\
  review_of e' = {| rv_state := <[id := new]> (rv_state (review_of e)); rv_votes := rv_votes (review_of e) |}.
Proof.
  intros He Hget Hin. unfold transition. rewrite Hget.
  match goal with |- context [repo_update now (en_repo e) ?w] => set (w' := w) end.
  assert (wf_identity w' = wf_identity inst /\ wf_state w' = new) as [Hid Hst].
  { subst w'. set_unfold in Hin. unfold add_step. destruct_or! Hin; simplify_eq; done. }
  destruct (update_review now e id inst w' He Hget Hid) as [Hok Hrv]. rewrite Hst in Hrv.
  split_and!; [done| |done]. eexists _, _. split_and!; [done..| |].
  - eapply repo_get_update; [done|]. destruct (repo_get_ok now _ _ _ (proj1 He) Hget) as [Ew _].
    unfold wf_identity in Hid. congruence.
  - done.
Qed.

Lemma transition_decides mint op now e id ty ac n new out :
  engine_ok e -> op_decides op id new ->
  (new, out) ∈ [("in_review", "pending"); ("rejected", "rejected")] ->
  keeps op e (transition mint now e id ty ac n new out).2.
Proof.
  intros He Hop Hin. destruct (repo_get now (en_repo e) id) as [inst|] eqn:Hget.
  - pose proof (transition_run mint now e id ty ac n new out inst He Hget) as H.
    destruct (transition mint now e id ty ac n new out) as [r e'].
    destruct H as (Hok & _ & Hrv); [set_solver|]. split; [done|]. cbn [snd]. rewrite Hrv.
    apply rtc_once, rs_decide; [done|]. by rewrite (review_present now e id inst).
  - unfold transition. rewrite Hget. by apply keeps_refl.
Qed.

Lemma transition_closes mint op now e id ty ac n new out inst :
  engine_ok e -> op_closes op id new -> new = out -> new ∈ ["expired"; "revoked"] ->
  repo_get now (en_repo e) id = Some inst -> awaits_review (wf_state inst) = true ->
  keeps op e (transition mint now e id ty ac n new out).2.
Proof.
  intros He Hop <- Hin Hget Haw.
  pose proof (transition_run mint now e id ty ac n new new inst He Hget) as H.
  destruct (transition mint now e id ty ac n new new) as [r e'].
  destruct H as (Hok & _ & Hrv); [set_solver|]. split; [done|]. cbn [snd]. rewrite Hrv.
  eapply rtc_once, rs_close; [done | by apply (review_present now) | done].
Qed.

Lemma escalate_run mint now e id ac to n inst :
  engine_ok e -> repo_get now (en_repo e) id = Some inst ->
  engine_ok (escalate mint now e id ac to n).2 /\
  review_of (escalate mint now e id ac to n).2 =
    {| rv_state := <[id := "escalated"]> (rv_state (review_of e)); rv_votes := rv_votes (review_of e) |}.
Proof.
  intros He Hget. unfold escalate. rewrite Hget.
  match goal with |- context [repo_update now (en_repo e) ?w] =>
    exact (update_review now e id inst w He Hget eq_refl) end.
Qed.

Lemma escalate_keeps mint op now e id ac to n :
  engine_ok e -> op_decides op id "escalated" -> keeps op e (escalate mint now e id ac to n).2.
Proof.
  intros He Hop. destruct (repo_get now (en_repo e) id) as [inst|] eqn:Hget.
  - destruct (escalate_run mint now e id ac to n inst He Hget) as [Hok Hrv].
    split; [done|]. rewrite Hrv. apply rtc_once, rs_decide; [done|].
    by rewrite (review_present now e id inst).
  - unfold escalate. rewrite Hget. by apply keeps_refl.
Qed.

(** Writing back an instance whose state was not touched. *)
Lemma update_keeps op now e id inst w :
  engine_ok e -> repo_get now (en_repo e) id = Some inst -> wf_identity w = wf_identity inst ->
  wf_state w = wf_state inst -> keeps op e (en_with_repo e (repo_update now (en_repo e) w)).
Proof.
  intros He Hget Hid Hst. destruct (update_review now e id inst w He Hget Hid) as [Hok Hrv].
  split; [done|]. rewrite Hrv, Hst, insert_id by by apply (review_present now). by destruct (review_of e).
Qed.

Lemma comment_keeps mint op now e id ac n : engine_ok e -> keeps op e (add_comment mint now e id ac n).2.
Proof.
  intros He. unfold add_comment. destruct (repo_get now (en_repo e) id) as [inst|] eqn:Hget;
    [|by apply keeps_refl].
  by apply (update_keeps op now e id inst).
Qed.

Lemma expire_keeps mint op now e id ac n :
  engine_ok e -> op_closes op id "expired" -> keeps op e (expire mint now e id ac n).2.
Proof.
  intros He Hop. unfold expire. destruct (repo_get now (en_repo e) id) as [inst|] eqn:Hget;
    [|by apply keeps_refl].
  destruct (awaits_review (wf_state inst)) eqn:Haw; [|by apply keeps_refl].
  destruct (is_sla_breached now inst); [|by apply keeps_refl].
  by apply (transition_closes mint op now e id "expire" ac n "expired" "expired" inst); [..|set_solver| |].
Qed.

Lemma revoke_keeps mint op now e id ac n :
  engine_ok e -> op_closes op id "revoked" -> keeps op e (revoke mint now e id ac n).2.
Proof.
  intros He Hop. unfold revoke. destruct (repo_get now (en_repo e) id) as [inst|] eqn:Hget;
    [|by apply keeps_refl].
  destruct (awaits_review (wf_state inst)) eqn:Haw; [|by apply keeps_refl].
  by apply (transition_closes mint op now e id "revoke" ac n "revoked" "revoked" inst); [..|set_solver| |].
Qed.

Lemma expire_all_keeps mint op now ac l e :
  engine_ok e -> (forall id, op_closes op id "expired") -> keeps op e (expire_all mint now e ac l).2.
Proof.
  intros He Hop. revert e He. induction l as [|inst l IH]; intros e He; [by apply keeps_refl|]. cbn.
  pose proof (expire_keeps mint op now e (wf_workflow_id inst) ac EXPIRE_NOTES He (Hop _)) as H1.
  destruct (expire mint now e _ ac _) as [r e1]. pose proof (IH e1 (proj1 H1)) as H2.
  destruct (expire_all mint now e1 ac l) as [rs e2]. by apply (keeps_trans op e e1 e2).
Qed.

Definition new_row (w : WorkflowInstance) : row :=
  {| rw_workflow_id := wf_workflow_id w; rw_decision_id := wf_decision_id w; rw_state := wf_state w;
     rw_created_at := wf_created_at w; rw_full_json := to_json w |}.

Lemma repo_create_cases t w :
  repo_create t w = (Raise (PyException "IntegrityError"), t) \/
  repo_create t w = (Ok tt, t ++ [new_row w]) /\
  forall r, r ∈ t -> rw_workflow_id r <> wf_workflow_id w /\ rw_decision_id r <> wf_decision_id w.
Proof.
  unfold repo_create. destruct (existsb _ _) eqn:Hex; [by left|right]. split; [done|]. intros r Hr.
  apply not_true_iff_false in Hex. rewrite existsb_exists in Hex.
  split; intros E; destruct Hex; exists r; (split; [by apply list_elem_of_In|]);
    by rewrite E, String.eqb_refl, ?orb_true_r.
Qed.

Lemma append_table_ok t w :
  table_ok t ->
  (forall r, r ∈ t -> rw_workflow_id r <> wf_workflow_id w /\ rw_decision_id r <> wf_decision_id w) ->
  table_ok (t ++ [new_row w]).
Proof.
  intros (Hw & Hd & Hr) Hfresh. split_and!; rewrite ?fmap_app.
  1,2: apply NoDup_app; split_and!; [done| |apply NoDup_singleton]; intros x (r & -> & Hin)%list_elem_of_fmap;
       apply Hfresh in Hin as [??]; cbn; by rewrite list_elem_of_singleton.
  apply Forall_app. split; [done|]. by apply Forall_singleton.
Qed.

Lemma find_row_app t t' i : find_row (t ++ t') i = match find_row t i with Some r => Some r | None => find_row t' i end.
Proof. induction t as [|r t IH]; [done|]. cbn. by destruct (_ =? i)%string. Qed.

Lemma append_states t w :
  (forall r, r ∈ t -> rw_workflow_id r <> wf_workflow_id w /\ rw_decision_id r <> wf_decision_id w) ->
  (list_to_map (row_state <$> (t ++ [new_row w])) : gmap string string) =
  <[wf_workflow_id w := wf_state w]> (list_to_map (row_state <$> t)).
Proof.
  intros Hfresh. apply map_eq. intros i. rewrite review_lookup, find_row_app. cbn.
  destruct (find_row t i) as [r|] eqn:Hf; cbn.
  - apply find_row_Some in Hf as Hf'. destruct Hf' as [Hin <-]. apply Hfresh in Hin as [? _].
    by rewrite lookup_insert_ne, review_lookup, Hf by done.
  - destruct (String.eqb_spec (wf_workflow_id w) i) as [<-|E]; cbn.
    + by rewrite lookup_insert_eq.
    + by rewrite lookup_insert_ne, review_lookup, Hf by done.
Qed.

Lemma create_keeps mint now e d a ty rs vs ws sla asg esc :
  engine_ok e ->
  keeps (OpCreate d a ty rs vs ws sla asg esc) e (create_from_decision mint now e d a ty rs vs ws sla asg esc).2.
Proof.
  intros He. unfold create_from_decision. destruct (repo_get_by_decision _ _ _); [by apply keeps_refl|].
  set (w := mk_WorkflowInstance _ _ _ _ _ _ _ _ _ _). cbn zeta.
  change (en_repo (en_with_minted e)) with (en_repo e).
  destruct (repo_create_cases (en_repo e) w) as [->|[-> Hfresh]]; cbn [snd]; destruct He as [Ht Hq].
  { split; [done|]. apply rtc_refl. }
  split; [split; [by apply append_table_ok|done]|].
  apply rtc_once. unfold review_of at 2. cbn [en_repo en_with_repo]. rewrite append_states by done.
  eapply (rs_request _ (review_of e) (wf_workflow_id w)); [done|]. cbn. rewrite review_lookup. apply fmap_None.
  destruct (find_row (en_repo e) _) as [r|] eqn:Hf; [|done].
  apply find_row_Some in Hf as [Hin E]. by apply Hfresh in Hin as [? _].
Qed.

(** A vote: stale entries are forgotten, then the actor is counted once. *)
Lemma evict_subseteq now e : en_quorum_state (evict_stale_quorum_entries now e) ⊆ en_quorum_state e.
Proof. apply map_filter_subseteq. Qed.

Lemma record_vote_run now e id ac n m :
  engine_ok e ->
  let '(actors, e') := record_vote now e id ac in
  keeps (OpApprove id ac n m) e e' /\ en_repo e' = en_repo e /\
  votes_for (review_of e') id = list_to_set actors /\ NoDup actors /\ ac ∈ actors.
Proof.
  intros [Ht Hq]. unfold record_vote. pose proof (evict_subseteq now e) as Hsub.
  set (e1 := evict_stale_quorum_entries now e) in *.
  set (entry := default _ _).
  assert (NoDup (qe_actors entry)) as Hnd.
  { subst entry. destruct (en_quorum_state e1 !! id) as [en|] eqn:Hl; [|apply NoDup_nil_2].
    apply (Hq id). by eapply lookup_weaken. }
  set (actors := if bool_decide _ then _ else _).
  assert (NoDup actors /\ list_to_set actors = ({[ac]} ∪ list_to_set (qe_actors entry) : gset string) /\ ac ∈ actors)
    as (Hnd' & Hset & Hin).
  { subst actors. case_bool_decide; split_and!; try done; [set_solver| |set_solver|set_solver].
    apply NoDup_app. split_and!; [done|set_solver|apply NoDup_singleton]. }
  split_and!; [|done| |done|done]; [split|].
  - split; [done|]. intros i q'. cbn. rewrite lookup_insert. destruct decide; [by intros [= <-]|].
    intros H. apply (Hq i). by eapply lookup_weaken.
  - eapply (rtc_l _ _ (review_of e1)).
    { eapply (rs_forget _ (review_of e) (rv_votes (review_of e1))); [done|]. by apply map_fmap_mono. }
    apply rtc_once. match goal with |- review_step _ _ ?s => replace s with
      {| rv_state := rv_state (review_of e1);
         rv_votes := <[id := {[ac]} ∪ votes_for (review_of e1) id]> (rv_votes (review_of e1)) |} end;
      [by eapply rs_vote|].
    unfold review_of, votes_for. cbn. f_equal. rewrite fmap_insert, lookup_fmap. cbn. f_equal.
    rewrite Hset. f_equal. subst entry. by destruct (_ !! id).
  - unfold votes_for. cbn. by rewrite lookup_fmap, lookup_insert_eq.
Qed.

Lemma review_of_delete e id :
  review_of (en_with_quorum e (delete id (en_quorum_state e))) =
  {| rv_state := rv_state (review_of e); rv_votes := delete id (rv_votes (review_of e)) |}.
Proof. unfold review_of. cbn. by rewrite fmap_delete. Qed.

(** Enough votes were counted: the workflow is approved and the votes are spent. *)
Lemma quorum_reached mint now e id ac nt n m actors inst :
  engine_ok e -> repo_get now (en_repo e) id = Some inst ->
  votes_for (review_of e) id = list_to_set actors -> NoDup actors -> ac ∈ actors ->
  (m <= Z.of_nat (length actors))%Z ->
  let '(r, e2) := transition mint now e id "approve" ac nt "approved" "approved" in
  let e3 := match r with
            | Some inst => en_with_repo e2 (repo_update now (en_repo e2) (wf_with_actors inst actors))
            | None => e2
            end in
  keeps (OpApprove id ac n m) e (en_with_quorum e3 (delete id (en_quorum_state e3))).
Proof.
  intros He Hget Hv Hnd Hin Hm.
  pose proof (transition_run mint now e id "approve" ac nt "approved" "approved" inst He Hget) as H.
  destruct (transition mint now e id _ ac _ _ _) as [r e2].
  destruct H as (Hok & (w & w' & -> & Hid & Hst & Hget2 & Hid2) & Hrv); [set_solver|].
  destruct (update_review now e2 id w' (wf_with_actors w actors) Hok Hget2) as [[Ht3 Hq3] Hrv3].
  { by transitivity (wf_identity inst). }
  cbn [wf_state wf_with_actors wf_with] in Hrv3. rewrite Hst, Hrv in Hrv3. cbn [rv_state rv_votes] in Hrv3.
  rewrite insert_insert_eq in Hrv3. split.
  - split; [done|]. by apply map_Forall_delete.
  - apply rtc_once. rewrite review_of_delete, Hrv3. cbn [rv_state rv_votes].
    eapply rs_approve; [done| | |].
    + by rewrite (review_present now e id inst).
    + rewrite Hv. set_solver.
    + rewrite Hv, size_list_to_set; done.
Qed.

(** *** The overdue *)

(** A row the SLA has run out for while it awaits review. *)
Definition overdue (now : instant) (r : row) : bool :=
  awaits_review (rw_state r) && is_sla_breached now (rw_full_json r).

Lemma insert_row_perm x l : insert_row x l ≡ₚ x :: l.
Proof.
  induction l as [|y l IH]; [done|]. cbn. destruct (_ <=? _)%Z; [done|].
  rewrite IH. apply perm_swap.
Qed.

Lemma sort_rows_perm l : foldr insert_row [] l ≡ₚ l.
Proof. induction l as [|x l IH]; [done|]. cbn. by rewrite insert_row_perm, IH. Qed.

Lemma elem_of_breached now t w :
  w ∈ repo_list_sla_breached now t <->
  exists r, r ∈ t /\ overdue now r = true /\ w = from_json now (rw_full_json r).
Proof.
  unfold repo_list_sla_breached, repo_list_pending, overdue.
  rewrite list_elem_of_In, filter_In, in_map_iff. split.
  - intros [(r & <- & Hr) Hb]. apply list_elem_of_In in Hr. rewrite sort_rows_perm in Hr.
    apply list_elem_of_In, filter_In in Hr as [Hr Haw]. exists r. by rewrite list_elem_of_In, Haw.
  - intros (r & Hr & [Haw Hb]%andb_true_iff & ->). split; [|done]. exists r. split; [done|].
    apply list_elem_of_In. rewrite sort_rows_perm. apply list_elem_of_In, filter_In. by rewrite <- list_elem_of_In.
Qed.

Lemma filter_sublist_of {A} (f : A -> bool) l : sublist (List.filter f l) l.
Proof. induction l as [|x l IH]; [done|]. cbn. destruct (f x); by constructor. Qed.

Lemma breached_ids_nodup now t :
  table_ok t -> NoDup (wf_workflow_id <$> repo_list_sla_breached now t).
Proof.
  intros (Hnd & _ & Hok).
  eapply sublist_NoDup; [|apply fmap_sublist, filter_sublist_of].
  unfold repo_list_pending. rewrite <- list_fmap_compose, sort_rows_perm.
  eapply sublist_NoDup; [|apply fmap_sublist, filter_sublist_of].
  replace (_ <$> t) with (rw_workflow_id <$> t); [done|].
  apply list_fmap_ext. intros i r Hr. rewrite Forall_forall in Hok. symmetry. apply Hok.
  by eapply list_elem_of_lookup_2.
Qed.

Lemma repo_get_other now t w i : i <> wf_workflow_id w -> repo_get now (repo_update now t w) i = repo_get now t i.
Proof.
  intros Hi. unfold repo_get. fold (find_row (repo_update now t w) i) (find_row t i).
  rewrite find_row_update. by destruct decide.
Qed.

Lemma escalate_other mint now e id ac to n i :
  engine_ok e -> i <> id -> repo_get now (en_repo (escalate mint now e id ac to n).2) i = repo_get now (en_repo e) i.
Proof.
  intros He Hi. unfold escalate. destruct (repo_get now (en_repo e) id) as [inst|] eqn:Hget; [|done].
  apply repo_get_other. cbn. by destruct (repo_get_ok now _ _ _ (proj1 He) Hget) as [-> _].
Qed.

Lemma breached_await now e w :
  engine_ok e -> w ∈ repo_list_sla_breached now (en_repo e) ->
  exists inst, repo_get now (en_repo e) (wf_workflow_id w) = Some inst /\ awaits_review (wf_state inst) = true.
Proof.
  intros [(Hnd & _ & Hok) _] (r & Hr & [Haw _]%andb_true_iff & ->)%elem_of_breached.
  rewrite Forall_forall in Hok. destruct (Hok r Hr) as (E & _ & Est & _).
  exists (from_json now (rw_full_json r)). cbn. rewrite Est, E. split; [|done].
  apply repo_get_Some. exists r. split; [by apply find_row_elem|done].
Qed.

(** The monitor escalates each workflow it listed once, while it still awaits
    review. *)
Lemma monitor_keeps mint elapsed now l e :
  engine_ok e -> NoDup (wf_workflow_id <$> l) ->
  (forall w, w ∈ l -> exists inst, repo_get now (en_repo e) (wf_workflow_id w) = Some inst /\
                                   awaits_review (wf_state inst) = true) ->
  keeps OpMonitor e (escalate_breached mint elapsed now e l).
Proof.
  revert e. induction l as [|w l IH]; intros e He Hnd Hl; [by apply keeps_refl|]. cbn.
  apply NoDup_cons in Hnd as [Hw Hnd].
  destruct (wf_escalate_to w) as [to|]; [|apply IH; set_solver].
  destruct (_ && _); [|apply IH; set_solver].
  destruct (Hl w) as (inst & Hget & Haw); [set_solver|].
  match goal with |- context [escalate mint now e ?i ?a to ?n] =>
    destruct (escalate_run mint now e i a to n inst He Hget) as [Hok Hrv] end.
  eapply keeps_trans.
  { split; [exact Hok|]. rewrite Hrv. eapply rtc_once, rs_close; [done|by apply (review_present now)|done]. }
  apply IH; [done..|]. intros w' Hw'. destruct (Hl w') as (inst' & Hget' & Haw'); [set_solver|].
  exists inst'. split; [|done]. rewrite <- Hget'. apply escalate_other; [done|]. intros E. apply Hw.
  rewrite <- E. apply list_elem_of_fmap. eauto.
Qed.

Lemma approve_keeps mint now e id ac n m :
  engine_ok e -> keeps (OpApprove id ac n m) e (approve mint now e id ac n m).2.
Proof.
  intros He. unfold approve. pose proof (record_vote_run now e id ac n m He) as Hvote.
  destruct (record_vote now e id ac) as [actors e1]. destruct Hvote as (Hk & _ & Hv & Hnd & Hin).
  destruct (repo_get now (en_repo e1) id) as [inst|] eqn:Hget; [|done].
  eapply keeps_trans; [done|]. destruct Hk as [He1 _]. cbn [snd].
  destruct (Z.leb_spec m (Z.of_nat (length actors))) as [Hm|_].
  - match goal with |- context [transition mint now e1 id "approve" ac ?nt _ _] =>
      pose proof (quorum_reached mint now e1 id ac nt n m actors inst He1 Hget Hv Hnd Hin Hm) as H end.
    by destruct (transition mint now e1 id _ ac _ _ _) as [r e2].
  - by apply (update_keeps _ now e1 id inst).
Qed.

(** ** The theorems *)

Section theorems.
Context (mint : nat -> string) (elapsed : instant -> WorkflowInstance -> string).

Lemma run_op_keeps now op e : engine_ok e -> keeps op e (run_op mint elapsed now op e).
Proof.
  intros He. destruct op; cbn.
  - by apply create_keeps.
  - apply transition_decides; [done|done|set_solver].
  - by apply approve_keeps.
  - apply transition_decides; [done|done|set_solver].
  - by apply escalate_keeps.
  - by apply expire_keeps.
  - by apply revoke_keeps.
  - by apply expire_all_keeps.
  - by apply comment_keeps.
  - apply monitor_keeps; [done|by apply breached_ids_nodup, He|]. intros w Hw. by apply breached_await.
Qed.

Lemma engine_init_ok sla ttl : engine_ok (engine_init sla ttl).
Proof. split; [split_and!; constructor|]. apply map_Forall_empty. Qed.

Lemma run_ops_ok tr e : engine_ok e -> engine_ok (run_ops mint elapsed tr e).
Proof.
  revert e. induction tr as [|x tr IH]; intros e He; [done|]. cbn. apply IH. by apply run_op_keeps.
Qed.

(** C19.  The workflow engine over its repository refines the abstract review
    machine: from any consistent state, every operation keeps the table
    consistent (unique ids, columns that agree with the stored document, an
    actor counted once per quorum) and what it does to the states and the
    votes is a sequence of the abstract steps that operation is allowed: an
    approval only with the caller's own vote among at least the number of
    distinct votes asked for; an expiry, a revocation or the monitor's
    escalation only of a workflow still awaiting review; no vote that was not
    cast. *)
Theorem engine_refines_review now op e :
  engine_ok e ->
  engine_ok (run_op mint elapsed now op e) /\
  rtc (review_step op) (review_of e) (review_of (run_op mint elapsed now op e)).
Proof. apply run_op_keeps. Qed.

(** The votes and the approvals a run of operations accounts for. *)
Definition voted (tr : list (instant * engine_op)) (id a : string) : Prop :=
  exists now n m, (now, OpApprove id a n m) ∈ tr.

Definition accounted (tr : list (instant * engine_op)) (s : review) : Prop :=
  (forall id a, a ∈ votes_for s id -> voted tr id a) /\
  (forall id, rv_state s !! id = Some "approved" ->
     exists now a n m A, (now, OpApprove id a n m) ∈ tr /\ a ∈ A /\ (m <= Z.of_nat (size A))%Z /\
       forall b : string, b ∈ (A : gset string) -> voted tr id b).

Lemma accounted_mono tr tr' s : tr ⊆ tr' -> accounted tr s -> accounted tr' s.
Proof.
  intros Hsub [Hv Ha]. assert (forall id a, voted tr id a -> voted tr' id a) as Hmono.
  { intros id a (now & n & m & H). exists now, n, m. by apply Hsub. }
  split; [naive_solver|]. intros id H. destruct (Ha id H) as (now & a & n & m & A & ? & ? & ? & ?).
  exists now, a, n, m, A. split_and!; [by apply Hsub|done|done|naive_solver].
Qed.

Lemma step_keeps_votes tr now op s s' :
  (now, op) ∈ tr -> (forall id a, a ∈ votes_for s id -> voted tr id a) -> review_step op s s' ->
  forall id a, a ∈ votes_for s' id -> voted tr id a.
Proof.
  intros Hin Hv Hs. destruct Hs as [| id b n m -> | votes b n m id -> Hsub | id b n m -> | |];
    try exact Hv; intros i c; unfold votes_for; cbn.
  - rewrite lookup_insert. destruct decide as [<-|_]; [|apply Hv].
    cbn. rewrite elem_of_union, elem_of_singleton. intros [->|H]; [by exists now, n, m|by apply Hv].
  - destruct (votes !! i) as [A|] eqn:HA; [|set_solver].
    intros H. apply (Hv i). unfold votes_for. by rewrite (lookup_weaken _ _ _ _ HA Hsub).
  - rewrite lookup_delete. destruct decide as [<-|_]; [set_solver|apply Hv].
Qed.

Lemma step_keeps_accounted tr now op s s' :
  (now, op) ∈ tr -> accounted tr s -> review_step op s s' -> accounted tr s'.
Proof.
  intros Hin [Hv Ha] Hs. split; [by eapply step_keeps_votes|].
  assert (forall id st, st <> "approved" -> forall i, <[id := st]> (rv_state s) !! i = Some "approved" ->
            rv_state s !! i = Some "approved") as Hother.
  { intros id st Hne i. rewrite lookup_insert. destruct decide; [|done]. congruence. }
  destruct Hs as [id| | | id a n m -> _ Hvote Hm | id st Hop _ | id cur st Hop _ _]; try exact Ha; intros i; cbn.
  - intros Hi. apply Ha. eapply Hother, Hi. done.
  - rewrite lookup_insert. destruct decide as [<-|_]; [|apply Ha]. intros _.
    exists now, a, n, m, (votes_for s id). split_and!; [done..|]. apply Hv.
  - intros Hi. apply Ha. eapply Hother, Hi. destruct op; naive_solver.
  - intros Hi. apply Ha. eapply Hother, Hi. destruct op; naive_solver.
Qed.

Lemma run_accounted tr sla ttl :
  accounted tr (review_of (run_ops mint elapsed tr (engine_init sla ttl))).
Proof.
  induction tr as [|[now op] tr IH] using rev_ind.
  { split; [|done]. intros id a. unfold votes_for. cbn. rewrite fmap_empty, lookup_empty. set_solver. }
  unfold run_ops. rewrite foldl_app. cbn. fold (run_ops mint elapsed tr (engine_init sla ttl)).
  set (e := run_ops mint elapsed tr (engine_init sla ttl)) in *.
  assert (engine_ok e) as He by apply run_ops_ok, engine_init_ok.
  destruct (run_op_keeps now op e He) as [_ Hrun].
  assert (accounted (tr ++ [(now, op)]) (review_of e)) as H0 by (eapply accounted_mono; [|done]; set_solver).
  clear IH. revert H0. induction Hrun as [|x y z Hs _ IH']; [done|]. intros Hx. apply IH'.
  apply (step_keeps_accounted _ now op x); [set_solver|done..].
Qed.

(** C18.  Quorum: in every run of the engine from an empty repository, a
    workflow the repository shows as approved was approved by a call of
    [approve] that asked for [m] approvers, at a time when at least [m]
    distinct actors, the caller among them, had each called [approve] on that
    very workflow. *)
Theorem approval_needs_quorum tr sla ttl now id w :
  repo_get now (en_repo (run_ops mint elapsed tr (engine_init sla ttl))) id = Some w ->
  wf_state w = "approved" ->
  exists at_ a n m actors,
    (at_, OpApprove id a n m) ∈ tr /\ a ∈ actors /\ NoDup actors /\ (m <= Z.of_nat (length actors))%Z /\
    forall b, b ∈ actors -> voted tr id b.
Proof.
  intros Hget Hst. assert (engine_ok (run_ops mint elapsed tr (engine_init sla ttl))) as He
    by apply run_ops_ok, engine_init_ok.
  destruct (run_accounted tr sla ttl) as [_ Ha]. destruct (Ha id) as (at_ & a & n & m & A & ? & ? & ? & HA).
  { by rewrite (review_present now _ id w), Hst. }
  exists at_, a, n, m, (elements A).
  split_and!; [done|by apply elem_of_elements|apply NoDup_elements|done|].
  intros b Hb%elem_of_elements. by apply HA.
Qed.

(** *** Expiry *)

(** One expiry: the workflow it names, if overdue, becomes expired and is
    returned; no other row changes. *)
Lemma expire_run now e id ac n r :
  engine_ok e -> find_row (en_repo e) id = Some r -> overdue now r = true ->
  let '(out, e') := expire mint now e id ac n in
  engine_ok e' /\
  (exists w, out = Some w /\ wf_workflow_id w = id /\ wf_state w = "expired") /\
  rw_state <$> find_row (en_repo e') id = Some "expired" /\
  forall i, i <> id -> find_row (en_repo e') i = find_row (en_repo e) i.
Proof.
  intros He Hr [Haw Hb]%andb_true_iff.
  assert (repo_get now (en_repo e) id = Some (from_json now (rw_full_json r))) as Hget
    by (apply repo_get_Some; eauto).
  destruct (repo_get_ok now _ _ _ (proj1 He) Hget) as [Hid Hst]. rewrite Hr in Hst. cbn in Hst.
  unfold expire. rewrite Hget. injection Hst as Hst. cbn [wf_state from_json wf_with]. rewrite <- Hst, Haw.
  change (is_sla_breached now (from_json now (rw_full_json r))) with (is_sla_breached now (rw_full_json r)).
  rewrite Hb. cbn [negb].
  pose proof (transition_run mint now e id "expire" ac n "expired" "expired" _ He Hget) as Hrun.
  assert (forall i, i <> id ->
            find_row (en_repo (transition mint now e id "expire" ac n "expired" "expired").2) i =
            find_row (en_repo e) i) as Hother.
  { intros i Hi. unfold transition. rewrite Hget. cbn -[repo_update find_row].
    rewrite find_row_update. destruct decide as [->|]; [|done]. by destruct Hi. }
  destruct (transition mint now e id _ ac n _ _) as [out e'].
  destruct Hrun as (Hok & (w & _ & -> & Hwid & Hwst & _) & Hrv); [set_solver|].
  split_and!; [done| |by rewrite <- review_lookup; change (list_to_map _) with (rv_state (review_of e')); rewrite Hrv; cbn; rewrite lookup_insert_eq|done].
  exists w. split_and!; [done| |done]. unfold wf_identity in Hwid. congruence.
Qed.

Lemma expire_all_run now ac l e :
  engine_ok e -> NoDup (wf_workflow_id <$> l) ->
  (forall w, w ∈ l -> exists r, find_row (en_repo e) (wf_workflow_id w) = Some r /\ overdue now r = true) ->
  let '(out, e') := expire_all mint now e ac l in
  engine_ok e' /\
  wf_workflow_id <$> out = wf_workflow_id <$> l /\ Forall (fun w => wf_state w = "expired") out /\
  (forall id, id ∈ wf_workflow_id <$> l -> rw_state <$> find_row (en_repo e') id = Some "expired") /\
  (forall id, id ∉ wf_workflow_id <$> l -> find_row (en_repo e') id = find_row (en_repo e) id).
Proof.
  revert e. induction l as [|w l IH]; intros e He Hnd Hl; cbn.
  { split_and!; [done|done|constructor|intros id H; by apply not_elem_of_nil in H|done]. }
  apply NoDup_cons in Hnd as [Hw Hnd]. destruct (Hl w) as (r & Hr & Ho); [set_solver|].
  pose proof (expire_run now e (wf_workflow_id w) ac EXPIRE_NOTES r He Hr Ho) as H1.
  destruct (expire mint now e _ ac _) as [out1 e1].
  destruct H1 as (He1 & (w1 & -> & Hid1 & Hst1) & Hex & Hother).
  pose proof (IH e1 He1 Hnd) as H2. destruct (expire_all mint now e1 ac l) as [out2 e2].
  destruct H2 as (He2 & Hids & Hsts & Hin & Hout).
  { intros w' Hw'. rewrite Hother; [apply Hl; set_solver|]. intros E. apply Hw. rewrite <- E.
    apply list_elem_of_fmap. eauto. }
  split_and!; [done|cbn; by rewrite Hid1, Hids|by constructor| |]; intros id Hid.
  - apply elem_of_cons in Hid as [->|Hid]; [|by apply Hin]. by rewrite Hout.
  - apply not_elem_of_cons in Hid as [Hne Hid]. by rewrite Hout, Hother.
Qed.

(** C21.  Expiry is complete and precise: after [expire_overdue] no workflow
    the engine lists is past its SLA; the workflows returned are exactly the
    ones that were listed as breached, in the order of the list, each now
    expired, in the table too; and every other row is as it was. *)
Theorem expiry_clears_the_overdue tr sla ttl now ac :
  let e := run_ops mint elapsed tr (engine_init sla ttl) in
  let '(out, e') := expire_overdue mint now e ac in
  let ids := wf_workflow_id <$> repo_list_sla_breached now (en_repo e) in
  repo_list_sla_breached now (en_repo e') = [] /\
  wf_workflow_id <$> out = ids /\ Forall (fun w => wf_state w = "expired") out /\
  (forall id, id ∈ ids -> rw_state <$> find_row (en_repo e') id = Some "expired") /\
  (forall id, id ∉ ids -> find_row (en_repo e') id = find_row (en_repo e) id).
Proof.
  intros e. assert (engine_ok e) as He by apply run_ops_ok, engine_init_ok.
  unfold expire_overdue. set (l := repo_list_sla_breached now (en_repo e)).
  pose proof (expire_all_run now ac l e He) as H. destruct (expire_all mint now e ac l) as [out e'].
  destruct He as [Ht _]. pose proof Ht as (Hnd & _ & Hok). rewrite Forall_forall in Hok.
  destruct H as (He' & Hids & Hsts & Hin & Hout).
  { by apply breached_ids_nodup. }
  { intros w (r & Hr & Ho & ->)%elem_of_breached. exists r. split; [|done]. cbn.
    destruct (Hok r Hr) as (-> & _). by apply find_row_elem. }
  split_and!; [|done..].
  destruct (repo_list_sla_breached now (en_repo e')) as [|w l'] eqn:El; [done|exfalso].
  assert (w ∈ repo_list_sla_breached now (en_repo e')) as (r & Hr & Ho & _)%elem_of_breached by (rewrite El; set_solver).
  pose proof Ho as [Haw _]%andb_true_iff.
  pose proof (find_row_elem _ r (proj1 (proj1 He')) Hr) as Hf.
  destruct (decide (rw_workflow_id r ∈ wf_workflow_id <$> l)) as [Hi|Hi].
  - apply Hin in Hi. rewrite Hf in Hi. injection Hi as Hi. by rewrite Hi in Haw.
  - rewrite Hout in Hf by done. apply find_row_Some in Hf as [Hr' _]. destruct Hi.
    apply list_elem_of_fmap. exists (from_json now (rw_full_json r)). destruct (Hok r Hr') as (E & _).
    split; [done|]. apply elem_of_breached. eauto.
Qed.
End theorems.

(** ** Runs of the engine *)

Section examples.
Let mint (n : nat) : string := "wf-" +:+ str_of_int (Z.of_nat n).
Let elapsed (_ : instant) (_ : WorkflowInstance) : string := "61".
Let minute : Z := 60000000.
Let request (t : Z) (d : string) : instant * engine_op :=
  (t, OpCreate d "agent" "tool_call" (fz 1) [] None (Some 60%Z) None (Some "head")).

Let run (tr : list (instant * engine_op)) : Engine := run_ops mint elapsed tr (engine_init 60 (fz 86400)).

(** Two votes of two actors approve; two of one actor do not. *)
Definition two_approvers : list (instant * engine_op) :=
  [request 0 "d1"; (1%Z, OpApprove "wf-0" "alice" "" 2); (2%Z, OpApprove "wf-0" "alice" "" 2);
   (3%Z, OpApprove "wf-0" "bob" "" 2)].

Example one_actor_is_one_vote :
  wf_state <$> repo_get 9 (en_repo (run (take 3 two_approvers))) "wf-0" = Some "pending" /\
  wf_state <$> repo_get 9 (en_repo (run two_approvers)) "wf-0" = Some "approved".
Proof. by vm_compute. Qed.

Lemma approval_needs_quorum_witness :
  exists at_ a n m actors,
    (at_, OpApprove "wf-0" a n m) ∈ two_approvers /\ a ∈ actors /\ NoDup actors /\
    (m <= Z.of_nat (length actors))%Z /\ forall b, b ∈ actors -> voted two_approvers "wf-0" b.
Proof.
  destruct one_actor_is_one_vote as [_ (w & Hst & Hget)%fmap_Some].
  exact (approval_needs_quorum mint elapsed two_approvers 60 (fz 86400) 9 "wf-0" w Hst (eq_sym Hget)).
Defined.

Lemma engine_refines_review_witness :
  let e := engine_init 60 (fz 86400) in
  engine_ok (run_op mint elapsed 0 (request 0 "d1").2 e) /\
  rtc (review_step (request 0 "d1").2) (review_of e) (review_of (run_op mint elapsed 0 (request 0 "d1").2 e)).
Proof. apply (engine_refines_review mint elapsed 0 (request 0 "d1").2), engine_init_ok. Defined.

(** A decided workflow is not protected: a rejected one can be approved. *)
Example rejected_can_be_approved :
  wf_state <$> repo_get 9 (en_repo (run [request 0 "d1"; (1%Z, OpReject "wf-0" "alice" "");
                                         (2%Z, OpApprove "wf-0" "bob" "" 1)])) "wf-0" = Some "approved".
Proof. by vm_compute. Qed.

(** An escalated workflow leaves the review queue: it is no longer listed, does
    not expire and cannot be revoked. *)
Example escalated_leaves_the_queue :
  let e := run [request 0 "d1"; ((61 * minute)%Z, OpMonitor); ((62 * minute)%Z, OpExpireOverdue "system");
                ((62 * minute)%Z, OpRevoke "wf-0" "requester" "")] in
  wf_state <$> repo_get 9 (en_repo e) "wf-0" = Some "escalated" /\
  repo_list_pending 9 (en_repo e) = [].
Proof. by vm_compute. Qed.

(** The time a reviewer acted is lost when the workflow is next read. *)
Example step_times_are_lost :
  let e := run [request 0 "d1"; (1%Z, OpReject "wf-0" "alice" "no")] in
  (fun w => (fun s => (ws_created_at s, ws_completed_at s)) <$> wf_steps w) <$> repo_get 9 (en_repo e) "wf-0" =
    Some [(9%Z, None)].
Proof. by vm_compute. Qed.

(** Only the workflow past its hour expires. *)
Example overdue_expires :
  let e := run [request 0 "d1"; request (30 * minute) "d2"; ((61 * minute)%Z, OpExpireOverdue "system")] in
  rw_state <$> en_repo e = ["expired"; "pending"].
Proof. by vm_compute. Qed.
End examples.
