(* ===== verification/Reports.v ===== *)
(** * What the library reports
      ([domain/action.py], [domain/risk.py], [domain/evidence.py],
       [domain/decision.py], [domain/tenancy.py], [domain/identity.py],
       [app/sealer.py], [app/retention_scheduler.py], [store/repository.py],
       [workflow/workflow_engine.py])

    The [as_evidence] forms of the objects operators and auditors are shown, and
    what can be told from them; the orders of the three graded enumerations; and
    the statistics of the review queue. *)

From stdpp Require Import base tactics list strings gmap.
From Stdlib Require Import ZArith Lia.
From S2P Require Import Prelude PyFloat PyStr Serialization Json Sha256 Merkle Action Identity Risk Decision Config Evidence Sealer AnchorStores Errors Observability Workflow.

Open Scope string_scope.
Open Scope list_scope.

(** ** Graded enumerations *)

(** What a comparison method is given: a member of the class or another object,
    for which it returns [NotImplemented]. *)
Inductive operand (A : Type) :=
| Member (a : A)
| OtherObject.
Arguments Member {A} a.
Arguments OtherObject {A}.

Definition compared {A} (severity : A -> Z) (cmp : Z -> Z -> bool) (a : A) (other : operand A) : option bool :=
  match other with Member b => Some (cmp (severity a) (severity b)) | OtherObject => None end.

(** [ConsequenceClass.__lt__], [__le__], [__ge__]. *)
Definition consequence_lt := compared consequence_severity Z.ltb.
Definition consequence_le := compared consequence_severity Z.leb.
Definition consequence_ge := compared consequence_severity Z.geb.
(** [BlastRadius]. *)
Definition blast_lt := compared blast_severity Z.ltb.
Definition blast_le := compared blast_severity Z.leb.
Definition blast_ge := compared blast_severity Z.geb.
(** [RiskLevel]. *)
Definition risk_lt := compared risk_severity Z.ltb.
Definition risk_le := compared risk_severity Z.leb.
Definition risk_gt := compared risk_severity Z.gtb.
Definition risk_ge := compared risk_severity Z.geb.

(** A grade determines its member. *)
Class Graded {A : Type} (severity : A -> Z) := graded_inj : forall a b, severity a = severity b -> a = b.
#[export] Instance consequence_graded : Graded consequence_severity.
Proof. by intros [] []. Qed.
#[export] Instance blast_graded : Graded blast_severity.
Proof. by intros [] []. Qed.
#[export] Instance risk_graded : Graded risk_severity.
Proof. by intros [] []. Qed.

(** The methods of a graded class are those of one total order, in which
    exactly one of smaller, equal and greater holds. *)
Lemma graded_order {A} (severity : A -> Z) `{!Graded severity} a b :
  let lt x y := compared severity Z.ltb x (Member y) = Some true in
  let le x y := compared severity Z.leb x (Member y) = Some true in
  (le a b <-> lt a b \/ a = b) /\ (lt a b <-> ~ le b a) /\
  (compared severity Z.gtb a (Member b) = Some true <-> lt b a) /\
  (compared severity Z.geb a (Member b) = Some true <-> le b a) /\
  (forall c, le a b -> le b c -> le a c).
Proof.
  assert (Hsome : forall x : bool, Some x = Some true <-> x = true) by (by intros []).
  intros lt le. unfold lt, le, compared. setoid_rewrite Hsome.
  rewrite !Z.ltb_lt, !Z.leb_le, Z.gtb_lt, Z.geb_le. split_and!; [|lia|lia|lia|intros c; rewrite !Z.leb_le; lia].
  split; [|intros [?| ->]; lia]. intros H. destruct (decide (severity a = severity b)) as [E|]; [|left; lia].
  right. by apply (graded_inj (severity := severity)).
Qed.

(** ** Reports *)

(** A class whose [as_evidence] is a dict with these keys, in this order. *)
Class Reported (T : Type) := {
  report : T -> list (string * pyval);
  report_keys : list string;
  report_shape : forall x, map fst (report x) = report_keys;
  report_distinct : NoDup report_keys
}.

Definition or_none {A} (f : A -> pyval) (o : option A) : pyval := match o with Some a => f a | None => PNone end.

(** [EvidenceReceipt]. *)
Definition is_genesis (r : EvidenceReceipt) : bool := (rc_seq r =? 0)%Z.
Definition receipt_as_evidence (r : EvidenceReceipt) : list (string * pyval) :=
  [("decision_id", PStr (rc_decision_id r)); ("segment_id", PStr (rc_segment_id r)); ("seq", PInt (rc_seq r));
   ("record_hmac", PStr (bytes_hex (rc_record_hmac r))); ("signer_key_id", PStr (rc_signer_key_id r));
   ("persisted_at", PFloat (rc_persisted_at r))].

(** [EvidenceSegment]; an empty root is falsy. *)
Definition root_text (root : option bytes) : pyval :=
  match root with Some r => if is_nil r then PNone else PStr (bytes_hex r) | None => PNone end.
Definition segment_as_evidence (s : EvidenceSegment) : list (string * pyval) :=
  [("segment_id", PStr (sg_segment_id s)); ("tenant_id", PStr (sg_tenant_id s)); ("opened_at", PFloat (sg_opened_at s));
   ("sealed_at", or_none PFloat (sg_sealed_at s)); ("first_seq", PInt (sg_first_seq s));
   ("last_seq", or_none PInt (sg_last_seq s));
   ("merkle_root", root_text (sg_merkle_root s));
   ("worm_anchor_id", or_none PStr (sg_worm_anchor_id s)); ("record_count", or_none PInt (record_count s))].

(** [IntegrityReport]. *)
Definition is_acceptable (r : IntegrityReport) : bool := integrity_is_acceptable (ip_status r).
Definition outcome_is_acceptable (r : IntegrityReport) : bool := integrity_is_acceptable (ip_outcome_status r).
Definition integrity_report_as_evidence (r : IntegrityReport) : list (string * pyval) :=
  [("segment_id", PStr (ip_segment_id r)); ("status", PStr (integrity_value (ip_status r)));
   ("records_checked", PInt (ip_records_checked r)); ("verified_at", PFloat (ip_verified_at r));
   ("first_broken_seq", or_none PInt (ip_first_broken_seq r)); ("detail", PStr (ip_detail r));
   ("outcome_status", PStr (integrity_value (ip_outcome_status r)));
   ("outcome_records_checked", PInt (ip_outcome_records_checked r));
   ("first_broken_outcome_seq", or_none PInt (ip_first_broken_outcome_seq r))].

(** [PurgeResult]. *)
Definition purge_result_as_evidence (r : PurgeResult) : list (string * pyval) :=
  [("segment_id", PStr (ps_segment_id r)); ("purged", PInt (ps_purged r)); ("anchor_id", PStr (ps_anchor_id r))].

#[export] Program Instance receipt_reported : Reported EvidenceReceipt :=
  {| report := receipt_as_evidence;
     report_keys := ["decision_id"; "segment_id"; "seq"; "record_hmac"; "signer_key_id"; "persisted_at"] |}.
Next Obligation. done. Qed.
Next Obligation. literal_keys. Qed.
#[export] Program Instance segment_reported : Reported EvidenceSegment :=
  {| report := segment_as_evidence;
     report_keys := ["segment_id"; "tenant_id"; "opened_at"; "sealed_at"; "first_seq"; "last_seq"; "merkle_root";
                     "worm_anchor_id"; "record_count"] |}.
Next Obligation. done. Qed.
Next Obligation. literal_keys. Qed.
#[export] Program Instance integrity_reported : Reported IntegrityReport :=
  {| report := integrity_report_as_evidence;
     report_keys := ["segment_id"; "status"; "records_checked"; "verified_at"; "first_broken_seq"; "detail";
                     "outcome_status"; "outcome_records_checked"; "first_broken_outcome_seq"] |}.
Next Obligation. done. Qed.
Next Obligation. literal_keys. Qed.
#[export] Program Instance purge_reported : Reported PurgeResult :=
  {| report := purge_result_as_evidence; report_keys := ["segment_id"; "purged"; "anchor_id"] |}.
Next Obligation. done. Qed.
Next Obligation. literal_keys. Qed.

(** ** Reports in canonical form *)

(** A value that canonical JSON has a text for without looking inside. *)
Definition plain (v : pyval) : option json :=
  match v with
  | PNone => Some JNull
  | PBool b => Some (JBool b)
  | PInt z => Some (JInt z)
  | PStr s => Some (JStr s)
  | PFloat x => if isfinite x && repr_found x then Some (JFloat x) else None
  | _ => None
  end.

Lemma plain_normalise path v j : plain v = Some j -> normalise path v = Ok j /\ floats_ok j = true /\ keys_distinct j = true /\ sort_keys j = j.
Proof.
  destruct v as [|b|z|x|s| | | | | | |]; cbn; try (intros [= <-]; done); try done.
  destruct (isfinite x && repr_found x) eqn:E; [|done]. intros [= <-]. cbn. rewrite E.
  apply andb_true_iff in E as [-> _]. done.
Qed.

Lemma plain_inj v w j : plain v = Some j -> plain w = Some j -> v = w.
Proof. destruct v, w; cbn; intros H1 H2; repeat case_match; simplify_eq; done. Qed.

Lemma perm_same_keys (l1 l2 : fields) : l1 ≡ₚ l2 -> map fst l1 = map fst l2 -> NoDup (map fst l1) -> l1 = l2.
Proof.
  revert l2. induction l1 as [|[k v] l1 IH]; intros [|[k2 v2] l2] Hp Hk Hn; try done.
  cbn in Hk, Hn. injection Hk as <- Hk. pose proof (get_perm _ _ k Hp Hn) as Hg. cbn in Hg. rewrite String.eqb_refl in Hg.
  injection Hg as <-. f_equal. apply IH; [by apply Permutation_cons_inv in Hp|done|by apply NoDup_cons in Hn as [_ ?]].
Qed.

Section canonical.
Context {T : Type} `{Reported T}.

(** Every float of the report is one the text of which is found. *)
Definition reportable (x : T) : Prop := Forall (fun kv => is_Some (plain kv.2)) (report x).

Lemma reportable_items x : reportable x -> exists items,
  Forall2 (fun kv kj => kj.1 = kv.1 /\ plain kv.2 = Some kj.2) (report x) items.
Proof.
  unfold reportable. induction 1 as [|[k v] l [j Hj] _ [items IH]]; [by exists []|].
  exists ((k, j) :: items). by constructor.
Qed.

Lemma items_normalise x items :
  Forall2 (fun kv kj => kj.1 = kv.1 /\ plain kv.2 = Some kj.2) (report x) items ->
  normalise "$" (pdict (report x)) = Ok (JObj items) /\ map fst items = report_keys /\
  Forall (fun kv => floats_ok kv.2 = true /\ keys_distinct kv.2 = true) items /\
  map (fun kv => (kv.1, sort_keys kv.2)) items = items.
Proof.
  intros HF. split_and!.
  - apply normalise_pdict. exists items. split; [done|]. eapply Forall2_impl; [exact HF|].
    intros [k v] [k' j] [Hk Hp]. split; [done|]. by apply plain_normalise.
  - rewrite <-(report_shape x). induction HF as [|[k v] [k' j] ? ? [Hk _] _ IH]; [done|]. cbn in *. by rewrite Hk, IH.
  - apply Forall_forall. intros kj [i Hi]%list_elem_of_lookup.
    destruct (Forall2_lookup_r _ _ _ _ _ HF Hi) as (kv & _ & _ & Hp). by apply (plain_normalise "$") in Hp as (_ & ? & ? & _).
  - induction HF as [|[k v] [k' j] ? ? [_ Hp] _ IH]; [done|]. cbn in *. rewrite IH.
    apply (plain_normalise "$") in Hp as (_ & _ & _ & ->). done.
Qed.

(** The canonical text of a report read back has its fields, and no other. *)
Lemma report_read_back x : reportable x -> exists text items,
  canonical_json (pdict (report x)) = Ok text /\ loads text = Some (JObj items) /\
  forall k, dict_get items k = (v ← dict_get (report x) k; plain v).
Proof.
  intros (its & HF)%reportable_items. destruct (items_normalise x its HF) as (Hn & Hk & Hv & Hs).
  assert (Hd : NoDup (map fst its)) by (rewrite Hk; apply report_distinct).
  assert (Hfl : floats_ok (JObj its) = true) by (cbn; apply forallb_Forall; eapply Forall_impl; [exact Hv|]; by intros kv [? _]).
  assert (Hkd : keys_distinct (JObj its) = true).
  { cbn. rewrite bool_decide_eq_true_2 by done. apply forallb_Forall. eapply Forall_impl; [exact Hv|]. by intros kv [_ ?]. }
  exists (print canonical_config (sort_keys (JObj its))), (sort_by fst its). split_and!.
  - unfold canonical_json. unfold pdict, pairs_dict in Hn |- *. rewrite Hn. reflexivity.
  - assert (E : sort_keys (JObj its) = JObj (sort_by fst its)) by (cbn [sort_keys]; by rewrite Hs).
    rewrite <-E. apply (loads_print canonical_config "" ""); try done; [by rewrite floats_ok_sort|by apply keys_distinct_sorted].
  - intros k. rewrite (get_perm _ its); [|apply sort_by_perm|by rewrite (Permutation_map fst (sort_by_perm fst its))].
    clear -HF. induction HF as [|[k1 v] [k2 j] l l' [Hk Hp] _ IH]; [done|]. cbn in *. subst k2.
    by destruct (k1 =? k)%string.
Qed.

(** Objects with the same canonical bytes have the same report. *)
Lemma reports_apart x y b :
  reportable x -> reportable y -> canonical_bytes (pdict (report x)) = Ok b -> canonical_bytes (pdict (report y)) = Ok b ->
  report x = report y.
Proof.
  intros (l1 & HF1)%reportable_items (l2 & HF2)%reportable_items H1 H2.
  destruct (items_normalise x l1 HF1) as (Hn1 & Hk1 & Hv1 & Hs1), (items_normalise y l2 HF2) as (Hn2 & Hk2 & Hv2 & Hs2).
  assert (Hfl : forall l, Forall (fun kv => floats_ok kv.2 = true /\ keys_distinct kv.2 = true) l -> floats_ok (JObj l) = true).
  { intros l Hl. cbn. apply forallb_Forall. eapply Forall_impl; [exact Hl|]. by intros kv [? _]. }
  pose proof (canonical_bytes_normal _ _ _ _ b Hn1 Hn2 (Hfl _ Hv1) (Hfl _ Hv2) H1 H2) as E.
  cbn [sort_keys] in E. rewrite Hs1, Hs2 in E. injection E as E.
  assert (l1 = l2) as <-.
  { apply perm_same_keys; [by rewrite <-(sort_by_perm fst l1), E; apply sort_by_perm|by rewrite Hk1|rewrite Hk1; apply report_distinct]. }
  clear -HF1 HF2. revert HF2. generalize (report y). induction HF1 as [|[k v] [k1 j] l l1 [Hk Hp] _ IH]; intros l2 HF2;
    inversion_clear HF2 as [|[k2 w] ? l3 ? [Hk2 Hp2] HF3]; [done|]. cbn in *. subst k1 k2. f_equal; [|by apply IH].
  by rewrite (plain_inj v w j).
Qed.
End canonical.

(** ** What a report tells *)

(** [EvidenceReceipt], [IntegrityReport] and [PurgeResult] are told whole. *)
#[export] Instance receipt_report_inj : Inj (=) (=) (report (T := EvidenceReceipt)).
Proof. intros [] []. cbn. intros [= -> -> -> E -> ->]. by apply bytes_hex_inj in E as ->. Qed.

Lemma or_none_inj {A} (f : A -> pyval) o o' : (forall a, f a <> PNone) -> Inj (=) (=) f -> or_none f o = or_none f o' -> o = o'.
Proof. intros Hf Hi. destruct o, o'; cbn; intros E; [by f_equal; apply Hi|by apply Hf in E|by symmetry in E; apply Hf in E|done]. Qed.
Lemma or_none_int o o' : or_none PInt o = or_none PInt o' -> o = o'.
Proof. apply or_none_inj; [done|]. by intros ?? [=]. Qed.
Lemma or_none_str o o' : or_none PStr o = or_none PStr o' -> o = o'.
Proof. apply or_none_inj; [done|]. by intros ?? [=]. Qed.
Lemma or_none_float o o' : or_none PFloat o = or_none PFloat o' -> o = o'.
Proof. apply or_none_inj; [done|]. by intros ?? [=]. Qed.

Lemma integrity_value_inj a b : integrity_value a = integrity_value b -> a = b.
Proof. by destruct a, b. Qed.

#[export] Instance integrity_report_inj : Inj (=) (=) (report (T := IntegrityReport)).
Proof.
  intros [] []. cbn. intros [= -> E1 -> -> E2 -> E3 -> E4].
  apply integrity_value_inj in E1 as ->, E3 as ->. apply or_none_int in E2 as ->, E4 as ->. done.
Qed.

#[export] Instance purge_report_inj : Inj (=) (=) (report (T := PurgeResult)).
Proof. intros [] []. cbn. by intros [= -> -> ->]. Qed.

(** What is shown of a receipt, a verification or a purge determines it. *)
Lemma reports_determine `{Reported T, !Inj (=) (=) (report (T := T))} (x y : T) b :
  reportable x -> reportable y -> canonical_bytes (pdict (report x)) = Ok b -> canonical_bytes (pdict (report y)) = Ok b ->
  x = y.
Proof. intros Hx Hy H1 H2. eapply inj; [exact _|]. by eapply reports_apart. Qed.

Lemma root_text_inj g g' :
  (forall r, g = Some r -> r <> []) -> (forall r, g' = Some r -> r <> []) -> root_text g = root_text g' -> g = g'.
Proof.
  destruct g as [[|x g]|], g' as [[|x' g']|]; intros Hr Hr' E; try done;
    try (by destruct (Hr [] eq_refl)); try (by destruct (Hr' [] eq_refl)).
  unfold root_text in E. cbn [is_nil] in E. assert (H : bytes_hex (x :: g) = bytes_hex (x' :: g')) by congruence.
  by apply bytes_hex_inj in H as ->.
Qed.

(** A segment is told up to the signature of its root, which the anchor keeps. *)
Lemma segment_report_tells s s' :
  (forall r, sg_merkle_root s = Some r -> r <> []) -> (forall r, sg_merkle_root s' = Some r -> r <> []) ->
  segment_as_evidence s = segment_as_evidence s' ->
  s' = {| sg_segment_id := sg_segment_id s; sg_tenant_id := sg_tenant_id s; sg_opened_at := sg_opened_at s;
          sg_first_seq := sg_first_seq s; sg_sealed_at := sg_sealed_at s; sg_last_seq := sg_last_seq s;
          sg_merkle_root := sg_merkle_root s; sg_seal_signature := sg_seal_signature s';
          sg_worm_anchor_id := sg_worm_anchor_id s |}.
Proof.
  destruct s as [a b c d e f g h i], s' as [a' b' c' d' e' f' g' h' i']. cbn [sg_merkle_root]. intros Hr Hr'.
  unfold segment_as_evidence, record_count. cbn -[root_text]. intros [= -> -> -> E1 -> E2 E3 E4 E5].
  apply or_none_float in E1 as ->. apply or_none_int in E2 as ->. apply or_none_str in E4 as ->.
  by rewrite (root_text_inj g g').
Qed.

(** ** Reports with parts of their own *)

(** [SealResult.as_evidence]: the anchor's fields and two more. *)
Definition seal_result_as_evidence (r : SealResult) : list (string * json) :=
  match anchor_json (sr_anchor r) with JObj items => items | _ => [] end ++
  [("locator", JStr (sr_locator r)); ("leaves_sealed", JInt (sr_leaves_sealed r))].

Definition retention_action_value (a : RetentionAction) : string :=
  match a with SEALED => "sealed" | PURGED => "purged" | SKIPPED => "skipped" | RETENTION_FAILED => "failed" end.

(** [RetentionOutcome.as_evidence], with [str(exc)]. *)
Definition retention_outcome_as_evidence (str_exc : exn -> string) (o : RetentionOutcome) : list (string * pyval) :=
  [("segment_id", PStr (ro_segment_id o)); ("action", PStr (retention_action_value (ro_action o)));
   ("detail", PStr match ro_detail o with Text t => t | OfException e => str_exc e end)].

(** [Approval.as_evidence] and [Approval.is_terminal]. *)
Definition approval_is_terminal (a : Approval) : bool := approval_state_is_terminal (ap_state a).
Definition approval_as_evidence (a : Approval) : list (string * pyval) :=
  [("approval_id", PStr (ap_approval_id a)); ("decision_id", PStr (ap_decision_id a)); ("tenant_id", PStr (ap_tenant_id a));
   ("state", PStr (approval_state_value (ap_state a))); ("rationale", PStr (ap_rationale a));
   ("requested_at", PFloat (ap_requested_at a)); ("reviewed_at", or_none PFloat (ap_reviewed_at a));
   ("reviewed_by", or_none PStr (ap_reviewed_by a)); ("notes", PStr (ap_notes a));
   ("expires_at", or_none PFloat (ap_expires_at a)); ("revoked_at", or_none PFloat (ap_revoked_at a));
   ("action", pdict (action_as_evidence (ap_action a)))].

(** A terminal approval admits no transition, and any transition keeps what the
    evidence says was asked. *)
Lemma transition_keeps_the_request a state actor notes reviewed_at a' :
  approval_transition a state actor notes reviewed_at = Ok a' ->
  approval_is_terminal a = false /\
  forall k, k ∈ ["approval_id"; "decision_id"; "tenant_id"; "rationale"; "requested_at"; "action"] ->
    dict_get (approval_as_evidence a') k = dict_get (approval_as_evidence a) k.
Proof.
  intros (Hs & _ & Hid)%approval_transition_ok. split.
  - unfold approval_is_terminal. apply not_true_iff_false. intros Ht%terminal_no_next. rewrite Ht in Hs. by apply not_elem_of_nil in Hs.
  - injection Hid as E1 E2 E3 E4 E5 E6. intros k Hk.
    repeat (apply elem_of_cons in Hk as [->|Hk]; [cbn; by rewrite ?E1, ?E2, ?E3, ?E4, ?E5, ?E6|]). by apply not_elem_of_nil in Hk.
Qed.

(** [Tenant.create], and [Tenant.as_evidence]: of equal keys of the metadata,
    which a tuple given to the constructor may have, the last value is shown at
    the place of the first. *)
Definition tenant_create (tenant_id display_name : string) (created_at : float) (status : TenantStatus)
    (metadata : pyval) : res Tenant :=
  metadata ← freeze_mapping metadata "metadata";
  mk_Tenant tenant_id display_name status created_at (AsTuple metadata).

Definition dict_of_pairs (l : list (string * pyval)) : list (string * pyval) := foldl (fun d kv => dict_set d kv.1 kv.2) [] l.

Definition tenant_as_evidence (t : Tenant) : list (string * pyval) :=
  [("tenant_id", PStr (tn_tenant_id t)); ("display_name", PStr (tn_display_name t));
   ("status", PStr (tenant_status_value (tn_status t))); ("created_at", PFloat (tn_created_at t));
   ("metadata", pdict (dict_of_pairs (tn_metadata t)))].

Lemma get_elsewhere {A} (l1 l2 : list (string * A)) s a b k :
  k <> s -> dict_get (l1 ++ (s, a) :: l2) k = dict_get (l1 ++ (s, b) :: l2) k.
Proof.
  intros Hk. induction l1 as [|[k' v] l1 IH]; cbn; [|by rewrite IH]. by destruct (String.eqb_spec s k) as [->|].
Qed.

(** A new status shows in the evidence of a tenant, and nothing else does. *)
Lemma status_change_shows t status t' :
  tenant_with_status t status = Ok t' ->
  dict_get (tenant_as_evidence t') "status" = Some (PStr (tenant_status_value status)) /\
  forall k, k <> "status" -> dict_get (tenant_as_evidence t') k = dict_get (tenant_as_evidence t) k.
Proof.
  unfold tenant_with_status, mk_Tenant. intros H. cbn [freeze_pairs] in H. inv_ok. subst t'.
  repeat match goal with
  | H : require_identifier _ _ = Ok _ |- _ => apply require_identifier_valid in H as [-> _]
  | H : require_timestamp _ _ = Ok _ |- _ => apply require_timestamp_ok in H as (-> & _)
  | H : require_non_empty _ _ = Ok _ |- _ => apply require_non_empty_ok in H as [-> _]
  end.
  subst; split; [reflexivity|]. intros k Hk.
  exact (get_elsewhere [("tenant_id", _); ("display_name", _)] [("created_at", _); ("metadata", _)] "status" _ _ k Hk).
Qed.

(** [DelegationChain.of] and [subjects]. *)
Definition delegation_chain_of (hops : list DelegationHop) : res DelegationChain := mk_DelegationChain hops.
Definition chain_subjects (c : DelegationChain) : list string := map hop_subject (hops c).

(** [WorkflowStep.to_dict], with the ISO text of an instant. *)
Definition step_to_dict (iso : instant -> string) (s : WorkflowStep) : list (string * pyval) :=
  [("step_id", PStr (ws_step_id s)); ("workflow_id", PStr (ws_workflow_id s)); ("step_type", PStr (ws_step_type s));
   ("actor", or_none PStr (ws_actor s)); ("notes", PStr (ws_notes s)); ("outcome", PStr (ws_outcome s));
   ("created_at", PStr (iso (ws_created_at s))); ("completed_at", or_none (fun t => PStr (iso t)) (ws_completed_at s))].

(** The audit trail tells steps apart, as far as the texts tell instants apart. *)
Lemma steps_apart iso `{!Inj (=) (=) iso} s s' : step_to_dict iso s = step_to_dict iso s' -> s = s'.
Proof.
  destruct s, s'. unfold step_to_dict. cbn. intros [= -> -> -> E1 -> -> E2 E3]. apply or_none_str in E1 as ->. apply (inj iso) in E2 as ->.
  apply or_none_inj in E3 as ->; [done|done|]. by intros ?? [= ?%(inj iso)].
Qed.

(** ** The review queue *)

(** [_count_by]; a missing or empty attribute counts as unassigned. *)
Fixpoint count_key (counts : list (string * Z)) (key : string) : list (string * Z) :=
  match counts with
  | [] => [(key, 1%Z)]
  | (k, n) :: rest => if (k =? key)%string then (k, n + 1)%Z :: rest else (k, n) :: count_key rest key
  end.
Definition attr_key (attr : WorkflowInstance -> option string) (w : WorkflowInstance) : string :=
  str_or (default "" (attr w)) "unassigned".
Definition count_by (workflows : list WorkflowInstance) (attr : WorkflowInstance -> option string) : list (string * Z) :=
  foldl (fun counts w => count_key counts (attr_key attr w)) [] workflows.

Definition elapsed_minutes (now : instant) (w : WorkflowInstance) : float :=
  fdiv (total_seconds (now - wf_created_at w)) (fz 60).

(** [max] keeps the first of equal values. *)
Definition py_max (best : float) (rest : list float) : float := foldl (fun m x => if fgt x m then x else m) best rest.
Definition oldest_minutes (now : instant) (workflows : list WorkflowInstance) : option float :=
  match map (elapsed_minutes now) workflows with [] => None | x :: rest => Some (py_max x rest) end.

Record QueueStats := {
  qs_total_pending : Z;
  qs_sla_breached : Z;
  qs_by_decision_type : list (string * Z);
  qs_by_assigned_to : list (string * Z);
  qs_oldest_pending_minutes : option float
}.

Definition queue_stats (now : instant) (e : Engine) : QueueStats :=
  let pending := repo_list_pending now (en_repo e) in
  {| qs_total_pending := Z.of_nat (length pending);
     qs_sla_breached := Z.of_nat (length (List.filter (is_sla_breached now) pending));
     qs_by_decision_type := count_by pending (fun w => Some (wf_decision_type w));
     qs_by_assigned_to := count_by pending wf_assigned_to;
     qs_oldest_pending_minutes := oldest_minutes now pending |}.

Lemma count_key_get counts key k :
  dict_get (count_key counts key) k = if (key =? k)%string then Some (default 0 (dict_get counts key) + 1)%Z else dict_get counts k.
Proof.
  induction counts as [|[k' n] counts IH]; cbn; [done|].
  destruct (String.eqb_spec k' key) as [->|Hk']; cbn; [by destruct (key =? k)%string|].
  rewrite IH. destruct (String.eqb_spec k' k) as [->|], (String.eqb_spec key k) as [->|]; try done.
Qed.

Lemma count_key_total counts key : foldr Z.add 0%Z (map snd (count_key counts key)) = (foldr Z.add 0 (map snd counts) + 1)%Z.
Proof. induction counts as [|[k n] counts IH]; cbn; [done|]. destruct (k =? key)%string; cbn; [lia|]. rewrite IH. lia. Qed.

Definition counted (key : string) (keys : list string) : Z := Z.of_nat (length (List.filter (String.eqb key) keys)).

(** Each key counts the workflows that have it, keys that none has are left
    out, and the counts add up to all of them. *)
Lemma count_by_spec workflows attr :
  (forall k, dict_get (count_by workflows attr) k =
     let n := counted k (map (attr_key attr) workflows) in if (n =? 0)%Z then None else Some n) /\
  foldr Z.add 0%Z (map snd (count_by workflows attr)) = Z.of_nat (length workflows).
Proof.
  induction workflows as [|w ws [IH IHs]] using rev_ind; [done|]. unfold count_by in *. rewrite foldl_app. cbn. split.
  - intros k. rewrite count_key_get, !IH. cbn zeta. unfold counted. rewrite map_app, List.filter_app, length_app. cbn.
    rewrite (String.eqb_sym k). destruct (String.eqb_spec (attr_key attr w) k) as [->|]; cbn; [|by rewrite Nat.add_0_r].
    destruct (Z.eqb_spec (Z.of_nat (length (List.filter (String.eqb k) (map (attr_key attr) ws)))) 0) as [E|E]; cbn;
      rewrite (proj2 (Z.eqb_neq _ _)) by lia; f_equal; lia.
  - rewrite count_key_total, IHs, length_app. cbn. lia.
Qed.

Lemma py_max_spec best rest :
  Forall (fun x => is_nan x = false) (best :: rest) ->
  py_max best rest ∈ best :: rest /\ Forall (fun x => fle x (py_max best rest) = true) (best :: rest).
Proof.
  revert best. induction rest as [|x rest IH]; intros best [Hb Hr]%Forall_cons;
    [|change (py_max best (x :: rest)) with (py_max (if fgt x best then x else best) rest)].
  - split; [by left|]. constructor; [by apply fle_refl|done].
  - apply Forall_cons in Hr as [Hx Hr]. destruct (fgt x best) eqn:E.
    + destruct (IH x) as [Hin Hall]; [by constructor|]. split; [by right|]. pose proof Hall as [H1 _]%Forall_cons.
      constructor; [|done]. rewrite fgt_flt in E. eapply fle_trans; [by apply flt_fle|exact H1].
    + destruct (IH best) as [Hin Hall]; [by constructor|]. apply Forall_cons in Hall as [H1 Hall].
      split; [apply elem_of_cons in Hin as [Hin|Hin]; apply elem_of_cons; [by left|right; by right]|].
      apply Forall_cons; split; [done|]. apply Forall_cons; split; [|done].
      rewrite fgt_flt in E. eapply fle_trans; [|exact H1]. by apply flt_false_fle.
Qed.

(** The statistics of the queue: all that waits, those of them past their SLA,
    each decision type and reviewer with how many it has, and the longest that
    anyone has waited, which nobody has where nothing waits. *)
Lemma queue_stats_tell now e :
  let pending := repo_list_pending now (en_repo e) in
  let st := queue_stats now e in
  qs_total_pending st = Z.of_nat (length pending) /\
  qs_sla_breached st = Z.of_nat (length (repo_list_sla_breached now (en_repo e))) /\
  (qs_sla_breached st <= qs_total_pending st)%Z /\
  foldr Z.add 0%Z (map snd (qs_by_decision_type st)) = qs_total_pending st /\
  foldr Z.add 0%Z (map snd (qs_by_assigned_to st)) = qs_total_pending st /\
  (qs_oldest_pending_minutes st = None <-> pending = []) /\
  (Forall (fun w => is_nan (elapsed_minutes now w) = false) pending ->
   forall m, qs_oldest_pending_minutes st = Some m ->
     (exists w, w ∈ pending /\ m = elapsed_minutes now w) /\ Forall (fun w => fle (elapsed_minutes now w) m = true) pending).
Proof.
  intros pending st. unfold st, queue_stats. fold pending. cbn. split_and!; try done.
  - apply inj_le, List.filter_length_le.
  - apply count_by_spec.
  - apply count_by_spec.
  - unfold oldest_minutes. by destruct pending.
  - intros Hn m. unfold oldest_minutes. destruct (map _ pending) as [|x rest] eqn:E; [done|]. intros [= <-].
    destruct (py_max_spec x rest) as [Hin Hall]; [rewrite <-E; by apply Forall_map|]. rewrite <-E in Hin, Hall.
    apply list_elem_of_fmap in Hin as (w & Em & Hw). split; [by exists w|]. by apply Forall_map in Hall.
Qed.

(** Two waiting, one of them assigned. *)
Definition queue_of_two : Engine :=
  {| en_repo := map (fun w => {| rw_workflow_id := wf_workflow_id w; rw_decision_id := wf_decision_id w; rw_state := "pending";
                                 rw_created_at := wf_created_at w; rw_full_json := w |})
       [mk_WorkflowInstance 0 "w1" "d1" "a" "pay" (fz 50) [] 60 (Some "ann") None;
        mk_WorkflowInstance 60000000 "w2" "d2" "a" "pay" (fz 50) [] 1 None None];
     en_minted := 2; en_default_sla_minutes := 60; en_quorum_state := ∅; en_quorum_entry_ttl_s := fz 3600 |}.
Example queue_of_two_stats : queue_stats 300000000 queue_of_two =
  {| qs_total_pending := 2; qs_sla_breached := 1; qs_by_decision_type := [("pay", 2%Z)];
     qs_by_assigned_to := [("ann", 1%Z); ("unassigned", 1%Z)]; qs_oldest_pending_minutes := Some (fz 5) |}.
Proof. vm_compute. reflexivity. Qed.

Definition reported_receipt : EvidenceReceipt :=
  {| rc_decision_id := "d1"; rc_segment_id := "s1"; rc_seq := 0; rc_record_hmac := repeat Byte.xaa 32;
     rc_signer_key_id := "k1"; rc_persisted_at := fz 5 |}.
Example reported_receipt_is_genesis : is_genesis reported_receipt = true /\ reportable reported_receipt.
Proof. split; [done|]. repeat constructor; eexists; vm_compute; reflexivity. Qed.
