(* ===== verification/ApprovalService.v ===== *)
(** * The approval service ([glassbox/app/approval_service.py])

    The service over the workflow engine of [Workflow], with the engine as the
    composed runtime holds it: attached or not.  It reads a workflow by its
    decision, has the engine act on it, and shows the outcome as an approval
    state of the domain. *)

From stdpp Require Import base tactics list strings gmap relations.
From Stdlib Require Import ZArith Lia.
From S2P Require Import Prelude PyFloat PyStr Serialization Action Identity Decision Workflow.

Open Scope string_scope.
Open Scope list_scope.

Record ApprovalRecord := {
  ar_decision_id : string;
  ar_workflow_id : string;
  ar_state : ApprovalState;
  ar_assigned_to : option string;
  ar_escalate_to : option string;
  ar_sla_breached : bool;
  ar_step_count : nat
}.

Definition ApprovalRecord_as_evidence (a : ApprovalRecord) : json :=
  JObj [("decision_id", JStr (ar_decision_id a)); ("workflow_id", JStr (ar_workflow_id a));
        ("state", JStr (approval_state_value (ar_state a)));
        ("assigned_to", from_option JStr JNull (ar_assigned_to a));
        ("escalate_to", from_option JStr JNull (ar_escalate_to a));
        ("sla_breached", JBool (ar_sla_breached a));
        ("step_count", JInt (Z.of_nat (ar_step_count a)))].

Definition TERMINAL_STATE_MAP : list (string * ApprovalState) :=
  [("approved", APPROVED); ("rejected", REJECTED); ("expired", APPROVAL_EXPIRED);
   ("revoked", APPROVAL_REVOKED)].

Definition project_state (state : string) : ApprovalState :=
  match (list_to_map TERMINAL_STATE_MAP : gmap string ApprovalState) !! state with
  | Some s => s
  | None => if (state =? "pending")%string then APPROVAL_PENDING else IN_REVIEW
  end.

Definition project (now : instant) (workflow : WorkflowInstance) : ApprovalRecord :=
  {| ar_decision_id := wf_decision_id workflow;
     ar_workflow_id := wf_workflow_id workflow;
     ar_state := project_state (wf_state workflow);
     ar_assigned_to := wf_assigned_to workflow;
     ar_escalate_to := wf_escalate_to workflow;
     ar_sla_breached := is_sla_breached now workflow;
     ar_step_count := length (wf_steps workflow) |}.

(** [self._runtime.workflow_engine]. *)
Abbreviation wired := (option Engine).

Definition require_engine (en : wired) : res Engine :=
  match en with Some e => Ok e | None => Raise ApprovalGatewayUnavailableError end.

(** The reading part that [approve], [reject], [escalate] and [revoke] share. *)
Definition find_workflow (now : instant) (en : wired) (decision_id actor : string)
    : res (Engine * WorkflowInstance) :=
  engine ← require_engine en;
  decision_id ← require_identifier decision_id "decision_id";
  match repo_get_by_decision now (en_repo engine) decision_id with
  | None => Raise ApprovalNotFoundError
  | Some workflow => _ ← require_non_empty actor "actor"; Ok (engine, workflow)
  end.

(** [self._project(updated or workflow)]. *)
Definition shown (now : instant) (workflow : WorkflowInstance)
    (r : option WorkflowInstance * Engine) : res ApprovalRecord * wired :=
  (Ok (project now (default workflow r.1)), Some r.2).

Section service.
Context (mint : nat -> string).

Definition service_approve (now : instant) (en : wired) (decision_id actor notes : string)
    (min_approvers : Z) : res ApprovalRecord * wired :=
  match find_workflow now en decision_id actor with
  | Raise x => (Raise x, en)
  | Ok (engine, workflow) =>
      shown now workflow (approve mint now engine (wf_workflow_id workflow) actor notes min_approvers)
  end.

Definition service_reject (now : instant) (en : wired) (decision_id actor notes : string)
    : res ApprovalRecord * wired :=
  match find_workflow now en decision_id actor with
  | Raise x => (Raise x, en)
  | Ok (engine, workflow) =>
      shown now workflow (reject mint now engine (wf_workflow_id workflow) actor notes)
  end.

Definition service_escalate (now : instant) (en : wired) (decision_id actor escalate_to notes : string)
    : res ApprovalRecord * wired :=
  match ew ← find_workflow now en decision_id actor;
        _ ← require_identifier escalate_to "escalate_to"; Ok ew with
  | Raise x => (Raise x, en)
  | Ok (engine, workflow) =>
      shown now workflow (escalate mint now engine (wf_workflow_id workflow) actor escalate_to notes)
  end.

(** The engine has a [revoke] and an [expire_overdue]. *)
Definition service_revoke (now : instant) (en : wired) (decision_id actor notes : string)
    : res ApprovalRecord * wired :=
  match find_workflow now en decision_id actor with
  | Raise x => (Raise x, en)
  | Ok (engine, workflow) =>
      shown now workflow (revoke mint now engine (wf_workflow_id workflow) actor notes)
  end.

Definition service_expire_overdue (now : instant) (en : wired) (actor : string)
    : res (list ApprovalRecord) * wired :=
  match require_engine en with
  | Raise x => (Raise x, en)
  | Ok engine =>
      let '(expired, engine) := expire_overdue mint now engine actor in
      (Ok (map (project now) expired), Some engine)
  end.

Definition get_status (now : instant) (en : wired) (decision_id : string) : res (option ApprovalRecord) :=
  engine ← require_engine en;
  decision_id ← require_identifier decision_id "decision_id";
  Ok (project now <$> repo_get_by_decision now (en_repo engine) decision_id).

Definition list_pending (now : instant) (en : wired) : res (list ApprovalRecord) :=
  engine ← require_engine en;
  Ok (map (project now) (repo_list_pending now (en_repo engine))).
End service.

(** ** The domain's life cycle *)

Definition next_state (s s' : ApprovalState) : Prop := s' ∈ valid_next_states s.

(** The engine states an operation can put a known workflow in. *)
Definition engine_targets : list string :=
  ["in_review"; "escalated"; "approved"; "rejected"; "expired"; "revoked"].

Lemma next_state_target st st' :
  approval_state_is_terminal (project_state st) = false -> st' ∈ engine_targets ->
  rtc next_state (project_state st) (project_state st').
Proof.
  intros Hnt Hin. assert (rtc next_state (project_state st) IN_REVIEW) as Hr.
  { destruct (project_state st); try done. apply rtc_once. unfold next_state. cbn. set_solver. }
  assert (IN_REVIEW = project_state st' \/ next_state IN_REVIEW (project_state st')) as [<-|H].
  { set_unfold in Hin. unfold next_state. destruct_or! Hin; subst st'; vm_compute project_state; cbn; set_solver. }
  - done.
  - by eapply rtc_r.
Qed.

Lemma step_target op s s' id st :
  review_step op s s' -> rv_state s !! id = Some st ->
  exists st', rv_state s' !! id = Some st' /\ (st' = st \/ st' ∈ engine_targets).
Proof.
  intros Hs Hst.
  assert (forall i st0, st0 ∈ engine_targets -> exists st', <[i := st0]> (rv_state s) !! id = Some st' /\
            (st' = st \/ st' ∈ engine_targets)) as Hins.
  { intros i st0 Hin. rewrite lookup_insert. destruct decide; eauto. }
  destruct Hs as [i d a ty rs vs ws sla asg esc _ Hnone | | | i a n m _ _ _ _ | i st0 Hop _ | i cur st0 Hop _ _];
    cbn; eauto.
  - exists st. rewrite lookup_insert_ne; [eauto|]. intros ->. congruence.
  - apply Hins. set_solver.
  - apply Hins. destruct op; cbn in Hop; destruct_and?; try done; subst; set_solver.
  - apply Hins. destruct op; cbn in Hop; destruct_and?; try done; subst; set_solver.
Qed.

Lemma steps_target op s s' id st :
  rtc (review_step op) s s' -> rv_state s !! id = Some st ->
  exists st', rv_state s' !! id = Some st' /\ (st' = st \/ st' ∈ engine_targets).
Proof.
  intros Hrun. revert st. induction Hrun as [|x y z Hs _ IH]; intros st Hst; [eauto|].
  destruct (step_target op x y id st Hs Hst) as (st1 & H1 & Hor). destruct (IH st1 H1) as (st2 & H2 & Hor2).
  exists st2. split; [done|]. destruct Hor2 as [->|?]; [done|by right].
Qed.

(** The operations that act only on a workflow awaiting review, or on none. *)
Definition guarded (op : engine_op) : bool :=
  match op with
  | OpStartReview _ _ _ | OpApprove _ _ _ _ | OpReject _ _ _ | OpEscalate _ _ _ _ => false
  | _ => true
  end.

Lemma guarded_steps_fixed op s s' id st :
  rtc (review_step op) s s' -> guarded op = true -> awaits_review st = false ->
  rv_state s !! id = Some st -> rv_state s' !! id = Some st.
Proof.
  intros Hrun Hg Haw. induction Hrun as [|x y z Hs _ IH]; [done|]. intros Hst. apply IH.
  destruct Hs as [i d a ty rs vs ws sla asg esc _ Hnone | | | i a n m -> _ _ _ | i st0 Hop _ | i cur st0 Hop Hcur Hc];
    cbn; try done.
  - rewrite lookup_insert_ne; [done|]. intros ->. congruence.
  - destruct op; done.
  - rewrite lookup_insert_ne; [done|]. intros ->. congruence.
Qed.

Section lifecycle.
Context (mint : nat -> string) (elapsed : instant -> WorkflowInstance -> string).

Lemma run_op_state now op e id w :
  engine_ok e -> repo_get now (en_repo e) id = Some w ->
  exists w', repo_get now (en_repo (run_op mint elapsed now op e)) id = Some w' /\
    (wf_state w' = wf_state w \/ wf_state w' ∈ engine_targets) /\
    (guarded op = true -> awaits_review (wf_state w) = false -> wf_state w' = wf_state w).
Proof.
  intros He Hget. destruct (run_op_keeps mint elapsed now op e He) as [He' Hrun].
  pose proof (review_present now e id w He Hget) as Hst.
  destruct (steps_target _ _ _ _ _ Hrun Hst) as (st' & Hst' & Hor).
  cbn in Hst'. rewrite review_lookup in Hst'. apply fmap_Some in Hst' as (r & Hr & ->).
  assert (repo_get now (en_repo (run_op mint elapsed now op e)) id = Some (from_json now (rw_full_json r))) as Hget'
    by (apply repo_get_Some; eauto).
  eexists. split; [exact Hget'|].
  destruct (repo_get_ok now _ _ _ (proj1 He') Hget') as [_ E]. rewrite Hr in E. injection E as E.
  change (wf_state (from_json now (rw_full_json r))) with (wf_state (rw_full_json r)).
  rewrite <- E. split; [done|]. intros Hg Haw.
  pose proof (guarded_steps_fixed _ _ _ _ _ Hrun Hg Haw Hst) as H. cbn in H.
  rewrite review_lookup, Hr in H. by injection H.
Qed.

(** The engine's states follow the approval life cycle of the domain: a
    workflow whose approval is not yet terminal is still there after any
    operation of the engine, on it or on another, and the approval state the
    service shows for it is the one before or reached from it along
    [valid_next_states].  Creation, comments, expiry, revocation and the SLA
    monitor never touch a workflow that was decided or escalated. *)
Theorem review_follows_life_cycle now op e id w :
  engine_ok e -> repo_get now (en_repo e) id = Some w ->
  exists w', repo_get now (en_repo (run_op mint elapsed now op e)) id = Some w' /\
    (approval_state_is_terminal (ar_state (project now w)) = false ->
       rtc next_state (ar_state (project now w)) (ar_state (project now w'))) /\
    (guarded op = true -> awaits_review (wf_state w) = false -> wf_state w' = wf_state w).
Proof.
  intros He Hget. destruct (run_op_state now op e id w He Hget) as (w' & Hget' & Hor & Hg).
  exists w'. split_and!; [done| |done]. intros Hnt. cbn in *.
  destruct Hor as [->|Hin]; [done|]. by apply next_state_target.
Qed.
End lifecycle.

(** ** Reading back what was written *)

Lemma project_reload now w : project now (from_json now (to_json w)) = project now w.
Proof. unfold project. cbn. by rewrite length_map. Qed.

(** What a call of the engine on workflow [id] must give the service: the
    record it is shown is the one the table now holds. *)
Definition shows (now : instant) (e : Engine) (id : string) (w : WorkflowInstance)
    (r : option WorkflowInstance * Engine) : Prop :=
  same_decisions (en_repo e) (en_repo r.2) /\
  exists w', repo_get now (en_repo r.2) id = Some w' /\ project now w' = project now (default w r.1).

Lemma update_shows now e e' id inst w :
  engine_ok e -> repo_get now (en_repo e) id = Some inst -> wf_identity w = wf_identity inst ->
  en_repo e' = repo_update now (en_repo e) w -> shows now e id inst (Some (wf_with_updated w now), e').
Proof.
  intros He Hget Hid Ee. destruct (repo_get_ok now _ _ _ (proj1 He) Hget) as [Hw _].
  split; cbn; rewrite Ee; [apply update_same_decisions|].
  eexists. split; [eapply repo_get_update; [done|]|by apply project_reload].
  unfold wf_identity in Hid. congruence.
Qed.

Section reads.
Context (mint : nat -> string).

Lemma transition_shows now e id ty ac n new out inst :
  engine_ok e -> repo_get now (en_repo e) id = Some inst ->
  shows now e id inst (transition mint now e id ty ac n new out).
Proof.
  intros He Hget. unfold transition. rewrite Hget. eapply update_shows; [done|done| |done].
  destruct (new =? "in_review")%string; unfold add_step;
    repeat (destruct (ws_outcome _ =? _)%string; [done|]); done.
Qed.

Lemma escalate_shows now e id ac to n inst :
  engine_ok e -> repo_get now (en_repo e) id = Some inst ->
  shows now e id inst (escalate mint now e id ac to n).
Proof. intros He Hget. unfold escalate. rewrite Hget. by eapply update_shows. Qed.

Lemma revoke_shows now e id ac n inst :
  engine_ok e -> repo_get now (en_repo e) id = Some inst ->
  shows now e id inst (revoke mint now e id ac n).
Proof.
  intros He Hget. unfold revoke. rewrite Hget.
  destruct (awaits_review (wf_state inst)); [by apply transition_shows|].
  split; [done|]. by exists inst.
Qed.

Lemma transition_same_decisions now e id ty ac n new out :
  same_decisions (en_repo e) (en_repo (transition mint now e id ty ac n new out).2).
Proof.
  unfold transition. destruct (repo_get now (en_repo e) id); [|done]. apply update_same_decisions.
Qed.

Lemma approve_same_decisions now e id ac n m :
  same_decisions (en_repo e) (en_repo (approve mint now e id ac n m).2).
Proof.
  unfold approve. destruct (record_vote now e id ac) as [actors e1] eqn:Hv.
  assert (en_repo e1 = en_repo e) as <- by (unfold record_vote in Hv; by simplify_eq).
  destruct (repo_get now (en_repo e1) id) as [inst|]; [|done]. cbn [snd].
  destruct (_ <=? _)%Z; [|apply update_same_decisions].
  pose proof (transition_same_decisions now e1 id "approve" ac
    ("Quorum reached (" +:+ str_of_int (Z.of_nat (length actors)) +:+ "/" +:+ str_of_int m +:+ "). " +:+ n)
    "approved" "approved") as Ht.
  destruct (transition mint now e1 id _ ac _ _ _) as [[w|] e2]; [|done].
  etrans; [done|]. apply update_same_decisions.
Qed.

Lemma approve_shows now e id ac n m inst :
  engine_ok e -> repo_get now (en_repo e) id = Some inst ->
  shows now e id inst (approve mint now e id ac n m).
Proof.
  intros He Hget. split; [apply approve_same_decisions|].
  destruct (run_op_state mint (fun _ _ => "") now (OpApprove id ac n m) e id inst He Hget) as (w' & Hget' & _).
  cbn [run_op] in Hget'. exists w'. split; [done|].
  replace (approve mint now e id ac n m).1 with (repo_get now (en_repo (approve mint now e id ac n m).2) id).
  { by rewrite Hget'. }
  clear Hget'. unfold approve. destruct (record_vote now e id ac) as [actors e1] eqn:Hv.
  assert (en_repo e1 = en_repo e) as -> by (unfold record_vote in Hv; by simplify_eq).
  by rewrite Hget.
Qed.
End reads.

(** ** What a caller sees *)

Inductive approval_call :=
| SApprove (decision_id actor notes : string) (min_approvers : Z)
| SReject (decision_id actor notes : string)
| SEscalate (decision_id actor escalate_to notes : string)
| SRevoke (decision_id actor notes : string).

Definition call_decision (c : approval_call) : string :=
  match c with SApprove d _ _ _ | SReject d _ _ | SEscalate d _ _ _ | SRevoke d _ _ => d end.
Definition call_actor (c : approval_call) : string :=
  match c with SApprove _ a _ _ | SReject _ a _ | SEscalate _ a _ _ | SRevoke _ a _ => a end.

Section calls.
Context (mint : nat -> string).

Definition run_call (now : instant) (c : approval_call) (en : wired) : res ApprovalRecord * wired :=
  match c with
  | SApprove d a n m => service_approve mint now en d a n m
  | SReject d a n => service_reject mint now en d a n
  | SEscalate d a to n => service_escalate mint now en d a to n
  | SRevoke d a n => service_revoke mint now en d a n
  end.


(** Why a call is refused, the first reason in the order of the service. *)
Definition refusal (now : instant) (en : wired) (c : approval_call) : option exn :=
  match en with
  | None => Some ApprovalGatewayUnavailableError
  | Some e =>
      if negb (is_ok (require_identifier (call_decision c) "decision_id")) then Some (DomainValidationError "decision_id")
      else match repo_get_by_decision now (en_repo e) (call_decision c) with
           | None => Some ApprovalNotFoundError
           | Some _ =>
               if is_blank (call_actor c) then Some (DomainValidationError "actor")
               else match c with
                    | SEscalate _ _ to _ =>
                        if is_ok (require_identifier to "escalate_to") then None else Some (DomainValidationError "escalate_to")
                    | _ => None
                    end
           end
  end.

(** The operation of the engine a call asks for, on the workflow it found. *)
Definition requested (c : approval_call) (id : string) : engine_op :=
  match c with
  | SApprove _ a n m => OpApprove id a n m
  | SReject _ a n => OpReject id a n
  | SEscalate _ a to n => OpEscalate id a to n
  | SRevoke _ a n => OpRevoke id a n
  end.

Lemma require_identifier_raise v f x : require_identifier v f = Raise x -> x = DomainValidationError f.
Proof.
  unfold require_identifier, require_non_empty, mbind, res_bind. destruct (is_blank v); [by intros [= <-]|].
  destruct (MAX_IDENTIFIER_LENGTH <? String.length v)%nat; [by intros [= <-]|].
  destruct (negb (identifier_match v)); [by intros [= <-]|done].
Qed.

Lemma find_workflow_ok now en d a e w :
  find_workflow now en d a = Ok (e, w) ->
  en = Some e /\ require_identifier d "decision_id" = Ok d /\
  repo_get_by_decision now (en_repo e) d = Some w /\ is_blank a = false.
Proof.
  unfold find_workflow, require_non_empty. destruct en as [e'|]; cbn; [|done].
  destruct (require_identifier d "decision_id") as [d'|] eqn:Hd; cbn; [|done].
  apply require_identifier_ok in Hd as Hd'. destruct Hd' as [-> _].
  destruct (repo_get_by_decision now (en_repo e') d) eqn:Hg; cbn; [|done].
  destruct (is_blank a); cbn; [done|]. intros [= -> ->]. done.
Qed.

Lemma find_workflow_refused now en c x :
  find_workflow now en (call_decision c) (call_actor c) = Raise x -> refusal now en c = Some x.
Proof.
  unfold find_workflow, refusal, require_non_empty. destruct en as [e|]; cbn; [|by intros [= <-]].
  destruct (require_identifier _ "decision_id") as [d|y] eqn:Hd; cbn.
  - apply require_identifier_ok in Hd as [-> _].
    destruct (repo_get_by_decision now (en_repo e) _); cbn; [|by intros [= <-]].
    destruct (is_blank (call_actor c)); cbn; [by intros [= <-]|done].
  - intros [= <-]. by apply require_identifier_raise in Hd as ->.
Qed.

(** A call of the service is a call of the engine on the workflow it found. *)
Lemma found_shows now e d w r :
  engine_ok e -> engine_ok r.2 -> require_identifier d "decision_id" = Ok d ->
  repo_get_by_decision now (en_repo e) d = Some w ->
  shows now e (wf_workflow_id w) w r ->
  exists rec, shown now w r = (Ok rec, Some r.2) /\ ar_decision_id rec = d /\
    get_status now (Some r.2) d = Ok (Some rec).
Proof.
  intros He Hr Hd Hg [Hsame (w' & Hget & Hp)]. eexists. split; [done|].
  destruct (proj1 (repo_get_both now _ (wf_workflow_id w) d w (proj1 He)) (conj Hg eq_refl)) as [Hget0 Hdw].
  destruct (repo_get_ok now _ _ _ (proj1 Hr) Hget) as [Hid _].
  assert (wf_decision_id w' = d) as Hdw'.
  { specialize (Hsame (wf_workflow_id w)).
    apply repo_get_Some in Hget as (r' & Hr' & ->). apply repo_get_Some in Hget0 as (r0 & Hr0 & E0).
    rewrite Hr', Hr0 in Hsame. injection Hsame as Hsame. cbn.
    destruct He as [(_ & _ & Hok0) _], Hr as [(_ & _ & Hok1) _]. rewrite Forall_forall in Hok0, Hok1.
    apply find_row_Some in Hr' as [Hin' _]. apply find_row_Some in Hr0 as [Hin0 _].
    destruct (Hok0 _ Hin0) as (_ & E1 & _), (Hok1 _ Hin') as (_ & E2 & _).
    rewrite E2, Hsame, <- E1. rewrite E0 in Hdw. exact Hdw. }
  destruct (proj2 (repo_get_both now _ (wf_workflow_id w) d w' (proj1 Hr)) (conj Hget Hdw')) as [Hg' _].
  rewrite <- Hp. split; [done|]. unfold get_status. cbn. rewrite Hd. cbn. by rewrite Hg'.
Qed.

(** What the service promises for one call: it is refused exactly when there is
    a reason, and otherwise it is the engine's operation on the workflow of the
    decision. *)
Definition answered (now : instant) (c : approval_call) (en : wired) (r : res ApprovalRecord * wired) : Prop :=
  match refusal now en c with
  | Some x => r = (Raise x, en)
  | None => exists e w rec,
      en = Some e /\ repo_get_by_decision now (en_repo e) (call_decision c) = Some w /\
      r = (Ok rec, Some (run_op mint (fun _ _ => "") now (requested c (wf_workflow_id w)) e)) /\
      ar_decision_id rec = call_decision c /\ get_status now r.2 (call_decision c) = Ok (Some rec)
  end.

Lemma found_answered now c e w r :
  engine_ok e -> engine_ok r.2 -> require_identifier (call_decision c) "decision_id" = Ok (call_decision c) ->
  repo_get_by_decision now (en_repo e) (call_decision c) = Some w -> refusal now (Some e) c = None ->
  r.2 = run_op mint (fun _ _ => "") now (requested c (wf_workflow_id w)) e ->
  (repo_get now (en_repo e) (wf_workflow_id w) = Some w -> shows now e (wf_workflow_id w) w r) ->
  answered now c (Some e) (shown now w r).
Proof.
  intros He Hr Hd Hg Href Hop Hs. unfold answered. rewrite Href.
  destruct (proj1 (repo_get_both now _ (wf_workflow_id w) _ w (proj1 He)) (conj Hg eq_refl)) as [Hget _].
  destruct (found_shows now e _ w r He Hr Hd Hg (Hs Hget)) as (rec & E & Hrec & Hst).
  exists e, w, rec. rewrite E, <-Hop. by split_and!.
Qed.

End calls.

(** ** Witnesses *)

Definition review_mint (n : nat) : string := "wf-" +:+ str_of_int (Z.of_nat n).
Definition sample_engine : Engine :=
  run_ops review_mint (fun _ _ => "") [(0%Z, OpCreate "d1" "agent" "tool_call" (fz 1) [] None None None None)]
    (engine_init 60 (fz 86400)).


Lemma review_follows_life_cycle_witness :
  exists w w', repo_get 5 (en_repo sample_engine) "wf-0" = Some w /\
    repo_get 5 (en_repo (run_op review_mint (fun _ _ => "") 5 (OpApprove "wf-0" "alice" "" 1) sample_engine)) "wf-0" = Some w' /\
    rtc next_state (ar_state (project 5 w)) (ar_state (project 5 w')).
Proof.
  assert (wf_state <$> repo_get 5 (en_repo sample_engine) "wf-0" = Some "pending") as (w & Hget & Hst)%fmap_Some
    by by vm_compute.
  destruct (review_follows_life_cycle review_mint (fun _ _ => "") 5 (OpApprove "wf-0" "alice" "" 1)
              sample_engine "wf-0" w) as (w' & Hget' & Hrtc & _);
    [apply run_ops_ok, engine_init_ok|exact Hget|].
  exists w, w'. split; [exact Hget|]. split; [exact Hget'|]. apply Hrtc. cbn. by rewrite <- Hst.
Defined.

(** The engine goes from pending straight to approved, which the domain allows
    only through review. *)
Example approved_without_review :
  ar_state <$> (run_call review_mint 5 (SApprove "d1" "alice" "" 1) (Some sample_engine)).1 = Ok APPROVED /\
  APPROVED ∉ valid_next_states APPROVAL_PENDING.
Proof. split; [by vm_compute|]. cbn. set_solver. Qed.
