(* ===== verification/Dispatch.v ===== *)
(** * The in-memory dispatcher ([glassbox/adapters/outbound/memory/dispatch.py])

    [dispatch] has three critical sections: admission (receipt, idempotency
    key, handler, in-flight bound), the decrement of the in-flight count, and
    the recording of the outcome; the effect runs between the first two.  Each
    is a step of its own here, so that calls interleave as threads do. *)

From stdpp Require Import base tactics list strings gmap relations.
From Stdlib Require Import ZArith Lia.
From S2P Require Import Prelude PyFloat PyStr Serialization Sha256 Action Identity Risk Decision Evidence PromptInjection.

Open Scope string_scope.
Open Scope list_scope.

Record Dispatcher := {
  dp_handlers : gset string;
  dp_outcomes : gmap string ExecutionOutcome;
  dp_require_receipt : bool;
  dp_max_in_flight : Z;
  dp_in_flight : Z;
  dp_shut_down : bool
}.

Definition dispatcher_init (max_in_flight : Z) (require_receipt : bool) : Dispatcher :=
  {| dp_handlers := ∅; dp_outcomes := ∅; dp_require_receipt := require_receipt;
     dp_max_in_flight := max_in_flight; dp_in_flight := 0; dp_shut_down := false |}.

(** [_PENDING]: the key's execution has started and not finished. *)
Definition PENDING : ExecutionOutcome :=
  {| eo_status := PENDING_APPROVAL; eo_completed_at := fz 0; eo_result_digest := None;
     eo_error_class := None |}.

Definition with_outcome (d : Dispatcher) (key : string) (o : ExecutionOutcome) : Dispatcher :=
  {| dp_handlers := dp_handlers d; dp_outcomes := <[key := o]> (dp_outcomes d);
     dp_require_receipt := dp_require_receipt d; dp_max_in_flight := dp_max_in_flight d;
     dp_in_flight := dp_in_flight d; dp_shut_down := dp_shut_down d |}.
Definition with_in_flight (d : Dispatcher) (n : Z) : Dispatcher :=
  {| dp_handlers := dp_handlers d; dp_outcomes := dp_outcomes d;
     dp_require_receipt := dp_require_receipt d; dp_max_in_flight := dp_max_in_flight d;
     dp_in_flight := n; dp_shut_down := dp_shut_down d |}.

Definition register (d : Dispatcher) (action : string) : Dispatcher :=
  {| dp_handlers := {[action]} ∪ dp_handlers d; dp_outcomes := dp_outcomes d;
     dp_require_receipt := dp_require_receipt d; dp_max_in_flight := dp_max_in_flight d;
     dp_in_flight := dp_in_flight d; dp_shut_down := dp_shut_down d |}.
Definition shutdown (d : Dispatcher) : Dispatcher :=
  {| dp_handlers := dp_handlers d; dp_outcomes := dp_outcomes d;
     dp_require_receipt := dp_require_receipt d; dp_max_in_flight := dp_max_in_flight d;
     dp_in_flight := dp_in_flight d; dp_shut_down := true |}.

(** [outcome_for]: the sentinel, which no other outcome is identical to, is hidden. *)
Definition is_pending (o : ExecutionOutcome) : bool :=
  match o with
  | {| eo_status := PENDING_APPROVAL; eo_completed_at := t; eo_result_digest := None;
       eo_error_class := None |} => feq t (fz 0)
  | _ => false
  end.
Definition recorded_outcome (d : Dispatcher) (key : string) : option ExecutionOutcome :=
  match dp_outcomes d !! key with
  | Some o => if is_pending o then None else Some o
  | None => None
  end.

(** [_require_valid_receipt]; the receipt check is the evidence store's own, if
    one was bound. *)
Definition require_valid_receipt (d : Dispatcher) (check : option (EvidenceReceipt -> bool))
    (receipt : EvidenceReceipt) : res unit :=
  if negb (dp_require_receipt d) then Ok tt
  else match check with
       | Some f => raise_if (negb (f receipt)) DispatchRefusedError
       | None => Ok tt
       end.

Inductive admission_result :=
| Recorded (o : ExecutionOutcome)
| Started.

(** From the receipt check to [submit], which raises once the pool is shut down. *)
Definition dispatch_admit (d : Dispatcher) (check : option (EvidenceReceipt -> bool))
    (action : ProposedAction) (receipt : EvidenceReceipt) : res admission_result * Dispatcher :=
  match require_valid_receipt d check receipt with
  | Raise e => (Raise e, d)
  | Ok _ =>
      match dp_outcomes d !! pa_idempotency_key action with
      | Some recorded => (Ok (Recorded recorded), d)
      | None =>
          if negb (bool_decide (pa_action action ∈ dp_handlers d)) then (Raise DispatchRefusedError, d)
          else if (dp_max_in_flight d <=? dp_in_flight d)%Z then (Raise DispatchRefusedError, d)
          else
            let d' := with_outcome (with_in_flight d (dp_in_flight d + 1)) (pa_idempotency_key action) PENDING in
            (if dp_shut_down d then Raise (PyException "RuntimeError") else Ok Started, d')
      end
  end.

(** How the handler ended, as [future.result(timeout)] reports it; a handler
    that raises the timeout class itself is caught by the same clause. *)
Inductive handler_end :=
| Returned (result : pyval)
| HandlerRaised (class_name : string)
| TimedOut.

Section outcome.
(** [repr] of a result that cannot be serialised. *)
Variable py_repr : pyval -> string.

(** [_digest]. *)
Definition result_digest (result : pyval) : string :=
let material := match canonical_bytes (pdict [("result", result)]) with
                | Ok b => b
                | Raise _ => utf8 (py_repr result)
                end in
bytes_hex (sha256 material).

(** The outcome of an effect that was started. *)
Definition effect_outcome (e : handler_end) (timeout_s now : float) : res ExecutionOutcome :=
match e with
| Returned result =>
    if pi_flagged (scan "tool_output" result)
    then mk_ExecutionOutcome FAILED now None (Some (exn_name ToolOutputQuarantinedError))
    else mk_ExecutionOutcome EXECUTED now (Some (result_digest result)) None
| HandlerRaised name => mk_ExecutionOutcome FAILED now None (Some name)
| TimedOut => mk_ExecutionOutcome INDETERMINATE (fadd now timeout_s) None (Some "DispatchTimeout")
end.

(** The [finally] clause, then the recording, which an exception of the
  clauses above skips. *)
Definition dispatch_leave (d : Dispatcher) : Dispatcher := with_in_flight d (dp_in_flight d - 1).
Definition dispatch_record (d : Dispatcher) (key : string) (r : res ExecutionOutcome)
  : res ExecutionOutcome * Dispatcher :=
match r with
| Ok o => (Ok o, with_outcome d key o)
| Raise e => (Raise e, d)
end.

(** A call that is not interleaved with another. *)
Definition dispatch (d : Dispatcher) (check : option (EvidenceReceipt -> bool))
  (effect : ProposedAction -> handler_end) (action : ProposedAction) (receipt : EvidenceReceipt)
  (timeout_s now : float) : res ExecutionOutcome * Dispatcher :=
match dispatch_admit d check action receipt with
| (Raise e, d') => (Raise e, d')
| (Ok (Recorded o), d') => (Ok o, d')
| (Ok Started, d') =>
    dispatch_record (dispatch_leave d') (pa_idempotency_key action)
      (effect_outcome (effect action) timeout_s now)
end.
End outcome.

(** ** Interleaved calls *)

(** A call past admission: its effect is running, or its outcome is about to be
    recorded. *)
Inductive thread :=
| Running (key : string)
| Leaving (key : string) (r : res ExecutionOutcome).

Definition thread_key (t : thread) : string := match t with Running k | Leaving k _ => k end.
Definition is_running (t : thread) : bool := match t with Running _ => true | Leaving _ _ => false end.

Record system := {
  sy_dispatcher : Dispatcher;
  sy_threads : list thread;
  sy_effects : list (ProposedAction * EvidenceReceipt);
  sy_failed_submits : nat
}.

(** A [submit] that raised leaves its reservation behind. *)
Definition submit_failed (r : res admission_result) : nat :=
  match r with
  | Raise (PyException name) => if (name =? "RuntimeError")%string then 1 else 0
  | _ => 0
  end.

Definition system_init (d : Dispatcher) : system :=
  {| sy_dispatcher := d; sy_threads := []; sy_effects := []; sy_failed_submits := 0 |}.

Section interleaving.
Variable py_repr : pyval -> string.
(** What the evidence store's receipt check attests, whenever it is asked. *)
Variable issued : EvidenceReceipt -> Prop.

Inductive system_step : system -> system -> Prop :=
| StepStart d d' ths eff n check action receipt :
  (forall r, check r = true -> issued r) ->
  dispatch_admit d (Some check) action receipt = (Ok Started, d') ->
  system_step
    {| sy_dispatcher := d; sy_threads := ths; sy_effects := eff; sy_failed_submits := n |}
    {| sy_dispatcher := d'; sy_threads := Running (pa_idempotency_key action) :: ths;
       sy_effects := (action, receipt) :: eff; sy_failed_submits := n |}
| StepReturn d d' ths eff n check action receipt r :
  dispatch_admit d (Some check) action receipt = (r, d') -> r <> Ok Started ->
  system_step
    {| sy_dispatcher := d; sy_threads := ths; sy_effects := eff; sy_failed_submits := n |}
    {| sy_dispatcher := d'; sy_threads := ths; sy_effects := eff;
       sy_failed_submits := n + submit_failed r |}
| StepLeave d l1 l2 key eff n e timeout_s now :
  system_step
    {| sy_dispatcher := d; sy_threads := l1 ++ Running key :: l2; sy_effects := eff; sy_failed_submits := n |}
    {| sy_dispatcher := dispatch_leave d;
       sy_threads := l1 ++ Leaving key (effect_outcome py_repr e timeout_s now) :: l2;
       sy_effects := eff; sy_failed_submits := n |}
| StepRecord d l1 l2 key r eff n :
  system_step
    {| sy_dispatcher := d; sy_threads := l1 ++ Leaving key r :: l2; sy_effects := eff; sy_failed_submits := n |}
    {| sy_dispatcher := (dispatch_record d key r).2; sy_threads := l1 ++ l2;
       sy_effects := eff; sy_failed_submits := n |}
| StepRegister d ths eff n action :
  system_step
    {| sy_dispatcher := d; sy_threads := ths; sy_effects := eff; sy_failed_submits := n |}
    {| sy_dispatcher := register d action; sy_threads := ths; sy_effects := eff; sy_failed_submits := n |}
| StepShutdown d ths eff n :
  system_step
    {| sy_dispatcher := d; sy_threads := ths; sy_effects := eff; sy_failed_submits := n |}
    {| sy_dispatcher := shutdown d; sy_threads := ths; sy_effects := eff; sy_failed_submits := n |}.

Definition effect_keys (s : system) : list string := map (fun e => pa_idempotency_key e.1) (sy_effects s).
Definition running_count (s : system) : nat := length (List.filter is_running (sy_threads s)).

Record system_inv (max_in_flight : Z) (s : system) : Prop := {
si_once : NoDup (effect_keys s);
si_reserved : forall k, k ∈ effect_keys s -> is_Some (dp_outcomes (sy_dispatcher s) !! k);
si_threads : Forall (fun t => is_Some (dp_outcomes (sy_dispatcher s) !! thread_key t)) (sy_threads s);
si_in_flight : dp_in_flight (sy_dispatcher s) = Z.of_nat (running_count s + sy_failed_submits s);
si_bound : (dp_in_flight (sy_dispatcher s) <= Z.max 0 max_in_flight)%Z;
si_config : dp_max_in_flight (sy_dispatcher s) = max_in_flight /\
            dp_require_receipt (sy_dispatcher s) = true;
si_issued : Forall (fun e => issued e.2) (sy_effects s)
}.

(** The ways admission ends, with what it changes. *)
Lemma dispatch_admit_cases d check action receipt r d' :
dispatch_admit d check action receipt = (r, d') ->
(d' = d /\ r <> Ok Started /\ submit_failed r = 0%nat) \/
(require_valid_receipt d check receipt = Ok tt /\
 dp_outcomes d !! pa_idempotency_key action = None /\ (dp_in_flight d < dp_max_in_flight d)%Z /\
 pa_action action ∈ dp_handlers d /\
 d' = with_outcome (with_in_flight d (dp_in_flight d + 1)) (pa_idempotency_key action) PENDING /\
 r = if dp_shut_down d then Raise (PyException "RuntimeError") else Ok Started).
Proof.
unfold dispatch_admit. destruct (require_valid_receipt d check receipt) as [[]|e] eqn:Hr.
- destruct (dp_outcomes d !! _) eqn:Ho; [intros [= <- <-]; by left|].
  destruct (bool_decide _) eqn:Hh; cbn [negb]; [|intros [= <- <-]; by left].
  destruct (Z.leb_spec (dp_max_in_flight d) (dp_in_flight d)); [intros [= <- <-]; by left|].
  apply bool_decide_eq_true in Hh. intros [= <- <-]. by right.
- intros [= <- <-]. left. split_and!; [done..|].
  unfold require_valid_receipt in Hr. destruct (dp_require_receipt d); [|done].
  destruct check; [|done]. unfold raise_if in Hr. cbn in Hr. by repeat case_match; simplify_eq.
Qed.

(** Reserving a fresh key keeps what was reserved. *)
Lemma outcomes_grow d key o k :
is_Some (dp_outcomes d !! k) -> is_Some (dp_outcomes (with_outcome d key o) !! k).
Proof. cbn. intros H. destruct (decide (key = k)) as [->|]; [by rewrite lookup_insert_eq|by rewrite lookup_insert_ne]. Qed.

Lemma system_inv_step m s s' : system_step s s' -> system_inv m s -> system_inv m s'.
Proof.
intros Hstep [Ho Hres Hth Hfl Hb [Hm Hrr] Hi].
destruct Hstep as [d d' ths eff n check action receipt Hck Hadm
  |d d' ths eff n check action receipt r Hadm Hne
  |d l1 l2 key eff n e timeout_s now|d l1 l2 key r eff n|d ths eff n a|d ths eff n];
  unfold effect_keys, running_count in *; cbn in *.
- apply dispatch_admit_cases in Hadm as [(_ & ? & _)|(Hv & Hno & Hlt & _ & -> & _)]; [done|].
  constructor; unfold effect_keys, running_count; cbn; try done; try lia.
  + apply NoDup_cons. split; [|done]. intros Hin. apply Hres in Hin. rewrite Hno in Hin. by destruct Hin.
  + intros k [->|Hk]%elem_of_cons; [by rewrite lookup_insert_eq|].
    apply (outcomes_grow d (pa_idempotency_key action) PENDING), Hres, Hk.
  + constructor; [cbn; by rewrite lookup_insert_eq|].
    eapply Forall_impl; [exact Hth|]. intros t. apply (outcomes_grow d (pa_idempotency_key action) PENDING).
  + constructor; [|done]. apply Hck. unfold require_valid_receipt in Hv. rewrite Hrr in Hv. cbn in Hv.
    apply raise_if_ok, negb_false_iff in Hv. done.
- apply dispatch_admit_cases in Hadm as [(-> & _ & Hnr)|(_ & Hno & Hlt & _ & -> & ->)].
  + rewrite Hnr, Nat.add_0_r. by constructor.
  + destruct (dp_shut_down d); [|done].
    constructor; unfold effect_keys, running_count; cbn; try done; try lia.
    * intros k Hk. apply (outcomes_grow d (pa_idempotency_key action) PENDING), Hres, Hk.
    * eapply Forall_impl; [exact Hth|]. intros t. apply (outcomes_grow d (pa_idempotency_key action) PENDING).
- rewrite List.filter_app, length_app in Hfl. cbn in Hfl.
  constructor; unfold effect_keys, running_count; cbn; rewrite ?List.filter_app, ?length_app; cbn; try done; try lia.
  apply Forall_app in Hth as [H1 H2]. apply Forall_cons in H2 as [H2 H3].
  apply Forall_app. split; [done|]. by constructor.
- rewrite List.filter_app, length_app in Hfl. cbn in Hfl.
  apply Forall_app in Hth as [H1 H2]. apply Forall_cons in H2 as [H2 H3].
  assert (Hth' : Forall (fun t => is_Some (dp_outcomes d !! thread_key t)) (l1 ++ l2)) by by apply Forall_app.
  destruct r as [o|]; constructor; unfold effect_keys, running_count; cbn;
    rewrite ?List.filter_app, ?length_app; try done; try lia.
  + intros k Hk. by apply (outcomes_grow d key o), Hres.
  + eapply Forall_impl; [exact Hth'|]. intros t. apply (outcomes_grow d key o).
- by constructor.
- by constructor.
Qed.

Lemma system_inv_init m : system_inv m (system_init (dispatcher_init m true)).
Proof.
constructor; unfold effect_keys, running_count; cbn; try done; try lia; try constructor.
by intros k ?%not_elem_of_nil.
Qed.

(** C27.  At most once, bounded and receipted, under every interleaving of
  calls from an empty dispatcher that requires receipts: no idempotency key
  starts two effects, the effects in flight never exceed the bound, and every
  effect that ran had a receipt the evidence store attested. *)
Theorem dispatch_at_most_once m s :
rtc system_step (system_init (dispatcher_init m true)) s ->
NoDup (effect_keys s) /\ (Z.of_nat (running_count s) <= Z.max 0 m)%Z /\
Forall (fun e => issued e.2) (sy_effects s).
Proof.
intros Hrun. assert (Hinv : system_inv m s).
{ remember (system_init _) as s0 eqn:E0. assert (H0 : system_inv m s0) by (subst; apply system_inv_init).
  clear E0. induction Hrun as [|x y z Hxy _ IH]; [done|]. apply IH. by eapply system_inv_step. }
destruct Hinv as [Ho _ _ Hf Hb _ Hi]. split_and!; [done | lia | done].
Qed.
End interleaving.

(** A dispatcher with one handler, and one call through its first two steps. *)
Definition sample_dispatcher : Dispatcher := register (dispatcher_init 1 true) "payments.wire".
Definition sample_evidence_receipt : EvidenceReceipt :=
  {| rc_decision_id := "d1"; rc_segment_id := "s1"; rc_seq := 0; rc_record_hmac := GENESIS_PREV_HASH;
     rc_signer_key_id := "k1"; rc_persisted_at := fz 10 |}.
Definition any_repr (v : pyval) : string := "object".
Definition sample_system : system :=
  {| sy_dispatcher :=
       with_outcome (with_in_flight sample_dispatcher 1) "k1" PENDING;
     sy_threads := [Running "k1"];
     sy_effects := [(sample_action "x", sample_evidence_receipt)]; sy_failed_submits := 0 |}.

Lemma dispatch_at_most_once_witness :
  NoDup (effect_keys sample_system) /\ (Z.of_nat (running_count sample_system) <= Z.max 0 1)%Z.
Proof.
  destruct (dispatch_at_most_once any_repr (fun _ => True) 1 sample_system) as (H1 & H2 & _).
  - eapply rtc_l; [apply (StepRegister _ _ (dispatcher_init 1 true) [] [] 0 "payments.wire")|].
    eapply rtc_l; [|apply rtc_refl].
    apply (StepStart _ _ sample_dispatcher _ [] [] 0 (fun _ => true) (sample_action "x")
             sample_evidence_receipt); [done|]. vm_compute. reflexivity.
  - split; [exact H1 | exact H2].
Defined.

(** The outcome says what is known of the effect.  An executed outcome
    means the handler returned a result without injected instructions, and
    carries its digest; a result that carries them is reported failed as
    quarantined; a timeout is indeterminate, never failed.  A later call with
    the same key returns the recorded outcome and changes nothing. *)
Theorem outcome_is_honest py_repr d check effect action receipt timeout_s now o d' :
  dispatch_admit d check action receipt = (Ok Started, d') ->
  (dispatch py_repr d check effect action receipt timeout_s now).1 = Ok o ->
  (eo_status o = EXECUTED <->
     exists v, effect action = Returned v /\ pi_flagged (scan "tool_output" v) = false) /\
  (forall v, effect action = Returned v -> eo_status o = EXECUTED ->
     eo_result_digest o = Some (result_digest py_repr v)) /\
  (forall v, effect action = Returned v -> pi_flagged (scan "tool_output" v) = true ->
     eo_status o = FAILED /\ eo_error_class o = Some "ToolOutputQuarantinedError") /\
  (effect action = TimedOut <-> eo_status o = INDETERMINATE) /\
  (forall action2 receipt2 timeout2 now2 effect2,
     pa_idempotency_key action2 = pa_idempotency_key action ->
     let d2 := (dispatch py_repr d check effect action receipt timeout_s now).2 in
     require_valid_receipt d2 check receipt2 = Ok tt ->
     dispatch py_repr d2 check effect2 action2 receipt2 timeout2 now2 = (Ok o, d2)).
Proof.
  intros Hadm. unfold dispatch. rewrite Hadm.
  destruct (effect_outcome py_repr (effect action) timeout_s now) as [o'|] eqn:Heff; [|done].
  cbn [dispatch_record fst snd]. intros [= ->].
  assert (Hlater : forall action2 receipt2 timeout2 now2 effect2,
    pa_idempotency_key action2 = pa_idempotency_key action ->
    let d2 := with_outcome (dispatch_leave d') (pa_idempotency_key action) o in
    require_valid_receipt d2 check receipt2 = Ok tt ->
    dispatch py_repr d2 check effect2 action2 receipt2 timeout2 now2 = (Ok o, d2)).
  { intros a2 r2 t2 n2 e2 Hk d2 Hv. unfold dispatch, dispatch_admit. rewrite Hv, Hk.
    unfold d2 at 1. cbn [with_outcome dp_outcomes]. by rewrite lookup_insert_eq. }
  destruct (effect action) as [v|name|]; cbn [effect_outcome] in Heff.
  - destruct (pi_flagged (scan "tool_output" v)) eqn:Hf;
      unfold mk_ExecutionOutcome in Heff; inv_ok; subst o; cbn in *.
    + repeat match goal with H : Ok _ = Ok _ |- _ => injection H as H end. subst.
      split_and!; try done. split; [done|]. intros (w & [= <-] & Hw). congruence.
    + inv_ok. match goal with H : require_sha256_hex _ _ = Ok _ |- _ =>
        apply require_sha256_hex_ok in H as (-> & _) end. subst.
      split_and!; try done; [split; [by exists v|done] | | by intros ? [= <-]; congruence].
      intros w [= <-] _. unfold result_digest. by rewrite lower_bytes_hex.
  - apply mk_ExecutionOutcome_ok in Heff as (-> & _). split_and!; try done. split; [done | by intros (? & ? & _)].
  - apply mk_ExecutionOutcome_ok in Heff as (-> & _). split_and!; try done. split; [done | by intros (? & ? & _)].
Qed.

Definition sample_effect (a : ProposedAction) : handler_end := Returned (PStr "done").
Definition sample_outcome : ExecutionOutcome :=
  {| eo_status := EXECUTED; eo_completed_at := fz 20;
     eo_result_digest := Some (result_digest any_repr (PStr "done")); eo_error_class := None |}.

Lemma outcome_is_honest_witness :
  eo_status sample_outcome = EXECUTED <->
  exists v, sample_effect (sample_action "x") = Returned v /\ pi_flagged (scan "tool_output" v) = false.
Proof.
  apply (outcome_is_honest any_repr sample_dispatcher (Some (fun _ => true)) sample_effect
           (sample_action "x") sample_evidence_receipt (fz 5) (fz 20) sample_outcome
           (with_outcome (with_in_flight sample_dispatcher 1) "k1" PENDING)).
  - vm_compute. reflexivity.
  - vm_compute. reflexivity.
Defined.

Definition in_tenant (a : ProposedAction) (tenant_id : string) : ProposedAction :=
  {| pa_action := pa_action a;
     pa_resource := {| rr_kind := rr_kind (pa_resource a); rr_id := rr_id (pa_resource a);
                       rr_tenant_id := tenant_id |};
     pa_consequence := pa_consequence a; pa_exposure := pa_exposure a;
     pa_idempotency_key := pa_idempotency_key a; pa_parameters := pa_parameters a |}.

(** Idempotency keys are not scoped to a tenant: another tenant's action under
    the same key is answered with the first tenant's outcome and never runs. *)
Example idempotency_keys_cross_tenants :
  let d2 := (dispatch any_repr sample_dispatcher (Some (fun _ => true)) sample_effect
               (sample_action "x") sample_evidence_receipt (fz 5) (fz 20)).2 in
  dispatch any_repr d2 (Some (fun _ => true)) (fun _ => HandlerRaised "NeverRuns")
    (in_tenant (sample_action "x") "t2") sample_evidence_receipt (fz 5) (fz 30) = (Ok sample_outcome, d2).
Proof. vm_compute. reflexivity. Qed.

(** A duplicate that arrives while the effect runs is answered with the
    sentinel, a pending approval completed at the epoch. *)
Example duplicate_in_flight_sees_sentinel :
  let d1 := (dispatch_admit sample_dispatcher (Some (fun _ => true)) (sample_action "x")
               sample_evidence_receipt).2 in
  dispatch any_repr d1 (Some (fun _ => true)) sample_effect (sample_action "x")
    sample_evidence_receipt (fz 5) (fz 30) = (Ok PENDING, d1).
Proof. vm_compute. reflexivity. Qed.

(** A receipt of any decision is accepted for any action. *)
Lemma receipt_need_not_cover_action d check action1 action2 receipt :
  pa_idempotency_key action1 = pa_idempotency_key action2 -> pa_action action1 = pa_action action2 ->
  dispatch_admit d check action1 receipt = dispatch_admit d check action2 receipt.
Proof. intros Hk Ha. unfold dispatch_admit. by rewrite Hk, Ha. Qed.
