(* ===== verification/PgDispatch.v ===== *)
(** * The durable dispatcher ([glassbox/adapters/outbound/postgres/dispatcher.py])

    Any number of replicas share one table, [dispatch_ledger]; each has its own
    handlers and in-flight count.  A call is admitted on its replica, claims
    its idempotency key in the table, and either runs the effect and completes
    the row or waits for the claimant's outcome.  Each transaction and each
    critical section is a step of its own, so that calls interleave as threads
    and replicas do; a transaction may fail before or after its commit and a
    replica may crash at any point.

    The table as the migrations of [postgres/schema.py] leave it: the
    idempotency key is the primary key, and row-level security shows a
    transaction only the rows of the tenant it set. *)

From stdpp Require Import base tactics list strings gmap relations.
From Stdlib Require Import ZArith Lia.
From S2P Require Import Prelude PyFloat PyStr Serialization Sha256 Action Identity Risk Decision Evidence PromptInjection Dispatch.

Open Scope string_scope.
Open Scope list_scope.

(** ** The ledger *)

Record ledger_row := {
  lr_decision_id : string;
  lr_action : string;
  lr_status : string;
  lr_completed_at : option float;
  lr_result_digest : option string;
  lr_error_class : option string;
  lr_tenant_id : option string
}.

Abbreviation Ledger := (gmap string ledger_row).

(** [USING (tenant_id = current_setting('glassbox.tenant_id', true))]. *)
Definition row_visible (tenant_id : string) (r : ledger_row) : bool :=
  match lr_tenant_id r with Some t => (t =? tenant_id)%string | None => false end.

(** [_CLAIM]: [ON CONFLICT DO NOTHING] gives way to any row with the key. *)
Definition claim (l : Ledger) (action : ProposedAction) (receipt : EvidenceReceipt) : bool * Ledger :=
  match l !! pa_idempotency_key action with
  | Some _ => (false, l)
  | None =>
      (true, <[pa_idempotency_key action :=
                 {| lr_decision_id := rc_decision_id receipt; lr_action := pa_action action;
                    lr_status := "claimed"; lr_completed_at := None; lr_result_digest := None;
                    lr_error_class := None; lr_tenant_id := Some (pa_tenant_id action) |}]> l)
  end.

(** [_COMPLETE]. *)
Definition completed_row (o : ExecutionOutcome) (r : ledger_row) : ledger_row :=
  {| lr_decision_id := lr_decision_id r; lr_action := lr_action r;
     lr_status := execution_status_value (eo_status o); lr_completed_at := Some (eo_completed_at o);
     lr_result_digest := eo_result_digest o; lr_error_class := eo_error_class o;
     lr_tenant_id := lr_tenant_id r |}.

Definition complete (l : Ledger) (key tenant_id : string) (o : ExecutionOutcome) : Ledger :=
  match l !! key with
  | Some r => if row_visible tenant_id r then <[key := completed_row o r]> l else l
  | None => l
  end.

(** [_SELECT_LEDGER]. *)
Definition select_ledger (l : Ledger) (key tenant_id : string) : option ledger_row :=
  r ← l !! key; if row_visible tenant_id r then Some r else None.

(** [_TERMINAL_STATUSES], with the member [ExecutionStatus(status)] gives. *)
Definition terminal_status (status : string) : option ExecutionStatus :=
  if (status =? "executed")%string then Some EXECUTED
  else if (status =? "failed")%string then Some FAILED
  else if (status =? "indeterminate")%string then Some INDETERMINATE
  else None.

(** The outcome a terminal row holds. *)
Definition terminal_answer (l : Ledger) (key tenant_id : string) (now : float) : option (res ExecutionOutcome) :=
  r ← select_ledger l key tenant_id;
  s ← terminal_status (lr_status r);
  Some (mk_ExecutionOutcome s (from_option id now (lr_completed_at r)) (lr_result_digest r) (lr_error_class r)).

(** The claimant has not finished by the deadline. *)
Definition claim_pending (timeout_s now : float) : res ExecutionOutcome :=
  mk_ExecutionOutcome INDETERMINATE (fadd now timeout_s) None (Some "DispatchClaimPending").

(** One turn of the loop of [_await_existing]; [None] sleeps and tries again. *)
Definition poll (l : Ledger) (key tenant_id : string) (timeout_s now : float) (expired : bool)
    : option (res ExecutionOutcome) :=
  match terminal_answer l key tenant_id now with
  | Some o => Some o
  | None => if expired then Some (claim_pending timeout_s now) else None
  end.

(** The whole loop, over what each turn reads. *)
Fixpoint await_existing (turns : list (Ledger * bool)) (key tenant_id : string) (timeout_s now : float)
    : option (res ExecutionOutcome) :=
  match turns with
  | [] => None
  | (l, expired) :: rest =>
      match poll l key tenant_id timeout_s now expired with
      | Some o => Some o
      | None => await_existing rest key tenant_id timeout_s now
      end
  end.

(** However often it turns, the loop ends at the deadline; over a table that
    does not change meanwhile, with the terminal outcome or a pending claim. *)
Lemma await_constant l key tenant_id timeout_s now n :
  await_existing (replicate n (l, false) ++ [(l, true)]) key tenant_id timeout_s now =
  Some (default (claim_pending timeout_s now) (terminal_answer l key tenant_id now)).
Proof.
  induction n as [|n IH]; cbn; unfold poll; destruct (terminal_answer l key tenant_id now) eqn:E; cbn; try done.
Qed.

(** ** A replica *)

Record Replica := {
  rp_handlers : gset string;
  rp_require_receipt : bool;
  rp_max_in_flight : Z;
  rp_in_flight : Z
}.

Definition replica_init (max_in_flight : Z) (require_receipt : bool) : Replica :=
  {| rp_handlers := ∅; rp_require_receipt := require_receipt; rp_max_in_flight := max_in_flight;
     rp_in_flight := 0 |}.

Definition rp_with_in_flight (p : Replica) (n : Z) : Replica :=
  {| rp_handlers := rp_handlers p; rp_require_receipt := rp_require_receipt p;
     rp_max_in_flight := rp_max_in_flight p; rp_in_flight := n |}.

Definition replica_register (p : Replica) (action : string) : Replica :=
  {| rp_handlers := {[action]} ∪ rp_handlers p; rp_require_receipt := rp_require_receipt p;
     rp_max_in_flight := rp_max_in_flight p; rp_in_flight := rp_in_flight p |}.

Definition replica_require_valid_receipt (p : Replica) (check : option (EvidenceReceipt -> bool))
    (receipt : EvidenceReceipt) : res unit :=
  if negb (rp_require_receipt p) then Ok tt
  else match check with
       | Some f => raise_if (negb (f receipt)) DispatchRefusedError
       | None => Ok tt
       end.

(** [dispatch] up to the claim. *)
Definition replica_admit (p : Replica) (check : option (EvidenceReceipt -> bool))
    (action : ProposedAction) (receipt : EvidenceReceipt) : res unit * Replica :=
  match replica_require_valid_receipt p check receipt with
  | Raise e => (Raise e, p)
  | Ok _ =>
      if negb (bool_decide (pa_action action ∈ rp_handlers p)) then (Raise DispatchRefusedError, p)
      else if (rp_max_in_flight p <=? rp_in_flight p)%Z then (Raise DispatchRefusedError, p)
      else (Ok tt, rp_with_in_flight p (rp_in_flight p + 1))
  end.

(** The [finally] clause. *)
Definition replica_leave (p : Replica) : Replica := rp_with_in_flight p (rp_in_flight p - 1).

(** A call that nothing else interleaves with and whose transactions succeed:
    a key that is taken is waited for until the deadline. *)
Definition pg_dispatch (py_repr : pyval -> string) (l : Ledger) (p : Replica)
    (check : option (EvidenceReceipt -> bool)) (effect : ProposedAction -> handler_end)
    (action : ProposedAction) (receipt : EvidenceReceipt) (timeout_s now : float)
    : res ExecutionOutcome * (Ledger * Replica) :=
  match replica_admit p check action receipt with
  | (Raise e, p) => (Raise e, (l, p))
  | (Ok _, p) =>
      let '(claimed, l) := claim l action receipt in
      if claimed then
        match effect_outcome py_repr (effect action) timeout_s now with
        | Ok o => (Ok o, (complete l (pa_idempotency_key action) (pa_tenant_id action) o, replica_leave p))
        | Raise e => (Raise e, (l, replica_leave p))
        end
      else
        (default (claim_pending timeout_s now)
           (terminal_answer l (pa_idempotency_key action) (pa_tenant_id action) now), (l, replica_leave p))
  end.

(** ** Interleaved calls of many replicas *)

Inductive call :=
| Claiming (action : ProposedAction) (receipt : EvidenceReceipt)
| Effecting (action : ProposedAction)
| Completing (action : ProposedAction) (o : ExecutionOutcome)
| Waiting (action : ProposedAction).

Record world := {
  wo_replicas : gmap nat Replica;
  wo_ledger : Ledger;
  wo_calls : list (nat * call);
  wo_effects : list (ProposedAction * EvidenceReceipt);
  wo_results : list (string * ExecutionOutcome);
  wo_answers : list (string * ExecutionOutcome)
}.

Definition world_init (replicas : gmap nat Replica) : world :=
  {| wo_replicas := replicas; wo_ledger := ∅; wo_calls := []; wo_effects := []; wo_results := [];
     wo_answers := [] |}.

Section interleaving.
Variable py_repr : pyval -> string.
(** What the evidence store's receipt check attests, whenever it is asked. *)
Variable issued : EvidenceReceipt -> Prop.

Inductive world_step : world -> world -> Prop :=
| WAdmit ps l cs eff rs an i p p' check action receipt :
    ps !! i = Some p -> (forall r, check r = true -> issued r) ->
    replica_admit p (Some check) action receipt = (Ok tt, p') ->
    world_step
      {| wo_replicas := ps; wo_ledger := l; wo_calls := cs; wo_effects := eff; wo_results := rs; wo_answers := an |}
      {| wo_replicas := <[i := p']> ps; wo_ledger := l; wo_calls := (i, Claiming action receipt) :: cs;
         wo_effects := eff; wo_results := rs; wo_answers := an |}
| WClaimed ps l l' c1 c2 eff rs an i action receipt :
    claim l action receipt = (true, l') ->
    world_step
      {| wo_replicas := ps; wo_ledger := l; wo_calls := c1 ++ (i, Claiming action receipt) :: c2;
         wo_effects := eff; wo_results := rs; wo_answers := an |}
      {| wo_replicas := ps; wo_ledger := l'; wo_calls := c1 ++ (i, Effecting action) :: c2;
         wo_effects := (action, receipt) :: eff; wo_results := rs; wo_answers := an |}
| WTaken ps l l' c1 c2 eff rs an i action receipt :
    claim l action receipt = (false, l') ->
    world_step
      {| wo_replicas := ps; wo_ledger := l; wo_calls := c1 ++ (i, Claiming action receipt) :: c2;
         wo_effects := eff; wo_results := rs; wo_answers := an |}
      {| wo_replicas := ps; wo_ledger := l'; wo_calls := c1 ++ (i, Waiting action) :: c2;
         wo_effects := eff; wo_results := rs; wo_answers := an |}
| WClaimFailed ps l l' c1 c2 eff rs an i p action receipt :
    ps !! i = Some p -> l' = l \/ l' = (claim l action receipt).2 ->
    world_step
      {| wo_replicas := ps; wo_ledger := l; wo_calls := c1 ++ (i, Claiming action receipt) :: c2;
         wo_effects := eff; wo_results := rs; wo_answers := an |}
      {| wo_replicas := <[i := replica_leave p]> ps; wo_ledger := l'; wo_calls := c1 ++ c2;
         wo_effects := eff; wo_results := rs; wo_answers := an |}
| WEffect ps l c1 c2 eff rs an i action e timeout_s now o :
    effect_outcome py_repr e timeout_s now = Ok o ->
    world_step
      {| wo_replicas := ps; wo_ledger := l; wo_calls := c1 ++ (i, Effecting action) :: c2;
         wo_effects := eff; wo_results := rs; wo_answers := an |}
      {| wo_replicas := ps; wo_ledger := l; wo_calls := c1 ++ (i, Completing action o) :: c2;
         wo_effects := eff; wo_results := (pa_idempotency_key action, o) :: rs; wo_answers := an |}
| WEffectRaised ps l c1 c2 eff rs an i p action e timeout_s now x :
    ps !! i = Some p -> effect_outcome py_repr e timeout_s now = Raise x ->
    world_step
      {| wo_replicas := ps; wo_ledger := l; wo_calls := c1 ++ (i, Effecting action) :: c2;
         wo_effects := eff; wo_results := rs; wo_answers := an |}
      {| wo_replicas := <[i := replica_leave p]> ps; wo_ledger := l; wo_calls := c1 ++ c2;
         wo_effects := eff; wo_results := rs; wo_answers := an |}
| WComplete ps l l' c1 c2 eff rs an i p action o :
    ps !! i = Some p ->
    l' = l \/ l' = complete l (pa_idempotency_key action) (pa_tenant_id action) o ->
    world_step
      {| wo_replicas := ps; wo_ledger := l; wo_calls := c1 ++ (i, Completing action o) :: c2;
         wo_effects := eff; wo_results := rs; wo_answers := an |}
      {| wo_replicas := <[i := replica_leave p]> ps; wo_ledger := l'; wo_calls := c1 ++ c2;
         wo_effects := eff; wo_results := rs; wo_answers := (pa_idempotency_key action, o) :: an |}
| WAnswered ps l c1 c2 eff rs an i p action timeout_s now expired o :
    ps !! i = Some p ->
    poll l (pa_idempotency_key action) (pa_tenant_id action) timeout_s now expired = Some (Ok o) ->
    world_step
      {| wo_replicas := ps; wo_ledger := l; wo_calls := c1 ++ (i, Waiting action) :: c2;
         wo_effects := eff; wo_results := rs; wo_answers := an |}
      {| wo_replicas := <[i := replica_leave p]> ps; wo_ledger := l; wo_calls := c1 ++ c2;
         wo_effects := eff; wo_results := rs; wo_answers := (pa_idempotency_key action, o) :: an |}
| WWaitFailed ps l c1 c2 eff rs an i p action :
    ps !! i = Some p ->
    world_step
      {| wo_replicas := ps; wo_ledger := l; wo_calls := c1 ++ (i, Waiting action) :: c2;
         wo_effects := eff; wo_results := rs; wo_answers := an |}
      {| wo_replicas := <[i := replica_leave p]> ps; wo_ledger := l; wo_calls := c1 ++ c2;
         wo_effects := eff; wo_results := rs; wo_answers := an |}
| WRegister ps l cs eff rs an i p action :
    ps !! i = Some p ->
    world_step
      {| wo_replicas := ps; wo_ledger := l; wo_calls := cs; wo_effects := eff; wo_results := rs; wo_answers := an |}
      {| wo_replicas := <[i := replica_register p action]> ps; wo_ledger := l; wo_calls := cs;
         wo_effects := eff; wo_results := rs; wo_answers := an |}
| WCrash ps l cs eff rs an i m :
    world_step
      {| wo_replicas := ps; wo_ledger := l; wo_calls := cs; wo_effects := eff; wo_results := rs; wo_answers := an |}
      {| wo_replicas := <[i := replica_init m true]> ps; wo_ledger := l;
         wo_calls := List.filter (fun c => negb (Nat.eqb c.1 i)) cs;
         wo_effects := eff; wo_results := rs; wo_answers := an |}.

Definition effect_keys_of (eff : list (ProposedAction * EvidenceReceipt)) : list string :=
  map (fun e => pa_idempotency_key e.1) eff.

(** The key of a call that holds a claim. *)
Definition holds (c : nat * call) : option string :=
  match c.2 with
  | Effecting a | Completing a _ => Some (pa_idempotency_key a)
  | _ => None
  end.

Definition calls_of (i : nat) (cs : list (nat * call)) : nat := length (List.filter (fun c => Nat.eqb c.1 i) cs).

Definition claimed_row (l : Ledger) (key : string) : Prop := exists r, l !! key = Some r /\ lr_status r = "claimed".

Definition records (o : ExecutionOutcome) (r : ledger_row) : Prop :=
  lr_status r = execution_status_value (eo_status o) /\ lr_completed_at r = Some (eo_completed_at o) /\
  lr_result_digest r = eo_result_digest o /\ lr_error_class r = eo_error_class o.

(** What an effect's outcome looks like, whatever the handler did. *)
Definition settled (o : ExecutionOutcome) : Prop :=
  terminal_status (execution_status_value (eo_status o)) = Some (eo_status o) /\
  mk_ExecutionOutcome (eo_status o) (eo_completed_at o) (eo_result_digest o) (eo_error_class o) = Ok o.

Lemma effect_outcome_settled e timeout_s now o : effect_outcome py_repr e timeout_s now = Ok o -> settled o.
Proof.
  assert (forall s t d e', terminal_status (execution_status_value s) = Some s ->
            (forall x, d = Some x -> lower x = x) -> mk_ExecutionOutcome s t d e' = Ok o -> settled o) as Hmk.
  { intros s t d e' Hs Hd Ho. pose proof Ho as Ho'. unfold mk_ExecutionOutcome in Ho. inv_ok. subst o.
    repeat match goal with
    | H : require_timestamp _ _ = Ok _ |- _ => apply require_timestamp_ok in H as (-> & _)
    | H : res_opt (fun d => require_sha256_hex d _) _ = Ok _ |- _ =>
        apply res_opt_ok in H as [[-> ->]|(? & ? & -> & H & ->)];
        [|apply require_sha256_hex_ok in H as (-> & _); rewrite (Hd _ eq_refl) in Ho' |- *]
    end; by split. }
  destruct e as [v|n|]; cbn [effect_outcome];
    [destruct (pi_flagged (scan "tool_output" v))| |]; apply Hmk; try done.
  intros x [= <-]. apply lower_bytes_hex.
Qed.

(** What the ledger, the calls, the effects, their results and the answers
    have to do with each other. *)
Record ledger_inv (l : Ledger) (cs : list (nat * call)) (eff : list (ProposedAction * EvidenceReceipt))
    (rs an : list (string * ExecutionOutcome)) : Prop := {
  li_once : NoDup (effect_keys_of eff);
  li_present : forall k, k ∈ effect_keys_of eff -> is_Some (l !! k);
  li_holders : NoDup (omap holds cs);
  li_effecting : forall i a, (i, Effecting a) ∈ cs ->
    pa_idempotency_key a ∈ effect_keys_of eff /\ claimed_row l (pa_idempotency_key a) /\
    pa_idempotency_key a ∉ rs.*1;
  li_completing : forall i a o, (i, Completing a o) ∈ cs ->
    claimed_row l (pa_idempotency_key a) /\ (pa_idempotency_key a, o) ∈ rs;
  li_claiming : forall i a r, (i, Claiming a r) ∈ cs -> issued r;
  li_results : NoDup rs.*1;
  li_settled : forall k o, (k, o) ∈ rs -> k ∈ effect_keys_of eff /\ settled o;
  li_rows : forall k r, l !! k = Some r ->
    lr_status r = "claimed" \/ exists o, (k, o) ∈ rs /\ records o r;
  li_answers : forall k o, (k, o) ∈ an ->
    (exists timeout_s now, claim_pending timeout_s now = Ok o) \/ (k, o) ∈ rs;
  li_issued : Forall (fun e => issued e.2) eff
}.

(** Calls that end take their claims with them. *)
Lemma ledger_inv_drop l cs cs' eff rs an :
  sublist cs' cs -> ledger_inv l cs eff rs an -> ledger_inv l cs' eff rs an.
Proof.
  intros Hsub [? ? Hh He Hc Hk ? ? ? ? ?].
  assert (forall c, c ∈ cs' -> c ∈ cs) as Hin 
    by (intros c Hc'; eapply elem_of_submseteq; [exact Hc'|by apply sublist_submseteq]).
  constructor; eauto. eapply sublist_NoDup; [exact Hh|].
  clear -Hsub. induction Hsub as [|x l1 l2 _ IH|x l1 l2 _ IH]; cbn; [done| |];
    destruct (holds x); by try constructor.
Qed.

Lemma middle_sublist {A} (l1 l2 : list A) x : sublist (l1 ++ l2) (l1 ++ x :: l2).
Proof. apply sublist_app; [done|]. by constructor. Qed.

Lemma elem_of_middle {A} (l1 l2 : list A) x y : y ∈ l1 ++ x :: l2 <-> x = y \/ y ∈ l1 ++ l2.
Proof. rewrite !elem_of_app, elem_of_cons. naive_solver. Qed.

(** A call that moves on without holding or giving up a claim. *)
Lemma ledger_inv_replace l c1 c2 x y eff rs an :
  ledger_inv l (c1 ++ x :: c2) eff rs an -> holds y = None ->
  (forall i a r, y = (i, Claiming a r) -> issued r) -> ledger_inv l (c1 ++ y :: c2) eff rs an.
Proof.
  intros Hinv Hy Hi. pose proof (ledger_inv_drop _ _ _ _ _ _ (middle_sublist c1 c2 x) Hinv) as Hd.
  destruct Hd as [? ? Hh He Hc Hk ? ? ? ? ?]. constructor; try done.
  - rewrite omap_app in *. cbn. by rewrite Hy.
  - intros i a [E|H]%elem_of_middle; [by subst y|by eapply He].
  - intros i a o [E|H]%elem_of_middle; [by subst y|by eapply Hc].
  - intros i a r [E|H]%elem_of_middle; [by eapply Hi|by eapply Hk].
Qed.

Lemma claim_cases l action receipt :
  (is_Some (l !! pa_idempotency_key action) /\ claim l action receipt = (false, l)) \/
  (l !! pa_idempotency_key action = None /\
   exists r, lr_status r = "claimed" /\ claim l action receipt = (true, <[pa_idempotency_key action := r]> l)).
Proof.
  unfold claim. destruct (l !! pa_idempotency_key action) eqn:E; [left; eauto|right].
  split; [done|]. eexists. split; [|reflexivity]. done.
Qed.

(** A claim written to the table, by whoever. *)
Lemma ledger_inv_claim l cs eff rs an k r :
  l !! k = None -> lr_status r = "claimed" ->
  ledger_inv l cs eff rs an -> ledger_inv (<[k := r]> l) cs eff rs an.
Proof.
  intros Hk Hr [? Hp ? He Hc ? ? ? Hrow ? ?].
  assert (forall k', claimed_row l k' -> claimed_row (<[k := r]> l) k') as Hgrow.
  { intros k' (r' & H & ?). exists r'. split; [|done]. rewrite lookup_insert_ne; [done|]. intros ->. congruence. }
  constructor; try done.
  - intros k' H. rewrite lookup_insert. destruct decide; [done|]. by apply Hp.
  - intros i a H. destruct (He i a H) as (? & ? & ?). auto.
  - intros i a o H. destruct (Hc i a o H) as (? & ?). auto.
  - intros k' r'. rewrite lookup_insert. destruct decide as [<-|]; [intros [= <-]; by left|apply Hrow].
Qed.

Lemma holds_elem k (cs : list (nat * call)) : k ∈ omap holds cs <->
  exists i a, k = pa_idempotency_key a /\ ((i, Effecting a) ∈ cs \/ exists o, (i, Completing a o) ∈ cs).
Proof.
  rewrite list_elem_of_omap. split.
  - intros ([i c] & Hin & Hh). destruct c; cbn in Hh; simplify_eq; exists i, action; eauto.
  - intros (i & a & -> & [H|[o H]]); eexists; by split.
Qed.

(** The call that claimed a free key is the only one to hold it. *)
Lemma ledger_inv_start l c1 c2 eff rs an i action receipt r :
  l !! pa_idempotency_key action = None -> lr_status r = "claimed" ->
  ledger_inv l (c1 ++ (i, Claiming action receipt) :: c2) eff rs an ->
  ledger_inv (<[pa_idempotency_key action := r]> l) (c1 ++ (i, Effecting action) :: c2)
    ((action, receipt) :: eff) rs an.
Proof.
  intros Hfree Hr Hinv. set (k := pa_idempotency_key action) in *.
  pose proof (ledger_inv_drop _ _ _ _ _ _ (middle_sublist c1 c2 _) Hinv) as Hd.
  pose proof (ledger_inv_claim _ _ _ _ _ k r Hfree Hr Hd) as [Ho Hp Hh He Hc Hk Hrs Hs Hrow Ha Hi].
  destruct Hd as [_ Hp0 _ He0 Hc0 _ _ Hs0 _ _ _].
  assert (k ∉ effect_keys_of eff) as Hnew.
  { intros H. apply Hp0 in H. rewrite Hfree in H. by destruct H. }
  constructor; try done.
  - by apply NoDup_cons.
  - intros k' [->|H]%elem_of_cons; [by rewrite lookup_insert_eq|by apply Hp].
  - rewrite omap_app in *. cbn. fold k. apply NoDup_app in Hh as Hh'. rewrite <- Permutation_middle.
    apply NoDup_cons. split; [|done]. rewrite <- omap_app. intros (j & a & E & [H|[o H]])%holds_elem.
    + apply Hnew. rewrite E. by apply (He0 j).
    + destruct (Hc0 j a o H) as [_ Hin]. apply Hs0 in Hin as [Hin _]. apply Hnew. by rewrite E.
  - intros j a [E|H]%elem_of_middle.
    + injection E as <- <-. split_and!; [by left|exists r; by rewrite lookup_insert_eq|].
      intros ([k' o] & E & Hin)%list_elem_of_fmap. cbn in E. subst k'. by apply Hs0 in Hin as [? _].
    + destruct (He j a H) as (? & ? & ?). split_and!; [by right|done|done].
  - intros j a o [E|H]%elem_of_middle; [done|by eapply Hc].
  - intros j a r' [E|H]%elem_of_middle; [done|by eapply Hk].
  - intros k' o H. destruct (Hs k' o H). split; [by right|done].
  - constructor; [|done]. destruct Hinv as [_ _ _ _ _ Hk0 _ _ _ _ _]. apply (Hk0 i action). apply elem_of_middle. by left.
Qed.

(** The effect ends: its outcome is the result of the key. *)
Lemma ledger_inv_effect l c1 c2 eff rs an i action o :
  settled o -> ledger_inv l (c1 ++ (i, Effecting action) :: c2) eff rs an ->
  ledger_inv l (c1 ++ (i, Completing action o) :: c2) eff ((pa_idempotency_key action, o) :: rs) an.
Proof.
  intros Hset [Ho Hp Hh He Hc Hk Hrs Hs Hrow Ha Hi]. set (k := pa_idempotency_key action) in *.
  destruct (He i action) as (Hin & Hcl & Hnew); [apply elem_of_middle; by left|].
  constructor; try done.
  - by rewrite omap_app in *.
  - intros j a [E|H]%elem_of_middle; [done|]. destruct (He j a) as (? & ? & ?); [apply elem_of_middle; by right|].
    split_and!; [done|done|]. cbn. rewrite not_elem_of_cons. split; [|done]. intros E.
    rewrite omap_app in Hh. cbn in Hh. rewrite <- Permutation_middle, <- omap_app in Hh.
    apply NoDup_cons in Hh as [Hh _]. apply Hh. apply holds_elem. exists j, a. auto.
  - intros j a o' [E|H]%elem_of_middle; [injection E as <- <- <-; split; [done|by left]|].
    destruct (Hc j a o') as [? ?]; [apply elem_of_middle; by right|]. split; [done|by right].
  - intros j a r [E|H]%elem_of_middle; [done|]. apply (Hk j a). apply elem_of_middle. by right.
  - cbn. by apply NoDup_cons.
  - intros k' o' [E|H]%elem_of_cons; [by injection E as -> ->|by apply Hs].
  - intros k' r H. destruct (Hrow k' r H) as [?|(o' & ? & ?)]; [by left|right]. exists o'. split; [by right|done].
  - intros k' o' H. destruct (Ha k' o' H) as [?|?]; [by left|right]. by right.
Qed.

(** The claimant's row is completed with that result. *)
Lemma ledger_inv_complete l c1 c2 eff rs an i action o :
  ledger_inv l (c1 ++ (i, Completing action o) :: c2) eff rs an ->
  ledger_inv (complete l (pa_idempotency_key action) (pa_tenant_id action) o) (c1 ++ c2) eff rs an.
Proof.
  intros Hinv. set (k := pa_idempotency_key action).
  pose proof (ledger_inv_drop _ _ _ _ _ _ (middle_sublist c1 c2 _) Hinv) as Hd.
  unfold complete. destruct (l !! k) as [r|] eqn:El; [|done]. destruct (row_visible _ r); [|done].
  destruct Hinv as [_ _ Hh0 _ Hc0 _ _ _ _ _ _]. destruct Hd as [Ho Hp Hh He Hc Hk Hrs Hs Hrow Ha Hi].
  rewrite omap_app in Hh0. cbn in Hh0. fold k in Hh0. rewrite <- Permutation_middle, <- omap_app in Hh0.
  apply NoDup_cons in Hh0 as [Hk0 _].
  assert (forall k', k' ∈ omap holds (c1 ++ c2) -> claimed_row l k' -> claimed_row (<[k := completed_row o r]> l) k')
    as Hkeep.
  { intros k' Hin (r' & H & ?). exists r'. split; [|done]. rewrite lookup_insert_ne; [done|]. by intros <-. }
  constructor; try done.
  - intros k' H. rewrite lookup_insert. destruct decide; [done|]. by apply Hp.
  - intros j a H. destruct (He j a H) as (? & ? & ?). split_and!; [done| |done].
    apply Hkeep; [|done]. apply holds_elem. eauto.
  - intros j a o' H. destruct (Hc j a o' H) as (? & ?). split; [|done].
    apply Hkeep; [|done]. apply holds_elem. eauto 6.
  - intros k' r'. rewrite lookup_insert. destruct decide as [<-|]; [|apply Hrow]. intros [= <-]. right.
    exists o. split; [|done]. apply (Hc0 i). apply elem_of_middle. by left.
Qed.

(** A waiting call is answered with the key's result, or knows it is pending. *)
Lemma poll_honest l cs eff rs an key tenant_id timeout_s now expired o :
  ledger_inv l cs eff rs an -> poll l key tenant_id timeout_s now expired = Some (Ok o) ->
  claim_pending timeout_s now = Ok o \/ (key, o) ∈ rs.
Proof.
  intros Hinv. unfold poll, terminal_answer, select_ledger.
  destruct (l !! key) as [r|] eqn:El; cbn; [|destruct expired; [intros [= ?]; by left|done]].
  destruct (row_visible tenant_id r); cbn; [|destruct expired; [intros [= ?]; by left|done]].
  destruct (terminal_status (lr_status r)) as [s|] eqn:Es; cbn;
    [|destruct expired; [intros [= ?]; by left|done]].
  intros [= Hmk]. right.
  destruct (li_rows _ _ _ _ _ Hinv key r El) as [E|(o' & Hin & E1 & E2 & E3 & E4)]; [by rewrite E in Es|].
  destruct (li_settled _ _ _ _ _ Hinv key o' Hin) as [_ [Ht Hok]].
  rewrite E2, E3, E4 in Hmk. rewrite E1, Ht in Es. injection Es as <-. cbn in Hmk. congruence.
Qed.

Definition world_ledger_inv (w : world) : Prop :=
  ledger_inv (wo_ledger w) (wo_calls w) (wo_effects w) (wo_results w) (wo_answers w).

Lemma ledger_inv_answer l cs eff rs an k o :
  ledger_inv l cs eff rs an -> (exists timeout_s now, claim_pending timeout_s now = Ok o) \/ (k, o) ∈ rs ->
  ledger_inv l cs eff rs ((k, o) :: an).
Proof.
  intros [? ? ? ? ? ? ? ? ? Ha ?] Ho. constructor; try done.
  intros k' o' [E|H]%elem_of_cons; [injection E as -> ->; done|by apply Ha].
Qed.

Lemma replica_admit_ok p check action receipt p' :
  replica_admit p check action receipt = (Ok tt, p') ->
  replica_require_valid_receipt p check receipt = Ok tt /\ (rp_in_flight p < rp_max_in_flight p)%Z /\
  p' = rp_with_in_flight p (rp_in_flight p + 1).
Proof.
  unfold replica_admit. destruct (replica_require_valid_receipt p check receipt) as [[]|]; [|done].
  destruct (bool_decide _); cbn; [|done].
  destruct (Z.leb_spec (rp_max_in_flight p) (rp_in_flight p)); [done|]. by intros [= <-].
Qed.

Definition replicas_inv (w : world) : Prop :=
  forall i p, wo_replicas w !! i = Some p ->
    rp_require_receipt p = true /\ rp_in_flight p = Z.of_nat (calls_of i (wo_calls w)) /\
    (rp_in_flight p <= Z.max 0 (rp_max_in_flight p))%Z.

Lemma world_step_ledger w w' :
  world_step w w' -> replicas_inv w -> world_ledger_inv w -> world_ledger_inv w'.
Proof.
  unfold world_ledger_inv. intros Hstep Hrep Hinv.
  destruct Hstep as [ps l cs eff rs an i p p' check action receipt Hp Hck Hadm
    |ps l l' c1 c2 eff rs an i action receipt Hcl|ps l l' c1 c2 eff rs an i action receipt Hcl
    |ps l l' c1 c2 eff rs an i p action receipt Hp Hl|ps l c1 c2 eff rs an i action e timeout_s now o He
    |ps l c1 c2 eff rs an i p action e timeout_s now x Hp He|ps l l' c1 c2 eff rs an i p action o Hp Hl
    |ps l c1 c2 eff rs an i p action timeout_s now expired o Hp Hpoll|ps l c1 c2 eff rs an i p action Hp
    |ps l cs eff rs an i p action Hp|ps l cs eff rs an i m]; cbn in *;
    try (eapply ledger_inv_drop; [|exact Hinv]; apply middle_sublist).
  - destruct (Hrep i p Hp) as [Hreq _]. apply replica_admit_ok in Hadm as (Hv & _ & _).
    assert (issued receipt) as Hi.
    { apply Hck. unfold replica_require_valid_receipt in Hv. rewrite Hreq in Hv. cbn in Hv.
      by apply raise_if_ok, negb_false_iff in Hv. }
    apply (ledger_inv_replace l [] cs (i, Waiting action)); [|done|by intros ??? [= <- <- <-]].
    destruct Hinv as [? ? ? He Hc Hk ? ? ? ? ?].
    constructor; try done; cbn.
    + intros j a [E|H]%elem_of_cons; [done|by eapply He].
    + intros j a o [E|H]%elem_of_cons; [done|by eapply Hc].
    + intros j a r [E|H]%elem_of_cons; [done|by eapply Hk].
  - destruct (claim_cases l action receipt) as [[_ E]|[Hfree (r & Hr & E)]]; rewrite E in Hcl; [done|].
    injection Hcl as <-. by apply ledger_inv_start.
  - destruct (claim_cases l action receipt) as [[_ E]|[Hfree (r & Hr & E)]]; rewrite E in Hcl; [|done].
    injection Hcl as <-. by eapply ledger_inv_replace.
  - pose proof (ledger_inv_drop _ _ _ _ _ _ (middle_sublist c1 c2 _) Hinv) as Hd.
    destruct Hl as [->| ->]; [done|].
    destruct (claim_cases l action receipt) as [[_ ->]|[Hfree (r & Hr & ->)]]; [done|]. by apply ledger_inv_claim.
  - apply ledger_inv_effect; [by eapply effect_outcome_settled|done].
  - apply ledger_inv_answer.
    + destruct Hl as [->| ->]; [|by apply (ledger_inv_complete _ _ _ _ _ _ i)].
      eapply ledger_inv_drop; [|exact Hinv]. apply middle_sublist.
    + right. apply (li_completing _ _ _ _ _ Hinv i action o). apply elem_of_middle. by left.
  - apply ledger_inv_answer; [eapply ledger_inv_drop; [|exact Hinv]; apply middle_sublist|].
    destruct (poll_honest _ _ _ _ _ _ _ _ _ _ _ Hinv Hpoll); [left; eauto|by right].
  - done.
  - eapply ledger_inv_drop; [|exact Hinv]. clear. induction cs as [|c cs IH]; cbn; [done|].
    destruct (negb _); by constructor.
Qed.

Lemma calls_of_middle i c1 c2 j c :
  calls_of i (c1 ++ (j, c) :: c2) = ((if Nat.eqb j i then 1 else 0) + calls_of i (c1 ++ c2))%nat.
Proof.
  unfold calls_of. rewrite !List.filter_app, !length_app. cbn. destruct (Nat.eqb j i); cbn; lia.
Qed.

Lemma calls_of_crashed i j cs :
  calls_of i (List.filter (fun c => negb (Nat.eqb c.1 j)) cs) = if decide (i = j) then 0%nat else calls_of i cs.
Proof.
  unfold calls_of. induction cs as [|[n c] cs IH]; cbn; [by destruct decide|].
  destruct (Nat.eqb_spec n j) as [->|Hn]; cbn.
  - rewrite IH. destruct decide as [->|Hne]; [done|]. by destruct (Nat.eqb_spec j i); [congruence|].
  - destruct (Nat.eqb_spec n i) as [->|]; cbn; rewrite IH; by destruct decide.
Qed.

(** Leaving ends one call of the replica. *)
Lemma replicas_leave (ps : gmap nat Replica) cs cs' i p :
  ps !! i = Some p ->
  (forall j p', ps !! j = Some p' -> rp_require_receipt p' = true /\ rp_in_flight p' = Z.of_nat (calls_of j cs) /\
     (rp_in_flight p' <= Z.max 0 (rp_max_in_flight p'))%Z) ->
  (forall j, calls_of j cs = ((if Nat.eqb i j then 1 else 0) + calls_of j cs')%nat) ->
  forall j p', <[i := replica_leave p]> ps !! j = Some p' ->
    rp_require_receipt p' = true /\ rp_in_flight p' = Z.of_nat (calls_of j cs') /\
    (rp_in_flight p' <= Z.max 0 (rp_max_in_flight p'))%Z.
Proof.
  intros Hp Hinv Hc j p'. rewrite lookup_insert. specialize (Hc j).
  destruct decide as [<-|Hne]; [intros [= <-]|intros H].
  - destruct (Hinv i p Hp) as (? & ? & ?). rewrite Nat.eqb_refl in Hc. cbn in *. split_and!; [done|lia|lia].
  - destruct (Hinv j p' H) as (? & ? & ?). destruct (Nat.eqb_spec i j); [done|]. split_and!; [done|lia|done].
Qed.

Lemma world_step_replicas w w' : world_step w w' -> replicas_inv w -> replicas_inv w'.
Proof.
  unfold replicas_inv. intros Hstep Hinv.
  destruct Hstep as [ps l cs eff rs an i p p' check action receipt Hp Hck Hadm
    | | |ps l l' c1 c2 eff rs an i p action receipt Hp Hl|
    |ps l c1 c2 eff rs an i p action e timeout_s now x Hp He|ps l l' c1 c2 eff rs an i p action o Hp Hl
    |ps l c1 c2 eff rs an i p action timeout_s now expired o Hp Hpoll|ps l c1 c2 eff rs an i p action Hp
    |ps l cs eff rs an i p action Hp|ps l cs eff rs an i m]; cbn [wo_replicas wo_calls] in *;
    try (eapply replicas_leave; [done|exact Hinv|]; intros j; apply calls_of_middle);
    try (intros j q Hq; destruct (Hinv j q Hq) as (? & Hf & ?); rewrite calls_of_middle in Hf |- *; done).
  - apply replica_admit_ok in Hadm as (_ & Hlt & ->). destruct (Hinv i p Hp) as (? & ? & ?).
    intros j q. rewrite lookup_insert. unfold calls_of. cbn. destruct decide as [<-|Hne]; [intros [= <-]|intros Hq].
    + rewrite Nat.eqb_refl. cbn in *. unfold calls_of in *. split_and!; [done|lia|lia].
    + destruct (Nat.eqb_spec i j); [done|]. by apply Hinv.
  - intros j q. rewrite lookup_insert. destruct decide as [<-|Hne]; [intros [= <-]|by apply Hinv].
    by apply (Hinv i p).
  - intros j q. rewrite lookup_insert, calls_of_crashed. destruct decide as [<-|Hne].
    + intros [= <-]. rewrite decide_True by done. cbn. split_and!; [done|done|lia].
    + rewrite decide_False by done. apply Hinv.
Qed.

(** C28.  At most once across replicas.  Whatever number of replicas share the
    ledger, however their calls interleave, whichever transactions fail before
    or after their commit and whenever replicas crash and restart: no
    idempotency key starts two effects, on any replicas; every effect had a
    receipt the evidence store attested; no replica has more calls in flight
    than its bound; and every caller of a key is told either the one result of
    that key's effect, or that its claim is still pending, never anything
    else. *)
Theorem replicas_dispatch_at_most_once (ps : gmap nat Replica) w :
  (forall i p, ps !! i = Some p -> rp_require_receipt p = true /\ rp_in_flight p = 0%Z) ->
  rtc world_step (world_init ps) w ->
  NoDup (effect_keys_of (wo_effects w)) /\ Forall (fun e => issued e.2) (wo_effects w) /\
  (forall i p, wo_replicas w !! i = Some p ->
     (Z.of_nat (calls_of i (wo_calls w)) <= Z.max 0 (rp_max_in_flight p))%Z) /\
  NoDup (wo_results w).*1 /\
  (forall k o, (k, o) ∈ wo_answers w ->
     (exists timeout_s now, claim_pending timeout_s now = Ok o) \/
     ((k, o) ∈ wo_results w /\ k ∈ effect_keys_of (wo_effects w))).
Proof.
  intros Hps Hrun. assert (replicas_inv w /\ world_ledger_inv w) as [Hrep Hl].
  { assert (replicas_inv (world_init ps) /\ world_ledger_inv (world_init ps)) as H0.
    { split; [intros i p Hp; destruct (Hps i p Hp) as [? ->]; split_and!; [done|done|lia]|].
      constructor; cbn; try (by constructor); try done; intros; set_solver. }
    revert H0. induction Hrun as [|x y z Hxy _ IH]; [done|]. intros [Hr Hl]. apply IH.
    split; [by eapply world_step_replicas|by eapply world_step_ledger]. }
  split_and!; [apply Hl|apply Hl| |apply Hl|].
  - intros i p Hp. destruct (Hrep i p Hp) as (_ & ? & ?). lia.
  - intros k o H. destruct (li_answers _ _ _ _ _ Hl k o H) as [?|Hin]; [by left|right].
    split; [done|]. by apply (li_settled _ _ _ _ _ Hl k o).
Qed.
End interleaving.

(** ** One call, and one retried on another replica *)

Definition sample_replica : Replica := replica_register (replica_init 1 true) "payments.wire".

Lemma replicas_dispatch_at_most_once_witness :
  exists w, rtc (world_step any_repr (fun _ => True)) (world_init {[0%nat := replica_init 1 true]}) w /\
    length (wo_effects w) = 1%nat /\ NoDup (effect_keys_of (wo_effects w)).
Proof.
  eassert (rtc (world_step any_repr (fun _ => True)) (world_init {[0%nat := replica_init 1 true]}) _) as Hrun.
  { eapply rtc_l; [eapply (WRegister _ _ _ _ _ _ _ _ 0%nat (replica_init 1 true) "payments.wire"); reflexivity|].
    eapply rtc_l; [eapply (WAdmit _ _ _ _ _ _ _ _ 0%nat sample_replica _ (fun _ => true) (sample_action "x")
                             sample_evidence_receipt); [reflexivity|done|vm_compute; reflexivity]|].
    eapply rtc_l; [eapply (WClaimed _ _ _ _ _ [] [] _ _ _ 0%nat (sample_action "x")); reflexivity|apply rtc_refl]. }
  eexists. split; [exact Hrun|]. split; [reflexivity|].
  apply (replicas_dispatch_at_most_once any_repr (fun _ => True) {[0%nat := replica_init 1 true]} _);
    [|exact Hrun].
  intros i p Hp. apply lookup_singleton_Some in Hp as [_ <-]. by split.
Defined.

(** A call that claims its key runs the effect, and a retry of it on any
    replica, at any later time, is answered with the same outcome, without a
    second effect and without a change of the table. *)
Lemma retry_is_answered_from_the_ledger py_repr l p q check check' effect effect' action receipt receipt'
    timeout_s now timeout_s' now' o l' p' :
  l !! pa_idempotency_key action = None ->
  pg_dispatch py_repr l p check effect action receipt timeout_s now = (Ok o, (l', p')) ->
  (replica_admit q check' action receipt').1 = Ok tt ->
  effect_outcome py_repr (effect action) timeout_s now = Ok o /\
  pg_dispatch py_repr l' q check' effect' action receipt' timeout_s' now' =
    (Ok o, (l', replica_leave (replica_admit q check' action receipt').2)).
Proof.
  intros Hfree Hd Hq. unfold pg_dispatch in Hd.
  destruct (replica_admit p check action receipt) as [[[]|] p1]; [|done].
  unfold claim in Hd. rewrite Hfree in Hd. set (r := {| lr_status := "claimed" |}) in Hd.
  destruct (effect_outcome py_repr (effect action) timeout_s now) as [o'|] eqn:He; [|done].
  unfold complete in Hd. rewrite lookup_insert_eq in Hd. cbn [lr_tenant_id row_visible] in Hd.
  unfold row_visible in Hd. cbn [lr_tenant_id r] in Hd. rewrite String.eqb_refl in Hd. injection Hd as <- <- <-.
  split; [done|]. apply effect_outcome_settled in He as [Ht Hmk]. unfold pg_dispatch.
  destruct (replica_admit q check' action receipt') as [[[]|] q1]; [|done].
  unfold claim. rewrite lookup_insert_eq. cbn [snd].
  unfold terminal_answer, select_ledger. rewrite lookup_insert_eq. cbn [mbind option_bind].
  unfold row_visible. cbn [lr_tenant_id completed_row r]. rewrite String.eqb_refl. cbn [mbind option_bind].
  cbn [lr_status completed_row]. rewrite Ht. cbn. by rewrite Hmk.
Qed.

(** The key is not scoped to a tenant: another tenant's action under a key
    already taken is never run, and the row that took it is hidden from it. *)
Example ledger_key_blocks_other_tenant :
  let check := Some (fun _ => true) in
  let l' := (pg_dispatch any_repr ∅ sample_replica check sample_effect (sample_action "x")
               sample_evidence_receipt (fz 5) (fz 20)).2.1 in
  eo_error_class <$>
    (pg_dispatch any_repr l' sample_replica check sample_effect (in_tenant (sample_action "x") "t2")
       sample_evidence_receipt (fz 5) (fz 30)).1 = Ok (Some "DispatchClaimPending").
Proof. vm_compute. reflexivity. Qed.
