(* ===== verification/Ports.v ===== *)
(** * Ports and programs over them ([glassbox/ports/])

    The decision service talks to the rest of the system only through the
    ports wired into its runtime.  A program over the ports is a value, a
    raised exception, or a port call with what to do for each response; the
    response may be any value of the port's type or any exception.  [exec] is
    what a program may do against any environment whatsoever: the sequence of
    port calls with their responses, and how it ends.  [run] is what it does
    against a given one. *)

From stdpp Require Import base tactics list strings.
From Stdlib Require Import ZArith Lia.
From S2P Require Import Prelude PyFloat PyStr Serialization Action Identity Mandate Limits Risk Decision Catalogue Evidence GovernanceState.

(** The port methods the decision service calls, with their responses.  [NewId]
    is [uuid.uuid4] behind [_new_id]; [CreateWorkflow] answers the id of the
    workflow it created. *)
Inductive port : Set -> Set :=
| ClockNow : port float
| NewId (prefix : string) : port string
| ToolResolve (tenant_id tool_name definition_sha256 : string) : port ToolDefinition
| CatalogueResolve (tenant_id action : string) : port ActionDefinition
| AttestationResolve (tenant_id : string) (resource : ResourceRef) (name : string) (now : float) : port bool
| Verify (credential : RawCredential) (now : float) : port VerifiedPrincipal
| AssertMatches (principal : VerifiedPrincipal) (asserted_tenant_id asserted_subject : string) : port unit
| GloballyEngaged : port bool
| TenantEngaged (tenant_id : string) : port bool
| MandateGet (tenant_id agent_ref : string) (now : float) : port (option Mandate)
| MandateIsRevoked (tenant_id agent_ref : string) (now : float) : port bool
| Decide (request : AuthorizationRequest) : port AuthorizationDecision
| Score (inputs : RiskInputs) : port RiskScore
| TryConsume (key : LimitKey) (cost : float) (decision_id : string) (now : float) : port LimitVerdict
| Release (key : LimitKey) (decision_id : string) : port unit
| Evaluate (key : BaselineKey) (observation : float) (peer_group : string) (threshold now : float)
    : port BaselineVerdict
| Observe (key : BaselineKey) (observation now : float) : port unit
| CreateWorkflow (decision_id agent_id decision_type : string) (risk_score : float)
    (violations warnings : list string) (sla_minutes : Z) : port string
| AppendIntent (record : IntentRecord) : port EvidenceReceipt
| AppendOutcome (receipt : EvidenceReceipt) (outcome : OutcomeRecord) : port unit
| Dispatch (action : ProposedAction) (receipt : EvidenceReceipt) (timeout_s now : float) : port ExecutionOutcome.

Inductive prog (A : Type) : Type :=
| Ret (a : A)
| Throw (e : exn)
| Call {X : Set} (p : port X) (k : res X -> prog A).
Arguments Ret {A} a.
Arguments Throw {A} e.
Arguments Call {A X} p k.

Section combinators.
Context {A B : Type}.

Fixpoint prog_bind_ (p : prog A) (f : A -> prog B) : prog B :=
  match p with
  | Ret a => f a
  | Throw e => Throw e
  | Call q k => Call q (fun r => prog_bind_ (k r) f)
  end.

(** [try: p except ...: h]: [h e] is the handler of [e], or re-raises it. *)
Fixpoint try_except (p : prog A) (h : exn -> prog A) : prog A :=
  match p with
  | Ret a => Ret a
  | Throw e => h e
  | Call q k => Call q (fun r => try_except (k r) h)
  end.

Definition lift (r : res A) : prog A := match r with Ok a => Ret a | Raise e => Throw e end.
End combinators.

Definition call {X : Set} (p : port X) : prog X := Call p lift.

#[export] Instance prog_ret : MRet prog := fun _ a => Ret a.
#[export] Instance prog_bind : MBind prog := fun _ _ f p => prog_bind_ p f.

(** ** What a program may do *)

Inductive event :=
| Ev {X : Set} (p : port X) (r : res X).

Inductive exec {A} : prog A -> list event -> res A -> Prop :=
| ExecRet a : exec (Ret a) [] (Ok a)
| ExecThrow e : exec (Throw e) [] (Raise e)
| ExecCall (X : Set) (p : port X) (k : res X -> prog A) r t o :
    exec (k r) t o -> exec (Call p k) (Ev p r :: t) o.

Lemma exec_ret_inv {A} (a : A) t o : exec (Ret a) t o -> t = [] /\ o = Ok a.
Proof. by inversion 1. Qed.

Lemma exec_throw_inv {A} e t (o : res A) : exec (Throw e) t o -> t = [] /\ o = Raise e.
Proof. by inversion 1. Qed.

Lemma exec_Call_inv {A} {X : Set} (p : port X) (k : res X -> prog A) t o :
  exec (Call p k) t o -> exists r t', t = Ev p r :: t' /\ exec (k r) t' o.
Proof.
  intros H. remember (Call p k) as q eqn:Eq.
  destruct H as [| |Y q' k' r t o H]; [discriminate | discriminate |].
  revert H. refine (match Eq in _ = c return
    match c with
    | Call p0 k0 => exec (k' r) t o -> exists r0 t', Ev q' r :: t = Ev p0 r0 :: t' /\ exec (k0 r0) t' o
    | _ => True
    end with eq_refl => _ end).
  intros H. by exists r, t.
Qed.

Lemma exec_lift_inv {A} (r : res A) t o : exec (lift r) t o -> t = [] /\ o = r.
Proof. destruct r; cbn; [apply exec_ret_inv | apply exec_throw_inv]. Qed.

Lemma exec_call_inv {X : Set} (p : port X) t o : exec (call p) t o -> t = [Ev p o].
Proof.
  intros (r & t' & -> & H)%exec_Call_inv. by apply exec_lift_inv in H as (-> & ->).
Qed.

Lemma exec_bind_inv {A B} (p : prog A) (f : A -> prog B) t o :
  exec (p ≫= f) t o ->
  (exists e, exec p t (Raise e) /\ o = Raise e) \/
  (exists a t1 t2, t = t1 ++ t2 /\ exec p t1 (Ok a) /\ exec (f a) t2 o).
Proof.
  unfold mbind, prog_bind. revert t. induction p as [a|e|X q k IH]; intros t; cbn [prog_bind_].
  - intros H. right. exists a, [], t. split_and!; [done | constructor | done].
  - intros (-> & ->)%exec_throw_inv. left. exists e. split; [constructor | done].
  - intros (r & t' & -> & H)%exec_Call_inv.
    destruct (IH r t' H) as [(e & He & ->)|(a & t1 & t2 & -> & H1 & H2)].
    + left. exists e. split; [by constructor | done].
    + right. exists a, (Ev q r :: t1), t2. split_and!; [done | by constructor | done].
Qed.

Lemma exec_try_inv {A} (p : prog A) h t o :
  exec (try_except p h) t o ->
  (exists a, exec p t (Ok a) /\ o = Ok a) \/
  (exists e t1 t2, t = t1 ++ t2 /\ exec p t1 (Raise e) /\ exec (h e) t2 o).
Proof.
  revert t. induction p as [a|e|X q k IH]; intros t; cbn [try_except].
  - intros (-> & ->)%exec_ret_inv. left. exists a. split; [constructor | done].
  - intros H. right. exists e, [], t. split_and!; [done | constructor | done].
  - intros (r & t' & -> & H)%exec_Call_inv.
    destruct (IH r t' H) as [(a & Ha & ->)|(e & t1 & t2 & -> & H1 & H2)].
    + left. exists a. split; [by constructor | done].
    + right. exists e, (Ev q r :: t1), t2. split_and!; [done | by constructor | done].
Qed.

(** ** Running against an environment *)

Section running.
Context {S : Type} (env : forall X : Set, port X -> S -> res X * S).

Fixpoint run {A} (p : prog A) (s : S) : res A * S * list event :=
  match p with
  | Ret a => (Ok a, s, [])
  | Throw e => (Raise e, s, [])
  | Call q k =>
      let '(r, s1) := env _ q s in
      let '(o, s2, t) := run (k r) s1 in
      (o, s2, Ev q r :: t)
  end.

(** Whatever the environment, a run is one of the executions. *)
Lemma run_exec {A} (p : prog A) s o s' t : run p s = (o, s', t) -> exec p t o.
Proof.
  revert s o s' t. induction p as [a|e|X q k IH]; intros s o s' t; cbn [run].
  - intros [= <- <- <-]. constructor.
  - intros [= <- <- <-]. constructor.
  - destruct (env X q s) as [r s1]. destruct (run (k r) s1) as [[o2 s2] t2] eqn:E.
    intros [= <- <- <-]. constructor. by eapply IH.
Qed.
End running.

(** ** Programs that never make certain calls *)

(** A class of port calls. *)
Definition call_class := forall X : Set, port X -> bool.

Fixpoint never {A} (C : call_class) (p : prog A) : Prop :=
  match p with
  | Ret _ | Throw _ => True
  | Call q k => C _ q = false /\ forall r, never C (k r)
  end.

(** No event of the trace is a call of the class. *)
Definition event_in (C : call_class) (e : event) : bool := let 'Ev p _ := e in C _ p.
Definition free_of (C : call_class) (t : list event) : Prop := Forall (fun e => event_in C e = false) t.

Lemma never_bind {A B} C (p : prog A) (f : A -> prog B) :
  never C p -> (forall a, never C (f a)) -> never C (p ≫= f).
Proof.
  unfold mbind, prog_bind. intros Hp Hf. induction p as [a|e|X q k IH]; cbn in *; [done | done |].
  destruct Hp as [Hq Hk]. split; [done|]. intros r. by apply IH.
Qed.

Lemma never_try {A} C (p : prog A) h : never C p -> (forall e, never C (h e)) -> never C (try_except p h).
Proof.
  intros Hp Hh. induction p as [a|e|X q k IH]; cbn in *; [done | done |].
  destruct Hp as [Hq Hk]. split; [done|]. intros r. by apply IH.
Qed.

Lemma never_lift {A} C (r : res A) : never C (lift r).
Proof. by destruct r. Qed.

Lemma never_call {X : Set} (C : call_class) (p : port X) : C _ p = false -> never C (call p).
Proof. intros Hp. split; [done|]. apply never_lift. Qed.

Lemma never_free {A} C (p : prog A) t o : never C p -> exec p t o -> free_of C t.
Proof.
  intros Hp Hex. induction Hex as [| |X q k r t o Hex IH]; [constructor..|].
  destruct Hp as [Hq Hk]. constructor; [done|]. by apply IH.
Qed.

#[export] Hint Resolve never_lift never_call : glassbox.

Lemma free_of_app C t1 t2 : free_of C (t1 ++ t2) <-> free_of C t1 /\ free_of C t2.
Proof. apply Forall_app. Qed.

Lemma free_of_elem C t (X : Set) (p : port X) r : free_of C t -> Ev p r ∈ t -> C _ p = false.
Proof. unfold free_of. rewrite Forall_forall. intros Ht Hin. by apply Ht in Hin. Qed.

(** ** Views of an event

    The arguments and the response of an event of one kind. *)

Definition consume_view (e : event) : option (LimitKey * float * string * float * res LimitVerdict) :=
  match e with
  | @Ev X p r =>
      match p in port X return res X -> _ with
      | TryConsume k c d n => fun r => Some (k, c, d, n, r)
      | _ => fun _ => None
      end r
  end.

Definition dispatch_view (e : event)
    : option (ProposedAction * EvidenceReceipt * float * float * res ExecutionOutcome) :=
  match e with
  | @Ev X p r =>
      match p in port X return res X -> _ with
      | Dispatch a rc t n => fun r => Some (a, rc, t, n, r)
      | _ => fun _ => None
      end r
  end.

Definition intent_view (e : event) : option (IntentRecord * res EvidenceReceipt) :=
  match e with
  | @Ev X p r =>
      match p in port X return res X -> _ with
      | AppendIntent rec => fun r => Some (rec, r)
      | _ => fun _ => None
      end r
  end.

Lemma consume_event_inj k c d n r k' c' d' n' r' :
  Ev (TryConsume k c d n) r = Ev (TryConsume k' c' d' n') r' -> k = k' /\ c = c' /\ d = d' /\ n = n' /\ r = r'.
Proof. intros H%(f_equal consume_view). cbn in H. by injection H. Qed.

Lemma dispatch_event_inj a rc t n r a' rc' t' n' r' :
  Ev (Dispatch a rc t n) r = Ev (Dispatch a' rc' t' n') r' ->
  a = a' /\ rc = rc' /\ t = t' /\ n = n' /\ r = r'.
Proof. intros H%(f_equal dispatch_view). cbn in H. by injection H. Qed.

Lemma intent_event_inj rec r rec' r' : Ev (AppendIntent rec) r = Ev (AppendIntent rec') r' -> rec = rec' /\ r = r'.
Proof. intros H%(f_equal intent_view). cbn in H. by injection H. Qed.

(** Take an execution apart. *)
Ltac inv_exec :=
  repeat match goal with
  | H : exec (Ret _) _ _ |- _ => apply exec_ret_inv in H as [? ?]; subst
  | H : exec (Throw _) _ _ |- _ => apply exec_throw_inv in H as [? ?]; subst
  | H : exec (lift _) _ _ |- _ => apply exec_lift_inv in H as [? ?]; subst
  | H : exec (call _) _ _ |- _ => apply exec_call_inv in H; subst
  end.

(** Show that a program never makes calls of a class, by its structure. *)
Ltac solve_never :=
  repeat first
    [ done
    | apply never_lift
    | apply never_bind; [|intros ?]
    | apply never_try; [|intros ?]
    | apply never_call; reflexivity
    | match goal with |- never _ (match ?x with _ => _ end) => destruct x end
    | progress cbn [never] ].
