(* ===== verification/DecisionService.v ===== *)
(** * The decision service ([glassbox/app/decision_service.py])

    Every method is a program over the ports.  Logging, metrics, tracing and
    context binding leave no mark on a decision and are left out.  A decision
    object is a value: [_materialize_approval_metadata] writes approval fields
    onto the object the policy decision point returned, which no other code of
    the service holds. *)

From stdpp Require Import base tactics list strings gmap.
From Stdlib Require Import ZArith Lia.
From S2P Require Import Prelude PyFloat PyStr Serialization Action Identity Mandate Limits Risk Decision Catalogue Evidence GovernanceState PromptInjection Ports.

Open Scope string_scope.
Open Scope list_scope.

(** The settings the service reads from its runtime, and the approval gateway's
    [default_sla_minutes] (60 where the attribute is missing) if one is wired. *)
Record ServiceConfig := {
  cf_segment_prefix : string;
  cf_enforce_threshold : bool;
  cf_deny_level : RiskLevel;
  cf_default_window_seconds : Z;
  cf_anomaly_threshold : float;
  cf_default_timeout_s : float;
  cf_workflow_sla : option Z
}.

Record DecisionOutcome := {
  do_decision_id : string;
  do_decision : AuthorizationDecision;
  do_receipt : EvidenceReceipt;
  do_execution : ExecutionOutcome
}.

Definition SEGMENT_ROTATION_SECONDS : Z := 86400.
Definition BASELINE_WINDOW_SECONDS : Z := 30 * SEGMENT_ROTATION_SECONDS.
Definition RISK_UNAVAILABLE_MODEL_VERSION : string := "risk-engine-unavailable".
Definition UNGOVERNED_CONSEQUENCE : ConsequenceClass := IRREVERSIBLE.
Definition UNGOVERNED_EXPOSURE : Exposure :=
  {| ex_blast_radius := BLAST_GLOBAL; ex_monetary := None; ex_records := None |}.

(** ** Helpers *)

(** The response of a port, exceptions included: the subject of a [try]. *)
Definition attempt {X : Set} (p : port X) : prog (res X) := Call p Ret.

Definition stage (name : string) (status : StageStatus) (reason : option string) : prog StageOutcome :=
  lift (mk_StageOutcome name status (fz 0) reason).
Definition skipped (name reason : string) : prog StageOutcome := stage name STAGE_SKIPPED (Some reason).
Definition executed (name : string) : prog StageOutcome := stage name STAGE_EXECUTED None.
Definition failed (name reason : string) : prog StageOutcome := stage name STAGE_FAILED (Some reason).

Definition deny (reason : DenialReason) (rationale : string) : prog AuthorizationDecision :=
  lift (decision_deny [reason] rationale None None []).

(** What a stage returns: its outcome and the denial it decided, if any. *)
Abbreviation stage_result := (StageOutcome * option AuthorizationDecision)%type.

Definition pass (s : prog StageOutcome) : prog stage_result := o ← s; Ret (o, None).
Definition refuse (s : prog StageOutcome) (d : prog AuthorizationDecision) : prog stage_result :=
  o ← s; x ← d; Ret (o, Some x).

(** [int(now // 86400)] of a timestamp, which the caller has validated. *)
Definition segment_period (now : float) : Z :=
  match now with
  | SpecFloat.S754_finite s m e =>
      let z := if s then Z.neg m else Z.pos m in
      if (0 <=? e)%Z then z * 2 ^ e / SEGMENT_ROTATION_SECONDS
      else z / (SEGMENT_ROTATION_SECONDS * 2 ^ (- e))
  | _ => 0
  end.

Definition param_pairs (parameters : list (string * pyval)) : pairs_arg :=
  AsTuple (sort_by fst parameters).

(** [x or _new_id(prefix)]. *)
Definition id_or_new (given : option string) (prefix : string) : prog string :=
  match given with
  | Some s => if str_is_empty s then call (NewId prefix) else Ret s
  | None => call (NewId prefix)
  end.

Definition or_no_provenance (p : option ModelProvenance) : ModelProvenance := from_option id no_provenance p.

(** [_scan_untrusted_text_fields], in some order of the set of names. *)
Definition scan_untrusted_text_fields (definition : ActionDefinition) (parameters : list (string * pyval))
    : list string :=
  List.filter (fun field_name =>
    match dict_get parameters field_name with
    | None | Some PNone => false
    | Some value => pi_flagged (scan field_name value)
    end) (elements (df_untrusted_text_fields definition)).

Section service.
Variable config : ServiceConfig.

Definition segment_id_for (tenant_id : string) (now : float) : string :=
  cf_segment_prefix config +:+ "-" +:+ tenant_id +:+ "-" +:+ str_of_int (segment_period now).

(** ** Stages *)

Definition ungoverned_placeholder (resource : ResourceRef) (action_name : string)
    (parameters : list (string * pyval)) (idempotency_key : string) : prog ProposedAction :=
  lift (mk_ProposedAction action_name resource UNGOVERNED_CONSEQUENCE UNGOVERNED_EXPOSURE
          idempotency_key (param_pairs parameters)).

(** The action of a governed definition. *)
Definition governed_action (definition : ActionDefinition) (resource : ResourceRef)
    (parameters : list (string * pyval)) (idempotency_key : string) : prog ProposedAction :=
  lift (exposure ← extract (df_exposure_rule definition) parameters;
        mk_ProposedAction (df_action definition) resource (df_consequence definition) exposure
          idempotency_key (param_pairs parameters)).

(** The action, the stage, the denial and the sensitive fields. *)
Abbreviation resolution := (ProposedAction * StageOutcome * option AuthorizationDecision * gset string)%type.

Definition resolved (action : prog ProposedAction) (st : prog stage_result) (sensitive : gset string)
    : prog resolution :=
  a ← action; r ← st; Ret (a, r.1, r.2, sensitive).

Definition check_tool_registry (tenant_id tool_name definition_sha256 : string) (resource : ResourceRef)
    (parameters : list (string * pyval)) (idempotency_key : string) : prog resolution :=
  let placeholder := ungoverned_placeholder resource tool_name parameters idempotency_key in
  r ← attempt (ToolResolve tenant_id tool_name definition_sha256);
  match r with
  | Raise ToolRegistryUnavailableError =>
      resolved placeholder
        (refuse (failed "tool_registry" "registry unavailable")
           (deny DEPENDENCY_UNAVAILABLE "tool registry unavailable")) ∅
  | Raise ToolQuarantinedError =>
      resolved placeholder
        (refuse (executed "tool_registry")
           (deny DENIED_TOOL_DEFINITION_CHANGED
              (str_repr tool_name +:+ " definition changed and awaits re-approval"))) ∅
  | Raise ToolNotGovernedError =>
      resolved placeholder
        (refuse (executed "tool_registry")
           (deny TOOL_NOT_GOVERNED
              (str_repr tool_name +:+ " is not a governed tool at the presented definition"))) ∅
  | Raise e => Throw e
  | Ok tool_definition =>
      let definition := td_action tool_definition in
      resolved (governed_action definition resource parameters idempotency_key)
        (pass (executed "tool_registry")) (df_sensitive_parameter_fields definition)
  end.

(** [_first_unsatisfied_attestation]. *)
Fixpoint first_unsatisfied_attestation (tenant_id : string) (resource : ResourceRef) (names : list string)
    (now : float) : prog (option string) :=
  match names with
  | [] => Ret None
  | name :: names' =>
      r ← attempt (AttestationResolve tenant_id resource name now);
      match r with
      | Raise AttestationUnavailableError => Ret (Some name)
      | Raise e => Throw e
      | Ok false => Ret (Some name)
      | Ok true => first_unsatisfied_attestation tenant_id resource names' now
      end
  end.

Definition check_catalogue (tenant_id action_name : string) (resource : ResourceRef)
    (parameters : list (string * pyval)) (idempotency_key : string) (now : float) : prog resolution :=
  let placeholder := ungoverned_placeholder resource action_name parameters idempotency_key in
  r ← attempt (CatalogueResolve tenant_id action_name);
  match r with
  | Raise CatalogueBundleUnavailableError =>
      resolved placeholder
        (refuse (failed "catalogue" "catalogue unavailable")
           (deny DEPENDENCY_UNAVAILABLE "action catalogue unavailable")) ∅
  | Raise ActionNotGovernedError =>
      resolved placeholder
        (refuse (executed "catalogue")
           (deny ACTION_NOT_GOVERNED
              (str_repr action_name +:+ " has no entry in the governed action catalogue"))) ∅
  | Raise e => Throw e
  | Ok definition =>
      action ← governed_action definition resource parameters idempotency_key;
      if negb (is_nil (validate_parameters definition parameters))
      then Throw (DomainValidationError "parameters")
      else
        let flagged_fields := scan_untrusted_text_fields definition parameters in
        let sensitive := df_sensitive_parameter_fields definition in
        if negb (is_nil flagged_fields) then
          resolved (Ret action)
            (refuse (executed "catalogue")
               (deny PROMPT_INJECTION_DETECTED
                  ("untrusted text field(s) " +:+ str_join ", " flagged_fields +:+
                   " matched an injection pattern"))) sensitive
        else
          unsatisfied ← first_unsatisfied_attestation tenant_id resource
                          (df_required_attestations definition) now;
          match unsatisfied with
          | Some name =>
              resolved (Ret action)
                (refuse (executed "catalogue")
                   (deny ATTESTATION_NOT_SATISFIED
                      ("required attestation " +:+ str_repr name +:+ " was not satisfied"))) sensitive
          | None => resolved (Ret action) (pass (executed "catalogue")) sensitive
          end
  end.

Definition check_identity_assertion (principal : VerifiedPrincipal)
    (asserted_tenant_id asserted_subject : string) : prog stage_result :=
  r ← attempt (AssertMatches principal asserted_tenant_id asserted_subject);
  match r with
  | Ok _ => pass (executed "identity")
  | Raise e =>
      if is_identity_error e
      then refuse (failed "identity" "asserted identity mismatch")
             (deny IDENTITY_UNVERIFIED "asserted identity does not match the verified credential")
      else Throw e
  end.

(** [is_globally_engaged() or is_tenant_engaged(tenant_id)]. *)
Definition kill_switch_engaged (tenant_id : string) : prog bool :=
  g ← call GloballyEngaged;
  if (g : bool) then Ret true else call (TenantEngaged tenant_id).

Definition check_kill_switch (tenant_id : string) (action : ProposedAction) : prog stage_result :=
  if may_degrade_on_dependency_failure (pa_consequence action)
  then pass (skipped "kill_switch" "action is advisory")
  else
    r ← try_except (e ← kill_switch_engaged tenant_id; Ret (Ok e)) (fun e => Ret (Raise e));
    match r with
    | Raise KillSwitchUnavailableError =>
        refuse (failed "kill_switch" "switch unavailable")
          (deny DEPENDENCY_UNAVAILABLE "kill switch unavailable")
    | Raise e => Throw e
    | Ok true =>
        refuse (executed "kill_switch") (deny KILL_SWITCH_ENGAGED "emergency stop is engaged")
    | Ok false => pass (executed "kill_switch")
    end.

(** The two [except MandateError] clauses. *)
Definition mandate_unavailable (action : ProposedAction) : prog stage_result :=
  if may_degrade_on_dependency_failure (pa_consequence action)
  then pass (skipped "mandate" "mandate store unavailable; action is advisory")
  else refuse (failed "mandate" "store unavailable")
         (deny DEPENDENCY_UNAVAILABLE "mandate store unavailable").

Definition check_mandate (principal : VerifiedPrincipal) (action : ProposedAction) (now : float)
    : prog stage_result :=
  r ← attempt (MandateGet (vp_tenant_id principal) (vp_agent_ref principal) now);
  match r with
  | Raise MandateError => mandate_unavailable action
  | Raise e => Throw e
  | Ok None =>
      refuse (executed "mandate") (deny MANDATE_MISSING "no active mandate for this agent")
  | Ok (Some mandate) =>
      r ← attempt (MandateIsRevoked (vp_tenant_id principal) (vp_agent_ref principal) now);
      match r with
      | Raise MandateError => mandate_unavailable action
      | Raise e => Throw e
      | Ok true =>
          refuse (executed "mandate") (deny MANDATE_REVOKED "agent's authority has been revoked")
      | Ok false =>
          verdict ← lift (permits mandate action now);
          if negb (mv_permitted verdict)
          then refuse (executed "mandate")
                 (deny MANDATE_EXCEEDED
                    (str_or (mv_detail verdict) "mandate does not permit this action"))
          else pass (executed "mandate")
      end
  end.

Definition check_policy (request : AuthorizationRequest) : prog (AuthorizationDecision * StageOutcome) :=
  r ← attempt (Decide request);
  match r with
  | Raise PolicyBundleUnavailableError =>
      d ← deny POLICY_BUNDLE_UNAVAILABLE "no active policy bundle";
      s ← failed "policy" "bundle unavailable";
      Ret (d, s)
  | Raise e => Throw e
  | Ok decision => s ← executed "policy"; Ret (decision, s)
  end.

Definition compute_risk (action : ProposedAction) (now : float)
    : prog (RiskScore * StageOutcome * option AuthorizationDecision) :=
  inputs ← lift (mk_RiskInputs (pa_consequence action) (pa_exposure action) now [] (AsTuple []));
  r ← attempt (Score inputs);
  match r with
  | Raise RiskModelUnavailableError =>
      placeholder ← lift (score ← mk_RiskScore (fz 0) RISK_UNAVAILABLE_MODEL_VERSION inputs (fz (-1)) false;
                          with_consequence_floor score);
      denial ← deny DEPENDENCY_UNAVAILABLE "risk engine unavailable";
      s ← failed "risk" "engine unavailable";
      Ret (placeholder, s, Some denial)
  | Raise e => Throw e
  | Ok score => s ← executed "risk"; Ret (score, s, None)
  end.

Definition check_risk_threshold (risk_score : RiskScore) : prog (option AuthorizationDecision) :=
  if negb (cf_enforce_threshold config) then Ret None
  else
    let threshold := cf_deny_level config in
    if score_exceeds risk_score threshold then
      d ← deny RISK_THRESHOLD_EXCEEDED
            ("risk score " +:+ str_repr (risk_level_value (score_level risk_score)) +:+
             " exceeds configured threshold " +:+ str_repr (risk_level_value threshold));
      Ret (Some d)
    else Ret None.

Definition check_limits (key : LimitKey) (action : ProposedAction) (decision_id : string) (now : float)
    : prog (option LimitVerdict * StageOutcome * option AuthorizationDecision) :=
  r ← attempt (TryConsume key (fz 1) decision_id now);
  match r with
  | Raise LimitStoreUnavailable =>
      if may_degrade_on_dependency_failure (pa_consequence action)
      then s ← skipped "limits" "limit store unavailable; action is advisory"; Ret (None, s, None)
      else s ← failed "limits" "store unavailable";
           d ← deny DEPENDENCY_UNAVAILABLE "limit store unavailable";
           Ret (None, s, Some d)
  | Raise e => Throw e
  | Ok verdict =>
      s ← executed "limits";
      if negb (lv_admitted verdict)
      then d ← deny LIMIT_EXCEEDED
                 ("velocity limit exceeded: " +:+ float_repr (lv_observed verdict) +:+ "/" +:+
                  float_repr (lv_limit verdict));
           Ret (Some verdict, s, Some d)
      else Ret (Some verdict, s, None)
  end.

Definition check_baseline (principal : VerifiedPrincipal) (action : ProposedAction) (now : float)
    : prog stage_result :=
  match ex_monetary (pa_exposure action) with
  | None => pass (skipped "baseline" "action carries no quantifiable exposure to baseline")
  | Some monetary =>
      key ← lift (window ← mk_Window BASELINE_WINDOW_SECONDS;
                  mk_BaselineKey (vp_tenant_id principal) BASELINE_AGENT (vp_agent_ref principal)
                    "exposure_monetary" window);
      r ← attempt (Evaluate key monetary (pa_action action) (cf_anomaly_threshold config) now);
      match r with
      | Raise BaselineStoreUnavailable =>
          if may_degrade_on_dependency_failure (pa_consequence action)
          then pass (skipped "baseline" "baseline store unavailable; action is advisory")
          else refuse (failed "baseline" "store unavailable")
                 (deny DEPENDENCY_UNAVAILABLE "baseline store unavailable")
      | Raise e => Throw e
      | Ok verdict =>
          if bv_anomalous verdict
          then refuse (executed "baseline")
                 (deny BASELINE_ANOMALY
                    ("observation deviates " +:+ float_repr (bv_z_score verdict) +:+ " sigma from baseline"))
          else _ ← call (Observe key monetary now); pass (executed "baseline")
      end
  end.

(** ** Orchestration *)

Definition limit_key_for (principal : VerifiedPrincipal) (action : ProposedAction) : prog LimitKey :=
  lift (window ← mk_Window (cf_default_window_seconds config);
        mk_LimitKey (vp_tenant_id principal) SCOPE_AGENT (vp_agent_ref principal) window (pa_action action)).

Definition release_limit_budget (key : option LimitKey) (verdicts : list LimitVerdict)
    (decision_id : string) (best_effort : bool) : prog unit :=
  match key, last verdicts with
  | Some key, Some verdict =>
      if negb (lv_admitted verdict) then Ret tt
      else
        r ← attempt (Release key decision_id);
        match r with
        | Ok _ => Ret tt
        | Raise LimitStoreUnavailable => if best_effort then Ret tt else Throw LimitStoreUnavailable
        | Raise e => Throw e
        end
  | _, _ => Ret tt
  end.

Definition set_approval (d : AuthorizationDecision) (approval_id : option string)
    (approval_state : option ApprovalState) : AuthorizationDecision :=
  {| ad_effect := ad_effect d; ad_reasons := ad_reasons d; ad_rationale := ad_rationale d;
     ad_policy_bundle_id := ad_policy_bundle_id d; ad_policy_bundle_sha256 := ad_policy_bundle_sha256 d;
     ad_matched_rules := ad_matched_rules d; ad_obligations := ad_obligations d;
     ad_approval_id := approval_id; ad_approval_state := approval_state |}.

Definition materialize_approval_metadata (principal : VerifiedPrincipal) (action : ProposedAction)
    (decision : AuthorizationDecision) (decision_id : string) (risk_score : RiskScore)
    (suppress_side_effects : bool) : prog AuthorizationDecision :=
  match ad_effect decision with
  | REQUIRE_APPROVAL =>
      approval_id ← match ad_approval_id decision with
                    | Some a => Ret a
                    | None => call (NewId "approval")
                    end;
      let state := match ad_approval_state decision with Some s => s | None => APPROVAL_PENDING end in
      let decision := set_approval decision (Some approval_id) (Some state) in
      if suppress_side_effects then Ret decision
      else match cf_workflow_sla config with
           | None => Ret decision
           | Some sla_minutes =>
               r ← attempt (CreateWorkflow decision_id (vp_agent_ref principal) (pa_action action)
                              (rs_value risk_score) (ad_matched_rules decision) [ad_rationale decision]
                              sla_minutes);
               match r with
               | Ok workflow_id => Ret (set_approval decision (Some workflow_id) (Some APPROVAL_PENDING))
               | Raise _ => Ret decision
               end
           end
  | _ => Ret decision
  end.

Definition dispatch_if_permitted (action : ProposedAction) (decision : AuthorizationDecision)
    (receipt : EvidenceReceipt) (now : float) (suppress_dispatch : bool) : prog ExecutionOutcome :=
  match ad_effect decision with
  | DENY => lift (mk_ExecutionOutcome DENIED now None None)
  | effect =>
      if bool_decide (effect = REQUIRE_APPROVAL) || negb (is_nil (blocking_obligations decision))
      then lift (mk_ExecutionOutcome PENDING_APPROVAL now None None)
      else if suppress_dispatch then lift (mk_ExecutionOutcome REPLAYED now None None)
      else
        r ← attempt (Dispatch action receipt (cf_default_timeout_s config) now);
        match r with
        | Ok outcome => Ret outcome
        | Raise e =>
            if is_dispatch_error e
            then lift (mk_ExecutionOutcome FAILED now None (Some (exn_name e)))
            else Throw e
        end
  end.

(** A stage that runs only while nothing has denied. *)
Definition unless_denied (decision : option AuthorizationDecision) (run : prog stage_result)
    (name reason : string) : prog stage_result :=
  match decision with
  | None => run
  | Some d => s ← skipped name reason; Ret (s, Some d)
  end.

Definition denied (d : AuthorizationDecision) : bool :=
  match ad_effect d with DENY => true | _ => false end.

(** What the caller of [_evaluate] established. *)
Record evaluation := {
  ev_principal : VerifiedPrincipal;
  ev_action : ProposedAction;
  ev_tool_registry_stage : StageOutcome;
  ev_tool_registry_denial : option AuthorizationDecision;
  ev_catalogue_stage : StageOutcome;
  ev_catalogue_denial : option AuthorizationDecision;
  ev_decision_id : string;
  ev_trace_id : string;
  ev_causation_id : option string;
  ev_provenance : ModelProvenance;
  ev_asserted_tenant_id : string;
  ev_asserted_subject : string;
  ev_now : float;
  ev_suppress_dispatch : bool;
  ev_sensitive_parameter_fields : gset string
}.

(** The first six stages: tool registry, catalogue, identity, kill switch,
    mandate and policy; the decision so far with the stages. *)
Definition decide_stages (v : evaluation) : prog (AuthorizationDecision * list StageOutcome) :=
  let principal := ev_principal v in
  let action := ev_action v in
  let now := ev_now v in
  '(catalogue_stage, decision) ← unless_denied (ev_tool_registry_denial v)
      (Ret (ev_catalogue_stage v, ev_catalogue_denial v))
      "catalogue" "action already denied by tool registry";
  '(identity_stage, decision) ← unless_denied decision
      (check_identity_assertion principal (ev_asserted_tenant_id v) (ev_asserted_subject v))
      "identity" "action already denied before identity check";
  '(kill_switch_stage, decision) ← unless_denied decision
      (check_kill_switch (vp_tenant_id principal) action)
      "kill_switch" "action already denied before identity check";
  '(mandate_stage, decision) ← unless_denied decision (check_mandate principal action now)
      "mandate" "action already denied";
  '(decision, policy_stage) ←
      match decision with
      | None =>
          request ← lift (mk_AuthorizationRequest (ev_decision_id v) principal action now (AsTuple []));
          check_policy request
      | Some d => s ← skipped "policy" "action already denied by mandate"; Ret (d, s)
      end;
  Ret (decision, [ev_tool_registry_stage v; catalogue_stage; identity_stage; kill_switch_stage;
                  mandate_stage; policy_stage]).

(** What the last three stages leave: risk, limits and baseline. *)
Record gated := {
  gt_decision : AuthorizationDecision;
  gt_risk_score : RiskScore;
  gt_limit_key : option LimitKey;
  gt_limit_verdicts : list LimitVerdict;
  gt_stages : list StageOutcome
}.

(** Risk is always computed; its denials do not replace an earlier one. *)
Definition risk_gate (v : evaluation) (decision : AuthorizationDecision)
    : prog (RiskScore * StageOutcome * AuthorizationDecision) :=
  '(risk_score, risk_stage, risk_forced_denial) ← compute_risk (ev_action v) (ev_now v);
  let decision := match risk_forced_denial with
                  | Some d => if denied decision then decision else d
                  | None => decision
                  end in
  decision ← (if denied decision then Ret decision
              else r ← check_risk_threshold risk_score; Ret (from_option id decision r));
  Ret (risk_score, risk_stage, decision).

Definition limits_gate (v : evaluation) (decision : AuthorizationDecision)
    : prog (option LimitKey * list LimitVerdict * StageOutcome * AuthorizationDecision) :=
  if denied decision
  then s ← skipped "limits" "action already denied"; Ret (None, [], s, decision)
  else
    key ← limit_key_for (ev_principal v) (ev_action v);
    '(verdict, s, denial) ← check_limits key (ev_action v) (ev_decision_id v) (ev_now v);
    Ret (Some key, option_list verdict, s, from_option id decision denial).

Definition baseline_gate (v : evaluation) (limit_key : option LimitKey) (limit_verdicts : list LimitVerdict)
    (decision : AuthorizationDecision) : prog (StageOutcome * AuthorizationDecision) :=
  if denied decision
  then s ← skipped "baseline" "action already denied"; Ret (s, decision)
  else
    '(s, denial) ← check_baseline (ev_principal v) (ev_action v) (ev_now v);
    match denial with
    | Some d => _ ← release_limit_budget limit_key limit_verdicts (ev_decision_id v) false; Ret (s, d)
    | None => Ret (s, decision)
    end.

Definition gate_stages (v : evaluation) (decision : AuthorizationDecision) (stages : list StageOutcome)
    : prog gated :=
  '(risk_score, risk_stage, decision) ← risk_gate v decision;
  '(limit_key, limit_verdicts, limits_stage, decision) ← limits_gate v decision;
  '(baseline_stage, decision) ← baseline_gate v limit_key limit_verdicts decision;
  Ret {| gt_decision := decision; gt_risk_score := risk_score; gt_limit_key := limit_key;
         gt_limit_verdicts := limit_verdicts;
         gt_stages := stages ++ [risk_stage; limits_stage; baseline_stage] |}.

(** The [try] around [append_intent]: on failure consumed budget is given back,
    best effort, and the failure is re-raised. *)
Definition persist_intent (v : evaluation) (g : gated) (record : IntentRecord) : prog EvidenceReceipt :=
  try_except
    (_ ← call ClockNow; receipt ← call (AppendIntent record); _ ← call ClockNow; Ret receipt)
    (fun e => match e with
              | EvidenceWriteError | SigningUnavailableError =>
                  _ ← release_limit_budget (gt_limit_key g) (gt_limit_verdicts g) (ev_decision_id v) true;
                  Throw e
              | _ => Throw e
              end).

(** Dispatch if permitted, then record the outcome, which is off the critical
    path where the store cannot write. *)
Definition act_and_report (v : evaluation) (decision : AuthorizationDecision) (receipt : EvidenceReceipt)
    : prog DecisionOutcome :=
  execution ← dispatch_if_permitted (ev_action v) decision receipt (ev_now v) (ev_suppress_dispatch v);
  outcome ← lift (mk_OutcomeRecord (ev_decision_id v) execution);
  r ← attempt (AppendOutcome receipt outcome);
  match r with
  | Ok _ | Raise EvidenceWriteError =>
      Ret {| do_decision_id := ev_decision_id v; do_decision := decision; do_receipt := receipt;
             do_execution := execution |}
  | Raise e => Throw e
  end.

Definition intent_of (v : evaluation) (g : gated) (decision : AuthorizationDecision) : prog IntentRecord :=
  lift (redacted ← with_redacted_parameters (ev_action v) (ev_sensitive_parameter_fields v);
        mk_IntentRecord (ev_decision_id v)
          (segment_id_for (vp_tenant_id (ev_principal v)) (ev_now v)) (vp_tenant_id (ev_principal v))
          (ev_now v) (ev_principal v) redacted decision (gt_risk_score g) (ev_trace_id v)
          (gt_limit_verdicts g) (gt_stages g) (ev_provenance v) (ev_causation_id v) (AsTuple [])).

Definition conclude (v : evaluation) (g : gated) : prog DecisionOutcome :=
  decision ← materialize_approval_metadata (ev_principal v) (ev_action v) (gt_decision g)
               (ev_decision_id v) (gt_risk_score g) (ev_suppress_dispatch v);
  record ← intent_of v g decision;
  receipt ← persist_intent v g record;
  act_and_report v decision receipt.

Definition evaluate (v : evaluation) : prog DecisionOutcome :=
  '(decision, stages) ← decide_stages v;
  g ← gate_stages v decision stages;
  conclude v g.

(** ** Entry points *)

(** What every entry point takes besides its own arguments. *)
Record call_context := {
  cc_trace_id : option string;
  cc_decision_id : option string;
  cc_causation_id : option string;
  cc_provenance : option ModelProvenance;
  cc_asserted_tenant_id : string;
  cc_asserted_subject : string
}.

(** [identity_verifier.verify], [require_valid_at] and the tenant check. *)
Definition verified_principal (credential : RawCredential) (tenant_id field : string) (now : float)
    : prog VerifiedPrincipal :=
  principal ← call (Verify credential now);
  _ ← lift (require_valid_at principal now);
  if negb (vp_tenant_id principal =? tenant_id)%string then Throw (DomainValidationError field)
  else Ret principal.

Definition decide_and_dispatch (credential : RawCredential) (action : ProposedAction) (c : call_context)
    : prog DecisionOutcome :=
  now ← call ClockNow;
  decision_id ← id_or_new (cc_decision_id c) "decision";
  trace_id ← id_or_new (cc_trace_id c) "trace";
  principal ← verified_principal credential (pa_tenant_id action) "action" now;
  catalogue_stage ← skipped "catalogue"
      "action was supplied pre-built; catalogue resolution not applicable";
  tool_registry_stage ← skipped "tool_registry"
      "action was supplied pre-built; tool registry resolution not applicable";
  evaluate {| ev_principal := principal; ev_action := action;
              ev_tool_registry_stage := tool_registry_stage; ev_tool_registry_denial := None;
              ev_catalogue_stage := catalogue_stage; ev_catalogue_denial := None;
              ev_decision_id := decision_id; ev_trace_id := trace_id;
              ev_causation_id := cc_causation_id c; ev_provenance := or_no_provenance (cc_provenance c);
              ev_asserted_tenant_id := cc_asserted_tenant_id c;
              ev_asserted_subject := cc_asserted_subject c; ev_now := now;
              ev_suppress_dispatch := false; ev_sensitive_parameter_fields := ∅ |}.

Definition decide_and_dispatch_for_request (credential : RawCredential) (action_name : string)
    (resource : ResourceRef) (parameters : list (string * pyval)) (idempotency_key : string)
    (c : call_context) : prog DecisionOutcome :=
  now ← call ClockNow;
  decision_id ← id_or_new (cc_decision_id c) "decision";
  trace_id ← id_or_new (cc_trace_id c) "trace";
  '(action, catalogue_stage, catalogue_denial, sensitive_parameter_fields) ←
      check_catalogue (rr_tenant_id resource) action_name resource parameters idempotency_key now;
  principal ← verified_principal credential (rr_tenant_id resource) "resource" now;
  tool_registry_stage ← skipped "tool_registry"
      "action resolved via the action catalogue, not a tool call";
  evaluate {| ev_principal := principal; ev_action := action;
              ev_tool_registry_stage := tool_registry_stage; ev_tool_registry_denial := None;
              ev_catalogue_stage := catalogue_stage; ev_catalogue_denial := catalogue_denial;
              ev_decision_id := decision_id; ev_trace_id := trace_id;
              ev_causation_id := cc_causation_id c; ev_provenance := or_no_provenance (cc_provenance c);
              ev_asserted_tenant_id := cc_asserted_tenant_id c;
              ev_asserted_subject := cc_asserted_subject c; ev_now := now;
              ev_suppress_dispatch := false;
              ev_sensitive_parameter_fields := sensitive_parameter_fields |}.

Definition decide_and_dispatch_for_tool_call (credential : RawCredential)
    (tool_name definition_sha256 : string) (resource : ResourceRef)
    (parameters : list (string * pyval)) (idempotency_key : string) (c : call_context)
    : prog DecisionOutcome :=
  now ← call ClockNow;
  decision_id ← id_or_new (cc_decision_id c) "decision";
  trace_id ← id_or_new (cc_trace_id c) "trace";
  '(action, tool_registry_stage, tool_registry_denial, sensitive_parameter_fields) ←
      check_tool_registry (rr_tenant_id resource) tool_name definition_sha256 resource parameters
        idempotency_key;
  principal ← verified_principal credential (rr_tenant_id resource) "resource" now;
  catalogue_stage ← skipped "catalogue"
      "action resolved via tool registry, not the action catalogue";
  evaluate {| ev_principal := principal; ev_action := action;
              ev_tool_registry_stage := tool_registry_stage;
              ev_tool_registry_denial := tool_registry_denial;
              ev_catalogue_stage := catalogue_stage; ev_catalogue_denial := None;
              ev_decision_id := decision_id; ev_trace_id := trace_id;
              ev_causation_id := cc_causation_id c; ev_provenance := or_no_provenance (cc_provenance c);
              ev_asserted_tenant_id := cc_asserted_tenant_id c;
              ev_asserted_subject := cc_asserted_subject c; ev_now := now;
              ev_suppress_dispatch := false;
              ev_sensitive_parameter_fields := sensitive_parameter_fields |}.

Definition replay (principal : VerifiedPrincipal) (action : ProposedAction)
    (trace_id decision_id causation_id : option string) (provenance : option ModelProvenance)
    (now : option float) : prog DecisionOutcome :=
  now ← match now with Some t => Ret t | None => call ClockNow end;
  decision_id ← id_or_new decision_id "replay";
  trace_id ← id_or_new trace_id "trace";
  catalogue_stage ← skipped "catalogue" "replay: action reconstructed from historical evidence";
  tool_registry_stage ← skipped "tool_registry" "replay: action reconstructed from historical evidence";
  evaluate {| ev_principal := principal; ev_action := action;
              ev_tool_registry_stage := tool_registry_stage; ev_tool_registry_denial := None;
              ev_catalogue_stage := catalogue_stage; ev_catalogue_denial := None;
              ev_decision_id := decision_id; ev_trace_id := trace_id;
              ev_causation_id := causation_id; ev_provenance := or_no_provenance provenance;
              ev_asserted_tenant_id := ""; ev_asserted_subject := ""; ev_now := now;
              ev_suppress_dispatch := true; ev_sensitive_parameter_fields := ∅ |}.

(** A call of the service. *)
Inductive service_call :=
| Direct (credential : RawCredential) (action : ProposedAction) (c : call_context)
| ForRequest (credential : RawCredential) (action_name : string) (resource : ResourceRef)
    (parameters : list (string * pyval)) (idempotency_key : string) (c : call_context)
| ForToolCall (credential : RawCredential) (tool_name definition_sha256 : string)
    (resource : ResourceRef) (parameters : list (string * pyval)) (idempotency_key : string)
    (c : call_context)
| Replay (principal : VerifiedPrincipal) (action : ProposedAction)
    (trace_id decision_id causation_id : option string) (provenance : option ModelProvenance)
    (now : option float).

Definition serve (sc : service_call) : prog DecisionOutcome :=
  match sc with
  | Direct cr a c => decide_and_dispatch cr a c
  | ForRequest cr n r ps k c => decide_and_dispatch_for_request cr n r ps k c
  | ForToolCall cr n d r ps k c => decide_and_dispatch_for_tool_call cr n d r ps k c
  | Replay p a t d cs pr now => replay p a t d cs pr now
  end.
End service.

(** [diff_outcomes]; [reasons_added] and [reasons_removed] are sorted by value. *)
Record outcome_diff := {
  od_effect_changed : bool;
  od_original_effect : string;
  od_replayed_effect : string;
  od_reasons_added : list string;
  od_reasons_removed : list string
}.

Definition reasons_minus (a b : list DenialReason) : list string :=
  sort_by id (map denial_reason_value
    (remove_dups (List.filter (fun r => negb (bool_decide (r ∈ b))) a))).

Definition diff_outcomes (original replayed : AuthorizationDecision) : outcome_diff :=
  {| od_effect_changed := negb (bool_decide (ad_effect original = ad_effect replayed));
     od_original_effect := effect_value (ad_effect original);
     od_replayed_effect := effect_value (ad_effect replayed);
     od_reasons_added := reasons_minus (ad_reasons replayed) (ad_reasons original);
     od_reasons_removed := reasons_minus (ad_reasons original) (ad_reasons replayed) |}.
