(* ===== verification/DecisionSafety.v ===== *)
(** * What the decision service guarantees, against every environment

    The theorems speak of [exec]: whatever the ports answer or raise, in
    whatever order, the calls the service makes obey them. *)

From stdpp Require Import base tactics list strings gmap.
From Stdlib Require Import ZArith Lia.
From S2P Require Import Prelude PyFloat PyStr Serialization Action Identity Mandate Limits Risk Decision Catalogue Evidence GovernanceState PromptInjection Ports DecisionService.

Open Scope string_scope.
Open Scope list_scope.

(** ** Successful executions, one construct at a time *)

Lemma exec_bind_ok {A B} (p : prog A) (f : A -> prog B) t b :
  exec (p ≫= f) t (Ok b) -> exists a t1 t2, t = t1 ++ t2 /\ exec p t1 (Ok a) /\ exec (f a) t2 (Ok b).
Proof. intros [(e & _ & ?)|H]%exec_bind_inv; [done|exact H]. Qed.

Lemma exec_attempt {X : Set} (p : port X) t o : exec (attempt p) t o -> exists r, t = [Ev p r] /\ o = Ok r.
Proof. intros (r & t' & -> & H)%exec_Call_inv. apply exec_ret_inv in H as [-> ->]. by exists r. Qed.

Lemma exec_stage n s r t o :
  exec (stage n s r) t (Ok o) -> t = [] /\ so_stage o = n /\ so_status o = s.
Proof. intros [-> H]%exec_lift_inv. symmetry in H. by apply mk_StageOutcome_ok in H as ->. Qed.

(** A denial with these reasons. *)
Definition denies (rs : list DenialReason) (d : AuthorizationDecision) : Prop :=
  ad_effect d = DENY /\ ad_reasons d = rs.

Lemma exec_deny r ra t d : exec (deny r ra) t (Ok d) -> t = [] /\ denies [r] d.
Proof.
  intros [-> H]%exec_lift_inv. symmetry in H. unfold decision_deny in H. apply bind_ok in H as (_ & _ & H).
  apply mk_AuthorizationDecision_wf in H as (_ & ? & ? & _). done.
Qed.

(** The stage [n] ended in [x] without a port call: passed. *)
Lemma exec_pass n s r t x :
  exec (pass (stage n s r)) t (Ok x) -> t = [] /\ so_stage x.1 = n /\ x.2 = None.
Proof.
  intros (o & t1 & t2 & -> & (-> & Hn & _)%exec_stage & H)%exec_bind_ok. by apply exec_ret_inv in H as [-> [= ->]].
Qed.

Lemma exec_refuse n s r rs ra t x :
  exec (refuse (stage n s r) (deny rs ra)) t (Ok x) ->
  t = [] /\ so_stage x.1 = n /\ exists d, x.2 = Some d /\ denies [rs] d.
Proof.
  intros (o & t1 & t2 & -> & (-> & Hn & _)%exec_stage & H)%exec_bind_ok.
  apply exec_bind_ok in H as (d & t3 & t4 & -> & (-> & Hd)%exec_deny & H).
  apply exec_ret_inv in H as [-> [= ->]]. by eauto.
Qed.

(** Take a successful execution apart, construct by construct. *)
Ltac exec_ok :=
  repeat match goal with
  | H : exec (pass _) _ (Ok _) |- _ => apply exec_pass in H; destruct H as (? & ? & ?); subst
  | H : exec (refuse _ _) _ (Ok _) |- _ =>
      apply exec_refuse in H; destruct H as (? & ? & ? & ? & ?); subst
  | H : exec (attempt _) _ _ |- _ =>
      apply exec_attempt in H; destruct H as (? & ? & ?); subst
  | H : exec (executed _) _ (Ok _) |- _ => apply exec_stage in H; destruct H as (? & ? & ?); subst
  | H : exec (skipped _ _) _ (Ok _) |- _ => apply exec_stage in H; destruct H as (? & ? & ?); subst
  | H : exec (failed _ _) _ (Ok _) |- _ => apply exec_stage in H; destruct H as (? & ? & ?); subst
  | H : exec (deny _ _) _ (Ok _) |- _ => apply exec_deny in H; destruct H as (? & ?); subst
  | H : exec (lift _) _ (Ok _) |- _ => apply exec_lift_inv in H; destruct H as (? & ?); subst
  | H : exec (call _) _ (Ok _) |- _ => apply exec_call_inv in H; subst
  | H : exec (Ret _) _ (Ok _) |- _ => apply exec_ret_inv in H; destruct H as (? & ?); subst
  | H : exec (Throw _) _ (Ok _) |- _ => apply exec_throw_inv in H; destruct H as (_ & H); discriminate H
  | H : Ok _ = Ok _ |- _ => injection H as H; subst
  | H : Raise _ = Ok _ |- _ => discriminate H
  | H : Ok _ = Raise _ |- _ => discriminate H
  | H : exec (mbind _ _) _ (Ok _) |- _ =>
      apply exec_bind_ok in H; destruct H as (? & ? & ? & ? & ? & ?); subst
  end.

(** Membership in a trace assembled from parts. *)
Ltac in_trace := cbv beta in *; rewrite ?elem_of_app, ?elem_of_cons, ?elem_of_app, ?elem_of_cons; tauto.

(** Split on what the program branches on. *)
Ltac exec_case :=
  match goal with H : exec (match ?r with _ => _ end) _ (Ok _) |- _ => destruct r eqn:? end; exec_ok.

(** Every branch of a stage, then the facts about its result. *)
Ltac exec_stages :=
  exec_ok; repeat exec_case;
  repeat match goal with H : ?x.2 = _ |- _ => progress rewrite H in * end.

Section stages.
Variable config : ServiceConfig.

(** ** What a stage that does not deny has established *)

(** A stage result with this name: [P] where it passed, a denial otherwise. *)
Definition stage_spec (name : string) (P : Prop) (x : stage_result) : Prop :=
  so_stage x.1 = name /\
  match x.2 with None => P | Some d => ad_effect d = DENY /\ ad_reasons d <> [] end.

Lemma denies_spec r d : denies [r] d -> ad_effect d = DENY /\ ad_reasons d <> [].
Proof. intros [? ->]. done. Qed.

Definition advisory (a : ProposedAction) : Prop :=
  may_degrade_on_dependency_failure (pa_consequence a) = true.

Ltac finish_stage :=
  unfold stage_spec; exec_stages;
  match goal with |- _ /\ _ => split; [done|] | _ => idtac end;
  try (by eapply denies_spec); try (by left).

Lemma identity_stage_ok p at_ as_ t x :
  exec (check_identity_assertion p at_ as_) t (Ok x) ->
  stage_spec "identity" (Ev (AssertMatches p at_ as_) (Ok tt) ∈ t) x.
Proof.
  unfold check_identity_assertion. intros H. finish_stage.
  match goal with u : unit |- _ => destruct u end. set_solver.
Qed.

Lemma kill_switch_stage_ok tid a t x :
  exec (check_kill_switch tid a) t (Ok x) ->
  stage_spec "kill_switch"
    (advisory a \/ Ev GloballyEngaged (Ok false) ∈ t /\ Ev (TenantEngaged tid) (Ok false) ∈ t) x.
Proof.
  unfold check_kill_switch, advisory. intros H.
  destruct (may_degrade_on_dependency_failure _) eqn:Hd; [finish_stage|].
  apply exec_bind_ok in H as (r & t1 & t2 & -> & H1 & H2).
  apply exec_try_inv in H1 as [(e & He & [= ->])|(e & t3 & t4 & -> & He & H1)].
  - unfold kill_switch_engaged in He. finish_stage; right; set_solver.
  - exec_ok. finish_stage.
Qed.

(** The mandate store answered with an active mandate, not revoked, that
    permits the action. *)
Definition mandate_passed (t : list event) (p : VerifiedPrincipal) (a : ProposedAction) (now : float) : Prop :=
  exists m v,
    Ev (MandateGet (vp_tenant_id p) (vp_agent_ref p) now) (Ok (Some m)) ∈ t /\
    Ev (MandateIsRevoked (vp_tenant_id p) (vp_agent_ref p) now) (Ok false) ∈ t /\
    permits m a now = Ok v /\ mv_permitted v = true.

Lemma mandate_stage_ok p a now t x :
  exec (check_mandate p a now) t (Ok x) ->
  stage_spec "mandate" (advisory a \/ mandate_passed t p a now) x.
Proof.
  unfold check_mandate, mandate_unavailable, advisory. intros H. finish_stage.
  right. match goal with H : negb (mv_permitted ?v) = false |- _ =>
    apply negb_false_iff in H; match goal with m : Mandate |- _ => exists m, v end end.
  split_and!; try done; set_solver.
Qed.

Lemma policy_stage_ok req t x :
  exec (check_policy req) t (Ok x) ->
  so_stage x.2 = "policy" /\
  (denied x.1 = true /\ ad_reasons x.1 = [POLICY_BUNDLE_UNAVAILABLE] \/ Ev (Decide req) (Ok x.1) ∈ t).
Proof.
  unfold check_policy, denied. intros H. exec_stages; cbn [fst snd]; (split; [done|]).
  - right. set_solver.
  - left. match goal with H : denies _ _ |- _ => destruct H as [-> ->] end. done.
Qed.

(** The risk engine answered. *)
Definition risk_passed (t : list event) (a : ProposedAction) (now : float) (s : RiskScore) : Prop :=
  exists inputs, mk_RiskInputs (pa_consequence a) (pa_exposure a) now [] (AsTuple []) = Ok inputs /\
    Ev (Score inputs) (Ok s) ∈ t.

Lemma risk_stage_ok a now t s st dn :
  exec (compute_risk a now) t (Ok (s, st, dn)) ->
  so_stage st = "risk" /\
  match dn with
  | None => risk_passed t a now s
  | Some d => denies [DEPENDENCY_UNAVAILABLE] d
  end.
Proof.
  unfold compute_risk, risk_passed. intros H. exec_stages; simplify_eq; (split; [done|]); try done.
  eexists. split; [done|]. set_solver.
Qed.

Lemma risk_threshold_ok s t dn :
  exec (check_risk_threshold config s) t (Ok dn) ->
  t = [] /\ match dn with
           | None => cf_enforce_threshold config = true -> score_exceeds s (cf_deny_level config) = false
           | Some d => denies [RISK_THRESHOLD_EXCEEDED] d
           end.
Proof.
  unfold check_risk_threshold. intros H. destruct (cf_enforce_threshold config) eqn:?; exec_stages; done.
Qed.

Lemma limits_stage_ok key a did now t v st dn :
  exec (check_limits key a did now) t (Ok (v, st, dn)) ->
  so_stage st = "limits" /\
  exists r, t = [Ev (TryConsume key (fz 1) did now) r] /\
  v = (match r with Ok w => Some w | Raise _ => None end) /\
  match dn with
  | None => (advisory a /\ v = None) \/ exists w, v = Some w /\ lv_admitted w = true
  | Some d => ad_effect d = DENY /\ ad_reasons d <> [] /\ forall w, v = Some w -> lv_admitted w = false
  end.
Proof.
  unfold check_limits, advisory. intros H. exec_stages; simplify_eq; (split; [done|]);
    (eexists; split; [done|]; split; [done|]);
    repeat match goal with
    | H : negb _ = true |- _ => apply negb_true_iff in H
    | H : negb _ = false |- _ => apply negb_false_iff in H
    | H : denies _ _ |- _ => apply denies_spec in H as [? ?]
    end; try (split_and!; try done; by intros ? [= <-]); [by right; eexists | by left].
Qed.

(** The baseline store answered that the exposure is not anomalous. *)
Definition baseline_passed (t : list event) (p : VerifiedPrincipal) (a : ProposedAction) (now : float) : Prop :=
  forall monetary, ex_monetary (pa_exposure a) = Some monetary ->
  exists key v,
    bk_tenant_id key = vp_tenant_id p /\ bk_subject key = vp_agent_ref p /\ bk_scope key = BASELINE_AGENT /\
    Ev (Evaluate key monetary (pa_action a) (cf_anomaly_threshold config) now) (Ok v) ∈ t /\
    bv_anomalous v = false.

Lemma baseline_key_ok t s sub m w k :
  (window ← mk_Window w; mk_BaselineKey t s sub m window) = Ok k ->
  bk_tenant_id k = t /\ bk_subject k = sub /\ bk_scope k = s.
Proof.
  intros (window & _ & H)%bind_ok. unfold mk_BaselineKey in H. inv_ok. subst k. cbn.
  repeat match goal with H : require_identifier _ _ = Ok _ |- _ =>
    apply require_identifier_valid in H as [-> ?] end. done.
Qed.

Lemma baseline_stage_ok p a now t x :
  exec (check_baseline config p a now) t (Ok x) ->
  stage_spec "baseline" (advisory a \/ baseline_passed t p a now) x.
Proof.
  unfold check_baseline, advisory, baseline_passed. intros H. finish_stage.
  - right. intros m' [= <-].
    match goal with H : Ok _ = _ |- _ => symmetry in H; apply baseline_key_ok in H as (? & ? & ?) end.
    eexists _, _. split_and!; try done. set_solver.
  - by right.
Qed.

(** ** The six deciding stages *)

(** What an entry point passes on: the first two stages under their names, and
    denials that deny. *)
Record evaluation_wf (v : evaluation) : Prop := {
  ew_tool_stage : so_stage (ev_tool_registry_stage v) = "tool_registry";
  ew_catalogue_stage : so_stage (ev_catalogue_stage v) = "catalogue";
  ew_tool_denial : forall d, ev_tool_registry_denial v = Some d -> ad_effect d = DENY /\ ad_reasons d <> [];
  ew_catalogue_denial : forall d, ev_catalogue_denial v = Some d -> ad_effect d = DENY /\ ad_reasons d <> []
}.

Lemma unless_denied_ok dn run name reason t x :
  exec (unless_denied dn run name reason) t (Ok x) ->
  (dn = None /\ exec run t (Ok x)) \/
  (exists d, dn = Some d /\ t = [] /\ so_stage x.1 = name /\ x.2 = Some d).
Proof.
  unfold unless_denied. destruct dn as [d|]; [|by left]. intros H. right. exec_ok. by exists d.
Qed.

(** A stage run unless denied, as a spec on the denial so far. *)
Lemma unless_denied_spec dn run name reason t x (P : Prop) :
  (forall x, exec run t (Ok x) -> stage_spec name P x) ->
  (forall d, dn = Some d -> ad_effect d = DENY /\ ad_reasons d <> []) ->
  exec (unless_denied dn run name reason) t (Ok x) ->
  stage_spec name (dn = None /\ P) x.
Proof.
  intros Hrun Hdn H. apply unless_denied_ok in H as [[-> H]|(d & -> & -> & Hn & Hx)].
  - destruct (Hrun _ H) as [Hn Hx]. split; [done|]. destruct x.2; done.
  - split; [done|]. rewrite Hx. by apply Hdn.
Qed.

Lemma stage_spec_denied name P x d : stage_spec name P x -> x.2 = Some d -> ad_effect d = DENY /\ ad_reasons d <> [].
Proof. intros [_ H] E. by rewrite E in H. Qed.

Lemma stage_spec_passed name P x : stage_spec name P x -> x.2 = None -> P.
Proof. intros [_ H] E. by rewrite E in H. Qed.

(** The controls of the deciding stages, all passed: nothing denied earlier,
    the assertion matched, the switch is off, the mandate permits, and this is
    the policy's answer. *)
Record deciding_controls (v : evaluation) (t : list event) (d : AuthorizationDecision) : Prop := {
  dc_tool : ev_tool_registry_denial v = None;
  dc_catalogue : ev_catalogue_denial v = None;
  dc_identity : Ev (AssertMatches (ev_principal v) (ev_asserted_tenant_id v) (ev_asserted_subject v)) (Ok tt) ∈ t;
  dc_kill_switch : advisory (ev_action v) \/
    Ev GloballyEngaged (Ok false) ∈ t /\ Ev (TenantEngaged (vp_tenant_id (ev_principal v))) (Ok false) ∈ t;
  dc_mandate : advisory (ev_action v) \/ mandate_passed t (ev_principal v) (ev_action v) (ev_now v);
  dc_policy : exists req, aq_principal req = ev_principal v /\ aq_action req = ev_action v /\
    aq_decision_id req = ev_decision_id v /\ aq_evaluated_at req = ev_now v /\ Ev (Decide req) (Ok d) ∈ t
}.

Lemma mandate_passed_mono t t' p a now : t ⊆ t' -> mandate_passed t p a now -> mandate_passed t' p a now.
Proof. intros Hs (m & w & H1 & H2 & H3 & H4). exists m, w. split_and!; try done; by apply Hs. Qed.

Lemma decide_stages_ok v t d stages :
  evaluation_wf v -> exec (decide_stages v) t (Ok (d, stages)) ->
  map so_stage stages = ["tool_registry"; "catalogue"; "identity"; "kill_switch"; "mandate"; "policy"] /\
  (deciding_controls v t d \/ ad_effect d = DENY /\ ad_reasons d <> []).
Proof.
  intros [Ht Hc Htd Hcd] H. unfold decide_stages in H.
  apply exec_bind_ok in H as (x1 & t1 & u1 & -> & H1 & H). destruct x1 as [s1 d1].
  apply unless_denied_spec with (P := ev_catalogue_denial v = None) in H1; [| |done].
  2:{ intros x Hx. exec_ok. split; [done|]. cbn. destruct (ev_catalogue_denial v) eqn:E; [by apply Hcd|done]. }
  apply exec_bind_ok in H as (x2 & t2 & u2 & -> & H2 & H). destruct x2 as [s2 d2].
  apply (unless_denied_spec _ _ _ _ _ _ _ (identity_stage_ok _ _ _ t2)) in H2;
    [|intros ? ->; by apply (stage_spec_denied _ _ _ _ H1)].
  apply exec_bind_ok in H as (x3 & t3 & u3 & -> & H3 & H). destruct x3 as [s3 d3].
  apply (unless_denied_spec _ _ _ _ _ _ _ (kill_switch_stage_ok _ _ t3)) in H3;
    [|intros ? ->; by apply (stage_spec_denied _ _ _ _ H2)].
  apply exec_bind_ok in H as (x4 & t4 & u4 & -> & H4 & H). destruct x4 as [s4 d4].
  apply (unless_denied_spec _ _ _ _ _ _ _ (mandate_stage_ok _ _ _ t4)) in H4;
    [|intros ? ->; by apply (stage_spec_denied _ _ _ _ H3)].
  apply exec_bind_ok in H as (x5 & t5 & u5 & -> & H5 & H). destruct x5 as [d5 s5].
  exec_ok. simplify_eq. cbn [fst] in *.
  pose proof (fun d => stage_spec_denied _ _ _ d H4) as Hden.
  pose proof (stage_spec_passed _ _ _ H1) as P1. pose proof (stage_spec_passed _ _ _ H2) as P2.
  pose proof (stage_spec_passed _ _ _ H3) as P3. pose proof (stage_spec_passed _ _ _ H4) as P4.
  destruct H1 as [N1 _], H2 as [N2 _], H3 as [N3 _], H4 as [N4 _]. cbn [fst snd] in *.
  destruct d4 as [d4|].
  - exec_ok. simplify_eq. split; [cbn; congruence|]. right. by apply Hden.
  - exec_ok. match goal with H : exec (check_policy _) _ _ |- _ => apply policy_stage_ok in H as [N5 Hpol] end.
    cbn [fst snd] in *.
    split; [cbn; congruence|].
    destruct Hpol as [[Hd Hr]|Hpol]; [right; split; [unfold denied in Hd; by destruct (ad_effect _)|by rewrite Hr]|].
    left. destruct (P4 eq_refl) as [-> M4], (P3 eq_refl) as [-> M3], (P2 eq_refl) as [-> M2], (P1 eq_refl) as [M0 M1].
    match goal with H : Ok _ = mk_AuthorizationRequest _ _ _ _ _ |- _ => symmetry in H;
      apply mk_AuthorizationRequest_ok in H as (? & ? & ? & ? & _) end.
    constructor; [done | done | in_trace | | | ].
    + destruct M3 as [?|[??]]; [by left | right; split; in_trace].
    + destruct M4 as [?|?]; [by left | right]. eapply mandate_passed_mono; [|done]. intros e He. in_trace.
    + eexists. split_and!; [done..|]. in_trace.
Qed.

(** ** Risk, limits and baseline *)

Lemma denied_false d : denied d = false <-> ad_effect d <> DENY.
Proof. unfold denied. by destruct (ad_effect d). Qed.
Lemma denied_true d : denied d = true <-> ad_effect d = DENY.
Proof. unfold denied. by destruct (ad_effect d). Qed.

(** The agent's counter for this action admitted the decision. *)
Definition limit_passed (v : evaluation) (t : list event) (g : gated) : Prop :=
  exists key w,
    lk_tenant_id key = vp_tenant_id (ev_principal v) /\ lk_subject key = vp_agent_ref (ev_principal v) /\
    lk_action key = pa_action (ev_action v) /\
    gt_limit_key g = Some key /\ gt_limit_verdicts g = [w] /\
    Ev (TryConsume key (fz 1) (ev_decision_id v) (ev_now v)) (Ok w) ∈ t /\ lv_admitted w = true.

Record gate_controls (v : evaluation) (t : list event) (d : AuthorizationDecision) (g : gated) : Prop := {
  gc_decision : gt_decision g = d;
  gc_risk : risk_passed t (ev_action v) (ev_now v) (gt_risk_score g);
  gc_threshold : cf_enforce_threshold config = true -> score_exceeds (gt_risk_score g) (cf_deny_level config) = false;
  gc_limits : advisory (ev_action v) \/ limit_passed v t g;
  gc_baseline : advisory (ev_action v) \/ baseline_passed t (ev_principal v) (ev_action v) (ev_now v)
}.

(** Budget taken in this trace is still held by the decision, or was given back. *)
Definition budget_accounted (v : evaluation) (t : list event) (g : gated) : Prop :=
  forall key c did now w,
    Ev (TryConsume key c did now) (Ok w) ∈ t -> lv_admitted w = true ->
    did = ev_decision_id v /\
    ((ad_effect (gt_decision g) <> DENY /\ gt_limit_key g = Some key /\ gt_limit_verdicts g = [w]) \/
     exists r, Ev (Release key did) r ∈ t).

Definition is_try_consume : call_class :=
  fun X p => match p with TryConsume _ _ _ _ => true | _ => false end.

Lemma limit_key_for_ok p a t k :
  exec (limit_key_for config p a) t (Ok k) ->
  t = [] /\ lk_tenant_id k = vp_tenant_id p /\ lk_subject k = vp_agent_ref p /\ lk_action k = pa_action a.
Proof.
  unfold limit_key_for. intros H. exec_ok. split; [done|].
  match goal with H : Ok _ = _ |- _ => symmetry in H; apply bind_ok in H as (w & _ & H) end.
  unfold mk_LimitKey in *. inv_ok. subst k. cbn.
  repeat match goal with H : require_identifier _ _ = Ok _ |- _ =>
    apply require_identifier_valid in H as [-> ?] end.
  split_and!; try done. destruct (pa_action a =? "*")%string; cbn in *; inv_ok; try done.
  match goal with H : require_identifier _ _ = Ok _ |- _ => by apply require_identifier_valid in H as [-> ?] end.
Qed.

Lemma never_release k vs did be : never is_try_consume (release_limit_budget k vs did be).
Proof. unfold release_limit_budget, attempt. solve_never. Qed.

Lemma never_baseline p a now : never is_try_consume (check_baseline config p a now).
Proof. unfold check_baseline, attempt, pass, refuse, skipped, executed, failed, stage, deny. solve_never. Qed.

Lemma never_risk a now : never is_try_consume (compute_risk a now).
Proof. unfold compute_risk, attempt, executed, failed, stage, deny. solve_never. Qed.

(** Where the last verdict admitted, a release was asked for. *)
Lemma release_inv key w did be t o :
  lv_admitted w = true -> exec (release_limit_budget (Some key) [w] did be) t o ->
  exists r, Ev (Release key did) r ∈ t.
Proof.
  unfold release_limit_budget. cbn [last]. intros -> H. cbn [negb] in H.
  apply exec_bind_inv in H as [(e & H & _)|(r & t1 & t2 & -> & H & _)];
    apply exec_attempt in H as (r' & -> & _); exists r'; in_trace.
Qed.

(** Not denied, as a decision that is still [d]. *)
Definition still (d d' : AuthorizationDecision) (P : Prop) : Prop :=
  (d' = d /\ ad_effect d <> DENY /\ P) \/
  (ad_effect d' = DENY /\ (ad_effect d = DENY -> d' = d) /\ (ad_effect d <> DENY -> ad_reasons d' <> [])).

Lemma still_keep d (P : Prop) : (ad_effect d <> DENY -> P) -> still d d P.
Proof. unfold still. destruct (decide (ad_effect d = DENY)); naive_solver. Qed.

Lemma still_deny d d' P : ad_effect d <> DENY -> ad_effect d' = DENY -> ad_reasons d' <> [] -> still d d' P.
Proof. by right. Qed.

Lemma still_trans d d1 d2 (P Q R : Prop) : (P -> Q -> R) -> still d d1 P -> still d1 d2 Q -> still d d2 R.
Proof.
  unfold still. intros HPQ [(-> & Hd & HP)|(Hd1 & Hk & Hr)] [(-> & Hd' & HQ)|(Hd2 & Hk' & Hr')].
  - left. auto.
  - right. done.
  - done.
  - right. rewrite (Hk' Hd1) in *. split_and!; try done.
Qed.

Lemma still_map d d' (P Q : Prop) : (d' = d -> P -> Q) -> still d d' P -> still d d' Q.
Proof. unfold still. intros H [(? & ? & ?)|?]; [left | right]; auto. Qed.

Lemma risk_gate_ok v d t s st d' :
  exec (risk_gate config v d) t (Ok (s, st, d')) ->
  so_stage st = "risk" /\ free_of is_try_consume t /\
  still d d' (risk_passed t (ev_action v) (ev_now v) s /\
              (cf_enforce_threshold config = true -> score_exceeds s (cf_deny_level config) = false)).
Proof.
  unfold risk_gate. intros H. apply exec_bind_ok in H as ([[sc rst] dn] & t1 & u1 & -> & Hr & H).
  pose proof (never_free _ _ _ _ (never_risk _ _) Hr) as Hfree.
  apply risk_stage_ok in Hr as [Hn Hr]. cbn zeta in H.
  apply exec_bind_ok in H as (d2 & t2 & u2 & -> & H2 & H).
  apply exec_ret_inv in H as [-> [= -> -> ->]]. rewrite app_nil_r.
  enough (Ht2 : t2 = [] /\ still d d2 (risk_passed t1 (ev_action v) (ev_now v) sc /\
            (cf_enforce_threshold config = true -> score_exceeds sc (cf_deny_level config) = false)))
    by (destruct Ht2 as [-> ?]; by rewrite app_nil_r).
  destruct (denied d) eqn:Hd.
  { assert (E : match dn with Some _ => d | None => d end = d) by by destruct dn.
    rewrite E, Hd in H2. exec_ok. split; [done|]. apply still_keep. by apply denied_true in Hd. }
  pose proof (proj1 (denied_false _) Hd) as Hd'. destruct dn as [x|].
  - destruct Hr as [Hx Hxr]. rewrite (proj2 (denied_true x) Hx) in H2. exec_ok. split; [done|].
    apply still_deny; [done..|]. by rewrite Hxr.
  - rewrite Hd in H2. apply exec_bind_ok in H2 as (r & t3 & t4 & -> & [-> Hth]%risk_threshold_ok & H2).
    apply exec_ret_inv in H2 as [-> [= ->]]. split; [done|]. destruct r as [dx|]; cbn [from_option id].
    + destruct Hth as [Hx Hxr]. apply still_deny; [done..|]. by rewrite Hxr.
    + by apply still_keep.
Qed.

Lemma limits_gate_ok v d t key vs st d' :
  exec (limits_gate config v d) t (Ok (key, vs, st, d')) ->
  so_stage st = "limits" /\
  (forall s g, gt_limit_key g = key -> gt_limit_verdicts g = vs -> t ⊆ s ->
     still d d' (advisory (ev_action v) \/ limit_passed v s g)) /\
  (forall k c did now w, Ev (TryConsume k c did now) (Ok w) ∈ t -> lv_admitted w = true ->
     did = ev_decision_id v /\ ad_effect d' <> DENY /\ key = Some k /\ vs = [w]).
Proof.
  unfold limits_gate. intros H. destruct (denied d) eqn:Hd.
  { exec_ok. simplify_eq. split_and!; [done | | by intros ? ? ? ? ? ?%not_elem_of_nil].
    intros. apply still_keep. by apply denied_true in Hd. }
  pose proof (proj1 (denied_false _) Hd) as Hd'.
  apply exec_bind_ok in H as (k & t1 & u1 & -> & (-> & Hk1 & Hk2 & Hk3)%limit_key_for_ok & H).
  apply exec_bind_ok in H as ([[vd s1] dn] & t2 & u2 & -> & Hl & H).
  apply exec_ret_inv in H as [-> [= -> -> -> ->]]. rewrite app_nil_l, app_nil_r.
  apply limits_stage_ok in Hl as (Hn & r & -> & -> & Hdn). split; [done|]. split.
  - intros s g Hkey Hvs Hsub. destruct dn as [dx|]; cbn [from_option id].
    + destruct Hdn as (? & ? & _). by apply still_deny.
    + apply still_keep. intros _. destruct Hdn as [[? _]|(w & Hw & Hadm)]; [by left|].
      right. rewrite Hw in Hvs. exists k, w. destruct r; [|done]. injection Hw as ->.
      split_and!; try done. apply Hsub. in_trace.
  - intros k' c did now w Hin Hadm. apply list_elem_of_singleton in Hin.
    apply consume_event_inj in Hin as (-> & _ & -> & _ & <-). split; [done|].
    destruct dn as [dx|]; cbn [from_option id].
    + destruct Hdn as (_ & _ & Hno). rewrite (Hno w eq_refl) in Hadm. done.
    + done.
Qed.

Lemma baseline_gate_ok v key vs d t st d' :
  exec (baseline_gate config v key vs d) t (Ok (st, d')) ->
  so_stage st = "baseline" /\ free_of is_try_consume t /\
  still d d' (advisory (ev_action v) \/ baseline_passed t (ev_principal v) (ev_action v) (ev_now v)) /\
  (ad_effect d <> DENY -> ad_effect d' = DENY ->
     forall k w, key = Some k -> vs = [w] -> lv_admitted w = true ->
     exists r, Ev (Release k (ev_decision_id v)) r ∈ t).
Proof.
  unfold baseline_gate. intros H. destruct (denied d) eqn:Hd.
  { apply denied_true in Hd. exec_ok. simplify_eq. split_and!; try done; [constructor|]. by apply still_keep. }
  pose proof (proj1 (denied_false _) Hd) as Hd'.
  apply exec_bind_ok in H as ([s dn] & t1 & u1 & -> & Hb & H).
  pose proof (never_free _ _ _ _ (never_baseline _ _ _) Hb) as Hfree.
  apply baseline_stage_ok in Hb as [Hn Hb]. cbn [fst snd] in *. destruct dn as [dx|].
  - apply exec_bind_ok in H as (u & t2 & t3 & -> & Hrel & H). apply exec_ret_inv in H as [-> [= -> ->]].
    rewrite app_nil_r. destruct Hb. split_and!; [done | | by apply still_deny | ].
    + apply free_of_app. split; [done|]. eapply never_free; [apply never_release | done].
    + intros _ _ k w -> -> Hadm. destruct (release_inv _ _ _ _ _ _ Hadm Hrel) as (r & Hr). exists r. in_trace.
  - apply exec_ret_inv in H as [-> [= -> ->]]. rewrite app_nil_r. split_and!; try done. by apply still_keep.
Qed.

Lemma risk_passed_mono t t' a now s : t ⊆ t' -> risk_passed t a now s -> risk_passed t' a now s.
Proof. intros Hs (i & ? & ?). exists i. split; [done|]. by apply Hs. Qed.

Lemma baseline_passed_mono t t' p a now : t ⊆ t' -> baseline_passed t p a now -> baseline_passed t' p a now.
Proof.
  intros Hs H m Hm. destruct (H m Hm) as (k & w & ? & ? & ? & ? & ?). exists k, w. split_and!; try done. by apply Hs.
Qed.

Lemma gate_stages_ok v d stages t g :
  exec (gate_stages config v d stages) t (Ok g) ->
  map so_stage (gt_stages g) = map so_stage stages ++ ["risk"; "limits"; "baseline"] /\
  still d (gt_decision g) (gate_controls v t d g) /\ budget_accounted v t g.
Proof.
  unfold gate_stages. intros H.
  apply exec_bind_ok in H as ([[sc s1] d1] & t1 & u1 & -> & (N1 & F1 & S1)%risk_gate_ok & H).
  apply exec_bind_ok in H as ([[[key vs] s2] d2] & t2 & u2 & -> & (N2 & S2 & B2)%limits_gate_ok & H).
  apply exec_bind_ok in H as ([s3 d3] & t3 & u3 & -> & (N3 & F3 & S3 & B3)%baseline_gate_ok & H).
  apply exec_ret_inv in H as [-> [= ->]]. rewrite app_nil_r. cbn [gt_stages gt_decision].
  set (g := {| gt_decision := d3 |}). assert (Hsub1 : t1 ⊆ t1 ++ t2 ++ t3) by (intros e He; in_trace).
  assert (Hsub2 : t2 ⊆ t1 ++ t2 ++ t3) by (intros e He; in_trace).
  assert (Hsub3 : t3 ⊆ t1 ++ t2 ++ t3) by (intros e He; in_trace).
  specialize (S2 _ g eq_refl eq_refl Hsub2). split_and!.
  - rewrite map_app. cbn. congruence.
  - assert (S12 : still d d2 _) by (eapply still_trans; [|exact S1|exact S2]; intros HP HQ; exact (conj HP HQ)).
    assert (S13 : still d d3 _) by (eapply still_trans; [|exact S12|exact S3]; intros HP HQ; exact (conj HP HQ)).
    eapply still_map; [|exact S13]. intros E [[[HR HT] HL] HB].
    constructor; [done | exact (risk_passed_mono _ _ _ _ _ Hsub1 HR) | done | done | ].
    destruct HB as [?|HB]; [by left | right; exact (baseline_passed_mono _ _ _ _ _ Hsub3 HB)].
  - intros k c did now w Hin Hadm. rewrite !elem_of_app in Hin. destruct Hin as [Hin|[Hin|Hin]].
    + apply (free_of_elem _ _ _ _ _ F1) in Hin. done.
    + destruct (B2 _ _ _ _ _ Hin Hadm) as (-> & Hd & -> & ->). split; [done|].
      cbn [g gt_decision gt_limit_key gt_limit_verdicts].
      destruct (decide (ad_effect d3 = DENY)) as [E|E]; [right | by left].
      destruct (B3 Hd E k w eq_refl eq_refl Hadm) as (r & Hr). exists r. in_trace.
    + apply (free_of_elem _ _ _ _ _ F3) in Hin. done.
Qed.

(** ** Evidence, dispatch and outcome *)

Definition is_dispatch : call_class := fun X p => match p with Dispatch _ _ _ _ => true | _ => false end.
Definition is_intent : call_class := fun X p => match p with AppendIntent _ => true | _ => false end.
Definition is_workflow : call_class := fun X p => match p with CreateWorkflow _ _ _ _ _ _ _ => true | _ => false end.

(** The decision with approval metadata: the same in every other respect. *)
Definition annotates (d d' : AuthorizationDecision) : Prop :=
  (exists ai st, d' = set_approval d ai st) /\ (ad_effect d <> REQUIRE_APPROVAL -> d' = d).

Lemma set_approval_same d : set_approval d (ad_approval_id d) (ad_approval_state d) = d.
Proof. by destruct d. Qed.

Lemma materialize_ok v g t d' :
  exec (materialize_approval_metadata config (ev_principal v) (ev_action v) (gt_decision g)
          (ev_decision_id v) (gt_risk_score g) (ev_suppress_dispatch v)) t (Ok d') ->
  annotates (gt_decision g) d'.
Proof.
  unfold materialize_approval_metadata, annotates. intros H.
  destruct (ad_effect (gt_decision g)) eqn:E; exec_ok.
  1,3: split; [eexists _, _; by rewrite set_approval_same | done].
  split; [|done]. clear E. repeat exec_case; cbn [set_approval] in *; try (eexists _, _; reflexivity).
Qed.

Lemma never_materialize (C : call_class) v g :
  C _ (NewId "approval") = false ->
  (forall a b c d e f h, ev_suppress_dispatch v = false -> C _ (CreateWorkflow a b c d e f h) = false) ->
  never C (materialize_approval_metadata config (ev_principal v) (ev_action v) (gt_decision g)
    (ev_decision_id v) (gt_risk_score g) (ev_suppress_dispatch v)).
Proof.
  intros H1 H2. unfold materialize_approval_metadata, attempt.
  destruct (ad_effect _); try done. apply never_bind.
  { destruct (ad_approval_id _); [done|]. by apply never_call. }
  intros a. destruct (ev_suppress_dispatch v); [done|]. destruct (cf_workflow_sla config); [|done].
  apply never_bind; [|intros [|]; done]. split; [by apply H2 | done].
Qed.

(** Where the decision settles what happens without the dispatcher. *)
Definition settled (d : AuthorizationDecision) (suppress_dispatch : bool) : option ExecutionStatus :=
  match ad_effect d with
  | DENY => Some DENIED
  | REQUIRE_APPROVAL => Some PENDING_APPROVAL
  | ALLOW =>
      if is_nil (blocking_obligations d) then if suppress_dispatch then Some REPLAYED else None
      else Some PENDING_APPROVAL
  end.

Lemma settled_none d b :
  settled d b = None <-> ad_effect d = ALLOW /\ blocking_obligations d = [] /\ b = false.
Proof. unfold settled. destruct (ad_effect d), (blocking_obligations d), b; cbn; naive_solver. Qed.

(** The dispatcher's response, as the execution reported. *)
Definition reports (r : res ExecutionOutcome) (e : ExecutionOutcome) : Prop :=
  match r with
  | Ok o => e = o
  | Raise x => is_dispatch_error x = true /\ eo_status e = FAILED
  end.

Lemma dispatch_if_permitted_inv v d rc t o :
  exec (dispatch_if_permitted config (ev_action v) d rc (ev_now v) (ev_suppress_dispatch v)) t o ->
  match settled d (ev_suppress_dispatch v) with
  | Some st => t = [] /\ forall e, o = Ok e -> eo_status e = st
  | None => exists r, t = [Ev (Dispatch (ev_action v) rc (cf_default_timeout_s config) (ev_now v)) r] /\
                      forall e, o = Ok e -> reports r e
  end.
Proof.
  unfold dispatch_if_permitted, settled. intros H.
  assert (Hlift : forall st ec, exec (lift (mk_ExecutionOutcome st (ev_now v) None ec)) t o ->
                                t = [] /\ forall e, o = Ok e -> eo_status e = st).
  { intros st ec [-> ->]%exec_lift_inv. split; [done|]. by intros e [? _]%mk_ExecutionOutcome_ok. }
  destruct (ad_effect d); cbn [bool_decide orb] in *; try (by apply Hlift in H).
  rewrite bool_decide_eq_false_2 in H by done. cbn [orb] in H.
  destruct (is_nil (blocking_obligations d)); cbn [negb] in H; [|by apply Hlift in H].
  destruct (ev_suppress_dispatch v); [by apply Hlift in H|]. clear Hlift.
  apply exec_bind_inv in H as [(e & He & _)|(r & t1 & t2 & -> & Hr & H)];
    [apply exec_attempt in He as (? & _ & ?); done|].
  apply exec_attempt in Hr as (r' & -> & [= ->]). exists r'. destruct r' as [x|e].
  - apply exec_ret_inv in H as [-> ->]. split; [done|]. by intros ? [= <-].
  - destruct (is_dispatch_error e) eqn:He.
    + apply exec_lift_inv in H as [-> ->]. split; [done|]. intros x [? _]%mk_ExecutionOutcome_ok. done.
    + apply exec_throw_inv in H as [-> ->]. done.
Qed.

(** The class of calls that change the outside world or the evidence. *)
Lemma never_report (C : call_class) v rc ex d :
  (forall o, C _ (AppendOutcome rc o) = false) ->
  never C (outcome ← lift (mk_OutcomeRecord (ev_decision_id v) ex);
           r ← attempt (AppendOutcome rc outcome);
           match r with
           | Ok _ | Raise EvidenceWriteError =>
               Ret {| do_decision_id := ev_decision_id v; do_decision := d; do_receipt := rc;
                      do_execution := ex |}
           | Raise e => Throw e
           end).
Proof.
  intros HC. apply never_bind; [apply never_lift|]. intros o. apply never_bind; [by split|].
  intros [|e]; [done|]. by destruct e.
Qed.

Lemma act_and_report_inv v d rc t o :
  exec (act_and_report config v d rc) t o ->
  free_of is_intent t /\
  (forall out, o = Ok out -> do_decision out = d /\ do_receipt out = rc /\ do_decision_id out = ev_decision_id v) /\
  match settled d (ev_suppress_dispatch v) with
  | Some st => free_of is_dispatch t /\ forall out, o = Ok out -> eo_status (do_execution out) = st
  | None => exists r t', t = Ev (Dispatch (ev_action v) rc (cf_default_timeout_s config) (ev_now v)) r :: t' /\
              free_of is_dispatch t' /\ forall out, o = Ok out -> reports r (do_execution out)
  end.
Proof.
  unfold act_and_report. intros H.
  apply exec_bind_inv in H as [(e & He & ->)|(ex & t1 & t2 & -> & He & H)];
    apply dispatch_if_permitted_inv in He.
  - destruct (settled _ _); [destruct He as [-> _] | destruct He as (r & -> & _)].
    + split_and!; done || constructor.
    + split_and!; [by constructor; [|constructor] | done |].
      exists r, []. split_and!; done || constructor.
  - pose proof (never_free is_intent _ _ _ (never_report _ _ _ _ _ (fun _ => eq_refl)) H) as F1.
    pose proof (never_free is_dispatch _ _ _ (never_report _ _ _ _ _ (fun _ => eq_refl)) H) as F2.
    assert (Hout : forall out, o = Ok out -> do_decision out = d /\ do_receipt out = rc /\
                     do_decision_id out = ev_decision_id v /\ do_execution out = ex).
    { intros out ->. exec_ok. repeat exec_case; done. }
    destruct (settled _ _); [destruct He as [-> He] | destruct He as (r & -> & He)].
    + split_and!; [done | by intros out (? & ? & ? & _)%Hout | done |].
      intros out (_ & _ & _ & ->)%Hout. by apply He.
    + split_and!; [by constructor | by intros out (? & ? & ? & _)%Hout |].
      exists r, t2. split_and!; [done | done |]. intros out (_ & _ & _ & ->)%Hout. by apply He.
Qed.

(** The failures of [append_intent] that the service handles. *)
Definition evidence_failure (e : exn) : Prop := e = EvidenceWriteError \/ e = SigningUnavailableError.

(** Budget held by the gates is given back where the trace shows an evidence failure. *)
Definition budget_returned (v : evaluation) (g : gated) (t : list event) : Prop :=
  forall key w rec e, gt_limit_key g = Some key -> gt_limit_verdicts g = [w] -> lv_admitted w = true ->
    Ev (AppendIntent rec) (Raise e) ∈ t -> evidence_failure e ->
    exists r, Ev (Release key (ev_decision_id v)) r ∈ t.

Lemma never_release_class (C : call_class) k vs did be :
  (forall key, C _ (Release key did) = false) -> never C (release_limit_budget k vs did be).
Proof.
  intros HC. unfold release_limit_budget, attempt. destruct k, (last vs); try done.
  destruct (negb _); [done|]. apply never_bind; [by split|]. intros [|e]; [done|]. destruct e; try done.
  by destruct be.
Qed.

(** The appending itself: three calls, the last two only while the ones before succeed. *)
Definition append_calls (rec : IntentRecord) : prog EvidenceReceipt :=
  _ ← call ClockNow; receipt ← call (AppendIntent rec); _ ← call ClockNow; Ret receipt.

Lemma append_calls_inv rec t o :
  exec (append_calls rec) t o ->
  (exists e, t = [Ev ClockNow (Raise e)] /\ o = Raise e) \/
  (exists c e, t = [Ev ClockNow (Ok c); Ev (AppendIntent rec) (Raise e)] /\ o = Raise e) \/
  (exists c rc e, t = [Ev ClockNow (Ok c); Ev (AppendIntent rec) (Ok rc); Ev ClockNow (Raise e)] /\ o = Raise e) \/
  (exists c rc c', t = [Ev ClockNow (Ok c); Ev (AppendIntent rec) (Ok rc); Ev ClockNow (Ok c')] /\ o = Ok rc).
Proof.
  unfold append_calls. intros H. apply exec_bind_inv in H as [(e & H & ->)|(c & t1 & t2 & -> & H1 & H)].
  { apply exec_call_inv in H as ->. left. by exists e. }
  apply exec_call_inv in H1 as ->. right.
  apply exec_bind_inv in H as [(e & H & ->)|(rc & t3 & t4 & -> & H3 & H)].
  { apply exec_call_inv in H as ->. left. by exists c, e. }
  apply exec_call_inv in H3 as ->. right.
  apply exec_bind_inv in H as [(e & H & ->)|(c' & t5 & t6 & -> & H5 & H)].
  { apply exec_call_inv in H as ->. left. by exists c, rc, e. }
  apply exec_call_inv in H5 as ->. apply exec_ret_inv in H as [-> ->]. right. by exists c, rc, c'.
Qed.

Lemma append_calls_free rec t o : exec (append_calls rec) t o -> free_of is_dispatch t.
Proof. apply never_free. unfold append_calls. solve_never. Qed.

(** Only this record is appended, and the exception of a failed append is the
    one raised. *)
Lemma append_calls_intent rec t o rec' r :
  exec (append_calls rec) t o -> Ev (AppendIntent rec') r ∈ t ->
  rec' = rec /\ forall e, r = Raise e -> o = Raise e.
Proof.
  intros H Hin.
  apply append_calls_inv in H as [(e & -> & ->)|[(c & e & -> & ->)|[(c & rc & e & -> & ->)|(c & rc & c' & -> & ->)]]];
    rewrite !elem_of_cons in Hin;
    repeat match goal with H : _ \/ _ |- _ => destruct H as [H|H] end;
    try (by apply (f_equal intent_view) in Hin); try (by apply not_elem_of_nil in Hin);
    apply intent_event_inj in Hin as [-> ->]; done.
Qed.

(** The handler of a failed append. *)
Definition on_append_failure (v : evaluation) (g : gated) (e : exn) : prog EvidenceReceipt :=
  match e with
  | EvidenceWriteError | SigningUnavailableError =>
      _ ← release_limit_budget (gt_limit_key g) (gt_limit_verdicts g) (ev_decision_id v) true;
      Throw e
  | _ => Throw e
  end.

Lemma on_append_failure_inv v g e t o :
  exec (on_append_failure v g e) t o ->
  (exists e', o = Raise e') /\ free_of is_dispatch t /\ free_of is_intent t /\
  (evidence_failure e -> forall key w, gt_limit_key g = Some key -> gt_limit_verdicts g = [w] ->
     lv_admitted w = true -> exists r, Ev (Release key (ev_decision_id v)) r ∈ t).
Proof.
  assert (Hrel : exec (_ ← release_limit_budget (gt_limit_key g) (gt_limit_verdicts g) (ev_decision_id v) true;
                       (Throw e : prog EvidenceReceipt)) t o ->
    (exists e', o = Raise e') /\ free_of is_dispatch t /\ free_of is_intent t /\
    (evidence_failure e -> forall key w, gt_limit_key g = Some key -> gt_limit_verdicts g = [w] ->
       lv_admitted w = true -> exists r, Ev (Release key (ev_decision_id v)) r ∈ t)).
  { intros H. apply exec_bind_inv in H as [(e' & H & ->)|(u & t1 & t2 & -> & H & Ht)];
      [|apply exec_throw_inv in Ht as [-> ->]; rewrite app_nil_r].
    all: split_and!; [by eauto | by eapply never_free; [apply never_release_class|exact H]
      | by eapply never_free; [apply never_release_class|exact H] |].
    all: intros _ key w Hk Hv Hadm; rewrite Hk, Hv in H; by eapply release_inv. }
  assert (Hthrow : exec (Throw e : prog EvidenceReceipt) t o -> ~ evidence_failure e ->
    (exists e', o = Raise e') /\ free_of is_dispatch t /\ free_of is_intent t /\
    (evidence_failure e -> forall key w, gt_limit_key g = Some key -> gt_limit_verdicts g = [w] ->
       lv_admitted w = true -> exists r, Ev (Release key (ev_decision_id v)) r ∈ t)).
  { intros [-> ->]%exec_throw_inv Hne. split_and!; [by eauto | constructor | constructor | by intros ?]. }
  unfold on_append_failure, evidence_failure in *. destruct e; try exact Hrel;
    intros H; apply Hthrow; try done; by intros [|].
Qed.

Lemma persist_intent_inv v g rec t o :
  exec (persist_intent v g rec) t o ->
  free_of is_dispatch t /\
  (forall rec' r, Ev (AppendIntent rec') r ∈ t -> rec' = rec) /\
  ((exists rc c c', o = Ok rc /\ t = [Ev ClockNow (Ok c); Ev (AppendIntent rec) (Ok rc); Ev ClockNow (Ok c')]) \/
   (exists e, o = Raise e) /\ budget_returned v g t).
Proof.
  intros H. apply (exec_try_inv (append_calls rec) (on_append_failure v g)) in H
    as [(rc & H & ->)|(e & t1 & t2 & -> & H1 & H2)].
  - split_and!; [by eapply append_calls_free | |].
    + intros rec' r Hin. by apply (append_calls_intent _ _ _ _ _ H) in Hin as [-> _].
    + apply append_calls_inv in H
        as [(? & _ & ?)|[(? & ? & _ & ?)|[(? & ? & ? & _ & ?)|(c & rc' & c' & -> & [= <-])]]]; try done.
      left. by eauto.
  - apply on_append_failure_inv in H2 as (Ho & F1 & F2 & Hb). split_and!.
    + apply free_of_app. split; [by eapply append_calls_free | done].
    + intros rec' r [Hin|Hin]%elem_of_app; [by apply (append_calls_intent _ _ _ _ _ H1) in Hin as [-> _]|].
      by apply (free_of_elem _ _ _ _ _ F2) in Hin.
    + right. split; [done|]. intros key w rec' e' Hk Hv Hadm Hin He'.
      apply elem_of_app in Hin as [Hin|Hin]; [|by apply (free_of_elem _ _ _ _ _ F2) in Hin].
      apply (append_calls_intent _ _ _ _ _ H1) in Hin as [_ Hr]. specialize (Hr _ eq_refl) as [= ->].
      destruct (Hb He' _ _ Hk Hv Hadm) as (r & Hr). exists r. in_trace.
Qed.

(** ** The anatomy of an evaluation *)

(** The calls that leave evidence, act, or create a workflow. *)
Definition is_effect : call_class := fun X p =>
  match p with
  | Dispatch _ _ _ _ | AppendIntent _ | AppendOutcome _ _ | CreateWorkflow _ _ _ _ _ _ _ => true
  | _ => false
  end.

Lemma effect_free_dispatch t : free_of is_effect t -> free_of is_dispatch t.
Proof. intros H. eapply Forall_impl; [exact H|]. intros [X p r]. by destruct p. Qed.
Lemma effect_free_intent t : free_of is_effect t -> free_of is_intent t.
Proof. intros H. eapply Forall_impl; [exact H|]. intros [X p r]. by destruct p. Qed.
Lemma effect_free_workflow t : free_of is_effect t -> free_of is_workflow t.
Proof. intros H. eapply Forall_impl; [exact H|]. intros [X p r]. by destruct p. Qed.

Ltac unfold_stages :=
  unfold unless_denied, check_identity_assertion, check_kill_switch, kill_switch_engaged, check_mandate,
    mandate_unavailable, check_policy, compute_risk, check_risk_threshold, check_limits, check_baseline,
    limit_key_for, release_limit_budget, attempt, pass, refuse, skipped, executed, failed, stage, deny.

Lemma never_decide v : never is_effect (decide_stages v).
Proof. unfold decide_stages. unfold_stages. solve_never. Qed.

Lemma never_gate v d stages : never is_effect (gate_stages config v d stages).
Proof. unfold gate_stages, risk_gate, limits_gate, baseline_gate. unfold_stages. solve_never. Qed.

Inductive anatomy (v : evaluation) (t : list event) (o : res DecisionOutcome) : Prop :=
| Stopped e :
    o = Raise e -> free_of is_intent t -> free_of is_dispatch t ->
    (ev_suppress_dispatch v = true -> free_of is_workflow t) -> anatomy v t o
| Unrecorded d stages g dec rec t1 t2 t3 t4 e :
    t = t1 ++ t2 ++ t3 ++ t4 -> o = Raise e ->
    exec (decide_stages v) t1 (Ok (d, stages)) -> exec (gate_stages config v d stages) t2 (Ok g) ->
    free_of is_intent t3 -> free_of is_try_consume t3 -> free_of is_dispatch t ->
    (ev_suppress_dispatch v = true -> free_of is_workflow t) ->
    annotates (gt_decision g) dec -> exec (intent_of config v g dec) [] (Ok rec) ->
    exec (persist_intent v g rec) t4 (Raise e) -> anatomy v t o
| Completed d stages g dec rec rc t1 t2 t3 t4 c c' :
    t = (t1 ++ t2 ++ t3) ++ [Ev ClockNow (Ok c); Ev (AppendIntent rec) (Ok rc); Ev ClockNow (Ok c')] ++ t4 ->
    exec (decide_stages v) t1 (Ok (d, stages)) -> exec (gate_stages config v d stages) t2 (Ok g) ->
    free_of is_intent (t1 ++ t2 ++ t3) -> free_of is_dispatch (t1 ++ t2 ++ t3) ->
    (ev_suppress_dispatch v = true -> free_of is_workflow (t1 ++ t2 ++ t3)) ->
    free_of is_try_consume t3 ->
    annotates (gt_decision g) dec -> exec (intent_of config v g dec) [] (Ok rec) ->
    exec (act_and_report config v dec rc) t4 o -> anatomy v t o.

Lemma never_persist_workflow v g rec : never is_workflow (persist_intent v g rec).
Proof. unfold persist_intent, release_limit_budget, attempt. solve_never. Qed.

Lemma exec_intent_of v g dec t o : exec (intent_of config v g dec) t o -> t = [].
Proof. unfold intent_of. by intros [-> _]%exec_lift_inv. Qed.

Lemma evaluate_anatomy v t o : exec (evaluate config v) t o -> anatomy v t o.
Proof.
  unfold evaluate. intros H.
  apply exec_bind_inv in H as [(e & H & ->)|([d stages] & t1 & u1 & -> & H1 & H)].
  { pose proof (never_free _ _ _ _ (never_decide v) H) as F.
    eapply Stopped; [done | by apply effect_free_intent | by apply effect_free_dispatch | ].
    intros _. by apply effect_free_workflow. }
  pose proof (never_free _ _ _ _ (never_decide v) H1) as F1.
  apply exec_bind_inv in H as [(e & H & ->)|(g & t2 & u2 & -> & H2 & H)].
  { pose proof (never_free _ _ _ _ (never_gate v d stages) H) as F.
    assert (F' : free_of is_effect (t1 ++ u1)) by by apply free_of_app.
    eapply Stopped; [done | by apply effect_free_intent | by apply effect_free_dispatch | ].
    intros _. by apply effect_free_workflow. }
  pose proof (never_free _ _ _ _ (never_gate v d stages) H2) as F2.
  assert (F12 : free_of is_effect (t1 ++ t2)) by by apply free_of_app.
  pose proof (effect_free_intent _ F12) as I12. pose proof (effect_free_dispatch _ F12) as D12.
  pose proof (effect_free_workflow _ F12) as W12. unfold conclude in H.
  assert (Hmat : forall t3 x, exec (materialize_approval_metadata config (ev_principal v) (ev_action v)
      (gt_decision g) (ev_decision_id v) (gt_risk_score g) (ev_suppress_dispatch v)) t3 x ->
      free_of is_intent t3 /\ free_of is_dispatch t3 /\ free_of is_try_consume t3 /\
      (ev_suppress_dispatch v = true -> free_of is_workflow t3)).
  { intros t3 x Hx. split_and!; [..|intros Hsup];
      eapply never_free; try exact Hx; apply never_materialize; try done. by rewrite Hsup. }
  apply exec_bind_inv in H as [(e & H & ->)|(dec & t3 & u3 & -> & H3 & H)].
  { destruct (Hmat _ _ H) as (M1 & M2 & _ & M4). rewrite app_assoc.
    eapply Stopped; [done | by apply free_of_app | by apply free_of_app | intros Hs; apply free_of_app; auto]. }
  destruct (Hmat _ _ H3) as (M1 & M2 & M3 & M4). apply materialize_ok in H3.
  apply exec_bind_inv in H as [(e & H & ->)|(rec & t4 & u4 & -> & H4 & H)].
  { apply exec_intent_of in H as ->. rewrite app_nil_r, app_assoc.
    eapply Stopped; [done | by apply free_of_app | by apply free_of_app | intros Hs; apply free_of_app; auto]. }
  pose proof (exec_intent_of _ _ _ _ _ H4) as ->. rewrite app_nil_l in *.
  apply exec_bind_inv in H as [(e & H & ->)|(rc & t5 & t6 & -> & H5 & H)].
  - pose proof (never_free _ _ _ _ (never_persist_workflow _ _ _) H) as W5.
    pose proof (persist_intent_inv _ _ _ _ _ H) as (D5 & _ & _).
    eapply Unrecorded; try done; rewrite !app_assoc.
    + by rewrite !free_of_app in *.
    + intros Hs. specialize (M4 Hs). by rewrite !free_of_app in *.
  - pose proof (persist_intent_inv _ _ _ _ _ H5) as (_ & _ & [(rc' & c & c' & [= <-] & ->)|[(e & ?) _]]); [|done].
    rewrite !app_assoc, <-(app_assoc _ _ t6), <-(app_assoc t1).
    eapply Completed; try done; rewrite !app_assoc; [by apply free_of_app | by apply free_of_app |].
    intros Hs. apply free_of_app. auto.
Qed.

(** ** What the entry points establish *)

(** The credential was verified now, is valid now, and is of the action's tenant. *)
Definition verified_now (cr : RawCredential) (t : list event) (v : evaluation) : Prop :=
  Ev (Verify cr (ev_now v)) (Ok (ev_principal v)) ∈ t /\
  require_valid_at (ev_principal v) (ev_now v) = Ok tt /\
  vp_tenant_id (ev_principal v) = pa_tenant_id (ev_action v).

(** The action is the one a governed definition derives from the parameters. *)
Definition derived (def : ActionDefinition) (r : ResourceRef) (ps : list (string * pyval)) (key : string)
    (a : ProposedAction) : Prop :=
  pa_action a = df_action def /\ pa_resource a = r /\ pa_consequence a = df_consequence def /\
  extract (df_exposure_rule def) ps = Ok (pa_exposure a) /\ pa_idempotency_key a = key.

(** Every required attestation was answered true by the system of record. *)
Definition attested (t : list event) (r : ResourceRef) (def : ActionDefinition) (now : float) : Prop :=
  Forall (fun name => Ev (AttestationResolve (rr_tenant_id r) r name now) (Ok true) ∈ t)
    (df_required_attestations def).

Definition origin (sc : service_call) (t : list event) (v : evaluation) : Prop :=
  match sc with
  | Direct cr a c => ev_action v = a /\ verified_now cr t v
  | ForRequest cr name r ps key c =>
      verified_now cr t v /\
      (ev_catalogue_denial v = None ->
       exists def, Ev (CatalogueResolve (rr_tenant_id r) name) (Ok def) ∈ t /\
         derived def r ps key (ev_action v) /\ validate_parameters def ps = [] /\
         scan_untrusted_text_fields def ps = [] /\ attested t r def (ev_now v) /\
         ev_sensitive_parameter_fields v = df_sensitive_parameter_fields def)
  | ForToolCall cr name digest r ps key c =>
      verified_now cr t v /\
      (ev_tool_registry_denial v = None ->
       exists def, Ev (ToolResolve (rr_tenant_id r) name digest) (Ok def) ∈ t /\
         derived (td_action def) r ps key (ev_action v) /\
         ev_sensitive_parameter_fields v = df_sensitive_parameter_fields (td_action def))
  | Replay p a _ _ _ _ _ => ev_principal v = p /\ ev_action v = a
  end.

Definition is_replay (sc : service_call) : bool := match sc with Replay _ _ _ _ _ _ _ => true | _ => false end.

Lemma governed_action_ok def r ps key t a :
  exec (governed_action def r ps key) t (Ok a) -> t = [] /\ derived def r ps key a.
Proof.
  unfold governed_action. intros [-> H]%exec_lift_inv. split; [done|]. symmetry in H.
  apply bind_ok in H as (ex & He & H). unfold derived.
  unfold mk_ProposedAction in H. inv_ok. subst a. cbn.
  repeat match goal with H : require_identifier _ _ = Ok _ |- _ =>
    apply require_identifier_valid in H as [-> ?] end. done.
Qed.

Lemma placeholder_tenant r n ps key t a :
  exec (ungoverned_placeholder r n ps key) t (Ok a) -> t = [] /\ pa_resource a = r.
Proof.
  unfold ungoverned_placeholder. intros [-> H]%exec_lift_inv. split; [done|]. symmetry in H.
  unfold mk_ProposedAction in H. inv_ok. by subst a.
Qed.

Lemma resolved_ok ap st sens t x :
  exec (resolved ap st sens) t (Ok x) ->
  exists a r t1 t2, t = t1 ++ t2 /\ exec ap t1 (Ok a) /\ exec st t2 (Ok r) /\ x = (a, r.1, r.2, sens).
Proof.
  unfold resolved. intros H. apply exec_bind_ok in H as (a & t1 & u1 & -> & H1 & H).
  apply exec_bind_ok in H as (r & t2 & u2 & -> & H2 & H). apply exec_ret_inv in H as [-> [= ->]].
  rewrite app_nil_r. by exists a, r, t1, t2.
Qed.

(** A resolution: its stage is [name]; a denial denies; otherwise [P]. *)
Definition resolution_spec (name : string) (r : ResourceRef) (P : ProposedAction -> gset string -> Prop)
    (x : ProposedAction * StageOutcome * option AuthorizationDecision * gset string) : Prop :=
  let '(a, st, dn, sens) := x in
  so_stage st = name /\ pa_resource a = r /\
  match dn with None => P a sens | Some d => ad_effect d = DENY /\ ad_reasons d <> [] end.

Lemma tool_registry_ok tid n dg r ps key t x :
  exec (check_tool_registry tid n dg r ps key) t (Ok x) ->
  resolution_spec "tool_registry" r
    (fun a sens => exists def, Ev (ToolResolve tid n dg) (Ok def) ∈ t /\
       derived (td_action def) r ps key a /\ sens = df_sensitive_parameter_fields (td_action def)) x.
Proof.
  unfold check_tool_registry. intros H.
  apply exec_bind_ok in H as (r0 & t1 & u1 & -> & Hr & H). apply exec_attempt in Hr as (r1 & -> & [= ->]).
  destruct r1 as [def|e].
  - apply resolved_ok in H as (a & st & t2 & t3 & -> & Ha & Hs & ->).
    apply governed_action_ok in Ha as [-> Ha]. apply exec_pass in Hs as (-> & Hn & ->). cbn.
    split_and!; [done | apply Ha |]. exists def. split_and!; [in_trace | done | done].
  - destruct e; try (apply exec_throw_inv in H as [_ ?]; discriminate);
      apply resolved_ok in H as (a & st & t2 & t3 & -> & Ha & Hs & ->);
      apply placeholder_tenant in Ha as [-> Ha]; apply exec_refuse in Hs as (-> & Hn & d & -> & Hd);
      cbn; split_and!; try done; by eapply denies_spec.
Qed.

Lemma attestations_ok tid r names now t :
  exec (first_unsatisfied_attestation tid r names now) t (Ok None) ->
  Forall (fun name => Ev (AttestationResolve tid r name now) (Ok true) ∈ t) names.
Proof.
  revert t. induction names as [|n names IH]; intros t H; [constructor|].
  cbn [first_unsatisfied_attestation] in H.
  apply exec_bind_ok in H as (r0 & t1 & u1 & -> & Hr & H). apply exec_attempt in Hr as (r1 & -> & [= ->]).
  destruct r1 as [[|]|e]; [|exec_ok; done | destruct e; exec_ok; done].
  apply IH in H. constructor; [in_trace|]. eapply Forall_impl; [exact H|]. intros m Hm. apply elem_of_app. by right.
Qed.

Lemma catalogue_ok n r ps key now t x :
  exec (check_catalogue (rr_tenant_id r) n r ps key now) t (Ok x) ->
  resolution_spec "catalogue" r
    (fun a sens => exists def, Ev (CatalogueResolve (rr_tenant_id r) n) (Ok def) ∈ t /\
       derived def r ps key a /\ validate_parameters def ps = [] /\
       scan_untrusted_text_fields def ps = [] /\ attested t r def now /\
       sens = df_sensitive_parameter_fields def) x.
Proof.
  unfold check_catalogue. intros H.
  apply exec_bind_ok in H as (r0 & t1 & u1 & -> & Hr & H). apply exec_attempt in Hr as (r1 & -> & [= ->]).
  destruct r1 as [def|e].
  2:{ destruct e; try (apply exec_throw_inv in H as [_ ?]; discriminate);
        apply resolved_ok in H as (a & st & t2 & t3 & -> & Ha & Hs & ->);
        apply placeholder_tenant in Ha as [-> Ha]; apply exec_refuse in Hs as (-> & Hn & d & -> & Hd);
        cbn; split_and!; try done; by eapply denies_spec. }
  apply exec_bind_ok in H as (a & t2 & u2 & -> & [-> Ha]%governed_action_ok & H).
  destruct (validate_parameters def ps) eqn:Hval; cbn [is_nil negb] in H;
    [|apply exec_throw_inv in H as [_ ?]; discriminate].
  destruct (scan_untrusted_text_fields def ps) eqn:Hscan; cbn [is_nil negb] in H.
  2:{ apply resolved_ok in H as (a' & st & t3 & t4 & -> & Ha' & Hs & ->).
      apply exec_ret_inv in Ha' as [-> [= ->]]. apply exec_refuse in Hs as (-> & Hn & d & -> & Hd).
      cbn. split_and!; [done | apply Ha | by eapply denies_spec..]. }
  apply exec_bind_ok in H as (un & t3 & u3 & -> & Hatt & H). destruct un as [name|];
    apply resolved_ok in H as (a' & st & t4 & t5 & -> & Ha' & Hs & ->);
    apply exec_ret_inv in Ha' as [-> [= ->]].
  - apply exec_refuse in Hs as (-> & Hn & d & -> & Hd).
    cbn. split_and!; [done | apply Ha | by eapply denies_spec..].
  - apply attestations_ok in Hatt. apply exec_pass in Hs as (-> & Hn & ->). cbn.
    split_and!; [done | apply Ha |]. exists def. split_and!; try done; [in_trace|].
    eapply Forall_impl; [exact Hatt|]. intros m Hm. in_trace.
Qed.

Lemma verified_principal_ok cr tid f now t p :
  exec (verified_principal cr tid f now) t (Ok p) ->
  Ev (Verify cr now) (Ok p) ∈ t /\ require_valid_at p now = Ok tt /\ vp_tenant_id p = tid.
Proof.
  unfold verified_principal. intros H.
  apply exec_bind_ok in H as (q & t1 & u1 & -> & ->%exec_call_inv & H).
  apply exec_bind_ok in H as ([] & t2 & u2 & -> & [-> Hv]%exec_lift_inv & H).
  destruct (String.eqb_spec (vp_tenant_id q) tid); cbn [negb] in H;
    [|apply exec_throw_inv in H as [_ ?]; discriminate].
  apply exec_ret_inv in H as [-> [= ->]]. split_and!; [in_trace | done | done].
Qed.

Ltac unfold_entry :=
  unfold verified_principal, id_or_new, check_catalogue, check_tool_registry, resolved, governed_action,
    ungoverned_placeholder, attempt, pass, refuse, skipped, executed, failed, stage, deny.

Lemma never_attestations (C : call_class) tid r names now :
  (forall n, C _ (AttestationResolve tid r n now) = false) ->
  never C (first_unsatisfied_attestation tid r names now).
Proof.
  intros HC. induction names as [|n names IH]; [done|]. cbn [first_unsatisfied_attestation].
  apply never_bind; [by split|]. intros [[|]|e]; [done | done |]. by destruct e.
Qed.

(** Before [evaluate] nothing is consumed, recorded, dispatched or created. *)
Definition is_early_effect : call_class := fun X p => is_effect X p || is_try_consume X p.

Lemma early_free t : free_of is_early_effect t -> free_of is_effect t /\ free_of is_try_consume t.
Proof.
  intros H. split; (eapply Forall_impl; [exact H|]); intros [X p r]; cbn;
    unfold is_early_effect; by intros [? ?]%orb_false_iff.
Qed.

Inductive served (sc : service_call) (t : list event) (o : res DecisionOutcome) : Prop :=
| Rejected e : o = Raise e -> free_of is_early_effect t -> served sc t o
| Evaluated v t0 t' :
    t = t0 ++ t' -> exec (evaluate config v) t' o -> free_of is_early_effect t0 ->
    evaluation_wf v -> origin sc t0 v -> ev_suppress_dispatch v = is_replay sc -> served sc t o.

(** One more step of an entry point before [evaluate]. *)
Lemma served_bind {A} sc (p : prog A) (f : A -> prog DecisionOutcome) t0 t o :
  free_of is_early_effect t0 -> never is_early_effect p -> exec (p ≫= f) t o ->
  (forall a t1 t2, exec p t1 (Ok a) -> free_of is_early_effect (t0 ++ t1) -> exec (f a) t2 o ->
     served sc ((t0 ++ t1) ++ t2) o) ->
  served sc (t0 ++ t) o.
Proof.
  intros F0 Hn H Hk. apply exec_bind_inv in H as [(e & H & ->)|(a & t1 & t2 & -> & H1 & H2)].
  - eapply Rejected; [done|]. apply free_of_app. split; [done|]. by eapply never_free.
  - rewrite app_assoc. apply (Hk a); try done. apply free_of_app. split; [done|]. by eapply never_free.
Qed.

(** Apply [served_bind] to the first step of a run that goes on after [t0]. *)
Ltac serve_step H :=
  eapply served_bind; [try done; constructor | | exact H | clear H; intros ? ? ? ? ? H; cbv beta in H];
  [unfold_entry; solve_never; apply never_attestations; done|].

Lemma verified_now_intro cr v t1 t2 t3 f :
  exec (verified_principal cr (pa_tenant_id (ev_action v)) f (ev_now v)) t2 (Ok (ev_principal v)) ->
  verified_now cr ((t1 ++ t2) ++ t3) v.
Proof. intros (Hv & Hr & Ht)%verified_principal_ok. split_and!; [in_trace | done | done]. Qed.

Lemma attested_mono t t' r def now : t ⊆ t' -> attested t r def now -> attested t' r def now.
Proof. intros Hs H. eapply Forall_impl; [exact H|]. intros n Hn. by apply Hs. Qed.

Lemma serve_inv sc t o : exec (serve config sc) t o -> served sc t o.
Proof.
  intros H. rewrite <-(app_nil_l t).
  destruct sc as [cr a c|cr n r ps key c|cr n dg r ps key c|p a tr di ca pr now]; cbn [serve] in H.
  - unfold decide_and_dispatch in H.
    serve_step H. serve_step H. serve_step H. serve_step H. serve_step H. serve_step H.
    exec_ok. eapply Evaluated; [reflexivity | exact H | done | | | done].
    + by constructor.
    + split; [done|]. rewrite <-(app_assoc _ []). by eapply verified_now_intro.
  - unfold decide_and_dispatch_for_request in H.
    serve_step H. serve_step H. serve_step H. serve_step H.
    match type of H with exec (match ?x with _ => _ end) _ _ => destruct x as [[[ac st] dn] sens] end.
    match goal with H : exec (check_catalogue _ _ _ _ _ _) _ _ |- _ =>
      apply catalogue_ok in H as (Hn & Hr & Hc) end.
    serve_step H. serve_step H.
    exec_ok. eapply Evaluated; [reflexivity | exact H | done | | | done].
    + constructor; try done. cbn. by intros d ->.
    + unfold origin. split.
      * match goal with H : exec (verified_principal _ _ _ _) _ _ |- _ =>
          eapply verified_now_intro; exact H end.
      * cbn. intros ->. destruct Hc as (def & ? & ? & ? & ? & ? & ?). exists def.
        split_and!; try done; [in_trace|]. eapply attested_mono; [|done]. intros e He. in_trace.
  - unfold decide_and_dispatch_for_tool_call in H.
    serve_step H. serve_step H. serve_step H. serve_step H.
    match type of H with exec (match ?x with _ => _ end) _ _ => destruct x as [[[ac st] dn] sens] end.
    match goal with H : exec (check_tool_registry _ _ _ _ _ _) _ _ |- _ =>
      apply tool_registry_ok in H as (Hn & Hr & Hc) end.
    serve_step H. serve_step H.
    exec_ok. eapply Evaluated; [reflexivity | exact H | done | | | done].
    + constructor; try done. cbn. by intros d ->.
    + unfold origin. split.
      * match goal with H : exec (verified_principal _ _ _ _) _ _ |- _ =>
          eapply verified_now_intro; exact H end.
      * cbn. intros ->. destruct Hc as (def & ? & ? & ?). exists def. split_and!; try done. in_trace.
  - unfold replay in H.
    serve_step H. serve_step H. serve_step H. serve_step H. serve_step H.
    exec_ok. eapply Evaluated; [reflexivity | exact H | done | | | done].
    + by constructor.
    + done.
Qed.
End stages.
