(* ===== verification/Mediation.v ===== *)
(** * The guarantees of the decision service

    Every theorem here holds of every execution of every entry point
    ([decide_and_dispatch], [decide_and_dispatch_for_request],
    [decide_and_dispatch_for_tool_call], [replay]), against any environment. *)

From stdpp Require Import base tactics list strings gmap.
From Stdlib Require Import ZArith Lia.
From S2P Require Import Prelude PyFloat PyStr Serialization Action Identity Mandate Limits Risk Decision Catalogue Evidence GovernanceState PromptInjection Ports DecisionService DecisionSafety.

Open Scope string_scope.
Open Scope list_scope.

Section guarantees.
Variable config : ServiceConfig.

(** ** From the anatomy to the record *)

Lemma intent_of_ok v g dec rec t :
  exec (intent_of config v g dec) t (Ok rec) ->
  ir_decision_id rec = ev_decision_id v /\ ir_created_at rec = ev_now v /\
  ir_principal rec = ev_principal v /\ ir_decision rec = dec /\ ir_risk rec = gt_risk_score g /\
  ir_limits rec = gt_limit_verdicts g /\ ir_stages rec = gt_stages g /\
  ir_tenant_id rec = vp_tenant_id (ev_principal v) /\ pa_tenant_id (ir_action rec) = ir_tenant_id rec /\
  with_redacted_parameters (ev_action v) (ev_sensitive_parameter_fields v) = Ok (ir_action rec).
Proof.
  unfold intent_of. intros [_ H]%exec_lift_inv. symmetry in H. apply bind_ok in H as (a & Ha & H).
  pose proof H as H'. apply mk_IntentRecord_ok in H' as (? & ? & ? & ? & ? & ? & ? & ? & ? & ? & ? & _).
  assert (ir_limits rec = gt_limit_verdicts g) by (unfold mk_IntentRecord in H; inv_ok; by subst rec).
  split_and!; congruence.
Qed.

Lemma redacted_same a F b :
  with_redacted_parameters a F = Ok b ->
  pa_resource b = pa_resource a /\ pa_consequence b = pa_consequence a /\ pa_action b = pa_action a /\
  pa_exposure b = pa_exposure a.
Proof.
  unfold with_redacted_parameters. case_bool_decide; [by intros [= ->]|].
  destruct (forallb _ _); [by intros [= ->]|]. intros Hb.
  by apply mk_ProposedAction_ok in Hb as (_ & ? & ? & ? & ? & _).
Qed.

Lemma annotates_effect d d' : annotates d d' -> ad_effect d' = ad_effect d.
Proof. by intros [(ai & st & ->) _]. Qed.

(** The first events of a trace split off, before the event that is not among them. *)
Lemma split_after C t1 t2 u1 e u2 :
  free_of C t1 -> event_in C e = true -> t1 ++ t2 = u1 ++ e :: u2 ->
  exists u, u1 = t1 ++ u /\ t2 = u ++ e :: u2.
Proof.
  revert u1. induction t1 as [|y t1 IH]; intros u1 Hf He E; [by exists u1|].
  apply Forall_cons in Hf as [Hy Hf]. destruct u1 as [|z u1]; cbn in E; injection E as -> E; [congruence|].
  destruct (IH u1 Hf He E) as (u & -> & ->). by exists u.
Qed.

(** The only event of a class, wherever the trace is split at one. *)
Lemma split_unique C l1 e l2 t1 e' t2 :
  free_of C l1 -> free_of C l2 -> event_in C e' = true ->
  l1 ++ e :: l2 = t1 ++ e' :: t2 -> l1 = t1 /\ e = e' /\ l2 = t2.
Proof.
  intros F1 F2 He'. revert l1 F1. induction t1 as [|x t1 IH]; intros l1 F1 E.
  - destruct l1 as [|y l1]; cbn in E; injection E as -> E; [done|].
    apply Forall_cons in F1 as [F _]. congruence.
  - destruct l1 as [|y l1]; cbn in E; injection E as -> E.
    + subst l2. apply Forall_app in F2 as [_ F2]. apply Forall_cons in F2 as [F _]. congruence.
    + apply Forall_cons in F1 as [_ F1]. by apply IH in E as (-> & -> & ->).
Qed.

Lemma free_no_split C t1 e t2 : free_of C (t1 ++ e :: t2) -> event_in C e = true -> False.
Proof. intros [_ F]%Forall_app He. apply Forall_cons in F as [F _]. congruence. Qed.

Lemma early_free_dispatch t : free_of is_early_effect t -> free_of is_dispatch t.
Proof. intros [H _]%early_free. by apply effect_free_dispatch. Qed.

Lemma redacted_tenant v g dec rec t :
  exec (intent_of config v g dec) t (Ok rec) -> vp_tenant_id (ev_principal v) = pa_tenant_id (ev_action v).
Proof.
  intros (_ & _ & _ & _ & _ & _ & _ & Ht & Ha & Hr)%intent_of_ok.
  apply redacted_same in Hr as (Hr & _). unfold pa_tenant_id in *. congruence.
Qed.

Lemma append_calls_ok rec rc c c' :
  exec (append_calls rec) [Ev ClockNow (Ok c); Ev (AppendIntent rec) (Ok rc); Ev ClockNow (Ok c')] (Ok rc).
Proof. repeat constructor. Qed.

(** A record that was written, or that the service tried to write. *)
Record written (sc : service_call) (t : list event) (rec : IntentRecord) (v : evaluation)
    (d : AuthorizationDecision) (stages : list StageOutcome) (g : gated) (t0 t1 t2 t3 : list event) : Prop := {
  wr_trace : t = t0 ++ t1 ++ t2 ++ t3;
  wr_origin : origin sc t0 v;
  wr_early : free_of is_early_effect t0;
  wr_wf : evaluation_wf v;
  wr_replay : ev_suppress_dispatch v = is_replay sc;
  wr_decide : exec (decide_stages v) t1 (Ok (d, stages));
  wr_gate : exec (gate_stages config v d stages) t2 (Ok g);
  wr_annotated : annotates (gt_decision g) (ir_decision rec);
  wr_record : exec (intent_of config v g (ir_decision rec)) [] (Ok rec)
}.

Lemma written_inv sc t o rec r :
  exec (serve config sc) t o -> Ev (AppendIntent rec) r ∈ t ->
  exists v d stages g t0 t1 t2 t3, written sc t rec v d stages g t0 t1 t2 t3.
Proof.
  intros H Hin. apply serve_inv in H as [e _ F|v t0 t' -> H F0 Hwf Ho Hrep].
  { apply early_free in F as [F _]. apply effect_free_intent in F.
    by apply (free_of_elem _ _ _ _ _ F) in Hin. }
  pose proof F0 as F0'. apply early_free in F0' as [F0' _]. apply effect_free_intent in F0'.
  apply elem_of_app in Hin as [Hin|Hin]; [by apply (free_of_elem _ _ _ _ _ F0') in Hin|].
  apply evaluate_anatomy in H as
    [e _ I _ _|d st g dec rec' t3 t4 t5 t6 e -> _ H3 H4 I5 _ _ _ Han Hrec Hper
    |d st g dec rec' rc t3 t4 t5 t6 c c' -> H3 H4 I _ _ _ Han Hrec Hact].
  - by apply (free_of_elem _ _ _ _ _ I) in Hin.
  - pose proof (never_free _ _ _ _ (never_decide v) H3) as I3%effect_free_intent.
    pose proof (never_free _ _ _ _ (never_gate _ v d st) H4) as I4%effect_free_intent.
    rewrite !elem_of_app in Hin. destruct Hin as [Hin|[Hin|[Hin|Hin]]];
      [by apply (free_of_elem _ _ _ _ _ I3) in Hin | by apply (free_of_elem _ _ _ _ _ I4) in Hin
      | by apply (free_of_elem _ _ _ _ _ I5) in Hin |].
    apply persist_intent_inv in Hper as (_ & Hone & _). apply Hone in Hin as ->.
    pose proof (intent_of_ok _ _ _ _ _ Hrec) as (_ & _ & _ & <- & _).
    exists v, d, st, g, t0, t3, t4, (t5 ++ t6). by constructor.
  - apply act_and_report_inv in Hact as (I6 & _ & _).
    rewrite !elem_of_app in Hin. rewrite !free_of_app in I. destruct I as (I3 & I4 & I5).
    assert (E : rec = rec').
    { destruct Hin as [[Hin|[Hin|Hin]]|[Hin|Hin]];
        [by apply (free_of_elem _ _ _ _ _ I3) in Hin | by apply (free_of_elem _ _ _ _ _ I4) in Hin
        | by apply (free_of_elem _ _ _ _ _ I5) in Hin | | by apply (free_of_elem _ _ _ _ _ I6) in Hin].
      by apply (append_calls_intent _ _ _ _ _ (append_calls_ok rec' rc c c')) in Hin as [-> _]. }
    subst rec'. pose proof (intent_of_ok _ _ _ _ _ Hrec) as (_ & _ & _ & <- & _).
    eexists v, d, st, g, t0, t3, t4, (t5 ++ _). constructor; try done. by rewrite <-!app_assoc.
Qed.

(** At most one event of the class. *)
Definition at_most_one (C : call_class) (t : list event) : Prop :=
  forall t1 e t2, t = t1 ++ e :: t2 -> event_in C e = true -> free_of C t1 /\ free_of C t2.

Lemma at_most_one_free C t : free_of C t -> at_most_one C t.
Proof. intros F t1 e t2 -> He. by apply free_no_split in F. Qed.

Lemma at_most_one_middle C l1 e l2 : free_of C l1 -> free_of C l2 -> at_most_one C (l1 ++ e :: l2).
Proof. intros F1 F2 t1 e' t2 E He. by apply (split_unique C) in E as (<- & _ & <-). Qed.

Lemma persist_intent_once v g rec t o : exec (persist_intent v g rec) t o -> at_most_one is_intent t.
Proof.
  intros H. apply (exec_try_inv (append_calls rec) (on_append_failure v g)) in H
    as [(rc & H & ->)|(e & t1 & t2 & -> & H1 & H2)].
  - apply append_calls_inv in H
      as [(? & _ & ?)|[(? & ? & _ & ?)|[(? & ? & ? & _ & ?)|(c & rc' & c' & -> & _)]]]; try done.
    apply (at_most_one_middle _ [_]); repeat (constructor; [done|]); constructor.
  - apply on_append_failure_inv in H2 as (_ & _ & F2 & _).
    apply append_calls_inv in H1
      as [(e' & -> & _)|[(c & e' & -> & _)|[(c & rc & e' & -> & _)|(c & rc & c' & _ & ?)]]]; [..|done].
    + apply at_most_one_free. by constructor.
    + apply (at_most_one_middle _ [_]); [by repeat constructor | done].
    + apply (at_most_one_middle _ [_]); [by repeat constructor | by constructor].
Qed.

Lemma at_most_one_app C l1 t l2 : free_of C l1 -> free_of C l2 -> at_most_one C t -> at_most_one C (l1 ++ t ++ l2).
Proof.
  intros F1 F2 Ht t1 e t2 E He.
  assert (Hin : e ∈ l1 ++ t ++ l2) by (rewrite E; apply elem_of_app; right; by left).
  rewrite !elem_of_app in Hin. unfold free_of in F1, F2. rewrite Forall_forall in F1, F2.
  destruct Hin as [Hin|[Hin|Hin]]; [apply F1 in Hin; congruence | | apply F2 in Hin; congruence].
  apply list_elem_of_split in Hin as (u1 & u2 & Hu). destruct (Ht u1 e u2 Hu He) as [G1 G2].
  rewrite Hu in E. assert (E' : (l1 ++ u1) ++ e :: (u2 ++ l2) = t1 ++ e :: t2) by (rewrite <-E; by rewrite <-!app_assoc).
  apply (split_unique C) in E' as (<- & _ & <-); [| | |done]; try (split; apply free_of_app; split);
    try apply free_of_app; try split; try done; by apply Forall_forall.
Qed.

(** The service appends at most one intent. *)
Lemma intent_once sc t o : exec (serve config sc) t o -> at_most_one is_intent t.
Proof.
  intros H. apply serve_inv in H as [e _ F|v t0 t' -> H F0 _ _ _].
  { apply at_most_one_free, effect_free_intent. by apply early_free in F as [? _]. }
  pose proof (effect_free_intent _ (proj1 (early_free _ F0))) as I0.
  apply evaluate_anatomy in H as
    [e _ I _ _|d st g dec rec t3 t4 t5 t6 e -> _ H3 H4 I5 _ _ _ _ _ Hper
    |d st g dec rec rc t3 t4 t5 t6 c c' -> _ _ I _ _ _ _ _ Hact].
  - apply at_most_one_free. by apply free_of_app.
  - pose proof (effect_free_intent _ (never_free _ _ _ _ (never_decide v) H3)) as I3.
    pose proof (effect_free_intent _ (never_free _ _ _ _ (never_gate _ v d st) H4)) as I4.
    apply persist_intent_once in Hper. rewrite !app_assoc, <-(app_nil_r t6), app_assoc, <-app_assoc.
    apply at_most_one_app; [by rewrite !free_of_app | constructor | done].
  - apply act_and_report_inv in Hact as (I6 & _ & _). rewrite app_assoc.
    apply at_most_one_app; [by apply free_of_app | done |].
    apply (at_most_one_middle _ [_]); repeat (constructor; [done|]); constructor.
Qed.

(** ** No effect without evidence *)

Lemma dispatch_inv sc t o t1 t2 a rc timeout_s now r :
  exec (serve config sc) t o ->
  t = t1 ++ Ev (Dispatch a rc timeout_s now) r :: t2 ->
  is_replay sc = false /\ free_of is_dispatch t1 /\ free_of is_dispatch t2 /\
  exists rec F, Ev (AppendIntent rec) (Ok rc) ∈ t1 /\
    ad_effect (ir_decision rec) = ALLOW /\ blocking_obligations (ir_decision rec) = [] /\
    with_redacted_parameters a F = Ok (ir_action rec) /\
    vp_tenant_id (ir_principal rec) = pa_tenant_id a.
Proof.
  intros H ->. apply serve_inv in H as [e _ F|v t0 t' Ht H F0 _ _ Hrep].
  { by apply early_free_dispatch, free_no_split in F. }
  apply early_free_dispatch in F0.
  apply evaluate_anatomy in H as
    [e _ _ D _|d st g dec rec t3 t4 t5 t6 e Et _ _ _ _ _ D _ _ _ _
    |d st g dec rec rc' t3 t4 t5 t6 c c' Et _ _ _ D _ _ Han Hrec Hact].
  - assert (D' : free_of is_dispatch (t0 ++ t')) by by apply free_of_app.
    rewrite <-Ht in D'. by apply free_no_split in D'.
  - assert (D' : free_of is_dispatch (t0 ++ t')) by by apply free_of_app.
    rewrite <-Ht in D'. by apply free_no_split in D'.
  - pose proof (redacted_tenant _ _ _ _ _ Hrec) as Hten.
    apply intent_of_ok in Hrec as (_ & _ & Hp & Hd & _ & _ & _ & _ & _ & Hred).
    apply act_and_report_inv in Hact as (_ & _ & Hset). subst t'. rewrite !app_assoc in Ht.
    match type of Ht with _ = ?l ++ t6 => set (pre := l) in * end.
    assert (Dpre : free_of is_dispatch pre).
    { pose proof (append_calls_ok rec rc' c c') as Dmid%append_calls_free.
      unfold pre. rewrite !free_of_app in *. tauto. }
    destruct (settled dec _) eqn:Es.
    { destruct Hset as [D6 _]. assert (D' : free_of is_dispatch (pre ++ t6)) by by apply free_of_app.
      rewrite <-Ht in D'. by apply free_no_split in D'. }
    destruct Hset as (r' & t7 & -> & D7 & _). apply settled_none in Es as (Hall & Hblk & Hsup).
    symmetry in Ht. apply (split_unique is_dispatch) in Ht as (<- & E & <-); [|done..].
    apply dispatch_event_inj in E as (<- & <- & _ & _ & _).
    split_and!; [congruence | done | done |].
    exists rec, (ev_sensitive_parameter_fields v). rewrite Hd, Hp. split_and!; try done.
    unfold pre. rewrite <-!app_assoc. in_trace.
Qed.

(** C1.  No effect without durable evidence.  Whatever the environment does,
    if the service calls the dispatcher then it called it once, on behalf of no
    replay, with the receipt that an earlier [append_intent] had returned; the
    record so appended is of an unconditional allow (no blocking obligation)
    of this very action with its sensitive parameters redacted, in the tenant
    of the verified principal.  So a denial, a pending approval, a replay or a
    failure to write evidence never reaches the dispatcher. *)
Theorem dispatch_follows_evidence sc t o t1 t2 a rc timeout_s now r :
  exec (serve config sc) t o ->
  t = t1 ++ Ev (Dispatch a rc timeout_s now) r :: t2 ->
  is_replay sc = false /\ free_of is_dispatch t1 /\ free_of is_dispatch t2 /\
  exists rec F, Ev (AppendIntent rec) (Ok rc) ∈ t1 /\
    ad_effect (ir_decision rec) = ALLOW /\ blocking_obligations (ir_decision rec) = [] /\
    with_redacted_parameters a F = Ok (ir_action rec) /\
    vp_tenant_id (ir_principal rec) = pa_tenant_id a.
Proof. apply dispatch_inv. Qed.

(** ** Every grant is mediated *)

(** C2.  Complete mediation.  Whenever the service writes, or tries to write,
    a record whose decision is not a denial, every control has answered in its
    favour, in this run and for the recorded principal and action: the asserted
    identity matched; the policy decision point gave this decision; the risk
    engine scored the action, within the threshold where it is enforced; and,
    unless the action is advisory, neither emergency stop was engaged, an
    active unrevoked mandate permits the action, the agent's counter admitted
    the decision, and the exposure is not anomalous.  An unavailable
    dependency, which gives no such answer, therefore never grants anything
    but advisory actions. *)
Theorem grants_are_mediated sc t o rec r :
  exec (serve config sc) t o -> Ev (AppendIntent rec) r ∈ t -> ad_effect (ir_decision rec) <> DENY ->
  exists a F, with_redacted_parameters a F = Ok (ir_action rec) /\
    let p := ir_principal rec in
    let now := ir_created_at rec in
    (exists at_ as_, Ev (AssertMatches p at_ as_) (Ok tt) ∈ t) /\
    (exists req d, aq_principal req = p /\ aq_action req = a /\ aq_decision_id req = ir_decision_id rec /\
       Ev (Decide req) (Ok d) ∈ t /\ annotates d (ir_decision rec)) /\
    risk_passed t a now (ir_risk rec) /\
    (cf_enforce_threshold config = true -> score_exceeds (ir_risk rec) (cf_deny_level config) = false) /\
    (advisory a \/
     Ev GloballyEngaged (Ok false) ∈ t /\ Ev (TenantEngaged (vp_tenant_id p)) (Ok false) ∈ t /\
     mandate_passed t p a now /\
     (exists key w, lk_tenant_id key = vp_tenant_id p /\ lk_subject key = vp_agent_ref p /\
        Ev (TryConsume key (fz 1) (ir_decision_id rec) now) (Ok w) ∈ t /\ lv_admitted w = true /\
        ir_limits rec = [w]) /\
     baseline_passed config t p a now).
Proof.
  intros H Hin Hgrant. destruct (written_inv _ _ _ _ _ H Hin) as (v & d & st & g & t0 & t1 & t2 & t3 & W).
  destruct W as [-> _ _ Hwf _ Hdec Hgate Han Hrec].
  pose proof (annotates_effect _ _ Han) as He. rewrite He in Hgrant.
  apply intent_of_ok in Hrec as (-> & -> & -> & _ & -> & -> & _ & _ & _ & Hred).
  apply decide_stages_ok in Hdec as [_ Hdec]; [|done].
  apply gate_stages_ok in Hgate as (_ & Hgate & _).
  destruct Hgate as [(Hd & Hnd & G)|(Hd & _)]; [|done].
  destruct Hdec as [D|[? _]]; [|congruence].
  destruct D as [_ _ Did Dks Dma (req & ? & ? & ? & _ & Dpo)], G as [_ Gr Gt Gl Gb].
  exists (ev_action v), (ev_sensitive_parameter_fields v). split; [done|]. cbv zeta. split_and!.
  - exists (ev_asserted_tenant_id v), (ev_asserted_subject v). in_trace.
  - exists req, d. split_and!; [done | done | done | in_trace | by rewrite <-Hd].
  - eapply risk_passed_mono; [|done]. intros e Hin'. in_trace.
  - done.
  - destruct Dks as [?|[? ?]]; [by left|]. destruct Dma as [?|?]; [by left|].
    destruct Gl as [?|(key & w & ? & ? & _ & _ & ? & ? & ?)]; [by left|].
    destruct Gb as [?|?]; [by left|]. right. split_and!; [in_trace | in_trace | | |].
    + eapply mandate_passed_mono; [|done]. intros e Hin'. in_trace.
    + exists key, w. split_and!; try done. in_trace.
    + eapply baseline_passed_mono; [|done]. intros e Hin'. in_trace.
Qed.

(** ** Requests and tool calls are governed *)

Lemma granted_origin sc t o rec x :
  exec (serve config sc) t o -> Ev (AppendIntent rec) x ∈ t -> ad_effect (ir_decision rec) <> DENY ->
  exists v t0, t0 ⊆ t /\ origin sc t0 v /\ ev_tool_registry_denial v = None /\ ev_catalogue_denial v = None /\
    ir_principal rec = ev_principal v /\ ir_created_at rec = ev_now v /\
    with_redacted_parameters (ev_action v) (ev_sensitive_parameter_fields v) = Ok (ir_action rec).
Proof.
  intros H Hin Hgrant. destruct (written_inv _ _ _ _ _ H Hin) as (v & d & st & g & t0 & t1 & t2 & t3 & W).
  destruct W as [-> Ho _ Hwf _ Hdec Hgate Han Hrec]. exists v, t0.
  rewrite (annotates_effect _ _ Han) in Hgrant.
  apply intent_of_ok in Hrec as (_ & -> & -> & _ & _ & _ & _ & _ & _ & Hred).
  apply decide_stages_ok in Hdec as [_ Hdec]; [|done].
  apply gate_stages_ok in Hgate as (_ & [(Hd & Hnd & G)|(Hd & _)] & _); [|done].
  destruct Hdec as [D|[? _]]; [|congruence].
  split_and!; try done; [|apply D..]. intros e He. in_trace.
Qed.

(** What a grant says about who asked: a credential verified in this run, valid
    now, in the tenant of the action. *)
Definition authenticated (t : list event) (cr : RawCredential) (rec : IntentRecord) : Prop :=
  Ev (Verify cr (ir_created_at rec)) (Ok (ir_principal rec)) ∈ t /\
  require_valid_at (ir_principal rec) (ir_created_at rec) = Ok tt /\
  vp_tenant_id (ir_principal rec) = pa_tenant_id (ir_action rec).

Lemma authenticated_intro cr t0 t v rec F :
  t0 ⊆ t -> verified_now cr t0 v -> ir_principal rec = ev_principal v -> ir_created_at rec = ev_now v ->
  with_redacted_parameters (ev_action v) F = Ok (ir_action rec) -> authenticated t cr rec.
Proof.
  intros Hs (Hv & Hr & Ht) Hp Hn (Hres & _)%redacted_same. unfold authenticated, pa_tenant_id in *.
  rewrite Hp, Hn, Hres. split_and!; try done. by apply Hs.
Qed.

(** C6.  A request is granted only as the catalogue governs it.  Where
    [decide_and_dispatch_for_request] records a decision other than a denial,
    the catalogue resolved the action's name for the resource's tenant; the
    action's consequence and exposure are those of that definition, never the
    caller's; the parameters satisfy its schema and no untrusted field carries
    an injection; every attestation it requires was answered true; the recorded
    action has exactly its sensitive parameters redacted; and the caller's
    credential was verified, valid, and of that tenant. *)
Theorem requests_are_governed cr name r ps key c t o rec x :
  exec (serve config (ForRequest cr name r ps key c)) t o ->
  Ev (AppendIntent rec) x ∈ t -> ad_effect (ir_decision rec) <> DENY ->
  authenticated t cr rec /\
  exists def a, Ev (CatalogueResolve (rr_tenant_id r) name) (Ok def) ∈ t /\
    derived def r ps key a /\ validate_parameters def ps = [] /\ scan_untrusted_text_fields def ps = [] /\
    attested t r def (ir_created_at rec) /\
    with_redacted_parameters a (df_sensitive_parameter_fields def) = Ok (ir_action rec).
Proof.
  intros H Hin Hg. destruct (granted_origin _ _ _ _ _ H Hin Hg) as (v & t0 & Hs & [Hv Ho] & _ & Hc & Hp & Hn & Hr).
  split; [by eapply authenticated_intro|].
  destruct (Ho Hc) as (def & ? & ? & ? & ? & ? & Hsens). exists def, (ev_action v). rewrite <-Hsens, Hn.
  split_and!; try done; [by apply Hs | by eapply attested_mono].
Qed.

(** A tool call is granted only at the registered definition.  Where
    [decide_and_dispatch_for_tool_call] records a decision other than a denial,
    the tool registry resolved this tool at the presented digest, and the
    action's consequence and exposure are those of the registered definition;
    the caller's credential was verified, valid, and of the resource's tenant. *)
Theorem tool_calls_are_registered cr name digest r ps key c t o rec x :
  exec (serve config (ForToolCall cr name digest r ps key c)) t o ->
  Ev (AppendIntent rec) x ∈ t -> ad_effect (ir_decision rec) <> DENY ->
  authenticated t cr rec /\
  exists def a, Ev (ToolResolve (rr_tenant_id r) name digest) (Ok def) ∈ t /\
    derived (td_action def) r ps key a /\
    with_redacted_parameters a (df_sensitive_parameter_fields (td_action def)) = Ok (ir_action rec).
Proof.
  intros H Hin Hg. destruct (granted_origin _ _ _ _ _ H Hin Hg) as (v & t0 & Hs & [Hv Ho] & Ht & _ & Hp & Hn & Hr).
  split; [by eapply authenticated_intro|].
  destruct (Ho Ht) as (def & ? & ? & Hsens). exists def, (ev_action v). rewrite <-Hsens.
  split_and!; try done. by apply Hs.
Qed.

(** ** What is returned *)

Definition NINE_STAGES : list string :=
  ["tool_registry"; "catalogue"; "identity"; "kill_switch"; "mandate"; "policy"; "risk"; "limits"; "baseline"].

Lemma outcome_inv sc t out :
  exec (serve config sc) t (Ok out) ->
  exists rec, Ev (AppendIntent rec) (Ok (do_receipt out)) ∈ t /\
    (forall rec' r', Ev (AppendIntent rec') r' ∈ t -> rec' = rec /\ r' = Ok (do_receipt out)) /\
    ir_decision rec = do_decision out /\ ir_decision_id rec = do_decision_id out /\
    map so_stage (ir_stages rec) = NINE_STAGES /\
    vp_tenant_id (ir_principal rec) = ir_tenant_id rec /\ pa_tenant_id (ir_action rec) = ir_tenant_id rec /\
    match settled (do_decision out) (is_replay sc) with
    | Some st => eo_status (do_execution out) = st /\ free_of is_dispatch t
    | None => exists a timeout_s now r,
        Ev (Dispatch a (do_receipt out) timeout_s now) r ∈ t /\ reports r (do_execution out)
    end.
Proof.
  intros H. apply serve_inv in H as [e ? _|v t0 t' -> H F0 Hwf Ho Hrep]; [done|].
  apply early_free in F0 as [F0 _].
  pose proof (effect_free_intent _ F0) as I0. pose proof (effect_free_dispatch _ F0) as D0.
  apply evaluate_anatomy in H as
    [e ? _ _ _|d st g dec rec t3 t4 t5 t6 e _ ? _ _ _ _ _ _ _ _ _
    |d st g dec rec rc t3 t4 t5 t6 c c' -> H3 H4 I D _ _ Han Hrec Hact]; [done | done |].
  pose proof (append_calls_ok rec rc c c') as Hmid. pose proof (append_calls_free _ _ _ Hmid) as Dmid.
  apply intent_of_ok in Hrec as (Hid & _ & Hp & Hdec & _ & _ & Hst & Hten & Hta & _).
  apply act_and_report_inv in Hact as (I6 & Hout & Hset). destruct (Hout _ eq_refl) as (Hd & Hr & Hi).
  rewrite Hd, Hr, Hi. apply decide_stages_ok in H3 as [N3 _]; [|done]. apply gate_stages_ok in H4 as (N4 & _).
  exists rec. split_and!; try done; try congruence.
  - in_trace.
  - intros rec' r' Hin. rewrite !elem_of_app in Hin. rewrite !free_of_app in I. destruct I as (I3 & I4 & I5).
    destruct Hin as [Hin|[[Hin|[Hin|Hin]]|[Hin|Hin]]];
      [by apply (free_of_elem _ _ _ _ _ I0) in Hin | by apply (free_of_elem _ _ _ _ _ I3) in Hin
      | by apply (free_of_elem _ _ _ _ _ I4) in Hin | by apply (free_of_elem _ _ _ _ _ I5) in Hin
      | | by apply (free_of_elem _ _ _ _ _ I6) in Hin].
    rewrite !elem_of_cons in Hin. destruct Hin as [Hin|[Hin|[Hin|Hin]]];
      [by apply (f_equal intent_view) in Hin | by apply intent_event_inj in Hin
      | by apply (f_equal intent_view) in Hin | by apply not_elem_of_nil in Hin].
  - rewrite Hst, N4, N3. done.
  - rewrite <-Hrep. destruct (settled dec _).
    + destruct Hset as [D6 Hs]. split; [by apply Hs|]. by rewrite !free_of_app in *.
    + destruct Hset as (r & t7 & -> & _ & Hrp). eexists _, _, _, r. split; [|by apply Hrp]. in_trace.
Qed.

(** C5.  Every outcome returned is the evidenced one.  When a call returns,
    exactly one intent record was appended and the receipt is its; the record
    holds the decision returned, its id, and all nine stages in their fixed
    order, skipped ones included; principal, action and record agree on the
    tenant.  A denial reports DENIED, an approval or an unmet blocking
    obligation PENDING_APPROVAL, an allow under replay REPLAYED, all without
    calling the dispatcher; any other allow reports what the dispatcher
    answered, or FAILED where it refused or failed. *)
Theorem outcomes_are_evidenced sc t out :
  exec (serve config sc) t (Ok out) ->
  exists rec, Ev (AppendIntent rec) (Ok (do_receipt out)) ∈ t /\
    (forall rec' r', Ev (AppendIntent rec') r' ∈ t -> rec' = rec /\ r' = Ok (do_receipt out)) /\
    ir_decision rec = do_decision out /\ ir_decision_id rec = do_decision_id out /\
    map so_stage (ir_stages rec) = NINE_STAGES /\
    vp_tenant_id (ir_principal rec) = ir_tenant_id rec /\ pa_tenant_id (ir_action rec) = ir_tenant_id rec /\
    match settled (do_decision out) (is_replay sc) with
    | Some st => eo_status (do_execution out) = st /\ free_of is_dispatch t
    | None => exists a timeout_s now r,
        Ev (Dispatch a (do_receipt out) timeout_s now) r ∈ t /\ reports r (do_execution out)
    end.
Proof. apply outcome_inv. Qed.

(** ** Replay *)

Lemma never_act_workflow v d rc : never is_workflow (act_and_report config v d rc).
Proof. unfold act_and_report, dispatch_if_permitted, attempt. solve_never. Qed.

(** A replay never acts: whatever its arguments and the environment, it
    neither calls the dispatcher nor creates a workflow, and what it returns is
    DENIED, PENDING_APPROVAL or, exactly for an unconditional allow, REPLAYED. *)
Theorem replay_never_acts p a tr di ca pr now t o :
  exec (serve config (Replay p a tr di ca pr now)) t o ->
  free_of is_dispatch t /\ free_of is_workflow t /\
  (forall out, o = Ok out ->
     eo_status (do_execution out) =
       match ad_effect (do_decision out) with
       | DENY => DENIED
       | REQUIRE_APPROVAL => PENDING_APPROVAL
       | ALLOW => if is_nil (blocking_obligations (do_decision out)) then REPLAYED else PENDING_APPROVAL
       end).
Proof.
  intros H. apply serve_inv in H as [e -> F|v t0 t' -> H F0 Hwf Ho Hrep].
  { apply early_free in F as [F _].
    split_and!; [by apply effect_free_dispatch | by apply effect_free_workflow | done]. }
  cbn in Hrep. apply early_free in F0 as [F0 _].
  pose proof (effect_free_workflow _ F0) as W0. pose proof (effect_free_dispatch _ F0) as D0.
  apply evaluate_anatomy in H as
    [e -> _ D W|d st g dec rec t3 t4 t5 t6 e _ -> _ _ _ _ D W _ _ _
    |d st g dec rec rc t3 t4 t5 t6 c c' -> H3 H4 I D W _ Han Hrec Hact].
  1,2: split_and!; [by apply free_of_app | by apply free_of_app; auto | done].
  pose proof (append_calls_ok rec rc c c') as Hmid. pose proof (append_calls_free _ _ _ Hmid) as Dmid.
  assert (Wmid : free_of is_workflow [Ev ClockNow (Ok c); Ev (AppendIntent rec) (Ok rc); Ev ClockNow (Ok c')])
    by (repeat (constructor; [done|]); constructor).
  pose proof (never_free _ _ _ _ (never_act_workflow _ _ _) Hact) as W6. specialize (W Hrep).
  apply act_and_report_inv in Hact as (_ & Hout & Hset). rewrite Hrep in Hset.
  assert (Hs : exists s, settled dec true = Some s).
  { unfold settled. destruct (ad_effect dec), (blocking_obligations dec); cbn; eauto. }
  destruct Hs as [s Hs]. rewrite Hs in Hset. destruct Hset as [D6 Hset].
  rewrite !free_of_app in *. split_and!; try tauto.
  intros out Ho'. rewrite (Hset _ Ho'). destruct (Hout _ Ho') as (-> & _). unfold settled in Hs.
  destruct (ad_effect dec), (blocking_obligations dec); cbn in *; congruence.
Qed.

(** ** Limit budget *)

Lemma never_decide_consume v : never is_try_consume (decide_stages v).
Proof.
  unfold decide_stages, unless_denied, check_identity_assertion, check_kill_switch, kill_switch_engaged,
    check_mandate, mandate_unavailable, check_policy, attempt, pass, refuse, skipped, executed, failed, stage, deny.
  solve_never.
Qed.
Lemma never_act_consume v d rc : never is_try_consume (act_and_report config v d rc).
Proof. unfold act_and_report, dispatch_if_permitted, attempt. solve_never. Qed.
Lemma never_persist_consume v g rec : never is_try_consume (persist_intent v g rec).
Proof. unfold persist_intent, release_limit_budget, attempt. solve_never. Qed.

(** Budget is taken in the gates only. *)
Lemma consumed_in_gate v t0 t1 t2 t3 d st key c did now w :
  free_of is_early_effect t0 -> exec (decide_stages v) t1 (Ok (d, st)) -> free_of is_try_consume t3 ->
  Ev (TryConsume key c did now) (Ok w) ∈ t0 ++ t1 ++ t2 ++ t3 -> Ev (TryConsume key c did now) (Ok w) ∈ t2.
Proof.
  intros [_ F0]%early_free H1 F3 Hin.
  pose proof (never_free is_try_consume _ _ _ (never_decide_consume v) H1) as F1.
  rewrite !elem_of_app in Hin. destruct Hin as [Hin|[Hin|[Hin|Hin]]]; [| |done|].
  - by apply (free_of_elem _ _ _ _ _ F0) in Hin.
  - by apply (free_of_elem _ _ _ _ _ F1) in Hin.
  - by apply (free_of_elem _ _ _ _ _ F3) in Hin.
Qed.

(** C7.  Budget is not kept by a decision that does not go ahead.  If the
    limit store admitted this decision in the run, then a call that returns a
    denial asked for the budget back, and so did a call whose evidence could
    not be written. *)
Theorem budget_is_returned sc t o key c did now w :
  exec (serve config sc) t o ->
  Ev (TryConsume key c did now) (Ok w) ∈ t -> lv_admitted w = true ->
  (forall out, o = Ok out -> ad_effect (do_decision out) = DENY ->
     did = do_decision_id out /\ exists r, Ev (Release key did) r ∈ t) /\
  (forall rec e, Ev (AppendIntent rec) (Raise e) ∈ t -> evidence_failure e ->
     did = ir_decision_id rec /\ exists r, Ev (Release key did) r ∈ t).
Proof.
  intros H Hin Hadm. apply serve_inv in H as [e -> F|v t0 t' -> H F0 _ _ _].
  { apply early_free in F as [_ F]. by apply (free_of_elem _ _ _ _ _ F) in Hin. }
  pose proof (effect_free_intent _ (proj1 (early_free _ F0))) as I0.
  apply evaluate_anatomy in H as
    [e -> I _ _|d st g dec rec t3 t4 t5 t6 e -> -> H3 H4 I5 F5 _ _ _ Hrec Hper
    |d st g dec rec rc t3 t4 t5 t6 c1 c2 -> H3 H4 I _ _ F5 Han Hrec Hact].
  - split; [done|]. intros rec' e' Hf _. apply elem_of_app in Hf as [Hf|Hf];
      [by apply (free_of_elem _ _ _ _ _ I0) in Hf | by apply (free_of_elem _ _ _ _ _ I) in Hf].
  - split; [done|]. intros rec' e' Hf He.
    pose proof (never_free _ _ _ _ (never_persist_consume _ _ _) Hper) as F6.
    apply (consumed_in_gate _ _ _ _ _ _ _ _ _ _ _ _ F0 H3) in Hin; [|by apply free_of_app].
    pose proof (effect_free_intent _ (never_free _ _ _ _ (never_decide v) H3)) as I3.
    pose proof (effect_free_intent _ (never_free _ _ _ _ (never_gate _ v d st) H4)) as I4.
    apply gate_stages_ok in H4 as (_ & _ & Hb). apply persist_intent_inv in Hper as (_ & Hone & [(? & ? & ? & ? & _)|[_ Hret]]); [done|].
    apply intent_of_ok in Hrec as (Hid & _). rewrite !elem_of_app in Hf.
    destruct Hf as [Hf|[Hf|[Hf|[Hf|Hf]]]];
      [by apply (free_of_elem _ _ _ _ _ I0) in Hf | by apply (free_of_elem _ _ _ _ _ I3) in Hf
      | by apply (free_of_elem _ _ _ _ _ I4) in Hf | by apply (free_of_elem _ _ _ _ _ I5) in Hf |].
    pose proof (Hone _ _ Hf) as ->. destruct (Hb _ _ _ _ _ Hin Hadm) as (-> & [(_ & Hk & Hv)|(r & Hr)]).
    + destruct (Hret _ _ _ _ Hk Hv Hadm Hf He) as (r & Hr). split; [done|]. exists r. in_trace.
    + split; [done|]. exists r. in_trace.
  - pose proof (never_free _ _ _ _ (never_act_consume _ _ _) Hact) as F6.
    rewrite <-!app_assoc in Hin. apply (consumed_in_gate _ _ _ _ _ _ _ _ _ _ _ _ F0 H3) in Hin.
    2:{ apply free_of_app. split; [done|]. repeat (constructor; [done|]). done. }
    apply gate_stages_ok in H4 as (_ & _ & Hb). apply intent_of_ok in Hrec as (Hid & _ & _ & Hdec & _).
    apply act_and_report_inv in Hact as (I6 & Hout & _). split.
    + intros out Ho Hden. destruct (Hout _ Ho) as (Hd & _ & Hi).
      destruct (Hb _ _ _ _ _ Hin Hadm) as (-> & [(Hn & _)|(r & Hr)]).
      * rewrite Hd, (annotates_effect _ _ Han) in Hden. done.
      * split; [congruence|]. exists r. in_trace.
    + intros rec' e' Hf _. exfalso. rewrite !elem_of_app in Hf. rewrite !free_of_app in I. destruct I as (I3 & I4 & I5).
      destruct Hf as [Hf|[[Hf|[Hf|Hf]]|[Hf|Hf]]];
        [by apply (free_of_elem _ _ _ _ _ I0) in Hf | by apply (free_of_elem _ _ _ _ _ I3) in Hf
        | by apply (free_of_elem _ _ _ _ _ I4) in Hf | by apply (free_of_elem _ _ _ _ _ I5) in Hf
        | | by apply (free_of_elem _ _ _ _ _ I6) in Hf].
      apply (append_calls_intent _ _ _ _ _ (append_calls_ok rec rc c1 c2)) in Hf as [_ Hf].
      specialize (Hf _ eq_refl). done.
Qed.
End guarantees.
