(* ===== verification/Pool.v ===== *)
(** * Concurrent calls of the service over the in-memory adapters
      ([glassbox/app/decision_service.py], [adapters/outbound/memory/])

    A server runs many calls of the service at once, on one object graph.  Each
    adapter answers a port call under its own lock, so a call is one step here,
    except for [dispatch], whose three critical sections are three steps with
    the effect running between the first two.  Between any two steps the
    operator may change what the adapters hold and the clock may move. *)

From stdpp Require Import base tactics list strings gmap relations.
From Stdlib Require Import Ascii ZArith Lia.
From S2P Require Import Prelude PyFloat PyStr Serialization Action Identity Mandate Limits Risk Decision Catalogue Registry Signing Evidence EvidenceStore GovernanceState PromptInjection Decisioning Dispatch Ports DecisionService DecisionSafety Mediation MemoryRuntime.

Open Scope string_scope.
Open Scope list_scope.

(** ** Calls that leave their decision id to the service *)

Definition given_id (sc : service_call) : option string :=
  match sc with
  | Direct _ _ c | ForRequest _ _ _ _ _ c | ForToolCall _ _ _ _ _ _ c => cc_decision_id c
  | Replay _ _ _ d _ _ _ => d
  end.

(** [decision_id or _new_id(...)] mints. *)
Definition unnamed (sc : service_call) : bool :=
  match given_id sc with Some s => str_is_empty s | None => true end.

Lemma id_or_new_mints given prefix :
  match given with Some s => str_is_empty s | None => true end = true -> id_or_new given prefix = call (NewId prefix).
Proof. destruct given as [s|]; [|done]. cbn. by intros ->. Qed.

(** An intent of another decision. *)
Definition intent_not_for (d : string) : call_class :=
  fun X p => match p with AppendIntent rec => negb (ir_decision_id rec =? d)%string | _ => false end.

Ltac open_stages :=
  unfold unless_denied, check_identity_assertion, check_kill_switch, kill_switch_engaged, check_mandate,
    mandate_unavailable, check_policy, compute_risk, check_risk_threshold, check_limits, check_baseline,
    limit_key_for, release_limit_budget, attempt, pass, refuse, skipped, executed, failed, stage, deny.
Ltac open_entry :=
  unfold verified_principal, id_or_new, check_catalogue, check_tool_registry, resolved, governed_action,
    ungoverned_placeholder, attempt, pass, refuse, skipped, executed, failed, stage, deny.
(** The steps of a program up to its last. *)
Ltac never_steps := repeat (apply never_bind; [open_entry; solve_never; by apply never_attestations|intros ?]).

Section named.
Variable config : ServiceConfig.

Lemma never_intent_of C v g dec (f : IntentRecord -> prog DecisionOutcome) :
  (forall rec, ir_decision_id rec = ev_decision_id v -> never C (f rec)) -> never C (rec ← intent_of config v g dec; f rec).
Proof.
  intros Hf. pose proof (intent_of_ok config v g dec) as Hok. unfold intent_of in *.
  destruct (_ ≫= _) as [rec|e]; [|done]. cbn [lift] in *. apply Hf.
  by destruct (Hok rec [] (ExecRet _)) as [-> _].
Qed.

(** What [evaluate] records carries the id it was given. *)
Lemma evaluate_keeps_id v : never (intent_not_for (ev_decision_id v)) (evaluate config v).
Proof.
  unfold evaluate. apply never_bind; [unfold decide_stages; open_stages; solve_never|]. intros [d st].
  apply never_bind; [unfold gate_stages, risk_gate, limits_gate, baseline_gate; open_stages; solve_never|]. intros g.
  unfold conclude. apply never_bind; [apply never_materialize; done|]. intros dec. apply never_intent_of. intros rec Hid.
  apply never_bind.
  - unfold persist_intent, release_limit_budget, attempt. solve_never.
    cbn [call never]. split; [|intros; apply never_lift]. cbn. by rewrite Hid, String.eqb_refl.
  - intros rc. unfold act_and_report, dispatch_if_permitted, attempt. solve_never.
Qed.

(** A call that names no decision mints the id of the one it records first. *)
Definition mints_its_id (t : list event) : Prop :=
  free_of is_intent t \/
  exists prefix d t0 t', t = t0 ++ Ev (NewId prefix) (Ok d) :: t' /\ free_of is_intent t0 /\
    free_of (intent_not_for d) t'.

Lemma mints_bind {A} (first : prog A) prefix (rest : A -> string -> prog DecisionOutcome) t o :
  never is_intent first -> (forall a d, never (intent_not_for d) (rest a d)) ->
  exec (a ← first; d ← call (NewId prefix); rest a d) t o -> mints_its_id t.
Proof.
  intros Hf Hr [(e & H & ->)|(a & t1 & t2 & -> & H1 & H)]%exec_bind_inv; [left; by eapply never_free|].
  pose proof (never_free _ _ _ _ Hf H1) as F1.
  apply exec_bind_inv in H as [(e & H & ->)|(d & t3 & t4 & -> & H2 & H)].
  - apply exec_call_inv in H as ->. left. apply free_of_app. split; [done|]. by repeat constructor.
  - apply exec_call_inv in H2 as ->. right. exists prefix, d, t1, t4. split_and!; [done|done|].
    by eapply never_free.
Qed.

Lemma serve_mints sc t o : unnamed sc = true -> exec (serve config sc) t o -> mints_its_id t.
Proof.
  unfold unnamed. destruct sc as [cr a c|cr n r ps key c|cr n dg r ps key c|p a tr di ca pr now]; cbn [given_id serve];
    intros Hu; [unfold decide_and_dispatch|unfold decide_and_dispatch_for_request|unfold decide_and_dispatch_for_tool_call
               |unfold replay]; rewrite (id_or_new_mints _ _ Hu); apply mints_bind.
  all: try (by solve_never).
  all: intros ? ?; never_steps; repeat case_match; never_steps; apply (evaluate_keeps_id {| ev_decision_id := _ |}).
Qed.
End named.

(** The id of a recorded intent is one its call minted before. *)
Lemma intent_was_minted t1 rec r t2 :
  mints_its_id (t1 ++ Ev (AppendIntent rec) r :: t2) -> exists prefix, Ev (NewId prefix) (Ok (ir_decision_id rec)) ∈ t1.
Proof.
  intros [F%free_no_split|(prefix & d & t0 & t' & E & F0 & F')]; [done..|].
  assert (Fp : free_of is_intent (t0 ++ [Ev (NewId prefix) (Ok d)])) by (apply free_of_app; split; [done|by repeat constructor]).
  rewrite (cons_middle (Ev (NewId prefix) _)), app_assoc in E. symmetry in E.
  apply (split_after is_intent) in E as (u & -> & ->); [|done..]. exists prefix.
  apply free_of_elem with (r := r) (p := AppendIntent rec) in F'; [|apply elem_of_app; right; by left].
  cbn in F'. apply negb_false_iff, String.eqb_eq in F' as ->.
  apply elem_of_app; left; apply elem_of_app; right; by left.
Qed.

(** ** The pool *)

(** Where a call is: before its next step, while its effect runs, or after it,
    with an outcome to be recorded. *)
Inductive position :=
| At (p : prog DecisionOutcome)
| Acting (action : ProposedAction) (receipt : EvidenceReceipt) (timeout_s now : float)
    (k : res ExecutionOutcome -> prog DecisionOutcome)
| Settling (action : ProposedAction) (receipt : EvidenceReceipt) (timeout_s now : float) (r : res ExecutionOutcome)
    (k : res ExecutionOutcome -> prog DecisionOutcome).

(** A call of the service with what it did so far. *)
Record worker := { wk_call : service_call; wk_trace : list event; wk_at : position }.

(** What the operator and the clock may do between two steps: anything that
    leaves the minted ids, the effects and the reserved idempotency keys, and
    does to the evidence only what the store offers, short of purging. *)
Record administered (s s' : Runtime) : Prop := {
  am_minted : rt_minted s' = rt_minted s;
  am_effects : rt_effects s' = rt_effects s;
  am_outcomes : dp_outcomes (rt_dispatcher s') = dp_outcomes (rt_dispatcher s);
  am_store : rtc store_step (rt_signer s, rt_evidence s) (rt_signer s', rt_evidence s');
  am_purged : es_purged (rt_evidence s') = es_purged (rt_evidence s);
  am_receipts : es_receipts (rt_evidence s') = es_receipts (rt_evidence s);
  am_records : forall sid x, x ∈ segment_of (rt_evidence s) sid -> x ∈ segment_of (rt_evidence s') sid
}.

(** [uuid4().hex] has hexadecimal digits only. *)
Definition has_dash (s : string) : bool := has_char "-"%char s.

Lemma has_dash_app p s : has_dash (p +:+ "-" +:+ s) = true.
Proof. unfold has_dash. induction p as [|c p IH]; [done|]. cbn in *. by rewrite IH, orb_true_r. Qed.

Lemma id_suffix p q a b :
  has_dash a = false -> has_dash b = false -> p +:+ "-" +:+ a = q +:+ "-" +:+ b -> a = b.
Proof.
  intros Ha Hb. revert q. induction p as [|c p IH]; intros [|c' q] E; cbn in E.
  - by injection E.
  - injection E as <- ->. exfalso. pose proof (has_dash_app q b) as Hd. cbn in Hd. congruence.
  - injection E as -> <-. exfalso. pose proof (has_dash_app p a) as Hd. cbn in Hd. congruence.
  - injection E as _ E. by apply (IH q).
Qed.

(** What appending an intent adds to the receipts. *)
Lemma append_intent_receipts (sg : LocalMacSigner) st rec r st' d rc :
  append_intent sg st rec = (r, st') -> es_receipts st' !! d = Some rc ->
  es_receipts st !! d = Some rc \/ d = ir_decision_id rec.
Proof.
  intros H Hd. unfold append_intent in H. repeat case_match; simplify_eq; try (by left); cbn in Hd;
    (destruct (decide (d = ir_decision_id rec)) as [->|Hne]; [by right|left; by rewrite lookup_insert_ne in Hd]).
Qed.

Lemma append_fresh_id (sg : LocalMacSigner) st rec rc st' :
  es_receipts st !! ir_decision_id rec = None -> append_intent sg st rec = (Ok rc, st') ->
  rc_decision_id rc = ir_decision_id rec.
Proof.
  intros Hf H. unfold append_intent in H. rewrite Hf in H.
  destruct (_ ≫= _) as [m|]; [|done].
  destruct (mk_EvidenceReceipt _ _ _ _ _ _) as [rc'|] eqn:E; [|done]. injection H as -> <-.
  by apply mk_EvidenceReceipt_ok in E as [-> _].
Qed.

(** The answer of an admission that starts nothing. *)
Definition answer_of (x : res admission_result) : option (res ExecutionOutcome) :=
  match x with
  | Raise e => Some (Raise e)
  | Ok (Recorded o) => Some (Ok o)
  | Ok Started => None
  end.

Section pool.
Context (config : ServiceConfig) (mint : nat -> string) (py_repr : pyval -> string).

(** The answers of the ports other than the dispatcher, whose handlers are not asked. *)
Definition port_env : forall X : Set, port X -> Runtime -> res X * Runtime :=
  memory_env mint py_repr (fun _ => TimedOut).

Definition start_worker (sc : service_call) : worker :=
  {| wk_call := sc; wk_trace := []; wk_at := At (serve config sc) |}.

Inductive pool_step : Runtime * list worker -> Runtime * list worker -> Prop :=
| StepSpawn s ws sc : unnamed sc = true -> pool_step (s, ws) (s, ws ++ [start_worker sc])
| StepCall s s' ws i sc t (X : Set) (p : port X) k r :
    ws !! i = Some {| wk_call := sc; wk_trace := t; wk_at := At (Call p k) |} ->
    is_dispatch _ p = false -> port_env _ p s = (r, s') ->
    pool_step (s, ws) (s', <[i := {| wk_call := sc; wk_trace := t ++ [Ev p r]; wk_at := At (k r) |}]> ws)
| StepAnswered s ws i sc t a rc timeout_s now k x d r :
    ws !! i = Some {| wk_call := sc; wk_trace := t; wk_at := At (Call (Dispatch a rc timeout_s now) k) |} ->
    dispatch_admit (rt_dispatcher s) (receipt_check s) a rc = (x, d) -> answer_of x = Some r ->
    pool_step (s, ws)
      (rt_with_dispatcher s d (rt_effects s),
       <[i := {| wk_call := sc; wk_trace := t ++ [Ev (Dispatch a rc timeout_s now) r]; wk_at := At (k r) |}]> ws)
| StepStarted s ws i sc t a rc timeout_s now k d :
    ws !! i = Some {| wk_call := sc; wk_trace := t; wk_at := At (Call (Dispatch a rc timeout_s now) k) |} ->
    dispatch_admit (rt_dispatcher s) (receipt_check s) a rc = (Ok Started, d) ->
    pool_step (s, ws)
      (rt_with_dispatcher s d (rt_effects s ++ [(a, rc)]),
       <[i := {| wk_call := sc; wk_trace := t; wk_at := Acting a rc timeout_s now k |}]> ws)
| StepEnded s ws i sc t a rc timeout_s now k e :
    ws !! i = Some {| wk_call := sc; wk_trace := t; wk_at := Acting a rc timeout_s now k |} ->
    pool_step (s, ws)
      (rt_with_dispatcher s (dispatch_leave (rt_dispatcher s)) (rt_effects s),
       <[i := {| wk_call := sc; wk_trace := t;
                 wk_at := Settling a rc timeout_s now (effect_outcome py_repr e timeout_s now) k |}]> ws)
| StepSettled s ws i sc t a rc timeout_s now r k :
    ws !! i = Some {| wk_call := sc; wk_trace := t; wk_at := Settling a rc timeout_s now r k |} ->
    pool_step (s, ws)
      (rt_with_dispatcher s (dispatch_record (rt_dispatcher s) (pa_idempotency_key a) r).2 (rt_effects s),
       <[i := {| wk_call := sc; wk_trace := t ++ [Ev (Dispatch a rc timeout_s now) r]; wk_at := At (k r) |}]> ws)
| StepAdmin s s' ws : administered s s' -> pool_step (s, ws) (s', ws).

(** ** What a call did and has yet to do *)

Lemma exec_total {A} (p : prog A) : exists t o, exec p t o.
Proof.
  induction p as [a|e|X q k IH]; [by eexists _, _; constructor..|].
  destruct (IH (Raise (PyException "lost"))) as (t & o & H). eexists _, _. by constructor.
Qed.

(** However it goes on, the call has been an execution of the service. *)
Definition resumes (w : worker) : Prop :=
  match wk_at w with
  | At p => forall t o, exec p t o -> exec (serve config (wk_call w)) (wk_trace w ++ t) o
  | Acting a rc timeout_s now k | Settling a rc timeout_s now _ k =>
      forall r t o, exec (k r) t o ->
        exec (serve config (wk_call w)) (wk_trace w ++ Ev (Dispatch a rc timeout_s now) r :: t) o
  end.

Lemma resumes_call sc t (X : Set) (p : port X) k r :
  resumes {| wk_call := sc; wk_trace := t; wk_at := At (Call p k) |} ->
  resumes {| wk_call := sc; wk_trace := t ++ [Ev p r]; wk_at := At (k r) |}.
Proof. intros H t' o Hk. cbn. rewrite <-app_assoc. apply H. by constructor. Qed.

(** The call made next, as an event of an execution. *)
Lemma resumes_event sc t (X : Set) (p : port X) k r :
  resumes {| wk_call := sc; wk_trace := t; wk_at := At (Call p k) |} ->
  exists t' o, exec (serve config sc) (t ++ Ev p r :: t') o.
Proof. intros H. destruct (exec_total (k r)) as (t' & o & Hk). exists t', o. apply H. by constructor. Qed.

Lemma resumes_exec w : resumes w -> exists t o, exec (serve config (wk_call w)) (wk_trace w ++ t) o.
Proof.
  unfold resumes. destruct (wk_at w) as [p|a rc ts now k|a rc ts now r k]; intros H.
  - destruct (exec_total p) as (t & o & Hp). eauto.
  - destruct (exec_total (k (Raise (PyException "lost")))) as (t & o & Hp). eauto.
  - destruct (exec_total (k r)) as (t & o & Hp). eauto.
Qed.

(** The effect the call started, if it did. *)
Definition acted (w : worker) (a : ProposedAction) (rc : EvidenceReceipt) : Prop :=
  (exists timeout_s now r, Ev (Dispatch a rc timeout_s now) r ∈ wk_trace w) \/
  match wk_at w with
  | At _ => False
  | Acting a' rc' _ _ _ | Settling a' rc' _ _ _ _ => a' = a /\ rc' = rc
  end.

Lemma acted_evidence w a rc :
  resumes w -> acted w a rc ->
  exists rec F, Ev (AppendIntent rec) (Ok rc) ∈ wk_trace w /\ ad_effect (ir_decision rec) = ALLOW /\
    with_redacted_parameters a F = Ok (ir_action rec).
Proof.
  intros Hw [(ts & now & r & (t1 & t2 & Ht)%list_elem_of_split)|Hat].
  - destruct (resumes_exec _ Hw) as (t & o & H). rewrite Ht, <-app_assoc in H.
    destruct (dispatch_inv _ _ _ _ _ _ _ _ _ _ _ H eq_refl) as (_ & _ & _ & rec & F & Hin & Hall & _ & Hred & _).
    exists rec, F. split_and!; try done. rewrite Ht. apply elem_of_app. by left.
  - assert (exists ts now r t o, exec (serve config (wk_call w)) (wk_trace w ++ Ev (Dispatch a rc ts now) r :: t) o)
      as (ts & now & r & t & o & H).
    { unfold resumes in Hw. destruct (wk_at w) as [p|a' rc' ts now k|a' rc' ts now r k]; [done| |];
        destruct Hat as [-> ->]; destruct (exec_total (k (Raise (PyException "lost")))) as (t & o & Hk); eauto 10. }
    destruct (dispatch_inv _ _ _ _ _ _ _ _ _ _ _ H eq_refl) as (_ & _ & _ & rec & F & Hin & Hall & _ & Hred & _).
    by exists rec, F.
Qed.

(** A call about to dispatch has not done so. *)
Lemma not_acted_yet sc t a rc ts now k a' rc' :
  resumes {| wk_call := sc; wk_trace := t; wk_at := At (Call (Dispatch a rc ts now) k) |} ->
  ~ acted {| wk_call := sc; wk_trace := t; wk_at := At (Call (Dispatch a rc ts now) k) |} a' rc'.
Proof.
  intros Hw [(ts' & now' & r' & Hin)|[]].
  destruct (resumes_event _ _ _ _ _ (Raise (PyException "lost")) Hw) as (t' & o & H).
  destruct (dispatch_inv _ _ _ _ _ _ _ _ _ _ _ H eq_refl) as (_ & F & _).
  by apply (free_of_elem _ _ _ _ _ F) in Hin.
Qed.

(** ** Invariant *)

(** The id of an event that minted one. *)
Definition newid_view (e : event) : option string :=
  match e with
  | @Ev X p r => match p in port X return res X -> _ with
                 | NewId _ => fun r => match r with Ok id => Some id | Raise _ => None end
                 | _ => fun _ => None
                 end r
  end.

Definition did (ws : list worker) (i : nat) (e : event) : Prop := exists w, ws !! i = Some w /\ e ∈ wk_trace w.
Definition began (ws : list worker) (i : nat) (a : ProposedAction) (rc : EvidenceReceipt) : Prop :=
  exists w, ws !! i = Some w /\ acted w a rc.

(** Calls that mint an id or record an intent. *)
Definition is_naming (e : event) : bool :=
  match e with @Ev _ p _ => match p with NewId _ | AppendIntent _ => true | _ => false end end.

Record workers_ok (ws : list worker) : Prop := {
  wo_unnamed : forall i w, ws !! i = Some w -> unnamed (wk_call w) = true;
  wo_resumes : forall i w, ws !! i = Some w -> resumes w
}.

Record names_ok (s : Runtime) (ws : list worker) : Prop := {
  nm_ids : forall i prefix id, did ws i (Ev (NewId prefix) (Ok id)) ->
    exists prefix n, id = prefix +:+ "-" +:+ mint n /\ n < rt_minted s;
  nm_apart : forall i j prefix prefix' id,
    did ws i (Ev (NewId prefix) (Ok id)) -> did ws j (Ev (NewId prefix') (Ok id)) -> i = j;
  nm_keys : forall d rc, es_receipts (rt_evidence s) !! d = Some rc ->
    exists i rec r, did ws i (Ev (AppendIntent rec) r) /\ ir_decision_id rec = d;
  nm_proven : forall i rec rc, did ws i (Ev (AppendIntent rec) (Ok rc)) ->
    proven_by (rt_evidence s) rc rec /\ rc_decision_id rc = ir_decision_id rec
}.

Record effects_ok (s : Runtime) (ws : list worker) : Prop := {
  ef_began : forall a rc, (a, rc) ∈ rt_effects s -> exists i, began ws i a rc;
  ef_receipts : NoDup (map (fun e => rc_decision_id e.2) (rt_effects s));
  ef_keys : NoDup (map (fun e => pa_idempotency_key e.1) (rt_effects s));
  ef_reserved : forall e, e ∈ rt_effects s -> is_Some (dp_outcomes (rt_dispatcher s) !! pa_idempotency_key e.1)
}.

Record pool_inv (s : Runtime) (ws : list worker) : Prop := {
  pi_workers : workers_ok ws;
  pi_names : names_ok s ws;
  pi_effects : effects_ok s ws;
  pi_purged : es_purged (rt_evidence s) = ∅;
  pi_reachable : reachable (rt_signer s) (rt_evidence s)
}.

(** *** Updating one call *)

Lemma lookup_update (ws : list worker) i w w' j v :
  ws !! i = Some w -> <[i := w']> ws !! j = Some v -> (j = i /\ v = w') \/ (j <> i /\ ws !! j = Some v).
Proof.
  intros Hi Hj. destruct (decide (j = i)) as [->|Hne].
  - left. rewrite list_lookup_insert_eq in Hj by by eapply lookup_lt_Some. by injection Hj.
  - right. by rewrite list_lookup_insert_ne in Hj by done.
Qed.

Lemma lookup_updated (ws : list worker) i w w' : ws !! i = Some w -> <[i := w']> ws !! i = Some w'.
Proof. intros Hi. apply list_lookup_insert_eq. by eapply lookup_lt_Some. Qed.

Lemma did_update ws i w w' l j e :
  ws !! i = Some w -> wk_trace w' = wk_trace w ++ l ->
  did (<[i := w']> ws) j e <-> did ws j e \/ (j = i /\ e ∈ l).
Proof.
  intros Hi Ht. split.
  - intros (v & [[-> ->]|[_ Hv]]%(lookup_update _ _ _ _ _ _ Hi) & He); [|left; by exists v].
    rewrite Ht in He. apply elem_of_app in He as [He|He]; [left; by exists w|by right].
  - intros [(v & Hv & He)|[-> He]].
    + destruct (decide (j = i)) as [->|Hne]; [|exists v; by rewrite list_lookup_insert_ne].
      rewrite Hi in Hv. injection Hv as <-. exists w'. split; [by eapply lookup_updated|].
      rewrite Ht. apply elem_of_app. by left.
    + exists w'. split; [by eapply lookup_updated|]. rewrite Ht. apply elem_of_app. by right.
Qed.

Lemma began_update ws i w w' j a rc :
  ws !! i = Some w -> (acted w a rc -> acted w' a rc) -> began ws j a rc -> began (<[i := w']> ws) j a rc.
Proof.
  intros Hi Ha (v & Hv & Hb). destruct (decide (j = i)) as [->|Hne]; [|exists v; by rewrite list_lookup_insert_ne].
  rewrite Hi in Hv. injection Hv as <-. exists w'. split; [by eapply lookup_updated|by apply Ha].
Qed.

Lemma workers_update ws i w w' :
  workers_ok ws -> ws !! i = Some w -> wk_call w' = wk_call w -> (resumes w -> resumes w') -> workers_ok (<[i := w']> ws).
Proof.
  intros [Hu Hr] Hi Hc Hw. constructor; intros j v [[-> ->]|[_ Hv]]%(lookup_update _ _ _ _ _ _ Hi); eauto.
  rewrite Hc. eauto.
Qed.

Lemma acted_snoc sc t at_ at' e a rc :
  match at_ with At _ => True | Acting a' rc' ts now _ | Settling a' rc' ts now _ _ => exists r, e = Ev (Dispatch a' rc' ts now) r end ->
  acted {| wk_call := sc; wk_trace := t; wk_at := at_ |} a rc ->
  acted {| wk_call := sc; wk_trace := t ++ [e]; wk_at := at' |} a rc.
Proof.
  intros He [(ts & now & r & Hin)|Hat]; left; cbn in *.
  - exists ts, now, r. apply elem_of_app. by left.
  - destruct at_ as [p|a' rc' ts now k|a' rc' ts now r' k]; [done| |]; destruct Hat as [-> ->], He as [r ->];
      exists ts, now, r; apply elem_of_app; right; by left.
Qed.

(** *** What the calls know of each other *)

(** The events of a trace that names the decisions, under every step that
    mints and records nothing. *)
Lemma names_quiet s ws s' ws' :
  names_ok s ws -> rt_minted s' = rt_minted s -> es_receipts (rt_evidence s') = es_receipts (rt_evidence s) ->
  (forall sid x, x ∈ segment_of (rt_evidence s) sid -> x ∈ segment_of (rt_evidence s') sid) ->
  (forall i e, did ws i e -> did ws' i e) -> (forall i e, did ws' i e -> is_naming e = true -> did ws i e) ->
  names_ok s' ws'.
Proof.
  intros [Hids Hap Hkeys Hpr] Hm Hr Hs Hto Hfrom. constructor.
  - intros i pre id Hd%Hfrom; [|done]. rewrite Hm. eauto.
  - intros i j pre pre' id H1%Hfrom H2%Hfrom; [|done..]. eauto.
  - intros d rc. rewrite Hr. intros (i & rec & r & Hd & He)%Hkeys. eauto 10.
  - intros i rec rc Hd%Hfrom; [|done]. destruct (Hpr _ _ _ Hd) as [(x & Hx & Hp) Hid].
    split; [|done]. exists x. split; [by apply Hs|done].
Qed.

Lemma intent_minted ws i rec r :
  workers_ok ws -> did ws i (Ev (AppendIntent rec) r) -> exists prefix, did ws i (Ev (NewId prefix) (Ok (ir_decision_id rec))).
Proof.
  intros [Hu Hr] (w & Hw & (t1 & t2 & Ht)%list_elem_of_split).
  destruct (resumes_exec _ (Hr _ _ Hw)) as (t & o & H). apply serve_mints in H; [|eauto].
  rewrite Ht, <-app_assoc in H. apply intent_was_minted in H as [prefix Hin].
  exists prefix, w. split; [done|]. rewrite Ht. apply elem_of_app. by left.
Qed.

(** The ids minted so far are apart. *)
Context (N : nat) (mint_digits : forall n, has_dash (mint n) = false)
  (mint_apart : forall n m, n < N -> m < N -> mint n = mint m -> n = m).

Lemma names_minted s ws ws' i prefix :
  names_ok s ws -> S (rt_minted s) <= N ->
  (forall j e, did ws' j e <-> did ws j e \/ (j = i /\ e ∈ [Ev (NewId prefix) (Ok (prefix +:+ "-" +:+ mint (rt_minted s)))])) ->
  names_ok (rt_with_minted s (S (rt_minted s))) ws'.
Proof.
  intros [Hids Hap Hkeys Hpr] HN Hd.
  assert (Hnew : forall j pre id, did ws' j (Ev (NewId pre) (Ok id)) ->
    did ws j (Ev (NewId pre) (Ok id)) \/ (j = i /\ id = prefix +:+ "-" +:+ mint (rt_minted s))).
  { intros j pre id [?|[-> E%list_elem_of_singleton]]%Hd; [by left|]. right. split; [done|].
    apply (f_equal newid_view) in E. by injection E. }
  assert (Hold : forall j pre, ~ did ws j (Ev (NewId pre) (Ok (prefix +:+ "-" +:+ mint (rt_minted s))))).
  { intros j pre (p & n & E & Hn)%Hids. apply id_suffix, mint_apart in E; [lia|try lia..]; apply mint_digits. }
  constructor; cbn.
  - intros j pre id [(p & n & -> & Hn)%Hids|[_ ->]]%Hnew; eauto with lia.
  - intros j1 j2 p1 p2 id H1 H2. destruct (Hnew _ _ _ H1) as [O1|[-> ->]], (Hnew _ _ _ H2) as [O2|[-> E2]].
    + eauto.
    + subst. by destruct (Hold _ _ O1).
    + by destruct (Hold _ _ O2).
    + done.
  - intros d rc (j & rec & r & Hj & E)%Hkeys. exists j, rec, r. split; [|done]. apply Hd. by left.
  - intros j rec rc [Hj|[_ E%list_elem_of_singleton]]%Hd; [eauto|by apply (f_equal intent_view) in E].
Qed.

(** A decision is recorded under an id no other call and no earlier step used. *)
Lemma intent_is_fresh s ws i sc t rec k :
  workers_ok ws -> names_ok s ws ->
  ws !! i = Some {| wk_call := sc; wk_trace := t; wk_at := At (Call (AppendIntent rec) k) |} ->
  es_receipts (rt_evidence s) !! ir_decision_id rec = None.
Proof.
  intros Hok [_ Hap Hkeys _] Hi. destruct (es_receipts _ !! _) as [rc|] eqn:E; [|done]. exfalso.
  destruct (Hkeys _ _ E) as (j & rec' & r' & Hj & Eid). pose proof (intent_minted _ _ _ _ Hok Hj) as [pre' Hj'].
  pose proof (wo_resumes _ Hok _ _ Hi) as Hr. destruct (resumes_event _ _ _ _ _ (Raise EvidenceWriteError) Hr) as (t' & o & Hx).
  pose proof (serve_mints _ _ _ _ (wo_unnamed _ Hok _ _ Hi) Hx) as [pre Hin]%intent_was_minted.
  assert (Hi' : did ws i (Ev (NewId pre) (Ok (ir_decision_id rec)))) by by eexists.
  rewrite Eid in Hj'. pose proof (Hap _ _ _ _ _ Hi' Hj') as <-.
  destruct Hj as (w & Hw & Hin'). rewrite Hi in Hw. injection Hw as <-. cbn in Hin'.
  destruct (intent_once _ _ _ _ Hx _ _ _ eq_refl eq_refl) as [F _].
  by apply (free_of_elem _ _ _ _ _ F) in Hin'.
Qed.

Lemma names_recorded s ws ws' i rec r e :
  names_ok s ws -> es_receipts (rt_evidence s) !! ir_decision_id rec = None ->
  append_intent (rt_signer s) (rt_evidence s) rec = (r, e) ->
  (forall j ev, did ws' j ev <-> did ws j ev \/ (j = i /\ ev ∈ [Ev (AppendIntent rec) r])) ->
  names_ok (rt_with_evidence s e) ws'.
Proof.
  intros [Hids Hap Hkeys Hpr] Hf Ha Hd. pose proof (append_intent_grows _ _ _ _ _ Ha) as Hg.
  assert (Hmint : forall j pre id, did ws' j (Ev (NewId pre) (Ok id)) -> did ws j (Ev (NewId pre) (Ok id))).
  { intros j pre id [?|[_ E%list_elem_of_singleton]]%Hd; [done|by apply (f_equal newid_view) in E]. }
  constructor; cbn.
  - intros j pre id Hj%Hmint. eauto.
  - intros j1 j2 p1 p2 id H1%Hmint H2%Hmint. eauto.
  - intros d rc [(j & rec' & r' & Hj & E)%Hkeys| ->]%(append_intent_receipts _ _ _ _ _ _ _ Ha).
    + exists j, rec', r'. split; [|done]. apply Hd. by left.
    + exists i, rec, r. split; [|done]. apply Hd. right. split; [done|by left].
  - intros j rec' rc [Hj|[_ E%list_elem_of_singleton]]%Hd.
    + destruct (Hpr _ _ _ Hj) as [(x & Hx & Hp) Hid]. split; [|done]. exists x. split; [by apply (eg_records _ _ _ Hg)|done].
    + apply intent_event_inj in E as [-> E]. subst r. split; [by eapply append_fresh|by eapply append_fresh_id].
Qed.

(** *** The effects *)

Lemma effects_quiet s ws s' ws' :
  effects_ok s ws -> rt_effects s' = rt_effects s ->
  (forall k, is_Some (dp_outcomes (rt_dispatcher s) !! k) -> is_Some (dp_outcomes (rt_dispatcher s') !! k)) ->
  (forall i a rc, began ws i a rc -> began ws' i a rc) -> effects_ok s' ws'.
Proof.
  intros [Hb Hr Hk Hres] He Ho Hto. constructor; rewrite He; try done.
  - intros a rc [i Hi]%Hb. eauto.
  - intros e Hin%Hres. auto.
Qed.

Lemma began_evidence s ws i a rc :
  workers_ok ws -> names_ok s ws -> began ws i a rc ->
  exists rec F, proven_by (rt_evidence s) rc rec /\ ad_effect (ir_decision rec) = ALLOW /\
    with_redacted_parameters a F = Ok (ir_action rec) /\
    exists prefix, did ws i (Ev (NewId prefix) (Ok (rc_decision_id rc))).
Proof.
  intros Hok Hn (w & Hw & Ha). destruct (acted_evidence _ _ _ (wo_resumes _ Hok _ _ Hw) Ha) as (rec & F & Hin & Hall & Hred).
  assert (Hd : did ws i (Ev (AppendIntent rec) (Ok rc))) by by exists w.
  destruct (nm_proven _ _ Hn _ _ _ Hd) as [Hp Hid]. exists rec, F. split_and!; try done.
  rewrite Hid. by eapply intent_minted.
Qed.

Lemma effects_started s ws i sc t a rc ts now k d :
  workers_ok ws -> names_ok s ws -> effects_ok s ws ->
  ws !! i = Some {| wk_call := sc; wk_trace := t; wk_at := At (Call (Dispatch a rc ts now) k) |} ->
  dispatch_admit (rt_dispatcher s) (receipt_check s) a rc = (Ok Started, d) ->
  effects_ok (rt_with_dispatcher s d (rt_effects s ++ [(a, rc)]))
    (<[i := {| wk_call := sc; wk_trace := t; wk_at := Acting a rc ts now k |}]> ws).
Proof.
  intros Hok Hn [Hb Hr Hk Hres] Hi Ha. pose proof (wo_resumes _ Hok _ _ Hi) as Hw.
  apply dispatch_admit_cases in Ha as [(_ & ? & _)|(_ & Hfree & _ & _ & -> & _)]; [done|].
  assert (Hto : forall j a' rc', began ws j a' rc' ->
    began (<[i := {| wk_call := sc; wk_trace := t; wk_at := Acting a rc ts now k |}]> ws) j a' rc').
  { intros j a' rc'. eapply began_update; [exact Hi|]. intros [?|[]]. by left. }
  constructor; cbn.
  - intros a' rc' [[j Hj]%Hb|[= -> ->]%list_elem_of_singleton]%elem_of_app; [eauto|].
    exists i. eexists. split; [by eapply lookup_updated|]. by right.
  - rewrite map_app. apply NoDup_app. split_and!; [done| |apply NoDup_singleton].
    intros d ([a' rc'] & <- & Hin%list_elem_of_In)%list_elem_of_In%in_map_iff E%list_elem_of_singleton. cbn in E.
    apply Hb in Hin as [j Hj]. destruct (began_evidence _ _ _ _ _ Hok Hn Hj) as (_ & _ & _ & _ & _ & p1 & H1).
    assert (Hrec : exists rec, did ws i (Ev (AppendIntent rec) (Ok rc))).
    { destruct (resumes_event _ _ _ _ _ (Raise DispatchRefusedError) Hw) as (t' & o & Hx).
      destruct (dispatch_inv _ _ _ _ _ _ _ _ _ _ _ Hx eq_refl) as (_ & _ & _ & rec & F & Hin & _).
      exists rec. by eexists. }
    destruct Hrec as [rec Hrec]. destruct (nm_proven _ _ Hn _ _ _ Hrec) as [_ Hid].
    destruct (intent_minted _ _ _ _ Hok Hrec) as [p2 H2]. rewrite <-Hid, <-E in H2.
    pose proof (nm_apart _ _ Hn _ _ _ _ _ H1 H2) as ->.
    destruct Hj as (w & Ew & Hact). rewrite Hi in Ew. injection Ew as <-. by apply (not_acted_yet _ _ _ _ _ _ _ _ _ Hw) in Hact.
  - rewrite map_app. apply NoDup_app. split_and!; [done| |apply NoDup_singleton].
    intros key (e & <- & Hin%list_elem_of_In)%list_elem_of_In%in_map_iff E%list_elem_of_singleton.
    apply Hres in Hin. cbn in E. rewrite E, Hfree in Hin. by destruct Hin.
  - intros e [Hin%Hres| ->%list_elem_of_singleton]%elem_of_app; [by apply outcomes_grow|]. cbn. by rewrite lookup_insert_eq.
Qed.

(** *** Every step keeps the invariant *)

Lemma port_env_quiet (X : Set) (p : port X) s r s' :
  is_dispatch _ p = false -> port_env _ p s = (r, s') ->
  rt_effects s' = rt_effects s /\ rt_dispatcher s' = rt_dispatcher s /\
  (is_naming (Ev p r) = false -> rt_minted s' = rt_minted s).
Proof. intros Hd H. destruct p; cbn in H; try done; repeat case_match; simplify_eq; done. Qed.

Lemma names_call s ws i sc t (X : Set) (p : port X) k r s' :
  workers_ok ws -> names_ok s ws -> rt_minted s' <= N ->
  ws !! i = Some {| wk_call := sc; wk_trace := t; wk_at := At (Call p k) |} ->
  is_dispatch _ p = false -> port_env _ p s = (r, s') ->
  names_ok s' (<[i := {| wk_call := sc; wk_trace := t ++ [Ev p r]; wk_at := At (k r) |}]> ws).
Proof.
  intros Hok Hn HN Hi Hdis He.
  pose proof (fun j e => did_update _ i _ {| wk_call := sc; wk_trace := t ++ [Ev p r]; wk_at := At (k r) |} [Ev p r] j e Hi eq_refl) as Hd.
  destruct (is_naming (Ev p r)) eqn:Hna.
  - destruct p; try done.
    + cbn in He. injection He as <- <-. by eapply names_minted.
    + cbn in He. destruct (append_intent (rt_signer s) (rt_evidence s) record) as [r' e] eqn:Ea. injection He as -> <-.
      eapply names_recorded; [exact Hn| |exact Ea|exact Hd]. by eapply intent_is_fresh.
  - destruct (port_env_quiet _ _ _ _ _ Hdis He) as (_ & _ & Hm). eapply names_quiet; [exact Hn| | | | |].
    + by apply Hm.
    + eapply env_receipts; [|exact He]. by destruct p.
    + apply env_grows in He as [_ Hg]. intros sid x. apply (eg_records _ _ _ Hg).
    + intros j e Hj. apply Hd. by left.
    + intros j e [?|[_ ->%list_elem_of_singleton]]%Hd; [done|congruence].
Qed.

(** A step of the dispatcher: the evidence and the minted ids stay. *)
Lemma pool_dispatched s ws i w w' l d :
  pool_inv s ws -> ws !! i = Some w -> wk_call w' = wk_call w -> (resumes w -> resumes w') ->
  wk_trace w' = wk_trace w ++ l -> forallb (fun e => negb (is_naming e)) l = true ->
  (forall a rc, acted w a rc -> acted w' a rc) ->
  (forall k, is_Some (dp_outcomes (rt_dispatcher s) !! k) -> is_Some (dp_outcomes d !! k)) ->
  pool_inv (rt_with_dispatcher s d (rt_effects s)) (<[i := w']> ws).
Proof.
  intros [Hok Hn He Hp Hr] Hi Hc Hw Ht Hl Ha Ho. constructor; [by eapply workers_update| | |done|done].
  - eapply names_quiet; [exact Hn|done..| |].
    + intros j e Hj. apply (did_update _ _ _ _ _ _ _ Hi Ht). by left.
    + intros j e [?|[_ Hin]]%(did_update _ _ _ _ _ _ _ Hi Ht) Hna; [done|].
      rewrite forallb_forall in Hl. apply list_elem_of_In, Hl, negb_true_iff in Hin. congruence.
  - eapply effects_quiet; [exact He|done|done|]. intros j a rc. by eapply began_update; [|apply Ha].
Qed.

Lemma admit_reserves d check a rc x d' k :
  dispatch_admit d check a rc = (x, d') -> is_Some (dp_outcomes d !! k) -> is_Some (dp_outcomes d' !! k).
Proof.
  intros [(-> & _)|(_ & _ & _ & _ & -> & _)]%dispatch_admit_cases Hk; [done|]. eapply outcomes_grow. exact Hk.
Qed.

Lemma record_reserves d key r k : is_Some (dp_outcomes d !! k) -> is_Some (dp_outcomes (dispatch_record d key r).2 !! k).
Proof. destruct r as [o|e]; [apply (outcomes_grow d key o)|done]. Qed.

Lemma resumes_start sc : resumes (start_worker sc).
Proof. by intros t o H. Qed.

Lemma pool_spawned s ws sc : unnamed sc = true -> pool_inv s ws -> pool_inv s (ws ++ [start_worker sc]).
Proof.
  intros Hu [[Hwu Hwr] Hn He Hp Hr].
  assert (Hl : forall j w, (ws ++ [start_worker sc]) !! j = Some w -> ws !! j = Some w \/ w = start_worker sc).
  { intros j w [?|[_ [_ <-]%list_lookup_singleton_Some]]%lookup_app_Some; auto. }
  constructor; try done.
  - constructor; intros j w [Hw| ->]%Hl; [eauto|done|eauto|apply resumes_start].
  - eapply names_quiet; try done.
    + intros j e (w & Hw & Hin). exists w. split; [by apply lookup_app_l_Some|done].
    + intros j e (w & [Hw| ->]%Hl & Hin) _; [by exists w|by apply (not_elem_of_nil e) in Hin].
  - eapply effects_quiet; try done. intros j a rc (w & Hw & Ha). exists w. split; [by apply lookup_app_l_Some|done].
Qed.

Lemma pool_called s ws i sc t (X : Set) (p : port X) k r s' :
  pool_inv s ws -> rt_minted s' <= N ->
  ws !! i = Some {| wk_call := sc; wk_trace := t; wk_at := At (Call p k) |} ->
  is_dispatch _ p = false -> port_env _ p s = (r, s') ->
  pool_inv s' (<[i := {| wk_call := sc; wk_trace := t ++ [Ev p r]; wk_at := At (k r) |}]> ws).
Proof.
  intros [Hok Hn He Hp Hr] HN Hi Hd Hx. destruct (port_env_quiet _ _ _ _ _ Hd Hx) as (E1 & E2 & _).
  pose proof (env_grows _ _ _ _ _ _ _ _ Hx) as [Es Hg]. constructor.
  - eapply workers_update; [done|done|done|apply resumes_call].
  - by eapply names_call.
  - eapply effects_quiet; [done|done|by rewrite E2|].
    intros j a rc. eapply began_update; [done|]. by apply acted_snoc.
  - by rewrite (eg_purged _ _ _ Hg).
  - rewrite Es. by apply (eg_reachable _ _ _ Hg).
Qed.

Lemma pool_started s ws i sc t a rc ts now k d :
  pool_inv s ws ->
  ws !! i = Some {| wk_call := sc; wk_trace := t; wk_at := At (Call (Dispatch a rc ts now) k) |} ->
  dispatch_admit (rt_dispatcher s) (receipt_check s) a rc = (Ok Started, d) ->
  pool_inv (rt_with_dispatcher s d (rt_effects s ++ [(a, rc)]))
    (<[i := {| wk_call := sc; wk_trace := t; wk_at := Acting a rc ts now k |}]> ws).
Proof.
  intros [Hok Hn He Hp Hr] Hi Ha.
  assert (Hd : forall j e, did (<[i := {| wk_call := sc; wk_trace := t; wk_at := Acting a rc ts now k |}]> ws) j e <-> did ws j e).
  { intros j e. rewrite (did_update _ _ _ _ [] _ _ Hi) by (cbn; by rewrite app_nil_r). set_solver. }
  constructor; [|eapply names_quiet; try done; intros j e Hj; intros; by apply Hd| |done|done].
  - eapply workers_update; try done. intros Hw r t' o Hk. cbn. by apply Hw; constructor.
  - by eapply effects_started.
Qed.

Lemma pool_inv_step x y : pool_step x y -> rt_minted y.1 <= N -> pool_inv x.1 x.2 -> pool_inv y.1 y.2.
Proof.
  intros Hstep HN Hinv.
  destruct Hstep as [s ws sc Hu|s s' ws i sc t X p k r Hi Hd He|s ws i sc t a rc ts now k x d r Hi Ha Hx
    |s ws i sc t a rc ts now k d Hi Ha|s ws i sc t a rc ts now k e Hi|s ws i sc t a rc ts now r k Hi|s s' ws [A1 A2 A3 A4 A5 A6 A7]];
    cbn [fst snd] in *.
  - by apply pool_spawned.
  - by eapply pool_called.
  - eapply pool_dispatched; [done|done|done|apply resumes_call|done|done|intros ? ?; by eapply (acted_snoc _ _ (At _))|].
    intros key. by eapply admit_reserves.
  - by eapply pool_started.
  - eapply (pool_dispatched _ _ _ _ _ []); try done. cbn. by rewrite app_nil_r.
  - eapply pool_dispatched; [done|done|done| |done|done| |].
    + intros Hw t' o Hk. cbn. rewrite <-app_assoc. by apply Hw.
    + intros a' rc'. eapply (acted_snoc _ _ (Settling a rc ts now r k)). by eexists.
    + intros key. apply record_reserves.
  - destruct Hinv as [Hok Hn He Hp [sg0 Hr]]. constructor; [done|by eapply names_quiet| |congruence|].
    + eapply effects_quiet; try done. by rewrite A3.
    + exists sg0. by etrans.
Qed.

(** A runtime that has served nothing yet. *)
Record fresh_runtime (s : Runtime) : Prop := {
  fr_evidence : rt_evidence s = store_init;
  fr_effects : rt_effects s = []
}.

Lemma pool_inv_init s : fresh_runtime s -> pool_inv s [].
Proof.
  intros [He Hf]. constructor; [by constructor| |constructor|by rewrite He|exists (rt_signer s); by rewrite He].
  - constructor; try (by intros ? ? ? (? & ? & _)); try (by intros ? ? ? ? ? (? & ? & _)).
    intros d rc. rewrite He. cbn. by rewrite lookup_empty.
  - rewrite Hf. by intros a rc ?%not_elem_of_nil.
  - rewrite Hf. constructor.
  - rewrite Hf. constructor.
  - rewrite Hf. by intros e ?%not_elem_of_nil.
Qed.

Lemma minted_grows x y : pool_step x y -> rt_minted x.1 <= rt_minted y.1.
Proof.
  intros Hstep. destruct Hstep as [| s s' ws i sc t X p k r Hi Hd He| | | | |s s' ws Ha]; cbn [fst]; try done.
  - destruct p; cbn in He; repeat case_match; simplify_eq; cbn; lia.
  - by rewrite (am_minted _ _ Ha).
Qed.

Lemma pool_inv_reached s s' ws : fresh_runtime s -> rtc pool_step (s, []) (s', ws) -> rt_minted s' <= N -> pool_inv s' ws.
Proof.
  intros Hf Hrun. change (rt_minted (s', ws).1 <= N -> pool_inv (s', ws).1 (s', ws).2).
  revert Hrun. generalize (s', ws).
  apply (rtc_ind_r (R := pool_step) (fun y => rt_minted y.1 <= N -> pool_inv y.1 y.2)).
  - intros _. by apply pool_inv_init.
  - intros y z _ Hyz IH HN. eapply pool_inv_step; [done|done|]. apply IH. pose proof (minted_grows _ _ Hyz). lia.
Qed.
End pool.

(** ** Serial runs *)

Section serial.
Context (config : ServiceConfig) (mint : nat -> string) (py_repr : pyval -> string) (effect : ProposedAction -> handler_end).

Lemma port_env_same (X : Set) (p : port X) s :
  is_dispatch _ p = false -> port_env mint py_repr _ p s = memory_env mint py_repr effect _ p s.
Proof. by destruct p. Qed.

(** A dispatch that nothing comes between. *)
Lemma serial_dispatch s ws i sc t a rc ts now k r s' :
  ws !! i = Some {| wk_call := sc; wk_trace := t; wk_at := At (Call (Dispatch a rc ts now) k) |} ->
  memory_env mint py_repr effect _ (Dispatch a rc ts now) s = (r, s') ->
  rtc (pool_step config mint py_repr) (s, ws)
    (s', <[i := {| wk_call := sc; wk_trace := t ++ [Ev (Dispatch a rc ts now) r]; wk_at := At (k r) |}]> ws).
Proof.
  intros Hi. cbn [memory_env]. unfold dispatch, starts.
  destruct (dispatch_admit (rt_dispatcher s) (receipt_check s) a rc) as [[[o|]|e] d] eqn:Ha; cbn [fst].
  - intros [= <- <-]. apply rtc_once. by eapply StepAnswered.
  - destruct (dispatch_record _ _ _) as [r' d'] eqn:Hd. intros [= <- <-].
    eapply rtc_l; [by eapply StepStarted|].
    eapply rtc_l; [eapply (StepEnded _ _ _ _ _ _ _ _ _ _ _ _ _ (effect a)); by eapply lookup_updated|]. rewrite list_insert_insert_eq.
    apply rtc_once. pose proof (StepSettled config mint py_repr
      (rt_with_dispatcher (rt_with_dispatcher s d (rt_effects s ++ [(a, rc)])) (dispatch_leave d) (rt_effects s ++ [(a, rc)]))
      (<[i := {| wk_call := sc; wk_trace := t; wk_at := Settling a rc ts now (effect_outcome py_repr (effect a) ts now) k |}]> ws)
      i sc t a rc ts now (effect_outcome py_repr (effect a) ts now) k (lookup_updated _ _ _ _ Hi)) as Hs.
    rewrite list_insert_insert_eq in Hs. cbn [rt_dispatcher rt_with_dispatcher] in Hs. rewrite Hd in Hs.
    assert (r' = effect_outcome py_repr (effect a) ts now) as ->.
    { unfold dispatch_record in Hd. by destruct (effect_outcome _ _ _ _); injection Hd. }
    exact Hs.
  - intros [= <- <-]. apply rtc_once. by eapply StepAnswered.
Qed.

(** One call after the other is one of the interleavings. *)
Lemma serial_run p s o s' t ws i sc t0 :
  ws !! i = Some {| wk_call := sc; wk_trace := t0; wk_at := At p |} ->
  run (memory_env mint py_repr effect) p s = (o, s', t) ->
  rtc (pool_step config mint py_repr) (s, ws) (s', <[i := {| wk_call := sc; wk_trace := t0 ++ t; wk_at := At (lift o) |}]> ws).
Proof.
  revert s o s' t ws t0. induction p as [a|e|X q k IH]; intros s o s' t ws t0 Hi; cbn [run].
  - intros [= <- <- <-]. rewrite app_nil_r, list_insert_id by done. apply rtc_refl.
  - intros [= <- <- <-]. rewrite app_nil_r, list_insert_id by done. apply rtc_refl.
  - destruct (memory_env mint py_repr effect X q s) as [r s1] eqn:E. destruct (run _ (k r) s1) as [[o2 s2] t2] eqn:E2.
    intros [= <- <- <-].
    assert (Hfirst : rtc (pool_step config mint py_repr) (s, ws)
              (s1, <[i := {| wk_call := sc; wk_trace := t0 ++ [Ev q r]; wk_at := At (k r) |}]> ws)).
    { destruct (is_dispatch _ q) eqn:Hd; [destruct q; try done; by apply serial_dispatch|].
      apply rtc_once. eapply StepCall; [done|done|]. by rewrite port_env_same. }
    etrans; [exact Hfirst|]. pose proof (IH r s1 o2 s2 t2 _ (t0 ++ [Ev q r]) (lookup_updated _ _ _ _ Hi) E2) as Hrest.
    by rewrite list_insert_insert_eq, <-app_assoc in Hrest.
Qed.

(** A call that is started now and not interleaved with others. *)
Lemma serial_call s ws sc o s' t :
  unnamed sc = true -> serve_on mint py_repr effect config sc s = (o, s', t) ->
  rtc (pool_step config mint py_repr) (s, ws)
    (s', ws ++ [{| wk_call := sc; wk_trace := t; wk_at := At (lift o) |}]).
Proof.
  intros Hu Hrun. eapply rtc_l; [by apply StepSpawn|].
  assert (Hi : (ws ++ [start_worker config sc]) !! length ws = Some (start_worker config sc))
    by (by apply list_lookup_middle).
  pose proof (serial_run _ _ _ _ _ _ _ _ _ Hi Hrun) as H. by rewrite insert_app_r_alt, Nat.sub_diag in H by done.
Qed.
End serial.

(** The call can be brought to its end by its own steps. *)
Definition can_finish config mint py_repr (s : Runtime) (ws : list worker) (i : nat) (sc : service_call) : Prop :=
  exists s' t o, rtc (pool_step config mint py_repr) (s, ws)
    (s', <[i := {| wk_call := sc; wk_trace := t; wk_at := At (lift o) |}]> ws).

Lemma can_finish_at config mint py_repr s ws i sc t0 p :
  ws !! i = Some {| wk_call := sc; wk_trace := t0; wk_at := At p |} -> can_finish config mint py_repr s ws i sc.
Proof.
  intros Hi. destruct (run (memory_env mint py_repr (fun _ => TimedOut)) p s) as [[o s'] t] eqn:E.
  exists s', (t0 ++ t), o. by eapply serial_run.
Qed.

Lemma can_finish_step config mint py_repr s ws s1 w1 i sc :
  pool_step config mint py_repr (s, ws) (s1, <[i := w1]> ws) ->
  can_finish config mint py_repr s1 (<[i := w1]> ws) i sc -> can_finish config mint py_repr s ws i sc.
Proof.
  intros Hs (s' & t & o & H). exists s', t, o. eapply rtc_l; [exact Hs|]. by rewrite list_insert_insert_eq in H.
Qed.

(** Calls do not wait for each other.  Wherever the steps of the calls
    have been interleaved, any call, also one whose effect is running, can be
    brought to its end by its own steps alone, with the other calls where they
    are. *)
Theorem no_call_is_blocked config mint py_repr s ws i w :
  ws !! i = Some w -> can_finish config mint py_repr s ws i (wk_call w).
Proof.
  assert (Hset : forall s ws sc t0 a rc ts now r k,
    ws !! i = Some {| wk_call := sc; wk_trace := t0; wk_at := Settling a rc ts now r k |} ->
    can_finish config mint py_repr s ws i sc).
  { intros s1 ws1 sc t0 a rc ts now r k Hi. eapply can_finish_step; [by eapply StepSettled|].
    eapply can_finish_at. by eapply lookup_updated. }
  intros Hi. destruct w as [sc t0 [p|a rc ts now k|a rc ts now r k]]; cbn [wk_call].
  - by eapply can_finish_at.
  - eapply can_finish_step; [by apply (StepEnded _ _ _ _ _ _ _ _ _ _ _ _ _ TimedOut Hi)|].
    eapply Hset. by eapply lookup_updated.
  - by eapply Hset.
Qed.

(** C3.  No effect without evidence, whatever the interleaving.  Calls of the
    service that leave their decision ids to it run concurrently on one
    in-memory object graph, with the steps of the calls, the running effects,
    the operator and the clock in any order.  While the ids minted so far are
    apart, every effect that ever started is covered by a stored record of an
    allowed decision on this very action with its sensitive parameters redacted,
    no record covers two effects, no idempotency key starts two, and the
    evidence verifies. *)
Theorem concurrent_effects_are_evidenced config mint py_repr s s' ws :
  fresh_runtime s -> rtc (pool_step config mint py_repr) (s, []) (s', ws) ->
  (forall n, has_dash (mint n) = false) ->
  (forall n m, n < rt_minted s' -> m < rt_minted s' -> mint n = mint m -> n = m) ->
  reachable (rt_signer s') (rt_evidence s') /\
  NoDup (map (fun e => rc_decision_id e.2) (rt_effects s')) /\
  NoDup (map (fun e => pa_idempotency_key e.1) (rt_effects s')) /\
  forall a rc, (a, rc) ∈ rt_effects s' ->
    exists rec F, proven_by (rt_evidence s') rc rec /\ ad_effect (ir_decision rec) = ALLOW /\
      with_redacted_parameters a F = Ok (ir_action rec).
Proof.
  intros Hf Hrun Hdash Hap.
  destruct (pool_inv_reached config mint py_repr _ Hdash Hap _ _ _ Hf Hrun) as [Hok Hn [Hb Hr Hk _] _ Hreach]; [done|].
  split_and!; [done|done|done|]. intros a rc [i Hi]%Hb.
  destruct (began_evidence _ _ _ _ _ _ _ Hok Hn Hi) as (rec & F & Hp & Hall & Hred & _). by exists rec, F.
Qed.

(** ** Two calls at once *)

(** Ids of so many digits. *)
Fixpoint tally (n : nat) : string := match n with O => "" | S n' => String "a"%char (tally n') end.

Lemma tally_digits n : has_dash (tally n) = false.
Proof. unfold has_dash. induction n as [|n IH]; [reflexivity|exact IH]. Qed.
Lemma tally_apart n m : tally n = tally m -> n = m.
Proof. revert m. induction n as [|n IH]; intros [|m] E; try done. injection E as E. f_equal. by apply IH. Qed.

Definition fresh_context : call_context :=
  {| cc_trace_id := None; cc_decision_id := None; cc_causation_id := None;
     cc_provenance := None; cc_asserted_tenant_id := "t1"; cc_asserted_subject := "" |}.
Definition pooled_request : service_call :=
  ForRequest sample_credential "payments.wire" wire_resource (wire_parameters "rent") "k7" fresh_context.
Definition pooled_tool_call : service_call :=
  ForToolCall sample_credential "pay" sample_digest wire_resource (wire_parameters "rent") "k8" fresh_context.

(** Both are accepted, then the second runs and then the first. *)
Definition pool_run2 := serve_on tally any_repr sample_effect sample_config pooled_tool_call (sample_runtime [fz 5; fz 5]).
Definition pool_run1 := serve_on tally any_repr sample_effect sample_config pooled_request pool_run2.1.2.
Definition pool_done (sc : service_call) (r : res DecisionOutcome * Runtime * list event) : worker :=
  {| wk_call := sc; wk_trace := r.2; wk_at := At (lift r.1.1) |}.

Lemma triple_eta {A B C} (x : A * B * C) : x = (x.1.1, x.1.2, x.2).
Proof. by destruct x as [[? ?] ?]. Qed.

Lemma two_calls_run :
  rtc (pool_step sample_config tally any_repr) (sample_runtime [fz 5; fz 5], [])
    (pool_run1.1.2, [pool_done pooled_request pool_run1; pool_done pooled_tool_call pool_run2]).
Proof.
  eapply rtc_l; [apply (StepSpawn _ _ _ _ _ pooled_request); reflexivity|].
  eapply rtc_l; [apply (StepSpawn _ _ _ _ _ pooled_tool_call); reflexivity|]. cbn [app].
  etrans; [exact (serial_run sample_config tally any_repr sample_effect _ _ _ _ _ [_; _] 1 pooled_tool_call [] eq_refl (triple_eta pool_run2))|].
  exact (serial_run sample_config tally any_repr sample_effect _ _ _ _ _ [_; _] 0 pooled_request [] eq_refl (triple_eta pool_run1)).
Qed.

Lemma concurrent_effects_are_evidenced_witness :
  length (rt_effects pool_run1.1.2) = 2 /\ NoDup (map (fun e => rc_decision_id e.2) (rt_effects pool_run1.1.2)).
Proof.
  split; [vm_compute; reflexivity|].
  pose proof (concurrent_effects_are_evidenced sample_config tally any_repr (sample_runtime [fz 5; fz 5]) pool_run1.1.2
    [pool_done pooled_request pool_run1; pool_done pooled_tool_call pool_run2]
    (Build_fresh_runtime (sample_runtime [fz 5; fz 5]) eq_refl eq_refl) two_calls_run tally_digits
    (fun n m _ _ => tally_apart n m)) as (_ & H & _). exact H.
Defined.

Lemma no_call_is_blocked_witness :
  can_finish sample_config tally any_repr (sample_runtime []) [start_worker sample_config pooled_request] 0 pooled_request.
Proof.
  exact (no_call_is_blocked sample_config tally any_repr (sample_runtime [])
           [start_worker sample_config pooled_request] 0 (start_worker sample_config pooled_request) eq_refl).
Defined.
