(* ===== verification/Boot.v ===== *)
(** * From a configuration to a serving process
      ([adapters/outbound/memory/__init__.py] and the [build_...] functions of
       the memory adapters, [app/decision_service.py])

    The in-memory factories as [build_runtime] calls them, each with the
    configuration alone; the wiring that follows; and the service's view of the
    configuration.  The object graph that comes out is the one the calls of
    [Pool] run on. *)

From stdpp Require Import base tactics list strings gmap relations.
From Stdlib Require Import ZArith Lia.
From S2P Require Import Prelude PyFloat PyStr Serialization Sha256 Merkle Action Identity Mandate Limits Risk Decision Catalogue Registry Signing Evidence EvidenceStore GovernanceState PromptInjection Decisioning Dispatch Ports DecisionService DecisionSafety Mediation MemoryRuntime Pool Config Composition.

Open Scope string_scope.
Open Scope list_scope.

(** ** Components *)

(** An object a factory made.  An evidence store signs with a signer of its own,
    or with the runtime's once wired; a dispatcher asks the evidence store about
    receipts once wired. *)
Inductive memory_component :=
| AClock
| AVerifier (v : DevIdentityVerifier)
| ACatalogue (c : ActionCatalogue)
| AAttestations (a : AttestationProvider)
| ATools (t : ToolRegistry)
| AMandates (m : MandateStore)
| AKillSwitch (k : KillSwitch)
| APolicy (p : AllowList)
| ARiskEngine (r : RiskEngine)
| ALimits (l : LimitStore)
| ABaselines (b : BaselineStore)
| ASigner (s : LocalMacSigner)
| AEvidence (e : EvidenceStore) (own_signer : option LocalMacSigner)
| ADispatcher (d : Dispatcher) (checks_receipts : bool).

(** [type(component).__name__], and the public members of the class. *)
Definition class_of_component (c : memory_component) : string * list string :=
  match c with
  | AClock => ("SystemClock", ["now"])
  | AVerifier _ => ("DevIdentityVerifier", ["verify"; "assert_matches_assertion"])
  | ACatalogue _ => ("InMemoryActionCatalogue", ["load_bundle"; "resolve"; "active_bundle_digest"; "set_available"])
  | AAttestations _ => ("InMemoryAttestationProvider", ["record"; "resolve"; "set_available"])
  | ATools _ => ("InMemoryToolRegistry",
                ["load_bundle"; "resolve"; "approve"; "is_quarantined"; "active_bundle_digest"; "set_available"])
  | AMandates _ => ("InMemoryMandateStore", ["get"; "is_revoked"; "put"; "revoke"; "set_available"])
  | AKillSwitch _ => ("InMemoryKillSwitch",
                 ["is_tenant_engaged"; "is_globally_engaged"; "engage_tenant"; "disengage_tenant"; "engage_globally";
                  "disengage_globally"; "set_available"])
  | APolicy _ => ("AllowListPolicyDecisionPoint", ["decide"; "active_bundle_digest"; "allow"; "set_available"])
  | ARiskEngine _ => ("ReferenceRiskEngine", ["model_version"; "score"; "score_with_model"; "set_available"])
  | ALimits _ => ("InMemoryLimitStore",
                   ["try_consume"; "cumulative"; "release"; "configure"; "set_available"; "tracked_subjects"])
  | ABaselines _ => ("InMemoryBaselineStore", ["get"; "evaluate"; "observe"; "set_available"; "tracked_subjects"])
  | ASigner _ => ("LocalMacSigner", ["key_id"; "mac"; "verify"; "rotate"; "set_available"])
  | AEvidence _ _ => ("InMemoryEvidenceStore",
                      ["append_intent"; "append_outcome"; "verify"; "seal_and_purge"; "segment_state"; "segment_leaves";
                       "mark_sealed"; "purge_before"; "anchor_for"; "has_receipt"; "outcome_for"; "segment_size";
                       "tamper_for_test"])
  | ADispatcher _ _ => ("InMemoryDispatcher", ["dispatch"; "register"; "set_receipt_check"; "outcome_for"; "shutdown"])
  end.
Definition component_name (c : memory_component) : string := (class_of_component c).1.
Definition component_has (c : memory_component) (member : string) : bool :=
  bool_decide (member ∈ (class_of_component c).2).

(** ** The factories ([build_clock] to [build_kill_switch]) *)

Definition DEFAULT_MAX_SUBJECTS : Z := 10000.
Definition DEFAULT_DEV_KEY_ID : string := "local.dev.v1".
Definition REFERENCE_RISK_MODEL_VERSION : string := "reference-v0.1.0".

Section boot.
(** The random key a [LocalMacSigner] draws, by the factory that makes it; and
    the classes of the parameters of [Composition]. *)
Variable token_bytes : string -> bytes.

Abbreviation made := (factory_result (C := memory_component)).

Definition build_identity_verifier (config : GlassBoxConfig) : DevIdentityVerifier :=
  {| dv_validity_seconds := fz 3600;
     dv_reject_mismatched := ic_reject_mismatched_assertions (gc_identity config) |}.

Definition build_policy_decision_point (config : GlassBoxConfig) : AllowList :=
  allow_list_init ∅ "reference.allowlist".

Definition build_risk_engine (config : GlassBoxConfig) : RiskEngine :=
  risk_engine_init REFERENCE_RISK_MODEL_VERSION (fz 5) (fz 25).

(** [float(cooldown_seconds)] raises where the integer is too large. *)
Definition build_limit_store (config : GlassBoxConfig) : made :=
  match float_of_int (lc_cooldown_seconds (gc_limits config)) with
  | Ok cooldown => Built (ALimits (limit_store_init ∅ (fz 100) cooldown DEFAULT_MAX_SUBJECTS))
  | Raise _ => Raised "OverflowError" "int too large to convert to float"
  end.

Definition build_baseline_store (config : GlassBoxConfig) : BaselineStore :=
  baseline_store_init (Z.to_nat (bc_min_samples (gc_baseline config))) 512 DEFAULT_MAX_SUBJECTS.

Definition build_mac_signer (config : GlassBoxConfig) (key : bytes) : LocalMacSigner :=
  local_signer_init (str_or (sc_key_id (gc_signing config)) DEFAULT_DEV_KEY_ID) key ∅.

(** A thread pool needs a worker. *)
Definition build_dispatcher (config : GlassBoxConfig) : made :=
  let n := dc_max_in_flight (gc_dispatch config) in
  if (n <=? 0)%Z then Raised "ValueError" "max_workers must be greater than 0"
  else Built (ADispatcher (dispatcher_init n (dc_require_evidence_receipt (gc_dispatch config))) false).

(** The factory the adapter set has under a name. *)
Definition build_component (name : string) (config : GlassBoxConfig) : made :=
  match dict_get
    [("clock", Built AClock);
     ("identity_verifier", Built (AVerifier (build_identity_verifier config)));
     ("mandate_store", Built (AMandates mandate_store_init));
     ("policy_decision_point", Built (APolicy (build_policy_decision_point config)));
     ("risk_engine", Built (ARiskEngine (build_risk_engine config)));
     ("limit_store", build_limit_store config);
     ("baseline_store", Built (ABaselines (build_baseline_store config)));
     ("mac_signer", Built (ASigner (build_mac_signer config (token_bytes "mac_signer"))));
     ("evidence_store", Built (AEvidence store_init (Some (build_mac_signer config (token_bytes "evidence_store")))));
     ("dispatcher", build_dispatcher config);
     ("action_catalogue", Built (ACatalogue catalogue_init));
     ("attestation_provider", Built (AAttestations attestation_init));
     ("tool_registry", Built (ATools registry_init));
     ("kill_switch", Built (AKillSwitch kill_switch_init))] name
  with Some r => r | None => ReturnedNone end.

(** [build_runtime(config, memory_adapter_set())]. *)
Definition build_memory_runtime (config : GlassBoxConfig) : composed (GovernanceRuntime (C := memory_component)) :=
  match memory_adapter_set build_component with
  | inl e => inl e
  | inr adapters => (build_runtime component_name component_has config adapters).2
  end.

(** ** Wiring *)

Definition wire_component (c : memory_component) : memory_component :=
  match c with
  | AEvidence e _ => AEvidence e None
  | ADispatcher d _ => ADispatcher d true
  | c => c
  end.

(** [wire_memory_adapter_set]: the store signs with the runtime's signer, and
    the dispatcher asks the store about receipts. *)
Definition wire_memory_adapter_set (rt : GovernanceRuntime) : GovernanceRuntime :=
  let in_memory := match dict_get (gr_components rt) "evidence_store" with Some (AEvidence _ _) => true | _ => false end in
  {| gr_config := gr_config rt; gr_adapter_set_name := gr_adapter_set_name rt;
     gr_components := map (fun nc => (nc.1, if in_memory then wire_component nc.2 else nc.2)) (gr_components rt);
     gr_workflow_engine := gr_workflow_engine rt |}.

(** The object graph as one state, at a reading of the clock.  Only a wired
    graph has one signer, and a dispatcher that checks receipts. *)
Definition assemble (rt : GovernanceRuntime) (now : float) : option Runtime :=
  let get n := dict_get (gr_components rt) n in
  match get "clock", get "identity_verifier", get "action_catalogue", get "attestation_provider", get "tool_registry",
        get "mandate_store", get "kill_switch" with
  | Some AClock, Some (AVerifier v), Some (ACatalogue c), Some (AAttestations a), Some (ATools t),
    Some (AMandates m), Some (AKillSwitch k) =>
      match get "policy_decision_point", get "risk_engine", get "limit_store", get "baseline_store", get "mac_signer",
            get "evidence_store", get "dispatcher" with
      | Some (APolicy p), Some (ARiskEngine r), Some (ALimits l), Some (ABaselines b), Some (ASigner sg),
        Some (AEvidence e None), Some (ADispatcher d true) =>
          Some {| rt_clock := now; rt_minted := 0; rt_tools := t; rt_catalogue := c; rt_attestations := a; rt_verifier := v;
                  rt_kill_switch := k; rt_mandates := m; rt_policy := p; rt_risk := r; rt_limits := l; rt_baselines := b;
                  rt_signer := sg; rt_evidence := e; rt_dispatcher := d; rt_effects := [] |}
      | _, _, _, _, _, _, _ => None
      end
  | _, _, _, _, _, _, _ => None
  end.

(** What [DecisionService] reads of the runtime's configuration; [sla_minutes]
    where a workflow engine was added. *)
Definition service_config (config : GlassBoxConfig) (sla_minutes : option Z) : ServiceConfig :=
  {| cf_segment_prefix := ec_segment_prefix (gc_evidence config);
     cf_enforce_threshold := kc_enforce_threshold (gc_risk config);
     cf_deny_level := kc_deny_level (gc_risk config);
     cf_default_window_seconds := lc_default_window_seconds (gc_limits config);
     cf_anomaly_threshold := bc_anomaly_threshold (gc_baseline config);
     cf_default_timeout_s := dc_default_timeout_s (gc_dispatch config);
     cf_workflow_sla := sla_minutes |}.

(** The process right after it came up. *)
Definition boot (config : GlassBoxConfig) (now : float) : option Runtime :=
  match build_memory_runtime config with
  | inl _ => None
  | inr rt => assemble (wire_memory_adapter_set rt) now
  end.

(** ** What comes up *)

(** The adapter set is well formed, whatever its factories do. *)
Lemma memory_set_built (build : string -> GlassBoxConfig -> made) : exists adapters,
  memory_adapter_set build = inr adapters /\ as_dev_only adapters = true /\
  forall n, n ∈ required_names -> dict_get (as_factories adapters) n = Some (Callable (build n)).
Proof.
  eexists. split; [vm_compute; reflexivity|]. split; [reflexivity|]. intros n Hn. unfold required_names in Hn. cbn in Hn.
  repeat (apply elem_of_cons in Hn as [->|Hn]; [reflexivity|]). by apply not_elem_of_nil in Hn.
Qed.

(** A product has the members of its port. *)
Lemma build_one_made config n p run c :
  run config = Built c -> satisfies component_has c p = true ->
  build_one component_name component_has config n p (Callable run) = inr c.
Proof. intros H Hs. unfold build_one. by rewrite H, Hs. Qed.

(** The components in the order they are built. *)
Definition products (config : GlassBoxConfig) (cooldown : float) : list (string * memory_component) :=
  [("clock", AClock); ("identity_verifier", AVerifier (build_identity_verifier config));
   ("action_catalogue", ACatalogue catalogue_init); ("attestation_provider", AAttestations attestation_init);
   ("tool_registry", ATools registry_init); ("mandate_store", AMandates mandate_store_init);
   ("kill_switch", AKillSwitch kill_switch_init); ("policy_decision_point", APolicy (build_policy_decision_point config));
   ("risk_engine", ARiskEngine (build_risk_engine config));
   ("limit_store", ALimits (limit_store_init ∅ (fz 100) cooldown DEFAULT_MAX_SUBJECTS));
   ("baseline_store", ABaselines (build_baseline_store config));
   ("mac_signer", ASigner (build_mac_signer config (token_bytes "mac_signer")));
   ("evidence_store", AEvidence store_init (Some (build_mac_signer config (token_bytes "evidence_store"))));
   ("dispatcher", ADispatcher (dispatcher_init (dc_max_in_flight (gc_dispatch config))
                                 (dc_require_evidence_receipt (gc_dispatch config))) false)].

(** The graph that is wired and assembled from them. *)
Definition booted (config : GlassBoxConfig) (cooldown now : float) : Runtime :=
  {| rt_clock := now; rt_minted := 0; rt_tools := registry_init; rt_catalogue := catalogue_init;
     rt_attestations := attestation_init; rt_verifier := build_identity_verifier config;
     rt_kill_switch := kill_switch_init; rt_mandates := mandate_store_init;
     rt_policy := build_policy_decision_point config; rt_risk := build_risk_engine config;
     rt_limits := limit_store_init ∅ (fz 100) cooldown DEFAULT_MAX_SUBJECTS;
     rt_baselines := build_baseline_store config;
     rt_signer := build_mac_signer config (token_bytes "mac_signer"); rt_evidence := store_init;
     rt_dispatcher := dispatcher_init (dc_max_in_flight (gc_dispatch config)) (dc_require_evidence_receipt (gc_dispatch config));
     rt_effects := [] |}.

Lemma assemble_booted config cooldown now name engine :
  assemble (wire_memory_adapter_set
    {| gr_config := config; gr_adapter_set_name := name; gr_components := products config cooldown;
       gr_workflow_engine := engine |}) now = Some (booted config cooldown now).
Proof. reflexivity. Qed.

Lemma build_all_made config factories l built :
  (forall n, n ∈ map fst l -> dict_get factories n = Some (Callable (build_component n))) ->
  Forall2 (fun np nc => nc.1 = np.1 /\ build_component np.1 config = Built nc.2 /\ satisfies component_has nc.2 np.2 = true) l built ->
  build_all component_name component_has config factories l = inr (map fst l, built, []).
Proof.
  intros Hf HF. induction HF as [|[n p] [n' c] l built (Hn & Hb & Hs) _ IH]; [done|]. cbn in Hn. subst n'.
  cbn [build_all map fst]. rewrite Hf by (cbn; by left). rewrite IH by (intros m Hm; apply Hf; by right).
  by rewrite (build_one_made _ _ _ _ _ Hb Hs).
Qed.

Lemma products_made config cooldown :
  float_of_int (lc_cooldown_seconds (gc_limits config)) = Ok cooldown -> (0 < dc_max_in_flight (gc_dispatch config))%Z ->
  Forall2 (fun np nc => nc.1 = np.1 /\ build_component np.1 config = Built nc.2 /\ satisfies component_has nc.2 np.2 = true)
    REQUIRED_COMPONENTS (products config cooldown).
Proof.
  intros Hc Hm. unfold REQUIRED_COMPONENTS, products.
  repeat (apply Forall2_cons_2; [cbn [fst snd]|]); try apply Forall2_nil_2; (split; [reflexivity|split; [|reflexivity]]);
    unfold build_component; cbn [dict_get String.eqb Ascii.eqb Bool.eqb]; try done.
  - unfold build_limit_store. by rewrite Hc.
  - unfold build_dispatcher. by rewrite (proj2 (Z.leb_gt _ _) Hm).
Qed.

Lemma boot_products config cooldown :
  gc_profile config = DEV -> float_of_int (lc_cooldown_seconds (gc_limits config)) = Ok cooldown ->
  (0 < dc_max_in_flight (gc_dispatch config))%Z ->
  exists name, build_memory_runtime config =
    inr {| gr_config := config; gr_adapter_set_name := name; gr_components := products config cooldown;
           gr_workflow_engine := None |}.
Proof.
  intros Hp Hc Hm. destruct (memory_set_built build_component) as (adapters & Hset & Hdev & Hf).
  exists (as_name adapters). unfold build_memory_runtime. rewrite Hset. unfold build_runtime. rewrite Hdev, Hp.
  cbn [permits_dev_only_adapters negb andb].
  by rewrite (build_all_made _ _ _ _ Hf (products_made _ _ Hc Hm)).
Qed.

Ltac in_list := repeat first [apply list_elem_of_here | apply list_elem_of_further].

(** A component whose factory raises is one the runtime is refused for. *)
Lemma boot_refused config n p c m :
  (n, p) ∈ REQUIRED_COMPONENTS -> build_component n config = Raised c m ->
  exists e, build_memory_runtime config = inl e.
Proof.
  intros Hin Hr. destruct (memory_set_built build_component) as (adapters & Hset & Hdev & Hf).
  unfold build_memory_runtime. rewrite Hset. unfold build_runtime.
  destruct (_ && _); [by eexists|].
  destruct (build_all_spec component_name component_has config (as_factories adapters) REQUIRED_COMPONENTS)
    as (built & failures & -> & _ & Hfail & _); [intros m' Hm'; eexists; by apply Hf|].
  destruct failures as [|e failures]; [|by eexists]. exfalso.
  assert (Hin' : (n +:+ ": factory raised " +:+ c +:+ ": " +:+ m) ∈ []); [|by apply not_elem_of_nil in Hin'].
  apply Hfail. exists (n, p). split; [done|]. unfold outcome_of. cbn [fst snd].
  rewrite (Hf n) by (unfold required_names; apply list_elem_of_fmap; by exists (n, p)). cbn. unfold build_one. by rewrite Hr.
Qed.

Lemma built_inv config rt :
  build_memory_runtime config = inr rt ->
  gc_profile config = DEV /\ (0 < dc_max_in_flight (gc_dispatch config))%Z /\
  exists cooldown, float_of_int (lc_cooldown_seconds (gc_limits config)) = Ok cooldown /\
    gr_components rt = products config cooldown.
Proof.
  intros H. assert (Hp : gc_profile config = DEV).
  { destruct (gc_profile config) eqn:Hp; [done|exfalso].
    destruct (memory_set_never_serves_production component_name component_has build_component config Hp)
      as (adapters & Hset & v & Hb). unfold build_memory_runtime in H. by rewrite Hset, Hb in H. }
  assert (Hm : (0 < dc_max_in_flight (gc_dispatch config))%Z).
  { destruct (Z.leb_spec (dc_max_in_flight (gc_dispatch config)) 0) as [Hle|]; [exfalso|done].
    destruct (boot_refused config "dispatcher" {| pr_name := "Dispatcher"; pr_members := ["dispatch"] |}
      "ValueError" "max_workers must be greater than 0") as [e He]; [in_list| |by rewrite He in H].
    unfold build_component. cbn [dict_get String.eqb Ascii.eqb Bool.eqb]. unfold build_dispatcher.
    by rewrite (proj2 (Z.leb_le _ _) Hle). }
  destruct (float_of_int (lc_cooldown_seconds (gc_limits config))) as [cooldown|e] eqn:Hc.
  - split_and!; [done|done|]. exists cooldown. split; [done|].
    destruct (boot_products config cooldown Hp Hc Hm) as [name Hb]. rewrite Hb in H. by injection H as <-.
  - exfalso. destruct (boot_refused config "limit_store"
      {| pr_name := "LimitStore"; pr_members := ["cumulative"; "release"; "try_consume"] |}
      "OverflowError" "int too large to convert to float") as [e' He]; [in_list| |by rewrite He in H].
    unfold build_component. cbn [dict_get String.eqb Ascii.eqb Bool.eqb]. unfold build_limit_store. by rewrite Hc.
Qed.

Lemma boot_exact config now s :
  boot config now = Some s <->
  gc_profile config = DEV /\ (0 < dc_max_in_flight (gc_dispatch config))%Z /\
  exists cooldown, float_of_int (lc_cooldown_seconds (gc_limits config)) = Ok cooldown /\ s = booted config cooldown now.
Proof.
  unfold boot. split.
  - destruct (build_memory_runtime config) as [e|rt] eqn:E; [done|]. intros H.
    destruct (built_inv _ _ E) as (Hp & Hm & cooldown & Hc & Hcomp). split_and!; [done|done|]. exists cooldown.
    split; [done|]. destruct rt as [cfg0 name comps engine]. cbn in Hcomp. subst comps.
    change (Some (booted config cooldown now) = Some s) in H. by injection H.
  - intros (Hp & Hm & cooldown & Hc & ->). destruct (boot_products config cooldown Hp Hc Hm) as [name ->]. apply assemble_booted.
Qed.

(** Before the wiring no graph assembles: the store signs with a key of its own
    and the dispatcher takes any receipt. *)
Lemma unwired_is_incomplete config rt now : build_memory_runtime config = inr rt -> assemble rt now = None.
Proof.
  intros (_ & _ & cooldown & _ & Hcomp)%built_inv. destruct rt as [cfg0 name comps engine]. cbn in Hcomp. by subst comps.
Qed.

(** Whatever calls a process then serves at once, the pool's guarantees hold. *)
Lemma booted_process_is_governed config sla mint py_repr now s s' ws :
  boot config now = Some s ->
  rtc (pool_step (service_config config sla) mint py_repr) (s, []) (s', ws) ->
  (forall n, has_dash (mint n) = false) ->
  (forall n m, (n < rt_minted s')%nat -> (m < rt_minted s')%nat -> mint n = mint m -> n = m) ->
  gc_profile config = DEV /\ ls_key_id (rt_signer s) = str_or (sc_key_id (gc_signing config)) DEFAULT_DEV_KEY_ID /\
  dv_reject_mismatched (rt_verifier s) = ic_reject_mismatched_assertions (gc_identity config) /\
  reachable (rt_signer s') (rt_evidence s') /\
  forall a rc, (a, rc) ∈ rt_effects s' ->
    exists rec F, proven_by (rt_evidence s') rc rec /\ ad_effect (ir_decision rec) = ALLOW /\
      with_redacted_parameters a F = Ok (ir_action rec).
Proof.
  intros (Hp & Hm & cooldown & Hc & ->)%boot_exact Hrun Hdash Hap.
  assert (Hfr : fresh_runtime (booted config cooldown now)) by by constructor.
  destruct (pool_inv_reached _ _ _ _ Hdash Hap _ _ _ Hfr Hrun) as [Hok Hn [Hb _ _ _] _ Hreach]; [done|].
  split_and!; [done..|]. intros a rc [i Hi]%Hb.
  destruct (began_evidence _ _ _ _ _ _ _ Hok Hn Hi) as (rec & F & Hpr & Hall & Hred & _). by exists rec, F.
Qed.

(** C34.  A process comes up wired or not at all.  Over the in-memory adapters
    it comes up exactly under the development profile, with workers for the
    dispatcher and a cooldown a float can hold; then it has an empty honest
    evidence store that signs with the runtime's own signer under the configured
    key id, a dispatcher that checks every receipt against that store where the
    configuration asks for receipts, and no authority: no mandate, no catalogued
    action, no tool and nothing allowed.  The graph the factories make alone,
    before the wiring, is not one. *)
Theorem process_comes_up_wired config now :
  (is_some (boot config now) = true <->
     gc_profile config = DEV /\ (0 < dc_max_in_flight (gc_dispatch config))%Z /\
     is_ok (float_of_int (lc_cooldown_seconds (gc_limits config))) = true) /\
  (forall rt, build_memory_runtime config = inr rt -> assemble rt now = None) /\
  forall s, boot config now = Some s ->
    fresh_runtime s /\ reachable (rt_signer s) (rt_evidence s) /\
    ls_key_id (rt_signer s) = str_or (sc_key_id (gc_signing config)) DEFAULT_DEV_KEY_ID /\
    dp_require_receipt (rt_dispatcher s) = dc_require_evidence_receipt (gc_dispatch config) /\
    dp_max_in_flight (rt_dispatcher s) = dc_max_in_flight (gc_dispatch config) /\
    dv_reject_mismatched (rt_verifier s) = ic_reject_mismatched_assertions (gc_identity config) /\
    (forall tenant agent t, mandate_get (rt_mandates s) tenant agent t = Ok None) /\
    (forall tenant name, catalogue_resolve (rt_catalogue s) tenant name = Raise CatalogueBundleUnavailableError) /\
    (forall tenant name digest, registry_resolve (rt_tools s) tenant name digest = (Raise ToolRegistryUnavailableError)) /\
    forall tenant, allowed_for (rt_policy s) tenant = ∅.
Proof.
  split_and!.
  - split.
    + intros [s (Hp & Hm & cooldown & Hc & _)%boot_exact]%is_some_true. by rewrite Hc.
    + intros (Hp & Hm & Hok). destruct (float_of_int _) as [cooldown|e] eqn:Hc; [|done].
      apply is_some_true. eexists. apply boot_exact. eauto.
  - intros rt. apply unwired_is_incomplete.
  - intros s (_ & _ & cooldown & _ & ->)%boot_exact. split_and!; try done.
    by eexists; apply rtc_refl.
Qed.
End boot.

(** ** A development process *)

Definition boot_key (name : string) : bytes := utf8 name.

Definition dev_process : option Runtime :=
  match from_env [("GLASSBOX_PROFILE", "dev")] with inr c => boot boot_key c (fz 20) | inl _ => None end.

Lemma process_comes_up_wired_witness :
  exists config s, from_env [("GLASSBOX_PROFILE", "dev")] = inr config /\ boot boot_key config (fz 20) = Some s /\
    fresh_runtime s /\ dp_require_receipt (rt_dispatcher s) = true.
Proof.
  destruct (from_env [("GLASSBOX_PROFILE", "dev")]) as [e|config] eqn:E; [exfalso; vm_compute in E; discriminate E|].
  assert (Hs : is_some dev_process = true) by (vm_compute; reflexivity).
  assert (Hr : match from_env [("GLASSBOX_PROFILE", "dev")] with
               | inr c => dc_require_evidence_receipt (gc_dispatch c) | inl _ => false end = true) by (vm_compute; reflexivity).
  unfold dev_process in Hs. rewrite E in Hs, Hr. destruct (boot boot_key config (fz 20)) as [s|] eqn:Eb; [|discriminate Hs].
  exists config, s. split; [reflexivity|]. split; [exact Eb|].
  destruct (process_comes_up_wired boot_key config (fz 20)) as (_ & _ & H). destruct (H s Eb) as (Hf & _ & _ & Hq & _).
  split; [exact Hf|]. rewrite Hq. exact Hr.
Defined.

(** A process that was just booted denies what it is asked, and records that. *)
Example fresh_process_denies :
  match from_env [("GLASSBOX_PROFILE", "dev")], dev_process with
  | inr c, Some s =>
      let r := serve_on tally any_repr sample_effect (service_config c None) pooled_request s in
      exn_of r = None /\ option_map fst (status_of r) = Some DENIED /\
      map (fun e => pa_idempotency_key e.1) (rt_effects r.1.2) = []
  | _, _ => False
  end.
Proof. vm_compute. split_and!; reflexivity. Qed.
