(* ===== verification/Telemetry.v ===== *)
(** * Tracing and metrics ([glassbox/app/telemetry.py],
      [adapters/outbound/otel/configure.py])

    The tracer port as a class of operations with the laws the service relies
    on, the no-op tracer and one that records as instances, the stage span
    around a computation, the instruments of the service, and the state of the
    module that [configure_otel] changes.  OpenTelemetry itself is a parameter. *)

From stdpp Require Import base tactics list strings gmap.
From Stdlib Require Import ZArith Lia.
From S2P Require Import Prelude PyFloat PyStr Serialization Action Identity Risk Decision Evidence BronzeRows Errors PromptInjection Decisioning Dispatch Ports DecisionService DecisionSafety Mediation MemoryRuntime Config Observability.

Open Scope string_scope.
Open Scope list_scope.

(** ** The tracer port *)

(** [exit_span]: [__exit__] of the context manager, given the exception that is
    on its way; whether it swallows it. *)
Class Tracer (T : Type) := {
  Span : Type;
  enter_span : string -> T -> res Span * T;
  set_attribute : Span -> string -> string -> T -> res unit * T;
  set_status : Span -> string -> string -> T -> res unit * T;
  record_exception : Span -> exn -> T -> res unit * T;
  exit_span : Span -> option exn -> T -> res bool * T
}.

(** What OpenTelemetry documents: its calls do not raise, and its spans let
    exceptions through. *)
Class TracerLaws (T : Type) `{Tracer T} := {
  enter_ok : forall n t, exists sp t', enter_span n t = (Ok sp, t');
  attribute_ok : forall sp k v t, exists t', set_attribute sp k v t = (Ok tt, t');
  status_ok : forall sp c d t, exists t', set_status sp c d t = (Ok tt, t');
  record_ok : forall sp e t, exists t', record_exception sp e t = (Ok tt, t');
  exit_ok : forall sp e t, exists t', exit_span sp e t = (Ok false, t')
}.

(** [_NullTracer] and [_NullSpan]. *)
#[export] Instance NullTracer : Tracer unit := {|
  Span := unit;
  enter_span := fun _ t => (Ok tt, t);
  set_attribute := fun _ _ _ t => (Ok tt, t);
  set_status := fun _ _ _ t => (Ok tt, t);
  record_exception := fun _ _ t => (Ok tt, t);
  exit_span := fun _ _ t => (Ok false, t)
|}.
#[export] Instance NullTracer_laws : TracerLaws unit.
Proof. constructor; intros; repeat eexists; reflexivity. Qed.

(** A tracer that keeps what it is told. *)
Inductive span_event :=
| Entered (name : string)
| Attribute (key value : string)
| Status (code description : string)
| Recorded (e : exn)
| Exited (e : option exn).

#[export] Instance RecordingTracer : Tracer (list span_event) := {|
  Span := unit;
  enter_span := fun n t => (Ok tt, t ++ [Entered n]);
  set_attribute := fun _ k v t => (Ok tt, t ++ [Attribute k v]);
  set_status := fun _ c d t => (Ok tt, t ++ [Status c d]);
  record_exception := fun _ e t => (Ok tt, t ++ [Recorded e]);
  exit_span := fun _ e t => (Ok false, t ++ [Exited e])
|}.
#[export] Instance RecordingTracer_laws : TracerLaws (list span_event).
Proof. constructor; intros; repeat eexists; reflexivity. Qed.

(** ** Stages *)

(** How a [with] block ends: a swallowed exception leaves the wrapper to return
    [None]. *)
Inductive ending (A : Type) :=
| Returned (a : A)
| Raising (e : exn)
| Swallowed.
Arguments Returned {A} a.
Arguments Raising {A} e.
Arguments Swallowed {A}.
Definition ending_of {A} (r : res A) : ending A := match r with Ok a => Returned a | Raise e => Raising e end.

Section stages.
Context {T : Type} `{Tracer T} {S A : Type}.
(** [str(exc)]. *)
Variable exc_text : exn -> string.

Definition traced (B : Type) : Type := T * S -> res B * (T * S).

Fixpoint set_attributes (sp : Span) (items : list (string * string)) (t : T) : res unit * T :=
  match items with
  | [] => (Ok tt, t)
  | (k, v) :: rest =>
      match set_attribute sp k v t with
      | (Ok _, t') => set_attributes sp rest t'
      | (Raise e, t') => (Raise e, t')
      end
  end.

(** [except Exception as exc: ...; raise]; what marking the span raises would
    take the place of the exception. *)
Definition mark_error (sp : Span) (e : exn) (t : T) : exn * T :=
  match set_status sp "error" (exc_text e) t with
  | (Raise e', t1) => (e', t1)
  | (Ok _, t1) =>
      match record_exception sp e t1 with
      | (Raise e', t2) => (e', t2)
      | (Ok _, t2) => (e, t2)
      end
  end.

Definition stage_block (sp : Span) (context : list (string * string)) (stage : string) (body : Span -> traced A) : traced A :=
  fun '(t, s) =>
    match set_attributes sp (map (fun kv => ("glassbox." +:+ kv.1, kv.2)) context ++ [("glassbox.stage", stage)]) t with
    | (Raise e, t1) => (Raise e, (t1, s))
    | (Ok _, t1) =>
        match body sp (t1, s) with
        | (Ok a, ts) => (Ok a, ts)
        | (Raise e, (t2, s2)) => let '(e', t3) := mark_error sp e t2 in (Raise e', (t3, s2))
        end
    end.

(** [with traced_stage(stage) as span: ...], the context bound being [context]. *)
Definition traced_stage (context : list (string * string)) (stage : string) (body : Span -> traced A)
    : T * S -> ending A * (T * S) :=
  fun '(t, s) =>
    match enter_span ("glassbox.stage." +:+ stage) t with
    | (Raise e, t1) => (Raising e, (t1, s))
    | (Ok sp, t1) =>
        let '(r, (t2, s2)) := stage_block sp context stage body (t1, s) in
        match exit_span sp (match r with Raise e => Some e | Ok _ => None end) t2 with
        | (Raise e, t3) => (Raising e, (t3, s2))
        | (Ok swallows, t3) =>
            (match r with
             | Ok a => Returned a
             | Raise e => if swallows then Swallowed else Raising e
             end, (t3, s2))
        end
    end.

(** [@traced_operation(stage)]. *)
Definition traced_operation (context : list (string * string)) (stage : string) (func : traced A) :=
  traced_stage context stage (fun _ => func).

(** The computation does what [f] does, whatever the tracer has recorded. *)
Definition computes (body : traced A) (f : S -> res A * S) : Prop :=
  forall t s, exists t', body (t, s) = ((f s).1, (t', (f s).2)).

Context `{!TracerLaws T}.

Lemma set_attributes_ok sp items t : exists t', set_attributes sp items t = (Ok tt, t').
Proof.
  revert t. induction items as [|[k v] items IH]; intros t; [by exists t|]. cbn.
  destruct (attribute_ok sp k v t) as [t1 ->]. apply IH.
Qed.

Lemma mark_error_ok sp e t : exists t', mark_error sp e t = (e, t').
Proof.
  unfold mark_error. destruct (status_ok sp "error" (exc_text e) t) as [t1 ->].
  destruct (record_ok sp e t1) as [t2 ->]. by exists t2.
Qed.

(** A stage does what its body does. *)
Lemma traced_stage_computes context stage body f :
  (forall sp, computes (body sp) f) ->
  forall t s, exists t', traced_stage context stage body (t, s) = (ending_of (f s).1, (t', (f s).2)).
Proof.
  intros Hb t s. unfold traced_stage, stage_block. destruct (enter_ok ("glassbox.stage." +:+ stage) t) as (sp & t1 & ->).
  destruct (set_attributes_ok sp (map (fun kv => ("glassbox." +:+ kv.1, kv.2)) context ++ [("glassbox.stage", stage)]) t1) as [t2 ->].
  destruct (Hb sp t2 s) as [t3 ->]. destruct (f s) as [[a|e] s']; cbn [fst snd].
  - destruct (exit_ok sp None t3) as [t4 ->]. by exists t4.
  - destruct (mark_error_ok sp e t3) as [t4 ->]. destruct (exit_ok sp (Some e) t4) as [t5 ->]. by exists t5.
Qed.
End stages.

(** ** What a span shows *)

Lemma recorded_attributes (items : list (string * string)) (t : list span_event) :
  set_attributes (T := list span_event) tt items t = (Ok tt, t ++ map (fun kv => Attribute kv.1 kv.2) items).
Proof.
  revert t. induction items as [|[k v] items IH]; intros t; cbn; [by rewrite app_nil_r|].
  rewrite IH. by rewrite <-app_assoc.
Qed.

(** What a stage's span shows before its body, and after it. *)
Definition stage_opening (context : list (string * string)) (stage : string) : list span_event :=
  [Entered ("glassbox.stage." +:+ stage)] ++
  map (fun kv => Attribute ("glassbox." +:+ kv.1) kv.2) context ++ [Attribute "glassbox.stage" stage].
Definition stage_closing (exc_text : exn -> string) (failure : option exn) : list span_event :=
  match failure with Some e => [Status "error" (exc_text e); Recorded e] | None => [] end ++ [Exited failure].
Definition failure_of {A} (r : res A) : option exn := match r with Raise e => Some e | Ok _ => None end.

Lemma stage_recorded {S A} exc_text context stage (body : traced (T := list span_event) (S := S) A) t s r inner s' :
  body (t ++ stage_opening context stage, s) = (r, ((t ++ stage_opening context stage) ++ inner, s')) ->
  traced_stage exc_text context stage (fun _ => body) (t, s) =
  (ending_of r, (t ++ stage_opening context stage ++ inner ++ stage_closing exc_text (failure_of r), s')).
Proof.
  intros Hb. unfold traced_stage, stage_block. cbn [enter_span RecordingTracer]. rewrite recorded_attributes.
  replace ((t ++ [Entered ("glassbox.stage." +:+ stage)]) ++ _) with (t ++ stage_opening context stage).
  2: { unfold stage_opening. by rewrite map_app, map_map, !app_assoc. }
  rewrite Hb. unfold stage_closing, mark_error.
  destruct r as [a|e]; cbn [set_status record_exception exit_span RecordingTracer failure_of ending_of app];
    by rewrite <-!app_assoc.
Qed.

(** ** The evaluation of a decision, observed *)

Definition option_of {A} (e : ending A) : res (option A) :=
  match e with Returned a => Ok (Some a) | Raising e => Raise e | Swallowed => Ok None end.

Section observed.
Context {T : Type} `{Tracer T} {S : Type} (env : forall X : Set, port X -> S -> res X * S) (config : ServiceConfig)
  (exc_text : exn -> string).

(** [_evaluate] without what observes it. *)
Definition evaluate_on (v : evaluation) : S -> res DecisionOutcome * S := fun s => (run env (evaluate config v) s).1.

(** [@traced_operation("decision") def _evaluate], in the bindings every entry
    point puts around it: the ids, then the tenant and the agent of the
    principal. *)
Definition observed_evaluate (v : evaluation) : comp (T * S) (option DecisionOutcome) :=
  bind_context {| cx_decision_id := Some (ev_decision_id v); cx_trace_id := Some (ev_trace_id v);
                  cx_tenant_id := None; cx_agent_ref := None |} (fun _ =>
  bind_context {| cx_decision_id := None; cx_trace_id := None; cx_tenant_id := Some (vp_tenant_id (ev_principal v));
                  cx_agent_ref := Some (vp_agent_ref (ev_principal v)) |} (fun _ '(c, ts) =>
    let '(r, ts') := traced_operation exc_text (context_as_dict c) "decision"
                       (fun '(t, s) => let '(o, s') := evaluate_on v s in (o, (t, s'))) ts in
    (option_of r, (c, ts')))).

(** The context in force while [_evaluate] runs. *)
Definition evaluation_context (c : CorrelationContext) (v : evaluation) : CorrelationContext :=
  merged_with (merged_with c
    {| cx_decision_id := Some (ev_decision_id v); cx_trace_id := Some (ev_trace_id v); cx_tenant_id := None; cx_agent_ref := None |})
    {| cx_decision_id := None; cx_trace_id := None; cx_tenant_id := Some (vp_tenant_id (ev_principal v));
       cx_agent_ref := Some (vp_agent_ref (ev_principal v)) |}.

Lemma observed_evaluate_computes `{!TracerLaws T} v c t s :
  exists t', observed_evaluate v (c, (t, s)) = (Some <$> (evaluate_on v s).1, (c, (t', (evaluate_on v s).2))).
Proof.
  unfold observed_evaluate, bind_context, traced_operation.
  destruct (traced_stage_computes exc_text (context_as_dict (evaluation_context c v)) "decision"
    (fun _ '(t, s) => let '(o, s') := evaluate_on v s in (o, (t, s'))) (evaluate_on v)) with (t := t) (s := s) as [t' Ht].
  { intros _ t0 s0. exists t0. by destruct (evaluate_on v s0). }
  exists t'. unfold evaluation_context in Ht. rewrite Ht. by destruct (evaluate_on v s) as [[a|e] s'].
Qed.
End observed.

Lemma dict_get_pair {A} (d : list (string * A)) k v : dict_get d k = Some v -> (k, v) ∈ d.
Proof.
  induction d as [|[k0 v0] d IH]; cbn; [done|]. destruct (String.eqb_spec k0 k) as [->|]; [|by right; auto].
  intros [= ->]. by left.
Qed.

(** A span shows what the context states. *)
Lemma opening_shows c k x stage :
  context_field c k = Some x -> Attribute ("glassbox." +:+ k) x ∈ stage_opening (context_as_dict c) stage.
Proof.
  rewrite <-get_context. intros H%dict_get_pair. unfold stage_opening. rewrite !elem_of_app. right. left.
  apply list_elem_of_fmap. by exists (k, x).
Qed.

(** What is stated while a decision is evaluated, whatever was bound before. *)
Lemma evaluation_states c v k x :
  (k, x) ∈ [("decision_id", ev_decision_id v); ("trace_id", ev_trace_id v);
            ("tenant_id", vp_tenant_id (ev_principal v)); ("agent_ref", vp_agent_ref (ev_principal v))] ->
  x <> "" -> context_field (evaluation_context c v) k = Some x.
Proof.
  intros Hk Hx. assert (str_is_empty x = false) by (by destruct x).
  repeat (apply elem_of_cons in Hk as [[= -> ->]|Hk]; [unfold evaluation_context; rewrite !field_merged; unfold some_or; cbn -[str_is_empty]; by rewrite ?H|]).
  by apply not_elem_of_nil in Hk.
Qed.

(** C37.  Observing a decision never changes it.  Whatever tracer is installed,
    as long as its calls return and its spans let exceptions through, the
    evaluation of a decision inside its context and its span returns or raises
    what it does unobserved, over any adapters, and leaves their state and the
    caller's context the same.  What the span shows is opened once with the
    context in force and closed once, marked as an error with the exception
    exactly when the evaluation raised; whatever was bound before, its attributes
    are the decision's own ids, tenant and agent, those that are not empty. *)
Theorem telemetry_never_decides {S} (env : forall X : Set, port X -> S -> res X * S) config exc_text v c s o s' trace :
  run env (evaluate config v) s = (o, s', trace) ->
  (forall (T : Type) (tracer : Tracer T) (laws : TracerLaws T) (t : T), exists t',
     observed_evaluate env config exc_text v (c, (t, s)) = (Some <$> o, (c, (t', s')))) /\
  forall t : list span_event,
    observed_evaluate env config exc_text v (c, (t, s)) =
    (Some <$> o, (c, (t ++ stage_opening (context_as_dict (evaluation_context c v)) "decision" ++
                      stage_closing exc_text (failure_of o), s'))) /\
    forall k x, (k, x) ∈ [("decision_id", ev_decision_id v); ("trace_id", ev_trace_id v);
                          ("tenant_id", vp_tenant_id (ev_principal v)); ("agent_ref", vp_agent_ref (ev_principal v))] ->
      x <> "" -> Attribute ("glassbox." +:+ k) x ∈ stage_opening (context_as_dict (evaluation_context c v)) "decision".
Proof.
  intros Hrun. assert (Ho : evaluate_on env config v s = (o, s')) by (unfold evaluate_on; by rewrite Hrun). split.
  - intros T tracer laws t. destruct (observed_evaluate_computes env config exc_text v c t s) as [t' Ht].
    exists t'. by rewrite Ht, Ho.
  - intros t. split; [|intros k x Hk Hx; by apply opening_shows, evaluation_states].
    unfold observed_evaluate, bind_context, traced_operation. fold (evaluation_context c v).
    rewrite (stage_recorded exc_text (context_as_dict (evaluation_context c v)) "decision" _ t s o [] s').
    + by destruct o.
    + by rewrite Ho, app_nil_r.
Qed.

(** The evaluation of a pre-built action on the sample runtime. *)
Definition sample_evaluation : evaluation :=
  {| ev_principal := dev_principal; ev_action := sample_action "x";
     ev_tool_registry_stage := {| so_stage := "tool_registry"; so_status := STAGE_SKIPPED; so_duration_ms := fz 0; so_reason := Some "pre-built" |};
     ev_tool_registry_denial := None;
     ev_catalogue_stage := {| so_stage := "catalogue"; so_status := STAGE_SKIPPED; so_duration_ms := fz 0; so_reason := Some "pre-built" |};
     ev_catalogue_denial := None; ev_decision_id := "d1"; ev_trace_id := "t1"; ev_causation_id := None;
     ev_provenance := no_provenance; ev_asserted_tenant_id := "t1"; ev_asserted_subject := ""; ev_now := fz 20;
     ev_suppress_dispatch := false; ev_sensitive_parameter_fields := ∅ |}.
Definition sample_env := memory_env sample_mint any_repr sample_effect.
Definition sample_evaluated := run sample_env (evaluate sample_config sample_evaluation) (sample_runtime [fz 5; fz 5]).

Lemma sample_evaluated_eq : sample_evaluated = (sample_evaluated.1.1, sample_evaluated.1.2, sample_evaluated.2).
Proof. by rewrite <-!surjective_pairing. Qed.

Lemma telemetry_never_decides_witness :
  is_ok sample_evaluated.1.1 = true /\
  (observed_evaluate sample_env sample_config exn_name sample_evaluation (no_context, ([], sample_runtime [fz 5; fz 5]))).2.2.1 =
    stage_opening [("decision_id", "d1"); ("trace_id", "t1"); ("tenant_id", "t1"); ("agent_ref", "agent-1")] "decision" ++ [Exited None].
Proof.
  assert (Hok : is_ok sample_evaluated.1.1 = true) by (vm_compute; reflexivity). split; [exact Hok|].
  pose proof (telemetry_never_decides sample_env sample_config exn_name sample_evaluation no_context
    (sample_runtime [fz 5; fz 5]) sample_evaluated.1.1 sample_evaluated.1.2 sample_evaluated.2 sample_evaluated_eq) as [_ H].
  rewrite (proj1 (H [])). destruct (sample_evaluated.1.1) as [out|e]; [reflexivity|discriminate Hok].
Defined.

(** ** Metrics *)

(** A meter: the no-op default, or one that was installed. *)
Inductive meter :=
| NullMeter
| InstalledMeter (id : nat).

Inductive instrument_kind := Counter | Histogram.
Record instrument := {
  in_meter : meter;
  in_kind : instrument_kind;
  in_name : string;
  in_unit : string
}.

Record GovernanceMetrics := {
  gm_stage_duration_ms : instrument;
  gm_denials_total : instrument;
  gm_fail_closed_total : instrument;
  gm_evidence_write_latency_ms : instrument;
  gm_chain_verification_total : instrument;
  gm_limit_rejections_total : instrument;
  gm_mandatory_stage_skipped_total : instrument
}.

Definition mk_GovernanceMetrics (m : meter) : GovernanceMetrics :=
  let counter name := {| in_meter := m; in_kind := Counter; in_name := name; in_unit := "" |} in
  let histogram name := {| in_meter := m; in_kind := Histogram; in_name := name; in_unit := "ms" |} in
  {| gm_stage_duration_ms := histogram "glassbox.stage.duration_ms";
     gm_denials_total := counter "glassbox.decisions.denied_total";
     gm_fail_closed_total := counter "glassbox.dependency.fail_closed_total";
     gm_evidence_write_latency_ms := histogram "glassbox.evidence.write_latency_ms";
     gm_chain_verification_total := counter "glassbox.evidence.chain_verification_total";
     gm_limit_rejections_total := counter "glassbox.limits.rejected_total";
     gm_mandatory_stage_skipped_total := counter "glassbox.stages.mandatory_skipped_total" |}.

(** What a meter is told: itself, the instrument, the amount and attributes. *)
Record measurement := {
  me_meter : nat;
  me_instrument : string;
  me_amount : float;
  me_attributes : list (string * string)
}.

(** [add] and [record]; the instruments of the no-op meter discard. *)
Definition measure (i : instrument) (amount : float) (attributes : list (string * string)) : list measurement :=
  match in_meter i with
  | NullMeter => []
  | InstalledMeter id => [{| me_meter := id; me_instrument := in_name i; me_amount := amount; me_attributes := attributes |}]
  end.

Definition record_denial (m : GovernanceMetrics) (reason : string) : list measurement :=
  measure (gm_denials_total m) (fz 1) [("reason", reason)].
Definition record_stage_duration (m : GovernanceMetrics) (stage : string) (duration_ms : float) (status : string) : list measurement :=
  measure (gm_stage_duration_ms m) duration_ms [("stage", stage); ("status", status)].

(** What [_evaluate] measures of a decision. *)
Definition decision_measurements (m : GovernanceMetrics) (action : ProposedAction) (d : AuthorizationDecision) : list measurement :=
  match ad_effect d with
  | DENY =>
      concat (map (fun reason =>
        record_denial m (denial_reason_value reason) ++
        match reason with
        | DEPENDENCY_UNAVAILABLE => measure (gm_fail_closed_total m) (fz 1) [("consequence", consequence_value (pa_consequence action))]
        | LIMIT_EXCEEDED => measure (gm_limit_rejections_total m) (fz 1) []
        | _ => []
        end) (ad_reasons d))
  | _ => []
  end.

(** ** The state of the module *)

Inductive tracer_installed :=
| NullTracerInstalled
| TracerInstalled (id : nat).

(** [_tracer] and [_meter]; [_configured]; the background exporters started; and
    the metrics [decision_service] built when it was imported. *)
Record telemetry := {
  tl_tracer : tracer_installed;
  tl_meter : meter;
  tl_configured : bool;
  tl_exporters : nat;
  tl_service_metrics : GovernanceMetrics
}.

(** [build_governance_metrics]. *)
Definition build_governance_metrics (given : option meter) (current : meter) : GovernanceMetrics :=
  mk_GovernanceMetrics (default current given).

(** The modules are imported before anything is configured. *)
Definition telemetry_init : telemetry :=
  {| tl_tracer := NullTracerInstalled; tl_meter := NullMeter; tl_configured := false; tl_exporters := 0;
     tl_service_metrics := build_governance_metrics None NullMeter |}.

Definition set_tracer (s : telemetry) (t : tracer_installed) : telemetry :=
  {| tl_tracer := t; tl_meter := tl_meter s; tl_configured := tl_configured s; tl_exporters := tl_exporters s;
     tl_service_metrics := tl_service_metrics s |}.
Definition set_meter (s : telemetry) (m : meter) : telemetry :=
  {| tl_tracer := tl_tracer s; tl_meter := m; tl_configured := tl_configured s; tl_exporters := tl_exporters s;
     tl_service_metrics := tl_service_metrics s |}.

(** The OpenTelemetry packages: not installed; installed and raising, before or
    after the span exporter was started; or working, as a backend. *)
Inductive otel_sdk :=
| OtelMissing
| OtelRaises (exporter_started : bool) (e : exn)
| OtelWorks (id : nat).

Definition configure_otel (sdk : otel_sdk) (s : telemetry) : res bool * telemetry :=
  if tl_configured s then (Ok true, s)
  else
    let exporting s := {| tl_tracer := tl_tracer s; tl_meter := tl_meter s; tl_configured := tl_configured s;
                          tl_exporters := Datatypes.S (tl_exporters s); tl_service_metrics := tl_service_metrics s |} in
    match sdk with
    | OtelMissing => (Ok false, s)
    | OtelRaises started e => (Raise e, if started then exporting s else s)
    | OtelWorks id =>
        let s1 := set_meter (set_tracer (exporting s) (TracerInstalled id)) (InstalledMeter id) in
        (Ok true, {| tl_tracer := tl_tracer s1; tl_meter := tl_meter s1; tl_configured := true;
                     tl_exporters := tl_exporters s1; tl_service_metrics := tl_service_metrics s1 |})
    end.

(** The process calls it any number of times. *)
Definition configure_all (sdks : list otel_sdk) (s : telemetry) : telemetry :=
  foldl (fun s sdk => (configure_otel sdk s).2) s sdks.

(** Once it has worked it changes nothing more. *)
Lemma configured_stays sdk s : tl_configured s = true -> configure_otel sdk s = (Ok true, s).
Proof. unfold configure_otel. by intros ->. Qed.

(** Without an SDK that raises, one exporter at most is ever started, and a real
    backend is in place exactly when the last call said so. *)
Lemma configure_all_once sdks :
  (forall b e, OtelRaises b e ∉ sdks) ->
  (tl_exporters (configure_all sdks telemetry_init) <= 1)%nat /\
  (tl_configured (configure_all sdks telemetry_init) = true <->
   exists id, tl_tracer (configure_all sdks telemetry_init) = TracerInstalled id /\
              tl_meter (configure_all sdks telemetry_init) = InstalledMeter id).
Proof.
  intros Hno. unfold configure_all.
  assert (Hinv : forall s, (tl_configured s = false -> tl_exporters s = 0%nat) -> (tl_exporters s <= 1)%nat ->
    (tl_configured s = true <-> exists id, tl_tracer s = TracerInstalled id /\ tl_meter s = InstalledMeter id) ->
    let s' := foldl (fun s sdk => (configure_otel sdk s).2) s sdks in
    (tl_exporters s' <= 1)%nat /\
    (tl_configured s' = true <-> exists id, tl_tracer s' = TracerInstalled id /\ tl_meter s' = InstalledMeter id)).
  { induction sdks as [|sdk sdks IH]; intros s H0 H1 H2; [done|]. cbn [foldl].
    assert (Hno' : forall b e, OtelRaises b e ∉ sdks) by (intros b e Hin; apply (Hno b e); by right).
    destruct (tl_configured s) eqn:Ec.
    - rewrite configured_stays by done. cbn [snd]. apply (IH Hno'); rewrite ?Ec; done.
    - unfold configure_otel. rewrite Ec. destruct sdk as [|b e|id]; cbn [snd]; [|destruct (Hno b e); by left|].
      + apply (IH Hno'); rewrite ?Ec; done.
      + apply (IH Hno'); cbn; [done|rewrite H0 by done; lia|]. split; [|done]. intros _. by exists id. }
  apply Hinv; cbn; [done|lia|]. split; [done|]. by intros (id & ? & _).
Qed.

(** Whatever is configured later, the service keeps the no-op instruments it was
    imported with: no denial is ever measured. *)
Theorem service_metrics_are_discarded sdks action d :
  decision_measurements (tl_service_metrics (configure_all sdks telemetry_init)) action d = [].
Proof.
  assert (H : tl_service_metrics (configure_all sdks telemetry_init) = tl_service_metrics telemetry_init).
  { unfold configure_all. generalize telemetry_init. induction sdks as [|sdk sdks IH]; intros s; [done|]. cbn [foldl].
    rewrite IH. unfold configure_otel. destruct (tl_configured s); [done|]. by destruct sdk as [|[]|]. }
  rewrite H. unfold decision_measurements. destruct (ad_effect d); try done.
  induction (ad_reasons d) as [|r rs IH]; [done|]. cbn [map concat]. rewrite IH, app_nil_r. by destruct r.
Qed.
