(* ===== verification/NullDispatcher.v ===== *)
(** * The replay dispatcher ([adapters/outbound/replay.py])

    A dispatcher that refuses every call, and why a runtime for replays may be
    wired with it: no replay ever notices. *)

From stdpp Require Import base tactics list strings.
From Stdlib Require Import ZArith Lia.
From S2P Require Import Prelude PyFloat PyStr Serialization Action Identity Decision Evidence Ports DecisionService DecisionSafety Mediation.

Open Scope string_scope.
Open Scope list_scope.

(** [NullDispatcher.dispatch]. *)
Definition null_dispatch (action : ProposedAction) (receipt : EvidenceReceipt) (timeout_s now : float) : res ExecutionOutcome :=
  Raise (PyException "AssertionError").

Section replay_only.
Context {S : Type} (env : forall X : Set, port X -> S -> res X * S).

(** The same runtime with the dispatcher replaced. *)
Definition replay_env (X : Set) (p : port X) : S -> res X * S :=
  match p with
  | Dispatch a rc ts now => fun s => (null_dispatch a rc ts now, s)
  | q => env _ q
  end.

Lemma run_same_outside {A} (env' : forall X : Set, port X -> S -> res X * S) (C : call_class) (p : prog A) s o s' t :
  (forall X (q : port X) x, C _ q = false -> env' X q x = env X q x) ->
  run env p s = (o, s', t) -> free_of C t -> run env' p s = (o, s', t).
Proof.
  intros Hsame. revert s o s' t. induction p as [a|e|X q k IH]; intros s o s' t; cbn [run]; [done|done|].
  destruct (env X q s) as [r s1] eqn:E. destruct (run env (k r) s1) as [[o2 s2] t2] eqn:E2.
  intros [= <- <- <-] [Hq Ht]%Forall_cons. rewrite Hsame by exact Hq. rewrite E.
  by rewrite (IH _ _ _ _ _ E2 Ht).
Qed.

(** A replay does the same over the runtime with the null dispatcher. *)
Lemma null_dispatcher_suffices config p a tr di ca pr now s :
  run replay_env (serve config (Replay p a tr di ca pr now)) s = run env (serve config (Replay p a tr di ca pr now)) s.
Proof.
  destruct (run env (serve config (Replay p a tr di ca pr now)) s) as [[o s'] t] eqn:E.
  apply (run_same_outside replay_env is_dispatch _ _ _ _ _) in E as ->; [done|by intros X q x; destruct q|].
  pose proof (run_exec _ _ _ _ _ _ E) as Hx.
  apply Forall_forall. intros e He. destruct (event_in is_dispatch e) eqn:Ed; [|done].
  apply list_elem_of_split in He as (t1 & t2 & ->). destruct e as [X q r]. destruct q; try discriminate Ed.
  by destruct (dispatch_inv _ _ _ _ _ _ _ _ _ _ _ Hx eq_refl) as [? _].
Qed.
End replay_only.
