(* ===== verification/HttpApp.v ===== *)
(** * The HTTP application ([adapters/inbound/http/app.py])

    Each route as a program over the ports (actions, tools, replay) or a step of
    the review engine (approvals), behind the request-rate guard.  Flask is what
    is around it: a request comes with the rule it matched and its body as
    [get_json(silent=True)] reads it, and an exception a view does not handle
    becomes Flask's own answer of status 500. *)

From stdpp Require Import base tactics list strings gmap.
From Stdlib Require Import ZArith Lia.
From S2P Require Import Prelude PyFloat PyStr Serialization Action Identity Risk Decision Config Payload Evidence PgEvidence HttpAdmission Jws Errors Workflow ApprovalService Dispatch Ports DecisionService DecisionSafety Mediation MemoryRuntime Pool.

Open Scope string_scope.
Open Scope list_scope.

(** ** Requests and replies *)

(** The routes of [create_app], with the part of the path they bind. *)
Inductive endpoint :=
| Healthz
| DecideAction (action_name : string)
| InvokeTool (tool_name : string)
| ReplayRoute
| ListPending
| GetStatus (decision_id : string)
| Approve (decision_id : string)
| Reject (decision_id : string)
| Escalate (decision_id : string)
| Revoke (decision_id : string).

(** [rq_rule]: the route, or the status of Flask where none matches. *)
Record Request := {
  rq_path : string;
  rq_rule : endpoint + Z;
  rq_remote_addr : option string;
  rq_authorization : option string;
  rq_client_cert : option string;
  rq_tenant_id : option string;
  rq_subject_id : option string;
  rq_json : option json
}.

(** [ErrorBody] is [exc.as_dict()] without message and context. *)
Inductive body :=
| Fields (v : pyval)
| ErrorBody (error_class code : string)
| NoBody.

Record reply := { rp_status : Z; rp_body : body; rp_retry_after : option Z }.
Definition answer (status : Z) (b : body) : reply := {| rp_status := status; rp_body := b; rp_retry_after := None |}.

Definition ERROR_STATUS : list (string * Z) :=
  [("IdentityError", 401); ("CredentialExpiredError", 401); ("DelegationError", 401);
   ("DomainValidationError", 400); ("EvidenceWriteError", 503); ("SigningUnavailableError", 503);
   ("ApprovalNotFoundError", 404); ("ApprovalGatewayUnavailableError", 503); ("ApprovalTransitionError", 409)]%Z.

Definition error_status (class_name : string) : Z := default 500%Z (dict_get ERROR_STATUS class_name).

Definition error_response (e : exn) : reply :=
  answer (error_status (exn_name e)) (ErrorBody (exn_name e) (from_option Class.code "" (class_of e))).

(** [except GlassBoxError as exc: return _error_response(exc)]. *)
Definition handled (e : exn) : res reply := if is_glassbox_error e then Ok (error_response e) else Raise e.
Definition caught {A} (r : res A) (f : A -> reply) : res reply :=
  match r with Ok a => Ok (f a) | Raise e => handled e end.

(** ** Reading a request *)

Fixpoint py_of_json (j : json) : pyval :=
  match j with
  | JNull => PNone
  | JBool b => PBool b
  | JInt z => PInt z
  | JFloat x => PFloat x
  | JStr s => PStr s
  | JArr l => PList (map py_of_json l)
  | JObj items => PDict (map (fun kv => (PStr kv.1, py_of_json kv.2)) items)
  end.

Abbreviation fields := (list (string * json)).

Definition json_body (rq : Request) : res fields :=
  match rq_json rq with Some (JObj items) => Ok items | _ => Raise (DomainValidationError "") end.

Definition mapping (v : option json) : fields := match v with Some (JObj items) => items | _ => [] end.

Definition require_str (b : fields) (key : string) : res string :=
  match dict_get b key with
  | Some (JStr s) => if str_is_empty s then Raise (DomainValidationError key) else Ok s
  | _ => Raise (DomainValidationError key)
  end.

(** What may be an identifier or [None]: any other value fails its check, as a
    blank text does. *)
Definition identifier_or_none (v : option json) : option string :=
  match v with
  | None | Some JNull => None
  | Some (JStr s) => Some s
  | Some _ => Some ""
  end.

Definition BEARER : string := "Bearer ".

Definition credential_from (rq : Request) (now : float) : res RawCredential :=
  let auth := default "" (rq_authorization rq) in
  if startswith BEARER auth
  then mk_RawCredential OIDC (str_drop (String.length BEARER) auth) now
  else match rq_client_cert rq with
       | Some cert => if str_is_empty cert then Raise IdentityError else mk_RawCredential MTLS cert now
       | None => Raise IdentityError
       end.

Definition resource_from (b : fields) : res ResourceRef :=
  let raw := mapping (dict_get b "resource") in
  match raw with
  | [] => Raise (DomainValidationError "resource")
  | _ =>
      kind ← require_str raw "kind";
      id ← require_str raw "id";
      tenant_id ← require_str raw "tenant_id";
      mk_ResourceRef kind id tenant_id
  end.

Definition parameters_from (b : fields) : list (string * pyval) :=
  map (fun kv => (kv.1, py_of_json kv.2)) (mapping (dict_get b "parameters")).

Definition exposure_from (b : fields) : res Exposure :=
  let raw := mapping (dict_get b "exposure") in
  exposure_of (dict_get raw "blast_radius") (dict_get raw "monetary") (dict_get raw "records").

Definition credential_type_of : json -> res CredentialType := enum_of credential_type_value [SPIFFE; OIDC; MTLS].

Definition time_from (raw : fields) (key : string) : res float :=
  match dict_get raw key with None => Ok (fz 0) | Some v => float_of_json v end.

Definition principal_from (raw : fields) : res VerifiedPrincipal :=
  agent_ref ← require_str raw "agent_ref";
  agent_instance_id ← require_str raw "agent_instance_id";
  tenant_id ← require_str raw "tenant_id";
  ct ← require_str raw "credential_type";
  credential_type ← credential_type_of (JStr ct);
  credential_id ← require_str raw "credential_id";
  issued_at ← time_from raw "issued_at";
  expires_at ← time_from raw "expires_at";
  mk_VerifiedPrincipal agent_ref agent_instance_id tenant_id credential_type credential_id issued_at expires_at
    (identifier_or_none (dict_get raw "delegating_subject")) {| hops := [] |} (AsTuple []).

Definition action_from (raw : fields) : res ProposedAction :=
  action ← require_str raw "action";
  resource ← resource_from raw;
  c ← require_str raw "consequence";
  consequence ← consequence_of (JStr c);
  exposure ← exposure_from raw;
  idempotency_key ← require_str raw "idempotency_key";
  mk_ProposedAction action resource consequence exposure idempotency_key
    (AsTuple (sort_by fst (parameters_from raw))).

(** [int(v)]. *)
Definition int_arg (v : json) : res Z :=
  match v with
  | JInt z => Ok z
  | JBool b => Ok (if b then 1 else 0)%Z
  | JFloat x => match trunc x with Some z => Ok z | None => if is_nan x then Raise PyValueError else Raise PyOverflowError end
  | JStr s => match int_of_text s with Some z => Ok z | None => Raise PyValueError end
  | _ => Raise PyTypeError
  end.

(** ** Shaping a reply *)

Definition serialise (out : DecisionOutcome) : pyval :=
  let rc := do_receipt out in
  let ex := do_execution out in
  pdict [("decision_id", PStr (do_decision_id out));
         ("decision", decision_as_evidence (do_decision out));
         ("receipt", pdict [("decision_id", PStr (rc_decision_id rc)); ("segment_id", PStr (rc_segment_id rc));
                            ("seq", PInt (rc_seq rc)); ("signer_key_id", PStr (rc_signer_key_id rc));
                            ("persisted_at", PFloat (rc_persisted_at rc))]);
         ("execution", pdict [("status", PStr (execution_status_value (eo_status ex)));
                              ("completed_at", PFloat (eo_completed_at ex));
                              ("result_digest", p_str_opt (eo_result_digest ex));
                              ("error_class", p_str_opt (eo_error_class ex))])].

Definition status_for (out : DecisionOutcome) : Z :=
  if is_denied (do_decision out) then 403
  else if bool_decide (eo_status (do_execution out) = PENDING_APPROVAL) then 202
  else 200.

(** ** The views *)

Record App := { ap_admission : option HttpAdmissionController; ap_engine : wired }.
Definition with_admission (a : App) (c : HttpAdmissionController) : App :=
  {| ap_admission := Some c; ap_engine := ap_engine a |}.
Definition with_engine (a : App) (en : wired) : App := {| ap_admission := ap_admission a; ap_engine := en |}.

(** [create_app]: the guard is there when the configuration enables it; Flask
    is given what follows. *)
Definition create_app (enabled : bool) (max_requests : Z) (window_seconds : float) (engine : wired) : res App :=
  if enabled then
    c ← mk_HttpAdmissionController max_requests window_seconds 50000;
    Ok {| ap_admission := Some c; ap_engine := engine |}
  else Ok {| ap_admission := None; ap_engine := engine |}.

(** An exception of a view, as a value: what Flask sees. *)
Definition catch {A} (p : prog A) : prog (res A) := try_except (a ← p; Ret (Ok a)) (fun e => Ret (Raise e)).

Section app.
Context (config : ServiceConfig) (mint : nat -> string).
(** [runtime.describe()], and how the engine keeps a note that is not text. *)
Context (description : json) (other_note : json -> string).

Definition guarded (p : prog reply) : prog reply := try_except p (fun e => lift (handled e)).

Definition context_from (rq : Request) (b : fields) : call_context :=
  {| cc_trace_id := None; cc_decision_id := None; cc_causation_id := identifier_or_none (dict_get b "causation_id");
     cc_provenance := None; cc_asserted_tenant_id := default "" (rq_tenant_id rq);
     cc_asserted_subject := default "" (rq_subject_id rq) |}.

Definition outcome_reply (out : DecisionOutcome) : reply := answer (status_for out) (Fields (serialise out)).

Definition decide_action (rq : Request) (action_name : string) : prog reply :=
  guarded (
    b ← lift (json_body rq);
    now ← call ClockNow;
    credential ← lift (credential_from rq now);
    resource ← lift (resource_from b);
    idempotency_key ← lift (require_str b "idempotency_key");
    out ← serve config (ForRequest credential action_name resource (parameters_from b) idempotency_key (context_from rq b));
    Ret (outcome_reply out)).

Definition invoke_tool (rq : Request) (tool_name : string) : prog reply :=
  guarded (
    b ← lift (json_body rq);
    now ← call ClockNow;
    credential ← lift (credential_from rq now);
    definition_sha256 ← lift (require_str b "definition_sha256");
    resource ← lift (resource_from b);
    idempotency_key ← lift (require_str b "idempotency_key");
    out ← serve config (ForToolCall credential tool_name definition_sha256 resource (parameters_from b) idempotency_key
                          (context_from rq b));
    Ret (outcome_reply out)).

Definition replay_view (rq : Request) : prog reply :=
  guarded (
    b ← lift (json_body rq);
    principal ← lift (principal_from (mapping (dict_get b "principal")));
    action ← lift (action_from (mapping (dict_get b "action")));
    out ← serve config (Replay principal action None None (identifier_or_none (dict_get b "causation_id")) None None);
    Ret (answer 200 (Fields (serialise out)))).

(** *** Approvals *)

Definition record_reply (r : ApprovalRecord) : reply := answer 200 (Fields (py_of_json (ApprovalRecord_as_evidence r))).

Definition list_pending_approvals (at_ : instant) (en : wired) : res reply :=
  caught (list_pending at_ en) (fun records =>
    answer 200 (Fields (pdict [("pending", PList (map (fun r => py_of_json (ApprovalRecord_as_evidence r)) records))]))).

Definition get_approval_status (at_ : instant) (en : wired) (decision_id : string) : res reply :=
  caught (get_status at_ en decision_id) (fun r =>
    match r with
    | Some rec => record_reply rec
    | None => answer 404 (Fields (pdict [("error_class", PStr "ApprovalNotFoundError"); ("decision_id", PStr decision_id)]))
    end).

Definition notes_from (b : fields) : string :=
  match dict_get b "notes" with None => "" | Some (JStr s) => s | Some v => other_note v end.

Definition approve_call (decision_id : string) (b : fields) : res approval_call :=
  actor ← require_str b "actor";
  min_approvers ← int_arg (default (JInt 1) (dict_get b "min_approvers"));
  Ok (SApprove decision_id actor (notes_from b) min_approvers).
Definition reject_call (decision_id : string) (b : fields) : res approval_call :=
  actor ← require_str b "actor";
  Ok (SReject decision_id actor (notes_from b)).
Definition escalate_call (decision_id : string) (b : fields) : res approval_call :=
  actor ← require_str b "actor";
  escalate_to ← require_str b "escalate_to";
  Ok (SEscalate decision_id actor escalate_to (notes_from b)).
Definition revoke_call (decision_id : string) (b : fields) : res approval_call :=
  actor ← require_str b "actor";
  Ok (SRevoke decision_id actor (notes_from b)).

Definition approval_view (at_ : instant) (rq : Request) (read : fields -> res approval_call) (en : wired)
    : res reply * wired :=
  match b ← json_body rq; read b with
  | Raise e => (handled e, en)
  | Ok c => let '(r, en') := run_call mint at_ c en in (caught r record_reply, en')
  end.

(** *** A request *)

Definition view (at_ : instant) (rq : Request) (app : App) : prog (res reply * App) :=
  let stateless p := r ← catch p; Ret (r, app) in
  let reviewed x := Ret (x.1, with_engine app x.2) in
  match rq_rule rq with
  | inr status => Ret (Ok (answer status NoBody), app)
  | inl Healthz => Ret (Ok (answer 200 (Fields (py_of_json description))), app)
  | inl (DecideAction n) => stateless (decide_action rq n)
  | inl (InvokeTool n) => stateless (invoke_tool rq n)
  | inl ReplayRoute => stateless (replay_view rq)
  | inl ListPending => Ret (list_pending_approvals at_ (ap_engine app), app)
  | inl (GetStatus d) => Ret (get_approval_status at_ (ap_engine app) d, app)
  | inl (Approve d) => reviewed (approval_view at_ rq (approve_call d) (ap_engine app))
  | inl (Reject d) => reviewed (approval_view at_ rq (reject_call d) (ap_engine app))
  | inl (Escalate d) => reviewed (approval_view at_ rq (escalate_call d) (ap_engine app))
  | inl (Revoke d) => reviewed (approval_view at_ rq (revoke_call d) (ap_engine app))
  end.

Definition client_key (rq : Request) : string :=
  match rq_remote_addr rq with Some a => if str_is_empty a then "unknown" else a | None => "unknown" end.

(** The refusal of [_enforce_admission]. *)
Definition too_many (retry_after_s : float) : res reply :=
  match int_arg (JFloat retry_after_s) with
  | Ok z => Ok {| rp_status := 429;
                  rp_body := Fields (pdict [("error_class", PStr "AdmissionRejected");
                                            ("message", PStr "request rate limit exceeded");
                                            ("retry_after_s", PFloat retry_after_s)]);
                  rp_retry_after := Some (z + 1)%Z |}
  | Raise e => Raise e
  end.

(** [before_request]: an answer, or [None] to go on. *)
Definition enforce_admission (rq : Request) (app : App) : prog (option (res reply) * App) :=
  match ap_admission app with
  | None => Ret (None, app)
  | Some c =>
      if (rq_path rq =? "/healthz")%string then Ret (None, app)
      else
        now ← attempt ClockNow;
        match now with
        | Raise e => Ret (Some (Raise e), app)
        | Ok now =>
            let '(v, c') := check c (client_key rq) now in
            Ret (match v with
                 | Raise e => Some (Raise e)
                 | Ok v => if av_admitted v then None else Some (too_many (av_retry_after_s v))
                 end, with_admission app c')
        end
  end.

Definition handle (at_ : instant) (rq : Request) (app : App) : prog (res reply * App) :=
  x ← enforce_admission rq app;
  match x with
  | (Some r, app') => Ret (r, app')
  | (None, app') => view at_ rq app'
  end.

(** ** What a run of a view is *)

Lemma exec_catch {A} (p : prog A) t o : exec (catch p) t o -> exists r, exec p t r /\ o = Ok r.
Proof.
  intros [(a & H & ->)|(e & t1 & t2 & -> & H & H2)]%exec_try_inv.
  - apply exec_bind_inv in H as [(? & _ & ?)|(a' & t1 & t2 & -> & H1 & H2)]; [done|].
    apply exec_ret_inv in H2 as (-> & [= ->]). rewrite app_nil_r. by exists (Ok a').
  - apply exec_ret_inv in H2 as (-> & ->). rewrite app_nil_r. exists (Raise e). split; [|done].
    apply exec_bind_inv in H as [(? & H & [= ->])|(a' & t3 & t4 & -> & _ & H2)]; [done|].
    by apply exec_ret_inv in H2 as (_ & ?).
Qed.

Lemma exec_guarded p t r :
  exec (guarded p) t r -> exists o, exec p t o /\ r = match o with Ok a => Ok a | Raise e => handled e end.
Proof.
  intros [(a & H & ->)|(e & t1 & t2 & -> & H & H2)]%exec_try_inv; [by exists (Ok a)|].
  apply exec_lift_inv in H2 as (-> & ->). rewrite app_nil_r. by exists (Raise e).
Qed.

(** Calls of other ports than the clock. *)
Definition not_clock : call_class := fun X p => match p with ClockNow => false | _ => true end.
Definition clock_only (t : list event) : Prop := free_of not_clock t.

Lemma clock_only_dispatch t : clock_only t -> free_of is_dispatch t.
Proof. intros H. eapply Forall_impl; [exact H|]. intros [X p r]. by destruct p. Qed.

(** A view reads its request, with no other port than the clock, into one call
    of the service, and answers by its result; or it answers that the request
    cannot be read. *)
Inductive viewed (P : service_call -> Prop) (f : DecisionOutcome -> reply) (t : list event) (r : res reply) : Prop :=
| Unreadable e : clock_only t -> r = handled e -> viewed P f t r
| Served sc t1 t2 o :
    t = t1 ++ t2 -> clock_only t1 -> P sc -> exec (serve config sc) t2 o -> r = caught o f -> viewed P f t r.

(** One more step of reading the request. *)
Lemma viewed_bind {A} P f (p : prog A) (k : A -> prog reply) t0 t o :
  clock_only t0 -> never not_clock p -> exec (p ≫= k) t o ->
  (forall a t1 t2, exec p t1 (Ok a) -> clock_only (t0 ++ t1) -> exec (k a) t2 o ->
     viewed P f ((t0 ++ t1) ++ t2) (match o with Ok x => Ok x | Raise e => handled e end)) ->
  viewed P f (t0 ++ t) (match o with Ok x => Ok x | Raise e => handled e end).
Proof.
  intros F0 Hn H Hk. apply exec_bind_inv in H as [(e & H & ->)|(a & t1 & t2 & -> & H1 & H2)].
  - apply (Unreadable _ _ _ _ e); [|done]. apply free_of_app. split; [done|]. by eapply never_free.
  - rewrite app_assoc. apply (Hk a); try done. apply free_of_app. split; [done|]. by eapply never_free.
Qed.

Lemma viewed_serve (P : service_call -> Prop) f sc t0 t o :
  clock_only t0 -> P sc -> exec (out ← serve config sc; Ret (f out)) t o ->
  viewed P f (t0 ++ t) (match o with Ok x => Ok x | Raise e => handled e end).
Proof.
  intros F0 Hsc [(e & H & ->)|(out & t1 & t2 & -> & H1 & H2)]%exec_bind_inv.
  - by apply (Served _ _ _ _ sc t0 t (Raise e)).
  - apply exec_ret_inv in H2 as (-> & ->). rewrite app_nil_r. by apply (Served _ _ _ _ sc t0 t1 (Ok out)).
Qed.

(** The credential of a call is the one the request carries. *)
Definition presented (rq : Request) (cr : RawCredential) : Prop :=
  (rc_credential_type cr = OIDC /\ rq_authorization rq = Some (BEARER +:+ rc_material cr)) \/
  (rc_credential_type cr = MTLS /\ rq_client_cert rq = Some (rc_material cr)).

Lemma substring_all s : String.substring 0 (String.length s) s = s.
Proof. induction s as [|c s IH]; cbn; [done|]. by rewrite IH. Qed.

Lemma startswith_drop p s : startswith p s = true -> s = p +:+ str_drop (String.length p) s.
Proof.
  unfold str_drop. revert s. induction p as [|a p IH]; intros s.
  { intros _. cbn [String.length String.append]. by rewrite Nat.sub_0_r, substring_all. }
  destruct s as [|b s]; cbn [startswith]; [done|]. intros [->%Ascii.eqb_eq H]%andb_true_iff.
  cbn [String.length String.append String.substring Nat.sub]. f_equal. by apply IH.
Qed.

Lemma credential_from_presented rq now cr : credential_from rq now = Ok cr -> presented rq cr.
Proof.
  unfold credential_from. destruct (startswith _ _) eqn:E.
  - destruct (rq_authorization rq) as [auth|] eqn:Ea; [|done]. cbn [default from_option id] in E |- *.
    unfold mk_RawCredential. intros H. inv_ok. subst cr. left. split; [done|]. cbn [rc_material].
    rewrite Ea. f_equal. by apply startswith_drop.
  - destruct (rq_client_cert rq) as [cert|] eqn:Ec; [|done]. destruct (str_is_empty cert); [done|].
    unfold mk_RawCredential. intros H. inv_ok. subst cr. by right.
Qed.

(** Apply [viewed_bind] to the first step of a run that goes on after [t0]. *)
Ltac view_step H :=
  eapply viewed_bind; [first [assumption | by apply Forall_nil] | | exact H | clear H; intros ? ? ? ? ? H; cbv beta in H];
  [solve [solve_never]|].
Ltac solve_view H := repeat view_step H; eapply viewed_serve; [assumption | | exact H].

(** A service call made for the caller of the request, its decision id left to
    the service. *)
Definition on_behalf (rq : Request) (name : string) (sc : service_call) : Prop :=
  match sc with
  | ForRequest cr n _ _ _ c | ForToolCall cr n _ _ _ _ c =>
      n = name /\ presented rq cr /\ cc_decision_id c = None
  | _ => False
  end.

Lemma lift_inv_ok {A} (m : res A) t a : exec (lift m) t (Ok a) -> m = Ok a.
Proof. by intros [_ ->]%exec_lift_inv. Qed.

Lemma decide_action_viewed rq n t r :
  exec (decide_action rq n) t r -> viewed (on_behalf rq n) outcome_reply t r.
Proof.
  intros (o & H & ->)%exec_guarded. change t with ([] ++ t).
  solve_view H. split_and!; [done| |done]. eapply credential_from_presented, lift_inv_ok; eassumption.
Qed.

Lemma invoke_tool_viewed rq n t r :
  exec (invoke_tool rq n) t r -> viewed (on_behalf rq n) outcome_reply t r.
Proof.
  intros (o & H & ->)%exec_guarded. change t with ([] ++ t).
  solve_view H. split_and!; [done| |done]. eapply credential_from_presented, lift_inv_ok; eassumption.
Qed.

Lemma replay_viewed rq t r :
  exec (replay_view rq) t r ->
  viewed (fun sc => is_replay sc = true /\ unnamed sc = true) (fun out => answer 200 (Fields (serialise out))) t r.
Proof.
  intros (o & H & ->)%exec_guarded. change t with ([] ++ t). by solve_view H.
Qed.

(** The guard let the request through. *)
Definition admitted (rq : Request) (app : App) (t : list event) : Prop :=
  forall c, ap_admission app = Some c -> rq_path rq <> "/healthz" ->
  exists now v, t = [Ev ClockNow (Ok now)] /\ (check c (client_key rq) now).1 = Ok v /\ av_admitted v = true.

Lemma enforce_admission_inv rq app t x app' :
  exec (enforce_admission rq app) t (Ok (x, app')) ->
  clock_only t /\ ap_engine app' = ap_engine app /\
  match x with None => admitted rq app t | Some r => forall p, r = Ok p -> rp_status p = 429%Z end.
Proof.
  unfold enforce_admission, admitted. destruct (ap_admission app) as [c|] eqn:Ec.
  2:{ intros (-> & [= -> ->])%exec_ret_inv. split_and!; [constructor|done|]. congruence. }
  destruct (String.eqb_spec (rq_path rq) "/healthz") as [Hp|Hp].
  { intros (-> & [= -> ->])%exec_ret_inv. split_and!; [constructor|done|]. congruence. }
  intros [(? & [? [? ?]]%exec_attempt & ?)|(now & t1 & t2 & -> & (r & -> & [= ->])%exec_attempt & H)]%exec_bind_inv; [done|].
  destruct r as [now|e].
  2:{ apply exec_ret_inv in H as (-> & [= -> ->]). split_and!; [by repeat constructor|done|done]. }
  destruct (check c (client_key rq) now) as [v c'] eqn:E. apply exec_ret_inv in H as (-> & [= -> ->]).
  split_and!; [by repeat constructor|done|]. destruct v as [v|e]; [|done].
  destruct (av_admitted v) eqn:Ea.
  - intros c0 [= <-] _. exists now, v. by rewrite E.
  - intros p. unfold too_many. destruct (int_arg _); [|done]. by intros [= <-].
Qed.

Inductive handling (at_ : instant) (rq : Request) (app : App) (t : list event) (r : res reply) (app' : App) : Prop :=
| TurnedAway : clock_only t -> ap_engine app' = ap_engine app -> (forall p, r = Ok p -> rp_status p = 429%Z) ->
    handling at_ rq app t r app'
| Viewed t1 t2 app1 : t = t1 ++ t2 -> clock_only t1 -> admitted rq app t1 -> ap_engine app1 = ap_engine app ->
    exec (view at_ rq app1) t2 (Ok (r, app')) -> handling at_ rq app t r app'.

Lemma handle_inv at_ rq app t r app' : exec (handle at_ rq app) t (Ok (r, app')) -> handling at_ rq app t r app'.
Proof.
  intros [(? & _ & ?)|([x app1] & t1 & t2 & -> & H1 & H2)]%exec_bind_inv; [done|].
  apply enforce_admission_inv in H1 as (Hc & Ha & Hx). destruct x as [r1|].
  - apply exec_ret_inv in H2 as (-> & [= -> ->]). rewrite app_nil_r. by apply TurnedAway.
  - by apply (Viewed _ _ _ _ _ _ t1 t2 app1).
Qed.

(** ** What a reply says *)

Lemma error_status_range c : (error_status c = 400 \/ error_status c = 401 \/ error_status c = 404 \/
  error_status c = 409 \/ error_status c = 500 \/ error_status c = 503)%Z.
Proof. unfold error_status, ERROR_STATUS. cbn [dict_get]. repeat case_match; cbn; tauto. Qed.

Lemma handled_status e p : handled e = Ok p -> (rp_status p <> 200 /\ rp_status p <> 202 /\ rp_status p <> 403 /\ rp_status p <> 429)%Z.
Proof.
  unfold handled. destruct (is_glassbox_error e); [|done]. intros [= <-].
  change (rp_status (error_response e)) with (error_status (exn_name e)).
  pose proof (error_status_range (exn_name e)). lia.
Qed.

Lemma status_for_denied out : status_for out = 403%Z <-> ad_effect (do_decision out) = DENY.
Proof.
  unfold status_for, is_denied. case_bool_decide; [done|]. case_bool_decide; split; congruence.
Qed.
Lemma status_for_range out : (status_for out = 403 \/ status_for out = 202 \/ status_for out = 200)%Z.
Proof. unfold status_for. repeat case_match; tauto. Qed.

(** The routes that do not decide: no refusal of theirs is 403 or 429. *)
Definition undecided (p : reply) : Prop := rp_status p <> 403%Z /\ rp_status p <> 429%Z.

Lemma handled_undecided e p : handled e = Ok p -> undecided p.
Proof. intros H%handled_status. unfold undecided. lia. Qed.
Lemma caught_undecided {A} (m : res A) f p : (forall a, undecided (f a)) -> caught m f = Ok p -> undecided p.
Proof. intros Hf. destruct m; cbn [caught]; [|apply handled_undecided]. intros [= <-]. apply Hf. Qed.

Lemma approval_view_undecided at_ rq rd en p : (approval_view at_ rq rd en).1 = Ok p -> undecided p.
Proof.
  unfold approval_view. destruct (json_body rq ≫= rd) as [c|e]; cbn [fst]; [|apply handled_undecided].
  destruct (run_call mint at_ c en) as [m en']. cbn [fst]. by apply caught_undecided.
Qed.

(** The routes that call the service. *)
Definition decision_route (rq : Request) (t : list event) (r : res reply) : Prop :=
  (exists n, (rq_rule rq = inl (DecideAction n) \/ rq_rule rq = inl (InvokeTool n)) /\
     viewed (on_behalf rq n) outcome_reply t r) \/
  (rq_rule rq = inl ReplayRoute /\
     viewed (fun sc => is_replay sc = true /\ unnamed sc = true) (fun out => answer 200 (Fields (serialise out))) t r).

Lemma exec_stateless (p : prog reply) (app : App) t r app' :
  exec (r0 ← catch p; Ret (r0, app)) t (Ok (r, app')) -> exec p t r /\ app' = app.
Proof.
  intros [(? & _ & ?)|(r0 & t1 & t2 & -> & (r1 & H & [= ->])%exec_catch & H2)]%exec_bind_inv; [done|].
  apply exec_ret_inv in H2 as (-> & [= -> ->]). by rewrite app_nil_r.
Qed.

Lemma view_inv at_ rq app t r app' :
  exec (view at_ rq app) t (Ok (r, app')) ->
  (decision_route rq t r /\ app' = app) \/
  (t = [] /\ forall ep, rq_rule rq = inl ep ->
     (forall p, r = Ok p -> undecided p) /\ forall n, ep <> DecideAction n /\ ep <> InvokeTool n).
Proof.
  unfold view, decision_route. destruct (rq_rule rq) as [ep|s]; [destruct ep|];
    try (intros (-> & [= -> _])%exec_ret_inv; right; split; [done|]; intros ? [= <-]; split; [intros p Hp|done]);
    try (intros (H & ->)%exec_stateless; left; (split; [|done])).
  - injection Hp as <-. by split.
  - left. exists action_name. split; [by left|]. by eapply decide_action_viewed.
  - left. exists tool_name. split; [by right|]. by eapply invoke_tool_viewed.
  - right. split; [done|]. by eapply replay_viewed.
  - eapply caught_undecided; [|done]. by split.
  - eapply caught_undecided; [|done]. intros []; by split.
  - by eapply approval_view_undecided.
  - by eapply approval_view_undecided.
  - by eapply approval_view_undecided.
  - by eapply approval_view_undecided.
  - intros (-> & _)%exec_ret_inv. right. split; [done|]. by intros ep [=].
Qed.

(** A grant to the caller of a request was authenticated by what the request carries. *)
Lemma on_behalf_authenticated rq n sc t o rec x :
  on_behalf rq n sc -> exec (serve config sc) t o -> Ev (AppendIntent rec) x ∈ t ->
  ad_effect (ir_decision rec) <> DENY -> exists cr, presented rq cr /\ authenticated t cr rec.
Proof.
  intros Hb H Hin Hg. destruct (granted_origin _ _ _ _ _ _ H Hin Hg) as (v & t0 & Hs & Ho & _ & _ & Hp & Hn & Hr).
  destruct sc as [|cr ? ? ? ? ?|cr ? ? ? ? ? ?|]; [done| | |done]; destruct Hb as (_ & Hb & _), Ho as [Hv _];
    exists cr; (split; [done|]); by eapply authenticated_intro.
Qed.

Lemma dispatched_not_denied sc t out t1 t2 a rc ts now x :
  exec (serve config sc) t (Ok out) -> t = t1 ++ Ev (Dispatch a rc ts now) x :: t2 ->
  ad_effect (do_decision out) = ALLOW.
Proof.
  intros H Ht. destruct (dispatch_inv _ _ _ _ _ _ _ _ _ _ _ H Ht) as (_ & _ & _ & rec & F & Hin & Hall & _).
  destruct (outcome_inv _ _ _ _ H) as (rec' & _ & Hone & Hd & _).
  destruct (Hone rec (Ok rc)) as [-> _]; [rewrite Ht; apply elem_of_app; by left|]. by rewrite <-Hd.
Qed.

Lemma dispatch_after_clock t1 t2 u1 a rc ts now x u2 :
  clock_only t1 -> t1 ++ t2 = u1 ++ Ev (Dispatch a rc ts now) x :: u2 ->
  exists u, u1 = t1 ++ u /\ t2 = u ++ Ev (Dispatch a rc ts now) x :: u2.
Proof. intros Hc%clock_only_dispatch. by apply (split_after is_dispatch). Qed.

Lemma clock_only_no_dispatch t u1 a rc ts now x u2 :
  clock_only t -> t = u1 ++ Ev (Dispatch a rc ts now) x :: u2 -> False.
Proof. intros Hc%clock_only_dispatch ->. by apply free_no_split in Hc. Qed.

(** What handling a request asks of the service is a call of the pool. *)
Lemma http_calls_are_pooled at_ rq app t r app' :
  exec (handle at_ rq app) t (Ok (r, app')) ->
  free_of not_clock t \/
  exists sc t1 t2 o, unnamed sc = true /\ t = t1 ++ t2 /\ clock_only t1 /\ exec (serve config sc) t2 o.
Proof.
  intros H%handle_inv. destruct H as [Hc _ _|g1 g2 app1 -> Hc _ _ H]; [by left|].
  apply view_inv in H as [[[(n & _ & Hv)|(_ & Hv)] _]|[-> _]]; [| |left; by rewrite app_nil_r].
  - destruct Hv as [e Hc' _|sc v1 v2 o -> Hc' Hb Hs _]; [left; apply free_of_app; by split|right].
    exists sc, (g1 ++ v1), v2, o. rewrite app_assoc. split_and!; [|done|apply free_of_app; by split|done].
    destruct sc as [|? ? ? ? ? c|? ? ? ? ? ? c|]; try done; destruct Hb as (_ & _ & Hn); unfold unnamed; cbn; by rewrite Hn.
  - destruct Hv as [e Hc' _|sc v1 v2 o -> Hc' [_ Hu] Hs _]; [left; apply free_of_app; by split|right].
    exists sc, (g1 ++ v1), v2, o. rewrite app_assoc. split_and!; [done|done|apply free_of_app; by split|done].
Qed.

(** C4.  Through the HTTP application an effect needs its caller.  If handling
    a request reaches the dispatcher, the request was a call of an action or a
    tool that the rate guard admitted; the credential the request itself
    carries (its bearer token or client certificate) was verified in this run
    as a valid principal of the tenant; the evidence of an allow for that
    principal and this very action was durable before; and the reply is not
    one of refusal. *)
Theorem http_effects_are_authorised at_ rq app t r app' t1 t2 a rc ts now x :
  exec (handle at_ rq app) t (Ok (r, app')) -> t = t1 ++ Ev (Dispatch a rc ts now) x :: t2 ->
  (exists n, rq_rule rq = inl (DecideAction n) \/ rq_rule rq = inl (InvokeTool n)) /\
  (exists guard_events, guard_events `prefix_of` t1 /\ admitted rq app guard_events) /\
  (exists cr rec F, presented rq cr /\ authenticated t cr rec /\ Ev (AppendIntent rec) (Ok rc) ∈ t1 /\
     ad_effect (ir_decision rec) = ALLOW /\ with_redacted_parameters a F = Ok (ir_action rec)) /\
  (forall p, r = Ok p -> rp_status p <> 403%Z /\ rp_status p <> 429%Z).
Proof.
  intros H%handle_inv Ht. destruct H as [Hc _ _|g1 g2 app1 -> Hc Hadm _ H].
  { by destruct (clock_only_no_dispatch _ _ _ _ _ _ _ _ Hc Ht). }
  destruct (dispatch_after_clock _ _ _ _ _ _ _ _ _ Hc Ht) as (u & -> & Eu).
  apply view_inv in H as [[[(n & Hr & Hv)|(_ & Hv)] _]|[-> _]]; [| |by destruct u].
  2:{ destruct Hv as [e Hc' _|sc v1 v2 o -> Hc' [Hrep _] Hs _].
      { by destruct (clock_only_no_dispatch _ _ _ _ _ _ _ _ Hc' Eu). }
      destruct (dispatch_after_clock _ _ _ _ _ _ _ _ _ Hc' Eu) as (w & -> & ->).
      destruct (dispatch_inv _ _ _ _ _ _ _ _ _ _ _ Hs eq_refl) as [? _]. congruence. }
  destruct Hv as [e Hc' _|sc v1 v2 o -> Hc' Hb Hs ->].
  { by destruct (clock_only_no_dispatch _ _ _ _ _ _ _ _ Hc' Eu). }
  destruct (dispatch_after_clock _ _ _ _ _ _ _ _ _ Hc' Eu) as (w & -> & ->).
  destruct (dispatch_inv _ _ _ _ _ _ _ _ _ _ _ Hs eq_refl) as (_ & _ & _ & rec & F & Hin & Hall & _ & Hred & _).
  split_and!.
  - by exists n.
  - exists g1. split; [|done]. by eexists.
  - destruct (on_behalf_authenticated rq n sc _ o rec (Ok rc) Hb Hs) as (cr & Hp & Hv & Hrest);
      [apply elem_of_app; by left|congruence|].
    exists cr, rec, F. split_and!; try done.
    + split; [|done]. apply elem_of_app. right. apply elem_of_app. by right.
    + apply elem_of_app. right. apply elem_of_app. by right.
  - intros p. destruct o as [out|e]; cbn [caught].
    + intros [= <-]. change (rp_status (outcome_reply out)) with (status_for out).
      pose proof (dispatched_not_denied _ _ _ _ _ _ _ _ _ _ Hs eq_refl) as Hd.
      split; [intros ?%status_for_denied; congruence|]. pose proof (status_for_range out). lia.
    + intros Hh. by apply handled_status in Hh as (_ & _ & ? & ?).
Qed.

(** C8.  A refusal over HTTP is what it says.  A reply 429 means that no port
    but the clock was called and that no review changed; a reply 403 means that
    the dispatcher was not called and that the denial was recorded before; and
    a reply 200 or 202 of an action or a tool means that the recorded decision
    is no denial. *)
Theorem http_refusals_are_truthful at_ rq app ep t p app' :
  exec (handle at_ rq app) t (Ok (Ok p, app')) -> rq_rule rq = inl ep ->
  (rp_status p = 429%Z -> clock_only t /\ ap_engine app' = ap_engine app) /\
  (rp_status p = 403%Z -> free_of is_dispatch t /\
     exists rec rc, Ev (AppendIntent rec) (Ok rc) ∈ t /\ ad_effect (ir_decision rec) = DENY) /\
  (rp_status p = 200%Z \/ rp_status p = 202%Z -> (exists n, ep = DecideAction n \/ ep = InvokeTool n) ->
     exists rec rc, Ev (AppendIntent rec) (Ok rc) ∈ t /\ ad_effect (ir_decision rec) <> DENY).
Proof.
  intros H%handle_inv Hep. destruct H as [Hc He Hp|t1 t2 app1 -> Hc _ He H].
  { pose proof (Hp p eq_refl). split_and!; [done|lia|lia]. }
  apply view_inv in H as [[[(n & Hr & Hv)|(Hr & Hv)] ->]|[-> [Hu Hno]%(fun H => H ep Hep)]].
  - destruct Hv as [e _ Hh|sc v1 v2 o -> Hc' _ Hx Hh].
    { apply eq_sym, handled_status in Hh. split_and!; lia. }
    destruct o as [out|e]; [injection Hh as ->|apply eq_sym, handled_status in Hh; split_and!; lia].
    change (rp_status (outcome_reply out)) with (status_for out).
    pose proof (status_for_range out). destruct (outcome_inv _ _ _ _ Hx) as (rec & Hin & _ & Hd & _ & _ & _ & _ & Hset).
    assert (Hin' : Ev (AppendIntent rec) (Ok (do_receipt out)) ∈ t1 ++ v1 ++ v2)
      by (apply elem_of_app; right; apply elem_of_app; by right).
    split_and!; [lia| |].
    + intros Hden%status_for_denied. unfold settled in Hset. rewrite Hden in Hset. split.
      * apply free_of_app. split; [by apply clock_only_dispatch|]. apply free_of_app.
        split; [by apply clock_only_dispatch|apply Hset].
      * exists rec, (do_receipt out). split; [done|congruence].
    + intros Hok _. exists rec, (do_receipt out). split; [done|]. rewrite Hd, <-status_for_denied. lia.
  - destruct Hv as [e _ Hh|sc v1 v2 o -> _ _ Hx Hh].
    { apply eq_sym, handled_status in Hh. split_and!; lia. }
    destruct o as [out|e]; [injection Hh as ->|apply eq_sym, handled_status in Hh; split_and!; lia].
    split_and!; [done|done|]. intros _ [n [->| ->]]; congruence.
  - destruct (Hu p eq_refl) as [? ?]. split_and!; [lia|lia|]. intros _ [n [->| ->]]; by destruct (Hno n).
Qed.
End app.

(** ** Over the in-memory adapters *)

Definition wire_body (amount : Z) : json :=
  JObj [("resource", JObj [("kind", JStr "account"); ("id", JStr "a1"); ("tenant_id", JStr "t1")]);
        ("parameters", JObj [("pin", JStr "1234"); ("memo", JStr "rent"); ("amount", JInt amount)]);
        ("idempotency_key", JStr "k7")].

Definition request_of (rule : endpoint) (token : option string) (b : json) : Request :=
  {| rq_path := "/v2"; rq_rule := inl rule; rq_remote_addr := Some "10.0.0.1"; rq_authorization := token;
     rq_client_cert := None; rq_tenant_id := None; rq_subject_id := None; rq_json := Some b |}.

Definition sample_app (max_requests : Z) : App :=
  {| ap_admission := Some {| hc_max_requests := max_requests; hc_window_seconds := fz 60; hc_max_tracked_clients := 50000;
                             hc_buckets := [] |};
     ap_engine := Some sample_engine |}.

Definition http_sample (rq : Request) (app : App) (s : Runtime) : res (res reply * App) * Runtime * list event :=
  run (memory_env sample_mint any_repr sample_effect)
    (handle sample_config review_mint (JObj []) py_repr 5 rq app) s.

Definition http_status (r : res (res reply * App) * Runtime * list event) : res (res Z) :=
  match r.1.1 with Ok (Ok p, _) => Ok (Ok (rp_status p)) | Ok (Raise e, _) => Ok (Raise e) | Raise e => Raise e end.

Lemma http_sample_exec rq app s :
  exec (handle sample_config review_mint (JObj []) py_repr 5 rq app) (http_sample rq app s).2 (http_sample rq app s).1.1.
Proof.
  eapply (run_exec (memory_env sample_mint any_repr sample_effect) _ s). unfold http_sample.
  rewrite <-!surjective_pairing. reflexivity.
Qed.

Definition wire_request : Request := request_of (DecideAction "payments.wire") (Some "Bearer dev:t1:agent-1:i1") (wire_body 5).
Definition wire_run := http_sample wire_request (sample_app 2) (sample_runtime [fz 5; fz 5]).
(** The baseline of an agent with no history denies. *)
Definition denied_run := http_sample wire_request (sample_app 2) (sample_runtime []).

Example wire_answers :
  http_status wire_run = Ok (Ok 200%Z) /\ http_status denied_run = Ok (Ok 403%Z) /\
  http_status (http_sample (request_of (DecideAction "payments.wire") None (wire_body 5)) (sample_app 2) (sample_runtime []))
    = Ok (Ok 401%Z) /\
  http_status (http_sample (request_of (DecideAction "payments.wire") (Some "Bearer dev:t1:agent-1:i1") (JArr [])) (sample_app 2)
    (sample_runtime [])) = Ok (Ok 400%Z).
Proof. vm_compute. split_and!; reflexivity. Qed.

Lemma http_effects_are_authorised_witness :
  exists cr rec rc, presented wire_request cr /\ authenticated wire_run.2 cr rec /\
    Ev (AppendIntent rec) (Ok rc) ∈ wire_run.2 /\ ad_effect (ir_decision rec) = ALLOW.
Proof.
  assert (Hs : is_some (split_dispatch wire_run.2) = true) by (vm_compute; reflexivity).
  apply is_some_true in Hs as [[[t1 [[[[a rc] ts] now] x]] t2] E]. apply split_dispatch_ok in E.
  assert (Ho : exists r app', wire_run.1.1 = Ok (r, app'))
    by (destruct wire_run.1.1 as [[r app']|e] eqn:Eo; [by eexists _, _|exfalso; revert Eo; vm_compute; discriminate]).
  destruct Ho as (r & app' & Ho). pose proof (http_sample_exec wire_request (sample_app 2) (sample_runtime [fz 5; fz 5])) as Hx.
  change (http_sample wire_request (sample_app 2) (sample_runtime [fz 5; fz 5])) with wire_run in Hx. rewrite Ho in Hx.
  destruct (http_effects_are_authorised sample_config review_mint (JObj []) py_repr 5 wire_request (sample_app 2)
              wire_run.2 r app' t1 t2 a rc ts now x Hx E) as (_ & _ & (cr & rec & F & Hp & Ha & Hin & Hall & _) & _).
  exists cr, rec, rc. split; [exact Hp|]. split; [exact Ha|]. split; [|exact Hall].
  rewrite E. apply elem_of_app. left. exact Hin.
Defined.

Lemma http_refusals_are_truthful_witness : free_of is_dispatch denied_run.2.
Proof.
  assert (Ho : exists p app', denied_run.1.1 = Ok (Ok p, app') /\ rp_status p = 403%Z).
  { destruct denied_run.1.1 as [[[p|e] app']|e] eqn:Eo; [|exfalso; revert Eo; vm_compute; discriminate..].
    exists p, app'. split; [done|]. revert Eo. vm_compute. intros [= <- _]. reflexivity. }
  destruct Ho as (p & app' & Ho & Hp). pose proof (http_sample_exec wire_request (sample_app 2) (sample_runtime [])) as Hx.
  change (http_sample wire_request (sample_app 2) (sample_runtime [])) with denied_run in Hx. rewrite Ho in Hx.
  destruct (http_refusals_are_truthful sample_config review_mint (JObj []) py_repr 5 wire_request (sample_app 2)
              (DecideAction "payments.wire") denied_run.2 p app' Hx eq_refl) as (_ & H & _).
  exact (proj1 (H Hp)).
Defined.

(** ** What the code does where its documentation says otherwise *)

Definition is_approved (r : res (option ApprovalRecord)) : bool :=
  match r with Ok (Some rec) => bool_decide (ar_state rec = APPROVED) | _ => false end.

(** The approval routes look at no credential: whoever reaches them names the
    actor, and how many approvers it takes. *)
Example anyone_approves :
  match (http_sample (request_of (Approve "d1") None (JObj [("actor", JStr "mallory")])) (sample_app 2) (sample_runtime [])).1.1 with
  | Ok (Ok p, app') =>
      rp_status p = 200%Z /\ is_approved (get_status 5 (ap_engine app') "d1") = true
  | _ => False
  end.
Proof. vm_compute. split; reflexivity. Qed.

(** What a client sends can end in an exception no view handles. *)
Example malformed_requests_escape :
  http_status (http_sample (request_of (Approve "d1") None (JObj [("actor", JStr "a"); ("min_approvers", JNull)]))
    (sample_app 2) (sample_runtime [])) = Ok (Raise PyTypeError) /\
  http_status (http_sample (request_of ReplayRoute None
    (JObj [("principal", JObj [("agent_ref", JStr "a"); ("agent_instance_id", JStr "i"); ("tenant_id", JStr "t1");
                               ("credential_type", JStr "password")])]))
    (sample_app 2) (sample_runtime [])) = Ok (Raise PyValueError).
Proof. vm_compute. split; reflexivity. Qed.

(** The status is looked up by the name of the class, not by its bases, so a
    failure of the database driver, an [EvidenceWriteError], is not answered as one. *)
Example subclasses_lose_their_status :
  error_status "EvidenceWriteError" = 503%Z /\ error_status "DriverUnavailableError" = 500%Z /\
  error_status "SigningUnavailableError" = 503%Z /\ error_status "KmsUnavailableError" = 500%Z.
Proof. split_and!; reflexivity. Qed.

Definition is_release : call_class := fun X p => match p with Release _ _ => true | _ => false end.

(** A malformed causation id is found only when the record is built: the budget
    is consumed and kept, and nothing is recorded. *)
Example malformed_causation_keeps_budget :
  let r := http_sample (request_of (DecideAction "payments.wire") (Some "Bearer dev:t1:agent-1:i1")
             (JObj (("causation_id", JInt 7) :: mapping (Some (wire_body 5))))) (sample_app 2) (sample_runtime [fz 5; fz 5]) in
  http_status r = Ok (Ok 400%Z) /\ admitted_first r.2 = true /\ find_intent r.2 = None /\
  forallb (fun e => negb (event_in is_release e)) r.2 = true.
Proof. vm_compute. split_and!; reflexivity. Qed.
